(* ===== verification/_CoqProject ===== *)
-Q . S2P
Prelude.v
ListSpec.v
ListC.v
Heap4.v
Allocator.v
Kernel.v
KernelInv.v
KernelTick.v
KernelResume.v
KernelSched.v
KernelEvent.v
KernelTimeout.v
KernelPrio.v
Tasks.v
KernelWait.v
Bytes.v
Queue.v
QueueSpec.v
QueueBlock.v
QueueMutex.v
QueueCreate.v
KernelSample.v
QueueSample.v
Logger.v
Shell.v
ShellSample.v
Clients.v
LwipErr.v
SysArch.v
SysArchSample.v
Notify.v
NotifySample.v
StreamBuffer.v
StreamSpec.v
StreamSample.v
Mem.v
MemSpec.v
MemSample.v
LwipMem.v
Pbuf.v
PbufGraph.v
PbufRep.v
PbufSpec.v
PbufSample.v
Ethernet.v
EthernetSpec.v
EthernetSample.v
DhcpMsg.v
DhcpMsgSpec.v
Netif.v
Dhcp.v
DhcpWp.v
DhcpSpec.v
DhcpRefine.v
DhcpSample.v
Network.v
TcpServer.v
TcpServerSpec.v
InetChksum.v
InetChksumSpec.v
InetChksumSample.v
Timeouts.v
TimeoutsSpec.v
Etharp.v
EtharpSpec.v
Ip4Addr.v
Ip4AddrSpec.v
