(* ===== verification/Prelude.v ===== *)
(** * The firmware of the STM32F767 shell, verified

    The repository is the firmware of a NUCLEO-F767ZI board: the application
    under [src/src] and [src/include] (logger, UART shell over LittleFS,
    network start-up, TCP echo server), the FreeRTOS kernel it runs on
    ([src/lib/FreeRTOS]) and lwIP with its port ([src/lib/lwIP]).  This library
    translates the code that decides something into executable definitions,
    part by part, and proves what each part promises to the part above it.
    Names are the names of the source wherever the language allows it.

    ** Conventions.  Integers of [w] bits are [Z] with an explicit wrap ([u8],
    [u16], [u32], [s8], [s32] below); [size_t], [TickType_t] and pointers are
    32 bits wide, and the processor is little endian.  A definition returns
    [option]: [None] is an access through an invalid pointer, outside of an
    array, or (where said) fuel that ran out; every theorem that speaks of a
    result also proves that there is one.  [configASSERT] is empty in this
    configuration and the assertions of lwIP only print.  Critical sections
    are atomic steps; between two steps of a blocking call anything may happen
    to the shared state that the kernel invariant allows.  C code is modelled
    in the configuration of [src/include/FreeRTOSConfig.h] and
    [src/lib/lwIP/port/lwipopts.h].

    ** Shared files.

    - [Prelude]: machine integers, [wrap_lia], splices of byte arrays, options.
    - [Bytes]: a memory of bytes by address, stores and loads.
    - [Clients]: a client chooses each call from the answers so far; if each
      call refines a specification, so does every client.
    - [LwipErr]: the error codes of lwIP.

    ** FreeRTOS.

    - [ListSpec], [ListC] (list.c): the circular lists of FreeRTOS as nodes
      with pointers; every program of list calls acts on the abstract sequence
      with a cursor as [ListSpec] says.  The kernel works on these sequences.
    - [Heap4] (heap_4.c): the block headers in a 64 KB arena, allocation and
      coalescing free; [Allocator] is the interface (class) that the kernel's
      creation functions are proved against, and Heap4 discharges it.
    - [Kernel] and [KernelInv], [KernelTick], [KernelResume], [KernelSched],
      [KernelEvent], [KernelTimeout], [KernelPrio], [KernelWait] (tasks.c): the
      task lists, tick, delays, suspension of the scheduler, selection of the
      next task, event lists, time-outs, priority inheritance.  [Tasks] adds
      creation, deletion and the idle task's clean-up.
    - [Queue] (queue.c), with [QueueSpec] (calls that do not wait against a
      bounded FIFO), [QueueBlock] (blocking calls as step machines: no lost
      wake-up, time-out), [QueueMutex] (any number of mutexes as automata, with
      anything between their calls that leaves them and the counts of held
      mutexes alone) and [QueueCreate] (creation and deletion).
    - [Notify] (tasks.c, task notifications): gives from tasks and interrupts
      are counted, under any interleaving.
    - [StreamBuffer], [StreamSpec] (stream_buffer.c): the ring without locks
      between one writer and one reader, step by step; message buffers against
      a bounded queue of messages.

    ** The application.

    - [Logger] (Logger.cpp, Uart.hpp) and [Shell] (Shell.cpp, Filesystem.hpp):
      the circular log and the commands, over LittleFS as a type class.  The
      local arrays of flush, ls, read and the log calls have their sizes, and
      every write to them is checked.
    - [Network] (Network.cpp): the DHCP task with its fall-back address, on the
      model of the DHCP client; the counter of the polling task.
    - [TcpServer], [TcpServerSpec] (TcpServer.cpp, netbuf.c): the echo server
      as an interaction tree over the calls of lwIP's sequential API, which an
      environment answers.

    ** lwIP.

    - [SysArch] (port/sys_arch.c): mailboxes, semaphores and mutexes on the
      queues of [Queue]; clients whose calls need not wait are answered as by
      bounded FIFOs and counters, calls that wait do the same at their last step
      whatever happens between their steps, and time-outs are exact.
    - [Mem], [MemSpec] (mem.c): the heap in ram with its two sentinels;
      [LwipMem] is the interface (class, with its laws) to the heap and the
      pools that packet buffers are proved against.
    - [Pbuf] (pbuf.c), [PbufGraph] (graphs of chains), [PbufRep] (how a store
      represents a graph), [PbufSpec]: any client that allocates, shares,
      frees, joins, cuts, writes and reads is answered as by a graph in which
      what can be reached stays.
    - [Ethernet], [EthernetSpec] (port/ethernetif.c): received frames become
      pbufs with exactly their bytes; chains are sent as their bytes.
    - [InetChksum], [InetChksumSpec] (inet_chksum.c): the checksum of a buffer
      or a chain at any alignment is that of RFC 1071; a segment that carries
      its checksum is accepted, one with another checksum is not.
    - [Ip4Addr], [Ip4AddrSpec] (ip4_addr.c): addresses as text; what is written
      is read back, and the parser accepts one to four numbers between dots (in
      a notation that is wider than that of C).
    - [Timeouts], [TimeoutsSpec] (timeouts.c): the sorted list of timeouts
      with times that wrap, against a reference on an unbounded clock.
    - [Etharp], [EtharpSpec] (etharp.c): the ARP cache and the packets that
      wait in it; frames go where the network announced, entries age, and every
      reference to a pbuf is held by the table or was given back.
    - [DhcpMsg], [DhcpMsgSpec] (dhcp.c): messages, and the parser of options
      over fragments, which reads back what was encoded.
    - [Netif] (netif.c): addresses and flags of the interface.
    - [Dhcp], [DhcpWp], [DhcpSpec], [DhcpRefine] (dhcp.c): the DHCP client in a
      state monad with the rules of a weakest precondition; every event keeps
      the invariant and is a step of the state diagram; leases expire;
      addresses were acknowledged.  Memory, the answers of UDP and rand(), from
      which transaction ids are drawn, are an environment.

    The files whose names end in [Sample] apply the theorems of their part to
    concrete states.

    ** How the parts meet.  Queues, semaphores and mutexes call the kernel
    through the event lists ([xTaskRemoveFromEventList],
    [vTaskPlaceOnEventList]) and the kernel's invariant [kinv] is the contract
    between them: every operation of tasks.c and queue.c preserves it.  The
    port's mailboxes are queues.  Memory comes from the classes [Allocator]
    (FreeRTOS) and [LwipMem] (lwIP).  The interface port, and the checksum,
    read and write pbufs through [represents].  The DHCP task runs the client
    of [Dhcp], which configures [Netif] and builds [DhcpMsg] messages.  The
    shell meets the logger through [logger_ok] and LittleFS through [LfsOk].

    ** Fuel.  Loops over kernel lists take the length of the list, the free
    list walk of heap_4 and of mem.c the number of blocks, the insertion walk
    of list.c the length of the list.  Loops over pbufs take one more than the
    number of pbufs there are, allocation from the pool one more than the
    length asked for.  The DHCP parser takes one more than the length of the
    message and four passes; the padding of a message at most 69 bytes.  A loop
    of flush takes one more than the size of the log; ls takes as many rounds as
    its theorem is told the directory has entries.  A
    check of the timeouts takes [check_fuel], 11 rounds: each of the five
    timeouts of the pool goes off at most twice in one check.  [print_ulong]
    takes ten digits, what a 32-bit number needs.  The theorems state that the
    fuel is enough.

    ** Not modelled.  The Cortex-M assembly (context switch, SVC), the HAL and
    CMSIS, LittleFS itself and the flash callbacks, printf's formatting of
    arguments, and the initialisation of the hardware (main.cpp,
    EthernetIF.cpp, Led.hpp).  Of lwIP: TCP, UDP, IP, ICMP and the
    demultiplexing of frames (ethernet.c), which the
    parts above meet as events, calls or an input function, and the sequential
    API between the echo server and TCP, which is an environment there.  Of
    FreeRTOS: software timers and event groups, which nothing in the firmware
    creates.  The driver of the PHY (register accesses).  What the configuration
    leaves out: co-routines, queue sets, static allocation, sockets, DNS,
    AutoIP, IGMP, IPv6. *)

From stdpp Require Export prelude list gmap strings numbers sorting.
From Stdlib Require Export ZArith Lia.

#[export] Set Default Proof Using "Type".

(** ** Machine integers

    A C unsigned integer of [w] bits is a [Z] kept in [0, 2^w); every
    arithmetic operation of the source that may leave the range is
    followed by the wrap of its type.  [size_t], [UBaseType_t],
    [TickType_t] and [u32_t] are 32 bits wide on the Cortex-M7. *)

Declare Scope fw_scope.
Delimit Scope fw_scope with fw.

Definition wrap (w z : Z) : Z := (z mod 2 ^ w)%Z.

Definition u8 (z : Z) : Z := (z mod 256)%Z.
Definition u16 (z : Z) : Z := (z mod 65536)%Z.
Definition u32 (z : Z) : Z := (z mod 4294967296)%Z.

(** Two's complement conversion to [int8_t] and [int32_t]. *)
Definition s8 (z : Z) : Z := ((z + 128) mod 256 - 128)%Z.
Definition s32 (z : Z) : Z :=
  ((z + 2147483648) mod 4294967296 - 2147483648)%Z.

Notation "'is_u8' z" := (0 <= z < 256)%Z (at level 10, z at level 9) : fw_scope.
Notation "'is_u16' z" := (0 <= z < 65536)%Z (at level 10, z at level 9) : fw_scope.
Notation "'is_u32' z" := (0 <= z < 4294967296)%Z (at level 10, z at level 9) : fw_scope.

(** [portMAX_DELAY] and the booleans of projdefs.h. *)
Definition portMAX_DELAY : Z := 4294967295.

Section ints.
Local Open Scope Z_scope.

Lemma u32_range z : 0 <= u32 z < 4294967296.
Proof. unfold u32. apply Z.mod_pos_bound. lia. Qed.

Lemma u16_range z : 0 <= u16 z < 65536.
Proof. unfold u16. apply Z.mod_pos_bound. lia. Qed.

Lemma u8_range z : 0 <= u8 z < 256.
Proof. unfold u8. apply Z.mod_pos_bound. lia. Qed.

Lemma u32_small z : 0 <= z < 4294967296 -> u32 z = z.
Proof. intros. unfold u32. by apply Z.mod_small. Qed.

Lemma u16_small z : 0 <= z < 65536 -> u16 z = z.
Proof. intros. unfold u16. by apply Z.mod_small. Qed.

Lemma u8_small z : 0 <= z < 256 -> u8 z = z.
Proof. intros. unfold u8. by apply Z.mod_small. Qed.

Lemma u32_idem z : u32 (u32 z) = u32 z.
Proof. apply u32_small, u32_range. Qed.

Lemma s8_small z : -128 <= z < 128 -> s8 z = z.
Proof. intros. unfold s8. rewrite Z.mod_small; lia. Qed.

Lemma s8_range z : -128 <= s8 z < 128.
Proof. unfold s8. pose proof (Z.mod_pos_bound (z + 128) 256). lia. Qed.
End ints.

(** ** Tactics *)

(** Linear arithmetic with the machine wraps and Euclidean division exposed. *)
Ltac wrap_lia :=
  unfold u8, u16, u32, s8, s32, portMAX_DELAY in *;
  Z.div_mod_to_equations; lia.

(** Boolean tests of the source become propositions. *)
Ltac bool_to_prop :=
  repeat match goal with
  | H : (_ && _) = true |- _ => apply andb_true_iff in H as [? ?]
  | H : (_ || _) = false |- _ => apply orb_false_iff in H as [? ?]
  | H : negb _ = true |- _ => apply negb_true_iff in H
  | H : negb _ = false |- _ => apply negb_false_iff in H
  | H : (_ =? _)%Z = true |- _ => apply Z.eqb_eq in H
  | H : (_ =? _)%Z = false |- _ => apply Z.eqb_neq in H
  | H : (_ <? _)%Z = true |- _ => apply Z.ltb_lt in H
  | H : (_ <? _)%Z = false |- _ => apply Z.ltb_ge in H
  | H : (_ <=? _)%Z = true |- _ => apply Z.leb_le in H
  | H : (_ <=? _)%Z = false |- _ => apply Z.leb_gt in H
  | H : bool_decide _ = true |- _ => apply bool_decide_eq_true in H
  | H : bool_decide _ = false |- _ => apply bool_decide_eq_false in H
  end.

(** Case analysis on the tests and matches in the goal. *)
Ltac case_tests :=
  repeat (case_match; bool_to_prop; simplify_eq/=).

Create HintDb fw.
#[export] Hint Resolve u32_range u16_range u8_range s8_range : fw.
Create Rewrite HintDb fw_rw.
#[export] Hint Rewrite u32_idem : fw_rw.

(** ** Four bytes in memory: little endian, as the processor stores them *)

Section le32.
Local Open Scope Z_scope.
Definition le32 (v : Z) : list Z := [v mod 256; v / 256 mod 256; v / 65536 mod 256; v / 16777216 mod 256].
Definition le32_of (bs : list Z) : Z :=
  match bs with [a; b; c; d] => a + 256 * b + 65536 * c + 16777216 * d | _ => 0 end.

Lemma le32_of_le32 v : 0 <= v < 4294967296 -> le32_of (le32 v) = v.
Proof. intros Hv. unfold le32_of, le32. Z.div_mod_to_equations. lia. Qed.
End le32.

(** ** Byte areas: [memcpy] into and out of a list of bytes *)

Section splice.
Context {A : Type}.

(** [memcpy(&area[off], bs, length bs)] for an area that contains the range. *)
Definition splice (off : nat) (bs area : list A) : list A :=
  take off area ++ bs ++ drop (off + length bs) area.

(** [memcpy(dst, &area[off], n)]. *)
Definition slice (off n : nat) (area : list A) : list A :=
  take n (drop off area).

Lemma length_splice off bs area :
  off + length bs <= length area -> length (splice off bs area) = length area.
Proof.
  intros. unfold splice. rewrite !length_app, length_take, length_drop. lia.
Qed.

Lemma length_slice off n area :
  off + n <= length area -> length (slice off n area) = n.
Proof. intros. unfold slice. rewrite length_take, length_drop. lia. Qed.

Lemma lookup_splice off bs area i :
  off + length bs <= length area ->
  splice off bs area !! i = if decide (off <= i < off + length bs) then bs !! (i - off) else area !! i.
Proof.
  intros Hl. unfold splice. assert (length (take off area) = off) as Ht by (rewrite length_take; lia).
  destruct (decide (i < off)).
  - rewrite lookup_app_l by lia. rewrite lookup_take_lt by lia. by rewrite decide_False by lia.
  - rewrite lookup_app_r by lia. rewrite Ht. destruct (decide (i < off + length bs)).
    + rewrite decide_True by lia. by rewrite lookup_app_l by lia.
    + rewrite decide_False by lia. rewrite lookup_app_r by lia. rewrite lookup_drop. f_equal. lia.
Qed.

Lemma lookup_slice off n area i :
  slice off n area !! i = if decide (i < n) then area !! (off + i) else None.
Proof.
  unfold slice. case_decide.
  - rewrite lookup_take_lt by done. apply lookup_drop.
  - by apply lookup_take_ge; lia.
Qed.

Lemma slice_splice_eq off bs area :
  off + length bs <= length area -> slice off (length bs) (splice off bs area) = bs.
Proof.
  intros. unfold slice, splice.
  rewrite drop_app_length' by (rewrite length_take; lia).
  by rewrite take_app_length.
Qed.

Lemma slice_splice_before off bs area o n :
  off + length bs <= length area -> o + n <= off ->
  slice o n (splice off bs area) = slice o n area.
Proof.
  intros. unfold slice, splice.
  rewrite drop_app_le by (rewrite length_take; lia).
  rewrite take_app_le by (rewrite length_drop, length_take; lia).
  rewrite skipn_firstn_comm, take_take. f_equal. lia.
Qed.

Lemma slice_splice_after off bs area o n :
  off + length bs <= length area -> off + length bs <= o ->
  slice o n (splice off bs area) = slice o n area.
Proof.
  intros. unfold slice, splice. f_equal.
  rewrite (assoc_L (++)), drop_app_ge by (rewrite length_app, length_take; lia).
  rewrite drop_drop. f_equal. rewrite length_app, length_take. lia.
Qed.
End splice.

Section memcpy.
Local Open Scope Z_scope.
(** [memcpy(&dst[off], &src[from], n)]. *)
Definition memcpy_bytes (dst : list Z) (off : Z) (src : list Z) (from n : Z) : option (list Z) :=
  if (off + n <=? Z.of_nat (length dst)) && (from + n <=? Z.of_nat (length src))
  then Some (splice (Z.to_nat off) (slice (Z.to_nat from) (Z.to_nat n) src) dst) else None.

Lemma memcpy_bytes_eq dst off src from n : 0 <= off -> 0 <= from -> 0 <= n ->
  off + n <= Z.of_nat (length dst) -> from + n <= Z.of_nat (length src) ->
  memcpy_bytes dst off src from n = Some (splice (Z.to_nat off) (slice (Z.to_nat from) (Z.to_nat n) src) dst).
Proof.
  intros. unfold memcpy_bytes. rewrite !(proj2 (Z.leb_le _ _)) by done. done.
Qed.
End memcpy.

(** ** Maps as memories: distinct addresses in use bound the loops *)

Lemma length_le_size {K V} `{Countable K} (m : gmap K V) (ks : list K) :
  NoDup ks -> (forall k, k ∈ ks -> is_Some (m !! k)) -> length ks <= size m.
Proof.
  intros Hn Hks. rewrite <- (size_list_to_set (C := gset K) ks) by done.
  rewrite <- size_dom. apply subseteq_size. intros k Hk.
  apply elem_of_dom, Hks. by apply elem_of_list_to_set in Hk.
Qed.
