(* ===== verification/ListSpec.v ===== *)
(** * Specification of the kernel lists

    What list.c promises to the rest of the kernel: a list is a ring of
    items read from its end marker, with a walking index that is either at the
    end marker or at one of its items.  [ListC] proves that the pointer code of
    list.c implements these operations; the kernel model uses them. *)

From S2P Require Import Prelude.

(** ** One list *)

Record Ring (I : Type) := mkRing { r_items : list I; r_index : option I }.
Arguments mkRing {I} _ _.
Arguments r_items {I} _.
Arguments r_index {I} _.

Section ring.
Context {I : Type} `{EqDecision I}.

Definition ring_empty : Ring I := mkRing [] None.

(** Ordered insertion: after every item whose value is at most [v]. *)
Fixpoint ins_sorted (val : I -> Z) (v : Z) (i : I) (xs : list I) : list I :=
  match xs with
  | [] => [i]
  | x :: xs' => if (val x <=? v)%Z then x :: ins_sorted val v i xs' else i :: xs
  end.

(** Insertion just before [j]. *)
Fixpoint ins_before (j i : I) (xs : list I) : list I :=
  match xs with
  | [] => [i]
  | x :: xs' => if decide (x = j) then i :: xs else x :: ins_before j i xs'
  end.

(** Insertion just before the index: at the back when it is the end marker. *)
Definition ring_insert_end (i : I) (r : Ring I) : Ring I :=
  mkRing (match r_index r with
          | None => r_items r ++ [i]
          | Some j => ins_before j i (r_items r)
          end) (r_index r).

Definition ring_insert (val : I -> Z) (v : Z) (i : I) (r : Ring I) : Ring I :=
  mkRing (ins_sorted val v i (r_items r)) (r_index r).

(** The item before [i] in the list; [None] is the end marker. *)
Fixpoint pred_of (prev : option I) (i : I) (xs : list I) : option I :=
  match xs with
  | [] => prev
  | x :: xs' => if decide (x = i) then prev else pred_of (Some x) i xs'
  end.

Fixpoint remove_item (i : I) (xs : list I) : list I :=
  match xs with
  | [] => []
  | x :: xs' => if decide (x = i) then xs' else x :: remove_item i xs'
  end.

Definition ring_remove (i : I) (r : Ring I) : Ring I :=
  mkRing (remove_item i (r_items r))
         (if decide (r_index r = Some i) then pred_of None i (r_items r)
          else r_index r).

(** The item after the index, skipping the end marker. *)
Fixpoint succ_of (i : I) (xs : list I) : option I :=
  match xs with
  | [] => None
  | x :: xs' => if decide (x = i) then head xs' else succ_of i xs'
  end.

Definition ring_next (r : Ring I) : option I :=
  match r_index r with
  | None => head (r_items r)
  | Some j => match succ_of j (r_items r) with
              | Some k => Some k
              | None => head (r_items r)
              end
  end.

Definition ring_advance (r : Ring I) : Ring I := mkRing (r_items r) (ring_next r).

Definition ring_wf (r : Ring I) : Prop :=
  NoDup (r_items r) /\ (forall i, r_index r = Some i -> i ∈ r_items r).

(** *** Lemmas *)

Lemma ins_sorted_split val v i xs :
  exists ys zs, xs = ys ++ zs /\ ins_sorted val v i xs = ys ++ i :: zs /\
    Forall (fun y => (val y <= v)%Z) ys /\
    (forall z, head zs = Some z -> (v < val z)%Z).
Proof.
  induction xs as [|x xs IH]; simpl.
  { exists [], []. repeat split; [constructor|done]. }
  destruct (val x <=? v)%Z eqn:E; bool_to_prop.
  - destruct IH as (ys & zs & -> & -> & H1 & H2).
    exists (x :: ys), zs. repeat split; [by constructor|done].
  - exists [], (x :: xs). repeat split; [constructor|]. intros z [= <-]. lia.
Qed.

Lemma ins_sorted_perm val v i xs : ins_sorted val v i xs ≡ₚ i :: xs.
Proof.
  destruct (ins_sorted_split val v i xs) as (ys & zs & -> & -> & _ & _).
  by rewrite Permutation_middle.
Qed.

Lemma ins_sorted_append val v i xs :
  Forall (fun y => (val y <= v)%Z) xs -> ins_sorted val v i xs = xs ++ [i].
Proof.
  induction 1 as [|x xs Hx _ IH]; simpl; [done|].
  rewrite IH. by destruct (Z.leb_spec (val x) v); [|lia].
Qed.

Lemma ins_sorted_sorted val v i xs :
  StronglySorted (fun a b => (val a <= val b)%Z) xs -> val i = v ->
  StronglySorted (fun a b => (val a <= val b)%Z) (ins_sorted val v i xs).
Proof.
  intros Hs Hv. induction Hs as [|x xs Hs IH Hx]; simpl.
  { repeat constructor. }
  destruct (val x <=? v)%Z eqn:E; bool_to_prop.
  - constructor; [done|]. rewrite ins_sorted_perm. constructor; [lia|done].
  - constructor; [by constructor|]. constructor; [lia|].
    eapply Forall_impl; [done|]. simpl. lia.
Qed.

Lemma ins_before_split j i xs :
  j ∈ xs -> exists ys zs, xs = ys ++ j :: zs /\ (j ∉ ys) /\
    ins_before j i xs = ys ++ i :: j :: zs.
Proof.
  induction xs as [|x xs IH]; [by rewrite elem_of_nil|].
  intros Hj. simpl. case_decide as Hx; subst.
  - exists [], xs. split_and!; [done|apply not_elem_of_nil|done..].
  - apply elem_of_cons in Hj as [->|Hj]; [done|].
    destruct (IH Hj) as (ys & zs & -> & Hn & ->).
    exists (x :: ys), zs. split; [done|]. split; [|done].
    intros [?|?]%elem_of_cons; congruence.
Qed.

Lemma ins_before_perm j i xs : ins_before j i xs ≡ₚ i :: xs.
Proof.
  induction xs as [|x xs IH]; simpl; [done|].
  case_decide; [done|]. rewrite IH. apply Permutation_swap.
Qed.

Lemma insert_end_perm i r : r_items (ring_insert_end i r) ≡ₚ i :: r_items r.
Proof.
  unfold ring_insert_end; simpl. destruct (r_index r) as [j|].
  - apply ins_before_perm.
  - by rewrite (Permutation_app_comm _ [i]).
Qed.

Lemma remove_item_split i xs :
  i ∈ xs -> exists ys zs, xs = ys ++ i :: zs /\ (i ∉ ys) /\ remove_item i xs = ys ++ zs
    /\ forall p, pred_of p i xs = match last ys with Some y => Some y | None => p end.
Proof.
  induction xs as [|x xs IH]; [by rewrite elem_of_nil|].
  intros Hi. simpl. case_decide as Hx; subst.
  - exists [], xs. split_and!; [done|apply not_elem_of_nil|done..].
  - apply elem_of_cons in Hi as [->|Hi]; [done|].
    destruct (IH Hi) as (ys & zs & -> & Hn & -> & Hp).
    exists (x :: ys), zs. split; [done|]. split; [|split; [done|]].
    { intros [?|?]%elem_of_cons; congruence. }
    intros p. rewrite Hp, last_cons. by destruct (last ys).
Qed.

Lemma pred_of_app p i ys zs :
  i ∉ ys ->
  pred_of p i (ys ++ i :: zs) = match last ys with Some y => Some y | None => p end.
Proof.
  revert p. induction ys as [|y ys IH]; intros p Hi; simpl; [by rewrite decide_True|].
  apply not_elem_of_cons in Hi as [? ?]. rewrite decide_False, IH, last_cons by congruence.
  by destruct (last ys).
Qed.

Lemma remove_item_perm i xs : i ∈ xs -> xs ≡ₚ i :: remove_item i xs.
Proof.
  intros (ys & zs & -> & _ & -> & _)%remove_item_split.
  by rewrite Permutation_middle.
Qed.

Lemma remove_item_notin i xs : i ∉ xs -> remove_item i xs = xs.
Proof.
  induction xs as [|x xs IH]; simpl; [done|].
  intros [Hx Hi]%not_elem_of_cons. case_decide; [by subst|]. by rewrite IH.
Qed.

Lemma elem_of_remove_item i x xs :
  NoDup xs -> (x ∈ remove_item i xs) <-> (x ∈ xs /\ x <> i).
Proof.
  intros Hn. destruct (decide (i ∈ xs)) as [Hi|Hi].
  - pose proof (remove_item_perm i xs Hi) as Hp. rewrite Hp in Hn.
    apply NoDup_cons in Hn as [Hn _]. rewrite Hp at 2. rewrite elem_of_cons.
    split; [|naive_solver]. intros Hx. split; [by right|]. by intros ->.
  - rewrite remove_item_notin by done. split; [|naive_solver].
    intros Hx. split; [done|]. by intros ->.
Qed.

Lemma NoDup_remove_item i xs : NoDup xs -> NoDup (remove_item i xs).
Proof.
  intros Hn. destruct (decide (i ∈ xs)) as [Hi|Hi].
  - rewrite (remove_item_perm i xs Hi) in Hn. by apply NoDup_cons in Hn as [_ Hn].
  - by rewrite remove_item_notin.
Qed.

Lemma remove_item_sublist i xs : sublist (remove_item i xs) xs.
Proof.
  induction xs as [|x xs IH]; simpl; [constructor|].
  case_decide; [by constructor|]. by constructor.
Qed.

Lemma length_remove_item i xs :
  i ∈ xs -> S (length (remove_item i xs)) = length xs.
Proof. intros H. by rewrite (Permutation_length (remove_item_perm i xs H)). Qed.

Lemma succ_of_split j xs ys zs :
  xs = ys ++ j :: zs -> j ∉ ys -> succ_of j xs = head zs.
Proof.
  intros ->. induction ys as [|y ys IH]; simpl.
  - by rewrite decide_True.
  - intros [Hy Hn]%not_elem_of_cons. rewrite decide_False by done. auto.
Qed.

Lemma ring_wf_empty : ring_wf ring_empty.
Proof. split; [constructor|done]. Qed.

Lemma ring_wf_insert_end i r :
  ring_wf r -> i ∉ r_items r -> ring_wf (ring_insert_end i r).
Proof.
  intros [Hn Hi] Hx. split.
  - rewrite insert_end_perm. by constructor.
  - intros j Hj. rewrite insert_end_perm. right. by apply Hi.
Qed.

Lemma ring_wf_insert val v i r :
  ring_wf r -> i ∉ r_items r -> ring_wf (ring_insert val v i r).
Proof.
  intros [Hn Hi] Hx. split; simpl.
  - rewrite ins_sorted_perm. by constructor.
  - intros j Hj. rewrite ins_sorted_perm. right. by apply Hi.
Qed.

Lemma ring_wf_remove i r : ring_wf r -> ring_wf (ring_remove i r).
Proof.
  intros [Hn Hi]. split; simpl; [by apply NoDup_remove_item|].
  intros j Hj. rewrite elem_of_remove_item by done. case_decide as Hd.
  - destruct (remove_item_split i (r_items r) (Hi _ Hd)) as (ys & zs & E & H1 & _ & Hp).
    rewrite Hp in Hj. destruct (last ys) as [y|] eqn:Hl; simplify_eq.
    apply last_Some_elem_of in Hl. rewrite E. split; [set_solver|]. by intros ->.
  - split; [by apply Hi|]. by intros ->.
Qed.

Lemma ring_next_Some r :
  ring_wf r -> r_items r <> [] ->
  exists i, ring_next r = Some i /\ i ∈ r_items r.
Proof.
  intros [Hn Hi] Hne. unfold ring_next.
  assert (exists x, head (r_items r) = Some x /\ x ∈ r_items r) as (x & Hx & Hin).
  { destruct (r_items r) as [|x l]; [done|]. exists x. split; [done|]. by left. }
  destruct (r_index r) as [j|]; [|by exists x].
  specialize (Hi j eq_refl). apply list_elem_of_split in Hi as (ys & zs & E).
  assert (j ∉ ys). { rewrite E in Hn. apply NoDup_app in Hn. set_solver. }
  rewrite (succ_of_split j _ ys zs) by done.
  destruct zs as [|z zs]; [by exists x|]. exists z. split; [done|].
  rewrite E. set_solver.
Qed.
End ring.

(** ** All the lists of the system

    An item is on at most one list, the one its [pxContainer] names. *)

Record AItem (L : Type) := mkAItem { ai_value : Z; ai_container : option L }.
Arguments mkAItem {L} _ _.
Arguments ai_value {L} _.
Arguments ai_container {L} _.

Record Lists (L I : Type) `{Countable L, Countable I} := mkLists {
  l_rings : gmap L (Ring I);
  l_items : gmap I (AItem L)
}.
Arguments mkLists {L I _ _ _ _} _ _.
Arguments l_rings {L I _ _ _ _} _.
Arguments l_items {L I _ _ _ _} _.

Section lists.
Context {L I : Type} `{Countable L, Countable I}.
Implicit Types s : Lists L I.

Definition ring s (l : L) : Ring I := default ring_empty (l_rings s !! l).
Definition item s (i : I) : AItem L := default (mkAItem 0%Z None) (l_items s !! i).

Definition on_list s (l : L) : list I := r_items (ring s l).
Definition value s (i : I) : Z := ai_value (item s i).
Definition container s (i : I) : option L := ai_container (item s i).

Definition upd_ring (l : L) (f : Ring I -> Ring I) s : Lists L I :=
  mkLists (<[l := f (ring s l)]> (l_rings s)) (l_items s).
Definition set_container (i : I) (c : option L) s : Lists L I :=
  mkLists (l_rings s) (<[i := mkAItem (value s i) c]> (l_items s)).
Definition set_value (i : I) (v : Z) s : Lists L I :=
  mkLists (l_rings s) (<[i := mkAItem v (container s i)]> (l_items s)).

(** vListInitialise, vListInitialiseItem. *)
Definition lInitialise (l : L) s : Lists L I := upd_ring l (fun _ => ring_empty) s.
Definition lInitialiseItem (i : I) s : Lists L I := set_container i None s.

(** vListInsertEnd, vListInsert. *)
Definition lInsertEnd (l : L) (i : I) s : Lists L I :=
  set_container i (Some l) (upd_ring l (ring_insert_end i) s).
Definition lInsert (l : L) (i : I) s : Lists L I :=
  set_container i (Some l) (upd_ring l (ring_insert (value s) (value s i) i) s).

(** uxListRemove: the list is the one the item is on. *)
Definition lRemove (i : I) s : Lists L I :=
  match container s i with
  | None => s
  | Some l => set_container i None (upd_ring l (ring_remove i) s)
  end.

(** listGET_OWNER_OF_NEXT_ENTRY. *)
Definition lAdvance (l : L) s : Lists L I := upd_ring l ring_advance s.

Definition lists_wf s : Prop :=
  (forall l, ring_wf (ring s l)) /\
  (forall i l, container s i = Some l <-> i ∈ on_list s l).

(** *** What each operation reads back *)

Lemma ring_upd l f s l' :
  ring (upd_ring l f s) l' = if decide (l = l') then f (ring s l) else ring s l'.
Proof.
  unfold ring, upd_ring; simpl. rewrite lookup_insert. by case_decide; subst.
Qed.

Lemma ring_set_container i c s l : ring (set_container i c s) l = ring s l.
Proof. done. Qed.
Lemma ring_set_value i v s l : ring (set_value i v s) l = ring s l.
Proof. done. Qed.

Lemma container_upd_ring l f s i : container (upd_ring l f s) i = container s i.
Proof. done. Qed.
Lemma container_set i c s j :
  container (set_container i c s) j = if decide (i = j) then c else container s j.
Proof.
  unfold container, item, set_container; simpl. rewrite lookup_insert. by case_decide.
Qed.
Lemma container_set_value i v s j : container (set_value i v s) j = container s j.
Proof.
  unfold container, item, set_value; simpl. rewrite lookup_insert. by case_decide; subst.
Qed.

Lemma value_upd_ring l f s i : value (upd_ring l f s) i = value s i.
Proof. done. Qed.
Lemma value_set_container i c s j : value (set_container i c s) j = value s j.
Proof.
  unfold value, item, set_container; simpl. rewrite lookup_insert. by case_decide; subst.
Qed.
Lemma value_set_value i v s j :
  value (set_value i v s) j = if decide (i = j) then v else value s j.
Proof.
  unfold value, item, set_value; simpl. rewrite lookup_insert. by case_decide.
Qed.

Lemma ring_lInsertEnd l i s l' :
  ring (lInsertEnd l i s) l' =
    if decide (l = l') then ring_insert_end i (ring s l) else ring s l'.
Proof. apply ring_upd. Qed.
Lemma ring_lInsert l i s l' :
  ring (lInsert l i s) l' =
    if decide (l = l') then ring_insert (value s) (value s i) i (ring s l) else ring s l'.
Proof. apply ring_upd. Qed.
Lemma ring_lAdvance l s l' :
  ring (lAdvance l s) l' = if decide (l = l') then ring_advance (ring s l) else ring s l'.
Proof. apply ring_upd. Qed.
Lemma ring_lRemove i s l' :
  ring (lRemove i s) l' =
    if decide (container s i = Some l') then ring_remove i (ring s l') else ring s l'.
Proof.
  unfold lRemove. destruct (container s i) as [l|] eqn:E.
  - rewrite ring_set_container, ring_upd.
    repeat case_decide; congruence.
  - by rewrite decide_False.
Qed.

Lemma container_lInsertEnd l i s j :
  container (lInsertEnd l i s) j = if decide (i = j) then Some l else container s j.
Proof. unfold lInsertEnd, lInsert. by rewrite container_set, container_upd_ring. Qed.
Lemma container_lInsert l i s j :
  container (lInsert l i s) j = if decide (i = j) then Some l else container s j.
Proof. unfold lInsertEnd, lInsert. by rewrite container_set, container_upd_ring. Qed.
Lemma container_lRemove i s j :
  container (lRemove i s) j = if decide (i = j) then None else container s j.
Proof.
  unfold lRemove. destruct (container s i) as [l|] eqn:E.
  - by rewrite container_set.
  - by case_decide; subst.
Qed.
Lemma container_lAdvance l s j : container (lAdvance l s) j = container s j.
Proof. done. Qed.

Lemma value_lInsertEnd l i s j : value (lInsertEnd l i s) j = value s j.
Proof. unfold lInsertEnd, lInsert. by rewrite value_set_container, value_upd_ring. Qed.
Lemma value_lInsert l i s j : value (lInsert l i s) j = value s j.
Proof. unfold lInsertEnd, lInsert. by rewrite value_set_container, value_upd_ring. Qed.
Lemma value_lRemove i s j : value (lRemove i s) j = value s j.
Proof. unfold lRemove. destruct (container s i); [by rewrite value_set_container, value_upd_ring|done]. Qed.
Lemma value_lAdvance l s j : value (lAdvance l s) j = value s j.
Proof. done. Qed.

(** *** The well-formedness of the lists is an invariant *)

Lemma wf_on_list s i l : lists_wf s -> container s i = Some l <-> i ∈ on_list s l.
Proof. intros [_ Hw]. apply Hw. Qed.

Lemma wf_NoDup s l : lists_wf s -> NoDup (on_list s l).
Proof. intros [Hw _]. apply Hw. Qed.

Lemma wf_free s i l : lists_wf s -> container s i = None -> i ∉ on_list s l.
Proof. intros Hw Hc Hi. apply (wf_on_list s i l Hw) in Hi. congruence. Qed.

Lemma on_list_lInsertEnd_perm s l i :
  on_list (lInsertEnd l i s) l ≡ₚ i :: on_list s l.
Proof.
  unfold on_list. rewrite ring_lInsertEnd, decide_True by done. apply insert_end_perm.
Qed.

Lemma on_list_lInsert_perm s l i : on_list (lInsert l i s) l ≡ₚ i :: on_list s l.
Proof.
  unfold on_list. rewrite ring_lInsert, decide_True by done. apply ins_sorted_perm.
Qed.

Lemma on_list_lInsertEnd_ne s l i l' :
  l <> l' -> on_list (lInsertEnd l i s) l' = on_list s l'.
Proof. intros. unfold on_list. by rewrite ring_lInsertEnd, decide_False. Qed.

Lemma on_list_lInsert_ne s l i l' :
  l <> l' -> on_list (lInsert l i s) l' = on_list s l'.
Proof. intros. unfold on_list. by rewrite ring_lInsert, decide_False. Qed.

Lemma on_list_lRemove s l i :
  on_list (lRemove i s) l =
    if decide (container s i = Some l) then remove_item i (on_list s l) else on_list s l.
Proof. unfold on_list. rewrite ring_lRemove. by case_decide. Qed.

Lemma on_list_lAdvance s l l' : on_list (lAdvance l s) l' = on_list s l'.
Proof. unfold on_list. rewrite ring_lAdvance. by case_decide; subst. Qed.

Lemma elem_of_on_list_lRemove s l i j :
  lists_wf s -> (j ∈ on_list (lRemove i s) l) <-> (j ∈ on_list s l /\ j <> i).
Proof.
  intros Hw. rewrite on_list_lRemove. case_decide as Hc.
  - apply elem_of_remove_item. by apply wf_NoDup.
  - split; [|by intros [? _]]. intros Hj. split; [done|]. intros ->.
    by apply Hc, wf_on_list.
Qed.

Lemma lists_wf_set_value s i v : lists_wf s -> lists_wf (set_value i v s).
Proof.
  intros [H1 H2]. split; [done|]. intros j l. by rewrite container_set_value, H2.
Qed.

Lemma lists_wf_insert_gen s l i f :
  lists_wf s -> container s i = None ->
  (forall r, r_items (f r) ≡ₚ i :: r_items r) ->
  (forall r, ring_wf r -> i ∉ r_items r -> ring_wf (f r)) ->
  lists_wf (set_container i (Some l) (upd_ring l f s)).
Proof.
  intros Hw Hc Hp Hr. split.
  - intros l'. rewrite ring_set_container, ring_upd. case_decide; [|apply Hw].
    apply Hr; [apply Hw|]. by apply wf_free.
  - intros j l'. unfold on_list.
    rewrite container_set, ring_set_container, ring_upd, container_upd_ring.
    destruct (decide (l = l')) as [Hl|Hl]; [subst l'|].
    + rewrite Hp, elem_of_cons. case_decide as Hd; [subst j; split; [by left|done]|].
      rewrite (wf_on_list s j l Hw).
      split; [by right|]. intros [->|?]; [by destruct Hd|done].
    + case_decide; subst; [|apply Hw]. split; [congruence|].
      intros Hj. exfalso. by eapply (wf_free s j l').
Qed.

Lemma lists_wf_lInsertEnd s l i :
  lists_wf s -> container s i = None -> lists_wf (lInsertEnd l i s).
Proof.
  intros. apply lists_wf_insert_gen; [done..| |].
  - intros. apply insert_end_perm.
  - intros. by apply ring_wf_insert_end.
Qed.

Lemma lists_wf_lInsert s l i :
  lists_wf s -> container s i = None -> lists_wf (lInsert l i s).
Proof.
  intros. apply lists_wf_insert_gen; [done..| |].
  - intros. apply ins_sorted_perm.
  - intros. by apply ring_wf_insert.
Qed.

Lemma lists_wf_lRemove s i : lists_wf s -> lists_wf (lRemove i s).
Proof.
  intros Hw. split.
  - intros l. rewrite ring_lRemove. case_decide; [apply ring_wf_remove|]; apply Hw.
  - intros j l. rewrite container_lRemove, elem_of_on_list_lRemove by done.
    rewrite <- (wf_on_list s j l Hw). case_decide; naive_solver.
Qed.

Lemma lists_wf_lAdvance s l :
  lists_wf s -> on_list s l <> [] -> lists_wf (lAdvance l s).
Proof.
  intros Hw Hne. split.
  - intros l'. rewrite ring_lAdvance. case_decide; subst; [|apply Hw].
    destruct (ring_next_Some (ring s l')) as (i & E & Hi); [apply Hw|done|].
    split; simpl; [apply Hw|]. intros j Hj. rewrite E in Hj. by simplify_eq.
  - intros j l'. rewrite container_lAdvance, on_list_lAdvance. apply Hw.
Qed.
End lists.

#[export] Hint Resolve lists_wf_set_value lists_wf_lInsertEnd lists_wf_lInsert
  lists_wf_lRemove : fw.
Create Rewrite HintDb lists.
#[export] Hint Rewrite @container_set_value @container_lInsertEnd @container_lInsert
  @container_lRemove @container_lAdvance @value_set_value @value_lInsertEnd @value_lInsert
  @value_lRemove @value_lAdvance @ring_set_value @on_list_lAdvance : lists.
