(* ===== verification/ListC.v ===== *)
(** * list.c: the doubly linked lists, at the level of their pointers

    The memory holds the [xItemValue]/[pxNext]/[pxPrevious] fields of every
    node.  A node is an item or the [xListEnd] marker of a list, which the
    source accesses through a [ListItem_t *] but which has no owner and no
    container.  Reading or writing through a pointer to nothing is undefined:
    the operations return [None] there.  The functions are those of list.c, in
    the source's order of assignments; [refines] relates the memory to the
    lists of [ListSpec] and every operation is proved to implement its
    specification. *)

From S2P Require Import Prelude ListSpec.
#[local] Open Scope Z_scope.

(** ** Data *)

Inductive Ptr (L I : Type) := PNull | PEnd (l : L) | PItem (i : I).
Arguments PNull {L I}.
Arguments PEnd {L I} _.
Arguments PItem {L I} _.

#[export] Instance Ptr_eq_dec {L I} `{EqDecision L, EqDecision I} : EqDecision (Ptr L I).
Proof. solve_decision. Defined.
#[export] Instance Ptr_countable {L I} `{Countable L, Countable I} : Countable (Ptr L I).
Proof.
  refine (inj_countable'
    (fun p => match p with PNull => inl () | PEnd l => inr (inl l) | PItem i => inr (inr i) end)
    (fun x => match x with inl () => PNull | inr (inl l) => PEnd l | inr (inr i) => PItem i end)
    _); by intros [].
Defined.

(** The fields that an item and an end marker share. *)
Record MiniListItem_t (L I : Type) := mkNode {
  xItemValue : Z; pxNext : Ptr L I; pxPrevious : Ptr L I
}.
Arguments mkNode {L I} _ _ _.
Arguments xItemValue {L I} _.
Arguments pxNext {L I} _.
Arguments pxPrevious {L I} _.

Record List_t (L I : Type) := mkList { uxNumberOfItems : Z; pxIndex : Ptr L I }.
Arguments mkList {L I} _ _.
Arguments uxNumberOfItems {L I} _.
Arguments pxIndex {L I} _.

Record Mem (L I Ow : Type) `{Countable L, Countable I} := mkMem {
  m_node : gmap (Ptr L I) (MiniListItem_t L I);
  m_list : gmap L (List_t L I);
  m_container : gmap I (option L);
  m_owner : gmap I Ow
}.
Arguments mkMem {L I Ow _ _ _ _} _ _ _ _.
Arguments m_node {L I Ow _ _ _ _} _.
Arguments m_list {L I Ow _ _ _ _} _.
Arguments m_container {L I Ow _ _ _ _} _.
Arguments m_owner {L I Ow _ _ _ _} _.

Section listc.
Context {L I Ow : Type} `{Countable L, Countable I}.
Abbreviation Ptr := (Ptr L I).
Abbreviation Mem := (Mem L I Ow).
Implicit Types m : Mem.

(** Field reads and assignments through a pointer. *)
Definition get_next m (p : Ptr) : option Ptr := pxNext <$> m_node m !! p.
Definition get_prev m (p : Ptr) : option Ptr := pxPrevious <$> m_node m !! p.
Definition get_value m (p : Ptr) : option Z := xItemValue <$> m_node m !! p.
Definition set_node (p : Ptr) (f : MiniListItem_t L I -> MiniListItem_t L I) m : option Mem :=
  n ← m_node m !! p;
  Some (mkMem (<[p := f n]> (m_node m)) (m_list m) (m_container m) (m_owner m)).
Definition set_next (p q : Ptr) : Mem -> option Mem :=
  set_node p (fun n => mkNode (xItemValue n) q (pxPrevious n)).
Definition set_prev (p q : Ptr) : Mem -> option Mem :=
  set_node p (fun n => mkNode (xItemValue n) (pxNext n) q).
Definition set_cont (i : I) (c : option L) m : option Mem :=
  _ ← m_container m !! i;
  Some (mkMem (m_node m) (m_list m) (<[i := c]> (m_container m)) (m_owner m)).
Definition set_list (l : L) (f : List_t L I -> List_t L I) m : option Mem :=
  h ← m_list m !! l;
  Some (mkMem (m_node m) (<[l := f h]> (m_list m)) (m_container m) (m_owner m)).

Definition vListInitialise (l : L) m : option Mem :=
  _ ← m_list m !! l; _ ← m_node m !! (PEnd l);
  Some (mkMem (<[PEnd l := mkNode portMAX_DELAY (PEnd l) (PEnd l)]> (m_node m))
              (<[l := mkList 0 (PEnd l)]> (m_list m)) (m_container m) (m_owner m)).

Definition vListInitialiseItem (i : I) m : option Mem := set_cont i None m.

Definition vListInsertEnd (l : L) (i : I) m : option Mem :=
  h ← m_list m !! l;
  let idx := pxIndex h in
  m ← set_next (PItem i) idx m;
  prv ← get_prev m idx;
  m ← set_prev (PItem i) prv m;
  prv ← get_prev m idx;
  m ← set_next prv (PItem i) m;
  m ← set_prev idx (PItem i) m;
  m ← set_cont i (Some l) m;
  set_list l (fun h => mkList (u32 (uxNumberOfItems h + 1)) (pxIndex h)) m.

(** The [for] loop of vListInsert: advance while the next value is at most [v]. *)
Fixpoint insert_iterator (fuel : nat) m (v : Z) (it : Ptr) : option Ptr :=
  match fuel with
  | O => None
  | S fuel =>
    nx ← get_next m it;
    nv ← get_value m nx;
    if nv <=? v then insert_iterator fuel m v nx else Some it
  end.

Definition vListInsert (l : L) (i : I) m : option Mem :=
  v ← get_value m (PItem i);
  it ← (if v =? portMAX_DELAY then get_prev m (PEnd l)
        else insert_iterator (S (size (m_node m))) m v (PEnd l));
  nx ← get_next m it;
  m ← set_next (PItem i) nx m;
  nx ← get_next m (PItem i);
  m ← set_prev nx (PItem i) m;
  m ← set_prev (PItem i) it m;
  m ← set_next it (PItem i) m;
  m ← set_cont i (Some l) m;
  set_list l (fun h => mkList (u32 (uxNumberOfItems h + 1)) (pxIndex h)) m.

Definition uxListRemove (i : I) m : option (Mem * Z) :=
  c ← m_container m !! i;
  l ← c;
  nx ← get_next m (PItem i);
  prv ← get_prev m (PItem i);
  m ← set_prev nx prv m;
  prv ← get_prev m (PItem i);
  nx ← get_next m (PItem i);
  m ← set_next prv nx m;
  h ← m_list m !! l;
  m ← (if decide (pxIndex h = PItem i) then
         prv ← get_prev m (PItem i);
         set_list l (fun h => mkList (uxNumberOfItems h) prv) m
       else Some m);
  m ← set_cont i None m;
  m ← set_list l (fun h => mkList (u32 (uxNumberOfItems h - 1)) (pxIndex h)) m;
  h ← m_list m !! l;
  Some (m, uxNumberOfItems h).

(** The access macros of list.h. *)
Definition listGET_OWNER_OF_NEXT_ENTRY (l : L) m : option (Mem * Ow) :=
  h ← m_list m !! l;
  nx ← get_next m (pxIndex h);
  m ← set_list l (fun h => mkList (uxNumberOfItems h) nx) m;
  m ← (if decide (nx = PEnd l) then
         nx ← get_next m (PEnd l);
         set_list l (fun h => mkList (uxNumberOfItems h) nx) m
       else Some m);
  h ← m_list m !! l;
  match pxIndex h with
  | PItem i => o ← m_owner m !! i; Some (m, o)
  | _ => None
  end.

Definition listSET_LIST_ITEM_VALUE (i : I) (v : Z) m : option Mem :=
  set_node (PItem i) (fun n => mkNode v (pxNext n) (pxPrevious n)) m.

Definition listGET_OWNER_OF_HEAD_ENTRY (l : L) m : option Ow :=
  nx ← get_next m (PEnd l);
  match nx with PItem i => m_owner m !! i | _ => None end.

Definition listGET_ITEM_VALUE_OF_HEAD_ENTRY (l : L) m : option Z :=
  nx ← get_next m (PEnd l); get_value m nx.

Definition listCURRENT_LIST_LENGTH (l : L) m : option Z :=
  uxNumberOfItems <$> m_list m !! l.

Definition listLIST_IS_EMPTY (l : L) m : option bool :=
  (fun h => uxNumberOfItems h =? 0) <$> m_list m !! l.

Definition listIS_CONTAINED_WITHIN (l : L) (i : I) m : option bool :=
  (fun c => bool_decide (c = Some l)) <$> m_container m !! i.
End listc.

(** ** Paths through the nodes

    [linked f g P]: along [P], every node's next field ([f]) is its successor
    and every node's previous field ([g]) its predecessor. *)

Section linked.
Context {P : Type} `{EqDecision P}.
Implicit Types f g : P -> option P.

Fixpoint linked f g (ps : list P) : Prop :=
  match ps with
  | a :: ((b :: _) as ps') => f a = Some b /\ g b = Some a /\ linked f g ps'
  | _ => True
  end.

Lemma linked_cons2 f g a b qs :
  linked f g (a :: b :: qs) <-> f a = Some b /\ g b = Some a /\ linked f g (b :: qs).
Proof. done. Qed.

Lemma linked_app f g a ps qs :
  linked f g (ps ++ a :: qs) <-> linked f g (ps ++ [a]) /\ linked f g (a :: qs).
Proof.
  induction ps as [|p [|p' ps] IH]; [simpl; tauto|simpl; tauto|].
  change ((p :: p' :: ps) ++ a :: qs) with (p :: (p' :: ps) ++ a :: qs).
  change ((p :: p' :: ps) ++ [a]) with (p :: (p' :: ps) ++ [a]).
  simpl in *. tauto.
Qed.

Lemma linked_step f g a b ps qs :
  linked f g (ps ++ a :: b :: qs) -> f a = Some b /\ g b = Some a.
Proof. rewrite linked_app. intros (_ & H1 & H2 & _). done. Qed.

(** Only the next fields of [ps] and the previous fields of [tail ps ++ [a]] matter. *)
Lemma linked_ext f g f' g' ps a :
  (forall p, p ∈ ps -> f' p = f p) ->
  (forall p, p ∈ tail (ps ++ [a]) -> g' p = g p) ->
  linked f g (ps ++ [a]) -> linked f' g' (ps ++ [a]).
Proof.
  induction ps as [|p ps IH]; intros Hf Hg; [done|].
  assert (exists b qs, ps ++ [a] = b :: qs) as (b & qs & E).
  { destruct ps; simpl; eauto. }
  simpl in *. rewrite E in *. intros (H1 & H2 & H3).
  split_and!.
  - rewrite Hf by (by left). done.
  - rewrite Hg by (by left). done.
  - apply IH; [by intros; apply Hf; right| |done].
    simpl. intros. apply Hg. by right.
Qed.

(** Linking [x] between [p] and [q], and unlinking it. *)
Lemma linked_insert f g f' g' ps p x q qs z e :
  linked f g (ps ++ p :: q :: qs) -> q :: qs = z ++ [e] ->
  NoDup (ps ++ [p]) -> NoDup (q :: qs) ->
  x ∉ ps ++ [p] -> x ∉ q :: qs -> p ∉ z -> q ∉ tail (ps ++ [p]) ->
  (forall r, f' r = if decide (r = p) then Some x else
                    if decide (r = x) then Some q else f r) ->
  (forall r, g' r = if decide (r = q) then Some x else
                    if decide (r = x) then Some p else g r) ->
  linked f' g' (ps ++ p :: x :: q :: qs).
Proof.
  intros Hl Hz Hn1 Hn2 Hx1 Hx2 Hp Hq Hf Hg.
  assert (x <> p /\ x <> q) as [Hxp Hxq] by set_solver.
  rewrite linked_app in Hl. destruct Hl as [Hl1 (_ & _ & Hl2)].
  rewrite linked_app. split.
  - eapply linked_ext; [..|exact Hl1].
    + intros r Hr. rewrite Hf, !decide_False; [done|set_solver|].
      intros ->. apply NoDup_app in Hn1. set_solver.
    + intros r Hr. rewrite Hg, !decide_False; [done| |set_solver].
      intros ->. apply Hx1. destruct (ps ++ [p]); [done|]. by right.
  - rewrite !linked_cons2. split_and!.
    + by rewrite Hf, decide_True.
    + by rewrite Hg, decide_False, decide_True.
    + by rewrite Hf, decide_False, decide_True.
    + by rewrite Hg, decide_True.
    + rewrite Hz in Hl2 |- *. eapply linked_ext; [..|exact Hl2].
      * intros r Hr. assert (r ∈ q :: qs) by (rewrite Hz; set_solver).
        rewrite Hf, !decide_False; [done|set_solver|set_solver].
      * rewrite <- Hz. simpl. intros r Hr. apply NoDup_cons in Hn2 as [Hn2 _].
        rewrite Hg, !decide_False; [done|set_solver|]. by intros ->.
Qed.

Lemma linked_remove f g f' g' ps p x q qs z e :
  linked f g (ps ++ p :: x :: q :: qs) -> q :: qs = z ++ [e] ->
  NoDup (ps ++ [p]) -> NoDup (q :: qs) -> p ∉ z -> q ∉ tail (ps ++ [p]) ->
  (forall r, f' r = if decide (r = p) then Some q else f r) ->
  (forall r, g' r = if decide (r = q) then Some p else g r) ->
  linked f' g' (ps ++ p :: q :: qs).
Proof.
  intros Hl Hz Hn1 Hn2 Hp Hq Hf Hg.
  rewrite linked_app in Hl. destruct Hl as [Hl1 (_ & _ & _ & _ & Hl2)].
  rewrite linked_app. split.
  - eapply linked_ext; [..|exact Hl1].
    + intros r Hr. rewrite Hf, decide_False; [done|].
      intros ->. apply NoDup_app in Hn1. set_solver.
    + intros r Hr. rewrite Hg, decide_False; [done|set_solver].
  - rewrite !linked_cons2. split_and!.
    + by rewrite Hf, decide_True.
    + by rewrite Hg, decide_True.
    + rewrite Hz in Hl2 |- *. eapply linked_ext; [..|exact Hl2].
      * intros r Hr. rewrite Hf, decide_False; [done|set_solver].
      * rewrite <- Hz. simpl. intros r Hr. apply NoDup_cons in Hn2 as [Hn2 _].
        rewrite Hg, decide_False; [done|]. by intros ->.
Qed.
End linked.

(** ** The memory implements the lists *)

Section refinement.
Context {L I Ow : Type} `{Countable L, Countable I}.
Abbreviation Ptr := (Ptr L I).
Abbreviation Mem := (Mem L I Ow).
Implicit Types (m : Mem) (s : Lists L I) (l : L) (i : I).

Definition idx_ptr l (o : option I) : Ptr :=
  match o with None => PEnd l | Some i => PItem i end.

Definition path l (xs : list I) : list Ptr := PEnd l :: (PItem <$> xs) ++ [PEnd l].

Record rep m l (r : Ring I) : Prop := mkRep {
  rep_hdr : m_list m !! l
    = Some (mkList (Z.of_nat (length (r_items r))) (idx_ptr l (r_index r)));
  rep_end : get_value m (PEnd l) = Some portMAX_DELAY;
  rep_path : linked (get_next m) (get_prev m) (path l (r_items r));
  rep_len : Z.of_nat (length (r_items r)) < 4294967296
}.

Record refines m s : Prop := mkRefines {
  ref_wf : lists_wf s;
  ref_rep : forall l, is_Some (l_rings s !! l) -> rep m l (ring s l);
  ref_item : forall i, is_Some (l_items s !! i) ->
    m_container m !! i = Some (container s i) /\
    get_value m (PItem i) = Some (value s i) /\ 0 <= value s i <= portMAX_DELAY
}.

(** A list is untouched by writes to other nodes. *)
Lemma rep_frame m m' l r :
  rep m l r ->
  (forall p, p ∈ PEnd l :: (PItem <$> r_items r) ->
    get_next m' p = get_next m p /\ get_prev m' p = get_prev m p) ->
  get_value m' (PEnd l) = get_value m (PEnd l) -> m_list m' !! l = m_list m !! l ->
  rep m' l r.
Proof.
  intros [H1 H2 H3 H4] Hp Hv Hl. split; [congruence|congruence| |done].
  unfold path in *. rewrite app_comm_cons in *.
  eapply linked_ext; [..|exact H3].
  - intros p Hin. by apply Hp.
  - simpl. intros p [Hin|Hin]%elem_of_app; apply Hp; [by right|].
    apply list_elem_of_singleton in Hin as ->. by left.
Qed.

(** Assignments succeed on nodes that exist and change one field. *)
Lemma set_next_ok m p q :
  is_Some (get_next m p) ->
  exists m', set_next p q m = Some m' /\
    (forall r, get_next m' r = if decide (r = p) then Some q else get_next m r) /\
    (forall r, get_prev m' r = get_prev m r) /\
    (forall r, get_value m' r = get_value m r) /\
    m_list m' = m_list m /\ m_container m' = m_container m /\ m_owner m' = m_owner m.
Proof.
  unfold get_next, get_prev, get_value, set_next, set_node.
  intros [n Hn]%fmap_is_Some. rewrite Hn; simpl. eexists. split; [done|].
  split_and!; try done; intros r; simpl; rewrite lookup_insert;
    repeat case_decide; simplify_eq/=; rewrite ?Hn; done.
Qed.

Lemma set_prev_ok m p q :
  is_Some (get_next m p) ->
  exists m', set_prev p q m = Some m' /\
    (forall r, get_next m' r = get_next m r) /\
    (forall r, get_prev m' r = if decide (r = p) then Some q else get_prev m r) /\
    (forall r, get_value m' r = get_value m r) /\
    m_list m' = m_list m /\ m_container m' = m_container m /\ m_owner m' = m_owner m.
Proof.
  unfold get_next, get_prev, get_value, set_prev, set_node.
  intros [n Hn]%fmap_is_Some. rewrite Hn; simpl. eexists. split; [done|].
  split_and!; try done; intros r; simpl; rewrite lookup_insert;
    repeat case_decide; simplify_eq/=; rewrite ?Hn; done.
Qed.

Lemma get_next_prev m p : is_Some (get_next m p) <-> is_Some (get_prev m p).
Proof. unfold get_next, get_prev. by rewrite !fmap_is_Some. Qed.
Lemma get_value_next m p v : get_value m p = Some v -> is_Some (get_next m p).
Proof. unfold get_value, get_next. destruct (m_node m !! p); [by eexists|done]. Qed.

Definition last_ptr l (ys : list I) : Ptr :=
  match last ys with Some y => PItem y | None => PEnd l end.
Definition first_ptr l (zs : list I) : Ptr :=
  match head zs with Some z => PItem z | None => PEnd l end.

(** The path around the gap between [ys] and [zs]. *)
Lemma path_gap l ys zs :
  exists ps qs, path l (ys ++ zs) = ps ++ last_ptr l ys :: first_ptr l zs :: qs /\
    PEnd l :: (PItem <$> ys) = ps ++ [last_ptr l ys] /\
    (PItem <$> zs) ++ [PEnd l] = first_ptr l zs :: qs.
Proof.
  assert (exists ps, PEnd l :: (PItem <$> ys) = ps ++ [last_ptr l ys]) as [ps Eps].
  { unfold last_ptr. destruct ys as [|y ys _] using rev_ind; [by exists []|].
    exists (PEnd l :: (PItem <$> ys)). by rewrite last_snoc, fmap_app. }
  assert (exists qs, (PItem <$> zs) ++ [PEnd l] = first_ptr l zs :: qs) as [qs Eqs].
  { unfold first_ptr. destruct zs as [|z zs]; [by exists []|by eexists]. }
  exists ps, qs. split; [|done]. unfold path.
  rewrite fmap_app, <- (assoc_L (++)), app_comm_cons, Eps, Eqs, <- (assoc_L (++)). done.
Qed.

Lemma path_insert l ys zs i ps qs :
  PEnd l :: (PItem <$> ys) = ps ++ [last_ptr l ys] ->
  (PItem <$> zs) ++ [PEnd l] = first_ptr l zs :: qs ->
  path l (ys ++ i :: zs) = ps ++ last_ptr l ys :: PItem i :: first_ptr l zs :: qs.
Proof.
  intros E1 E2. unfold path.
  rewrite fmap_app, fmap_cons, <- (assoc_L (++)), app_comm_cons, E1, <- (assoc_L (++)).
  simpl. by rewrite E2.
Qed.

(** What the nodes around a gap satisfy, the side conditions of linking there. *)
Lemma gap_nodup l ys zs ps qs :
  PEnd l :: (PItem <$> ys) = ps ++ [last_ptr l ys] ->
  (PItem <$> zs) ++ [PEnd l] = first_ptr l zs :: qs ->
  NoDup (ys ++ zs) ->
  NoDup (ps ++ [last_ptr l ys]) /\ NoDup (first_ptr l zs :: qs) /\
  (last_ptr l ys ∉ PItem <$> zs) /\ (first_ptr l zs ∉ tail (ps ++ [last_ptr l ys])).
Proof.
  intros E1 E2 (Hy & Hyz & Hz)%NoDup_app. rewrite <- E1, <- E2. split_and!.
  - constructor; [|by apply NoDup_fmap_2; [intros ??[=]|]].
    intros (x & ? & _)%list_elem_of_fmap. done.
  - apply NoDup_app. split_and!; [by apply NoDup_fmap_2; [intros ??[=]|]| |].
    + intros p (x & -> & _)%list_elem_of_fmap ?%list_elem_of_singleton. done.
    + apply NoDup_singleton.
  - unfold last_ptr. intros (x & Ex & Hx)%list_elem_of_fmap.
    destruct (last ys) as [y|] eqn:Ey; simplify_eq.
    apply last_Some_elem_of in Ey. by eapply Hyz.
  - simpl. unfold first_ptr. intros (x & Ex & Hx)%list_elem_of_fmap.
    destruct (head zs) as [z|] eqn:Ez; simplify_eq.
    apply head_Some_elem_of in Ez. by eapply Hyz.
Qed.

Lemma ring_items_disjoint s l l' i :
  lists_wf s -> i ∈ on_list s l -> i ∈ on_list s l' -> l = l'.
Proof. intros Hw ??. assert (container s i = Some l) by (by apply Hw).
  assert (container s i = Some l') by (by apply Hw). congruence. Qed.

Lemma first_last_in l ys zs :
  (last_ptr l ys = PEnd l \/ exists y, last_ptr l ys = PItem y /\ y ∈ ys ++ zs) /\
  (first_ptr l zs = PEnd l \/ exists z, first_ptr l zs = PItem z /\ z ∈ ys ++ zs).
Proof.
  unfold last_ptr, first_ptr. split.
  - destruct (last ys) as [y|] eqn:E; [right|by left]. exists y. split; [done|].
    apply last_Some_elem_of in E. set_solver.
  - destruct (head zs) as [z|] eqn:E; [right|by left]. exists z. split; [done|].
    apply head_Some_elem_of in E. set_solver.
Qed.

Lemma on_list_is_Some s l i : i ∈ on_list s l -> is_Some (l_rings s !! l).
Proof.
  unfold on_list, ring. destruct (l_rings s !! l); [by eexists|].
  simpl. by intros ?%elem_of_nil.
Qed.
Lemma container_is_Some s l i : container s i = Some l -> is_Some (l_items s !! i).
Proof. unfold container, item. destruct (l_items s !! i); [by eexists|done]. Qed.

(** Any list but [l] is untouched by writes around a gap of [l] and to a free item. *)
Lemma rep_other m m' s l l' ys zs (P : Ptr -> Prop) :
  refines m s -> l <> l' -> is_Some (l_rings s !! l') ->
  (forall x, x ∈ ys ++ zs -> x ∈ on_list s l) ->
  (forall x, x ∈ on_list s l' -> ~ P (PItem x)) -> ~ P (PEnd l') ->
  (forall r, r <> last_ptr l ys -> r <> first_ptr l zs -> ~ P r ->
    get_next m' r = get_next m r /\ get_prev m' r = get_prev m r) ->
  (forall r, get_value m' r = get_value m r) -> m_list m' !! l' = m_list m !! l' ->
  rep m' l' (ring s l').
Proof.
  intros [Hw Hr _] Hne Hs Hin Hx HPe Hnp Hv Hl.
  destruct (first_last_in l ys zs) as [Hlast Hfirst].
  apply (rep_frame m); [by apply Hr| |by apply Hv|done].
  intros p Hp. assert (~ P p /\ forall x, p = PItem x -> x ∉ on_list s l) as [HP Hnl].
  { apply elem_of_cons in Hp as [->|(x & -> & Hx')%list_elem_of_fmap]; [done|].
    split; [by apply Hx|]. intros ? [= <-] ?. by apply Hne, (ring_items_disjoint s _ _ x). }
  assert (p <> PEnd l) as HpE.
  { apply elem_of_cons in Hp as [->|(x & -> & _)%list_elem_of_fmap]; congruence. }
  apply Hnp; [..|done].
  - destruct Hlast as [->|(y & -> & Hy)]; [done|]. intros ->. by eapply Hnl, Hin.
  - destruct Hfirst as [->|(y & -> & Hy)]; [done|]. intros ->. by eapply Hnl, Hin.
Qed.

Lemma link_refines m m' s l i ys zs f :
  refines m s -> is_Some (l_rings s !! l) -> is_Some (l_items s !! i) ->
  container s i = None -> on_list s l = ys ++ zs ->
  Z.of_nat (length (ys ++ zs)) + 1 < 4294967296 ->
  f (ring s l) = mkRing (ys ++ i :: zs) (r_index (ring s l)) ->
  lists_wf (set_container i (Some l) (upd_ring l f s)) ->
  (forall r, get_next m' r = if decide (r = last_ptr l ys) then Some (PItem i) else
     if decide (r = PItem i) then Some (first_ptr l zs) else get_next m r) ->
  (forall r, get_prev m' r = if decide (r = first_ptr l zs) then Some (PItem i) else
     if decide (r = PItem i) then Some (last_ptr l ys) else get_prev m r) ->
  (forall r, get_value m' r = get_value m r) ->
  m_container m' = <[i := Some l]> (m_container m) ->
  m_list m' = <[l := mkList (Z.of_nat (length (ys ++ zs)) + 1)
                            (idx_ptr l (r_index (ring s l)))]> (m_list m) ->
  refines m' (set_container i (Some l) (upd_ring l f s)).
Proof.
  intros HR Hl Hi Hc Hon Hlen Hf Hw' Hnx Hpv Hv Hcont Hlist.
  pose proof HR as [Hw Hrep Hitem].
  assert (i ∉ ys ++ zs) as Hfresh by (rewrite <- Hon; by apply wf_free).
  split; [done| |].
  - intros l' Hl'. rewrite ring_set_container, ring_upd. case_decide as Hd; [subst l'|].
    + rewrite Hf. destruct (Hrep l Hl) as [_ He Hp _]. unfold on_list in Hon.
      rewrite Hon in Hp. destruct (path_gap l ys zs) as (ps & qs & E & E1 & E2).
      pose proof (wf_NoDup s l Hw) as Hn. unfold on_list in Hn. rewrite Hon in Hn.
      destruct (gap_nodup l ys zs ps qs E1 E2 Hn) as (N1 & N2 & N3 & N4).
      split; cbn [r_items r_index].
      * rewrite Hlist, lookup_insert_eq. do 2 f_equal.
        rewrite !length_app; simpl. lia.
      * by rewrite Hv.
      * rewrite (path_insert l ys zs i ps qs) by done. rewrite E in Hp.
        eapply linked_insert; [exact Hp|by rewrite <- E2|done..| | |exact N3|exact N4|done|done].
        -- rewrite <- E1. intros [?|(x & [=] & ?)%list_elem_of_fmap]%elem_of_cons; [done|].
           subst. set_solver.
        -- rewrite <- E2. intros [(x & [=] & ?)%list_elem_of_fmap|Hx]%elem_of_app;
             [subst; set_solver|by apply list_elem_of_singleton in Hx].
      * rewrite length_app in *; simpl. lia.
    + apply (rep_other m m' s l l' ys zs (fun r => r = PItem i)); try done.
      * unfold upd_ring, set_container in Hl'; simpl in Hl'. by rewrite lookup_insert_ne in Hl'.
      * intros x. by rewrite Hon.
      * intros x Hx [= ->]. by apply (wf_free s i l').
      * intros r H1 H2 H3. rewrite Hnx, Hpv, !decide_False by done. done.
      * by rewrite Hlist, lookup_insert_ne.
  - intros j Hj. rewrite Hcont, Hv, container_set, value_set_container, value_upd_ring.
    unfold set_container in Hj; simpl in Hj. rewrite container_upd_ring.
    destruct (decide (i = j)) as [<-|Hij].
    + rewrite lookup_insert_eq. split; [done|]. by apply Hitem.
    + rewrite lookup_insert_ne in Hj by done. rewrite lookup_insert_ne by done.
      by apply Hitem.
Qed.

Lemma unlink_refines m m' s l i ys zs :
  refines m s -> container s i = Some l -> on_list s l = ys ++ i :: zs -> i ∉ ys ->
  lists_wf (lRemove i s) ->
  (forall r, get_next m' r = if decide (r = last_ptr l ys) then Some (first_ptr l zs)
     else get_next m r) ->
  (forall r, get_prev m' r = if decide (r = first_ptr l zs) then Some (last_ptr l ys)
     else get_prev m r) ->
  (forall r, get_value m' r = get_value m r) ->
  m_container m' = <[i := None]> (m_container m) ->
  m_list m' = <[l := mkList (Z.of_nat (length (ys ++ zs)))
       (idx_ptr l (r_index (ring_remove i (ring s l))))]> (m_list m) ->
  refines m' (lRemove i s).
Proof.
  intros HR Hc Hon Hiy Hw' Hnx Hpv Hv Hcont Hlist.
  pose proof HR as [Hw Hrep Hitem].
  pose proof (wf_NoDup s l Hw) as Hn. rewrite Hon in Hn.
  assert (i ∈ on_list s l) as Hi by (rewrite Hon; set_solver).
  assert (NoDup (ys ++ zs)) as Hn'.
  { rewrite <- Permutation_middle in Hn. by apply NoDup_cons in Hn as [_ ?]. }
  assert (r_items (ring_remove i (ring s l)) = ys ++ zs) as Hrem.
  { simpl. fold (on_list s l). rewrite Hon. clear -Hiy. induction ys as [|y ys IH]; simpl.
    - by rewrite decide_True.
    - apply not_elem_of_cons in Hiy as [? ?]. rewrite decide_False by done.
      f_equal. by apply IH. }
  split; [done| |].
  - intros l' Hl'. rewrite ring_lRemove, Hc. case_decide as Hd; [simplify_eq|].
    + destruct (Hrep l') as [_ He Hp Hlen]; [by eapply on_list_is_Some|].
      unfold on_list in Hon. rewrite Hon in Hp.
      destruct (path_gap l' ys zs) as (ps & qs & E & E1 & E2).
      destruct (gap_nodup l' ys zs ps qs E1 E2 Hn') as (N1 & N2 & N3 & N4).
      rewrite (path_insert l' ys zs i ps qs) in Hp by done.
      split; rewrite ?Hrem.
      * by rewrite Hlist, lookup_insert_eq.
      * by rewrite Hv.
      * rewrite E. eapply linked_remove; [exact Hp|by rewrite <- E2|done..].
      * rewrite Hon, !length_app in Hlen. rewrite length_app. simpl in Hlen. lia.
    + apply (rep_other m m' s l l' ys zs (fun _ => False)); try done.
      * congruence.
      * unfold lRemove in Hl'. rewrite Hc in Hl'. simpl in Hl'.
        by rewrite lookup_insert_ne in Hl' by congruence.
      * intros x. rewrite Hon. set_solver.
      * intros x _ [].
      * intros [].
      * intros r H1 H2 _. rewrite Hnx, Hpv, !decide_False by done. done.
      * rewrite Hlist, lookup_insert_ne by congruence. done.
  - intros j Hj. rewrite Hcont, Hv, container_lRemove, value_lRemove.
    destruct (decide (i = j)) as [<-|Hij].
    + rewrite lookup_insert_eq. split; [done|].
      apply Hitem. by eapply container_is_Some.
    + rewrite lookup_insert_ne by done. apply Hitem.
      unfold lRemove in Hj. rewrite Hc in Hj. simpl in Hj.
      by rewrite lookup_insert_ne in Hj by done.
Qed.

(** *** The operations *)

Lemma refines_value m s i :
  refines m s -> is_Some (l_items s !! i) -> get_value m (PItem i) = Some (value s i).
Proof. intros HR Hi. by apply (ref_item m s HR i Hi). Qed.

Lemma refines_item_next m s i :
  refines m s -> is_Some (l_items s !! i) -> is_Some (get_next m (PItem i)).
Proof. intros HR Hi. by eapply get_value_next, refines_value. Qed.

Lemma set_cont_ok m i c :
  is_Some (m_container m !! i) ->
  set_cont i c m
    = Some (mkMem (m_node m) (m_list m) (<[i := c]> (m_container m)) (m_owner m)).
Proof. unfold set_cont. intros [x ->]. done. Qed.

Lemma set_list_ok m l f h :
  m_list m !! l = Some h ->
  set_list l f m
    = Some (mkMem (m_node m) (<[l := f h]> (m_list m)) (m_container m) (m_owner m)).
Proof. unfold set_list. by intros ->. Qed.

(** The nodes on both sides of a gap exist and point at each other. *)
Lemma gap_links m s l ys zs :
  refines m s -> is_Some (l_rings s !! l) -> on_list s l = ys ++ zs ->
  get_next m (last_ptr l ys) = Some (first_ptr l zs) /\
  get_prev m (first_ptr l zs) = Some (last_ptr l ys).
Proof.
  intros HR Hl Hon. destruct (ref_rep m s HR l Hl) as [_ _ Hp _].
  unfold on_list in Hon. rewrite Hon in Hp.
  destruct (path_gap l ys zs) as (ps & qs & E & _ & _). rewrite E in Hp.
  by apply linked_step in Hp.
Qed.

(** Side conditions of an insertion of [i] on [l]. *)
Definition can_insert s l i : Prop :=
  is_Some (l_rings s !! l) /\ is_Some (l_items s !! i) /\ container s i = None /\
  Z.of_nat (length (on_list s l)) + 1 < 4294967296.

Lemma gap_fresh s l i ys zs :
  lists_wf s -> container s i = None -> on_list s l = ys ++ zs ->
  last_ptr l ys <> PItem i /\ first_ptr l zs <> PItem i.
Proof.
  intros Hw Hc Hon. assert (i ∉ ys ++ zs) by (rewrite <- Hon; by apply wf_free).
  destruct (first_last_in l ys zs) as [[->|(y & -> & Hy)] [->|(z & -> & Hz)]];
    split; congruence.
Qed.

Lemma insert_end_gap s l i :
  lists_wf s -> exists ys zs, on_list s l = ys ++ zs /\
    idx_ptr l (r_index (ring s l)) = first_ptr l zs /\
    ring_insert_end i (ring s l) = mkRing (ys ++ i :: zs) (r_index (ring s l)).
Proof.
  intros [Hr _]. destruct (Hr l) as [_ Hidx]. unfold on_list, ring_insert_end.
  destruct (r_index (ring s l)) as [j|].
  - destruct (ins_before_split j i (r_items (ring s l))) as (ys & zs & E1 & _ & E2).
    { by apply Hidx. }
    exists ys, (j :: zs). by rewrite E2.
  - exists (r_items (ring s l)), []. by rewrite app_nil_r.
Qed.

Lemma vListInsertEnd_refines m s l i :
  refines m s -> can_insert s l i ->
  exists m', vListInsertEnd l i m = Some m' /\ refines m' (lInsertEnd l i s) /\
    m_owner m' = m_owner m.
Proof.
  intros HR (Hl & Hi & Hc & Hlen). pose proof HR as [Hw Hrep Hitem].
  destruct (insert_end_gap s l i Hw) as (ys & zs & Hon & Hidx & Hf).
  destruct (gap_links m s l ys zs HR Hl Hon) as [Gn Gp].
  destruct (gap_fresh s l i ys zs Hw Hc Hon) as [Fl Ff].
  unfold vListInsertEnd. rewrite (rep_hdr _ _ _ (Hrep l Hl)). cbn [mbind option_bind pxIndex].
  rewrite Hidx.
  destruct (set_next_ok m (PItem i) (first_ptr l zs)) as (m1 & -> & N1 & P1 & V1 & L1 & C1 & O1);
    [by eapply refines_item_next|].
  cbn [mbind option_bind]. rewrite P1, Gp. cbn [mbind option_bind].
  destruct (set_prev_ok m1 (PItem i) (last_ptr l ys)) as (m2 & -> & N2 & P2 & V2 & L2 & C2 & O2).
  { rewrite N1, decide_True by done. by eexists. }
  cbn [mbind option_bind]. rewrite P2, decide_False, P1, Gp by done. cbn [mbind option_bind].
  destruct (set_next_ok m2 (last_ptr l ys) (PItem i)) as (m3 & -> & N3 & P3 & V3 & L3 & C3 & O3).
  { rewrite N2, N1, decide_False, Gn by done. by eexists. }
  cbn [mbind option_bind].
  destruct (set_prev_ok m3 (first_ptr l zs) (PItem i)) as (m4 & -> & N4 & P4 & V4 & L4 & C4 & O4).
  { apply get_next_prev. rewrite P3, P2, decide_False, P1, Gp by done. by eexists. }
  cbn [mbind option_bind]. destruct (Hitem i Hi) as (Hci & _).
  rewrite set_cont_ok by (rewrite C4, C3, C2, C1, Hci; by eexists).
  cbn [mbind option_bind].
  erewrite set_list_ok by (cbn [m_list]; rewrite L4, L3, L2, L1; apply (rep_hdr _ _ _ (Hrep l Hl))).
  eexists. split; [done|]. split; [|simpl; congruence].
  eapply link_refines; try done.
  - by rewrite <- Hon.
  - by apply lists_wf_lInsertEnd.
  - intros r. unfold get_next in *; simpl. by rewrite N4, N3, N2, N1.
  - intros r. unfold get_prev in *; simpl. by rewrite P4, P3, P2, P1.
  - intros r. unfold get_value in *; simpl. by rewrite V4, V3, V2, V1.
  - simpl. by rewrite C4, C3, C2, C1.
  - simpl. rewrite L4, L3, L2, L1. do 2 f_equal. rewrite Hon in Hlen. unfold on_list in Hon.
    rewrite Hon, u32_small by lia. done.
Qed.

Lemma on_list_item m s l i :
  refines m s -> i ∈ on_list s l ->
  get_value m (PItem i) = Some (value s i) /\ 0 <= value s i <= portMAX_DELAY.
Proof.
  intros HR Hi. apply (ref_item m s HR i). eapply container_is_Some.
  by apply (wf_on_list s i l (ref_wf m s HR)).
Qed.

Lemma insert_iterator_ok m s l v ys1 ys2 zs fuel :
  refines m s -> is_Some (l_rings s !! l) -> on_list s l = ys1 ++ ys2 ++ zs ->
  Forall (fun y => value s y <= v) ys2 ->
  (forall z, head zs = Some z -> v < value s z) -> v < portMAX_DELAY ->
  (length ys2 < fuel)%nat ->
  insert_iterator fuel m v (last_ptr l ys1) = Some (last_ptr l (ys1 ++ ys2)).
Proof.
  intros HR Hl. revert ys1 fuel. induction ys2 as [|y ys2 IH]; intros ys1 fuel Hon Hle Hhd Hv Hfuel.
  all: destruct fuel as [|fuel]; [simpl in Hfuel; lia|]; cbn [insert_iterator].
  - destruct (gap_links m s l ys1 zs HR Hl Hon) as [-> _]. cbn [mbind option_bind].
    rewrite app_nil_r. simpl in Hon. unfold first_ptr. destruct zs as [|z zs]; simpl.
    + rewrite (rep_end _ _ _ (ref_rep m s HR l Hl)). cbn [mbind option_bind].
      by destruct (Z.leb_spec portMAX_DELAY v); [lia|].
    + destruct (on_list_item m s l z HR) as [-> _]; [rewrite Hon; set_solver|].
      cbn [mbind option_bind]. specialize (Hhd z eq_refl).
      by destruct (Z.leb_spec (value s z) v); [lia|].
  - destruct (gap_links m s l ys1 ((y :: ys2) ++ zs) HR Hl Hon) as [-> _].
    cbn [mbind option_bind first_ptr head app].
    destruct (on_list_item m s l y HR) as [-> _]; [rewrite Hon; set_solver|].
    cbn [mbind option_bind]. inversion_clear Hle as [|?? Hy Hle'].
    destruct (Z.leb_spec (value s y) v); [|lia].
    specialize (IH (ys1 ++ [y]) fuel). rewrite <- !(assoc_L (++)) in IH. simpl in IH.
    unfold last_ptr in IH at 1. rewrite last_snoc in IH. apply IH; try done.
    simpl in Hfuel. lia.
Qed.

Lemma on_list_length m s l :
  refines m s -> (length (on_list s l) <= size (m_node m))%nat.
Proof.
  intros HR. rewrite <- (length_fmap (@PItem L I)). apply length_le_size.
  - apply NoDup_fmap_2; [by intros ??[=]|]. by apply wf_NoDup, (ref_wf m s HR).
  - intros p (x & -> & Hx)%list_elem_of_fmap.
    destruct (on_list_item m s l x HR Hx) as [Hx' _]. unfold get_value in Hx'.
    destruct (m_node m !! PItem x); [by eexists|done].
Qed.

(** The gap that vListInsert reaches, and that its specification names. *)
Lemma insert_gap m s l i :
  refines m s -> can_insert s l i ->
  exists ys zs, on_list s l = ys ++ zs /\
    ring_insert (value s) (value s i) i (ring s l)
      = mkRing (ys ++ i :: zs) (r_index (ring s l)) /\
    (if value s i =? portMAX_DELAY then get_prev m (PEnd l)
     else insert_iterator (S (size (m_node m))) m (value s i) (PEnd l))
      = Some (last_ptr l ys).
Proof.
  intros HR (Hl & Hi & Hc & Hlen). destruct (ref_item m s HR i Hi) as (_ & _ & Hv).
  destruct (ins_sorted_split (value s) (value s i) i (on_list s l))
    as (ys & zs & Hon & Hins & Hle & Hhd).
  destruct (Z.eqb_spec (value s i) portMAX_DELAY) as [E|E].
  - exists (on_list s l), []. rewrite app_nil_r. split; [done|]. split.
    + unfold ring_insert. f_equal. apply ins_sorted_append, Forall_forall.
      intros x Hx. destruct (on_list_item m s l x HR Hx). lia.
    + apply (gap_links m s l (on_list s l) []); [done..|by rewrite app_nil_r].
  - exists ys, zs. split; [done|]. split; [unfold ring_insert; f_equal; exact Hins|].
    apply (insert_iterator_ok m s l (value s i) [] ys zs); try done; [lia|].
    pose proof (on_list_length m s l HR) as Hn. rewrite Hon, length_app in Hn. lia.
Qed.

Lemma vListInsert_refines m s l i :
  refines m s -> can_insert s l i ->
  exists m', vListInsert l i m = Some m' /\ refines m' (lInsert l i s) /\
    m_owner m' = m_owner m.
Proof.
  intros HR Hcan. pose proof Hcan as (Hl & Hi & Hc & Hlen).
  pose proof HR as [Hw Hrep Hitem].
  destruct (insert_gap m s l i HR Hcan) as (ys & zs & Hon & Hf & Hit).
  destruct (gap_links m s l ys zs HR Hl Hon) as [Gn Gp].
  destruct (gap_fresh s l i ys zs Hw Hc Hon) as [Fl Ff].
  unfold vListInsert. rewrite (refines_value m s i HR Hi). cbn [mbind option_bind].
  rewrite Hit. cbn [mbind option_bind]. rewrite Gn. cbn [mbind option_bind].
  destruct (set_next_ok m (PItem i) (first_ptr l zs)) as (m1 & -> & N1 & P1 & V1 & L1 & C1 & O1);
    [by eapply refines_item_next|].
  cbn [mbind option_bind]. rewrite N1, decide_True by done. cbn [mbind option_bind].
  destruct (set_prev_ok m1 (first_ptr l zs) (PItem i)) as (m2 & -> & N2 & P2 & V2 & L2 & C2 & O2).
  { apply get_next_prev. rewrite P1, Gp. by eexists. }
  cbn [mbind option_bind].
  destruct (set_prev_ok m2 (PItem i) (last_ptr l ys)) as (m3 & -> & N3 & P3 & V3 & L3 & C3 & O3).
  { rewrite N2, N1, decide_True by done. by eexists. }
  cbn [mbind option_bind].
  destruct (set_next_ok m3 (last_ptr l ys) (PItem i)) as (m4 & -> & N4 & P4 & V4 & L4 & C4 & O4).
  { rewrite N3, N2, N1, decide_False, Gn by done. by eexists. }
  cbn [mbind option_bind]. destruct (Hitem i Hi) as (Hci & _).
  rewrite set_cont_ok by (rewrite C4, C3, C2, C1, Hci; by eexists).
  cbn [mbind option_bind].
  erewrite set_list_ok by (cbn [m_list]; rewrite L4, L3, L2, L1; apply (rep_hdr _ _ _ (Hrep l Hl))).
  eexists. split; [done|]. split; [|simpl; congruence].
  eapply link_refines; try done.
  - by rewrite <- Hon.
  - by apply lists_wf_lInsert.
  - intros r. unfold get_next in *; simpl. by rewrite N4, N3, N2, N1.
  - intros r. unfold get_prev in *; simpl. rewrite P4, P3, P2, P1.
    repeat case_decide; congruence.
  - intros r. unfold get_value in *; simpl. by rewrite V4, V3, V2, V1.
  - simpl. by rewrite C4, C3, C2, C1.
  - simpl. rewrite L4, L3, L2, L1. do 2 f_equal. rewrite Hon in Hlen. unfold on_list in Hon.
    rewrite Hon, u32_small by lia. done.
Qed.

(** pxIndex is left pointing to a valid item. *)
Lemma remove_index_ok m s l i ys zs :
  on_list s l = ys ++ i :: zs -> i ∉ ys ->
  let n := Z.of_nat (length (on_list s l)) in
  m_list m !! l = Some (mkList n (idx_ptr l (r_index (ring s l)))) ->
  exists m', (if decide (idx_ptr l (r_index (ring s l)) = PItem i)
     then set_list l (fun h => mkList (uxNumberOfItems h) (last_ptr l ys)) m else Some m)
      = Some m' /\ m_node m' = m_node m /\
    m_list m' = <[l := mkList n (idx_ptr l (r_index (ring_remove i (ring s l))))]> (m_list m) /\
    m_container m' = m_container m /\ m_owner m' = m_owner m.
Proof.
  intros Hon Hiy n Hh.
  assert ((if decide (idx_ptr l (r_index (ring s l)) = PItem i) then last_ptr l ys
           else idx_ptr l (r_index (ring s l)))
    = idx_ptr l (r_index (ring_remove i (ring s l)))) as Hidx.
  { cbn [ring_remove r_index]. destruct (r_index (ring s l)) as [j|]; cbn [idx_ptr]; [|done].
    destruct (decide (PItem j = PItem i)) as [[= ->]|Hji].
    - rewrite decide_True by done. fold (on_list s l).
      rewrite Hon, pred_of_app by done. unfold last_ptr. by destruct (last ys).
    - by rewrite decide_False by congruence. }
  rewrite <- Hidx. case_decide.
  - erewrite set_list_ok by done. eexists. by split.
  - exists m. rewrite insert_id; done.
Qed.

Lemma uxListRemove_refines m s i l :
  refines m s -> container s i = Some l ->
  exists m', uxListRemove i m
      = Some (m', Z.of_nat (length (on_list (lRemove i s) l))) /\
    refines m' (lRemove i s) /\ m_owner m' = m_owner m.
Proof.
  intros HR Hc. pose proof HR as [Hw Hrep Hitem].
  assert (i ∈ on_list s l) as Hi by (by apply wf_on_list).
  assert (is_Some (l_rings s !! l)) as Hl by (by eapply on_list_is_Some).
  destruct (remove_item_split i (on_list s l) Hi) as (ys & zs & Hon & Hiy & Hrem & Hpred).
  destruct (gap_links m s l ys (i :: zs) HR Hl Hon) as [_ Gp].
  destruct (gap_links m s l (ys ++ [i]) zs HR Hl) as [Gn _];
    [by rewrite <- (assoc_L (++))|].
  unfold last_ptr in Gn. rewrite last_snoc in Gn. cbn [first_ptr head] in Gp.
  unfold first_ptr in Gp. cbn [head] in Gp.
  pose proof (wf_NoDup s l Hw) as Hn. rewrite Hon in Hn.
  assert (i ∉ ys ++ zs) as Hfresh.
  { rewrite <- Permutation_middle in Hn. by apply NoDup_cons in Hn as [? _]. }
  assert (last_ptr l ys <> PItem i /\ first_ptr l zs <> PItem i) as [Fl Ff].
  { destruct (first_last_in l ys zs) as [[->|(y & -> & ?)] [->|(z & -> & ?)]];
      split; congruence. }
  destruct (Hitem i) as (Hci & _); [by eapply container_is_Some|].
  unfold uxListRemove. rewrite Hci. cbn [mbind option_bind]. rewrite Hc.
  cbn [mbind option_bind]. rewrite Gn. cbn [mbind option_bind]. rewrite Gp.
  cbn [mbind option_bind].
  destruct (set_prev_ok m (first_ptr l zs) (last_ptr l ys)) as (m1 & -> & N1 & P1 & V1 & L1 & C1 & O1).
  { destruct (gap_links m s l (ys ++ [i]) zs HR Hl) as [_ G]; [by rewrite <- (assoc_L (++))|].
    apply get_next_prev. rewrite G. by eexists. }
  cbn [mbind option_bind]. rewrite P1, decide_False, Gp, N1, Gn by congruence.
  cbn [mbind option_bind].
  destruct (set_next_ok m1 (last_ptr l ys) (first_ptr l zs)) as (m2 & -> & N2 & P2 & V2 & L2 & C2 & O2).
  { rewrite N1. destruct (gap_links m s l ys (i :: zs) HR Hl Hon) as [-> _]. by eexists. }
  cbn [mbind option_bind]. rewrite L2, L1, (rep_hdr _ _ _ (Hrep l Hl)).
  cbn [mbind option_bind pxIndex].
  assert (get_prev m2 (PItem i) = Some (last_ptr l ys)) as Gp2
    by (rewrite P2, P1, decide_False by congruence; done).
  rewrite Gp2. cbn [mbind option_bind].
  destruct (remove_index_ok m2 s l i ys zs) as (m3 & E3 & Hn3 & HL3 & HC3 & HO3); [done|done| |].
  { rewrite L2, L1. apply (rep_hdr _ _ _ (Hrep l Hl)). }
  rewrite L2, L1 in HL3.
  rewrite E3. cbn [mbind option_bind].
  rewrite set_cont_ok by (rewrite HC3, C2, C1, Hci; by eexists). cbn [mbind option_bind].
  erewrite set_list_ok by (cbn [m_list]; rewrite HL3; apply lookup_insert_eq).
  cbn [mbind option_bind m_list]. rewrite lookup_insert_eq. cbn [mbind option_bind uxNumberOfItems].
  assert (u32 (Z.of_nat (length (on_list s l)) - 1) = Z.of_nat (length (on_list (lRemove i s) l))) as Hcount.
  { rewrite on_list_lRemove, decide_True by done.
    pose proof (length_remove_item i (on_list s l) Hi).
    pose proof (rep_len _ _ _ (Hrep l Hl)). rewrite u32_small; unfold on_list in *; lia. }
  rewrite Hcount. eexists. split; [done|]. split; [|simpl; congruence].
  eapply unlink_refines; try done.
  - by apply lists_wf_lRemove.
  - intros r. unfold get_next in *; simpl. by rewrite Hn3, N2, N1.
  - intros r. unfold get_prev in *; simpl. by rewrite Hn3, P2, P1.
  - intros r. unfold get_value in *; simpl. by rewrite Hn3, V2, V1.
  - simpl. by rewrite HC3, C2, C1.
  - cbn [m_list]. rewrite HL3, insert_insert_eq. do 3 f_equal.
    by rewrite on_list_lRemove, decide_True, Hrem by done.
Qed.

(** The node after the index, and what skipping the end marker makes of it. *)
Lemma next_ptr_ok m s l i :
  refines m s -> is_Some (l_rings s !! l) -> ring_next (ring s l) = Some i ->
  get_next m (PEnd l) = Some (first_ptr l (on_list s l)) /\
  exists nx, get_next m (idx_ptr l (r_index (ring s l))) = Some nx /\
    (if decide (nx = PEnd l) then first_ptr l (on_list s l) else nx) = PItem i.
Proof.
  intros HR Hl Hnext. pose proof HR as [Hw Hrep Hitem].
  assert (get_next m (PEnd l) = Some (first_ptr l (on_list s l))) as Gend
    by (apply (gap_links m s l [] (on_list s l)); done).
  split; [done|]. unfold ring_next in Hnext. fold (on_list s l) in Hnext.
  destruct Hw as [Hr _]. destruct (Hr l) as [Hn Hidx]. fold (on_list s l) in Hn, Hidx.
  destruct (r_index (ring s l)) as [j|]; cbn [idx_ptr].
  - destruct (list_elem_of_split _ _ (Hidx j eq_refl)) as (ys & zs & Hon).
    assert (j ∉ ys) by (rewrite Hon in Hn; apply NoDup_app in Hn; set_solver).
    destruct (gap_links m s l (ys ++ [j]) zs HR Hl) as [G _];
      [by rewrite <- (assoc_L (++))|].
    unfold last_ptr in G. rewrite last_snoc in G. eexists. split; [exact G|].
    rewrite (succ_of_split j _ ys zs) in Hnext by done.
    destruct zs as [|z zs]; cbn [first_ptr head] in *.
    + unfold first_ptr at 1. cbn [head]. rewrite decide_True by done.
      unfold first_ptr. by rewrite Hnext.
    + simplify_eq. unfold first_ptr. cbn [head]. by rewrite decide_False.
  - eexists. split; [exact Gend|]. unfold first_ptr. rewrite Hnext.
    by rewrite decide_False.
Qed.

Lemma set_index_refines m s l i :
  refines m s -> is_Some (l_rings s !! l) -> ring_next (ring s l) = Some i ->
  refines (mkMem (m_node m)
    (<[l := mkList (Z.of_nat (length (on_list s l))) (PItem i)]> (m_list m))
    (m_container m) (m_owner m)) (lAdvance l s).
Proof.
  intros HR Hl Hnext. pose proof HR as [Hw Hrep Hitem].
  assert (on_list s l <> []) as Hne.
  { intros E. unfold on_list in E. unfold ring_next in Hnext. rewrite E in Hnext.
    by destruct (r_index (ring s l)). }
  split; [by apply lists_wf_lAdvance| |done].
  intros l' Hl'. rewrite ring_lAdvance. case_decide as Hd; [subst l'|].
  - destruct (Hrep l Hl). split; try done. simpl. by rewrite lookup_insert_eq, Hnext.
  - unfold lAdvance, upd_ring in Hl'; simpl in Hl'. rewrite lookup_insert_ne in Hl' by done.
    destruct (Hrep l' Hl'). split; try done. simpl. by rewrite lookup_insert_ne.
Qed.

Lemma listGET_OWNER_OF_NEXT_ENTRY_refines m s l i o :
  refines m s -> is_Some (l_rings s !! l) -> ring_next (ring s l) = Some i ->
  m_owner m !! i = Some o ->
  exists m', listGET_OWNER_OF_NEXT_ENTRY l m = Some (m', o) /\
    refines m' (lAdvance l s) /\ m_owner m' = m_owner m.
Proof.
  intros HR Hl Hnext Ho. pose proof (rep_hdr _ _ _ (ref_rep m s HR l Hl)) as Hh.
  destruct (next_ptr_ok m s l i HR Hl Hnext) as (Gend & nx & Gnx & Hnx).
  unfold listGET_OWNER_OF_NEXT_ENTRY. rewrite Hh.
  cbn [mbind option_bind pxIndex]. rewrite Gnx. cbn [mbind option_bind].
  erewrite set_list_ok by exact Hh. cbn [mbind option_bind uxNumberOfItems].
  pose proof (set_index_refines m s l i HR Hl Hnext) as HR'. unfold on_list in HR'.
  case_decide as Hd; cbn [mbind option_bind].
  - change (get_next (mkMem _ _ _ _) (PEnd l)) with (get_next m (PEnd l)). rewrite Gend.
    cbn [mbind option_bind]. erewrite set_list_ok by apply lookup_insert_eq.
    cbn [mbind option_bind m_list uxNumberOfItems].
    rewrite insert_insert_eq, Hnx, lookup_insert_eq.
    cbn [mbind option_bind pxIndex m_owner]. rewrite Ho. cbn. by eexists.
  - rewrite Hnx. cbn [m_list]. rewrite lookup_insert_eq.
    cbn [mbind option_bind pxIndex m_owner]. rewrite Ho. cbn. by eexists.
Qed.
End refinement.

(** ** Programs over the lists

    A kernel run performs a sequence of list operations and looks at what they
    return.  The specification rejects the sequences that misuse the lists
    (inserting an item that is on a list, walking an empty list, ...). *)

Inductive listop (L I : Type) :=
  | OInsert (l : L) (i : I) | OInsertEnd (l : L) (i : I) | ORemove (i : I)
  | OSetValue (i : I) (v : Z) | ONext (l : L) | OHead (l : L) | OLength (l : L).
Arguments OInsert {L I}. Arguments OInsertEnd {L I}. Arguments ORemove {L I}.
Arguments OSetValue {L I}. Arguments ONext {L I}. Arguments OHead {L I}. Arguments OLength {L I}.

Inductive obs (Ow : Type) := ObsNone | ObsCount (n : Z) | ObsOwner (o : Ow).
Arguments ObsNone {Ow}. Arguments ObsCount {Ow}. Arguments ObsOwner {Ow}.

Section programs.
Context {L I Ow : Type} `{Countable L, Countable I}.
Abbreviation Mem := (Mem L I Ow).
Implicit Types (m : Mem) (s : Lists L I).

Definition run_op (op : listop L I) m : option (Mem * obs Ow) :=
  match op with
  | OInsert l i => m ← vListInsert l i m; Some (m, ObsNone)
  | OInsertEnd l i => m ← vListInsertEnd l i m; Some (m, ObsNone)
  | ORemove i => '(m, n) ← uxListRemove i m; Some (m, ObsCount n)
  | OSetValue i v => m ← listSET_LIST_ITEM_VALUE i v m; Some (m, ObsNone)
  | ONext l => '(m, o) ← listGET_OWNER_OF_NEXT_ENTRY l m; Some (m, ObsOwner o)
  | OHead l => o ← listGET_OWNER_OF_HEAD_ENTRY l m; Some (m, ObsOwner o)
  | OLength l => n ← listCURRENT_LIST_LENGTH l m; Some (m, ObsCount n)
  end.

Fixpoint run_ops (ops : list (listop L I)) m : option (Mem * list (obs Ow)) :=
  match ops with
  | [] => Some (m, [])
  | op :: ops => '(m, o) ← run_op op m; '(m, os) ← run_ops ops m; Some (m, o :: os)
  end.

#[local] Instance can_insert_dec s l i : Decision (can_insert s l i).
Proof. unfold can_insert. apply _. Defined.

Definition can_set_value s i v : Prop :=
  is_Some (l_items s !! i) /\ 0 <= v <= portMAX_DELAY.
#[local] Instance can_set_value_dec s i v : Decision (can_set_value s i v).
Proof. unfold can_set_value. apply _. Defined.

Definition spec_op (ow : gmap I Ow) (op : listop L I) s : option (Lists L I * obs Ow) :=
  match op with
  | OInsert l i => guard (can_insert s l i);; Some (lInsert l i s, ObsNone)
  | OInsertEnd l i => guard (can_insert s l i);; Some (lInsertEnd l i s, ObsNone)
  | ORemove i => l ← container s i;
      Some (lRemove i s, ObsCount (Z.of_nat (length (on_list (lRemove i s) l))))
  | OSetValue i v => guard (can_set_value s i v);;
      Some (set_value i v s, ObsNone)
  | ONext l => guard (is_Some (l_rings s !! l));;
      i ← ring_next (ring s l); o ← ow !! i; Some (lAdvance l s, ObsOwner o)
  | OHead l => guard (is_Some (l_rings s !! l));;
      i ← head (on_list s l); o ← ow !! i; Some (s, ObsOwner o)
  | OLength l => guard (is_Some (l_rings s !! l));;
      Some (s, ObsCount (Z.of_nat (length (on_list s l))))
  end.

Fixpoint spec_ops (ow : gmap I Ow) (ops : list (listop L I)) s
    : option (Lists L I * list (obs Ow)) :=
  match ops with
  | [] => Some (s, [])
  | op :: ops => '(s, o) ← spec_op ow op s; '(s, os) ← spec_ops ow ops s; Some (s, o :: os)
  end.

Lemma set_value_refines m s i v :
  refines m s -> is_Some (l_items s !! i) -> 0 <= v <= portMAX_DELAY ->
  exists m', listSET_LIST_ITEM_VALUE i v m = Some m' /\ refines m' (set_value i v s) /\
    m_owner m' = m_owner m.
Proof.
  intros [Hw Hrep Hitem] Hi Hv. destruct (Hitem i Hi) as (Hc & Hval & _).
  unfold listSET_LIST_ITEM_VALUE, set_node, get_value in *.
  destruct (m_node m !! PItem i) as [n|] eqn:En; [|done]. cbn.
  eexists. split; [done|]. split; [|done].
  assert (forall p, get_next (mkMem (<[PItem i := mkNode v (pxNext n) (pxPrevious n)]> (m_node m))
      (m_list m) (m_container m) (m_owner m)) p = get_next m p /\
    get_prev (mkMem (<[PItem i := mkNode v (pxNext n) (pxPrevious n)]> (m_node m))
      (m_list m) (m_container m) (m_owner m)) p = get_prev m p) as Hnp.
  { intros p. unfold get_next, get_prev; simpl. rewrite lookup_insert.
    case_decide; subst; by rewrite ?En. }
  split; [by apply lists_wf_set_value| |].
  - intros l Hl. apply (rep_frame m); [by apply Hrep|done| |done].
    unfold get_value; simpl. by rewrite lookup_insert_ne.
  - intros j Hj. rewrite container_set_value, value_set_value.
    unfold get_value; simpl. simpl in Hj.
    destruct (decide (i = j)) as [<-|Hij].
    + by rewrite lookup_insert_eq.
    + rewrite lookup_insert_ne by congruence. rewrite lookup_insert_ne in Hj by done.
      by apply Hitem.
Qed.

Lemma run_op_refines ow m s op s' o :
  refines m s -> m_owner m = ow -> spec_op ow op s = Some (s', o) ->
  exists m', run_op op m = Some (m', o) /\ refines m' s' /\ m_owner m' = ow.
Proof.
  intros HR <- Hs. destruct op; cbn [spec_op run_op] in *; simplify_option_eq.
  - destruct (vListInsert_refines m s l i) as (m' & -> & ? & ?); [done..|]. cbn. eauto.
  - destruct (vListInsertEnd_refines m s l i) as (m' & -> & ? & ?); [done..|]. cbn. eauto.
  - destruct (uxListRemove_refines m s i H1) as (m' & -> & ? & ?); [done..|]. cbn. eauto.
  - match goal with Hcan : can_set_value _ _ _ |- _ => destruct Hcan end.
    destruct (set_value_refines m s i v) as (m' & -> & ? & ?); [done..|]. cbn. eauto.
  - match goal with Hn : ring_next _ = Some ?x, Ho : m_owner m !! ?x = Some ?w |- _ =>
      destruct (listGET_OWNER_OF_NEXT_ENTRY_refines m s l x w) as (m' & -> & ? & ?) end;
      [done..|]. cbn. eauto.
  - destruct (gap_links m s' l [] (on_list s' l)) as [G _]; [done..|].
    unfold listGET_OWNER_OF_HEAD_ENTRY. unfold last_ptr in G. simpl in G. rewrite G. cbn.
    unfold first_ptr. match goal with Hh : head _ = Some _ |- _ => rewrite Hh end.
    match goal with Ho : m_owner m !! _ = Some _ |- _ => rewrite Ho end. cbn. eauto.
  - unfold listCURRENT_LIST_LENGTH.
    match goal with Hl : is_Some _ |- _ => rewrite (rep_hdr _ _ _ (ref_rep m s' HR l Hl)) end.
    cbn. eauto.
Qed.

(** C1: the pointer code of list.c implements the specification of the lists:
    every sequence of operations that the specification accepts runs without
    an invalid access, returns the same owners and counts, and leaves a memory
    that again represents the specified lists. *)
Theorem list_programs_refine ow ops m s s' os :
  refines m s -> m_owner m = ow -> spec_ops ow ops s = Some (s', os) ->
  exists m', run_ops ops m = Some (m', os) /\ refines m' s' /\ m_owner m' = ow.
Proof.
  revert m s os. induction ops as [|op ops IH]; intros m s os HR Ho Hs; simpl in *.
  { simplify_eq. eauto. }
  destruct (spec_op ow op s) as [[s1 o1]|] eqn:E1; [|done]. cbn in Hs.
  destruct (spec_ops ow ops s1) as [[s2 os2]|] eqn:E2; [|done]. cbn in Hs. simplify_eq.
  destruct (run_op_refines (m_owner m) m s op s1 o1) as (m1 & -> & HR1 & Ho1); [done..|].
  cbn. destruct (IH m1 s1 os2) as (m2 & -> & HR2 & Ho2); [done|done|congruence|].
  cbn. eauto.
Qed.

(** An initialised list is empty and its memory represents it. *)
Lemma vListInitialise_refines m s l :
  refines m s -> on_list s l = [] ->
  is_Some (m_list m !! l) -> is_Some (m_node m !! PEnd l) ->
  exists m', vListInitialise l m = Some m' /\ refines m' (lInitialise l s) /\
    m_owner m' = m_owner m.
Proof.
  intros [Hw Hrep Hitem] Hon [h Hh] [n Hn]. unfold vListInitialise. rewrite Hh, Hn. cbn.
  eexists. split; [done|]. split; [|done]. split.
  - destruct Hw as [H1 H2]. split.
    + intros l'. unfold lInitialise. rewrite ring_upd. case_decide; [|done].
      apply ring_wf_empty.
    + intros i l'. unfold lInitialise, on_list. rewrite container_upd_ring, ring_upd.
      case_decide; subst; [|apply H2]. fold (on_list s l'). rewrite H2, Hon. done.
  - intros l' Hl'. unfold lInitialise. rewrite ring_upd. case_decide as Hd; [subst l'|].
    + split; cbn.
      * by rewrite lookup_insert_eq.
      * unfold get_value; simpl. by rewrite lookup_insert_eq.
      * unfold get_next, get_prev; simpl. by rewrite lookup_insert_eq.
      * lia.
    + simpl in Hl'. rewrite lookup_insert_ne in Hl' by done.
      apply (rep_frame m); [by apply Hrep| | |simpl; by rewrite lookup_insert_ne].
      * intros p Hp. unfold get_next, get_prev; simpl. rewrite lookup_insert_ne; [done|].
        intros <-. apply elem_of_cons in Hp as [[= <-]|(x & ? & _)%list_elem_of_fmap]; done.
      * unfold get_value; simpl. rewrite lookup_insert_ne; congruence.
  - intros i Hi. unfold get_value; simpl. rewrite lookup_insert_ne by done.
    by apply Hitem.
Qed.
End programs.

(** A concrete run: two lists, three items, in uninitialised memory. *)
Definition raw_mem : Mem nat nat Z := mkMem
  {[ PEnd 0%nat := mkNode 7 PNull PNull; PEnd 1%nat := mkNode 9 PNull PNull;
     PItem 1%nat := mkNode 30 PNull PNull; PItem 2%nat := mkNode 10 PNull PNull;
     PItem 3%nat := mkNode 30 PNull PNull ]}
  {[ 0%nat := mkList 5 PNull; 1%nat := mkList 6 PNull ]}
  {[ 1%nat := None; 2%nat := None; 3%nat := None ]}
  {[ 1%nat := 101; 2%nat := 102; 3%nat := 103 ]}.
Definition raw_lists : Lists nat nat := mkLists ∅
  {[ 1%nat := mkAItem 30 None; 2%nat := mkAItem 10 None; 3%nat := mkAItem 30 None ]}.
Definition sample_program : list (listop nat nat) :=
  [OInsert 0%nat 1%nat; OInsert 0%nat 2%nat; OInsert 0%nat 3%nat; OHead 0%nat;
   ONext 0%nat; ONext 0%nat; ORemove 1%nat; OInsertEnd 1%nat 1%nat; ONext 0%nat;
   OLength 1%nat].

Lemma raw_refines : refines raw_mem raw_lists.
Proof.
  split.
  - split; [intros l; split; [constructor|done]|]. intros i l. unfold container, item, raw_lists.
    simpl. split; [|intros Hi; by apply elem_of_nil in Hi].
    destruct (decide (i = 1%nat)) as [->|]; [done|].
    destruct (decide (i = 2%nat)) as [->|]; [done|].
    destruct (decide (i = 3%nat)) as [->|]; [done|]. by simplify_map_eq.
  - intros l [x Hx]. done.
  - intros i [x Hx]. unfold raw_lists in Hx. simpl in Hx.
    destruct (decide (i = 1%nat)) as [->|]; [done|].
    destruct (decide (i = 2%nat)) as [->|]; [done|].
    destruct (decide (i = 3%nat)) as [->|]; [done|]. by simplify_map_eq.
Qed.

Lemma list_programs_refine_witness :
  exists m m', refines m (lInitialise 1%nat (lInitialise 0%nat raw_lists)) /\
    run_ops sample_program m
      = Some (m', [ObsNone; ObsNone; ObsNone; ObsOwner 102; ObsOwner 102; ObsOwner 101;
                   ObsCount 2; ObsNone; ObsOwner 103; ObsCount 1]).
Proof.
  destruct (vListInitialise_refines raw_mem raw_lists 0%nat) as (m1 & E1 & HR1 & Ho1);
    [apply raw_refines|done|by eexists|by eexists|].
  vm_compute in E1. injection E1 as <-.
  match type of HR1 with refines ?m ?s =>
    destruct (vListInitialise_refines m s 1%nat) as (m2 & E2 & HR2 & Ho2);
    [exact HR1|done|by eexists|by eexists|] end.
  vm_compute in E2. injection E2 as <-.
  match type of HR2 with refines ?m ?s =>
    destruct (spec_ops (m_owner m) sample_program s) as [[s' os]|] eqn:E;
      [|vm_compute in E; discriminate];
    destruct (list_programs_refine (m_owner m) sample_program m s s' os HR2 eq_refl E)
      as (m3 & E3 & _ & _);
    exists m, m3 end.
  split; [exact HR2|]. apply (f_equal (option_map snd)) in E. vm_compute in E.
  injection E as <-. exact E3.
Defined.
