(* ===== verification/Heap4.v ===== *)
(** * heap_4.c: the kernel's allocator

    The heap is the array [ucHeap] of configTOTAL_HEAP_SIZE bytes.  The memory
    of the model holds the [BlockLink_t] headers (of free blocks, of allocated
    blocks, of [xStart] and of the block [pxEnd] points to) by address; stale
    headers of merged blocks stay in it.  A header that was never written is
    undefined and the operations return [None] on it.  Pointers and [size_t]
    are 32-bit integers; NULL is 0.  The proofs show that the blocks always
    tile the heap. *)

From S2P Require Import Prelude.
#[local] Open Scope Z_scope.

(** ** Configuration (FreeRTOSConfig.h, portmacro.h) and data *)

Definition configTOTAL_HEAP_SIZE : Z := 65536.
Definition portBYTE_ALIGNMENT : Z := 8.
Definition portBYTE_ALIGNMENT_MASK : Z := 7.
Definition NULL : Z := 0.

Record BlockLink_t := mkBlock { pxNextFreeBlock : Z; xBlockSize : Z }.

(** [sizeof(BlockLink_t)] is 8: a pointer and a [size_t]. *)
Definition xHeapStructSize : Z :=
  Z.land (8 + (portBYTE_ALIGNMENT - 1)) (Z.lnot portBYTE_ALIGNMENT_MASK).
Definition heapMINIMUM_BLOCK_SIZE : Z := Z.shiftl xHeapStructSize 1.

Record Heap := mkHeap {
  h_mem : gmap Z BlockLink_t;
  pxEnd : Z;
  xFreeBytesRemaining : Z;
  xMinimumEverFreeBytesRemaining : Z;
  xBlockAllocatedBit : Z
}.

Section heap.
(** The addresses the linker gives to [ucHeap] and [xStart], and what the
    word that becomes the [pxNextFreeBlock] of a split block held before. *)
Context (ucHeap xStart : Z) (old_word : Z).

Definition set_mem (f : gmap Z BlockLink_t -> gmap Z BlockLink_t) (h : Heap) : Heap :=
  mkHeap (f (h_mem h)) (pxEnd h) (xFreeBytesRemaining h)
         (xMinimumEverFreeBytesRemaining h) (xBlockAllocatedBit h).

(** Field assignments through a block pointer. *)
Definition set_next (p q : Z) (h : Heap) : option Heap :=
  b ← h_mem h !! p; Some (set_mem (<[p := mkBlock q (xBlockSize b)]>) h).
Definition set_size (p n : Z) (h : Heap) : option Heap :=
  b ← h_mem h !! p; Some (set_mem (<[p := mkBlock (pxNextFreeBlock b) n]>) h).

Definition prvHeapInit (h : Heap) : Heap :=
  let '(uxAddress, xTotalHeapSize) :=
    if negb (Z.land ucHeap portBYTE_ALIGNMENT_MASK =? 0) then
      let a := Z.land (u32 (ucHeap + (portBYTE_ALIGNMENT - 1)))
                      (Z.lnot portBYTE_ALIGNMENT_MASK) in
      (a, u32 (configTOTAL_HEAP_SIZE - u32 (a - ucHeap)))
    else (ucHeap, configTOTAL_HEAP_SIZE) in
  let pucAlignedHeap := uxAddress in
  let e := Z.land (u32 (u32 (pucAlignedHeap + xTotalHeapSize) - xHeapStructSize))
                  (Z.lnot portBYTE_ALIGNMENT_MASK) in
  let size := u32 (e - pucAlignedHeap) in
  mkHeap (<[pucAlignedHeap := mkBlock e size]>
           (<[e := mkBlock NULL 0]>
             (<[xStart := mkBlock pucAlignedHeap 0]> (h_mem h))))
         e size size (Z.shiftl 1 31).

(** The loop that walks to the insertion position. *)
Fixpoint insert_position (fuel : nat) (m : gmap Z BlockLink_t) (b it : Z) : option Z :=
  match fuel with
  | O => None
  | S fuel =>
    n ← m !! it;
    if pxNextFreeBlock n <? b then insert_position fuel m b (pxNextFreeBlock n)
    else Some it
  end.

(** Merge with the block before; the block the insertion goes on with. *)
Definition merge_before (it b : Z) (h : Heap) : option (Heap * Z) :=
  i ← h_mem h !! it;
  if u32 (it + xBlockSize i) =? b then
    bb ← h_mem h !! b;
    h ← set_size it (u32 (xBlockSize i + xBlockSize bb)) h; Some (h, it)
  else Some (h, b).

(** Merge with the block after, or link to it. *)
Definition merge_after (it b : Z) (h : Heap) : option Heap :=
  i ← h_mem h !! it;
  bb ← h_mem h !! b;
  if u32 (b + xBlockSize bb) =? pxNextFreeBlock i then
    if negb (pxNextFreeBlock i =? pxEnd h) then
      nx ← h_mem h !! (pxNextFreeBlock i);
      h ← set_size b (u32 (xBlockSize bb + xBlockSize nx)) h;
      i ← h_mem h !! it;
      nx ← h_mem h !! (pxNextFreeBlock i);
      set_next b (pxNextFreeBlock nx) h
    else set_next b (pxEnd h) h
  else set_next b (pxNextFreeBlock i) h.

Definition prvInsertBlockIntoFreeList (b : Z) (h : Heap) : option Heap :=
  it ← insert_position (S (size (h_mem h))) (h_mem h) b xStart;
  '(h, b) ← merge_before it b h;
  h ← merge_after it b h;
  if negb (it =? b) then set_next it b h else Some h.

(** The first-fit search: the previous block and the block reached. *)
Fixpoint find_block (fuel : nat) (m : gmap Z BlockLink_t) (w prv b : Z) : option (Z * Z) :=
  match fuel with
  | O => None
  | S fuel =>
    n ← m !! b;
    if (xBlockSize n <? w) && negb (pxNextFreeBlock n =? NULL)
    then find_block fuel m w b (pxNextFreeBlock n)
    else Some (prv, b)
  end.

(** The size that is really taken: the header and the padding added. *)
Definition wanted_size (w : Z) : Z :=
  if w >? 0 then
    let w := u32 (w + xHeapStructSize) in
    if negb (Z.land w portBYTE_ALIGNMENT_MASK =? 0)
    then u32 (w + (portBYTE_ALIGNMENT - Z.land w portBYTE_ALIGNMENT_MASK))
    else w
  else w.

(** The accounting for a block taken, and its allocated header. *)
Definition finish_block (b : Z) (h : Heap) : option Heap :=
  bb ← h_mem h !! b;
  let left := u32 (xFreeBytesRemaining h - xBlockSize bb) in
  let h := mkHeap (h_mem h) (pxEnd h) left
    (if left <? xMinimumEverFreeBytesRemaining h then left
     else xMinimumEverFreeBytesRemaining h) (xBlockAllocatedBit h) in
  h ← set_size b (Z.lor (xBlockSize bb) (xBlockAllocatedBit h)) h;
  set_next b NULL h.

(** The part of pvPortMalloc that runs once a size is accepted. *)
Definition take_block (w : Z) (h : Heap) : option (Heap * Z) :=
  s ← h_mem h !! xStart;
  '(prv, b) ← find_block (S (size (h_mem h))) (h_mem h) w xStart (pxNextFreeBlock s);
  if negb (b =? pxEnd h) then
    p ← h_mem h !! prv;
    let pvReturn := u32 (pxNextFreeBlock p + xHeapStructSize) in
    bb ← h_mem h !! b;
    h ← set_next prv (pxNextFreeBlock bb) h;
    bb ← h_mem h !! b;
    h ← (if u32 (xBlockSize bb - w) >? heapMINIMUM_BLOCK_SIZE then
           let nb := u32 (b + w) in
           let nsize := u32 (xBlockSize bb - w) in
           let h := set_mem (<[nb := mkBlock
             (default old_word (pxNextFreeBlock <$> h_mem h !! nb)) nsize]>) h in
           h ← set_size b w h;
           prvInsertBlockIntoFreeList nb h
         else Some h);
    h ← finish_block b h;
    Some (h, pvReturn)
  else Some (h, NULL).

Definition pvPortMalloc (xWantedSize : Z) (h : Heap) : option (Heap * Z) :=
  let h := if pxEnd h =? NULL then prvHeapInit h else h in
  if Z.land xWantedSize (xBlockAllocatedBit h) =? 0 then
    let w := wanted_size xWantedSize in
    if (w >? 0) && (w <=? xFreeBytesRemaining h) then take_block w h
    else Some (h, NULL)
  else Some (h, NULL).

Definition vPortFree (pv : Z) (h : Heap) : option Heap :=
  if negb (pv =? NULL) then
    let b := u32 (pv - xHeapStructSize) in
    bb ← h_mem h !! b;
    if negb (Z.land (xBlockSize bb) (xBlockAllocatedBit h) =? 0) then
      if pxNextFreeBlock bb =? NULL then
        let sz := Z.land (xBlockSize bb) (u32 (Z.lnot (xBlockAllocatedBit h))) in
        h ← set_size b sz h;
        let h := mkHeap (h_mem h) (pxEnd h) (u32 (xFreeBytesRemaining h + sz))
          (xMinimumEverFreeBytesRemaining h) (xBlockAllocatedBit h) in
        prvInsertBlockIntoFreeList b h
      else Some h
    else Some h
  else Some h.

Definition xPortGetFreeHeapSize (h : Heap) : Z := xFreeBytesRemaining h.
Definition xPortGetMinimumEverFreeHeapSize (h : Heap) : Z :=
  xMinimumEverFreeBytesRemaining h.
End heap.

(** A first run: two blocks, one freed, the next fit reuses it. *)
Definition heap0 : Heap := mkHeap ∅ NULL 0 0 0.
Example malloc_runs :
  (let ok := fun (r : option (Heap * Z)) => default (heap0, 7) r in
   let '(h, a) := ok (pvPortMalloc 0x20000003 0x20030000 77 100 heap0) in
   let '(h, b) := ok (pvPortMalloc 0x20000003 0x20030000 77 20 h) in
   let h := default heap0 (vPortFree 0x20030000 a h) in
   let '(h, c) := ok (pvPortMalloc 0x20000003 0x20030000 77 8 h) in
   let h := default heap0 (vPortFree 0x20030000 b h) in
   let h := default heap0 (vPortFree 0x20030000 c h) in
   (a, b, c, xFreeBytesRemaining h))
  = (0x20000010, 0x20000080, 0x20000010, 65520).
Proof. vm_compute. reflexivity. Qed.

(** ** The specification: blocks that tile the heap *)

Record Seg := mkSeg { s_addr : Z; s_size : Z; s_free : bool }.

(** The blocks from [base] to [e]: contiguous, aligned, never tiny. *)
Fixpoint tiles (base : Z) (ss : list Seg) (e : Z) : Prop :=
  match ss with
  | [] => base = e
  | s :: ss => s_addr s = base /\ 16 <= s_size s /\ s_size s mod 8 = 0 /\
               tiles (base + s_size s) ss e
  end.

(** No two neighbouring blocks are free. *)
Fixpoint coalesced (ss : list Seg) : Prop :=
  match ss with
  | s :: ((s' :: _) as ss') => ~ (s_free s = true /\ s_free s' = true) /\ coalesced ss'
  | _ => True
  end.

Definition free_bytes (ss : list Seg) : Z :=
  foldr (fun s n => (if s_free s then s_size s else 0) + n) 0 ss.

(** The first free block of [ss], or [nf] when there is none. *)
Fixpoint next_free (ss : list Seg) (nf : Z) : Z :=
  match ss with
  | [] => nf
  | s :: ss => if s_free s then s_addr s else next_free ss nf
  end.

(** The last free block of [ss], or [p] when there is none. *)
Fixpoint prev_free (p : Z) (ss : list Seg) : Z :=
  match ss with
  | [] => p
  | s :: ss => prev_free (if s_free s then s_addr s else p) ss
  end.

Definition ALLOCATED : Z := 2147483648.

(** The free blocks of [ss] are linked, the last one to [nf]. *)
Fixpoint free_chain (m : gmap Z BlockLink_t) (ss : list Seg) (nf : Z) : Prop :=
  match ss with
  | [] => True
  | s :: ss =>
    (s_free s = true -> m !! s_addr s = Some (mkBlock (next_free ss nf) (s_size s))) /\
    free_chain m ss nf
  end.

(** The headers that allocated blocks keep. *)
Definition allocated (m : gmap Z BlockLink_t) (ss : list Seg) : Prop :=
  forall s, s ∈ ss -> s_free s = false ->
    m !! s_addr s = Some (mkBlock NULL (Z.lor (s_size s) ALLOCATED)).

(** Taking the first free block of at least [w] bytes. *)
Fixpoint seg_alloc (w : Z) (ss : list Seg) : option (list Seg * Z) :=
  match ss with
  | [] => None
  | s :: ss =>
    if s_free s && (w <=? s_size s) then
      Some (if s_size s - w >? heapMINIMUM_BLOCK_SIZE
            then mkSeg (s_addr s) w false :: mkSeg (s_addr s + w) (s_size s - w) true :: ss
            else mkSeg (s_addr s) (s_size s) false :: ss, s_addr s)
    else '(ss, a) ← seg_alloc w ss; Some (s :: ss, a)
  end.

(** Releasing the block at [b] between [l] and [r]: it absorbs a free block
    after it and is absorbed by a free block before it. *)
Definition absorb (bs : Z) (r : list Seg) : Z * list Seg :=
  match r with
  | q :: r' => if s_free q then (bs + s_size q, r') else (bs, r)
  | [] => (bs, r)
  end.
Definition join (l : list Seg) (b bs : Z) (r : list Seg) : list Seg :=
  let '(cs, r') := absorb bs r in
  match last l with
  | Some p => if s_free p then removelast l ++ mkSeg (s_addr p) (s_size p + cs) true :: r'
              else l ++ mkSeg b cs true :: r'
  | None => mkSeg b cs true :: r'
  end.

(** The state of an allocator that links [xStart] and whose blocks are [ss]. *)
Record heap_inv (xStart base : Z) (h : Heap) (ss : list Seg) : Prop := mkInv {
  inv_range : 0 < base /\ pxEnd h + 8 <= 4294967296;
  inv_align : base mod 8 = 0;
  inv_small : pxEnd h - base < ALLOCATED;
  inv_start_out : 0 <= xStart < base \/ pxEnd h < xStart < 4294967296;
  inv_tiles : tiles base ss (pxEnd h);
  inv_coalesced : coalesced ss;
  inv_start : h_mem h !! xStart = Some (mkBlock (next_free ss (pxEnd h)) 0);
  inv_chain : free_chain (h_mem h) ss (pxEnd h);
  inv_allocated : allocated (h_mem h) ss;
  inv_end : h_mem h !! pxEnd h = Some (mkBlock NULL 0);
  inv_bytes : xFreeBytesRemaining h = free_bytes ss;
  inv_min : 0 <= xMinimumEverFreeBytesRemaining h <= xFreeBytesRemaining h;
  inv_bit : xBlockAllocatedBit h = ALLOCATED
}.

(** ** Lemmas on the blocks *)

Lemma tiles_app b l r e : tiles b (l ++ r) e <-> exists m, tiles b l m /\ tiles m r e.
Proof.
  revert b. induction l as [|s l IH]; intros b; simpl.
  - split; [by exists b|]. by intros (? & -> & ?).
  - rewrite IH. naive_solver.
Qed.

Lemma tiles_le b ss e : tiles b ss e -> b <= e.
Proof.
  revert b. induction ss as [|s ss IH]; intros b; simpl; [lia|].
  intros (<- & ? & ? & H%IH). lia.
Qed.

Lemma tiles_in b ss e s :
  tiles b ss e -> s ∈ ss -> b <= s_addr s /\ s_addr s + s_size s <= e /\ 16 <= s_size s.
Proof.
  intros Ht (l & r & ->)%list_elem_of_split.
  apply tiles_app in Ht as (m & H1%tiles_le & ? & ? & ? & H2%tiles_le). lia.
Qed.

Lemma tiles_mod b ss e s :
  tiles b ss e -> b mod 8 = 0 -> s ∈ ss -> s_addr s mod 8 = 0 /\ s_size s mod 8 = 0.
Proof.
  revert b. induction ss as [|x ss IH]; intros b; simpl; [by intros _ _ ?%elem_of_nil|].
  intros (Hx & _ & Hm & Ht) Hb [->|Hs]%elem_of_cons; [by rewrite Hx|].
  apply (IH _ Ht); [|done]. rewrite Z.add_mod, Hb, Hm by lia. done.
Qed.

Lemma next_free_app l r nf : next_free (l ++ r) nf = next_free l (next_free r nf).
Proof. induction l as [|s l IH]; simpl; [done|]. by destruct (s_free s). Qed.

Lemma prev_free_app p l r : prev_free p (l ++ r) = prev_free (prev_free p l) r.
Proof. revert p. induction l as [|s l IH]; intros p; simpl; [done|]. by rewrite IH. Qed.

Lemma free_chain_app m l r nf :
  free_chain m (l ++ r) nf <-> free_chain m l (next_free r nf) /\ free_chain m r nf.
Proof.
  induction l as [|s l IH]; simpl; [tauto|]. rewrite IH, next_free_app. tauto.
Qed.

Lemma free_chain_ext m m' ss nf :
  free_chain m ss nf -> (forall s, s ∈ ss -> s_free s = true -> m' !! s_addr s = m !! s_addr s) ->
  free_chain m' ss nf.
Proof.
  induction ss as [|s ss IH]; simpl; [done|]. intros [H1 H2] Hm. split.
  - intros Hs. rewrite Hm; [by apply H1|by left|done].
  - apply IH; [done|]. intros x Hx. apply Hm. by right.
Qed.

Lemma next_free_bounds b ss e :
  tiles b ss e -> next_free ss e = e \/ b <= next_free ss e < e.
Proof.
  revert b. induction ss as [|s ss IH]; intros b; simpl; [by left|].
  intros (<- & ? & ? & Ht). pose proof (tiles_le _ _ _ Ht).
  destruct (s_free s); [right; lia|]. destruct (IH _ Ht); lia.
Qed.

Lemma prev_free_bounds b ss e p :
  tiles b ss e -> prev_free p ss = p \/ b <= prev_free p ss < e.
Proof.
  revert b p. induction ss as [|s ss IH]; intros b p; simpl; [by left|].
  intros (<- & ? & ? & Ht). pose proof (tiles_le _ _ _ Ht).
  destruct (s_free s).
  - destruct (IH _ (s_addr s) Ht); lia.
  - destruct (IH _ p Ht); lia.
Qed.

Lemma free_bytes_app l r : free_bytes (l ++ r) = free_bytes l + free_bytes r.
Proof. unfold free_bytes. induction l as [|s l IH]; simpl; [done|]. rewrite IH. lia. Qed.

Lemma free_bytes_bounds b ss e : tiles b ss e -> 0 <= free_bytes ss <= e - b.
Proof.
  revert b. induction ss as [|s ss IH]; intros b; simpl; [lia|].
  intros (<- & ? & ? & Ht). specialize (IH _ Ht). fold (free_bytes ss).
  destruct (s_free s); lia.
Qed.

(** Changing what the last free block of [ss] points at. *)
Lemma relink m base ss e n1 p z :
  tiles base ss e -> ~ (base <= p < e) ->
  m !! p = Some (mkBlock (next_free ss n1) z) -> free_chain m ss n1 ->
  exists sz, m !! prev_free p ss = Some (mkBlock n1 sz) /\
    forall n2 m', m' !! prev_free p ss = Some (mkBlock n2 sz) ->
      (forall a, a <> prev_free p ss -> a = p \/ base <= a < e -> m' !! a = m !! a) ->
      m' !! p = Some (mkBlock (next_free ss n2) z) /\ free_chain m' ss n2.
Proof.
  revert base p z. induction ss as [|s ss IH]; intros base p z; simpl.
  { intros -> _ Hp _. exists z. split; [done|]. intros n2 m' Hm' _. done. }
  intros (Ha & Hsz & _ & Ht) Hout Hp [Hs Hc]. pose proof (tiles_le _ _ _ Ht).
  destruct (s_free s) eqn:Ef.
  - destruct (IH _ (s_addr s) (s_size s) Ht) as (sz & Hprev & Hm); [lia|by apply Hs|done|].
    exists sz. split; [done|]. intros n2 m' Hm' Hsame.
    destruct (Hm n2 m' Hm') as [H1 H2]; [intros a ??; apply Hsame; [done|lia]|].
    split_and!; [|by intros _|done].
    rewrite Hsame; [done| |by left].
    destruct (prev_free_bounds _ _ _ (s_addr s) Ht); lia.
  - destruct (IH _ p z Ht) as (sz & Hprev & Hm); [lia|done..|].
    exists sz. split; [done|]. intros n2 m' Hm' Hsame.
    destruct (Hm n2 m' Hm') as [H1 H2]; [intros a ??; apply Hsame; [done|lia]|].
    split_and!; done.
Qed.

(** *** The loops *)

Definition free_addrs (ss : list Seg) : list Z :=
  s_addr <$> filter (fun s => s_free s = true) ss.

Lemma free_addrs_cons s ss :
  free_addrs (s :: ss) = if s_free s then s_addr s :: free_addrs ss else free_addrs ss.
Proof.
  unfold free_addrs. rewrite filter_cons. destruct (s_free s); [by rewrite decide_True|].
  by rewrite decide_False.
Qed.

Lemma free_addrs_bounds base ss e a :
  tiles base ss e -> a ∈ free_addrs ss -> base <= a < e.
Proof.
  intros Ht (s & -> & Hs)%list_elem_of_fmap. apply list_elem_of_filter in Hs as [_ Hs].
  destruct (tiles_in _ _ _ _ Ht Hs). lia.
Qed.

Lemma free_addrs_size m base ss e nf :
  tiles base ss e -> free_chain m ss nf -> (length (free_addrs ss) <= size m)%nat.
Proof.
  intros Ht Hc. apply length_le_size.
  - clear Hc. revert base Ht. induction ss as [|s ss IH]; intros base; [constructor|].
    simpl. intros (<- & ? & _ & Ht). rewrite free_addrs_cons.
    destruct (s_free s); [|by eapply IH]. constructor; [|by eapply IH].
    intros Hin%(free_addrs_bounds _ _ _ _ Ht). lia.
  - intros a (s & -> & Hs)%list_elem_of_fmap. apply list_elem_of_filter in Hs as [Hf Hs].
    clear Ht. induction ss as [|x ss IH]; [by apply elem_of_nil in Hs|]. simpl in Hc.
    destruct Hc as [Hc1 Hc]. apply elem_of_cons in Hs as [<-|Hs]; [|by apply IH].
    rewrite Hc1 by done. by eexists.
Qed.

Lemma insert_position_ok m base l e n1 b p z fuel :
  tiles base l e -> m !! p = Some (mkBlock (next_free l n1) z) -> free_chain m l n1 ->
  e <= b -> b <= n1 -> (length (free_addrs l) < fuel)%nat ->
  insert_position fuel m b p = Some (prev_free p l).
Proof.
  revert base p z fuel. induction l as [|s l IH]; intros base p z fuel; simpl.
  - intros -> Hp _ _ Hb Hf. destruct fuel; [simpl in Hf; lia|]. simpl. rewrite Hp. simpl.
    by destruct (Z.ltb_spec n1 b); [lia|].
  - intros (Ha & Hsz & _ & Ht) Hp [Hs Hc] Heb Hb Hf. pose proof (tiles_le _ _ _ Ht).
    rewrite free_addrs_cons in Hf. destruct (s_free s) eqn:Ef.
    + destruct fuel; [simpl in Hf; lia|]. simpl. rewrite Hp. simpl.
      destruct (Z.ltb_spec (s_addr s) b); [|lia].
      eapply IH; [done|by apply Hs|done..|simpl in Hf; lia].
    + by eapply IH.
Qed.

(** Which block the first-fit search reaches. *)
Lemma find_block_ok m base ss e w p fuel :
  tiles base ss e -> 0 < base -> free_chain m ss e -> m !! e = Some (mkBlock NULL 0) ->
  0 < w -> (length (free_addrs ss) < fuel)%nat ->
  (exists q, find_block fuel m w p (next_free ss e) = Some (q, e) /\
     Forall (fun s => s_free s = true -> s_size s < w) ss) \/
  (exists l s r, ss = l ++ s :: r /\ s_free s = true /\ w <= s_size s /\
     Forall (fun s => s_free s = true -> s_size s < w) l /\
     find_block fuel m w p (next_free ss e) = Some (prev_free p l, s_addr s)).
Proof.
  intros Ht Hbase Hc He Hw. revert base p fuel Ht Hbase Hc.
  induction ss as [|s ss IH]; intros base p fuel Ht Hbase Hc Hf.
  - left. destruct fuel; [simpl in Hf; lia|]. simpl. rewrite He. simpl.
    rewrite andb_false_r. eauto.
  - simpl in Ht, Hc. destruct Ht as (Ha & Hsz & Hm & Ht). destruct Hc as [Hs Hc].
    rewrite free_addrs_cons in Hf. simpl. destruct (s_free s) eqn:Ef.
    + destruct fuel; [simpl in Hf; lia|]. simpl. rewrite Hs by done. simpl.
      destruct (Z.ltb_spec (s_size s) w) as [Hlt|Hge]; simpl.
      * assert (next_free ss e <> NULL) as Hnz.
        { pose proof (tiles_le _ _ _ Ht). destruct (next_free_bounds _ _ _ Ht);
            unfold NULL; lia. }
        destruct (Z.eqb_spec (next_free ss e) NULL); [done|]. simpl.
        destruct (IH _ (s_addr s) fuel Ht) as [(q & E & Hall)|(l & x & r & -> & ? & ? & ? & E)];
          [lia|done|simpl in Hf; lia|left|right].
        -- exists q. split; [done|]. by constructor.
        -- exists (s :: l), x, r. simpl. rewrite Ef. split_and!; try done. by constructor.
      * right. exists [], s, ss. by split_and!.
    + destruct (IH _ p fuel Ht) as [(q & E & Hall)|(l & x & r & -> & ? & ? & ? & E)];
        [lia|done|done|left|right].
      * exists q. split; [done|]. constructor; [by rewrite Ef|done].
      * exists (s :: l), x, r. simpl. rewrite Ef.
        split_and!; [done..| |done]. constructor; [by rewrite Ef|done].
Qed.

(** *** Inserting a block *)

Lemma set_next_eq p q h n z :
  h_mem h !! p = Some (mkBlock n z) -> set_next p q h = Some (set_mem (<[p := mkBlock q z]>) h).
Proof. unfold set_next. by intros ->. Qed.

Lemma set_size_eq p q h n z :
  h_mem h !! p = Some (mkBlock n z) -> set_size p q h = Some (set_mem (<[p := mkBlock n q]>) h).
Proof. unfold set_size. by intros ->. Qed.

Lemma prev_free_split p ss :
  prev_free p ss = p \/
  exists l s r, ss = l ++ s :: r /\ s_free s = true /\ prev_free p ss = s_addr s.
Proof.
  revert p. induction ss as [|s ss IH]; intros p; simpl; [by left|].
  destruct (s_free s) eqn:Ef; destruct (IH (if s_free s then s_addr s else p)) as
    [E|(l & x & r & -> & ? & E)]; rewrite Ef in E; rewrite E.
  - right. by exists [], s, ss.
  - right. by exists (s :: l), x, r.
  - by left.
  - right. by exists (s :: l), x, r.
Qed.

Lemma elem_free_addrs s ss : s ∈ ss -> s_free s = true -> s_addr s ∈ free_addrs ss.
Proof.
  intros Hs Hf. apply list_elem_of_fmap. exists s. split; [done|].
  by apply list_elem_of_filter.
Qed.

Lemma prev_free_in p ss : prev_free p ss = p \/ prev_free p ss ∈ free_addrs ss.
Proof.
  destruct (prev_free_split p ss) as [|(l & s & r & -> & ? & ->)]; [by left|].
  right. apply elem_free_addrs; [|done]. apply elem_of_app. right. by left.
Qed.

Lemma merge_before_ok xStart base h l b bs g n1 sz :
  0 < base -> b < 4294967296 -> ~ (base <= xStart <= b) -> 0 <= xStart < 4294967296 ->
  tiles base l b -> free_chain (h_mem h) l n1 -> h_mem h !! b = Some (mkBlock g bs) ->
  0 <= bs -> b + bs < 4294967296 ->
  h_mem h !! prev_free xStart l = Some (mkBlock n1 sz) ->
  (prev_free xStart l = xStart -> sz = 0) ->
  merge_before (prev_free xStart l) b h =
    match last l with
    | Some p => if s_free p then
        Some (set_mem (<[s_addr p := mkBlock n1 (s_size p + bs)]>) h, s_addr p)
        else Some (h, b)
    | None => Some (h, b)
    end.
Proof.
  intros Hbase Hb Hx Hx' Ht Hc Hbb Hbs Hbbs Hprev Hz. unfold merge_before. rewrite Hprev. simpl.
  destruct (last l) as [p|] eqn:El; [destruct (s_free p) eqn:Ep|].
  - apply last_Some in El as (l' & ->). rewrite prev_free_app in *. simpl in *.
    rewrite Ep in *. apply free_chain_app in Hc as (_ & Hp & _). rewrite Hp in Hprev by done.
    simpl in Hprev. simplify_eq. apply tiles_app in Ht as (m & Ht & <- & Hsz & _ & Hend).
    simpl in Hend. subst b. pose proof (tiles_le _ _ _ Ht). rewrite u32_small, Z.eqb_refl by lia.
    rewrite Hbb. simpl. unfold set_size. rewrite Hp by done. simpl.
    rewrite u32_small by lia. done.
  - assert (u32 (prev_free xStart l + sz) <> b) as Hneq; [|by apply Z.eqb_neq in Hneq as ->].
    destruct (prev_free_split xStart l) as [Ex|(l1 & s & l2 & -> & Hs & Ex)].
    { pose proof (tiles_le _ _ _ Ht). rewrite Hz by done. rewrite Ex, u32_small by lia. lia. }
    rewrite Ex in *. apply free_chain_app in Hc as (_ & Hc & _). rewrite Hc in Hprev by done.
    simplify_eq. destruct l2 as [|s2 l2]; [rewrite last_snoc in El; congruence|].
    apply tiles_app in Ht as (m & H1%tiles_le & Ha & ? & _ & Ha2 & ? & _ & H2%tiles_le).
    rewrite u32_small; lia.
  - apply last_None in El as ->. simpl in *. rewrite Hz by done.
    rewrite u32_small by lia. destruct (Z.eqb_spec (xStart + 0) b); [lia|done].
Qed.

Lemma merge_after_ok h it c cs g r n m :
  0 <= c -> c + cs < 4294967296 -> 0 < cs ->
  tiles (c + cs) r (pxEnd h) -> pxEnd h < 4294967296 ->
  h_mem h !! it = Some (mkBlock (next_free r (pxEnd h)) n) ->
  h_mem h !! c = Some (mkBlock g cs) -> free_chain (h_mem h) r (pxEnd h) ->
  (it = c \/ it < c \/ pxEnd h < it) ->
  m = <[c := mkBlock (next_free (absorb cs r).2 (pxEnd h)) (absorb cs r).1]> (h_mem h) ->
  merge_after it c h = Some (set_mem (fun _ => m) h).
Proof.
  intros Hc Hcs Hcs0 Ht He Hit Hcc Hch Hne ->. unfold merge_after, set_next. rewrite Hit, Hcc. simpl.
  rewrite u32_small by lia. destruct r as [|q r]; simpl in *.
  - by rewrite Ht, Z.eqb_refl.
  - destruct Ht as (Ha & Hsz & _ & Ht). pose proof (tiles_le _ _ _ Ht).
    destruct Hch as [Hq Hch]. destruct (s_free q) eqn:Eq; simpl.
    + rewrite Ha, Z.eqb_refl. destruct (Z.eqb_spec (c + cs) (pxEnd h)); [lia|]. simpl.
      rewrite <- Ha, Hq by done. simpl. unfold set_size. rewrite Hcc. simpl.
      destruct (decide (it = c)) as [->|Hd].
      * simplify_eq. rewrite lookup_insert_eq. simpl.
        rewrite (lookup_insert_ne _ c (s_addr q)), Hq by (done || lia). simpl. unfold set_mem; simpl.
        rewrite insert_insert_eq, u32_small by lia. done.
      * rewrite (lookup_insert_ne _ c it), Hit by congruence. simpl.
        rewrite (lookup_insert_ne _ c (s_addr q)), Hq by (done || lia). simpl.
        rewrite lookup_insert_eq. simpl. unfold set_mem; simpl.
        rewrite insert_insert_eq, u32_small by lia. done.
    + destruct (Z.eqb_spec (c + cs) (next_free r (pxEnd h)));
        [destruct (next_free_bounds _ _ _ Ht); lia|].
      by rewrite Eq.
Qed.

Lemma absorb_ok c cs r e m nf :
  tiles (c + cs) r e -> cs mod 8 = 0 -> free_chain m r nf ->
  tiles (c + (absorb cs r).1) (absorb cs r).2 e /\ cs <= (absorb cs r).1 /\
  (absorb cs r).1 mod 8 = 0 /\ free_chain m (absorb cs r).2 nf /\
  (forall s, s ∈ (absorb cs r).2 -> s ∈ r).
Proof.
  intros Ht Hm Hc. destruct r as [|q r]; simpl in *; [done|].
  destruct Ht as (Ha & Hsz & Hq & Ht), Hc as [Hc1 Hc].
  destruct (s_free q) eqn:Eq; simpl; [|rewrite Eq; by split_and!].
  split_and!; [|lia| |done|].
  - by rewrite Z.add_assoc.
  - by rewrite Z.add_mod, Hm, Hq by lia.
  - by right.
Qed.

Lemma absorb_add n cs r :
  absorb (n + cs) r = (n + (absorb cs r).1, (absorb cs r).2).
Proof. destruct r as [|q r]; [done|]. simpl. destruct (s_free q); simpl; [|done]. by rewrite Z.add_assoc. Qed.

(** What the insertion needs of the memory around the block, and what it leaves. *)
Record gap (xStart base : Z) (h : Heap) (l : list Seg) (b bs : Z) (r : list Seg) : Prop := mkGap {
  gap_base : 0 < base;
  gap_end : pxEnd h + 8 <= 4294967296;
  gap_start : 0 <= xStart < base \/ pxEnd h < xStart < 4294967296;
  gap_size : 16 <= bs /\ bs mod 8 = 0;
  gap_left : tiles base l b;
  gap_right : tiles (b + bs) r (pxEnd h);
  gap_head : h_mem h !! xStart = Some (mkBlock (next_free (l ++ r) (pxEnd h)) 0);
  gap_chain : free_chain (h_mem h) (l ++ r) (pxEnd h);
  gap_block : exists g, h_mem h !! b = Some (mkBlock g bs)
}.

(** The block before is free: it grows over the new block. *)
Lemma insert_grow xStart base h l p b bs r :
  gap xStart base h (l ++ [p]) b bs r -> s_free p = true ->
  let j := l ++ mkSeg (s_addr p) (s_size p + (absorb bs r).1) true :: (absorb bs r).2 in
  exists m,
    merge_after (s_addr p) (s_addr p)
      (set_mem (<[s_addr p := mkBlock (next_free r (pxEnd h)) (s_size p + bs)]>) h) =
      Some (set_mem (fun _ => m) h) /\
    tiles base j (pxEnd h) /\ m !! xStart = Some (mkBlock (next_free j (pxEnd h)) 0) /\
    free_chain m j (pxEnd h) /\ (forall a, a <> s_addr p -> m !! a = h_mem h !! a).
Proof.
  intros [Hbase Hend Hst [Hbs Hbs8] Htl Htr Hhd Hch _] Hp j.
  apply tiles_app in Htl as (x & Htl & <- & Hsz & Hsz8 & <-).
  pose proof (tiles_le _ _ _ Htl). pose proof (tiles_le _ _ _ Htr).
  rewrite !next_free_app in Hhd. rewrite !free_chain_app in Hch. simpl in Hhd, Hch.
  rewrite Hp in Hhd. destruct Hch as [(Hcl & _) Hcr]. simpl in Hcl. rewrite Hp in Hcl.
  eexists. split.
  { etrans; [eapply (merge_after_ok (set_mem _ h) _ _ (s_size p + bs) _ r)|reflexivity]; simpl.
    1-3: lia.
    - by rewrite Z.add_assoc.
    - lia.
    - by rewrite lookup_insert_eq.
    - by rewrite lookup_insert_eq.
    - eapply free_chain_ext; [done|]. intros s Hs _. rewrite lookup_insert_ne; [done|].
      destruct (tiles_in _ _ _ _ Htr Hs). lia.
    - by left.
    - reflexivity. }
  rewrite insert_insert_eq, absorb_add. simpl.
  destruct (absorb_ok _ _ _ _ _ _ Htr Hbs8 Hcr) as (Ht' & Hge & Hm' & Hc' & Hin).
  split_and!.
  - apply tiles_app. exists (s_addr p). simpl. split_and!; [done..|lia| |].
    + by rewrite Z.add_mod, Hm', Hsz8 by lia.
    + by rewrite !Z.add_assoc.
  - subst j. rewrite next_free_app. simpl. rewrite lookup_insert_ne; [done|lia].
  - subst j. rewrite free_chain_app. simpl. split_and!; [| |].
    + eapply free_chain_ext; [done|]. intros s Hs _. rewrite lookup_insert_ne; [done|].
      destruct (tiles_in _ _ _ _ Htl Hs). lia.
    + intros _. by rewrite lookup_insert_eq.
    + eapply free_chain_ext; [done|]. intros s Hs%Hin _. rewrite lookup_insert_ne; [done|].
      destruct (tiles_in _ _ _ _ Htr Hs). lia.
  - intros a Ha. by rewrite lookup_insert_ne.
Qed.

(** The block before is not free: the new block is linked after the last free one. *)
Lemma insert_link xStart base h l b bs r :
  gap xStart base h l b bs r -> prev_free xStart l <> b ->
  let j := l ++ mkSeg b (absorb bs r).1 true :: (absorb bs r).2 in
  exists m,
    (h ← merge_after (prev_free xStart l) b h; set_next (prev_free xStart l) b h) =
      Some (set_mem (fun _ => m) h) /\
    tiles base j (pxEnd h) /\ m !! xStart = Some (mkBlock (next_free j (pxEnd h)) 0) /\
    free_chain m j (pxEnd h) /\
    (forall a, a <> b -> a <> prev_free xStart l -> m !! a = h_mem h !! a).
Proof.
  intros [Hbase Hend Hst [Hbs Hbs8] Htl Htr Hhd Hch (g & Hb)] Hne j.
  pose proof (tiles_le _ _ _ Htl). pose proof (tiles_le _ _ _ Htr).
  rewrite next_free_app in Hhd. apply free_chain_app in Hch as [Hcl Hcr].
  destruct (relink _ _ _ _ _ xStart _ Htl ltac:(lia) Hhd Hcl) as (sz & Hprev & Hre).
  pose proof (prev_free_bounds _ _ _ xStart Htl).
  destruct (absorb_ok _ _ _ _ _ _ Htr Hbs8 Hcr) as (Ht' & Hge & Hm' & Hc' & Hin).
  rewrite (merge_after_ok _ _ _ bs g r sz _) by (done || lia). simpl.
  unfold set_next. simpl. rewrite lookup_insert_ne, Hprev by done. simpl.
  eexists. split; [reflexivity|].
  destruct (Hre b (<[prev_free xStart l:=mkBlock b sz]>
    (<[b:=mkBlock (next_free (absorb bs r).2 (pxEnd h)) (absorb bs r).1]> (h_mem h))))
    as [? ?]; [by rewrite lookup_insert_eq|..].
  { intros a Ha Ha'. rewrite !lookup_insert_ne; [done|lia|done]. }
  split_and!.
  - apply tiles_app. exists b. simpl. split_and!; [done..|lia|done|done].
  - subst j. by rewrite next_free_app.
  - subst j. rewrite free_chain_app. simpl. split_and!; [done| |].
    + intros _. by rewrite lookup_insert_ne, lookup_insert_eq.
    + eapply free_chain_ext; [done|]. intros s Hs%Hin _.
      destruct (tiles_in _ _ _ _ Htr Hs). rewrite !lookup_insert_ne; [done|lia|lia].
  - intros a Ha Ha'. simpl. by rewrite !lookup_insert_ne.
Qed.

Lemma prvInsert_ok xStart base h l b bs r :
  gap xStart base h l b bs r ->
  exists m, prvInsertBlockIntoFreeList xStart b h = Some (set_mem (fun _ => m) h) /\
    tiles base (join l b bs r) (pxEnd h) /\
    m !! xStart = Some (mkBlock (next_free (join l b bs r) (pxEnd h)) 0) /\
    free_chain m (join l b bs r) (pxEnd h) /\
    (forall a, a <> xStart -> a <> b -> ~ a ∈ free_addrs l -> m !! a = h_mem h !! a).
Proof.
  intros [Hbase Hend Hst [Hbs Hbs8] Htl Htr Hhd Hch (g & Hb)].
  pose proof (tiles_le _ _ _ Htl). pose proof (tiles_le _ _ _ Htr).
  rewrite next_free_app in Hhd. apply free_chain_app in Hch as [Hcl Hcr].
  assert (b <= next_free r (pxEnd h)) as Hn1
    by (destruct (next_free_bounds _ _ _ Htr); lia).
  destruct (relink _ _ _ _ _ xStart _ Htl ltac:(lia) Hhd Hcl) as (sz & Hprev & Hre).
  unfold prvInsertBlockIntoFreeList.
  pose proof (free_addrs_size _ _ _ _ _ Htl Hcl).
  rewrite (insert_position_ok _ base l b (next_free r (pxEnd h)) b xStart 0)
    by (eassumption || lia). simpl.
  assert (prev_free xStart l = xStart -> sz = 0) as Hz
    by (intros E; rewrite E, Hhd in Hprev; by simplify_eq).
  rewrite (merge_before_ok _ base _ _ _ bs g (next_free r (pxEnd h)) sz)
    by (eassumption || lia).
  assert (gap xStart base h l b bs r) as Hgap
    by (split; eauto; by rewrite ?next_free_app, ?free_chain_app).
  pose proof (prev_free_bounds _ _ _ xStart Htl) as Hpb.
  assert (prev_free xStart l <> b) as Hne by lia.
  assert (negb (prev_free xStart l =? b) = true) as Hneb
    by (apply negb_true_iff; by apply Z.eqb_neq).
  pose proof (insert_link _ _ _ _ _ _ _ Hgap Hne) as Hlink. unfold join.
  destruct (absorb bs r) as [cs r'] eqn:Eab. simpl in Hlink.
  assert (forall (m : gmap Z BlockLink_t) a, a <> xStart -> a <> b -> ~ a ∈ free_addrs l ->
    (forall a, a <> b -> a <> prev_free xStart l -> m !! a = h_mem h !! a) ->
    m !! a = h_mem h !! a) as Hfr.
  { intros m a ??? Hm. apply Hm; [done|]. destruct (prev_free_in xStart l); congruence. }
  destruct (last l) as [p|] eqn:El; [destruct (s_free p) eqn:Ep|];
    [|try apply last_None in El as ->; simpl in Hneb |- *; rewrite Hneb;
      destruct Hlink as (m & ? & ? & ? & ? & ?); exists m; eauto 10..].
  apply last_Some in El as (l' & ->). rewrite removelast_last.
  destruct (insert_grow _ _ _ _ _ _ _ _ Hgap Ep) as (m & E & ? & ? & ? & Hm).
  rewrite prev_free_app in *. simpl in *. rewrite Ep in *. rewrite E. simpl.
  rewrite Z.eqb_refl, Eab in *. simpl in *.
  exists m. split_and!; [done..|]. intros a ?? Ha. apply Hm. intros ->. apply Ha.
  apply elem_free_addrs; [|done]. apply elem_of_app. right. by left.
Qed.

(** *** What joining does to the blocks *)

Lemma absorb_bytes bs r : (absorb bs r).1 + free_bytes (absorb bs r).2 = bs + free_bytes r.
Proof. destruct r as [|q r]; simpl; [done|]. fold (free_bytes r). destruct (s_free q) eqn:E; simpl; fold (free_bytes r); rewrite ?E; lia. Qed.

Lemma join_cases l b bs r :
  (exists l' p, l = l' ++ [p] /\ s_free p = true /\ join l b bs r =
     l' ++ mkSeg (s_addr p) (s_size p + (absorb bs r).1) true :: (absorb bs r).2) \/
  ((forall p, last l = Some p -> s_free p = false) /\
   join l b bs r = l ++ mkSeg b (absorb bs r).1 true :: (absorb bs r).2).
Proof.
  unfold join. destruct (absorb bs r) as [cs r']; simpl.
  destruct (last l) as [p|] eqn:E; [destruct (s_free p) eqn:Ep|].
  - left. apply last_Some in E as (l' & ->). exists l', p. by rewrite removelast_last.
  - right. split; [|done]. intros ? ?. by simplify_eq.
  - right. apply last_None in E as ->. done.
Qed.

Lemma free_bytes_join l b bs r :
  free_bytes (join l b bs r) = free_bytes l + bs + free_bytes r.
Proof.
  pose proof (absorb_bytes bs r).
  destruct (join_cases l b bs r) as [(l' & p & -> & Hp & ->)|[_ ->]];
    rewrite !free_bytes_app; simpl; fold (free_bytes (absorb bs r).2); [rewrite Hp|]; lia.
Qed.

Lemma join_in l b bs r s :
  s ∈ join l b bs r -> s_free s = false -> s ∈ l \/ s ∈ r.
Proof.
  assert (forall x, x ∈ (absorb bs r).2 -> x ∈ r).
  { intros x. destruct r as [|q r]; simpl; [done|]. destruct (s_free q); [by right|done]. }
  intros Hs Hf. destruct (join_cases l b bs r) as [(l' & p & -> & Hp & E)|[_ E]];
    rewrite E in Hs; apply elem_of_app in Hs as [Hs|[->|Hs]%elem_of_cons];
    rewrite ?elem_of_app; by auto.
Qed.

Lemma in_join l b bs r s : s ∈ l \/ s ∈ r -> s_free s = false -> s ∈ join l b bs r.
Proof.
  intros Hs Hf. assert (s ∈ r -> s ∈ (absorb bs r).2) as Hr.
  { destruct r as [|q r]; simpl; [done|]. destruct (s_free q) eqn:Eq; simpl; [|done].
    intros [->|?]%elem_of_cons; [congruence|done]. }
  destruct (join_cases l b bs r) as [(l' & p & -> & Hp & E)|[_ E]]; rewrite E, elem_of_app, elem_of_cons.
  - destruct Hs as [[Hs|Hs]%elem_of_app|Hs]; [by left| |by do 2 right; apply Hr].
    apply list_elem_of_singleton in Hs as ->. congruence.
  - destruct Hs as [Hs|Hs]; [by left|by do 2 right; apply Hr].
Qed.

(** A free block may follow a list that does not end in a free block, and be
    followed by a list that does not start with one. *)
Definition ends_free (l : list Seg) : bool := match last l with Some p => s_free p | None => false end.
Definition starts_free (r : list Seg) : bool := match r with q :: _ => s_free q | [] => false end.

Lemma coalesced_app l r :
  coalesced (l ++ r) <->
  coalesced l /\ coalesced r /\ ~ (ends_free l = true /\ starts_free r = true).
Proof.
  induction l as [|s l IH]; simpl.
  - unfold ends_free; simpl. naive_solver.
  - destruct l as [|s' l]; simpl in *.
    + unfold ends_free, starts_free; simpl. destruct r; naive_solver.
    + rewrite IH. unfold ends_free. simpl. tauto.
Qed.

Lemma coalesced_cons s r :
  coalesced (s :: r) <-> coalesced r /\ ~ (s_free s = true /\ starts_free r = true).
Proof. destruct r as [|q r]; simpl; naive_solver. Qed.

Lemma absorb_coalesced bs r :
  coalesced r -> coalesced (absorb bs r).2 /\ starts_free (absorb bs r).2 = false.
Proof.
  destruct r as [|q r]; [done|]. intros Hq. pose proof Hq as [Hr Hn]%coalesced_cons. unfold absorb.
  destruct (s_free q) eqn:E; cbn [fst snd starts_free]; [|done]. split; [done|].
  destruct (starts_free r); naive_solver.
Qed.

Lemma coalesced_join l b bs r : coalesced l -> coalesced r -> coalesced (join l b bs r).
Proof.
  intros Hl [Hr Hs]%(absorb_coalesced bs).
  destruct (join_cases l b bs r) as [(l' & p & -> & Hp & ->)|[Hlast ->]];
    rewrite coalesced_app, coalesced_cons; simpl; rewrite Hs.
  - apply coalesced_app in Hl as (? & _ & Hn). simpl in Hn. rewrite Hp in Hn. naive_solver.
  - assert (ends_free l = false) as ->
      by (unfold ends_free; destruct (last l); [by apply Hlast|done]). naive_solver.
Qed.

Lemma tiles_inj base ss e s s' :
  tiles base ss e -> s ∈ ss -> s' ∈ ss -> s_addr s = s_addr s' -> s = s'.
Proof.
  revert base. induction ss as [|x ss IH]; intros base; simpl; [by intros _ ?%elem_of_nil|].
  intros (<- & ? & _ & Ht) [->|Hs]%elem_of_cons [->|Hs']%elem_of_cons E; [done|..].
  - destruct (tiles_in _ _ _ _ Ht Hs'). lia.
  - destruct (tiles_in _ _ _ _ Ht Hs). lia.
  - by eapply IH.
Qed.

(** *** vPortFree *)

Lemma land_lor_allocated n : 0 <= n < ALLOCATED ->
  Z.land (Z.lor n ALLOCATED) ALLOCATED = ALLOCATED /\
  Z.land (Z.lor n ALLOCATED) (u32 (Z.lnot ALLOCATED)) = n /\
  Z.land n ALLOCATED = 0.
Proof.
  unfold ALLOCATED. intros Hn. change 2147483648 with (2 ^ 31) in *.
  assert (u32 (Z.lnot (2 ^ 31)) = Z.ones 31) as -> by reflexivity.
  assert (Z.land n (2 ^ 31) = 0) as H0.
  { apply Z.bits_inj'. intros i Hi. rewrite Z.land_spec, Z.pow2_bits_eqb, Z.bits_0 by lia.
    destruct (Z.eqb_spec 31 i) as [<-|]; [|by rewrite andb_false_r].
    rewrite Z.bits_above_log2; [done|lia|].
    destruct (decide (n = 0)) as [->|]; [simpl; lia|]. apply Z.log2_lt_pow2; lia. }
  rewrite !Z.land_lor_distr_l, Z.land_diag, H0, !Z.land_ones by lia.
  by rewrite (Z.mod_small n), Z.mod_same, Z.lor_0_l, Z.lor_0_r by lia.
Qed.

(** The memory around an allocated block once its header is a plain one. *)
Lemma inv_gap xStart base h l b n r m g :
  heap_inv xStart base h (l ++ mkSeg b n false :: r) ->
  m = <[b := mkBlock g n]> (h_mem h) ->
  gap xStart base (set_mem (fun _ => m) h) l b n r.
Proof.
  intros [[??] _ _ Hst Ht _ Hhd Hch _ _ _ _ _] ->.
  pose proof (tiles_in _ _ _ _ Ht ltac:(apply elem_of_app; right; by left)) as Hin. simpl in Hin.
  apply tiles_app in Ht as (x & Htl & <- & Hn & Hn8 & Htr). simpl in *.
  rewrite next_free_app in Hhd. rewrite free_chain_app in Hch. simpl in Hhd, Hch.
  destruct Hch as (Hcl & _ & Hcr).
  split; simpl; try done.
  - rewrite lookup_insert_ne, Hhd by lia. by rewrite next_free_app.
  - apply free_chain_app. split.
    + eapply free_chain_ext; [done|]. intros s Hs _. rewrite lookup_insert_ne; [done|].
      destruct (tiles_in _ _ _ _ Htl Hs). lia.
    + eapply free_chain_ext; [done|]. intros s Hs _. rewrite lookup_insert_ne; [done|].
      destruct (tiles_in _ _ _ _ Htr Hs). lia.
  - exists g. by rewrite lookup_insert_eq.
Qed.

Lemma free_addrs_elem a ss : a ∈ free_addrs ss -> exists s, s ∈ ss /\ s_free s = true /\ a = s_addr s.
Proof.
  intros (s & -> & Hs)%list_elem_of_fmap. apply list_elem_of_filter in Hs as []. eauto.
Qed.

Lemma free_step xStart base h l b n r :
  heap_inv xStart base h (l ++ mkSeg b n false :: r) ->
  exists h', vPortFree xStart (b + 8) h = Some h' /\
    heap_inv xStart base h' (join l b n r) /\ pxEnd h' = pxEnd h /\
    xMinimumEverFreeBytesRemaining h' = xMinimumEverFreeBytesRemaining h.
Proof.
  intros Hinv. pose proof Hinv as [[??] ? ? Hst Ht Hco Hhd Hch Hal He Hby Hmin Hbit].
  assert (mkSeg b n false ∈ l ++ mkSeg b n false :: r) as Hin
    by (apply elem_of_app; right; by left).
  pose proof (tiles_in _ _ _ _ Ht Hin) as Hr. simpl in Hr.
  pose proof (Hal _ Hin eq_refl) as Hb. simpl in Hb.
  destruct (land_lor_allocated n) as (E1 & E2 & _); [lia|].
  unfold vPortFree. destruct (Z.eqb_spec (b + 8) NULL) as [E|_]; [unfold NULL in E; lia|].
  cbn [negb]. change xHeapStructSize with 8.
  replace (b + 8 - 8) with b by lia. rewrite u32_small, Hb by lia. cbn [mbind option_bind].
  cbn [xBlockSize pxNextFreeBlock]. rewrite Hbit, E1, E2. simpl.
  unfold set_size. rewrite Hb. simpl.
  pose proof (free_bytes_bounds _ _ _ Ht) as Hfb. rewrite free_bytes_app in Hfb, Hby.
  simpl in Hfb, Hby. fold (free_bytes r) in Hfb, Hby.
  apply tiles_app in Ht as Ht'. destruct Ht' as (x & Htl & <- & Hn & Hn8 & Htr). simpl in *.
  pose proof (free_bytes_bounds _ _ _ Htl). pose proof (free_bytes_bounds _ _ _ Htr).
  rewrite u32_small by lia.
  set (h1 := mkHeap _ _ _ _ _).
  assert (gap xStart base h1 l b n r) as Hgap.
  { destruct (inv_gap xStart base h l b n r _ NULL Hinv eq_refl); split; eauto. }
  destruct (prvInsert_ok _ _ _ _ _ _ _ Hgap) as (m & -> & Htj & Hhj & Hcj & Hfr).
  eexists. split; [reflexivity|]. split; [|done].
  apply coalesced_app in Hco as (Hcol & (Hcor & _)%coalesced_cons & _).
  assert (forall a, a <> xStart -> a <> b -> ~ a ∈ free_addrs l -> m !! a = h_mem h !! a) as Hm.
  { intros a ???. rewrite Hfr by done. simpl. by rewrite lookup_insert_ne. }
  split; simpl; try done.
  - by apply coalesced_join.
  - intros s Hs Hf. assert (s ∈ l ++ mkSeg b n false :: r) as Hs'.
    { apply elem_of_app. destruct (join_in _ _ _ _ _ Hs Hf); [by left|right; by right]. }
    pose proof (tiles_in _ _ _ _ Ht Hs').
    rewrite Hm; [by apply Hal|lia| |].
    + intros E. destruct (join_in _ _ _ _ _ Hs Hf) as [Hs2|Hs2].
      * destruct (tiles_in _ _ _ _ Htl Hs2). lia.
      * destruct (tiles_in _ _ _ _ Htr Hs2). lia.
    + intros (s' & Hsl & Hf' & E)%free_addrs_elem.
      assert (s = s') as ->; [|congruence].
      eapply tiles_inj; [exact Ht|done| |done]. apply elem_of_app. by left.
  - rewrite Hm; [done|lia|lia|]. intros Hx%(free_addrs_bounds _ _ _ _ Htl). lia.
  - rewrite free_bytes_join. lia.
  - lia.
Qed.

(** *** pvPortMalloc *)

Lemma chain_skip m l b w r e :
  free_chain m (l ++ mkSeg b w false :: r) e <-> free_chain m (l ++ r) e.
Proof. rewrite !free_chain_app. simpl. naive_solver. Qed.

Lemma next_skip l b w r e : next_free (l ++ mkSeg b w false :: r) e = next_free (l ++ r) e.
Proof. by rewrite !next_free_app. Qed.

Lemma bytes_skip l b w r : free_bytes (l ++ mkSeg b w false :: r) = free_bytes (l ++ r).
Proof. by rewrite !free_bytes_app. Qed.

(** A memory whose blocks are [l], a block at [b] whose header does not
    matter yet, and [r]. *)
Record holed (xStart base : Z) (m : gmap Z BlockLink_t) (e : Z)
    (l : list Seg) (b w : Z) (r : list Seg) : Prop := mkHoled {
  hole_tiles : tiles base (l ++ mkSeg b w false :: r) e;
  hole_coalesced : coalesced (l ++ mkSeg b w false :: r);
  hole_start : m !! xStart = Some (mkBlock (next_free (l ++ r) e) 0);
  hole_chain : free_chain m (l ++ r) e;
  hole_alloc : allocated m (l ++ r);
  hole_end : m !! e = Some (mkBlock NULL 0)
}.

(** Writing the header of the allocated block closes the hole. *)
Lemma fill xStart base h ss l b w r h' :
  heap_inv xStart base h ss ->
  holed xStart base (h_mem h') (pxEnd h) l b w r ->
  pxEnd h' = pxEnd h -> xFreeBytesRemaining h' = free_bytes (l ++ r) ->
  0 <= xMinimumEverFreeBytesRemaining h' <= xFreeBytesRemaining h' ->
  xBlockAllocatedBit h' = ALLOCATED ->
  heap_inv xStart base (set_mem (<[b := mkBlock NULL (Z.lor w ALLOCATED)]>) h')
    (l ++ mkSeg b w false :: r).
Proof.
  intros [? ? ? Hst _ _ _ _ _ _ _ _ _] [Ht Hco Hhd Hch Hal He] Ee ? ? ?.
  assert (mkSeg b w false ∈ l ++ mkSeg b w false :: r) as Hin
    by (apply elem_of_app; right; by left).
  pose proof (tiles_in _ _ _ _ Ht Hin) as Hb. simpl in Hb.
  assert (forall s, s ∈ l ++ r -> s_addr s <> b /\ base <= s_addr s < pxEnd h) as Hne.
  { intros s Hs. apply tiles_app in Ht as (x & Htl & <- & ? & _ & Htr). simpl in *.
    pose proof (tiles_le _ _ _ Htl). pose proof (tiles_le _ _ _ Htr).
    apply elem_of_app in Hs as [Hs|Hs].
    - destruct (tiles_in _ _ _ _ Htl Hs). lia.
    - destruct (tiles_in _ _ _ _ Htr Hs). lia. }
  split; simpl; rewrite ?Ee, ?next_skip, ?chain_skip, ?bytes_skip; try done.
  - rewrite lookup_insert_ne; [done|lia].
  - eapply free_chain_ext; [done|]. intros s Hs _.
    rewrite lookup_insert_ne; [done|]. destruct (Hne s Hs). done.
  - intros s [Hs|[->|Hs]%elem_of_cons]%elem_of_app Hf; simpl.
    + assert (s ∈ l ++ r) as Hs' by (apply elem_of_app; by left).
      rewrite lookup_insert_ne by (destruct (Hne s Hs'); done). by apply Hal.
    + by rewrite lookup_insert_eq.
    + assert (s ∈ l ++ r) as Hs' by (apply elem_of_app; by right).
      rewrite lookup_insert_ne by (destruct (Hne s Hs'); done). by apply Hal.
  - rewrite lookup_insert_ne; [done|lia].
Qed.

(** Unlinking a free block leaves a hole. *)
Lemma unlink xStart base h l b n r :
  heap_inv xStart base h (l ++ mkSeg b n true :: r) ->
  exists sz,
    h_mem h !! prev_free xStart l = Some (mkBlock b sz) /\
    prev_free xStart l <> b /\
    h_mem h !! b = Some (mkBlock (next_free r (pxEnd h)) n) /\
    holed xStart base
      (<[prev_free xStart l := mkBlock (next_free r (pxEnd h)) sz]> (h_mem h))
      (pxEnd h) l b n r.
Proof.
  intros [[??] _ _ Hst Ht Hco Hhd Hch Hal He _ _ _].
  pose proof Ht as (x & Htl & <- & Hn & Hn8 & Htr)%tiles_app. simpl in *.
  pose proof (tiles_le _ _ _ Htl). pose proof (tiles_le _ _ _ Htr).
  rewrite next_free_app in Hhd. rewrite free_chain_app in Hch. simpl in Hhd, Hch.
  destruct Hch as (Hcl & Hb & Hcr).
  destruct (relink _ _ _ _ _ xStart _ Htl ltac:(lia) Hhd Hcl) as (sz & Hprev & Hre).
  pose proof (prev_free_bounds _ _ _ xStart Htl) as Hpb.
  exists sz. split_and!; [done|lia|by apply Hb|].
  edestruct (Hre (next_free r (pxEnd h))) as [Hst1 Hcl1];
    [by rewrite lookup_insert_eq|intros a Ha _; by rewrite lookup_insert_ne|].
  split.
  - apply tiles_app. exists b. by split_and!.
  - apply coalesced_app in Hco as (? & (? & _)%coalesced_cons & _).
    rewrite coalesced_app, coalesced_cons. simpl. split_and!; naive_solver.
  - by rewrite next_free_app.
  - rewrite free_chain_app. split; [done|]. eapply free_chain_ext; [done|]. intros s Hs _.
    destruct (tiles_in _ _ _ _ Htr Hs). rewrite lookup_insert_ne; [done|lia].
  - intros s Hs Hf. assert (s ∈ l ++ mkSeg b n true :: r) as Hs'.
    { apply elem_of_app. apply elem_of_app in Hs as [|]; [by left|right; by right]. }
    rewrite lookup_insert_ne; [by apply Hal|]. pose proof (tiles_in _ _ _ _ Ht Hs').
    intros E. destruct (prev_free_in xStart l) as [E2|(s2 & ? & ? & E2)%free_addrs_elem]; [lia|].
    assert (s2 = s) as ->; [|congruence]. eapply tiles_inj; [exact Ht| |done|congruence].
    apply elem_of_app. by left.
  - rewrite lookup_insert_ne; [done|lia].
Qed.

(** Cutting the rest off the block taken and inserting it as a free block. *)
Lemma cut xStart base h l b n r m1 w g old h2 :
  heap_inv xStart base h (l ++ mkSeg b n true :: r) ->
  holed xStart base m1 (pxEnd h) l b n r ->
  16 <= w -> w mod 8 = 0 -> 16 <= n - w -> pxEnd h2 = pxEnd h ->
  h_mem h2 = <[b := mkBlock g w]> (<[b + w := mkBlock old (n - w)]> m1) ->
  exists m, prvInsertBlockIntoFreeList xStart (b + w) h2 = Some (set_mem (fun _ => m) h2) /\
    (exists g', m !! b = Some (mkBlock g' w)) /\
    holed xStart base m (pxEnd h) l b w (mkSeg (b + w) (n - w) true :: r).
Proof.
  intros [[??] _ _ Hst Ht Hco _ _ _ _ _ _ _] [_ Hco1 Hhd Hch Hal He] Hw Hw8 Hrest Ee Em.
  assert (starts_free r = false) as Hsr.
  { apply coalesced_app in Hco as (_ & [_ Hn]%coalesced_cons & _). simpl in Hn.
    destruct (starts_free r); naive_solver. }
  apply tiles_app in Ht as (x & Htl & <- & Hn & Hn8 & Htr). simpl in *.
  pose proof (tiles_le _ _ _ Htl). pose proof (tiles_le _ _ _ Htr).
  assert (forall s, s ∈ l -> s_addr s + 16 <= b) as Hl
    by (intros s Hs; destruct (tiles_in _ _ _ _ Htl Hs); lia).
  assert (forall s, s ∈ r -> b + n <= s_addr s) as Hr
    by (intros s Hs; destruct (tiles_in _ _ _ _ Htr Hs); lia).
  assert (tiles base (l ++ [mkSeg b w false]) (b + w)) as Htl'
    by (apply tiles_app; exists b; by split_and!).
  assert (absorb (n - w) r = (n - w, r)) as Hab
    by (destruct r as [|q r']; [done|]; simpl in *; by rewrite Hsr).
  assert (join (l ++ [mkSeg b w false]) (b + w) (n - w) r =
          l ++ mkSeg b w false :: mkSeg (b + w) (n - w) true :: r) as Hj.
  { destruct (join_cases (l ++ [mkSeg b w false]) (b + w) (n - w) r)
      as [(l' & p & E & Hp & _)|[_ ->]].
    - apply app_inj_tail in E as [_ <-]. done.
    - rewrite Hab. simpl. by rewrite <- (assoc_L (++)). }
  assert (forall a, a <> b -> a <> b + w -> h_mem h2 !! a = m1 !! a) as Hm2
    by (intros a ??; by rewrite Em, !lookup_insert_ne).
  assert (gap xStart base h2 (l ++ [mkSeg b w false]) (b + w) (n - w) r) as Hgap.
  { split; rewrite ?Ee; try done.
    - split; [lia|]. rewrite Zminus_mod, Hn8, Hw8. done.
    - by replace (b + w + (n - w)) with (b + n) by lia.
    - rewrite Hm2 by lia. rewrite Hhd. rewrite <- (assoc_L (++)). simpl. by rewrite next_skip.
    - rewrite <- (assoc_L (++)). simpl. rewrite chain_skip.
      eapply free_chain_ext; [done|]. intros s [Hs%Hl|Hs%Hr]%elem_of_app _; rewrite Hm2; (done || lia).
    - exists old. rewrite Em, lookup_insert_ne by lia. by rewrite lookup_insert_eq. }
  destruct (prvInsert_ok _ _ _ _ _ _ _ Hgap) as (m & E & Htj & Hhj & Hcj & Hfr).
  rewrite Hj, Ee in *. exists m. split; [done|].
  assert (forall a, a <> xStart -> a <> b + w -> (forall s, s ∈ l -> s_free s = true -> a <> s_addr s) ->
    m !! a = h_mem h2 !! a) as Hm.
  { intros a ?? Hn'. apply Hfr; [done..|].
    intros (s & [Hs|[->|Hs%elem_of_nil]%elem_of_cons]%elem_of_app & Hf & ->)%free_addrs_elem;
      [by eapply Hn'|done..]. }
  split.
  { exists g. rewrite Hm; [by rewrite Em, lookup_insert_eq|lia|lia|].
    intros s Hs%Hl _. lia. }
  split; [done| |by rewrite next_skip in Hhj|by rewrite chain_skip in Hcj| |].
  - apply coalesced_app in Hco1 as (Hcl & (Hcr & _)%coalesced_cons & _).
    rewrite coalesced_app, !coalesced_cons. simpl. rewrite Hsr. naive_solver.
  - intros s Hs Hf. assert (s ∈ l ++ r) as Hs'.
    { apply elem_of_app. apply elem_of_app in Hs as [|[->|]%elem_of_cons]; by auto. }
    rewrite Hm; [rewrite Hm2; [by apply Hal|..]|..].
    all: apply elem_of_app in Hs' as [Hs1|Hs1].
    all: try (specialize (Hl _ Hs1) as ?; try destruct (tiles_in _ _ _ _ Htl Hs1)).
    all: try (specialize (Hr _ Hs1) as ?; try destruct (tiles_in _ _ _ _ Htr Hs1)).
    all: try lia.
    + intros s2 Hs2 Hf2 E2. assert (s2 = s) as ->; [|congruence].
      symmetry. eapply tiles_inj; [exact Htl|done..].
    + intros s2 Hs2%Hl Hf2 E2. lia.
  - rewrite Hm; [by rewrite Hm2 by lia|lia|lia|]. intros s Hs%Hl _. lia.
Qed.

Lemma seg_alloc_none w ss :
  Forall (fun s => s_free s = true -> s_size s < w) ss -> seg_alloc w ss = None.
Proof.
  induction 1 as [|s ss Hs _ IH]; simpl; [done|].
  destruct (s_free s); simpl; [|by rewrite IH].
  destruct (Z.leb_spec w (s_size s)); [specialize (Hs eq_refl); lia|]. by rewrite IH.
Qed.

Lemma seg_alloc_first w l s r :
  Forall (fun s => s_free s = true -> s_size s < w) l -> s_free s = true -> w <= s_size s ->
  seg_alloc w (l ++ s :: r) =
    Some (l ++ (if s_size s - w >? heapMINIMUM_BLOCK_SIZE
                then mkSeg (s_addr s) w false :: mkSeg (s_addr s + w) (s_size s - w) true :: r
                else mkSeg (s_addr s) (s_size s) false :: r), s_addr s).
Proof.
  intros Hl Hs Hw. induction Hl as [|x l Hx _ IH]; simpl.
  - rewrite Hs. by destruct (Z.leb_spec w (s_size s)); [|lia].
  - rewrite IH. simpl. destruct (s_free x); simpl; [|done].
    destruct (Z.leb_spec w (s_size x)); [specialize (Hx eq_refl); lia|done].
Qed.

Lemma gtb_spec a b : (a >? b) = bool_decide (b < a).
Proof. rewrite Z.gtb_ltb. destruct (Z.ltb_spec b a); case_bool_decide; done || lia. Qed.

Lemma finish_block_ok b h g n :
  h_mem h !! b = Some (mkBlock g n) -> 0 <= xFreeBytesRemaining h - n < 4294967296 ->
  xBlockAllocatedBit h = ALLOCATED ->
  finish_block b h = Some (set_mem (<[b := mkBlock NULL (Z.lor n ALLOCATED)]>)
    (mkHeap (h_mem h) (pxEnd h) (xFreeBytesRemaining h - n)
      (Z.min (xMinimumEverFreeBytesRemaining h) (xFreeBytesRemaining h - n)) ALLOCATED)).
Proof.
  intros Hb Hn Hbit. unfold finish_block. rewrite Hb, Hbit. cbn [mbind option_bind xBlockSize].
  rewrite u32_small by done. erewrite set_size_eq by done. cbn [mbind option_bind].
  erewrite set_next_eq by (simpl; by rewrite lookup_insert_eq). unfold set_mem; simpl.
  rewrite insert_insert_eq. do 2 f_equal.
  destruct (Z.ltb_spec (xFreeBytesRemaining h - n) (xMinimumEverFreeBytesRemaining h)); lia.
Qed.

Lemma take_step xStart base old_word w h ss :
  heap_inv xStart base h ss -> 16 <= w -> w mod 8 = 0 ->
  exists h' p, take_block xStart old_word w h = Some (h', p) /\
    match seg_alloc w ss with
    | Some (ss', a) => p = a + 8 /\ heap_inv xStart base h' ss' /\ pxEnd h' = pxEnd h /\
        xMinimumEverFreeBytesRemaining h' = Z.min (xMinimumEverFreeBytesRemaining h) (free_bytes ss')
    | None => p = NULL /\ h' = h
    end.
Proof.
  intros Hinv Hw Hw8. pose proof Hinv as [[??] ? _ Hst Ht Hco Hhd Hch Hal He Hby Hmin Hbit].
  unfold take_block. rewrite Hhd. cbn [mbind option_bind pxNextFreeBlock].
  pose proof (free_addrs_size _ _ _ _ _ Ht Hch).
  destruct (find_block_ok _ _ _ _ w xStart (S (size (h_mem h))) Ht ltac:(done) Hch He)
    as [(q & -> & Hall)|(l & s & r & -> & Hs & Hws & Hall & ->)]; [lia|lia|..];
    cbn [mbind option_bind].
  { rewrite Z.eqb_refl, seg_alloc_none by done. eauto. }
  destruct s as [b n f]. simpl in Hs, Hws |- *. subst f.
  rewrite seg_alloc_first by done. simpl.
  pose proof (tiles_in _ _ _ _ Ht ltac:(apply elem_of_app; right; by left)) as Hb. simpl in Hb.
  pose proof (tiles_mod _ _ _ _ Ht ltac:(done) ltac:(apply elem_of_app; right; by left)) as Hb8.
  simpl in Hb8. destruct Hb8 as [_ Hn8].
  pose proof (free_bytes_bounds _ _ _ Ht) as Hfb.
  rewrite free_bytes_app in Hby, Hfb. simpl in Hby, Hfb. fold (free_bytes r) in Hby, Hfb.
  pose proof Ht as (x & Htl & _ & _ & _ & Htr)%tiles_app. simpl in Htr.
  pose proof (free_bytes_bounds _ _ _ Htl). pose proof (free_bytes_bounds _ _ _ Htr).
  destruct (unlink _ _ _ _ _ _ _ Hinv) as (sz & Hprev & Hne & Hbm & Hhole).
  destruct (Z.eqb_spec b (pxEnd h)) as [|_]; [lia|]. cbn [negb]. rewrite Hprev.
  cbn [mbind option_bind pxNextFreeBlock]. rewrite Hbm.
  cbn [mbind option_bind pxNextFreeBlock]. rewrite (set_next_eq _ _ _ _ _ Hprev).
  cbn [mbind option_bind xBlockSize].
  set (m1 := <[prev_free xStart l:=_]> (h_mem h)) in Hhole.
  change (h_mem (set_mem _ h)) with m1. assert (m1 !! b = h_mem h !! b) as Hb1
    by (subst m1; by rewrite (lookup_insert_ne _ _ b)).
  rewrite Hb1, Hbm. cbn [mbind option_bind xBlockSize].
  change xHeapStructSize with 8. rewrite !(u32_small (n - w)), u32_small by lia.
  rewrite gtb_spec. change heapMINIMUM_BLOCK_SIZE with 16. case_bool_decide as Hcut.
  - rewrite (u32_small (b + w)) by lia.
    erewrite set_size_eq by (simpl; rewrite lookup_insert_ne by lia; etrans; [exact Hb1|exact Hbm]).
    cbn [mbind option_bind].
    assert (16 <= n - w) as Hrest by lia.
    match goal with |- context [prvInsertBlockIntoFreeList _ _ ?h2] =>
      destruct (cut xStart base h l b n r m1 w (next_free r (pxEnd h)) _ h2 Hinv Hhole
        Hw Hw8 Hrest eq_refl eq_refl) as (m & -> & (g' & Hmb) & Hhole')
    end.
    cbn [mbind option_bind]. erewrite finish_block_ok by (exact Hmb || exact Hbit || (simpl; lia)).
    cbn [mbind option_bind].
    do 2 eexists. split; [reflexivity|]. split; [done|]. split.
    + eapply fill; [exact Hinv|exact Hhole'|done|..]; simpl.
      * rewrite free_bytes_app. simpl. fold (free_bytes r). lia.
      * lia.
      * done.
    + split; [done|]. simpl. rewrite free_bytes_app. simpl. fold (free_bytes r). f_equal. lia.
  - cbn [mbind option_bind].
    erewrite finish_block_ok by ((etrans; [exact Hb1|exact Hbm]) || exact Hbit || (simpl; lia)).
    cbn [mbind option_bind].
    do 2 eexists. split; [reflexivity|]. split; [done|]. split.
    + eapply fill; [exact Hinv|exact Hhole|done|..]; simpl.
      * rewrite free_bytes_app. lia.
      * lia.
      * done.
    + split; [done|]. simpl. rewrite free_bytes_app. simpl. fold (free_bytes r). f_equal. lia.
Qed.

(** *** The sizes asked for *)

(** The header added and the sum rounded up to 8 bytes. *)
Definition block_size (w : Z) : Z := (w + 15) / 8 * 8.

Lemma land_7 x : Z.land x 7 = x mod 8.
Proof. change 7 with (Z.ones 3). by rewrite Z.land_ones. Qed.

Lemma land_lnot_7 x : Z.land x (Z.lnot 7) = x / 8 * 8.
Proof.
  pose proof (Z.land_ones x 3 ltac:(lia)) as H.
  rewrite <- Z.ldiff_land. change 7 with (Z.ones 3).
  rewrite Z.ldiff_ones_r by lia. rewrite Z.shiftr_div_pow2, Z.shiftl_mul_pow2 by lia. done.
Qed.

Lemma wanted_size_ok w : 0 < w < ALLOCATED -> wanted_size w = block_size w.
Proof.
  intros Hw. unfold ALLOCATED in Hw. unfold wanted_size, block_size.
  rewrite gtb_spec, bool_decide_eq_true_2 by lia.
  change xHeapStructSize with 8. change portBYTE_ALIGNMENT_MASK with 7.
  change portBYTE_ALIGNMENT with 8. rewrite (u32_small (w + 8)), land_7 by lia.
  destruct (Z.eqb_spec ((w + 8) mod 8) 0) as [E|E]; cbn [negb].
  - Z.div_mod_to_equations. lia.
  - pose proof (Z.mod_pos_bound (w + 8) 8). rewrite u32_small by lia.
    Z.div_mod_to_equations. lia.
Qed.

Lemma block_size_bounds w : 0 < w -> 16 <= block_size w /\ block_size w mod 8 = 0 /\
  w + 8 <= block_size w < w + 16.
Proof.
  intros. unfold block_size. rewrite Z.mod_mul by lia.
  Z.div_mod_to_equations. lia.
Qed.

Lemma land_allocated w : 0 <= w < 4294967296 -> (Z.land w ALLOCATED =? 0) = (w <? ALLOCATED).
Proof.
  intros Hw. destruct (Z.ltb_spec w ALLOCATED) as [H|H].
  - apply Z.eqb_eq, land_lor_allocated. lia.
  - apply Z.eqb_neq. intros E. assert (w = (w - ALLOCATED) + ALLOCATED) as E2 by lia.
    assert (Z.testbit (Z.land w ALLOCATED) 31 = true) as E3; [|by rewrite E in E3].
    rewrite Z.land_spec. change ALLOCATED with (2 ^ 31) in *.
    rewrite Z.pow2_bits_true, andb_true_r by lia. apply Z.testbit_true; [lia|].
    change (2 ^ 31) with 2147483648 in *. Z.div_mod_to_equations. lia.
Qed.

(** *** The abstract allocator *)

Definition alloc_spec (w : Z) (ss : list Seg) : list Seg * Z :=
  if (0 <? w) && (w <? ALLOCATED) then
    match seg_alloc (block_size w) ss with
    | Some (ss', a) => (ss', a + 8)
    | None => (ss, NULL)
    end
  else (ss, NULL).

(** Freeing NULL or a pointer that an allocated block backs. *)
Fixpoint seg_free (l : list Seg) (p : Z) (ss : list Seg) : option (list Seg) :=
  match ss with
  | [] => None
  | s :: r => if negb (s_free s) && (s_addr s + 8 =? p)
              then Some (join l (s_addr s) (s_size s) r)
              else seg_free (l ++ [s]) p r
  end.
Definition free_spec (p : Z) (ss : list Seg) : option (list Seg) :=
  if p =? NULL then Some ss else seg_free [] p ss.

Lemma seg_alloc_inv base ss e w ss' a :
  tiles base ss e -> seg_alloc w ss = Some (ss', a) -> 
  w <= free_bytes ss /\ exists l s r, ss = l ++ s :: r /\ s_free s = true /\ w <= s_size s /\
    Forall (fun s => s_free s = true -> s_size s < w) l /\ a = s_addr s.
Proof.
  revert base ss'. induction ss as [|s ss IH]; intros base ss'; simpl; [done|].
  intros (<- & ? & _ & Ht). fold (free_bytes ss). pose proof (free_bytes_bounds _ _ _ Ht).
  destruct (s_free s) eqn:Es; simpl.
  - destruct (Z.leb_spec w (s_size s)); simpl.
    + intros [= <- <-]. split; [lia|]. exists [], s, ss. by split_and!.
    + destruct (seg_alloc w ss) as [[ss2 a2]|] eqn:E; simpl; [|done]. intros [= <- <-].
      destruct (IH _ _ Ht eq_refl) as (? & l & x & r & -> & ? & ? & ? & ->).
      split; [lia|]. exists (s :: l), x, r. split_and!; try done. by constructor.
  - destruct (seg_alloc w ss) as [[ss2 a2]|] eqn:E; simpl; [|done]. intros [= <- <-].
    destruct (IH _ _ Ht eq_refl) as (? & l & x & r & -> & ? & ? & ? & ->).
    split; [lia|]. exists (s :: l), x, r. split_and!; try done.
    constructor; [by rewrite Es|done].
Qed.

Lemma malloc_step xStart ucHeap base old_word w h ss :
  heap_inv xStart base h ss -> 0 <= w < 4294967296 ->
  exists h', pvPortMalloc ucHeap xStart old_word w h = Some (h', (alloc_spec w ss).2) /\
    heap_inv xStart base h' (alloc_spec w ss).1 /\
    ((alloc_spec w ss).2 = NULL -> h' = h) /\ pxEnd h' = pxEnd h /\
    xMinimumEverFreeBytesRemaining h' =
      Z.min (xMinimumEverFreeBytesRemaining h) (free_bytes (alloc_spec w ss).1).
Proof.
  intros Hinv Hw. pose proof Hinv as [[??] ? _ _ Ht _ _ _ _ _ Hby Hmin Hbit].
  pose proof (tiles_le _ _ _ Ht).
  unfold pvPortMalloc, alloc_spec.
  destruct (Z.eqb_spec (pxEnd h) NULL) as [E|_]; [unfold NULL in E; lia|].
  rewrite Hbit, land_allocated by done.
  destruct (Z.ltb_spec w ALLOCATED); rewrite ?andb_true_r, ?andb_false_r; simpl;
    [|exists h; split_and!; [done..|lia]].
  destruct (Z.ltb_spec 0 w).
  2:{ assert (w = 0) as -> by lia. exists h. split_and!; [done..|simpl; lia]. }
  rewrite wanted_size_ok by done. destruct (block_size_bounds w) as (Hb16 & Hb8 & ?); [done|].
  rewrite gtb_spec, bool_decide_eq_true_2 by lia. simpl.
  destruct (take_step xStart base old_word _ _ _ Hinv Hb16 Hb8) as (h' & p & Hrun & Hres).
  destruct (seg_alloc (block_size w) ss) as [[ss' a]|] eqn:E; simpl.
  - destruct (seg_alloc_inv _ _ _ _ _ _ Ht E) as [Hle (l & s & r & -> & _ & _ & _ & ->)].
    destruct (Z.leb_spec (block_size w) (xFreeBytesRemaining h)); [|lia].
    destruct Hres as (-> & ? & ? & ?). exists h'. split_and!; try done.
    pose proof (tiles_in _ _ _ _ Ht ltac:(apply elem_of_app; right; by left)).
    unfold NULL. lia.
  - destruct Hres as [-> ->]. exists h. split_and!; [|done..|lia]. by case_match.
Qed.

(** *** prvHeapInit *)

(** Where the linker may place [ucHeap] and [xStart]. *)
Definition layout (ucHeap xStart : Z) : Prop :=
  0 < ucHeap /\ ucHeap + configTOTAL_HEAP_SIZE < 4294967296 /\
  (0 <= xStart < ucHeap \/ ucHeap + configTOTAL_HEAP_SIZE <= xStart < 4294967296).

Definition heap_base (ucHeap : Z) : Z := (ucHeap + 7) / 8 * 8.
Definition heap_end (ucHeap : Z) : Z := (ucHeap + configTOTAL_HEAP_SIZE - 8) / 8 * 8.
Definition initial_segs (ucHeap : Z) : list Seg :=
  [mkSeg (heap_base ucHeap) (heap_end ucHeap - heap_base ucHeap) true].

Lemma prvHeapInit_eq ucHeap xStart h :
  layout ucHeap xStart ->
  prvHeapInit ucHeap xStart h =
    let size := heap_end ucHeap - heap_base ucHeap in
    mkHeap (<[heap_base ucHeap := mkBlock (heap_end ucHeap) size]>
             (<[heap_end ucHeap := mkBlock NULL 0]>
               (<[xStart := mkBlock (heap_base ucHeap) 0]> (h_mem h))))
           (heap_end ucHeap) size size ALLOCATED.
Proof.
  intros (? & ? & ?). unfold prvHeapInit, heap_base, heap_end, configTOTAL_HEAP_SIZE in *.
  change xHeapStructSize with 8. change portBYTE_ALIGNMENT_MASK with 7.
  change portBYTE_ALIGNMENT with 8. rewrite land_7, !land_lnot_7.
  destruct (Z.eqb_spec (ucHeap mod 8) 0) as [E|E]; cbn [negb].
  - replace ((ucHeap + 7) / 8 * 8) with ucHeap by (Z.div_mod_to_equations; lia).
    rewrite (u32_small (ucHeap + 65536)), (u32_small (ucHeap + 65536 - 8)), ?land_lnot_7 by lia.
    rewrite (u32_small (_ - ucHeap)); [done|]. Z.div_mod_to_equations. lia.
  - rewrite (u32_small (ucHeap + _)) by lia. replace (ucHeap + (8 - 1)) with (ucHeap + 7) by lia.
    set (a := (ucHeap + 7) / 8 * 8). assert (ucHeap < a < ucHeap + 8) as Ha
      by (subst a; Z.div_mod_to_equations; lia).
    rewrite (u32_small (a - ucHeap)), (u32_small (65536 - (a - ucHeap))) by lia.
    replace (a + (65536 - (a - ucHeap))) with (ucHeap + 65536) by lia.
    rewrite (u32_small (ucHeap + 65536)), (u32_small (ucHeap + 65536 - 8)), ?land_lnot_7 by lia.
    rewrite (u32_small (_ - a)); [done|]. Z.div_mod_to_equations. lia.
Qed.

Lemma prvHeapInit_inv ucHeap xStart h :
  layout ucHeap xStart ->
  heap_inv xStart (heap_base ucHeap) (prvHeapInit ucHeap xStart h) (initial_segs ucHeap).
Proof.
  intros Hl. rewrite prvHeapInit_eq by done. destruct Hl as (? & ? & ?).
  unfold configTOTAL_HEAP_SIZE in *.
  assert (ucHeap <= heap_base ucHeap < ucHeap + 8 /\ heap_base ucHeap mod 8 = 0 /\
    ucHeap + 65536 - 16 < heap_end ucHeap <= ucHeap + 65536 - 8 /\ heap_end ucHeap mod 8 = 0)
    as (Hb & Hb8 & He & He8).
  { unfold heap_base, heap_end, configTOTAL_HEAP_SIZE. rewrite !Z.mod_mul by lia.
    Z.div_mod_to_equations. lia. }
  split; simpl; unfold ALLOCATED; try done; try lia.
  - split_and!; [done|lia| |lia]. rewrite Zminus_mod, He8, Hb8. done.
  - rewrite !lookup_insert_ne by lia. by rewrite lookup_insert_eq.
  - split; [|done]. intros _. by rewrite lookup_insert_eq.
  - intros s [->|?%elem_of_nil]%elem_of_cons Hs; done.
  - rewrite lookup_insert_ne by lia. by rewrite lookup_insert_eq.
Qed.

(** ** The allocator as a client sees it *)

(** Before the first pvPortMalloc nothing is initialised; from then on the
    blocks are the ones of the invariant. *)
Definition heap_rep (ucHeap xStart : Z) (h : Heap) (ss : list Seg) : Prop :=
  (pxEnd h = NULL /\ ss = initial_segs ucHeap) \/
  (heap_inv xStart (heap_base ucHeap) h ss /\ pxEnd h = heap_end ucHeap).

Inductive heap_op := Malloc (w : Z) | Free (p : Z).

Section client.
Context (ucHeap xStart old_word : Z).

(** A client's calls, and the pointers the allocations return. *)
Fixpoint run_heap (ops : list heap_op) (h : Heap) : option (Heap * list Z) :=
  match ops with
  | [] => Some (h, [])
  | Malloc w :: ops =>
    '(h, p) ← pvPortMalloc ucHeap xStart old_word w h;
    '(h, ps) ← run_heap ops h; Some (h, p :: ps)
  | Free p :: ops => h ← vPortFree xStart p h; run_heap ops h
  end.
End client.

(** The same calls on the blocks; a client that frees anything but NULL or
    a live pointer has no specification. *)
Fixpoint run_spec (ops : list heap_op) (ss : list Seg) : option (list Seg * list Z) :=
  match ops with
  | [] => Some (ss, [])
  | Malloc w :: ops =>
    '(ss', ps) ← run_spec ops (alloc_spec w ss).1; Some (ss', (alloc_spec w ss).2 :: ps)
  | Free p :: ops => ss ← free_spec p ss; run_spec ops ss
  end.

Lemma seg_free_split l p ss ss' :
  seg_free l p ss = Some ss' ->
  exists l' s r, ss = l' ++ s :: r /\ s_free s = false /\ p = s_addr s + 8 /\
    ss' = join (l ++ l') (s_addr s) (s_size s) r.
Proof.
  revert l. induction ss as [|s ss IH]; intros l; simpl; [done|].
  destruct (negb (s_free s) && (s_addr s + 8 =? p)) eqn:E.
  - apply andb_true_iff in E as [Hf%negb_true_iff Hp%Z.eqb_eq]. intros [= <-].
    exists [], s, ss. split_and!; [done..|]. by rewrite app_nil_r.
  - intros (l' & x & r & -> & ? & ? & ->)%IH. exists (s :: l'), x, r.
    split_and!; [done..|]. by rewrite <- (assoc_L (++)).
Qed.

Lemma free_refines ucHeap xStart h ss p ss' :
  layout ucHeap xStart -> heap_rep ucHeap xStart h ss -> free_spec p ss = Some ss' ->
  exists h', vPortFree xStart p h = Some h' /\ heap_rep ucHeap xStart h' ss' /\
    xMinimumEverFreeBytesRemaining h' = xMinimumEverFreeBytesRemaining h.
Proof.
  unfold free_spec. intros Hl Hrep. destruct (Z.eqb_spec p NULL) as [->|Hp].
  - intros [= <-]. by exists h.
  - intros (l & s & r & -> & Hs & -> & ->)%seg_free_split.
    destruct Hrep as [[_ E]|[Hinv He]].
    + unfold initial_segs in E. destruct l as [|? [|??]]; simplify_eq/=.
    + destruct s as [b n f]. simpl in *. subst f.
      destruct (free_step _ _ _ _ _ _ _ Hinv) as (h' & ? & ? & E & ?).
      exists h'. split_and!; [done|right; by rewrite E|done].
Qed.

Lemma malloc_refines ucHeap xStart old_word h ss w :
  layout ucHeap xStart -> heap_rep ucHeap xStart h ss -> 0 <= w < 4294967296 ->
  exists h', pvPortMalloc ucHeap xStart old_word w h = Some (h', (alloc_spec w ss).2) /\
    heap_inv xStart (heap_base ucHeap) h' (alloc_spec w ss).1 /\ pxEnd h' = heap_end ucHeap.
Proof.
  intros Hl [[E ->]|[Hinv He]] Hw.
  - destruct (malloc_step xStart ucHeap _ old_word w _ _ (prvHeapInit_inv _ _ h Hl) Hw)
      as (h' & Hrun & ? & _ & Ee & _). exists h'.
    split; [|split; [done|]; rewrite Ee; by rewrite prvHeapInit_eq]. rewrite <- Hrun. unfold pvPortMalloc.
    rewrite E, Z.eqb_refl. rewrite prvHeapInit_eq by done. simpl.
    destruct (Z.eqb_spec (heap_end ucHeap) NULL) as [E2|_]; [|done].
    destruct Hl as (? & ? & _). unfold heap_end, configTOTAL_HEAP_SIZE, NULL in *.
    exfalso. Z.div_mod_to_equations. lia.
  - destruct (malloc_step xStart ucHeap _ old_word w _ _ Hinv Hw) as (h' & ? & ? & _ & E & _).
    exists h'. by rewrite E.
Qed.

Lemma layout_bounds ucHeap xStart : layout ucHeap xStart ->
  ucHeap <= heap_base ucHeap < ucHeap + 8 /\ heap_base ucHeap mod 8 = 0 /\
  ucHeap + configTOTAL_HEAP_SIZE - 16 < heap_end ucHeap <= ucHeap + configTOTAL_HEAP_SIZE - 8.
Proof.
  intros _. unfold heap_base, heap_end. rewrite !Z.mod_mul by lia. Z.div_mod_to_equations. lia.
Qed.

Lemma rep_tiles ucHeap xStart h ss : layout ucHeap xStart -> heap_rep ucHeap xStart h ss ->
  tiles (heap_base ucHeap) ss (heap_end ucHeap) /\ coalesced ss.
Proof.
  intros Hl [[_ ->]|[[] <-]]; [|done].
  destruct (prvHeapInit_inv ucHeap xStart h Hl) as [_ _ _ _ Ht Hc _ _ _ _ _ _ _].
  by rewrite prvHeapInit_eq in Ht.
Qed.

(** The two outcomes of the abstract allocator. *)
Lemma alloc_spec_cases base ss e w :
  tiles base ss e -> 0 < base -> 0 <= w < 4294967296 ->
  (alloc_spec w ss = (ss, NULL) /\
   (w = 0 \/ ALLOCATED <= w \/ forall t, t ∈ ss -> s_free t = true -> s_size t < block_size w)) \/
  (0 < w < ALLOCATED /\ exists l n b r,
   ss = l ++ mkSeg b n true :: r /\ block_size w <= n /\
   alloc_spec w ss = (l ++ (if n - block_size w >? heapMINIMUM_BLOCK_SIZE
     then mkSeg b (block_size w) false :: mkSeg (b + block_size w) (n - block_size w) true :: r
     else mkSeg b n false :: r), b + 8)).
Proof.
  intros Ht Hb Hw. unfold alloc_spec.
  destruct (Z.ltb_spec 0 w), (Z.ltb_spec w ALLOCATED); simpl; [|left; split; [done|lia]..].
  destruct (seg_alloc (block_size w) ss) as [[ss' a]|] eqn:E.
  - right. split; [done|].
    destruct (seg_alloc_inv _ _ _ _ _ _ Ht E) as [_ (l & [b n f] & r & -> & Hf & Hn & Hl & ->)].
    simpl in *. subst f. rewrite seg_alloc_first in E by done. simplify_eq/=.
    by exists l, n, b, r.
  - left. split; [done|]. right; right. intros t (l & r & ->)%list_elem_of_split Ht2.
    clear Ht. induction l as [|x l IH]; simpl in E.
    + rewrite Ht2 in E. simpl in E. destruct (Z.leb_spec (block_size w) (s_size t)); [done|lia].
    + destruct (s_free x && (block_size w <=? s_size x)); [done|]. apply IH.
      by destruct (seg_alloc (block_size w) (l ++ t :: r)) as [[]|].
Qed.

Lemma run_refines ucHeap xStart old_word ops h ss ss' ps :
  layout ucHeap xStart -> heap_rep ucHeap xStart h ss ->
  (forall w, Malloc w ∈ ops -> 0 <= w < 4294967296) ->
  run_spec ops ss = Some (ss', ps) ->
  exists h', run_heap ucHeap xStart old_word ops h = Some (h', ps) /\
    heap_rep ucHeap xStart h' ss'.
Proof.
  intros Hl. revert h ss ss' ps. induction ops as [|[w|p] ops IH]; intros h ss ss' ps Hrep Hw; simpl.
  - intros [= <- <-]. by exists h.
  - destruct (run_spec ops (alloc_spec w ss).1) as [[ss2 ps2]|] eqn:E; simpl; [|done].
    intros [= <- <-].
    destruct (malloc_refines ucHeap xStart old_word h ss w Hl Hrep) as (h1 & -> & Hinv & He);
      [apply Hw; by left|]. simpl.
    destruct (IH h1 _ _ _ (or_intror (conj Hinv He)) ltac:(intros; apply Hw; by right) E)
      as (h2 & -> & ?). by exists h2.
  - destruct (free_spec p ss) as [ss1|] eqn:E; simpl; [|done]. intros Hrun.
    destruct (free_refines ucHeap xStart h ss p ss1 Hl Hrep E) as (h1 & -> & ? & _). simpl.
    by apply (IH h1 ss1); [|intros; apply Hw; by right|].
Qed.

(** A coalesced heap whose blocks are all free is one block. *)
Lemma all_free_one base ss e :
  tiles base ss e -> coalesced ss -> base < e -> (forall s, s ∈ ss -> s_free s = true) ->
  ss = [mkSeg base (e - base) true].
Proof.
  intros Ht Hc Hlt Hf. destruct ss as [|[b n f] [|s' ss]]; simpl in *; [lia| |].
  - destruct Ht as (-> & _ & _ & <-). specialize (Hf _ ltac:(by left)). simpl in Hf. subst f.
    do 2 f_equal. lia.
  - exfalso. destruct Hc as [Hc _]. apply Hc.
    pose proof (Hf _ ltac:(by left)) as H1. pose proof (Hf s' ltac:(right; by left)). done.
Qed.

(** ** Theorems *)

(** C2: every client that passes 32-bit sizes and frees only NULL or pointers
    it holds runs without touching an undefined header, the pointers it gets
    are the ones of the abstract first-fit allocator, and the blocks of that
    allocator (tiling the heap, coalesced, with their headers and accounting)
    are what the memory holds afterwards; the first allocation initialises. *)
Theorem heap_programs_refine ucHeap xStart old_word ops h ss ss' ps :
  layout ucHeap xStart -> heap_rep ucHeap xStart h ss ->
  (forall w, Malloc w ∈ ops -> 0 <= w < 4294967296) ->
  run_spec ops ss = Some (ss', ps) ->
  exists h', run_heap ucHeap xStart old_word ops h = Some (h', ps) /\
    heap_rep ucHeap xStart h' ss'.
Proof. apply run_refines. Qed.

(** Four blocks; the two in the middle are freed and merge; the fifth is cut from them. *)
Definition heap_client : list heap_op :=
  [Malloc 100; Malloc 20; Malloc 40; Malloc 1; Free 0x20000080; Free 0x200000a0;
   Malloc 56; Malloc 65536; Free NULL].
Lemma heap_programs_refine_witness :
  exists ss' h', run_spec heap_client (initial_segs 0x20000003) =
    Some (ss', [0x20000010; 0x20000080; 0x200000a0; 0x200000d0; 0x20000080; NULL]) /\
    run_heap 0x20000003 0x20030000 77 heap_client heap0 =
      Some (h', [0x20000010; 0x20000080; 0x200000a0; 0x200000d0; 0x20000080; NULL]) /\
    heap_rep 0x20000003 0x20030000 h' ss'.
Proof.
  destruct (run_spec heap_client (initial_segs 0x20000003)) as [[ss' ps]|] eqn:E;
    [|vm_compute in E; discriminate].
  assert (ps = [0x20000010; 0x20000080; 0x200000a0; 0x200000d0; 0x20000080; NULL]) as ->.
  { apply (f_equal (option_map snd)) in E. vm_compute in E. by injection E. }
  set (ps := [0x20000010; 0x20000080; 0x200000a0; 0x200000d0; 0x20000080; NULL]) in E |- *.
  destruct (heap_programs_refine 0x20000003 0x20030000 77 heap_client heap0
    (initial_segs 0x20000003) ss' ps) as (h' & Hrun & Hrep);
    [| | |exact E|exists ss', h'; split; [reflexivity|split; [exact Hrun|exact Hrep]]].
  - vm_compute. intuition discriminate.
  - left. split; reflexivity.
  - intros w Hw. unfold heap_client in Hw. repeat (apply elem_of_cons in Hw as [Hw|Hw]; [simplify_eq; lia|]).
    by apply elem_of_nil in Hw.
Defined.

(** A pointer the abstract allocator returns: aligned, inside the heap, clear
    of the blocks that were allocated, which stay. *)
Lemma alloc_spec_fresh ucHeap xStart h ss w :
  layout ucHeap xStart -> heap_rep ucHeap xStart h ss -> 0 <= w < 4294967296 ->
  let '(ss', p) := alloc_spec w ss in
  (forall t, t ∈ ss -> s_free t = false -> t ∈ ss') /\
  (p = NULL -> ss' = ss) /\
  (p = NULL <-> w = 0 \/ ALLOCATED <= w \/
     forall t, t ∈ ss -> s_free t = true -> s_size t < block_size w) /\
  (p <> NULL -> p mod 8 = 0 /\ ucHeap + 8 <= p /\ p + w <= ucHeap + configTOTAL_HEAP_SIZE - 8 /\
     (exists s, s ∈ ss' /\ s_free s = false /\ s_addr s + 8 = p /\ w + 8 <= s_size s) /\
     forall t, t ∈ ss -> s_free t = false ->
       s_addr t + s_size t <= p - 8 \/ p + w <= s_addr t).
Proof.
  intros Hl Hrep Hw. pose proof (layout_bounds _ _ Hl) as (Hb & Hb8 & He).
  destruct (rep_tiles _ _ _ _ Hl Hrep) as [Ht _]. pose proof Hl as (Hpos & _ & _).
  destruct (alloc_spec_cases _ _ _ w Ht ltac:(lia) Hw)
    as [[-> Hno]|(Hw2 & l & n & b & r & -> & Hn & ->)]; simpl.
  { split_and!; [done..|]. by intros []. }
  pose proof (block_size_bounds w ltac:(lia)) as (_ & _ & Hbs).
  assert (mkSeg b n true ∈ l ++ mkSeg b n true :: r) as Hin by (apply elem_of_app; right; by left).
  pose proof (tiles_in _ _ _ _ Ht Hin) as Hr. simpl in Hr.
  pose proof (tiles_mod _ _ _ _ Ht Hb8 Hin) as [Hb8' _]. simpl in Hb8'.
  split_and!.
  - intros t Ht2 Hf. apply elem_of_app in Ht2 as [?|[->|?]%elem_of_cons]; [|done|];
      apply elem_of_app; [by left|right]. case_match; [do 2 right|right]; done.
  - unfold NULL. lia.
  - unfold NULL. split; [lia|]. intros [?|[?|Hno]]; [lia..|]. specialize (Hno _ Hin eq_refl).
    simpl in Hno. lia.
  - intros _. split_and!; [|lia|lia| |].
    + rewrite Z.add_mod, Hb8' by lia. done.
    + rewrite gtb_spec. case_bool_decide; eexists; (split; [apply elem_of_app; right; by left|]);
        simpl; split_and!; (done || lia).
    + intros t Ht2 Hf. apply tiles_app in Ht as (x & Htl & <- & _ & _ & Htr). simpl in *.
      apply elem_of_app in Ht2 as [Ht2|[->|Ht2]%elem_of_cons]; [|done|].
      * destruct (tiles_in _ _ _ _ Htl Ht2). lia.
      * destruct (tiles_in _ _ _ _ Htr Ht2). lia.
Qed.

(** C3: an allocation succeeds exactly when the size is not 0, has its top
    bit clear, and some free block holds the rounded size and the header;
    the memory returned is 8-byte aligned, inside the heap, disjoint from
    every block that was already allocated, and those blocks stay allocated. *)
Theorem malloc_fresh_block ucHeap xStart old_word h ss w :
  layout ucHeap xStart -> heap_rep ucHeap xStart h ss -> 0 <= w < 4294967296 ->
  exists h' p ss', pvPortMalloc ucHeap xStart old_word w h = Some (h', p) /\
    heap_rep ucHeap xStart h' ss' /\
    (forall t, t ∈ ss -> s_free t = false -> t ∈ ss') /\
    (p = NULL <-> w = 0 \/ ALLOCATED <= w \/
       forall t, t ∈ ss -> s_free t = true -> s_size t < block_size w) /\
    (p <> NULL -> p mod 8 = 0 /\ ucHeap + 8 <= p /\ p + w <= ucHeap + configTOTAL_HEAP_SIZE - 8 /\
       (exists s, s ∈ ss' /\ s_free s = false /\ s_addr s + 8 = p /\ w + 8 <= s_size s) /\
       forall t, t ∈ ss -> s_free t = false ->
         s_addr t + s_size t <= p - 8 \/ p + w <= s_addr t).
Proof.
  intros Hl Hrep Hw. pose proof (alloc_spec_fresh ucHeap xStart h ss w Hl Hrep Hw) as Hf.
  destruct (malloc_refines ucHeap xStart old_word h ss w Hl Hrep Hw) as (h' & Hrun & Hinv & Ee).
  destruct (alloc_spec w ss) as [ss' p]. destruct Hf as (Hkeep & _ & Hnull & Hok).
  exists h', p, ss'. split; [done|]. split; [by right|]. by split_and!.
Qed.

Lemma malloc_fresh_block_witness :
  layout 0x20000003 0x20030000 /\
  exists h' p ss', pvPortMalloc 0x20000003 0x20030000 77 100 heap0 = Some (h', p) /\
    heap_rep 0x20000003 0x20030000 h' ss' /\ p mod 8 = 0.
Proof.
  assert (layout 0x20000003 0x20030000) as Hl by (vm_compute; intuition discriminate).
  split; [done|].
  destruct (malloc_fresh_block 0x20000003 0x20030000 77 heap0 (initial_segs 0x20000003) 100 Hl)
    as (h' & p & ss' & Hrun & Hrep & _ & _ & Hp); [by left|lia|].
  exists h', p, ss'. split_and!; [done..|]. apply Hp.
  apply (f_equal (option_map snd)) in Hrun. vm_compute in Hrun. injection Hrun as <-. done.
Defined.

(** Freeing what was just allocated gives back the very blocks there were
    before, and with them every byte. *)
Theorem malloc_free_roundtrip ucHeap xStart old_word h ss w h1 p :
  layout ucHeap xStart -> heap_inv xStart (heap_base ucHeap) h ss -> pxEnd h = heap_end ucHeap ->
  0 <= w < 4294967296 ->
  pvPortMalloc ucHeap xStart old_word w h = Some (h1, p) ->
  exists h2, vPortFree xStart p h1 = Some h2 /\
    heap_inv xStart (heap_base ucHeap) h2 ss /\
    xPortGetFreeHeapSize h2 = xPortGetFreeHeapSize h /\
    xPortGetMinimumEverFreeHeapSize h2 =
      Z.min (xPortGetMinimumEverFreeHeapSize h) (xPortGetFreeHeapSize h1).
Proof.
  intros Hl Hinv Ee Hw Hrun. pose proof (layout_bounds _ _ Hl) as (Hb & Hb8 & He).
  pose proof Hl as (Hpos & _ & _).
  pose proof Hinv as [_ _ _ _ Ht Hco _ _ _ _ Hby _ _].
  destruct (malloc_step xStart ucHeap _ old_word w h ss Hinv Hw)
    as (h' & Hrun' & Hinv' & Hnull & Ee' & Hmin). rewrite Hrun in Hrun'. simplify_eq.
  pose proof Hinv' as [_ _ _ _ _ _ _ _ _ _ Hby' _ _].
  unfold xPortGetFreeHeapSize, xPortGetMinimumEverFreeHeapSize.
  destruct (alloc_spec_cases _ _ _ w Ht ltac:(lia) Hw)
    as [[E _]|(Hw2 & l & n & b & r & -> & Hn & E)]; rewrite E in *; simpl in *.
  { rewrite (Hnull eq_refl) in *. exists h. split_and!; [done..|]. lia. }
  assert (starts_free r = false) as Hsr.
  { apply coalesced_app in Hco as (_ & [_ Hx]%coalesced_cons & _). simpl in Hx.
    destruct (starts_free r); naive_solver. }
  assert (ends_free l = false) as Hel.
  { apply coalesced_app in Hco as (_ & _ & Hx). simpl in Hx. destruct (ends_free l); naive_solver. }
  assert (forall bs r', absorb bs r' = (n, r) -> join l b bs r' = l ++ mkSeg b n true :: r) as Hj.
  { intros bs r' Ha. destruct (join_cases l b bs r') as [(l' & q & -> & Hq & _)|[_ ->]].
    - unfold ends_free in Hel. rewrite last_snoc in Hel. congruence.
    - by rewrite Ha. }
  rewrite gtb_spec in Hinv', Hmin, Hby'. case_bool_decide.
  - destruct (free_step _ _ _ _ _ _ _ Hinv') as (h2 & E2 & Hinv2 & _ & Hm2).
    rewrite Hj in Hinv2 by (simpl; f_equal; lia). exists h2. split_and!; [done..| |].
    + pose proof Hinv2 as [_ _ _ _ _ _ _ _ _ _ -> _ _]. done.
    + rewrite Hm2, Hmin, Hby'. done.
  - destruct (free_step _ _ _ _ _ _ _ Hinv') as (h2 & E2 & Hinv2 & _ & Hm2).
    rewrite Hj in Hinv2 by (destruct r as [|q r]; [done|]; simpl in *; by rewrite Hsr).
    exists h2. split_and!; [done..| |].
    + pose proof Hinv2 as [_ _ _ _ _ _ _ _ _ _ -> _ _]. done.
    + rewrite Hm2, Hmin, Hby'. done.
Qed.

Lemma malloc_free_roundtrip_witness :
  let h := prvHeapInit 0x20000003 0x20030000 heap0 in
  exists h1 h2, pvPortMalloc 0x20000003 0x20030000 77 100 h = Some (h1, 0x20000010) /\
    vPortFree 0x20030000 0x20000010 h1 = Some h2 /\ xPortGetFreeHeapSize h2 = 65520.
Proof.
  intros h. assert (layout 0x20000003 0x20030000) as Hl by (vm_compute; intuition discriminate).
  destruct (pvPortMalloc 0x20000003 0x20030000 77 100 h) as [[h1 p]|] eqn:E;
    [|vm_compute in E; discriminate].
  assert (p = 0x20000010) as ->.
  { apply (f_equal (option_map snd)) in E. vm_compute in E. by injection E. }
  destruct (malloc_free_roundtrip 0x20000003 0x20030000 77 h (initial_segs 0x20000003) 100 h1
    0x20000010 Hl) as (h2 & ? & ? & Hf & _);
    [by apply prvHeapInit_inv|reflexivity|lia|exact E|].
  exists h1, h2. by split_and!.
Defined.

(** When a client has freed all it took, the heap is one block again:
    fragmentation does not outlive the allocations. *)
Theorem freed_heap_is_whole ucHeap xStart old_word ops h ss' ps :
  layout ucHeap xStart -> pxEnd h = NULL ->
  (forall w, Malloc w ∈ ops -> 0 <= w < 4294967296) ->
  run_spec ops (initial_segs ucHeap) = Some (ss', ps) ->
  (forall s, s ∈ ss' -> s_free s = true) ->
  ss' = initial_segs ucHeap /\
  exists h', run_heap ucHeap xStart old_word ops h = Some (h', ps) /\
    (pxEnd h' <> NULL -> xPortGetFreeHeapSize h' = heap_end ucHeap - heap_base ucHeap).
Proof.
  intros Hl Hnull Hw Hspec Hfree. pose proof (layout_bounds _ _ Hl) as (Hb & _ & He).
  unfold configTOTAL_HEAP_SIZE in He.
  destruct (run_refines ucHeap xStart old_word ops h _ _ _ Hl (or_introl (conj Hnull eq_refl)) Hw Hspec)
    as (h' & Hrun & Hrep).
  destruct (rep_tiles _ _ _ _ Hl Hrep) as [Ht Hc].
  apply all_free_one in Ht; [|done|lia|done]. split; [done|]. exists h'. split; [done|].
  intros Hn. destruct Hrep as [[? _]|[[_ _ _ _ _ _ _ _ _ _ Hby _ _] _]]; [done|].
  unfold xPortGetFreeHeapSize. rewrite Hby, Ht. simpl. lia.
Qed.

Lemma freed_heap_is_whole_witness :
  exists h', run_heap 0x20000003 0x20030000 77
      [Malloc 100; Malloc 20; Malloc 40; Free 0x20000080; Free 0x20000010; Free 0x200000a0] heap0 =
    Some (h', [0x20000010; 0x20000080; 0x200000a0]) /\
    (pxEnd h' <> NULL -> xPortGetFreeHeapSize h' = 65520).
Proof.
  eapply (freed_heap_is_whole 0x20000003 0x20030000 77 _ heap0 (initial_segs 0x20000003)).
  - vm_compute. intuition discriminate.
  - reflexivity.
  - intros w Hw. repeat (apply elem_of_cons in Hw as [Hw|Hw]; [simplify_eq; lia|]).
    by apply elem_of_nil in Hw.
  - vm_compute. reflexivity.
  - intros s [->|Hs%elem_of_nil]%elem_of_cons; done.
Defined.
