(* ===== verification/Allocator.v ===== *)
(** * What the kernel asks of its allocator

    tasks.c, queue.c and timers.c get their objects from pvPortMalloc and give
    them back with vPortFree.  They rely on the interface below: fresh memory
    that overlaps nothing in use, or NULL.  heap_4.c ([Heap4]) provides it. *)

From S2P Require Import Prelude Heap4.
#[local] Open Scope Z_scope.

(** The blocks in use: address and number of bytes asked for. *)
Class Allocator (H : Type) := mkAllocator {
  malloc : Z -> H -> option (H * Z);
  free : Z -> H -> option H;
  owns : H -> gmap Z Z -> Prop
}.

(** [p] is [w] new bytes: no NULL, aligned, apart from all blocks in use. *)
Record fresh (bs : gmap Z Z) (p w : Z) : Prop := mkFresh {
  fr_range : 0 < p /\ p + w < 4294967296;
  fr_align : p mod 8 = 0;
  fr_new : bs !! p = None;
  fr_apart : forall q v, bs !! q = Some v -> q + v <= p \/ p + w <= q
}.

Class AllocatorOk (H : Type) `{Allocator H} := {
  malloc_ok h bs w : owns h bs -> 0 <= w < 4294967296 ->
    exists h' p, malloc w h = Some (h', p) /\
      ((p = 0 /\ owns h' bs) \/ (fresh bs p w /\ owns h' (<[p := w]> bs)));
  free_ok h bs p w : owns h bs -> bs !! p = Some w ->
    exists h', free p h = Some h' /\ owns h' (delete p bs)
}.

(** ** heap_4.c is such an allocator *)

Section heap4.
Context (ucHeap xStart old_word : Z).

(** A block in use is backed by an allocated block of the heap. *)
Definition backs (ss : list Seg) (bs : gmap Z Z) : Prop := forall p w, bs !! p = Some w ->
  exists s, s ∈ ss /\ s_free s = false /\ s_addr s + 8 = p /\ 0 <= w /\ w + 8 <= s_size s.

Definition heap4 : Allocator Heap := mkAllocator Heap
  (pvPortMalloc ucHeap xStart old_word) (vPortFree xStart)
  (fun h bs => exists ss, heap_rep ucHeap xStart h ss /\ backs ss bs).

Lemma seg_free_some l p ss s : s ∈ ss -> s_free s = false -> s_addr s + 8 = p ->
  exists ss', seg_free l p ss = Some ss'.
Proof.
  revert l. induction ss as [|x ss IH]; intros l; [by intros ?%elem_of_nil|].
  intros [->|Hs]%elem_of_cons Hf Hp; simpl.
  - rewrite Hf, Hp, Z.eqb_refl. by eexists.
  - destruct (negb _ && _); [by eexists|]. by apply IH.
Qed.

Lemma heap4_ok : layout ucHeap xStart -> @AllocatorOk Heap heap4.
Proof.
  intros Hl. split.
  - intros h bs w (ss & Hrep & Hbs) Hw.
    pose proof (alloc_spec_fresh ucHeap xStart h ss w Hl Hrep Hw) as Hf.
    destruct (malloc_refines ucHeap xStart old_word h ss w Hl Hrep Hw) as (h' & Hrun & Hinv & Ee).
    destruct (alloc_spec w ss) as [ss' p]. destruct Hf as (Hkeep & Hnull & _ & Hok).
    exists h', p. split; [done|]. destruct (decide (p = NULL)) as [->|Hp].
    { left. split; [done|]. exists ss. rewrite Hnull in Hinv by done. split; [by right|done]. }
    right. destruct (Hok Hp) as (H8 & Hlo & Hhi & Hs & Hapart). destruct Hl as (? & ? & _).
    unfold configTOTAL_HEAP_SIZE in *. split; [split|exists ss'; split; [by right|]].
    + lia.
    + done.
    + destruct (bs !! p) as [v|] eqn:E; [|done]. destruct (Hbs _ _ E) as (t & Ht & Htf & Hta & Hv & Htw).
      destruct (Hapart t Ht Htf); lia.
    + intros q v E. destruct (Hbs _ _ E) as (t & Ht & Htf & Hta & Hv & Htw). destruct (Hapart t Ht Htf); lia.
    + intros q v. rewrite lookup_insert_Some. intros [[<- <-]|[_ E]]; [naive_solver|].
      destruct (Hbs _ _ E) as (t & Ht & Htf & ?). exists t. by split; [apply Hkeep|].
  - intros h bs p w (ss & Hrep & Hbs) E. destruct (Hbs _ _ E) as (s & Hs & Hsf & Hsa & Hw & Hsw).
    destruct (rep_tiles _ _ _ _ Hl Hrep) as [Ht _]. pose proof (layout_bounds _ _ Hl) as (Hb & _).
    pose proof (tiles_in _ _ _ _ Ht Hs) as Hin. destruct Hl as (Hpos & Hl2 & Hl3).
    destruct (seg_free_some [] p ss s Hs Hsf Hsa) as (ss' & Hfree).
    assert (free_spec p ss = Some ss') as Hspec
      by (unfold free_spec, NULL; destruct (Z.eqb_spec p 0); [lia|done]).
    destruct (free_refines ucHeap xStart h ss p ss' ltac:(done) Hrep Hspec) as (h' & Hrun & Hrep' & _).
    exists h'. split; [done|]. exists ss'. split; [done|].
    intros q v [Hqp Eq]%lookup_delete_Some. destruct (Hbs _ _ Eq) as (t & Ht2 & Htf & Hta & Hv & Htw).
    exists t. split; [|done].
    apply seg_free_split in Hfree as (l & x & r & -> & Hxf & Hxa & ->). apply in_join; [|done].
    apply elem_of_app in Ht2 as [?|[->|?]%elem_of_cons]; [by left| |by right]. lia.
Qed.
End heap4.
