(* ===== verification/Kernel.v ===== *)
(** * tasks.c: tasks, ticks, blocking and the scheduler

    The state of tasks.c as one record: the lists (specified by [ListSpec],
    implemented by list.c as [ListC] proves), the task control blocks by
    address, and the file's static variables.  Critical sections run without
    interruption, so an operation of the model is one such section; a
    requested context switch is the PendSV bit [k_yield].  An operation is
    [None] where the source would follow a pointer of an item that is on no
    list or read the head of an empty list.

    Configuration: preemption and time slicing, seven priorities, 32-bit
    ticks, optimised task selection, no vTaskSuspend, no tick hook. *)

From S2P Require Import Prelude ListSpec.
#[local] Open Scope Z_scope.

(** ** Data *)

Definition configMAX_PRIORITIES : Z := 7.
Definition taskEVENT_LIST_ITEM_VALUE_IN_USE : Z := 2147483648.

(** The static lists of tasks.c, and the event lists of other objects: the
    [n]-th list inside the object at [owner]. *)
Inductive ListId :=
| LReady (p : Z) | LDelayed1 | LDelayed2 | LPendingReady | LTermination
| LEvent (owner n : Z).
(** The two list items of a task control block. *)
Inductive ItemId := IState (t : Z) | IEvent (t : Z).

#[export] Instance ListId_eq_dec : EqDecision ListId.
Proof. solve_decision. Defined.
#[export] Instance ListId_countable : Countable ListId.
Proof.
  refine (inj_countable'
    (fun l => match l with
      | LReady p => inl p | LDelayed1 => inr (inl 1%Z) | LDelayed2 => inr (inl 2%Z)
      | LPendingReady => inr (inl 3%Z) | LTermination => inr (inl 4%Z)
      | LEvent o n => inr (inr (o, n)) end)
    (fun x => match x with
      | inl p => LReady p | inr (inl 1%Z) => LDelayed1 | inr (inl 2%Z) => LDelayed2
      | inr (inl 3%Z) => LPendingReady | inr (inl _) => LTermination
      | inr (inr (o, n)) => LEvent o n end) _); by intros [].
Defined.
#[export] Instance ItemId_eq_dec : EqDecision ItemId.
Proof. solve_decision. Defined.
#[export] Instance ItemId_countable : Countable ItemId.
Proof.
  refine (inj_countable'
    (fun i => match i with IState t => inl t | IEvent t => inr t end)
    (fun x => match x with inl t => IState t | inr t => IEvent t end) _); by intros [].
Defined.

(** taskNOT_WAITING_NOTIFICATION, taskWAITING_NOTIFICATION, taskNOTIFICATION_RECEIVED. *)
Inductive NotifyState := NotWaiting | Waiting | Received.
#[export] Instance NotifyState_eq_dec : EqDecision NotifyState.
Proof. solve_decision. Defined.

Record TCB_t := mkTCB {
  pxTopOfStack : Z;
  uxPriority : Z;
  pxStack : Z;
  pcTaskName : list Z;
  uxBasePriority : Z;
  uxMutexesHeld : Z;
  ulNotifiedValue : Z;
  ucNotifyState : NotifyState
}.

Record Kernel := mkKernel {
  k_lists : Lists ListId ItemId;
  k_tcbs : gmap Z TCB_t;
  pxCurrentTCB : Z;
  pxDelayedTaskList : ListId;
  pxOverflowDelayedTaskList : ListId;
  uxDeletedTasksWaitingCleanUp : Z;
  uxCurrentNumberOfTasks : Z;
  xTickCount : Z;
  uxTopReadyPriority : Z;
  xSchedulerRunning : bool;
  uxPendedTicks : Z;
  xYieldPending : bool;
  xNumOfOverflows : Z;
  uxTaskNumber : Z;
  xNextTaskUnblockTime : Z;
  uxSchedulerSuspended : Z;
  k_yield : bool
}.

(** One assignment each. *)
Definition set_lists (v : Lists ListId ItemId) (k : Kernel) : Kernel :=
    mkKernel v (k_tcbs k) (pxCurrentTCB k) (pxDelayedTaskList k) (pxOverflowDelayedTaskList k)
    (uxDeletedTasksWaitingCleanUp k) (uxCurrentNumberOfTasks k) (xTickCount k)
    (uxTopReadyPriority k) (xSchedulerRunning k) (uxPendedTicks k) (xYieldPending k)
    (xNumOfOverflows k) (uxTaskNumber k) (xNextTaskUnblockTime k) (uxSchedulerSuspended k)
    (k_yield k).
Definition set_tcbs (v : gmap Z TCB_t) (k : Kernel) : Kernel :=
    mkKernel (k_lists k) v (pxCurrentTCB k) (pxDelayedTaskList k) (pxOverflowDelayedTaskList k)
    (uxDeletedTasksWaitingCleanUp k) (uxCurrentNumberOfTasks k) (xTickCount k)
    (uxTopReadyPriority k) (xSchedulerRunning k) (uxPendedTicks k) (xYieldPending k)
    (xNumOfOverflows k) (uxTaskNumber k) (xNextTaskUnblockTime k) (uxSchedulerSuspended k)
    (k_yield k).
Definition set_pxCurrentTCB (v : Z) (k : Kernel) : Kernel :=
    mkKernel (k_lists k) (k_tcbs k) v (pxDelayedTaskList k) (pxOverflowDelayedTaskList k)
    (uxDeletedTasksWaitingCleanUp k) (uxCurrentNumberOfTasks k) (xTickCount k)
    (uxTopReadyPriority k) (xSchedulerRunning k) (uxPendedTicks k) (xYieldPending k)
    (xNumOfOverflows k) (uxTaskNumber k) (xNextTaskUnblockTime k) (uxSchedulerSuspended k)
    (k_yield k).
Definition set_pxDelayedTaskList (v : ListId) (k : Kernel) : Kernel :=
    mkKernel (k_lists k) (k_tcbs k) (pxCurrentTCB k) v (pxOverflowDelayedTaskList k)
    (uxDeletedTasksWaitingCleanUp k) (uxCurrentNumberOfTasks k) (xTickCount k)
    (uxTopReadyPriority k) (xSchedulerRunning k) (uxPendedTicks k) (xYieldPending k)
    (xNumOfOverflows k) (uxTaskNumber k) (xNextTaskUnblockTime k) (uxSchedulerSuspended k)
    (k_yield k).
Definition set_pxOverflowDelayedTaskList (v : ListId) (k : Kernel) : Kernel :=
    mkKernel (k_lists k) (k_tcbs k) (pxCurrentTCB k) (pxDelayedTaskList k) v
    (uxDeletedTasksWaitingCleanUp k) (uxCurrentNumberOfTasks k) (xTickCount k)
    (uxTopReadyPriority k) (xSchedulerRunning k) (uxPendedTicks k) (xYieldPending k)
    (xNumOfOverflows k) (uxTaskNumber k) (xNextTaskUnblockTime k) (uxSchedulerSuspended k)
    (k_yield k).
Definition set_uxDeletedTasksWaitingCleanUp (v : Z) (k : Kernel) : Kernel :=
    mkKernel (k_lists k) (k_tcbs k) (pxCurrentTCB k) (pxDelayedTaskList k)
    (pxOverflowDelayedTaskList k) v (uxCurrentNumberOfTasks k) (xTickCount k)
    (uxTopReadyPriority k) (xSchedulerRunning k) (uxPendedTicks k) (xYieldPending k)
    (xNumOfOverflows k) (uxTaskNumber k) (xNextTaskUnblockTime k) (uxSchedulerSuspended k)
    (k_yield k).
Definition set_uxCurrentNumberOfTasks (v : Z) (k : Kernel) : Kernel :=
    mkKernel (k_lists k) (k_tcbs k) (pxCurrentTCB k) (pxDelayedTaskList k)
    (pxOverflowDelayedTaskList k) (uxDeletedTasksWaitingCleanUp k) v (xTickCount k)
    (uxTopReadyPriority k) (xSchedulerRunning k) (uxPendedTicks k) (xYieldPending k)
    (xNumOfOverflows k) (uxTaskNumber k) (xNextTaskUnblockTime k) (uxSchedulerSuspended k)
    (k_yield k).
Definition set_xTickCount (v : Z) (k : Kernel) : Kernel :=
    mkKernel (k_lists k) (k_tcbs k) (pxCurrentTCB k) (pxDelayedTaskList k)
    (pxOverflowDelayedTaskList k) (uxDeletedTasksWaitingCleanUp k) (uxCurrentNumberOfTasks k) v
    (uxTopReadyPriority k) (xSchedulerRunning k) (uxPendedTicks k) (xYieldPending k)
    (xNumOfOverflows k) (uxTaskNumber k) (xNextTaskUnblockTime k) (uxSchedulerSuspended k)
    (k_yield k).
Definition set_uxTopReadyPriority (v : Z) (k : Kernel) : Kernel :=
    mkKernel (k_lists k) (k_tcbs k) (pxCurrentTCB k) (pxDelayedTaskList k)
    (pxOverflowDelayedTaskList k) (uxDeletedTasksWaitingCleanUp k) (uxCurrentNumberOfTasks k)
    (xTickCount k) v (xSchedulerRunning k) (uxPendedTicks k) (xYieldPending k) (xNumOfOverflows
    k) (uxTaskNumber k) (xNextTaskUnblockTime k) (uxSchedulerSuspended k) (k_yield k).
Definition set_xSchedulerRunning (v : bool) (k : Kernel) : Kernel :=
    mkKernel (k_lists k) (k_tcbs k) (pxCurrentTCB k) (pxDelayedTaskList k)
    (pxOverflowDelayedTaskList k) (uxDeletedTasksWaitingCleanUp k) (uxCurrentNumberOfTasks k)
    (xTickCount k) (uxTopReadyPriority k) v (uxPendedTicks k) (xYieldPending k) (xNumOfOverflows
    k) (uxTaskNumber k) (xNextTaskUnblockTime k) (uxSchedulerSuspended k) (k_yield k).
Definition set_uxPendedTicks (v : Z) (k : Kernel) : Kernel :=
    mkKernel (k_lists k) (k_tcbs k) (pxCurrentTCB k) (pxDelayedTaskList k)
    (pxOverflowDelayedTaskList k) (uxDeletedTasksWaitingCleanUp k) (uxCurrentNumberOfTasks k)
    (xTickCount k) (uxTopReadyPriority k) (xSchedulerRunning k) v (xYieldPending k)
    (xNumOfOverflows k) (uxTaskNumber k) (xNextTaskUnblockTime k) (uxSchedulerSuspended k)
    (k_yield k).
Definition set_xYieldPending (v : bool) (k : Kernel) : Kernel :=
    mkKernel (k_lists k) (k_tcbs k) (pxCurrentTCB k) (pxDelayedTaskList k)
    (pxOverflowDelayedTaskList k) (uxDeletedTasksWaitingCleanUp k) (uxCurrentNumberOfTasks k)
    (xTickCount k) (uxTopReadyPriority k) (xSchedulerRunning k) (uxPendedTicks k) v
    (xNumOfOverflows k) (uxTaskNumber k) (xNextTaskUnblockTime k) (uxSchedulerSuspended k)
    (k_yield k).
Definition set_xNumOfOverflows (v : Z) (k : Kernel) : Kernel :=
    mkKernel (k_lists k) (k_tcbs k) (pxCurrentTCB k) (pxDelayedTaskList k)
    (pxOverflowDelayedTaskList k) (uxDeletedTasksWaitingCleanUp k) (uxCurrentNumberOfTasks k)
    (xTickCount k) (uxTopReadyPriority k) (xSchedulerRunning k) (uxPendedTicks k) (xYieldPending
    k) v (uxTaskNumber k) (xNextTaskUnblockTime k) (uxSchedulerSuspended k) (k_yield k).
Definition set_uxTaskNumber (v : Z) (k : Kernel) : Kernel :=
    mkKernel (k_lists k) (k_tcbs k) (pxCurrentTCB k) (pxDelayedTaskList k)
    (pxOverflowDelayedTaskList k) (uxDeletedTasksWaitingCleanUp k) (uxCurrentNumberOfTasks k)
    (xTickCount k) (uxTopReadyPriority k) (xSchedulerRunning k) (uxPendedTicks k) (xYieldPending
    k) (xNumOfOverflows k) v (xNextTaskUnblockTime k) (uxSchedulerSuspended k) (k_yield k).
Definition set_xNextTaskUnblockTime (v : Z) (k : Kernel) : Kernel :=
    mkKernel (k_lists k) (k_tcbs k) (pxCurrentTCB k) (pxDelayedTaskList k)
    (pxOverflowDelayedTaskList k) (uxDeletedTasksWaitingCleanUp k) (uxCurrentNumberOfTasks k)
    (xTickCount k) (uxTopReadyPriority k) (xSchedulerRunning k) (uxPendedTicks k) (xYieldPending
    k) (xNumOfOverflows k) (uxTaskNumber k) v (uxSchedulerSuspended k) (k_yield k).
Definition set_uxSchedulerSuspended (v : Z) (k : Kernel) : Kernel :=
    mkKernel (k_lists k) (k_tcbs k) (pxCurrentTCB k) (pxDelayedTaskList k)
    (pxOverflowDelayedTaskList k) (uxDeletedTasksWaitingCleanUp k) (uxCurrentNumberOfTasks k)
    (xTickCount k) (uxTopReadyPriority k) (xSchedulerRunning k) (uxPendedTicks k) (xYieldPending
    k) (xNumOfOverflows k) (uxTaskNumber k) (xNextTaskUnblockTime k) v (k_yield k).
Definition set_yield (v : bool) (k : Kernel) : Kernel :=
    mkKernel (k_lists k) (k_tcbs k) (pxCurrentTCB k) (pxDelayedTaskList k)
    (pxOverflowDelayedTaskList k) (uxDeletedTasksWaitingCleanUp k) (uxCurrentNumberOfTasks k)
    (xTickCount k) (uxTopReadyPriority k) (xSchedulerRunning k) (uxPendedTicks k) (xYieldPending
    k) (xNumOfOverflows k) (uxTaskNumber k) (xNextTaskUnblockTime k) (uxSchedulerSuspended k) v.

(** A control block; the default stands for a handle that names no task, which
    the invariant excludes for every item on a list. *)
Definition no_tcb : TCB_t := mkTCB 0 0 0 [] 0 0 0 NotWaiting.
Definition tcb (k : Kernel) (t : Z) : TCB_t := default no_tcb (k_tcbs k !! t).
Definition upd_tcb (t : Z) (f : TCB_t -> TCB_t) (k : Kernel) : Kernel :=
  set_tcbs (<[t := f (tcb k t)]> (k_tcbs k)) k.
Definition set_uxPriority (p : Z) (c : TCB_t) : TCB_t :=
  mkTCB (pxTopOfStack c) p (pxStack c) (pcTaskName c) (uxBasePriority c) (uxMutexesHeld c)
    (ulNotifiedValue c) (ucNotifyState c).
Definition set_uxMutexesHeld (n : Z) (c : TCB_t) : TCB_t :=
  mkTCB (pxTopOfStack c) (uxPriority c) (pxStack c) (pcTaskName c) (uxBasePriority c) n
    (ulNotifiedValue c) (ucNotifyState c).
Definition set_notify (v : Z) (s : NotifyState) (c : TCB_t) : TCB_t :=
  mkTCB (pxTopOfStack c) (uxPriority c) (pxStack c) (pcTaskName c) (uxBasePriority c)
    (uxMutexesHeld c) v s.

(** ** The list operations on the kernel state *)

Definition on_lists (f : Lists ListId ItemId -> Lists ListId ItemId) (k : Kernel) : Kernel :=
  set_lists (f (k_lists k)) k.
Definition klist (k : Kernel) (l : ListId) : list ItemId := on_list (k_lists k) l.
Definition kcontainer (k : Kernel) (i : ItemId) : option ListId := container (k_lists k) i.
Definition kvalue (k : Kernel) (i : ItemId) : Z := value (k_lists k) i.

Definition list_empty (l : ListId) (k : Kernel) : bool :=
  match klist k l with [] => true | _ => false end.
Definition list_length (l : ListId) (k : Kernel) : Z := Z.of_nat (length (klist k l)).

(** The removal and the number of items left on the list. *)
Definition uxListRemove (i : ItemId) (k : Kernel) : option (Kernel * Z) :=
  l ← kcontainer k i;
  let k := on_lists (lRemove i) k in
  Some (k, list_length l k).

(** The task that owns an item ([pvOwner] is set once, at creation). *)
Definition owner (i : ItemId) : Z := match i with IState t => t | IEvent t => t end.
Definition head_owner (l : ListId) (k : Kernel) : option Z := owner <$> head (klist k l).

(** ** Ready lists and their bit map *)

Definition taskRECORD_READY_PRIORITY (p : Z) (k : Kernel) : Kernel :=
  set_uxTopReadyPriority (Z.lor (uxTopReadyPriority k) (Z.shiftl 1 p)) k.
Definition portRESET_READY_PRIORITY (p : Z) (k : Kernel) : Kernel :=
  set_uxTopReadyPriority (Z.land (uxTopReadyPriority k) (u32 (Z.lnot (Z.shiftl 1 p)))) k.
Definition taskRESET_READY_PRIORITY (p : Z) (k : Kernel) : Kernel :=
  if list_length (LReady p) k =? 0 then portRESET_READY_PRIORITY p k else k.

Definition prvAddTaskToReadyList (t : Z) (k : Kernel) : Kernel :=
  let k := taskRECORD_READY_PRIORITY (uxPriority (tcb k t)) k in
  on_lists (lInsertEnd (LReady (uxPriority (tcb k t))) (IState t)) k.

(** The [clz] instruction on 32 bits. *)
Definition ucPortCountLeadingZeros (x : Z) : Z := if x =? 0 then 32 else 31 - Z.log2 x.
Definition portGET_HIGHEST_PRIORITY (k : Kernel) : Z :=
  u32 (31 - ucPortCountLeadingZeros (uxTopReadyPriority k)).

Definition taskSELECT_HIGHEST_PRIORITY_TASK (k : Kernel) : option Kernel :=
  let l := LReady (portGET_HIGHEST_PRIORITY k) in
  i ← ring_next (ring (k_lists k) l);
  Some (set_pxCurrentTCB (owner i) (on_lists (lAdvance l) k)).

Definition vTaskSwitchContext (k : Kernel) : option Kernel :=
  if negb (uxSchedulerSuspended k =? 0) then Some (set_xYieldPending true k)
  else taskSELECT_HIGHEST_PRIORITY_TASK (set_xYieldPending false k).

Definition portYIELD (k : Kernel) : Kernel := set_yield true k.

(** ** The delayed lists and the tick *)

Definition prvResetNextTaskUnblockTime (k : Kernel) : Kernel :=
  match head_owner (pxDelayedTaskList k) k with
  | None => set_xNextTaskUnblockTime portMAX_DELAY k
  | Some t => set_xNextTaskUnblockTime (kvalue k (IState t)) k
  end.

Definition taskSWITCH_DELAYED_LISTS (k : Kernel) : Kernel :=
  let pxTemp := pxDelayedTaskList k in
  let k := set_pxDelayedTaskList (pxOverflowDelayedTaskList k) k in
  let k := set_pxOverflowDelayedTaskList pxTemp k in
  let k := set_xNumOfOverflows (s32 (xNumOfOverflows k + 1)) k in
  prvResetNextTaskUnblockTime k.

(** Takes the event item off whatever list it is on. *)
Definition remove_event_item (t : Z) (k : Kernel) : option Kernel :=
  match kcontainer k (IEvent t) with
  | Some _ => fst <$> uxListRemove (IEvent t) k
  | None => Some k
  end.

(** The loop of xTaskIncrementTick; the flag is [xSwitchRequired]. *)
Fixpoint unblock_due (fuel : nat) (sw : bool) (k : Kernel) : option (Kernel * bool) :=
  match fuel with
  | O => None
  | S fuel =>
    match head_owner (pxDelayedTaskList k) k with
    | None => Some (set_xNextTaskUnblockTime portMAX_DELAY k, sw)
    | Some t =>
      let xItemValue := kvalue k (IState t) in
      if xTickCount k <? xItemValue then Some (set_xNextTaskUnblockTime xItemValue k, sw)
      else
        '(k, _) ← uxListRemove (IState t) k;
        k ← remove_event_item t k;
        let k := prvAddTaskToReadyList t k in
        unblock_due fuel
          (if uxPriority (tcb k t) >=? uxPriority (tcb k (pxCurrentTCB k)) then true else sw) k
    end
  end.

Definition xTaskIncrementTick (k : Kernel) : option (Kernel * bool) :=
  '(k, sw) ←
    (if uxSchedulerSuspended k =? 0 then
       let k := set_xTickCount (u32 (xTickCount k + 1)) k in
       let k := if xTickCount k =? 0 then taskSWITCH_DELAYED_LISTS k else k in
       '(k, sw) ←
         (if xTickCount k >=? xNextTaskUnblockTime k
          then unblock_due (S (length (klist k (pxDelayedTaskList k)))) false k
          else Some (k, false));
       Some (k, if list_length (LReady (uxPriority (tcb k (pxCurrentTCB k)))) k >? 1
                then true else sw)
     else Some (set_uxPendedTicks (u32 (uxPendedTicks k + 1)) k, false));
  Some (k, if xYieldPending k then true else sw).

(** The tick interrupt, and whether it pends PendSV. *)
Definition xPortSysTickHandler (k : Kernel) : option (Kernel * bool) :=
  '(k, sw) ← xTaskIncrementTick k; Some (if (sw : bool) then portYIELD k else k, sw).

Definition prvAddCurrentTaskToDelayedList (xTicksToWait : Z) (k : Kernel) : option Kernel :=
  let t := pxCurrentTCB k in
  '(k, n) ← uxListRemove (IState t) k;
  let k := if n =? 0 then portRESET_READY_PRIORITY (uxPriority (tcb k t)) k else k in
  let xTimeToWake := u32 (xTickCount k + xTicksToWait) in
  let k := on_lists (set_value (IState t) xTimeToWake) k in
  if xTimeToWake <? xTickCount k then
    Some (on_lists (lInsert (pxOverflowDelayedTaskList k) (IState t)) k)
  else
    let k := on_lists (lInsert (pxDelayedTaskList k) (IState t)) k in
    Some (if xTimeToWake <? xNextTaskUnblockTime k
          then set_xNextTaskUnblockTime xTimeToWake k else k).

(** ** Suspending and resuming the scheduler, delays *)

Definition vTaskSuspendAll (k : Kernel) : Kernel :=
  set_uxSchedulerSuspended (u32 (uxSchedulerSuspended k + 1)) k.

(** The pending ready tasks, moved to their ready lists; the last one moved. *)
Fixpoint ready_pending (fuel : nat) (last : option Z) (k : Kernel)
    : option (Kernel * option Z) :=
  match head_owner LPendingReady k with
  | None => Some (k, last)
  | Some t =>
    match fuel with
    | O => None
    | S fuel =>
      '(k, _) ← uxListRemove (IEvent t) k;
      '(k, _) ← uxListRemove (IState t) k;
      let k := prvAddTaskToReadyList t k in
      let k := if uxPriority (tcb k t) >=? uxPriority (tcb k (pxCurrentTCB k))
               then set_xYieldPending true k else k in
      ready_pending fuel (Some t) k
    end
  end.

(** The ticks that were held back, [n] of them. *)
Fixpoint replay_ticks (n : nat) (k : Kernel) : option Kernel :=
  match n with
  | O => Some k
  | S n =>
    '(k, sw) ← xTaskIncrementTick k;
    replay_ticks n (if (sw : bool) then set_xYieldPending true k else k)
  end.

Definition xTaskResumeAll (k : Kernel) : option (Kernel * bool) :=
  let k := set_uxSchedulerSuspended (u32 (uxSchedulerSuspended k - 1)) k in
  if uxSchedulerSuspended k =? 0 then
    if uxCurrentNumberOfTasks k >? 0 then
      '(k, last) ← ready_pending (length (klist k LPendingReady)) None k;
      let k := match last with Some _ => prvResetNextTaskUnblockTime k | None => k end in
      k ← (if uxPendedTicks k >? 0 then
             k ← replay_ticks (Z.to_nat (uxPendedTicks k)) k;
             Some (set_uxPendedTicks 0 k)
           else Some k);
      Some (if xYieldPending k then (portYIELD k, true) else (k, false))
    else Some (k, false)
  else Some (k, false).

Definition vTaskDelay (xTicksToDelay : Z) (k : Kernel) : option Kernel :=
  '(k, xAlreadyYielded) ←
    (if xTicksToDelay >? 0 then
       let k := vTaskSuspendAll k in
       k ← prvAddCurrentTaskToDelayedList xTicksToDelay k;
       xTaskResumeAll k
     else Some (k, false));
  Some (if (xAlreadyYielded : bool) then k else portYIELD k).

Definition xTaskGetTickCount (k : Kernel) : Z := xTickCount k.

(** ** Waiting for events *)

Definition vTaskPlaceOnEventList (ev : ListId) (xTicksToWait : Z) (k : Kernel) : option Kernel :=
  let k := on_lists (lInsert ev (IEvent (pxCurrentTCB k))) k in
  prvAddCurrentTaskToDelayedList xTicksToWait k.

Definition vTaskPlaceOnUnorderedEventList (ev : ListId) (xItemValue xTicksToWait : Z)
    (k : Kernel) : option Kernel :=
  let i := IEvent (pxCurrentTCB k) in
  let k := on_lists (set_value i (Z.lor xItemValue taskEVENT_LIST_ITEM_VALUE_IN_USE)) k in
  let k := on_lists (lInsertEnd ev i) k in
  prvAddCurrentTaskToDelayedList xTicksToWait k.

Definition vTaskPlaceOnEventListRestricted (ev : ListId) (xTicksToWait : Z)
    (xWaitIndefinitely : bool) (k : Kernel) : option Kernel :=
  let k := on_lists (lInsertEnd ev (IEvent (pxCurrentTCB k))) k in
  prvAddCurrentTaskToDelayedList (if xWaitIndefinitely then portMAX_DELAY else xTicksToWait) k.

Definition xTaskRemoveFromEventList (ev : ListId) (k : Kernel) : option (Kernel * bool) :=
  t ← head_owner ev k;
  '(k, _) ← uxListRemove (IEvent t) k;
  k ← (if uxSchedulerSuspended k =? 0 then
         '(k, _) ← uxListRemove (IState t) k;
         Some (prvAddTaskToReadyList t k)
       else Some (on_lists (lInsertEnd LPendingReady (IEvent t)) k));
  Some (if uxPriority (tcb k t) >? uxPriority (tcb k (pxCurrentTCB k))
        then (set_xYieldPending true k, true) else (k, false)).

Definition vTaskRemoveFromUnorderedEventList (i : ItemId) (xItemValue : Z) (k : Kernel)
    : option Kernel :=
  let k := on_lists (set_value i (Z.lor xItemValue taskEVENT_LIST_ITEM_VALUE_IN_USE)) k in
  let t := owner i in
  '(k, _) ← uxListRemove i k;
  '(k, _) ← uxListRemove (IState t) k;
  let k := prvAddTaskToReadyList t k in
  Some (if uxPriority (tcb k t) >? uxPriority (tcb k (pxCurrentTCB k))
        then set_xYieldPending true k else k).

Definition uxTaskResetEventItemValue (k : Kernel) : Kernel * Z :=
  let i := IEvent (pxCurrentTCB k) in
  (on_lists (set_value i (u32 (configMAX_PRIORITIES - uxPriority (tcb k (pxCurrentTCB k))))) k,
   kvalue k i).

Definition vTaskMissedYield (k : Kernel) : Kernel := set_xYieldPending true k.

(** ** Time outs *)

Record TimeOut_t := mkTimeOut { xOverflowCount : Z; xTimeOnEntering : Z }.

Definition vTaskInternalSetTimeOutState (k : Kernel) : TimeOut_t :=
  mkTimeOut (xNumOfOverflows k) (xTickCount k).
Definition vTaskSetTimeOutState (k : Kernel) : TimeOut_t :=
  mkTimeOut (xNumOfOverflows k) (xTickCount k).

(** The result, the time out state and the ticks that are left to wait. *)
Definition xTaskCheckForTimeOut (o : TimeOut_t) (xTicksToWait : Z) (k : Kernel)
    : bool * TimeOut_t * Z :=
  let xConstTickCount := xTickCount k in
  let xElapsedTime := u32 (xConstTickCount - xTimeOnEntering o) in
  if negb (xNumOfOverflows k =? xOverflowCount o) && (xConstTickCount >=? xTimeOnEntering o)
  then (true, o, xTicksToWait)
  else if xElapsedTime <? xTicksToWait
  then (false, vTaskInternalSetTimeOutState k, u32 (xTicksToWait - xElapsedTime))
  else (true, o, 0).

(** ** Priority inheritance; a holder of 0 is NULL *)

Definition event_value_free (t : Z) (k : Kernel) : bool :=
  Z.land (kvalue k (IEvent t)) taskEVENT_LIST_ITEM_VALUE_IN_USE =? 0.

Definition xTaskPriorityInherit (holder : Z) (k : Kernel) : option (Kernel * bool) :=
  if negb (holder =? 0) then
    let cur := uxPriority (tcb k (pxCurrentTCB k)) in
    if uxPriority (tcb k holder) <? cur then
      let k := if event_value_free holder k
               then on_lists (set_value (IEvent holder) (u32 (configMAX_PRIORITIES - cur))) k
               else k in
      k ← (if decide (kcontainer k (IState holder) = Some (LReady (uxPriority (tcb k holder))))
           then '(k, n) ← uxListRemove (IState holder) k;
                let k := if n =? 0 then taskRESET_READY_PRIORITY (uxPriority (tcb k holder)) k
                         else k in
                let k := upd_tcb holder (set_uxPriority cur) k in
                Some (prvAddTaskToReadyList holder k)
           else Some (upd_tcb holder (set_uxPriority cur) k));
      Some (k, true)
    else Some (k, uxBasePriority (tcb k holder) <? cur)
  else Some (k, false).

Definition xTaskPriorityDisinherit (t : Z) (k : Kernel) : option (Kernel * bool) :=
  if negb (t =? 0) then
    let k := upd_tcb t (fun c => set_uxMutexesHeld (u32 (uxMutexesHeld c - 1)) c) k in
    if negb (uxPriority (tcb k t) =? uxBasePriority (tcb k t)) then
      if uxMutexesHeld (tcb k t) =? 0 then
        '(k, n) ← uxListRemove (IState t) k;
        let k := if n =? 0 then taskRESET_READY_PRIORITY (uxPriority (tcb k t)) k else k in
        let k := upd_tcb t (fun c => set_uxPriority (uxBasePriority c) c) k in
        let k := on_lists (set_value (IEvent t)
                   (u32 (configMAX_PRIORITIES - uxPriority (tcb k t)))) k in
        Some (prvAddTaskToReadyList t k, true)
      else Some (k, false)
    else Some (k, false)
  else Some (k, false).

Definition vTaskPriorityDisinheritAfterTimeout (t uxHighestPriorityWaitingTask : Z)
    (k : Kernel) : option Kernel :=
  if negb (t =? 0) then
    let uxPriorityToUse :=
      if uxBasePriority (tcb k t) <? uxHighestPriorityWaitingTask
      then uxHighestPriorityWaitingTask else uxBasePriority (tcb k t) in
    if negb (uxPriority (tcb k t) =? uxPriorityToUse) then
      if uxMutexesHeld (tcb k t) =? 1 then
        let uxPriorityUsedOnEntry := uxPriority (tcb k t) in
        let k := upd_tcb t (set_uxPriority uxPriorityToUse) k in
        let k := if event_value_free t k
                 then on_lists (set_value (IEvent t)
                        (u32 (configMAX_PRIORITIES - uxPriorityToUse))) k
                 else k in
        if decide (kcontainer k (IState t) = Some (LReady uxPriorityUsedOnEntry)) then
          '(k, n) ← uxListRemove (IState t) k;
          let k := if n =? 0 then taskRESET_READY_PRIORITY (uxPriority (tcb k t)) k else k in
          Some (prvAddTaskToReadyList t k)
        else Some k
      else Some k
    else Some k
  else Some k.

(** The count goes up and the current task is returned (a handle of 0 is NULL). *)
Definition pvTaskIncrementMutexHeldCount (k : Kernel) : Kernel * Z :=
  (if negb (pxCurrentTCB k =? 0)
   then upd_tcb (pxCurrentTCB k) (fun c => set_uxMutexesHeld (u32 (uxMutexesHeld c + 1)) c) k
   else k, pxCurrentTCB k).

Inductive SchedulerState := taskSCHEDULER_SUSPENDED | taskSCHEDULER_NOT_STARTED | taskSCHEDULER_RUNNING.
Definition xTaskGetSchedulerState (k : Kernel) : SchedulerState :=
  if negb (xSchedulerRunning k) then taskSCHEDULER_NOT_STARTED
  else if uxSchedulerSuspended k =? 0 then taskSCHEDULER_RUNNING
  else taskSCHEDULER_SUSPENDED.
Definition xTaskGetCurrentTaskHandle (k : Kernel) : Z := pxCurrentTCB k.

(** ** The lists at the start, new tasks and deleted tasks *)

Definition prvInitialiseTaskLists (k : Kernel) : Kernel :=
  let k := on_lists (fun s => foldl (fun s p => lInitialise (LReady (Z.of_nat p)) s) s
                                (seq 0 (Z.to_nat configMAX_PRIORITIES))) k in
  let k := on_lists (lInitialise LDelayed1) k in
  let k := on_lists (lInitialise LDelayed2) k in
  let k := on_lists (lInitialise LPendingReady) k in
  let k := on_lists (lInitialise LTermination) k in
  let k := set_pxDelayedTaskList LDelayed1 k in
  set_pxOverflowDelayedTaskList LDelayed2 k.

Definition prvAddNewTaskToReadyList (t : Z) (k : Kernel) : Kernel :=
  let k := set_uxCurrentNumberOfTasks (u32 (uxCurrentNumberOfTasks k + 1)) k in
  let k :=
    if pxCurrentTCB k =? 0 then
      let k := set_pxCurrentTCB t k in
      if uxCurrentNumberOfTasks k =? 1 then prvInitialiseTaskLists k else k
    else if negb (xSchedulerRunning k) then
      if uxPriority (tcb k (pxCurrentTCB k)) <=? uxPriority (tcb k t)
      then set_pxCurrentTCB t k else k
    else k in
  let k := set_uxTaskNumber (u32 (uxTaskNumber k + 1)) k in
  let k := prvAddTaskToReadyList t k in
  if xSchedulerRunning k then
    if uxPriority (tcb k (pxCurrentTCB k)) <? uxPriority (tcb k t) then portYIELD k else k
  else k.
