(* ===== verification/KernelInv.v ===== *)
(** * The invariant of the kernel and the operations that preserve it *)

From S2P Require Import Prelude ListSpec Kernel.
#[local] Open Scope Z_scope.

(** ** Reading the state after an assignment to the lists *)

Lemma kcontainer_on_lists f k i : kcontainer (on_lists f k) i = container (f (k_lists k)) i.
Proof. done. Qed.
Lemma klist_on_lists f k l : klist (on_lists f k) l = on_list (f (k_lists k)) l.
Proof. done. Qed.
Lemma kvalue_on_lists f k i : kvalue (on_lists f k) i = value (f (k_lists k)) i.
Proof. done. Qed.
Lemma tcb_on_lists f k t : tcb (on_lists f k) t = tcb k t.
Proof. done. Qed.

Lemma tcb_upd_tcb t f k t' : tcb (upd_tcb t f k) t' = if decide (t = t') then f (tcb k t) else tcb k t'.
Proof. unfold tcb at 1, upd_tcb. simpl. rewrite lookup_insert. by case_decide. Qed.

(** ** The invariant *)

Definition state_list (k : Kernel) (t : Z) (l : ListId) : Prop :=
  match l with
  | LReady p => p = uxPriority (tcb k t)
  | LDelayed1 | LDelayed2 | LTermination => True
  | LPendingReady | LEvent _ _ => False
  end.
Definition event_list (l : ListId) : Prop :=
  match l with LEvent _ _ | LPendingReady => True | _ => False end.

Definition live (k : Kernel) (t : Z) : Prop := is_Some (k_tcbs k !! t).

Definition wake_le (k : Kernel) (i j : ItemId) : Prop := kvalue k i <= kvalue k j.

(** What holds between any two assignments: items are where their kind allows,
    the bit map mirrors the ready lists, and the delayed lists are sorted, with
    wake times on the right side of the tick count.  The wake times of the
    delayed list are above [lo], which is the tick count but for the moment
    inside xTaskIncrementTick when due tasks are still being moved. *)
Record kbase_at (lo : Z) (k : Kernel) : Prop := mkBase {
  ki_wf : lists_wf (k_lists k);
  ki_state : forall t l, kcontainer k (IState t) = Some l -> live k t /\ state_list k t l;
  ki_event : forall t l, kcontainer k (IEvent t) = Some l -> live k t /\ event_list l;
  ki_prio : forall t, live k t -> 0 <= uxBasePriority (tcb k t) <= uxPriority (tcb k t) /\
    uxPriority (tcb k t) < configMAX_PRIORITIES;
  ki_bits : 0 <= uxTopReadyPriority k < 4294967296;
  ki_map : forall p, Z.testbit (uxTopReadyPriority k) p = true <-> klist k (LReady p) <> [];
  ki_swap : (pxDelayedTaskList k = LDelayed1 /\ pxOverflowDelayedTaskList k = LDelayed2) \/
    (pxDelayedTaskList k = LDelayed2 /\ pxOverflowDelayedTaskList k = LDelayed1);
  ki_tick : 0 <= xTickCount k < 4294967296;
  ki_next : 0 <= xNextTaskUnblockTime k < 4294967296;
  ki_due : forall t, kcontainer k (IState t) = Some (pxDelayedTaskList k) ->
    lo < kvalue k (IState t) < 4294967296 /\
    xNextTaskUnblockTime k <= kvalue k (IState t);
  ki_over : forall t, kcontainer k (IState t) = Some (pxOverflowDelayedTaskList k) ->
    0 <= kvalue k (IState t) < xTickCount k;
  ki_sorted : forall l, l = LDelayed1 \/ l = LDelayed2 -> StronglySorted (wake_le k) (klist k l)
}.
Arguments ki_wf {lo k} _.
Arguments ki_state {lo k} _.
Arguments ki_event {lo k} _.
Arguments ki_prio {lo k} _.
Arguments ki_bits {lo k} _.
Arguments ki_map {lo k} _.
Arguments ki_swap {lo k} _.
Arguments ki_tick {lo k} _.
Arguments ki_next {lo k} _.
Arguments ki_due {lo k} _.
Arguments ki_over {lo k} _.
Arguments ki_sorted {lo k} _.
Definition kbase (k : Kernel) : Prop := kbase_at (xTickCount k) k.

(** A task that waits for an event, or was taken off an event list while the
    scheduler was suspended, is also on a delayed list. *)
Definition kblocked (k : Kernel) : Prop := forall t, kcontainer k (IEvent t) <> None ->
  kcontainer k (IState t) = Some LDelayed1 \/ kcontainer k (IState t) = Some LDelayed2.

(** The bookkeeping that xTaskResumeAll and the idle task rely on. *)
Record kcounts (k : Kernel) : Prop := mkCounts {
  kc_tasks : uxCurrentNumberOfTasks k = Z.of_nat (size (k_tcbs k)) /\
    Z.of_nat (size (k_tcbs k)) < 4294967296;
  kc_deleted : uxDeletedTasksWaitingCleanUp k = Z.of_nat (length (klist k LTermination));
  kc_suspended : 0 <= uxSchedulerSuspended k < 4294967296;
  kc_pended : 0 <= uxPendedTicks k < 4294967296;
  kc_quiet : uxSchedulerSuspended k = 0 -> klist k LPendingReady = [] /\ uxPendedTicks k = 0
}.

Record kinv (k : Kernel) : Prop := mkKinv {
  kinv_base : kbase k; kinv_blocked : kblocked k; kinv_counts : kcounts k
}.

(** ** Consequences *)

Lemma elem_klist {lo} k l i : kbase_at lo k -> i ∈ klist k l <-> kcontainer k i = Some l.
Proof. intros Hb. symmetry. apply (wf_on_list _ i l (ki_wf Hb)). Qed.

Lemma klist_nil {lo} k l : kbase_at lo k -> klist k l = [] <-> forall i, kcontainer k i <> Some l.
Proof.
  intros Hb. split.
  - intros E i Hi%(elem_klist _ _ _ Hb). rewrite E in Hi. by apply elem_of_nil in Hi.
  - intros H. destruct (klist k l) as [|i xs] eqn:E; [done|]. exfalso. apply (H i).
    apply (elem_klist _ _ _ Hb). rewrite E. by left.
Qed.

(** Ready lists and delayed lists hold state items. *)
Lemma state_item {lo} k l i : kbase_at lo k -> kcontainer k i = Some l ->
  (exists p, l = LReady p) \/ l = LDelayed1 \/ l = LDelayed2 \/ l = LTermination ->
  exists t, i = IState t.
Proof.
  intros Hb Hi Hl. destruct i as [t|t]; [by exists t|].
  apply (ki_event Hb) in Hi as [_ He]. destruct Hl as [[p ->]|[->|[->| ->]]]; done.
Qed.

Lemma event_item {lo} k l i : kbase_at lo k -> kcontainer k i = Some l -> event_list l -> exists t, i = IEvent t.
Proof.
  intros Hb Hi Hl. destruct i as [t|t]; [|by exists t].
  apply (ki_state Hb) in Hi as [_ He]. by destruct l.
Qed.

Lemma delayed_is {lo} k : kbase_at lo k ->
  (pxDelayedTaskList k = LDelayed1 \/ pxDelayedTaskList k = LDelayed2) /\
  (pxOverflowDelayedTaskList k = LDelayed1 \/ pxOverflowDelayedTaskList k = LDelayed2) /\
  pxDelayedTaskList k <> pxOverflowDelayedTaskList k.
Proof. intros Hb. destruct (ki_swap Hb) as [[-> ->]|[-> ->]]; auto. Qed.

(** The head of a delayed list is the task that wakes first. *)
Lemma sorted_head {lo} k l : kbase_at lo k -> l = LDelayed1 \/ l = LDelayed2 ->
  match head_owner l k with
  | None => forall t, kcontainer k (IState t) <> Some l
  | Some t => kcontainer k (IState t) = Some l /\
      forall t', kcontainer k (IState t') = Some l -> kvalue k (IState t) <= kvalue k (IState t')
  end.
Proof.
  intros Hb Hl. unfold head_owner. destruct (klist k l) as [|i xs] eqn:E; simpl.
  - intros t. by apply (klist_nil _ _ Hb).
  - assert (i ∈ klist k l) as Hi by (rewrite E; by left).
    apply (elem_klist _ _ _ Hb) in Hi. destruct (state_item _ _ _ Hb Hi) as [t ->]; [tauto|].
    split; [done|]. intros t' Ht'%(elem_klist _ _ _ Hb).
    pose proof (ki_sorted Hb _ Hl) as Hs. rewrite E in Hs, Ht'.
    apply elem_of_cons in Ht' as [[= ->]|Ht']; [done|].
    apply StronglySorted_inv in Hs as [_ Hs]. rewrite Forall_forall in Hs. by apply (Hs _ Ht').
Qed.

(** ** The primitive steps preserve the invariant *)

(** Unfolds the readings of a state built by list assignments. *)
Ltac kread :=
  repeat first
    [ rewrite kcontainer_on_lists in * | rewrite klist_on_lists in *
    | rewrite kvalue_on_lists in * | rewrite tcb_on_lists in * ].

Lemma sorted_ext (R R' : ItemId -> ItemId -> Prop) xs :
  StronglySorted R xs -> (forall a b, a ∈ xs -> b ∈ xs -> R a b -> R' a b) -> StronglySorted R' xs.
Proof.
  induction 1 as [|x xs Hs IH Hx]; intros HR; constructor.
  - apply IH. intros a b ??. apply HR; by right.
  - rewrite Forall_forall in Hx |- *. intros b Hb. apply HR; [by left|by right|by apply Hx].
Qed.

Lemma sorted_sublist {A} (R : A -> A -> Prop) xs ys :
  sublist xs ys -> StronglySorted R ys -> StronglySorted R xs.
Proof.
  induction 1 as [|x xs ys Hsub IH|x xs ys Hsub IH]; intros Hs; [constructor| |].
  - apply StronglySorted_inv in Hs as [Hs Hx]. constructor; [auto|].
    rewrite Forall_forall in Hx |- *. intros b Hb. apply Hx. by eapply elem_of_sublist.
  - apply StronglySorted_inv in Hs as [Hs _]. auto.
Qed.

(** *** The bit map *)

Lemma testbit_u32 x q : 0 <= x < 4294967296 -> 32 <= q -> Z.testbit x q = false.
Proof.
  intros Hx Hq. destruct (decide (x = 0)) as [->|]; [apply Z.bits_0|].
  apply Z.bits_above_log2; [lia|]. assert (Z.log2 x < 32); [|lia].
  apply Z.log2_lt_pow2; lia.
Qed.

Lemma testbit_record x p q : 0 <= p ->
  Z.testbit (Z.lor x (Z.shiftl 1 p)) q = Z.testbit x q || (p =? q).
Proof.
  intros Hp. rewrite Z.lor_spec. f_equal. rewrite Z.shiftl_1_l. by rewrite Z.pow2_bits_eqb.
Qed.

Lemma testbit_reset x p q : 0 <= x < 4294967296 -> 0 <= p < 32 ->
  Z.testbit (Z.land x (u32 (Z.lnot (Z.shiftl 1 p)))) q = Z.testbit x q && negb (p =? q).
Proof.
  intros Hx Hp. rewrite Z.land_spec. destruct (decide (q < 0)).
  { by rewrite !(Z.testbit_neg_r _ q) by done. }
  destruct (decide (32 <= q)); [by rewrite (testbit_u32 x q)|].
  f_equal. unfold u32. change 4294967296 with (2 ^ 32).
  rewrite Z.mod_pow2_bits_low, Z.lnot_spec, Z.shiftl_1_l, Z.pow2_bits_eqb by lia. done.
Qed.

Lemma record_range x p : 0 <= x < 4294967296 -> 0 <= p < 32 ->
  0 <= Z.lor x (Z.shiftl 1 p) < 4294967296.
Proof.
  intros Hx Hp. rewrite Z.shiftl_1_l. change 4294967296 with (2 ^ 32) in *.
  assert (2 ^ p < 2 ^ 32) by (apply Z.pow_lt_mono_r; lia).
  assert (0 < 2 ^ p) by (apply Z.pow_pos_nonneg; lia).
  split; [apply Z.lor_nonneg; lia|].
  destruct (decide (Z.lor x (2 ^ p) = 0)) as [->|]; [done|].
  apply Z.log2_lt_pow2; [|].
  - assert (0 <= Z.lor x (2 ^ p)) by (apply Z.lor_nonneg; lia). lia.
  - rewrite Z.log2_lor, Z.log2_pow2 by lia. apply Z.max_lub_lt; [|lia].
    destruct (decide (x = 0)) as [->|]; [done|]. apply Z.log2_lt_pow2; lia.
Qed.

Lemma reset_range x p : 0 <= x < 4294967296 -> 0 <= p < 32 ->
  0 <= Z.land x (u32 (Z.lnot (Z.shiftl 1 p))) < 4294967296.
Proof.
  intros Hx Hp. split; [apply Z.land_nonneg; lia|].
  change 4294967296 with (2 ^ 32) in *.
  destruct (decide (Z.land x (u32 (Z.lnot (Z.shiftl 1 p))) = 0)) as [->|]; [done|].
  assert (0 <= Z.land x (u32 (Z.lnot (Z.shiftl 1 p)))) by (apply Z.land_nonneg; lia).
  apply Z.log2_lt_pow2; [lia|].
  eapply Z.le_lt_trans; [apply Z.log2_land; [lia|apply u32_range]|].
  destruct (decide (x = 0)) as [->|]; [simpl; lia|].
  apply Z.min_lt_iff. left. apply Z.log2_lt_pow2; lia.
Qed.

(** *** Taking an item off its list *)

Lemma set_top_id k : set_uxTopReadyPriority (uxTopReadyPriority k) k = k.
Proof. by destruct k. Qed.

Lemma lRemove_sub {lo} k i j l : kbase_at lo k ->
  container (lRemove i (k_lists k)) j = Some l -> kcontainer k j = Some l /\ j <> i.
Proof. intros Hb. rewrite container_lRemove. case_decide; [done|]. by split. Qed.

Lemma kbase_remove_gen {lo} k i top :
  kbase_at lo k -> 0 <= top < 4294967296 ->
  (forall p, Z.testbit top p = true <-> on_list (lRemove i (k_lists k)) (LReady p) <> []) ->
  kbase_at lo (set_uxTopReadyPriority top (on_lists (lRemove i) k)).
Proof.
  intros Hb Htop Hmap. pose proof Hb as [].
  split; try done; unfold kcontainer, kvalue, klist; simpl.
  - auto with fw.
  - intros t l [Ht _]%(lRemove_sub _ _ _ _ Hb). by apply ki_state0.
  - intros t l [Ht _]%(lRemove_sub _ _ _ _ Hb). by apply ki_event0.
  - intros t [Ht _]%(lRemove_sub _ _ _ _ Hb). rewrite value_lRemove. by apply ki_due0.
  - intros t [Ht _]%(lRemove_sub _ _ _ _ Hb). rewrite value_lRemove. by apply ki_over0.
  - intros l Hl. apply (sorted_sublist _ _ (klist k l)).
    + rewrite on_list_lRemove. case_decide; [apply remove_item_sublist|done].
    + eapply sorted_ext; [by apply ki_sorted0|]. intros a b _ _. unfold wake_le, kvalue. simpl.
      by rewrite !value_lRemove.
Qed.

Lemma uxListRemove_eq k i l : kcontainer k i = Some l ->
  uxListRemove i k = Some (on_lists (lRemove i) k, list_length l (on_lists (lRemove i) k)).
Proof. intros E. unfold uxListRemove. by rewrite E. Qed.

Lemma kbase_remove {lo} k i : kbase_at lo k -> (forall p, kcontainer k i <> Some (LReady p)) ->
  kbase_at lo (on_lists (lRemove i) k).
Proof.
  intros Hb Hn. rewrite <- (set_top_id (on_lists _ _)). apply kbase_remove_gen; [done|apply Hb|].
  intros p. simpl. rewrite (ki_map Hb), on_list_lRemove. rewrite decide_False by apply Hn. done.
Qed.

(** Off a ready list: the bit is cleared with the last item. *)
Lemma kbase_remove_ready {lo} k t p : kbase_at lo k -> kcontainer k (IState t) = Some (LReady p) ->
  let k1 := on_lists (lRemove (IState t)) k in
  kbase_at lo (if list_length (LReady p) k1 =? 0 then portRESET_READY_PRIORITY p k1 else k1).
Proof.
  intros Hb Ht k1. pose proof (ki_state Hb _ _ Ht) as [Hlive Hp]. simpl in Hp.
  pose proof (ki_prio Hb _ Hlive) as Hprio. rewrite <- Hp in Hprio. unfold configMAX_PRIORITIES in Hprio.
  pose proof (ki_bits Hb) as Hbits.
  unfold list_length. destruct (klist k1 (LReady p)) as [|i xs] eqn:E; simpl.
  - apply kbase_remove_gen; [done|by apply reset_range; [|lia]|].
    intros q. simpl. rewrite testbit_reset by lia. destruct (Z.eqb_spec p q) as [<-|Hpq]; simpl.
    + rewrite andb_false_r. split; [done|]. by intros [].
    + rewrite andb_true_r, (ki_map Hb), on_list_lRemove.
      rewrite decide_False; [done|]. unfold kcontainer in Ht. congruence.
  - destruct (Z.eqb_spec (Z.pos (Pos.of_succ_nat (length xs))) 0); [lia|].
    rewrite <- (set_top_id k1). apply kbase_remove_gen; [done|done|].
    intros q. simpl. rewrite (ki_map Hb), on_list_lRemove. case_decide as Hd; [|done].
    unfold kcontainer in Ht. assert (q = p) as -> by congruence.
    change (klist k1 (LReady p)) with (on_list (lRemove (IState t) (k_lists k)) (LReady p)) in E.
    rewrite on_list_lRemove, decide_True in E by done. rewrite E.
    split; [done|]. intros _ E2. unfold klist in E2. rewrite E2 in E. done.
Qed.

(** *** Putting an item on a list *)

(** What the insertion of [i], off any list, into [l] needs of the target. *)
Definition may_join (k : Kernel) (i : ItemId) (l : ListId) : Prop :=
  kcontainer k i = None /\
  match i with
  | IState t => live k t /\ state_list k t l
  | IEvent t => live k t /\ event_list l
  end.

Lemma prvAdd_eq t k : prvAddTaskToReadyList t k =
  on_lists (lInsertEnd (LReady (uxPriority (tcb k t))) (IState t))
    (set_uxTopReadyPriority (Z.lor (uxTopReadyPriority k) (Z.shiftl 1 (uxPriority (tcb k t)))) k).
Proof. done. Qed.

Lemma live_prio {lo} k t : kbase_at lo k -> live k t -> 0 <= uxPriority (tcb k t) < 7.
Proof. intros Hb Ht. pose proof (ki_prio Hb _ Ht) as Hp. unfold configMAX_PRIORITIES in Hp. lia. Qed.

Lemma kbase_add_ready {lo} k t : kbase_at lo k -> kcontainer k (IState t) = None -> live k t ->
  kbase_at lo (prvAddTaskToReadyList t k).
Proof.
  intros Hb Ht Hlive. pose proof (live_prio _ _ Hb Hlive) as Hp. rewrite prvAdd_eq.
  set (p := uxPriority (tcb k t)) in *. pose proof Hb as [].
  unfold kcontainer in Ht.
  split; try done; unfold kcontainer, kvalue, klist, live, state_list; simpl.
  - auto with fw.
  - intros t' l. rewrite container_lInsertEnd. case_decide as Hd.
    + intros [= <-]. simplify_eq. done.
    + apply ki_state0.
  - intros t' l. rewrite container_lInsertEnd. case_decide; [done|]. apply ki_event0.
  - apply record_range; [done|lia].
  - intros q. rewrite testbit_record by lia. destruct (Z.eqb_spec p q) as [->|Hne].
    + rewrite orb_true_r. split; [|done]. intros _ E.
      pose proof (on_list_lInsertEnd_perm (k_lists k) (LReady q) (IState t)) as Hperm.
      rewrite E in Hperm. by apply Permutation_nil_cons in Hperm.
    + rewrite orb_false_r, ki_map0, on_list_lInsertEnd_ne by congruence. done.
  - intros t'. rewrite container_lInsertEnd, value_lInsertEnd. case_decide as Hd.
    + intros [= E]. destruct (delayed_is _ Hb) as ([E2|E2] & _); congruence.
    + apply ki_due0.
  - intros t'. rewrite container_lInsertEnd, value_lInsertEnd. case_decide as Hd.
    + intros [= E]. destruct (delayed_is _ Hb) as (_ & [E2|E2] & _); congruence.
    + apply ki_over0.
  - intros l Hl. rewrite on_list_lInsertEnd_ne by (destruct Hl; congruence).
    eapply sorted_ext; [by apply ki_sorted0|]. intros a b _ _. unfold wake_le, kvalue. simpl.
    by rewrite !value_lInsertEnd.
Qed.

(** Event items and termination: lists whose order does not matter here. *)
Lemma kbase_insert_other {lo} k i l f :
  kbase_at lo k -> may_join k i l -> (forall p, l <> LReady p) -> l <> LDelayed1 -> l <> LDelayed2 ->
  f = lInsert l i \/ f = lInsertEnd l i -> kbase_at lo (on_lists f k).
Proof.
  intros Hb [Hc Hi] Hl Hl1 Hl2 Hf. pose proof Hb as []. unfold kcontainer in Hc.
  assert (lists_wf (f (k_lists k)) /\
    (forall j, container (f (k_lists k)) j = if decide (i = j) then Some l else kcontainer k j) /\
    (forall j, value (f (k_lists k)) j = kvalue k j) /\
    (forall l', l <> l' -> on_list (f (k_lists k)) l' = klist k l')) as (Hwf & Hcont & Hval & Hon).
  { destruct Hf as [-> | ->]; split_and!; intros; auto using container_lInsert, container_lInsertEnd,
      value_lInsert, value_lInsertEnd, on_list_lInsert_ne, on_list_lInsertEnd_ne with fw. }
  destruct (delayed_is _ Hb) as (Hd1 & Hd2 & _).
  split; try done; unfold kcontainer, kvalue, klist; simpl.
  - intros t' l'. rewrite Hcont. case_decide as Hd; [|apply ki_state0]. intros [= <-].
    subst i. done.
  - intros t' l'. rewrite Hcont. case_decide as Hd; [|apply ki_event0]. intros [= <-].
    subst i. done.
  - intros p. rewrite Hon by apply Hl. done.
  - intros t'. rewrite Hcont, Hval. case_decide; [|apply ki_due0]. intros [= ?]. intuition congruence.
  - intros t'. rewrite Hcont, Hval. case_decide; [|apply ki_over0]. intros [= ?]. intuition congruence.
  - intros l' Hl'. rewrite Hon by (intuition congruence).
    eapply sorted_ext; [by apply ki_sorted0|]. intros a b _ _. unfold wake_le, kvalue. simpl.
    by rewrite !Hval.
Qed.

Lemma kbase_set_event_value {lo} k t v : kbase_at lo k -> kbase_at lo (on_lists (set_value (IEvent t) v) k).
Proof.
  intros Hb. pose proof Hb as [].
  assert (forall t', value (set_value (IEvent t) v (k_lists k)) (IState t') = kvalue k (IState t')) as Hv
    by (intros; by rewrite value_set_value).
  split; try done; unfold kcontainer, kvalue, klist; simpl.
  - auto with fw.
  - intros t' l. rewrite container_set_value. apply ki_state0.
  - intros t' l. rewrite container_set_value. apply ki_event0.
  - intros t'. rewrite container_set_value, Hv. apply ki_due0.
  - intros t'. rewrite container_set_value, Hv. apply ki_over0.
  - intros l Hl. eapply sorted_ext; [by apply ki_sorted0|].
    intros a b Ha%(elem_klist _ _ _ Hb) Hbb%(elem_klist _ _ _ Hb). unfold wake_le, kvalue. simpl.
    destruct (state_item _ _ _ Hb Ha) as [ta ->]; [tauto|].
    destruct (state_item _ _ _ Hb Hbb) as [tb ->]; [tauto|]. by rewrite !Hv.
Qed.

(** Changing the priority of a task that is on no ready list. *)
Lemma kbase_set_priority {lo} k t p :
  kbase_at lo k -> (forall q, kcontainer k (IState t) <> Some (LReady q)) ->
  uxBasePriority (tcb k t) <= p < configMAX_PRIORITIES ->
  live k t -> kbase_at lo (upd_tcb t (set_uxPriority p) k).
Proof.
  intros Hb Hn Hp Hlive. pose proof Hb as [].
  assert (forall t', live (upd_tcb t (set_uxPriority p) k) t' <-> live k t') as Hl.
  { intros t'. unfold live, upd_tcb. simpl. rewrite lookup_insert. case_decide; subst; [|done].
    split; [done|by eexists]. }
  split; try done.
  - intros t' l Ht'. rewrite Hl. destruct (ki_state0 _ _ Ht') as [? Hs]. split; [done|].
    destruct l as [q| | | | |]; try done. simpl in *. rewrite tcb_upd_tcb. case_decide; [|done].
    subst t'. by destruct (Hn q).
  - intros t' l Ht'. rewrite Hl. by apply ki_event0.
  - intros t' Ht'%Hl. rewrite tcb_upd_tcb. case_decide; [|by apply ki_prio0].
    subst t'. simpl. pose proof (ki_prio0 _ Hlive). lia.
Qed.

(** Fields of a control block that the invariant does not read. *)
Lemma kbase_upd_other {lo} k t f : kbase_at lo k -> live k t ->
  (forall c, uxPriority (f c) = uxPriority c /\ uxBasePriority (f c) = uxBasePriority c) ->
  kbase_at lo (upd_tcb t f k).
Proof.
  intros Hb Hlive Hf. pose proof Hb as [].
  assert (forall t', live (upd_tcb t f k) t' <-> live k t') as Hl.
  { intros t'. unfold live, upd_tcb. simpl. rewrite lookup_insert. case_decide; subst; [|done].
    split; [done|by eexists]. }
  assert (forall t', uxPriority (tcb (upd_tcb t f k) t') = uxPriority (tcb k t') /\
    uxBasePriority (tcb (upd_tcb t f k) t') = uxBasePriority (tcb k t')) as Ht.
  { intros t'. rewrite tcb_upd_tcb. case_decide; subst; [apply Hf|done]. }
  split; try done.
  - intros t' l Ht'. rewrite Hl. destruct (ki_state0 _ _ Ht') as [? Hs]. split; [done|].
    destruct l; try done. simpl in *. by rewrite (proj1 (Ht t')).
  - intros t' l Ht'. rewrite Hl. by apply ki_event0.
  - intros t' Ht'%Hl. destruct (Ht t') as [-> ->]. by apply ki_prio0.
Qed.

(** *** Blocking on a delayed list *)

Lemma set_next_id k : set_xNextTaskUnblockTime (xNextTaskUnblockTime k) k = k.
Proof. by destruct k. Qed.

Lemma kbase_insert_delayed {lo} k t l wake next :
  kbase_at lo k -> kcontainer k (IState t) = None -> live k t -> 0 <= next <= xNextTaskUnblockTime k ->
  (l = pxDelayedTaskList k /\ lo < wake < 4294967296 /\ next <= wake) \/
  (l = pxOverflowDelayedTaskList k /\ 0 <= wake < xTickCount k) ->
  kbase_at lo (set_xNextTaskUnblockTime next
    (on_lists (lInsert l (IState t)) (on_lists (set_value (IState t) wake) k))).
Proof.
  intros Hb Ht Hlive Hnext Hl. pose proof Hb as []. destruct (delayed_is _ Hb) as (Hd1 & Hd2 & Hd3).
  unfold kcontainer in Ht.
  assert (l = LDelayed1 \/ l = LDelayed2) as Hl12 by (destruct Hl as [[-> _]|[-> _]]; tauto).
  set (s := set_value (IState t) wake (k_lists k)).
  assert (container s (IState t) = None) as Hs by (unfold s; by rewrite container_set_value).
  assert (forall j, container (lInsert l (IState t) s) j =
    if decide (IState t = j) then Some l else kcontainer k j) as Hcont
    by (intros; unfold s; by rewrite container_lInsert, container_set_value).
  assert (forall j, value (lInsert l (IState t) s) j =
    if decide (IState t = j) then wake else kvalue k j) as Hval
    by (intros; unfold s; by rewrite value_lInsert, value_set_value).
  assert (forall l', l <> l' -> on_list (lInsert l (IState t) s) l' = klist k l') as Hon
    by (intros; unfold s; by rewrite on_list_lInsert_ne).
  split; try done; unfold kcontainer, kvalue, klist; simpl; fold s.
  - unfold s. auto with fw.
  - intros t' l'. rewrite Hcont. case_decide as Hd; [|apply ki_state0]. intros [= <-].
    simplify_eq. split; [done|]. destruct Hl12 as [-> | ->]; done.
  - intros t' l'. rewrite Hcont. case_decide; [done|]. apply ki_event0.
  - intros p. rewrite Hon by (destruct Hl12; congruence). done.
  - lia.
  - intros t'. rewrite Hcont, Hval. case_decide as Hd; [|].
    + intros [= E]. destruct Hl as [[-> ?]|[-> ?]]; [done|]. by destruct Hd3.
    + intros E%ki_due0. lia.
  - intros t'. rewrite Hcont, Hval. case_decide as Hd; [|].
    + intros [= E]. destruct Hl as [[-> ?]|[-> ?]]; [by destruct Hd3|done].
    + apply ki_over0.
  - intros l' Hl'.
    assert (StronglySorted (fun a b => value s a <= value s b) (on_list s l')) as Hsort.
    { eapply sorted_ext; [by apply ki_sorted0|].
      intros a b Ha%(elem_klist _ _ _ Hb) Hbb%(elem_klist _ _ _ Hb). unfold wake_le, kvalue, s.
      rewrite !value_set_value. unfold kcontainer in *. repeat case_decide; congruence. }
    eapply (sorted_ext (fun a b => value s a <= value s b)).
    + unfold on_list. rewrite ring_lInsert. case_decide; [|done]. subst l'. simpl.
      by apply ins_sorted_sorted.
    + intros a b _ _. unfold wake_le, kvalue. simpl. fold s. by rewrite !value_lInsert.
Qed.

(** The fields that blocking and waking leave alone: all but the lists, the
    bit map and the next unblock time. *)
Definition only_lists (k k' : Kernel) : Prop := exists L T N,
  k' = set_lists L (set_uxTopReadyPriority T (set_xNextTaskUnblockTime N k)).
#[export] Instance only_lists_preorder : PreOrder only_lists.
Proof.
  split.
  - intros k. exists (k_lists k), (uxTopReadyPriority k), (xNextTaskUnblockTime k). by destruct k.
  - intros k1 k2 k3 (L & T & N & ->) (L' & T' & N' & ->). by exists L', T', N'.
Qed.
Lemma only_lists_on f k : only_lists k (on_lists f k).
Proof. exists (f (k_lists k)), (uxTopReadyPriority k), (xNextTaskUnblockTime k). by destruct k. Qed.
Lemma only_lists_top T k : only_lists k (set_uxTopReadyPriority T k).
Proof. exists (k_lists k), T, (xNextTaskUnblockTime k). by destruct k. Qed.
Lemma only_lists_next N k : only_lists k (set_xNextTaskUnblockTime N k).
Proof. exists (k_lists k), (uxTopReadyPriority k), N. by destruct k. Qed.
Lemma only_lists_reset p k : only_lists k (taskRESET_READY_PRIORITY p k).
Proof.
  unfold taskRESET_READY_PRIORITY. destruct (list_length (LReady p) k =? 0);
    [apply only_lists_top|reflexivity].
Qed.
Lemma only_lists_add t k : only_lists k (prvAddTaskToReadyList t k).
Proof. rewrite prvAdd_eq. etrans; [|apply only_lists_on]. apply only_lists_top. Qed.

Lemma only_lists_kbase k k' : only_lists k k' -> kbase_at (xTickCount k) k' -> kbase k'.
Proof. by intros (L & T & N & ->). Qed.

(** The current task is running: on its ready list, waiting for nothing. *)
Definition running (k : Kernel) : Prop :=
  kcontainer k (IState (pxCurrentTCB k)) = Some (LReady (uxPriority (tcb k (pxCurrentTCB k)))).

Lemma delay_current k w :
  kbase k -> running k -> 0 < w < 4294967296 ->
  let t := pxCurrentTCB k in
  let wake := u32 (xTickCount k + w) in
  exists k', prvAddCurrentTaskToDelayedList w k = Some k' /\ kbase_at (xTickCount k) k' /\ only_lists k k' /\
    kcontainer k' (IState t) = Some (if wake <? xTickCount k then pxOverflowDelayedTaskList k
                                     else pxDelayedTaskList k) /\
    kvalue k' (IState t) = wake /\
    (forall i, i <> IState t -> kcontainer k' i = kcontainer k i /\ kvalue k' i = kvalue k i) /\
    klist k' LTermination = klist k LTermination.
Proof.
  intros Hb Hrun Hw t wake. pose proof (ki_state Hb _ _ Hrun) as [Hlive _].
  pose proof (ki_tick Hb) as Htick. pose proof (ki_next Hb) as Hnext.
  unfold prvAddCurrentTaskToDelayedList. unfold running in Hrun. fold t in Hrun |- *.
  rewrite (uxListRemove_eq _ _ _ Hrun). cbn [mbind option_bind].
  set (k1 := if list_length _ _ =? 0 then _ else _).
  assert (kbase_at (xTickCount k) k1) as Hb1 by (by apply kbase_remove_ready).
  assert (only_lists k k1) as Ho.
  { subst k1. etrans; [apply (only_lists_on (lRemove (IState t)))|].
    destruct (list_length _ _ =? 0); [apply only_lists_top|reflexivity]. }
  assert (k_lists k1 = lRemove (IState t) (k_lists k)) as El
    by (subst k1; by destruct (list_length _ _ =? 0)).
  clearbody k1. assert (kcontainer k1 (IState t) = None) as Hc1
    by (unfold kcontainer; by rewrite El, container_lRemove, decide_True).
  assert (live k1 t /\ xTickCount k1 = xTickCount k /\ pxDelayedTaskList k1 = pxDelayedTaskList k /\
    pxOverflowDelayedTaskList k1 = pxOverflowDelayedTaskList k) as (Hlive1 & Et & Ed & Eo)
    by (by destruct Ho as (? & ? & ? & ->)).
  pose proof (ki_next Hb1) as Hnext1.
  set (k2 := on_lists (set_value (IState t) (u32 (xTickCount k1 + w))) k1).
  change (xTickCount k2) with (xTickCount k1).
  change (xNextTaskUnblockTime (on_lists (lInsert (pxDelayedTaskList k2) (IState t)) k2))
    with (xNextTaskUnblockTime k1).
  change (pxDelayedTaskList k2) with (pxDelayedTaskList k1).
  change (pxOverflowDelayedTaskList k2) with (pxOverflowDelayedTaskList k1).
  rewrite Et. fold wake. rewrite Ed, Eo.
  assert (forall l n, l <> LTermination ->
    let k' := set_xNextTaskUnblockTime n (on_lists (lInsert l (IState t)) k2) in
    only_lists k k' /\ kcontainer k' (IState t) = Some l /\ kvalue k' (IState t) = wake /\
    (forall i, i <> IState t -> kcontainer k' i = kcontainer k i /\ kvalue k' i = kvalue k i) /\
    klist k' LTermination = klist k LTermination) as Hres.
  { intros l n Hnt. unfold kcontainer, kvalue. simpl. rewrite container_lInsert, value_lInsert, decide_True by done.
    rewrite value_set_value, decide_True, Et by done. split_and!; [|done..| |].
    - etrans; [exact Ho|]. etrans; [apply (only_lists_on (set_value (IState t) (u32 (xTickCount k1 + w))))|].
      etrans; [apply (only_lists_on (lInsert l (IState t)))|]. apply only_lists_next.
    - intros i Hi. rewrite container_lInsert, value_lInsert, container_set_value, value_set_value.
      rewrite !decide_False by congruence. unfold kcontainer. rewrite El, container_lRemove, value_lRemove.
      by rewrite decide_False by congruence.
    - unfold klist, kcontainer in *. simpl. rewrite on_list_lInsert_ne by done.
      change (on_list (set_value ?i ?v ?s)) with (on_list s).
      rewrite El, on_list_lRemove, decide_False by congruence. done. }
  assert (pxDelayedTaskList k <> LTermination /\ pxOverflowDelayedTaskList k <> LTermination)
    as [Hdt Hot] by (destruct (delayed_is _ Hb) as ([-> | ->] & [-> | ->] & _); done).
  assert (forall l, set_xNextTaskUnblockTime (xNextTaskUnblockTime k1)
    (on_lists (lInsert l (IState t)) k2) = on_lists (lInsert l (IState t)) k2) as Hid
    by (intros l; change (xNextTaskUnblockTime k1) with
          (xNextTaskUnblockTime (on_lists (lInsert l (IState t)) k2)); apply set_next_id).
  destruct (Z.ltb_spec wake (xTickCount k)) as [Hover|Hdue].
  - eexists. split; [reflexivity|].
    destruct (Hres (pxOverflowDelayedTaskList k) (xNextTaskUnblockTime k1) Hot)
      as (? & ? & ? & ? & ?).
    rewrite Hid in *. split_and!; try done. rewrite <- Hid. apply kbase_insert_delayed; [done..|lia|].
    right. rewrite Et. fold wake. pose proof (u32_range (xTickCount k + w)). rewrite Eo. split; [done|lia].
  - assert (xTickCount k < wake < 4294967296) by (subst wake; wrap_lia).
    eexists. split; [reflexivity|].
    destruct (Hres (pxDelayedTaskList k) (if wake <? xNextTaskUnblockTime k1 then wake
      else xNextTaskUnblockTime k1) Hdt) as (? & ? & ? & ? & ?).
    assert (kbase_at (xTickCount k) (set_xNextTaskUnblockTime (if wake <? xNextTaskUnblockTime k1 then wake
      else xNextTaskUnblockTime k1) (on_lists (lInsert (pxDelayedTaskList k) (IState t)) k2))).
    { subst k2. rewrite Et. fold wake. apply kbase_insert_delayed; try done.
      - destruct (Z.ltb_spec wake (xNextTaskUnblockTime k1)); lia.
      - left. rewrite Ed. split_and!; [done|lia|lia|].
        destruct (Z.ltb_spec wake (xNextTaskUnblockTime k1)); lia. }
    destruct (wake <? xNextTaskUnblockTime k1); [by split_and!|].
    rewrite Hid in *. by split_and!.
Qed.

(** *** Waking a task *)

(** Both items taken off their lists, in either order. *)
Inductive unlinks (t : Z) : (Lists ListId ItemId -> Lists ListId ItemId) -> Prop :=
| unlink_state_event : unlinks t (fun s => lRemove (IEvent t) (lRemove (IState t) s))
| unlink_event_state : unlinks t (fun s => lRemove (IState t) (lRemove (IEvent t) s)).

(** Task [t] is made ready and waits for nothing; the rest stays. *)
Record woken (t : Z) (k k' : Kernel) : Prop := mkWoken {
  wk_only : only_lists k k';
  wk_state : kcontainer k' (IState t) = Some (LReady (uxPriority (tcb k t)));
  wk_event : kcontainer k' (IEvent t) = None;
  wk_others : forall i, i <> IState t -> i <> IEvent t -> kcontainer k' i = kcontainer k i;
  wk_values : forall i, kvalue k' i = kvalue k i;
  wk_term : klist k' LTermination = klist k LTermination
}.

Lemma wake_ok {lo} k t f :
  kbase_at lo k -> unlinks t f -> live k t ->
  (forall p, kcontainer k (IState t) <> Some (LReady p)) ->
  kcontainer k (IState t) <> Some LTermination ->
  kbase_at lo (prvAddTaskToReadyList t (on_lists f k)) /\
  woken t k (prvAddTaskToReadyList t (on_lists f k)).
Proof.
  intros Hb Hf Hlive Hnr Hnt.
  assert (forall p, kcontainer k (IEvent t) <> Some (LReady p)) as Hne
    by (intros p E; by destruct (ki_event Hb _ _ E)).
  assert (kcontainer k (IEvent t) <> Some LTermination) as Hnt'
    by (intros E; by destruct (ki_event Hb _ _ E)).
  assert (kbase_at lo (on_lists f k)) as Hb'.
  { destruct Hf.
    - apply (kbase_remove (on_lists (lRemove (IState t)) k)); [by apply kbase_remove|].
      intros p. unfold kcontainer. simpl. rewrite container_lRemove. case_decide; [done|apply Hne].
    - apply (kbase_remove (on_lists (lRemove (IEvent t)) k)); [by apply kbase_remove|].
      intros p. unfold kcontainer. simpl. rewrite container_lRemove. case_decide; [done|apply Hnr]. }
  assert (forall i, container (f (k_lists k)) i =
    if decide (i = IState t \/ i = IEvent t) then None else kcontainer k i) as Hc.
  { intros i. destruct Hf; rewrite !container_lRemove; unfold kcontainer;
      repeat case_decide; subst; naive_solver. }
  assert (kcontainer (on_lists f k) (IState t) = None) as Hcs
    by (unfold kcontainer; simpl; rewrite Hc, decide_True; auto).
  split; [by apply kbase_add_ready|].
  split.
  - etrans; [apply (only_lists_on f)|apply only_lists_add].
  - unfold kcontainer. rewrite prvAdd_eq. simpl. by rewrite container_lInsertEnd, decide_True.
  - unfold kcontainer. rewrite prvAdd_eq. simpl. rewrite container_lInsertEnd, decide_False by done.
    rewrite Hc, decide_True; auto.
  - intros i Hi1 Hi2. unfold kcontainer. rewrite prvAdd_eq. simpl.
    rewrite container_lInsertEnd, decide_False by congruence. rewrite Hc, decide_False; [done|tauto].
  - intros i. unfold kvalue. rewrite prvAdd_eq. simpl. rewrite value_lInsertEnd.
    destruct Hf; by rewrite !value_lRemove.
  - unfold klist. rewrite prvAdd_eq. simpl. rewrite on_list_lInsertEnd_ne by done.
    destruct Hf; rewrite !on_list_lRemove, !container_lRemove; unfold kcontainer in *;
      repeat case_decide; congruence.
Qed.

Lemma lRemove_none (i : ItemId) (s : Lists ListId ItemId) : container s i = None -> lRemove i s = s.
Proof. unfold lRemove. by intros ->. Qed.

Lemma remove_event_eq t k : remove_event_item t k = Some (on_lists (lRemove (IEvent t)) k).
Proof.
  unfold remove_event_item, kcontainer. destruct (container (k_lists k) (IEvent t)) as [l|] eqn:E.
  - by rewrite (uxListRemove_eq _ _ _ E).
  - unfold on_lists. rewrite lRemove_none by done. by destruct k.
Qed.

Lemma kblocked_woken t k k' : kblocked k -> woken t k k' -> kblocked k'.
Proof.
  intros Hk [_ _ He Ho _ _] t'. destruct (decide (t' = t)) as [->|Hne]; [by rewrite He|].
  rewrite !Ho by congruence. apply Hk.
Qed.

(** A list that lost an item and gained none is shorter. *)
Lemma klist_shrinks {lo lo'} k k' l j : kbase_at lo k -> kbase_at lo' k' ->
  kcontainer k j = Some l ->
  (forall i, kcontainer k' i = Some l -> kcontainer k i = Some l /\ i <> j) ->
  (length (klist k' l) < length (klist k l))%nat.
Proof.
  intros Hb Hb' Hj Hi. assert (j :: klist k' l ⊆+ klist k l) as Hsub.
  { apply NoDup_submseteq.
    - constructor; [|apply wf_NoDup, Hb'].
      intros E%(elem_klist _ _ _ Hb'). by destruct (Hi _ E).
    - intros i [->|E%(elem_klist _ _ _ Hb')]%elem_of_cons; apply (elem_klist _ _ _ Hb); [done|].
      by apply Hi. }
  apply submseteq_length in Hsub. simpl in Hsub. lia.
Qed.
