(* ===== verification/KernelTick.v ===== *)
(** * Time: what a tick does to the tasks that wait

    A blocked task has an exact number of ticks left, across the overflow of
    the tick count; each tick takes one off and wakes the tasks that reach
    zero, in one pass over the sorted delayed list. *)

From S2P Require Import Prelude ListSpec Kernel KernelInv.
#[local] Open Scope Z_scope.

(** The ticks that are left before task [t] times out. *)
Definition remaining (k : Kernel) (t : Z) : option Z :=
  match kcontainer k (IState t) with
  | Some l =>
    if decide (l = pxDelayedTaskList k) then Some (kvalue k (IState t) - xTickCount k)
    else if decide (l = pxOverflowDelayedTaskList k)
    then Some (kvalue k (IState t) + 4294967296 - xTickCount k)
    else None
  | None => None
  end.

Definition due (k : Kernel) (t : Z) : Prop :=
  kcontainer k (IState t) = Some (pxDelayedTaskList k) /\ kvalue k (IState t) <= xTickCount k.

Definition cur_prio (k : Kernel) : Z := uxPriority (tcb k (pxCurrentTCB k)).

(** ** The loop of xTaskIncrementTick *)

Lemma kbase_set_next {lo} lo' k n : kbase_at lo k -> 0 <= n < 4294967296 ->
  (forall t, kcontainer k (IState t) = Some (pxDelayedTaskList k) ->
     lo' < kvalue k (IState t) /\ n <= kvalue k (IState t)) ->
  kbase_at lo' (set_xNextTaskUnblockTime n k).
Proof.
  intros [] Hn Hd. split; try done. simpl. intros t Ht.
  destruct (Hd t Ht), (ki_due t Ht) as [[_ ?] _]. done.
Qed.

Lemma only_lists_due k k' t : only_lists k k' -> kvalue k' (IState t) = kvalue k (IState t) ->
  kcontainer k' (IState t) = kcontainer k (IState t) -> due k' t <-> due k t.
Proof. intros (L & T & N & E) Hv Hc. unfold due. rewrite Hv, Hc. by subst k'. Qed.

Lemma unblock_due_ok fuel sw k :
  kbase_at (xTickCount k - 1) k -> kblocked k ->
  (length (klist k (pxDelayedTaskList k)) < fuel)%nat ->
  exists k' sw', unblock_due fuel sw k = Some (k', sw') /\
    kbase_at (xTickCount k) k' /\ kblocked k' /\ only_lists k k' /\
    (forall i, kvalue k' i = kvalue k i) /\ klist k' LTermination = klist k LTermination /\
    (forall t, due k t -> kcontainer k' (IState t) = Some (LReady (uxPriority (tcb k t))) /\
       kcontainer k' (IEvent t) = None) /\
    (forall t, ~ due k t -> kcontainer k' (IState t) = kcontainer k (IState t) /\
       kcontainer k' (IEvent t) = kcontainer k (IEvent t)) /\
    (sw' = true <-> sw = true \/ exists t, due k t /\ uxPriority (tcb k t) >= cur_prio k).
Proof.
  revert sw k. induction fuel as [|fuel IH]; intros sw k Hb Hblk Hf; [lia|].
  simpl. destruct (delayed_is _ Hb) as (Hd & _ & _). pose proof (sorted_head _ _ Hb Hd) as Hhd.
  pose proof (ki_tick Hb) as Htick.
  destruct (head_owner (pxDelayedTaskList k) k) as [t|] eqn:Eh.
  2:{ do 2 eexists. split; [reflexivity|]. split_and!; try done.
    - by eapply kbase_set_next; [done|done|]; intros t ?%Hhd.
    - apply only_lists_next.
    - intros t [?%Hhd _]. done.
    - split; [by left|]. intros [?|(t & [?%Hhd _] & _)]; done. }
  destruct Hhd as [Ht Hmin]. pose proof (ki_due Hb _ Ht) as Hdue.
  destruct (Z.ltb_spec (xTickCount k) (kvalue k (IState t))) as [Hlate|Hnow].
  { do 2 eexists. split; [reflexivity|].
    assert (forall t', ~ due k t') as Hno by (intros t' [Ht' ?]; specialize (Hmin t' Ht'); lia).
    split_and!; try done.
    - eapply kbase_set_next; [done|lia|]. intros t' Ht'%Hmin. lia.
    - apply only_lists_next.
    - intros t' ?%Hno. done.
    - split; [by left|]. intros [?|(t' & ?%Hno & _)]; done. }
  assert (live k t) as Hlive by apply (ki_state Hb _ _ Ht).
  assert (forall p, kcontainer k (IState t) <> Some (LReady p)) as Hnr
    by (intros p E; destruct Hd; congruence).
  assert (kcontainer k (IState t) <> Some LTermination) as Hnt by (destruct Hd; congruence).
  destruct (wake_ok k t _ Hb (unlink_state_event t) Hlive Hnr Hnt) as [Hb' Hwk].
  rewrite (uxListRemove_eq _ _ _ Ht). cbn [mbind option_bind].
  rewrite remove_event_eq. cbn [mbind option_bind].
  change (on_lists (lRemove (IEvent t)) (on_lists (lRemove (IState t)) k)) with
    (on_lists (fun s => lRemove (IEvent t) (lRemove (IState t) s)) k).
  set (k1 := prvAddTaskToReadyList t _) in *.
  pose proof (kblocked_woken _ _ _ Hblk Hwk) as Hblk1.
  pose proof Hwk as [Ho Hst Hev Hoth Hval Hterm]. pose proof Ho as (L & T & N & Ek1).
  assert (xTickCount k1 = xTickCount k /\ pxDelayedTaskList k1 = pxDelayedTaskList k /\
    (forall t', tcb k1 t' = tcb k t') /\ cur_prio k1 = cur_prio k) as (Et & Edl & Etcb & Ecur)
    by (by rewrite Ek1).
  change (pxCurrentTCB (on_lists (fun s => lRemove (IEvent t) (lRemove (IState t) s)) k))
    with (pxCurrentTCB k1). change (uxPriority (tcb k1 (pxCurrentTCB k1))) with (cur_prio k1).
  rewrite Etcb, Ecur. clear Ek1. clearbody k1.
  assert (length (klist k1 (pxDelayedTaskList k1)) < fuel)%nat as Hf1.
  { apply (Nat.lt_le_trans _ (length (klist k (pxDelayedTaskList k)))); [|lia]. rewrite Edl.
    apply (klist_shrinks _ _ _ _ Hb Hb' Ht). intros i Hi.
    destruct (decide (i = IState t)) as [->|]; [rewrite Hst in Hi; destruct Hd; congruence|].
    destruct (decide (i = IEvent t)) as [->|]; [congruence|]. by rewrite <- Hoth. }
  rewrite <- Et in Hb' |- *.
  destruct (IH (if uxPriority (tcb k t) >=? cur_prio k then true else sw) k1 Hb' Hblk1 Hf1)
    as (k' & sw' & -> & Hb2 & Hblk2 & Ho2 & Hval2 & Hterm2 & Hdue2 & Hnd2 & Hsw2).
  assert (forall t', t' <> t -> due k1 t' <-> due k t') as Hiff.
  { intros t' Hne. apply only_lists_due; [done|apply Hval|apply Hoth; congruence]. }
  assert (~ due k1 t) as Hnt1.
  { intros [E _]. rewrite Hst, Edl in E. destruct Hd; congruence. }
  exists k', sw'. split; [done|]. rewrite Et in *. split_and!; try done.
  - by etrans.
  - intros i. by rewrite Hval2, Hval.
  - by rewrite Hterm2, Hterm.
  - intros t' Hdt. destruct (decide (t' = t)) as [->|Hne].
    + destruct (Hnd2 t Hnt1) as [-> ->]. done.
    + rewrite <- Etcb. by apply Hdue2, Hiff.
  - intros t' Hnd. destruct (decide (t' = t)) as [->|Hne]; [by destruct Hnd|].
    assert (~ due k1 t') as Hnd1 by (by rewrite Hiff).
    destruct (Hnd2 t' Hnd1) as [-> ->]. by rewrite !Hoth by congruence.
  - rewrite Hsw2, Ecur. setoid_rewrite Etcb. rewrite Z.geb_leb.
    destruct (Z.leb_spec (cur_prio k) (uxPriority (tcb k t))) as [Hge|Hlt].
    + split; [|by left]. intros _. right. exists t. split; [by split|lia].
    + split; (intros [?|(t' & Hdt & ?)]; [by left|right; exists t'; split; [|done]]).
      * apply Hiff; [|done]. by intros ->.
      * apply Hiff; [|done]. intros ->. lia.
Qed.

(** ** Advancing the tick count *)

Definition advance (k : Kernel) : Kernel :=
  let k := set_xTickCount (u32 (xTickCount k + 1)) k in
  if xTickCount k =? 0 then taskSWITCH_DELAYED_LISTS k else k.

Lemma remaining_bounds k t r : kbase k -> remaining k t = Some r -> 0 < r < 4294967296.
Proof.
  intros Hb. unfold remaining. pose proof (ki_tick Hb) as Htick.
  destruct (kcontainer k (IState t)) as [l|] eqn:E; [|done].
  repeat case_decide; intros [= <-]; subst l.
  - destruct (ki_due Hb _ E). lia.
  - pose proof (ki_over Hb _ E). lia.
Qed.

(** The ticks left once the count has advanced: one less; zero means due. *)
Record advanced (k k' : Kernel) : Prop := mkAdvanced {
  ad_tick : xTickCount k' = u32 (xTickCount k + 1);
  ad_base : kbase_at (xTickCount k' - 1) k';
  ad_due : forall t, due k' t <-> remaining k t = Some 1;
  ad_left : forall t, ~ due k' t -> remaining k' t = (fun r => r - 1) <$> remaining k t;
  ad_cont : forall i, kcontainer k' i = kcontainer k i;
  ad_list : forall l, klist k' l = klist k l;
  ad_over : xNumOfOverflows k' =
    if xTickCount k' =? 0 then s32 (xNumOfOverflows k + 1) else xNumOfOverflows k;
  ad_rest : exists d o n e, k' = set_pxDelayedTaskList d (set_pxOverflowDelayedTaskList o
    (set_xNumOfOverflows n (set_xNextTaskUnblockTime e (set_xTickCount (xTickCount k') k))))
}.

Lemma advance_no_wrap k : kbase k -> xTickCount k + 1 < 4294967296 ->
  advanced k (set_xTickCount (xTickCount k + 1) k).
Proof.
  intros Hb Hw. pose proof (ki_tick Hb) as Htick. destruct (delayed_is _ Hb) as (_ & _ & Hne).
  split; simpl.
  - by rewrite u32_small by lia.
  - replace (xTickCount k + 1 - 1) with (xTickCount k) by lia.
    pose proof (ki_over Hb) as Ho. destruct Hb. split; try done; simpl; [lia|].
    intros t Ht. specialize (Ho t Ht). unfold kvalue in *. simpl. lia.
  - intros t. unfold due, remaining, kcontainer, kvalue. simpl. split.
    + intros [E Hv]. rewrite E, decide_True by done. f_equal.
      destruct (ki_due Hb t E) as [? _]. unfold kvalue in *. lia.
    + destruct (container (k_lists k) (IState t)) as [l|] eqn:E; [|done].
      repeat case_decide; intros [= Hr]; subst l.
      * split; [done|lia].
      * pose proof (ki_over Hb t E). unfold kvalue in *. lia.
  - intros t _. unfold remaining, kcontainer, kvalue. simpl.
    destruct (container (k_lists k) (IState t)); [|done].
    repeat case_decide; simpl; [f_equal; lia..|done].
  - done.
  - done.
  - by destruct (Z.eqb_spec (xTickCount k + 1) 0); [lia|].
  - exists (pxDelayedTaskList k), (pxOverflowDelayedTaskList k), (xNumOfOverflows k),
      (xNextTaskUnblockTime k). by destruct k.
Qed.

Lemma advance_wrap k : kbase k -> xTickCount k = 4294967295 ->
  advanced k (taskSWITCH_DELAYED_LISTS (set_xTickCount 0 k)).
Proof.
  intros Hb Hw. destruct (delayed_is _ Hb) as (Hd1 & Hd2 & Hne).
  pose proof (ki_due Hb) as Hdue. pose proof (ki_over Hb) as Hover. rewrite Hw in *.
  assert (forall t, kcontainer k (IState t) <> Some (pxDelayedTaskList k)) as Hempty
    by (intros t E%Hdue; lia).
  set (k1 := set_xNumOfOverflows (s32 (xNumOfOverflows k + 1)) (set_pxOverflowDelayedTaskList
    (pxDelayedTaskList k) (set_pxDelayedTaskList (pxOverflowDelayedTaskList k) (set_xTickCount 0 k)))).
  change (taskSWITCH_DELAYED_LISTS (set_xTickCount 0 k)) with (prvResetNextTaskUnblockTime k1).
  assert (exists e, prvResetNextTaskUnblockTime k1 = set_xNextTaskUnblockTime e k1 /\
    0 <= e < 4294967296 /\
    forall t, kcontainer k (IState t) = Some (pxOverflowDelayedTaskList k) ->
      e <= kvalue k (IState t)) as (e & -> & He & Hmin).
  { pose proof (sorted_head _ _ Hb Hd2) as Hhd. unfold prvResetNextTaskUnblockTime.
    change (head_owner (pxDelayedTaskList k1) k1) with (head_owner (pxOverflowDelayedTaskList k) k).
    destruct (head_owner (pxOverflowDelayedTaskList k) k) as [t|]; eexists; (split; [reflexivity|]).
    - destruct Hhd as [Ht Hm]. pose proof (Hover t Ht). change (kvalue k1) with (kvalue k). split; [lia|done].
    - split; [done|]. intros t ?%Hhd. done. }
  split; simpl; try done.
  - by rewrite Hw.
  - destruct Hb. split; try done; simpl.
    + tauto.
    + intros t Ht. specialize (Hover t Ht). specialize (Hmin t Ht). unfold kvalue in *. simpl. lia.
    + intros t Ht. by destruct (Hempty t).
  - intros t. unfold due, remaining, kcontainer, kvalue. simpl. rewrite Hw. split.
    + intros [E Hv]. rewrite E, decide_False by congruence. rewrite decide_True by done. f_equal.
      pose proof (Hover t E). unfold kvalue in *. lia.
    + destruct (container (k_lists k) (IState t)) as [l|] eqn:E; [|done].
      repeat case_decide; intros [= Hr]; subst l; [by destruct (Hempty t)|]. split; [done|lia].
  - intros t _. unfold remaining, kcontainer, kvalue. simpl. rewrite Hw.
    destruct (container (k_lists k) (IState t)) as [l|] eqn:E; [|done].
    repeat case_decide; subst; simpl; try (f_equal; lia); try done; by destruct (Hempty t).
  - exists (pxOverflowDelayedTaskList k), (pxDelayedTaskList k), (s32 (xNumOfOverflows k + 1)), e.
    done.
Qed.

Lemma advance_ok k : kbase k -> advanced k (advance k).
Proof.
  intros Hb. pose proof (ki_tick Hb). unfold advance. simpl.
  destruct (decide (xTickCount k + 1 < 4294967296)).
  - rewrite u32_small by lia. destruct (Z.eqb_spec (xTickCount k + 1) 0); [lia|].
    by apply advance_no_wrap.
  - assert (xTickCount k = 4294967295) as E by lia. rewrite E. simpl. by apply advance_wrap.
Qed.

(** ** xTaskIncrementTick *)

(** The fields that a tick may change. *)
Definition tick_frame (k k' : Kernel) : Prop := exists L T d o n e x,
  k' = set_lists L (set_uxTopReadyPriority T (set_xNextTaskUnblockTime e
    (set_pxDelayedTaskList d (set_pxOverflowDelayedTaskList o (set_xNumOfOverflows n
      (set_xTickCount x k)))))).
#[export] Instance tick_frame_preorder : PreOrder tick_frame.
Proof.
  split.
  - intros k. exists (k_lists k), (uxTopReadyPriority k), (pxDelayedTaskList k),
      (pxOverflowDelayedTaskList k), (xNumOfOverflows k), (xNextTaskUnblockTime k), (xTickCount k).
    by destruct k.
  - intros k1 k2 k3 (L & T & d & o & n & e & x & ->) (L' & T' & d' & o' & n' & e' & x' & ->).
    by exists L', T', d', o', n', e', x'.
Qed.
Lemma only_lists_tick k k' : only_lists k k' -> tick_frame k k'.
Proof.
  intros (L & T & N & ->). exists L, T, (pxDelayedTaskList k), (pxOverflowDelayedTaskList k),
    (xNumOfOverflows k), N, (xTickCount k). by destruct k.
Qed.

(** One tick on the waiting tasks. *)
Record ticked (k k' : Kernel) : Prop := mkTicked {
  tk_base : kbase k';
  tk_blocked : kblocked k';
  tk_count : xTickCount k' = u32 (xTickCount k + 1);
  tk_over : xNumOfOverflows k' =
    if xTickCount k' =? 0 then s32 (xNumOfOverflows k + 1) else xNumOfOverflows k;
  tk_frame : tick_frame k k';
  tk_left : forall t, remaining k' t =
    match remaining k t with
    | Some r => if r =? 1 then None else Some (r - 1)
    | None => None
    end;
  tk_woken : forall t, remaining k t = Some 1 ->
    kcontainer k' (IState t) = Some (LReady (uxPriority (tcb k t))) /\ kcontainer k' (IEvent t) = None;
  tk_same : forall t, remaining k t <> Some 1 ->
    kcontainer k' (IState t) = kcontainer k (IState t) /\
    kcontainer k' (IEvent t) = kcontainer k (IEvent t);
  tk_term : klist k' LTermination = klist k LTermination
}.

Lemma not_due_strict k : kbase_at (xTickCount k - 1) k -> xTickCount k < xNextTaskUnblockTime k ->
  kbase_at (xTickCount k) k /\ forall t, ~ due k t.
Proof.
  intros Hb Hn. pose proof (ki_due Hb) as Hd. split.
  - rewrite <- (set_next_id k) at 2. eapply kbase_set_next; [done|apply Hb|].
    intros t Ht. specialize (Hd t Ht). lia.
  - intros t [Ht Hv]. specialize (Hd t Ht). lia.
Qed.

Lemma xTaskIncrementTick_ok k : kbase k -> kblocked k -> uxSchedulerSuspended k = 0 ->
  exists k' sw, xTaskIncrementTick k = Some (k', sw) /\ ticked k k' /\
    (sw = true <-> xYieldPending k = true \/
       (exists t, remaining k t = Some 1 /\ uxPriority (tcb k t) >= cur_prio k) \/
       list_length (LReady (cur_prio k)) k' > 1).
Proof.
  intros Hb Hblk Hsus. pose proof (advance_ok k Hb) as Had. unfold xTaskIncrementTick.
  rewrite Hsus, Z.eqb_refl. fold (advance k). set (k1 := advance k) in *.
  destruct Had as [Ht1 Hb1 Hdue1 Hleft1 Hc1 Hl1 Hov1 (d & o & n & e & Er)].
  assert (kblocked k1) as Hblk1 by (intros t; rewrite !Hc1; apply Hblk).
  assert (tick_frame k k1) as Hf1
    by (exists (k_lists k), (uxTopReadyPriority k), d, o, n, e, (xTickCount k1); rewrite Er; by destruct k).
  assert (exists k' sw, (if xTickCount k1 >=? xNextTaskUnblockTime k1
       then unblock_due (S (length (klist k1 (pxDelayedTaskList k1)))) false k1
       else Some (k1, false)) = Some (k', sw) /\
    kbase_at (xTickCount k1) k' /\ kblocked k' /\ only_lists k1 k' /\
    (forall i, kvalue k' i = kvalue k1 i) /\ klist k' LTermination = klist k1 LTermination /\
    (forall t, due k1 t -> kcontainer k' (IState t) = Some (LReady (uxPriority (tcb k1 t))) /\
       kcontainer k' (IEvent t) = None) /\
    (forall t, ~ due k1 t -> kcontainer k' (IState t) = kcontainer k1 (IState t) /\
       kcontainer k' (IEvent t) = kcontainer k1 (IEvent t)) /\
    (sw = true <-> exists t, due k1 t /\ uxPriority (tcb k1 t) >= cur_prio k1))
    as (k' & sw & -> & Hb' & Hblk' & Ho' & Hv' & Hterm' & Hdue' & Hnd' & Hsw').
  { rewrite Z.geb_leb. destruct (Z.leb_spec (xNextTaskUnblockTime k1) (xTickCount k1)) as [Hle|Hlt].
    - destruct (unblock_due_ok (S (length (klist k1 (pxDelayedTaskList k1)))) false k1 Hb1 Hblk1)
        as (k' & sw & ? & ? & ? & ? & ? & ? & ? & ? & ?); [lia|]. exists k', sw.
      split_and!; try done. naive_solver.
    - destruct (not_due_strict _ Hb1 Hlt) as [Hs Hno]. exists k1, false. split_and!; try done.
      + intros t ?%Hno. done.
      + split; [done|]. intros (t & ?%Hno & _). done. }
  cbn [mbind option_bind].
  assert ((forall t, tcb k1 t = tcb k t) /\ pxCurrentTCB k1 = pxCurrentTCB k /\
    xYieldPending k1 = xYieldPending k) as (Etcb & Ecur & Eyp) by (by rewrite Er).
  assert ((forall t, tcb k' t = tcb k1 t) /\ pxCurrentTCB k' = pxCurrentTCB k1 /\
    xYieldPending k' = xYieldPending k1 /\ xTickCount k' = xTickCount k1 /\
    xNumOfOverflows k' = xNumOfOverflows k1 /\
    pxDelayedTaskList k' = pxDelayedTaskList k1 /\
    pxOverflowDelayedTaskList k' = pxOverflowDelayedTaskList k1)
    as (Etcb' & Ecur' & Eyp' & Et' & En' & Ed' & Eo') by (by destruct Ho' as (? & ? & ? & ->)).
  clear Er. clearbody k1.
  do 2 eexists. split; [reflexivity|]. split.
  - split.
    + by eapply only_lists_kbase.
    + done.
    + by rewrite Et'.
    + by rewrite En', Et', Hov1.
    + etrans; [exact Hf1|by apply only_lists_tick].
    + intros t. destruct (decide (due k1 t)) as [Hd|Hnd].
      * destruct (Hdue' t Hd) as [E _]. apply Hdue1 in Hd as ->. unfold remaining. rewrite E.
        destruct (delayed_is _ Hb') as ([E1|E1] & [E2|E2] & _); rewrite E1, E2; done.
      * destruct (Hnd' t Hnd) as [E _]. unfold remaining at 1. rewrite E, Hv', Et', Ed', Eo'.
        fold (remaining k1 t). rewrite Hleft1 by done.
        destruct (remaining k t) as [r|] eqn:Hr; simpl; [|done].
        destruct (Z.eqb_spec r 1) as [->|]; [|done]. by apply Hdue1 in Hr.
    + intros t Hr%Hdue1. rewrite <- Etcb. by apply Hdue'.
    + intros t Hr. assert (~ due k1 t) as Hnd by (by rewrite Hdue1).
      destruct (Hnd' t Hnd) as [-> ->]. by rewrite !Hc1.
    + by rewrite Hterm', Hl1.
  - rewrite Eyp', Eyp. rewrite Ecur', Etcb', Etcb, Ecur. fold (cur_prio k).
    rewrite Z.gtb_ltb.
    assert (sw = true <-> exists t, remaining k t = Some 1 /\ uxPriority (tcb k t) >= cur_prio k) as Hsw.
    { rewrite Hsw'. unfold cur_prio. rewrite Ecur. setoid_rewrite Hdue1. by setoid_rewrite Etcb. }
    destruct (xYieldPending k), (Z.ltb_spec 1 (list_length (LReady (cur_prio k)) k')); simpl.
    all: try (split; [|done]; intros; by auto with lia).
    rewrite Hsw. split; [by auto|]. intros [?|[?|?]]; [done..|lia].
Qed.
