(* ===== verification/KernelResume.v ===== *)
(** * Suspending and resuming the scheduler

    While the scheduler is suspended ticks are counted and tasks whose event
    arrives wait on the pending ready list; xTaskResumeAll makes them ready and
    replays the ticks, so that no waiting task sees the difference. *)

From S2P Require Import Prelude ListSpec Kernel KernelInv KernelTick.
#[local] Open Scope Z_scope.

(** ** Several ticks *)

(** [n] ticks on the waiting tasks. *)
Record nticked (n : Z) (k k' : Kernel) : Prop := mkNticked {
  nt_count : xTickCount k' = u32 (xTickCount k + n);
  nt_left : forall t, remaining k' t =
    match remaining k t with
    | Some r => if r <=? n then None else Some (r - n)
    | None => None
    end;
  nt_woken : forall t r, remaining k t = Some r -> r <= n ->
    kcontainer k' (IState t) = Some (LReady (uxPriority (tcb k t))) /\ kcontainer k' (IEvent t) = None;
  nt_same : forall t, (forall r, remaining k t = Some r -> n < r) ->
    kcontainer k' (IState t) = kcontainer k (IState t) /\
    kcontainer k' (IEvent t) = kcontainer k (IEvent t)
}.

Lemma nticked_0 k : kbase k -> nticked 0 k k.
Proof.
  intros Hb. split.
  - rewrite u32_small; [lia|]. pose proof (ki_tick Hb). lia.
  - intros t. destruct (remaining k t) as [r|] eqn:E; [|done].
    pose proof (remaining_bounds _ _ _ Hb E). destruct (Z.leb_spec r 0); [lia|]. f_equal. lia.
  - intros t r E Hr. pose proof (remaining_bounds _ _ _ Hb E). lia.
  - done.
Qed.

Lemma nticked_step n k k1 k2 :
  kbase k -> 0 <= n -> ticked k k1 -> nticked n k1 k2 -> nticked (n + 1) k k2.
Proof.
  intros Hb Hn [Hb1 _ Hc1 _ Hf1 Hl1 Hw1 Hs1 _] [Hc2 Hl2 Hw2 Hs2].
  assert (forall t, tcb k1 t = tcb k t) as Etcb
    by (by destruct Hf1 as (? & ? & ? & ? & ? & ? & ? & ->)).
  split.
  - rewrite Hc2, Hc1. unfold u32. rewrite Zplus_mod_idemp_l. f_equal. lia.
  - intros t. rewrite Hl2, Hl1. destruct (remaining k t) as [r|] eqn:E; [|done].
    pose proof (remaining_bounds _ _ _ Hb E).
    destruct (Z.eqb_spec r 1) as [->|]; [by destruct (Z.leb_spec 1 (n + 1)); [|lia]|].
    destruct (Z.leb_spec (r - 1) n), (Z.leb_spec r (n + 1)); (lia || done || f_equal; lia).
  - intros t r E Hr. pose proof (remaining_bounds _ _ _ Hb E).
    destruct (decide (r = 1)) as [->|Hne].
    + destruct (Hw1 t E) as [E1 E2]. rewrite <- E1, <- E2. apply Hs2. intros r'.
      rewrite Hl1, E. done.
    + rewrite <- Etcb. apply (Hw2 t (r - 1)); [|lia]. rewrite Hl1, E.
      by destruct (Z.eqb_spec r 1).
  - intros t Ht. destruct (Hs2 t) as [-> ->].
    + intros r. rewrite Hl1. destruct (remaining k t) as [r0|] eqn:E; [|done].
      specialize (Ht r0 eq_refl). destruct (Z.eqb_spec r0 1); [done|]. intros [= <-]. lia.
    + apply Hs1. intros E. specialize (Ht 1 E). lia.
Qed.

(** [n] calls of xTaskIncrementTick, the way the tick interrupt makes them. *)
Fixpoint tick_n (n : nat) (k : Kernel) : option Kernel :=
  match n with
  | O => Some k
  | S n => '(k, _) ← xTaskIncrementTick k; tick_n n k
  end.

Lemma tick_frame_suspended k k' : tick_frame k k' -> uxSchedulerSuspended k' = uxSchedulerSuspended k.
Proof. by intros (? & ? & ? & ? & ? & ? & ? & ->). Qed.

Lemma kbase_yield b k : kbase k -> kbase (set_xYieldPending b k).
Proof. intros Hb. unfold kbase in *. destruct Hb. by split. Qed.
Lemma kblocked_yield b k : kblocked k -> kblocked (set_xYieldPending b k).
Proof. done. Qed.

Lemma tick_n_ok n k : kbase k -> kblocked k -> uxSchedulerSuspended k = 0 ->
  exists k', tick_n n k = Some k' /\ kbase k' /\ kblocked k' /\ tick_frame k k' /\
    nticked (Z.of_nat n) k k' /\ klist k' LTermination = klist k LTermination.
Proof.
  revert k. induction n as [|n IH]; intros k Hb Hblk Hs.
  - exists k. split_and!; try done. by apply nticked_0.
  - simpl tick_n. destruct (xTaskIncrementTick_ok k Hb Hblk Hs) as (k1 & sw & -> & Htk & _).
    cbn [mbind option_bind]. pose proof Htk as [Hb1 Hblk1 _ _ Hf1 _ _ _ Ht1].
    destruct (IH k1 Hb1 Hblk1) as (k2 & -> & ? & ? & Hf2 & Hn2 & Ht2);
      [by rewrite (tick_frame_suspended _ _ Hf1)|].
    exists k2. split_and!; try done.
    + by etrans.
    + rewrite Nat2Z.inj_succ. eapply nticked_step; [done|lia|done|done].
    + by rewrite Ht2.
Qed.

(** The fields that resuming changes besides those of a tick. *)
Definition resume_frame (k k' : Kernel) : Prop := exists b k1,
  tick_frame k k1 /\ k' = set_xYieldPending b k1.
Lemma resume_frame_tick k k' : tick_frame k k' -> resume_frame k k'.
Proof. intros H. exists (xYieldPending k'), k'. split; [done|]. by destruct k'. Qed.
#[export] Instance resume_frame_preorder : PreOrder resume_frame.
Proof.
  split.
  - intros k. by apply resume_frame_tick.
  - intros k1 k2 k3 (b & k1' & H1 & ->) (b' & k2' & (L & T & d & o & n & e & x & ->) & ->).
    exists b', (set_lists L (set_uxTopReadyPriority T (set_xNextTaskUnblockTime e
    (set_pxDelayedTaskList d (set_pxOverflowDelayedTaskList o (set_xNumOfOverflows n
      (set_xTickCount x k1'))))))). split; [|done]. etrans; [exact H1|].
    by exists L, T, d, o, n, e, x.
Qed.
Lemma resume_frame_same k k' : resume_frame k k' ->
  k_tcbs k' = k_tcbs k /\ pxCurrentTCB k' = pxCurrentTCB k /\
  uxSchedulerSuspended k' = uxSchedulerSuspended k /\ uxPendedTicks k' = uxPendedTicks k /\
  uxCurrentNumberOfTasks k' = uxCurrentNumberOfTasks k /\
  uxDeletedTasksWaitingCleanUp k' = uxDeletedTasksWaitingCleanUp k /\ k_yield k' = k_yield k.
Proof. by intros (b & ? & (? & ? & ? & ? & ? & ? & ? & ->) & ->). Qed.

Lemma remaining_yield b k t : remaining (set_xYieldPending b k) t = remaining k t.
Proof. done. Qed.

Lemma nticked_yield n b k k' : nticked n (set_xYieldPending b k) k' -> nticked n k k'.
Proof. by intros []. Qed.

Lemma replay_ok n k : kbase k -> kblocked k -> uxSchedulerSuspended k = 0 ->
  exists k', replay_ticks n k = Some k' /\ kbase k' /\ kblocked k' /\ resume_frame k k' /\
    nticked (Z.of_nat n) k k' /\ klist k' LTermination = klist k LTermination /\
    (xYieldPending k = true -> xYieldPending k' = true).
Proof.
  revert k. induction n as [|n IH]; intros k Hb Hblk Hs.
  - exists k. split_and!; try done. by apply nticked_0.
  - simpl replay_ticks.
    destruct (xTaskIncrementTick_ok k Hb Hblk Hs) as (k1 & sw & -> & Htk & Hsw).
    cbn [mbind option_bind]. pose proof Htk as [Hb1 Hblk1 _ _ Hf1 _ _ _ Ht1].
    set (k1' := if sw then set_xYieldPending true k1 else k1).
    assert (kbase k1' /\ kblocked k1' /\ uxSchedulerSuspended k1' = 0 /\ resume_frame k k1' /\
      klist k1' LTermination = klist k1 LTermination /\
      (forall k2, nticked (Z.of_nat n) k1' k2 -> nticked (Z.of_nat n) k1 k2) /\
      (xYieldPending k = true -> xYieldPending k1' = true)) as (? & ? & ? & Hf & Ht & Hn & Hy).
    { pose proof (tick_frame_suspended _ _ Hf1) as Es. rewrite Hs in Es. subst k1'.
      destruct sw; split_and!; try done.
      - by apply kbase_yield.
      - by exists true, k1.
      - apply nticked_yield.
      - by apply resume_frame_tick.
      - intros Hy. exfalso. destruct Hsw as [_ Hsw]. discriminate Hsw. by left. }
    destruct (IH k1') as (k2 & -> & ? & ? & Hf2 & Hn2 & Ht2 & Hy2); [done..|].
    exists k2. split_and!; try done.
    + by etrans.
    + rewrite Nat2Z.inj_succ. eapply nticked_step; [done|lia|done|by apply Hn].
    + by rewrite Ht2, Ht.
    + auto.
Qed.

(** ** The pending ready list *)

(** The tasks whose event item was on the pending ready list are ready. *)
Record readied (k k' : Kernel) : Prop := mkReadied {
  rd_base : kbase k';
  rd_blocked : kblocked k';
  rd_frame : exists b k1, only_lists k k1 /\ k' = set_xYieldPending b k1;
  rd_empty : klist k' LPendingReady = [];
  rd_woken : forall t, kcontainer k (IEvent t) = Some LPendingReady ->
    kcontainer k' (IState t) = Some (LReady (uxPriority (tcb k t))) /\ kcontainer k' (IEvent t) = None;
  rd_same : forall t, kcontainer k (IEvent t) <> Some LPendingReady ->
    kcontainer k' (IState t) = kcontainer k (IState t) /\
    kcontainer k' (IEvent t) = kcontainer k (IEvent t);
  rd_values : forall i, kvalue k' i = kvalue k i;
  rd_term : klist k' LTermination = klist k LTermination
}.

(** The list of another object or of tasks.c whose head is read: an event item. *)
Lemma event_head {lo} k l : kbase_at lo k -> event_list l ->
  match head_owner l k with
  | None => klist k l = []
  | Some t => kcontainer k (IEvent t) = Some l
  end.
Proof.
  intros Hb Hl. unfold head_owner. destruct (klist k l) as [|i xs] eqn:E; simpl; [done|].
  assert (i ∈ klist k l) as Hi by (rewrite E; by left). apply (elem_klist _ _ _ Hb) in Hi.
  by destruct (event_item _ _ _ Hb Hi Hl) as [t ->].
Qed.

Lemma blocked_facts k t : kblocked k -> kcontainer k (IEvent t) <> None ->
  (forall p, kcontainer k (IState t) <> Some (LReady p)) /\
  kcontainer k (IState t) <> Some LTermination /\
  exists l, kcontainer k (IState t) = Some l.
Proof. intros Hblk Ht. destruct (Hblk t Ht) as [-> | ->]; split_and!; eauto; congruence. Qed.

Lemma wake_event_first {lo} k t l : kbase_at lo k -> kblocked k ->
  kcontainer k (IEvent t) = Some l ->
  exists k', ('(k1, _) ← uxListRemove (IEvent t) k; '(k2, _) ← uxListRemove (IState t) k1;
              Some (prvAddTaskToReadyList t k2)) = Some k' /\
    kbase_at lo k' /\ kblocked k' /\ woken t k k'.
Proof.
  intros Hb Hblk Ht. assert (kcontainer k (IEvent t) <> None) as Hne by congruence.
  destruct (blocked_facts _ _ Hblk Hne) as (Hnr & Hnt & ls & Hs).
  pose proof (ki_event Hb _ _ Ht) as [Hlive _].
  destruct (wake_ok k t _ Hb (unlink_event_state t) Hlive Hnr Hnt) as [Hb' Hwk].
  rewrite (uxListRemove_eq _ _ _ Ht). cbn [mbind option_bind].
  rewrite (uxListRemove_eq _ _ ls); [|unfold kcontainer; simpl; by rewrite container_lRemove, decide_False].
  cbn [mbind option_bind]. eexists. split; [reflexivity|]. split_and!; [exact Hb'| |exact Hwk].
  by eapply kblocked_woken.
Qed.

Lemma ready_pending_ok fuel last k : kbase k -> kblocked k ->
  (length (klist k LPendingReady) <= fuel)%nat ->
  exists k' last', ready_pending fuel last k = Some (k', last') /\ readied k k' /\
    (klist k LPendingReady = [] -> k' = k /\ last' = last) /\
    (xYieldPending k = true -> xYieldPending k' = true).
Proof.
  revert last k. induction fuel as [|fuel IH]; intros last k Hb Hblk Hf;
    pose proof (event_head k LPendingReady Hb I) as Hhd; simpl;
    destruct (head_owner LPendingReady k) as [t|] eqn:Eh.
  { apply (elem_klist _ _ _ Hb) in Hhd. destruct (klist k LPendingReady); [by apply elem_of_nil in Hhd|].
    simpl in Hf. lia. }
  1,3: exists k, last; split; [done|]; split; [|done]; split; try done;
    [exists (xYieldPending k), k; split; [reflexivity|by destruct k]|];
    intros t E; exfalso; by apply ((proj1 (klist_nil _ _ Hb) Hhd) (IEvent t)).
  destruct (wake_event_first _ _ _ Hb Hblk Hhd) as (k1 & E1 & Hb1 & Hblk1 & Hwk).
  destruct (uxListRemove (IEvent t) k) as [[ka na]|]; [|done]. simpl in E1 |- *.
  destruct (uxListRemove (IState t) ka) as [[kb nb]|]; [|done]. simpl in E1 |- *.
  injection E1 as ->. pose proof Hwk as [Ho Hst Hev Hoth Hval Hterm].
  set (k2 := if _ >=? _ then set_xYieldPending true k1 else k1).
  assert (kbase k2 /\ kblocked k2 /\ (exists b, k2 = set_xYieldPending b k1) /\
    (xYieldPending k = true -> xYieldPending k2 = true)) as (Hb2 & Hblk2 & (b & E2) & Hy2).
  { assert (kbase k1) by (by eapply only_lists_kbase).
    subst k2. destruct (_ >=? _); split_and!; try done.
    - by apply kbase_yield.
    - by exists true.
    - exists (xYieldPending k1). by destruct k1.
    - by destruct Ho as (? & ? & ? & ->). }
  clearbody k2.
  assert (forall i, kcontainer k2 i = kcontainer k1 i) as Hc2 by (by rewrite E2).
  destruct (IH (Some t) k2 Hb2 Hblk2) as (k3 & last3 & -> & Hrd & _ & Hy3).
  { pose proof (klist_shrinks k k2 LPendingReady (IEvent t) Hb Hb2 Hhd) as Hlen. simpl in Hlen.
    assert (forall i, kcontainer k2 i = Some LPendingReady ->
      kcontainer k i = Some LPendingReady /\ i <> IEvent t) as Hsub; [|specialize (Hlen Hsub); lia].
    intros i. rewrite Hc2. destruct (decide (i = IState t)) as [->|]; [by rewrite Hst|].
    destruct (decide (i = IEvent t)) as [->|]; [by rewrite Hev|]. by rewrite Hoth. }
  exists k3, last3. split; [done|]. split; [|split; [|auto]].
  2:{ intros E. apply (klist_nil _ _ Hb) with (i := IEvent t) in E. done. }
  destruct Hrd as [Hb3 Hblk3 (b3 & k3' & (L & T & N & ->) & ->) He3 Hw3 Hs3 Hv3 Ht3].
  assert (forall t', tcb k2 t' = tcb k t') as Etcb by (rewrite E2; by destruct Ho as (? & ? & ? & ->)).
  split; try done.
  - destruct Ho as (L' & T' & N' & E1). rewrite E2, E1.
    exists b3, (set_lists L (set_uxTopReadyPriority T (set_xNextTaskUnblockTime N k))).
    split; [by exists L, T, N|done].
  - intros t' Ht'. destruct (decide (t' = t)) as [->|Hne].
    + destruct (Hs3 t) as [-> ->]; [by rewrite Hc2, Hev|]. by rewrite !Hc2.
    + rewrite <- Etcb. apply Hw3. by rewrite Hc2, Hoth by congruence.
  - intros t' Ht'. assert (t' <> t) by congruence.
    destruct (Hs3 t') as [-> ->]; [by rewrite Hc2, Hoth by congruence|].
    by rewrite !Hc2, !Hoth by congruence.
  - intros i. rewrite Hv3, E2. apply Hval.
  - rewrite Ht3, E2. apply Hterm.
Qed.

Lemma reset_next_ok k : kbase k ->
  exists e, prvResetNextTaskUnblockTime k = set_xNextTaskUnblockTime e k /\
    kbase (set_xNextTaskUnblockTime e k).
Proof.
  intros Hb. destruct (delayed_is _ Hb) as (Hd & _ & _). pose proof (sorted_head _ _ Hb Hd) as Hhd.
  unfold prvResetNextTaskUnblockTime.
  destruct (head_owner (pxDelayedTaskList k) k) as [t|]; eexists; (split; [reflexivity|]).
  - destruct Hhd as [Ht Hm]. pose proof (ki_tick Hb). destruct (ki_due Hb _ Ht).
    eapply (kbase_set_next (xTickCount k)); [exact Hb|lia|]. intros t' Ht'. specialize (Hm t' Ht').
    destruct (ki_due Hb _ Ht'). lia.
  - eapply (kbase_set_next (xTickCount k)); [exact Hb|done|]. intros t' ?%Hhd. done.
Qed.

(** ** xTaskResumeAll *)

(** What resuming means for every task: a task on the pending ready list is
    ready, one whose time out passed while the scheduler was suspended is
    ready, every other one is where it was and has that much less time. *)
Record resumed (k k' : Kernel) : Prop := mkResumed {
  rs_tcbs : k_tcbs k' = k_tcbs k;
  rs_current : pxCurrentTCB k' = pxCurrentTCB k;
  rs_tick : xTickCount k' = u32 (xTickCount k + uxPendedTicks k);
  rs_pending : forall t, kcontainer k (IEvent t) = Some LPendingReady ->
    kcontainer k' (IState t) = Some (LReady (uxPriority (tcb k t))) /\ kcontainer k' (IEvent t) = None;
  rs_timeout : forall t r, remaining k t = Some r -> r <= uxPendedTicks k ->
    kcontainer k' (IState t) = Some (LReady (uxPriority (tcb k t))) /\ kcontainer k' (IEvent t) = None;
  rs_same : forall t, kcontainer k (IEvent t) <> Some LPendingReady ->
    (forall r, remaining k t = Some r -> uxPendedTicks k < r) ->
    kcontainer k' (IState t) = kcontainer k (IState t) /\
    kcontainer k' (IEvent t) = kcontainer k (IEvent t);
  rs_left : forall t, remaining k' t =
    if decide (kcontainer k (IEvent t) = Some LPendingReady) then None else
    match remaining k t with
    | Some r => if r <=? uxPendedTicks k then None else Some (r - uxPendedTicks k)
    | None => None
    end;
  rs_yield : k_yield k' = (k_yield k || xYieldPending k')
}.

(** What the middle of xTaskResumeAll does, with the scheduler running again. *)
Definition resume_body (k : Kernel) : option Kernel :=
  '(k, last) ← ready_pending (length (klist k LPendingReady)) None k;
  let k := match last with Some _ => prvResetNextTaskUnblockTime k | None => k end in
  if uxPendedTicks k >? 0 then
    k ← replay_ticks (Z.to_nat (uxPendedTicks k)) k;
    Some (set_uxPendedTicks 0 k)
  else Some k.

Lemma kbase_pended n k : kbase k -> kbase (set_uxPendedTicks n k).
Proof. intros Hb. unfold kbase in *. destruct Hb. by split. Qed.
Lemma set_pended_id k : set_uxPendedTicks (uxPendedTicks k) k = k.
Proof. by destruct k. Qed.
Lemma kbase_suspended n k : kbase k -> kbase (set_uxSchedulerSuspended n k).
Proof. intros Hb. unfold kbase in *. destruct Hb. by split. Qed.
Lemma kinv_suspended_once k : kinv k -> uxSchedulerSuspended k = 0 -> kinv (set_uxSchedulerSuspended 1 k).
Proof. intros [Hb Hblk [? ? ? ? ?]] Hs. split; [by apply kbase_suspended|done|]. by split. Qed.

Lemma resume_body_ok k : kbase k -> kblocked k -> uxSchedulerSuspended k = 0 ->
  0 <= uxPendedTicks k < 4294967296 ->
  exists k' km, resume_body k = Some (set_uxPendedTicks 0 k') /\
    readied k km /\ kbase k' /\ kblocked k' /\ resume_frame k k' /\
    nticked (uxPendedTicks k) km k' /\ klist k' LTermination = klist k LTermination.
Proof.
  intros Hb Hblk Hs Hp. unfold resume_body.
  destruct (ready_pending_ok (length (klist k LPendingReady)) None k Hb Hblk)
    as (k1 & last & -> & Hrd & _); [lia|]. cbn [mbind option_bind].
  pose proof Hrd as [Hb1 Hblk1 (b & k1' & Ho1 & E1) He1 Hw1 Hs1 Hv1 Ht1].
  set (km := match last with Some _ => prvResetNextTaskUnblockTime k1 | None => k1 end).
  assert (exists e, km = set_xNextTaskUnblockTime e k1 /\ kbase km) as (e & Em & Hbm).
  { subst km. destruct last as [t|].
    - destruct (reset_next_ok k1 Hb1) as (e & -> & ?). by exists e.
    - exists (xNextTaskUnblockTime k1). split; [by destruct k1|done]. }
  assert (readied k km) as Hrdm.
  { split; rewrite ?Em; try done; [by rewrite <- Em|].
    destruct Ho1 as (L & T & N & ->). rewrite E1.
    exists b, (set_lists L (set_uxTopReadyPriority T (set_xNextTaskUnblockTime e k))).
    split; [by exists L, T, e|done]. }
  assert (resume_frame k km) as Hfm.
  { destruct Hrdm as [_ _ (b' & k2 & Ho & ->) _ _ _ _ _]. exists b', k2. split; [|done].
    by apply only_lists_tick. }
  pose proof (resume_frame_same _ _ Hfm) as (_ & _ & Esus & Epend & _).
  rewrite Epend. rewrite Z.gtb_ltb. destruct (Z.ltb_spec 0 (uxPendedTicks k)) as [Hpos|Hzero].
  - destruct (replay_ok (Z.to_nat (uxPendedTicks k)) km) as (k' & -> & ? & ? & Hf' & Hn & Ht' & _);
      [done|apply Hrdm|congruence|]. cbn [mbind option_bind].
    exists k', km. split_and!; try done.
    + by etrans.
    + by rewrite Z2Nat.id in Hn by lia.
    + rewrite Ht'. apply Hrdm.
  - assert (uxPendedTicks k = 0) as E0 by lia.
    exists km, km. split_and!; try done; [|apply Hrdm| |apply Hrdm].
    + rewrite <- E0, <- Epend. by rewrite set_pended_id.
    + rewrite E0. by apply nticked_0.
Qed.

Lemma readied_remaining k km t : readied k km -> kbase k ->
  remaining km t = if decide (kcontainer k (IEvent t) = Some LPendingReady) then None else remaining k t.
Proof.
  intros [Hb _ (b & k1 & (L & T & N & ->) & ->) _ Hw Hs Hv _] Hbk. case_decide as Hd.
  - destruct (Hw t Hd) as [E _]. unfold remaining. rewrite E.
    destruct (delayed_is _ Hb) as ([E1|E1] & [E2|E2] & _); rewrite E1, E2; done.
  - destruct (Hs t Hd) as [E _]. unfold remaining. rewrite E, Hv. done.
Qed.

Lemma xTaskResumeAll_eq k : xTaskResumeAll k =
  let k := set_uxSchedulerSuspended (u32 (uxSchedulerSuspended k - 1)) k in
  if uxSchedulerSuspended k =? 0 then
    if uxCurrentNumberOfTasks k >? 0 then
      k ← resume_body k; Some (if xYieldPending k then (portYIELD k, true) else (k, false))
    else Some (k, false)
  else Some (k, false).
Proof.
  unfold xTaskResumeAll, resume_body. simpl.
  destruct (u32 (uxSchedulerSuspended k - 1) =? 0); [|done].
  destruct (uxCurrentNumberOfTasks k >? 0); [|done].
  match goal with |- context [ready_pending ?f ?l ?k0] =>
    destruct (ready_pending f l k0) as [[k1 last]|] end; [|done]. simpl.
  by destruct (_ >? 0).
Qed.

Lemma resumed_from k km k1 k' :
  readied (set_uxSchedulerSuspended 0 k) km -> kbase (set_uxSchedulerSuspended 0 k) ->
  nticked (uxPendedTicks k) km k1 -> k_tcbs km = k_tcbs k ->
  k_tcbs k' = k_tcbs k -> pxCurrentTCB k' = pxCurrentTCB k ->
  xTickCount k' = xTickCount k1 -> (forall i, kcontainer k' i = kcontainer k1 i) ->
  (forall t, remaining k' t = remaining k1 t) -> k_yield k' = (k_yield k || xYieldPending k') ->
  xTickCount km = xTickCount k ->
  resumed k k'.
Proof.
  intros Hrd Hb0 [Hc Hl Hw Hs] Em Et Ecur Etick Hcont Hrem Hy Etm.
  pose proof (fun t => readied_remaining _ _ t Hrd Hb0) as Hrm.
  change (remaining (set_uxSchedulerSuspended 0 k)) with (remaining k) in Hrm.
  change (kcontainer (set_uxSchedulerSuspended 0 k)) with (kcontainer k) in Hrm.
  destruct Hrd as [_ _ _ _ Hw1 Hs1 _ _].
  change (kcontainer (set_uxSchedulerSuspended 0 k)) with (kcontainer k) in Hw1, Hs1.
  assert (forall t, tcb km t = tcb k t) as Etcb by (intros; unfold tcb; by rewrite Em).
  split; try done.
  - by rewrite Etick, Hc, Etm.
  - intros t Ht. rewrite !Hcont. specialize (Hw1 t Ht). destruct (Hs t) as [-> ->]; [|done].
    intros r. by rewrite Hrm, decide_True.
  - intros t r Hr Hle. rewrite !Hcont.
    destruct (decide (kcontainer k (IEvent t) = Some LPendingReady)) as [Hp|Hp].
    + specialize (Hw1 t Hp). destruct (Hs t) as [-> ->]; [|done]. intros r'. by rewrite Hrm, decide_True.
    + rewrite <- Etcb. apply (Hw t r); [|done]. by rewrite Hrm, decide_False.
  - intros t Hp Ht. rewrite !Hcont. destruct (Hs t) as [-> ->]; [|by apply Hs1].
    intros r. rewrite Hrm, decide_False by done. apply Ht.
  - intros t. rewrite Hrem, Hl, Hrm. by case_decide.
Qed.

Lemma kinv_yield y k : kinv k -> kinv (set_yield y k).
Proof.
  intros [Hb Hblk Hc]. split; [|done|].
  - unfold kbase in *. destruct Hb. by split.
  - destruct Hc. by split.
Qed.

(** Resuming for good: the caller had suspended the scheduler once. *)
Lemma resume_last k : kinv k -> uxSchedulerSuspended k = 1 -> uxCurrentNumberOfTasks k > 0 ->
  exists k' y, xTaskResumeAll k = Some (k', y) /\ kinv k' /\ resumed k k' /\
    uxSchedulerSuspended k' = 0 /\ y = xYieldPending k'.
Proof.
  intros [Hb Hblk [[Hc1 Hc1'] Hc2 Hc3 Hc4 Hc5]] Hs Hn.
  rewrite xTaskResumeAll_eq, Hs. change (u32 (1 - 1)) with 0. simpl.
  set (k0 := set_uxSchedulerSuspended 0 k).
  rewrite Z.gtb_ltb. destruct (Z.ltb_spec 0 (uxCurrentNumberOfTasks k)); [|lia].
  destruct (resume_body_ok k0) as (k1 & km & -> & Hrd & Hb1 & Hblk1 & Hf1 & Hn1 & Ht1);
    [by apply kbase_suspended|done..|]. cbn [mbind option_bind].
  pose proof (resume_frame_same _ _ Hf1) as (Et & Ecur & Esus & Epend & Enum & Edel & Ey).
  set (k2 := set_uxPendedTicks 0 k1).
  assert (kinv k2) as Hinv2.
  { split; [by apply kbase_pended|done|]. split; simpl.
    - by rewrite Enum, Et.
    - rewrite Edel. change (klist k2 LTermination) with (klist k1 LTermination). by rewrite Ht1.
    - rewrite Esus. simpl. lia.
    - done.
    - intros _. split; [|done]. apply (klist_nil _ _ (kbase_pended 0 _ Hb1)). intros i Hi.
      destruct (event_item _ _ _ (kbase_pended 0 _ Hb1) Hi I) as [t ->].
      change (kcontainer k1 (IEvent t) = Some LPendingReady) in Hi.
      assert (kcontainer km (IEvent t) <> Some LPendingReady) as Hm.
      { intros E. by apply (proj1 (klist_nil _ _ (rd_base _ _ Hrd)) (rd_empty _ _ Hrd) (IEvent t)). }
      destruct (remaining km t) as [r|] eqn:Er.
      + destruct (Z.leb_spec r (uxPendedTicks k0)) as [Hle|Hgt].
        * destruct (nt_woken _ _ _ Hn1 t r Er Hle). congruence.
        * destruct (nt_same _ _ _ Hn1 t) as [_ E]; [intros r'; rewrite Er; intros [= <-]; done|].
          congruence.
      + destruct (nt_same _ _ _ Hn1 t) as [_ E]; [by rewrite Er|]. congruence. }
  pose proof (rd_frame _ _ Hrd) as (b & km' & (L & T & N & Em') & Em).
  set (k3 := if xYieldPending k2 then portYIELD k2 else k2).
  assert (resumed k k3) as Hres.
  { apply (resumed_from k km k1); try done; try (by rewrite Em, Em').
    { by apply kbase_suspended. }
    all: subst k3; destruct (xYieldPending k2) eqn:E; simpl; try done.
    all: simpl in E; rewrite E, ?Ey; by rewrite ?orb_true_r, ?orb_false_r. }
  exists k3, (xYieldPending k2). subst k3. destruct (xYieldPending k2) eqn:E.
  - split_and!; try done; by apply kinv_yield.
  - by split_and!.
Qed.

(** ** A tick outside of a suspension keeps the whole invariant *)

Lemma no_pending k : kinv k -> uxSchedulerSuspended k = 0 ->
  forall t, kcontainer k (IEvent t) <> Some LPendingReady.
Proof.
  intros [Hb _ Hc] Hs t. by apply (klist_nil _ _ Hb), (kc_quiet _ Hc).
Qed.

Lemma ticked_kinv k k' : kinv k -> uxSchedulerSuspended k = 0 -> ticked k k' -> kinv k'.
Proof.
  intros Hinv Hs [Hb' Hblk' _ _ Hf _ Hw Hsame Ht]. pose proof (no_pending k Hinv Hs) as Hnp.
  destruct Hinv as [_ _ [Hc1 Hc2 Hc3 Hc4 Hc5]].
  assert (klist k' LPendingReady = []) as Hnil.
  { apply (klist_nil _ _ Hb'). intros i Hi. destruct (event_item _ _ _ Hb' Hi I) as [t ->].
    destruct (decide (remaining k t = Some 1)) as [Hr|Hr].
    - destruct (Hw t Hr). congruence.
    - destruct (Hsame t Hr) as [_ E]. rewrite E in Hi. by apply (Hnp t). }
  destruct Hf as (L & T & d & o & n & e & x & E). split; [done|done|].
  split; try (rewrite E; done).
  - by rewrite Ht, E.
  - intros _. split; [done|]. rewrite E. by apply Hc5.
Qed.

(** C6: outside of a suspension a tick preserves the invariant and takes one
    off the time every waiting task has left: exactly the tasks with one tick
    left become ready and leave their event list, and the tick asks for a
    context switch exactly when one is pending, a woken task has at least the
    running task's priority, or the running task shares its priority. *)
Theorem tick_wakes_exactly k :
  kinv k -> uxSchedulerSuspended k = 0 ->
  exists k' sw, xTaskIncrementTick k = Some (k', sw) /\ kinv k' /\
    xTickCount k' = u32 (xTickCount k + 1) /\
    (forall t, remaining k' t =
       match remaining k t with Some r => if r =? 1 then None else Some (r - 1) | None => None end) /\
    (forall t, remaining k t = Some 1 ->
       kcontainer k' (IState t) = Some (LReady (uxPriority (tcb k t))) /\
       kcontainer k' (IEvent t) = None) /\
    (forall t, remaining k t <> Some 1 ->
       kcontainer k' (IState t) = kcontainer k (IState t) /\
       kcontainer k' (IEvent t) = kcontainer k (IEvent t)) /\
    (sw = true <-> xYieldPending k = true \/
       (exists t, remaining k t = Some 1 /\ uxPriority (tcb k t) >= cur_prio k) \/
       list_length (LReady (cur_prio k)) k' > 1).
Proof.
  intros Hinv Hs. destruct (xTaskIncrementTick_ok k) as (k' & sw & E & Htk & Hsw); [apply Hinv..|done|].
  exists k', sw. pose proof (ticked_kinv _ _ Hinv Hs Htk). destruct Htk. by split_and!.
Qed.

(** ** vTaskDelay *)

Lemma suspend_delay k w : kinv k -> running k -> uxSchedulerSuspended k = 0 -> 0 < w < 4294967296 ->
  exists k1, prvAddCurrentTaskToDelayedList w (vTaskSuspendAll k) = Some k1 /\ kinv k1 /\
    uxSchedulerSuspended k1 = 1 /\ uxPendedTicks k1 = 0 /\ k_tcbs k1 = k_tcbs k /\
    uxCurrentNumberOfTasks k1 = uxCurrentNumberOfTasks k /\ xTickCount k1 = xTickCount k /\
    pxCurrentTCB k1 = pxCurrentTCB k /\ remaining k1 (pxCurrentTCB k) = Some w /\
    (forall t, kcontainer k1 (IEvent t) = kcontainer k (IEvent t)).
Proof.
  intros Hinv Hrun Hs Hw. pose proof Hinv as [Hb Hblk [Hc1 Hc2 Hc3 Hc4 Hc5]].
  destruct (Hc5 Hs) as [Hnil Hp0].
  unfold vTaskSuspendAll. rewrite Hs. change (u32 (0 + 1)) with 1.
  set (k0 := set_uxSchedulerSuspended 1 k).
  assert (kbase k0) as Hb0 by (by apply kbase_suspended).
  destruct (delay_current k0 w Hb0 Hrun Hw) as (k1 & E & Hb1 & Ho & Hst & Hv & Hoth & Ht).
  exists k1. split; [done|].
  assert (forall t, kcontainer k1 (IEvent t) = kcontainer k (IEvent t)) as Hev
    by (intros t; by destruct (Hoth (IEvent t)) as [-> _]).
  assert (forall t, kcontainer k (IEvent t) <> None -> t <> pxCurrentTCB k) as Hncur.
  { intros t He ->. destruct (Hblk _ He) as [E'|E']; unfold running in Hrun; congruence. }
  assert (kblocked k1) as Hblk1.
  { intros t. rewrite Hev. intros He. destruct (Hoth (IState t)) as [-> _]; [|by apply Hblk].
    intros [= ->]. by apply (Hncur _ He). }
  assert (kbase k1) as Hb1' by (by eapply only_lists_kbase).
  assert (klist k1 LPendingReady = []) as Hnil1.
  { apply (klist_nil _ _ Hb1). intros i Hi. destruct (event_item _ _ _ Hb1 Hi I) as [t ->].
    rewrite Hev in Hi. by apply ((proj1 (klist_nil _ _ Hb) Hnil) (IEvent t)). }
  assert (remaining k1 (pxCurrentTCB k) = Some w) as Hrem.
  { unfold remaining. change (pxCurrentTCB k0) with (pxCurrentTCB k) in *. rewrite Hst, Hv.
    destruct (delayed_is _ Hb) as (_ & _ & Hne). pose proof (ki_tick Hb) as Htick.
    destruct Ho as (L & T & N & ->). simpl. change (xTickCount k0) with (xTickCount k).
    destruct (Z.ltb_spec (u32 (xTickCount k + w)) (xTickCount k)).
    - rewrite decide_False, decide_True by congruence. f_equal. wrap_lia.
    - rewrite decide_True by done. f_equal. wrap_lia. }
  split; [|destruct Ho as (L & T & N & Ek); split_and!; try (by rewrite Ek); try done].
  split; [done..|]. destruct Ho as (L & T & N & Ek).
  split; try (by rewrite Ek). by rewrite Ht, Ek.
Qed.

Lemma kinv_tasks k t : kinv k -> live k t -> uxCurrentNumberOfTasks k > 0.
Proof.
  intros [_ _ [[-> _] _ _ _ _]] [c Hc].
  assert (size (k_tcbs k) <> 0%nat); [|lia]. intros E%map_size_empty_iff.
  by rewrite E, lookup_empty in Hc.
Qed.

Lemma running_live k : kinv k -> running k -> live k (pxCurrentTCB k).
Proof. intros [Hb _ _] Hr. by apply (ki_state Hb _ _ Hr). Qed.

Lemma tick_n_kinv n k : kinv k -> uxSchedulerSuspended k = 0 ->
  exists k', tick_n n k = Some k' /\ kinv k' /\ nticked (Z.of_nat n) k k' /\ tick_frame k k'.
Proof.
  revert k. induction n as [|n IH]; intros k Hinv Hs.
  - exists k. split_and!; try done. by apply nticked_0, Hinv.
  - simpl tick_n. pose proof Hinv as [Hb Hblk _].
    destruct (xTaskIncrementTick_ok k Hb Hblk Hs) as (k1 & sw & -> & Htk & _).
    cbn [mbind option_bind]. pose proof (ticked_kinv _ _ Hinv Hs Htk) as Hinv1.
    destruct (IH k1 Hinv1) as (k2 & -> & ? & Hn & Hf2);
      [by rewrite (tick_frame_suspended _ _ (tk_frame _ _ Htk))|].
    exists k2. split_and!; try done.
    + rewrite Nat2Z.inj_succ. eapply nticked_step; [done|lia|done|done].
    + etrans; [apply Htk|done].
Qed.

(** C7: a running task that delays itself by [w] ticks asks for a context
    switch and is off its ready list for exactly [w] ticks of the interrupt,
    also when the tick count overflows on the way, and then is ready. *)
Theorem delay_wakes_on_time k w :
  kinv k -> running k -> uxSchedulerSuspended k = 0 -> 0 < w < 4294967296 ->
  let t := pxCurrentTCB k in
  exists k1, vTaskDelay w k = Some k1 /\ kinv k1 /\ k_yield k1 = true /\
    remaining k1 t = Some w /\
    forall n, exists k2, tick_n n k1 = Some k2 /\ kinv k2 /\
      (Z.of_nat n < w -> remaining k2 t = Some (w - Z.of_nat n)) /\
      (w <= Z.of_nat n -> kcontainer k2 (IState t) = Some (LReady (uxPriority (tcb k t)))).
Proof.
  intros Hinv Hrun Hs Hw t.
  destruct (suspend_delay k w Hinv Hrun Hs Hw)
    as (k1 & E1 & Hinv1 & Hs1 & Hp1 & Et1 & En1 & _ & _ & Hrem1 & Hev1).
  fold t in Hrem1.
  assert (uxCurrentNumberOfTasks k1 > 0) as Hn
    by (rewrite En1; by apply (kinv_tasks k t Hinv), running_live).
  destruct (resume_last k1 Hinv1 Hs1 Hn) as (k2 & y & E2 & Hinv2 & Hres & Hs2 & Hy).
  unfold vTaskDelay. rewrite Z.gtb_ltb. destruct (Z.ltb_spec 0 w); [|lia].
  rewrite E1. cbn [mbind option_bind]. rewrite E2. cbn [mbind option_bind].
  set (k3 := if y then k2 else portYIELD k2).
  assert (kinv k3 /\ uxSchedulerSuspended k3 = 0 /\ remaining k3 t = remaining k2 t /\
    k_tcbs k3 = k_tcbs k2) as (Hinv3 & Hs3 & Hr3 & Et3)
    by (subst k3; destruct y; split_and!; try done; by apply kinv_yield).
  assert (k_yield k3 = true) as Hy3.
  { subst k3. destruct y; [|done]. rewrite (rs_yield _ _ Hres), <- Hy. apply orb_true_r. }
  assert (remaining k3 t = Some w) as Hrem3.
  { rewrite Hr3, (rs_left _ _ Hres), decide_False.
    - rewrite Hrem1, Hp1. destruct (Z.leb_spec w 0); [lia|]. f_equal. lia.
    - rewrite Hev1. by apply no_pending. }
  assert (tcb k3 t = tcb k t) as Etcb by (unfold tcb; by rewrite Et3, (rs_tcbs _ _ Hres), Et1).
  exists k3. split_and!; try done. intros n.
  destruct (tick_n_kinv n k3 Hinv3 Hs3) as (k4 & E4 & Hinv4 & Hn4 & _).
  exists k4. split_and!; try done.
  - intros Hlt. rewrite (nt_left _ _ _ Hn4), Hrem3. by destruct (Z.leb_spec w (Z.of_nat n)); [lia|].
  - intros Hge. rewrite <- Etcb. by apply (nt_woken _ _ _ Hn4 t w).
Qed.

(** [n] tick interrupts, and whether one of them asked for a switch. *)
Fixpoint sys_ticks (n : nat) (k : Kernel) : option (Kernel * bool) :=
  match n with
  | O => Some (k, false)
  | S n => '(k, sw) ← xPortSysTickHandler k; '(k, y) ← sys_ticks n k; Some (k, sw || y)
  end.

(** A tick neither reads nor writes the requested switch and the held back
    ticks, and only reads the pending yield. *)
Definition over (y z : bool) (m : Z) (k : Kernel) : Kernel := set_xYieldPending y (set_yield z (set_uxPendedTicks m k)).
Definition over_run {A} (y z : bool) (m : Z) (r : option (Kernel * A)) : option (Kernel * A) := '(k, a) ← r; Some (over y z m k, a).

Lemma unblock_due_over fuel sw y z m k : unblock_due fuel sw (over y z m k) = over_run y z m (unblock_due fuel sw k).
Proof.
  revert sw k. induction fuel as [|fuel IH]; intros sw k; [done|]. cbn [unblock_due].
  change (head_owner (pxDelayedTaskList (over y z m k)) (over y z m k)) with (head_owner (pxDelayedTaskList k) k).
  destruct (head_owner (pxDelayedTaskList k) k) as [t|]; [|done].
  change (xTickCount (over y z m k)) with (xTickCount k). change (kvalue (over y z m k) (IState t)) with (kvalue k (IState t)).
  destruct (xTickCount k <? kvalue k (IState t)); [done|]. unfold uxListRemove at 1 2.
  change (kcontainer (over y z m k) (IState t)) with (kcontainer k (IState t)). destruct (kcontainer k (IState t)) as [l|]; [|done].
  cbn [mbind option_bind]. set (k1 := on_lists (lRemove (IState t)) k).
  change (on_lists (lRemove (IState t)) (over y z m k)) with (over y z m k1).
  assert (remove_event_item t (over y z m k1) = k2 ← remove_event_item t k1; Some (over y z m k2)) as ->.
  { unfold remove_event_item, uxListRemove. change (kcontainer (over y z m k1)) with (kcontainer k1).
    by destruct (kcontainer k1 (IEvent t)). }
  destruct (remove_event_item t k1) as [k2|]; [|done]. cbn [mbind option_bind].
  change (prvAddTaskToReadyList t (over y z m k2)) with (over y z m (prvAddTaskToReadyList t k2)). apply IH.
Qed.

(** A tick outside of a suspension, before it looks at the pending yield. *)
Definition tick_core (k : Kernel) : option (Kernel * bool) :=
  let k := set_xTickCount (u32 (xTickCount k + 1)) k in
  let k := if xTickCount k =? 0 then taskSWITCH_DELAYED_LISTS k else k in
  '(k, sw) ← (if xTickCount k >=? xNextTaskUnblockTime k
              then unblock_due (S (length (klist k (pxDelayedTaskList k)))) false k else Some (k, false));
  Some (k, if list_length (LReady (uxPriority (tcb k (pxCurrentTCB k)))) k >? 1 then true else sw).
Lemma xTaskIncrementTick_core k : uxSchedulerSuspended k = 0 ->
  xTaskIncrementTick k = '(k, sw) ← tick_core k; Some (k, if xYieldPending k then true else sw).
Proof. intros Hs. unfold xTaskIncrementTick. by rewrite Hs. Qed.

Lemma tick_core_over y z m k : tick_core (over y z m k) = over_run y z m (tick_core k).
Proof.
  unfold tick_core. cbv zeta. set (k1 := set_xTickCount (u32 (xTickCount k + 1)) k).
  change (set_xTickCount (u32 (xTickCount (over y z m k) + 1)) (over y z m k)) with (over y z m k1).
  change (xTickCount (over y z m k1)) with (xTickCount k1).
  assert ((if xTickCount k1 =? 0 then taskSWITCH_DELAYED_LISTS (over y z m k1) else over y z m k1) =
    over y z m (if xTickCount k1 =? 0 then taskSWITCH_DELAYED_LISTS k1 else k1)) as ->.
  { destruct (xTickCount k1 =? 0); [|done]. unfold taskSWITCH_DELAYED_LISTS, prvResetNextTaskUnblockTime.
    set (k2 := set_xNumOfOverflows _ _). set (k3 := set_xNumOfOverflows _ _). change k2 with (over y z m k3).
    change (head_owner (pxDelayedTaskList (over y z m k3)) (over y z m k3)) with (head_owner (pxDelayedTaskList k3) k3).
    by destruct (head_owner (pxDelayedTaskList k3) k3). }
  set (k2 := if xTickCount k1 =? 0 then _ else _).
  change (xTickCount (over y z m k2) >=? xNextTaskUnblockTime (over y z m k2)) with (xTickCount k2 >=? xNextTaskUnblockTime k2).
  change (klist (over y z m k2) (pxDelayedTaskList (over y z m k2))) with (klist k2 (pxDelayedTaskList k2)).
  destruct (xTickCount k2 >=? xNextTaskUnblockTime k2); [|done]. rewrite unblock_due_over.
  by destruct (unblock_due _ false k2) as [[k3 sw]|].
Qed.

(** The pending yield counts as a request of every tick. *)
Lemma tick_over y z m k k1 sw : uxSchedulerSuspended k = 0 -> (xYieldPending k = true -> y = true) ->
  xTaskIncrementTick k = Some (k1, sw) -> xYieldPending k1 = xYieldPending k ->
  xTaskIncrementTick (over y z m k) = Some (over y z m k1, y || sw).
Proof.
  intros Hs Hy. rewrite !xTaskIncrementTick_core by done. rewrite tick_core_over.
  destruct (tick_core k) as [[k' s]|]; [|done]. cbn [over_run mbind option_bind]. intros [= -> <-] Hk. rewrite Hk. cbn [xYieldPending over].
  do 2 f_equal. destruct (xYieldPending k); [by rewrite Hy|]. change (xYieldPending (over y z m k1)) with y. by destruct y.
Qed.

Lemma sys_ticks_ok n k : kinv k -> uxSchedulerSuspended k = 0 ->
  exists k' y, sys_ticks n k = Some (k', y) /\ kinv k' /\ uxSchedulerSuspended k' = 0 /\ xYieldPending k' = xYieldPending k /\
    k_yield k' = k_yield k || y /\
    forall y0 z m, (xYieldPending k = true -> y0 = true) -> replay_ticks n (over y0 z m k) = Some (over (y0 || y) z m k').
Proof.
  revert k. induction n as [|n IH]; intros k Hinv Hs.
  { exists k, false. rewrite orb_false_r. split_and!; try done. intros y0 z m _. by rewrite orb_false_r. }
  cbn [sys_ticks replay_ticks]. unfold xPortSysTickHandler. pose proof Hinv as [Hb Hblk _].
  destruct (xTaskIncrementTick_ok k Hb Hblk Hs) as (k1 & sw & E & Htk & _). pose proof (ticked_kinv _ _ Hinv Hs Htk) as Hinv1.
  assert (uxSchedulerSuspended k1 = 0 /\ xYieldPending k1 = xYieldPending k /\ k_yield k1 = k_yield k) as (Hs1 & Hy1 & Hk1)
    by (destruct (tk_frame _ _ Htk) as (? & ? & ? & ? & ? & ? & ? & ->); done).
  rewrite E. cbn [mbind option_bind]. set (k2 := if sw then portYIELD k1 else k1).
  assert (kinv k2 /\ uxSchedulerSuspended k2 = 0 /\ xYieldPending k2 = xYieldPending k /\ k_yield k2 = k_yield k || sw) as (Hinv2 & Hs2 & Hy2 & Hk2).
  { subst k2. destruct sw; split_and!; try done; [by apply kinv_yield|by rewrite orb_true_r|by rewrite orb_false_r]. }
  destruct (IH k2 Hinv2 Hs2) as (k' & y & -> & Hinv' & Hs' & Hy' & Hk' & Hrep). cbn [mbind option_bind]. exists k', (sw || y).
  split_and!; [done..|congruence|by rewrite Hk', Hk2, orb_assoc|]. intros y0 z m H0.
  rewrite (tick_over y0 z m k k1 sw Hs H0 E Hy1). cbn [mbind option_bind].
  assert ((if y0 || sw then set_xYieldPending true (over y0 z m k1) else over y0 z m k1) = over (y0 || sw) z m k2) as ->
    by (subst k2; by destruct y0, sw).
  rewrite Hrep; [by rewrite orb_assoc|]. rewrite Hy2. intros H. by rewrite (H0 H).
Qed.

Lemma sys_ticks_suspended n k : 0 < uxSchedulerSuspended k -> 0 <= uxPendedTicks k ->
  uxPendedTicks k + Z.of_nat n < 4294967296 ->
  exists y, sys_ticks n k = Some (over (xYieldPending k) (k_yield k || y) (uxPendedTicks k + Z.of_nat n) k, y) /\ (y = true -> xYieldPending k = true).
Proof.
  revert k. induction n as [|n IH]; intros k Hs Hp Hn.
  { exists false. cbn [sys_ticks]. rewrite orb_false_r, Z.add_0_r. split; [by destruct k|done]. }
  cbn [sys_ticks]. unfold xPortSysTickHandler, xTaskIncrementTick. destruct (Z.eqb_spec (uxSchedulerSuspended k) 0); [lia|].
  cbn [mbind option_bind]. rewrite u32_small by lia. set (k1 := set_uxPendedTicks (uxPendedTicks k + 1) k).
  change (xYieldPending k1) with (xYieldPending k). set (sw := if xYieldPending k then true else false).
  set (k2 := if sw then portYIELD k1 else k1). assert (k2 = over (xYieldPending k) (k_yield k || sw) (uxPendedTicks k + 1) k) as E2.
  { subst k2 k1 sw. destruct k as [? ? ? ? ? ? ? ? ? ? ? [] ? ? ? ? b]; cbn; by rewrite ?orb_true_r, ?orb_false_r. }
  clearbody k2. assert (uxSchedulerSuspended k2 = uxSchedulerSuspended k /\ uxPendedTicks k2 = uxPendedTicks k + 1) as [Es Ep] by (by rewrite E2).
  destruct (IH k2) as (y & -> & Hy); [lia..|]. cbn [mbind option_bind]. exists (sw || y). rewrite Ep, E2 in *. split.
  - rewrite orb_assoc. replace (uxPendedTicks k + 1 + Z.of_nat n) with (uxPendedTicks k + Z.of_nat (S n)) by lia. done.
  - intros [H|H]%orb_true_iff; [subst sw; by destruct (xYieldPending k)|by apply Hy].
Qed.

(** C8: ticks that arrive while the scheduler is suspended are not lost, and
    nothing else of them either.  While it is suspended [n] tick interrupts leave
    the tick count and all lists alone.  Resuming leaves the very state that [n]
    tick interrupts without a suspension do (every list in its order, the times,
    the overflows, the ready bits), except that the switch is noted as pending as
    well as requested: this it is, and xTaskResumeAll says so, exactly when one
    of the [n] ticks would have asked for a switch, or one was pending before. *)
Theorem suspended_ticks_not_lost k n :
  kinv k -> running k -> uxSchedulerSuspended k = 0 -> Z.of_nat n < 4294967296 ->
  exists ks ys k1 y,
    sys_ticks n (vTaskSuspendAll k) = Some (ks, ys) /\ xTickCount ks = xTickCount k /\ k_lists ks = k_lists k /\
    sys_ticks n k = Some (k1, y) /\ kinv k1 /\
    let switch := xYieldPending k || y in
    let k2 := set_xYieldPending switch (if switch then portYIELD k1 else k1) in
    xTaskResumeAll ks = Some (k2, switch) /\ kinv k2.
Proof.
  intros Hinv Hrun Hs Hn. destruct (sys_ticks_ok n k Hinv Hs) as (k1 & y & E1 & Hinv1 & Hs1 & Hy1 & Hk1 & Hrep).
  assert (uxCurrentNumberOfTasks k > 0) as Htasks by (by apply (kinv_tasks k (pxCurrentTCB k) Hinv), running_live).
  pose proof Hinv as [Hb Hblk [_ _ _ _ Hc5]]. destruct (Hc5 Hs) as [Hnil Hp0].
  pose proof Hinv1 as [_ _ [_ _ _ _ Hc51]]. destruct (Hc51 Hs1) as [_ Hp1].
  destruct (sys_ticks_suspended n (vTaskSuspendAll k)) as (ys & Es & Hys);
    [unfold vTaskSuspendAll; rewrite Hs; done|
      change (uxPendedTicks (vTaskSuspendAll k)) with (uxPendedTicks k); lia..|].
  change (xYieldPending (vTaskSuspendAll k)) with (xYieldPending k) in *. change (k_yield (vTaskSuspendAll k)) with (k_yield k) in Es.
  change (uxPendedTicks (vTaskSuspendAll k)) with (uxPendedTicks k) in Es. rewrite Hp0, Z.add_0_l in Es.
  set (ks := over _ _ _ _) in Es. exists ks, ys, k1, y. split; [exact Es|]. do 2 (split; [done|]). split; [exact E1|]. split; [exact Hinv1|].
  cbv zeta. set (switch := xYieldPending k || y). set (k2 := set_xYieldPending _ _).
  assert (xTaskResumeAll ks = Some (k2, switch)) as E2.
  { unfold xTaskResumeAll. change (uxSchedulerSuspended ks) with (u32 (uxSchedulerSuspended k + 1)). rewrite Hs. change (u32 (u32 (0 + 1) - 1)) with 0.
    assert (set_uxSchedulerSuspended 0 ks = over (xYieldPending k) (k_yield k || ys) (Z.of_nat n) k) as ->
      by (unfold ks; revert Hs; clear; destruct k; cbn; intros ->; done).
    set (k0 := over _ _ _ k). change (uxSchedulerSuspended k0) with (uxSchedulerSuspended k). rewrite Hs. cbn [Z.eqb].
    change (uxCurrentNumberOfTasks k0) with (uxCurrentNumberOfTasks k). rewrite Z.gtb_ltb. destruct (Z.ltb_spec 0 (uxCurrentNumberOfTasks k)); [|lia].
    change (klist k0 LPendingReady) with (klist k LPendingReady). rewrite Hnil. cbn [length ready_pending].
    change (head_owner LPendingReady k0) with (head_owner LPendingReady k). unfold head_owner at 1. rewrite Hnil. cbn [head fmap option_fmap option_map mbind option_bind].
    change (uxPendedTicks k0) with (Z.of_nat n). rewrite Z.gtb_ltb. destruct (Z.ltb_spec 0 (Z.of_nat n)) as [Hpos|Hz].
    - rewrite Nat2Z.id. unfold k0. rewrite Hrep by done. cbn [mbind option_bind]. fold switch.
      change (xYieldPending (set_uxPendedTicks 0 (over switch (k_yield k || ys) (Z.of_nat n) k1))) with switch.
      assert (switch = false -> k_yield k || ys = k_yield k1) as Hyk.
      { unfold switch. intros [Ha Hb']%orb_false_iff. rewrite Hk1, Hb'. destruct ys; [by rewrite Hys in Ha|done]. }
      unfold k2. destruct switch eqn:Esw; [|rewrite Hyk by done]; revert Hp1; clear; destruct k1; cbn; by intros ->.
    - destruct n; [|lia]. injection E1 as <- <-. cbn [sys_ticks] in Es. assert (ys = false) as -> by congruence.
      assert (k0 = k) as -> by (unfold k0; revert Hp0; clear; destruct k as [? ? ? ? ? ? ? ? ? ? ? ? ? ? ? ? b]; cbn; intros ->; by rewrite orb_false_r).
      cbn [mbind option_bind]. unfold k2, switch. rewrite orb_false_r. destruct (xYieldPending k) eqn:E; do 2 f_equal; revert E; clear; destruct k; cbn; by intros ->. }
  split; [exact E2|].
  assert (kinv (set_uxPendedTicks (Z.of_nat n) (set_uxSchedulerSuspended 1 (set_yield (k_yield k || ys) k)))) as Hinvs.
  { split; [by apply kbase_pended, kbase_suspended, (kinv_yield _ k Hinv)|done|]. destruct Hinv as [_ _ [? ? ? ? ?]]. split; simpl; try done. lia. }
  destruct (resume_last _ Hinvs) as (k3 & y3 & E3 & Hinv3 & _); [done|done|].
  enough (ks = set_uxPendedTicks (Z.of_nat n) (set_uxSchedulerSuspended 1 (set_yield (k_yield k || ys) k))) as Eks by (rewrite <- Eks in E3; congruence).
  unfold ks, vTaskSuspendAll. rewrite Hs. by destruct k.
Qed.
