(* ===== verification/KernelSched.v ===== *)
(** * The choice of the running task

    vTaskSwitchContext reads the bit map with a count of leading zeros and
    walks the ready list of the priority found: the task chosen is ready, no
    ready task has a higher priority, and tasks of equal priority take turns. *)

From S2P Require Import Prelude ListSpec Kernel KernelInv KernelTick KernelResume.
#[local] Open Scope Z_scope.

Definition is_ready (k : Kernel) (t : Z) : Prop :=
  kcontainer k (IState t) = Some (LReady (uxPriority (tcb k t))).

#[export] Instance is_ready_dec k t : Decision (is_ready k t).
Proof. unfold is_ready. apply _. Defined.

(** The tasks of a ready list in its order. *)
Definition ready_tasks (k : Kernel) (p : Z) : list Z := owner <$> klist k (LReady p).

Lemma ready_item {lo} k i p : kbase_at lo k -> i ∈ klist k (LReady p) ->
  exists t, i = IState t /\ is_ready k t /\ p = uxPriority (tcb k t) /\ live k t.
Proof.
  intros Hb Hi%(elem_klist _ _ _ Hb). destruct (state_item _ _ _ Hb Hi) as [t ->]; [by left; exists p|].
  destruct (ki_state Hb _ _ Hi) as [Hl Hp]. simpl in Hp. subst p. by exists t.
Qed.

(** ** The highest set bit *)

Lemma highest_bit x : 0 < x < 4294967296 ->
  let p := u32 (31 - ucPortCountLeadingZeros x) in
  Z.testbit x p = true /\ 0 <= p < 32 /\ forall q, p < q -> Z.testbit x q = false.
Proof.
  intros Hx p. assert (p = Z.log2 x) as ->.
  { subst p. unfold ucPortCountLeadingZeros. destruct (Z.eqb_spec x 0); [lia|].
    replace (31 - (31 - Z.log2 x)) with (Z.log2 x) by lia.
    assert (Z.log2 x < 32) by (apply Z.log2_lt_pow2; lia).
    pose proof (Z.log2_nonneg x). by rewrite u32_small by lia. }
  assert (Z.log2 x < 32) by (apply Z.log2_lt_pow2; lia). pose proof (Z.log2_nonneg x).
  split_and!; [by apply Z.bit_log2; lia|lia|lia|].
  intros q Hq. apply Z.bits_above_log2; lia.
Qed.

Lemma top_nonzero {lo} k t : kbase_at lo k -> is_ready k t -> 0 < uxTopReadyPriority k < 4294967296.
Proof.
  intros Hb Hr. pose proof (ki_bits Hb). destruct (decide (uxTopReadyPriority k = 0)) as [E|]; [|lia].
  assert (klist k (LReady (uxPriority (tcb k t))) <> []) as Hne.
  { intros En. by apply (klist_nil _ _ Hb) with (i := IState t) in En. }
  apply (ki_map Hb) in Hne. by rewrite E, Z.bits_0 in Hne.
Qed.

(** ** taskSELECT_HIGHEST_PRIORITY_TASK *)

(** The next of [ts] after [cur] in the ring order, given the walking index. *)
Definition chosen (k k' : Kernel) : Prop :=
  let t := pxCurrentTCB k' in
  is_ready k t /\ (forall t', is_ready k t' -> uxPriority (tcb k t') <= uxPriority (tcb k t)) /\
  ring_next (ring (k_lists k) (LReady (uxPriority (tcb k t)))) = Some (IState t).

Lemma kbase_advance {lo} k l : kbase_at lo k -> klist k l <> [] -> kbase_at lo (on_lists (lAdvance l) k).
Proof.
  intros Hb Hne. pose proof Hb as [].
  split; try done; unfold kcontainer, kvalue, klist; simpl.
  - by apply lists_wf_lAdvance.
  - intros p. by rewrite on_list_lAdvance.
  - intros l' Hl'. rewrite on_list_lAdvance. eapply sorted_ext; [by apply ki_sorted|]. done.
Qed.

Lemma select_ok k t : kinv k -> is_ready k t ->
  exists k', taskSELECT_HIGHEST_PRIORITY_TASK k = Some k' /\ kinv k' /\ chosen k k' /\
    k' = set_pxCurrentTCB (pxCurrentTCB k')
           (on_lists (lAdvance (LReady (uxPriority (tcb k (pxCurrentTCB k'))))) k).
Proof.
  intros [Hb Hblk [Hc1 Hc2 Hc3 Hc4 Hc5]] Ht. pose proof (top_nonzero _ _ Hb Ht) as Htop.
  destruct (highest_bit _ Htop) as (Hbit & Hp & Hmax). unfold taskSELECT_HIGHEST_PRIORITY_TASK.
  fold (portGET_HIGHEST_PRIORITY k) in Hbit, Hp, Hmax. set (p := portGET_HIGHEST_PRIORITY k) in *.
  apply (ki_map Hb) in Hbit.
  destruct (ring_next_Some (ring (k_lists k) (LReady p))) as (i & E & Hi); [apply Hb|done|].
  rewrite E. cbn [mbind option_bind].
  destruct (ready_item _ _ _ Hb Hi) as (t0 & -> & Hr0 & Ep & Hl0). simpl.
  eexists. split; [reflexivity|]. split; [|split; [|simpl; by rewrite <- Ep]].
  - assert (kbase (on_lists (lAdvance (LReady p)) k)) as Hb' by (by apply kbase_advance).
    split; [unfold kbase in *; destruct Hb'; by split|done|].
    split; try done; unfold klist; simpl; by rewrite ?on_list_lAdvance.
  - unfold chosen. simpl. split_and!; [done| |by rewrite <- Ep].
    intros t' Ht'. destruct (Z.le_gt_cases (uxPriority (tcb k t')) (uxPriority (tcb k t0))); [done|].
    exfalso. assert (klist k (LReady (uxPriority (tcb k t'))) <> []) as Hne.
    { intros En. by apply (klist_nil _ _ Hb) with (i := IState t') in En. }
    apply (ki_map Hb) in Hne. rewrite Hmax in Hne; [done|]. lia.
Qed.

(** ** Taking turns *)

Section turns.
Context {I : Type} `{EqDecision I}.

(** The order in which the items of a ring come up. *)
Definition turn (r : Ring I) : list I :=
  match r_index r with
  | None => r_items r
  | Some j => match list_find (fun x => x = j) (r_items r) with
              | Some (n, _) => drop (S n) (r_items r) ++ take (S n) (r_items r)
              | None => r_items r
              end
  end.

Definition rotate1 (xs : list I) : list I := match xs with [] => [] | x :: xs => xs ++ [x] end.

Lemma turn_split (r : Ring I) j ys zs : r_index r = Some j -> r_items r = ys ++ j :: zs -> j ∉ ys ->
  turn r = zs ++ ys ++ [j].
Proof.
  intros Ei Ex Hj. unfold turn. rewrite Ei, Ex.
  assert (list_find (fun x => x = j) (ys ++ j :: zs) = Some (length ys, j)) as ->.
  { apply list_find_Some. split_and!; [by rewrite list_lookup_middle|done|].
    intros n y Hn Hlt ->. apply Hj. rewrite lookup_app_l in Hn by done.
    by eapply list_elem_of_lookup_2. }
  replace (ys ++ j :: zs) with ((ys ++ [j]) ++ zs) by by rewrite <- (assoc_L (++)).
  replace (S (length ys)) with (length (ys ++ [j])) by (rewrite length_app; simpl; lia).
  by rewrite drop_app_length, take_app_length.
Qed.

Lemma index_split (r : Ring I) j : ring_wf r -> r_index r = Some j ->
  exists ys zs, r_items r = ys ++ j :: zs /\ j ∉ ys.
Proof.
  intros [Hn Hi] Ej. destruct (list_elem_of_split _ _ (Hi j Ej)) as (ys & zs & E).
  exists ys, zs. split; [done|]. rewrite E in Hn. apply NoDup_app in Hn as (_ & Hn & _).
  intros Hj. by apply (Hn j Hj); left.
Qed.

Lemma turn_perm r : ring_wf r -> turn r ≡ₚ r_items r.
Proof.
  intros Hw. destruct (r_index r) as [j|] eqn:Ej; [|unfold turn; by rewrite Ej].
  destruct (index_split r j Hw Ej) as (ys & zs & E & Hj). rewrite (turn_split r j ys zs), E by done.
  by rewrite (Permutation_app_comm zs), <- (assoc_L (++)).
Qed.

Lemma turn_next r : ring_wf r -> ring_next r = head (turn r).
Proof.
  intros Hw. unfold ring_next. destruct (r_index r) as [j|] eqn:Ej; [|unfold turn; by rewrite Ej].
  destruct (index_split r j Hw Ej) as (ys & zs & E & Hj).
  rewrite (turn_split r j ys zs), (succ_of_split j _ ys zs) by done. rewrite E.
  destruct zs as [|z zs]; [|done]. simpl. by destruct ys.
Qed.

Lemma turn_advance r : ring_wf r -> turn (ring_advance r) = rotate1 (turn r).
Proof.
  intros Hw. unfold ring_advance. rewrite turn_next by done.
  destruct (r_index r) as [j|] eqn:Ej.
  - destruct (index_split r j Hw Ej) as (ys & zs & E & Hj).
    assert (NoDup (ys ++ j :: zs)) as Hn by (rewrite <- E; apply Hw).
    rewrite (turn_split r j ys zs) by done. destruct zs as [|z zs]; simpl.
    + destruct ys as [|y ys]; simpl.
      * by rewrite (turn_split _ j [] []).
      * rewrite (turn_split _ y [] (ys ++ [j])); [by rewrite app_nil_l|done..|apply not_elem_of_nil].
    + rewrite (turn_split _ z (ys ++ [j]) zs); [by rewrite <- !(assoc_L (++))|done|..]; simpl.
      * by rewrite E, <- (assoc_L (++)).
      * replace (ys ++ j :: z :: zs) with ((ys ++ [j]) ++ z :: zs) in Hn
          by by rewrite <- (assoc_L (++)).
        apply NoDup_app in Hn as (_ & Hn & _). intros Hz. by apply (Hn z Hz); left.
  - assert (turn r = r_items r) as Et by (unfold turn; by rewrite Ej). rewrite Et.
    destruct (r_items r) as [|x xs] eqn:E; simpl; [done|].
    rewrite (turn_split _ x [] xs); [by rewrite app_nil_l|done..|apply not_elem_of_nil].
Qed.

(** The first [n] items that come up. *)
Fixpoint turns (n : nat) (xs : list I) : list I :=
  match n, xs with
  | S n, x :: _ => x :: turns n (rotate1 xs)
  | _, _ => []
  end.

Lemma turns_all xs ys : turns (length xs) (xs ++ ys) = xs.
Proof.
  revert ys. induction xs as [|x xs IH]; intros ys; [done|]. simpl. f_equal.
  rewrite <- (assoc_L (++)). apply IH.
Qed.
End turns.

(** Context switches with nothing in between, and the tasks they run. *)
Fixpoint switch_n (n : nat) (k : Kernel) : option (Kernel * list Z) :=
  match n with
  | O => Some (k, [])
  | S n => k ← vTaskSwitchContext k; '(k', ts) ← switch_n n k; Some (k', pxCurrentTCB k :: ts)
  end.

(** ** Theorems *)

Lemma switch_eq k : uxSchedulerSuspended k = 0 ->
  vTaskSwitchContext k = taskSELECT_HIGHEST_PRIORITY_TASK (set_xYieldPending false k).
Proof. intros Hs. unfold vTaskSwitchContext. by rewrite Hs. Qed.

Lemma kinv_pending_yield b k : kinv k -> kinv (set_xYieldPending b k).
Proof.
  intros [Hb Hblk Hc]. split; [by apply kbase_yield|done|]. destruct Hc. by split.
Qed.

Lemma switch_ok k t : kinv k -> uxSchedulerSuspended k = 0 -> is_ready k t ->
  exists k', vTaskSwitchContext k = Some k' /\ kinv k' /\ chosen k k' /\
    k' = set_pxCurrentTCB (pxCurrentTCB k')
           (on_lists (lAdvance (LReady (uxPriority (tcb k (pxCurrentTCB k')))))
             (set_xYieldPending false k)).
Proof.
  intros Hinv Hs Ht. rewrite switch_eq by done.
  by destruct (select_ok (set_xYieldPending false k) t (kinv_pending_yield _ _ Hinv) Ht)
    as (k' & E & Hinv' & Hch & Ek); exists k'.
Qed.

(** C9: a context switch picks a ready task than which no ready task has a
    higher priority, makes it the current task, changes no list, and leaves no
    switch pending; while the scheduler is suspended it only notes that a
    switch is pending. *)
Theorem switch_runs_highest k t :
  kinv k -> is_ready k t ->
  exists k', vTaskSwitchContext k = Some k' /\ kinv k' /\
    (uxSchedulerSuspended k <> 0 -> k' = set_xYieldPending true k) /\
    (uxSchedulerSuspended k = 0 ->
       running k' /\ xYieldPending k' = false /\
       (forall t', is_ready k t' -> uxPriority (tcb k t') <= cur_prio k') /\
       (forall l, klist k' l = klist k l) /\ k_tcbs k' = k_tcbs k).
Proof.
  intros Hinv Ht. destruct (decide (uxSchedulerSuspended k = 0)) as [Hs|Hs].
  - destruct (switch_ok k t Hinv Hs Ht) as (k' & E & Hinv' & (Hr & Hmax & _) & Ek).
    exists k'. split_and!; [done..|]. intros _.
    assert (k_tcbs k' = k_tcbs k /\ xYieldPending k' = false /\
      (forall i, kcontainer k' i = kcontainer k i) /\ forall l, klist k' l = klist k l)
      as (Et & Ey & Ec & El).
    { rewrite Ek. split_and!; [done..|]. intros l. unfold klist. simpl. apply on_list_lAdvance. }
    assert (forall t', tcb k' t' = tcb k t') as Etcb by (intros; unfold tcb; by rewrite Et).
    split_and!; try done.
    + unfold running. by rewrite Ec, Etcb.
    + intros t' Ht'. unfold cur_prio. rewrite Etcb. by apply Hmax.
  - exists (set_xYieldPending true k). unfold vTaskSwitchContext.
    destruct (Z.eqb_spec (uxSchedulerSuspended k) 0); [done|].
    split_and!; [done|by apply kinv_pending_yield|done|done].
Qed.

(** The switches only move the walking index of the list at the top. *)
Lemma switch_n_turns n k p : kinv k -> uxSchedulerSuspended k = 0 ->
  klist k (LReady p) <> [] -> (forall t, is_ready k t -> uxPriority (tcb k t) <= p) ->
  exists k', switch_n n k = Some (k', owner <$> turns n (turn (ring (k_lists k) (LReady p)))).
Proof.
  revert k. induction n as [|n IH]; intros k Hinv Hs Hne Hmax; [by exists k|].
  pose proof Hinv as [Hb _ _].
  destruct (klist k (LReady p)) as [|i xs] eqn:E; [done|].
  destruct (ready_item k i p Hb) as (t & -> & Ht & Ep & _); [rewrite E; by left|].
  destruct (switch_ok k t Hinv Hs Ht) as (k' & Esw & Hinv' & (Hr & Hmax' & Hnext) & Ek).
  assert (uxPriority (tcb k (pxCurrentTCB k')) = p) as Epp
    by (specialize (Hmax _ Hr); specialize (Hmax' _ Ht); lia).
  rewrite Epp in *. simpl switch_n. rewrite Esw. cbn [mbind option_bind].
  assert (ring (k_lists k') (LReady p) = ring_advance (ring (k_lists k) (LReady p))) as Ering
    by (rewrite Ek; simpl; by rewrite ring_lAdvance, decide_True).
  assert (forall l, klist k' l = klist k l) as El
    by (intros l; rewrite Ek; unfold klist; simpl; apply on_list_lAdvance).
  destruct (IH k' Hinv') as (k'' & ->).
  - by rewrite Ek.
  - by rewrite El, E.
  - intros t' Ht'. rewrite Ek in Ht' |- *. by apply Hmax.
  - exists k''. cbn [mbind option_bind].
    pose proof (ki_wf Hb) as [Hw _]. rewrite Ering, turn_advance by apply Hw.
    rewrite turn_next in Hnext by apply Hw.
    destruct (turn (ring (k_lists k) (LReady p))) as [|x ys]; [done|].
    simpl in Hnext. by injection Hnext as ->.
Qed.

(** C10: tasks of the highest ready priority share the processor in turns: as
    many context switches as there are such tasks run each of them exactly once. *)
Theorem switches_take_turns k p :
  kinv k -> uxSchedulerSuspended k = 0 -> ready_tasks k p <> [] ->
  (forall t, is_ready k t -> uxPriority (tcb k t) <= p) ->
  exists k' ts, switch_n (length (ready_tasks k p)) k = Some (k', ts) /\
    (ts ≡ₚ ready_tasks k p) /\ NoDup ts.
Proof.
  intros Hinv Hs Hne Hmax. pose proof Hinv as [Hb _ _].
  assert (klist k (LReady p) <> []) as Hne' by (intros E; unfold ready_tasks in Hne; by rewrite E in Hne).
  destruct (switch_n_turns (length (ready_tasks k p)) k p Hinv Hs Hne' Hmax) as (k' & E).
  pose proof (ki_wf Hb) as [Hw _].
  pose proof (turn_perm (ring (k_lists k) (LReady p)) (Hw _)) as Hperm.
  assert (turns (length (ready_tasks k p)) (turn (ring (k_lists k) (LReady p))) =
    turn (ring (k_lists k) (LReady p))) as Eturn.
  { replace (length (ready_tasks k p)) with (length (turn (ring (k_lists k) (LReady p)))).
    - rewrite <- (app_nil_r (turn _)) at 2. apply turns_all.
    - unfold ready_tasks. rewrite length_fmap. by apply Permutation_length. }
  rewrite Eturn in E. exists k', (owner <$> turn (ring (k_lists k) (LReady p))).
  assert (owner <$> turn (ring (k_lists k) (LReady p)) ≡ₚ ready_tasks k p) as Hp
    by (unfold ready_tasks; by rewrite Hperm).
  split_and!; [done|done|]. rewrite Hp. unfold ready_tasks. apply NoDup_fmap_2_strong.
  - intros i j Hi Hj Eo. destruct (ready_item _ _ _ Hb Hi) as (t & -> & _).
    destruct (ready_item _ _ _ Hb Hj) as (t' & -> & _). simpl in Eo. congruence.
  - apply wf_NoDup, Hb.
Qed.
