(* ===== verification/KernelEvent.v ===== *)
(** * Waiting for events and being woken by them

    The operations that queues, event groups and timers call: the running task
    is put on an event list and on a delayed list in one go, and a task taken
    off an event list becomes ready, at once or, while the scheduler is
    suspended, by way of the pending ready list. *)

From S2P Require Import Prelude ListSpec Kernel KernelInv KernelTick KernelResume KernelSched.
#[local] Open Scope Z_scope.

(** ** Placing the running task *)

Lemma only_lists_counts k k' : only_lists k k' -> kcounts k ->
  klist k' LTermination = klist k LTermination ->
  (uxSchedulerSuspended k = 0 -> klist k' LPendingReady = []) -> kcounts k'.
Proof.
  intros (L & T & N & ->) [Hc1 Hc2 Hc3 Hc4 Hc5] Ht Hp. split; try done; [by rewrite Ht|].
  intros Hs. split; [by apply Hp|by apply Hc5].
Qed.

(** The running task waits on [ev] for [w] ticks; the rest is as before. *)
Record placed (ev : ListId) (w : Z) (k k' : Kernel) : Prop := mkPlaced {
  pl_kinv : kinv k';
  pl_only : only_lists k k';
  pl_event : kcontainer k' (IEvent (pxCurrentTCB k)) = Some ev;
  pl_left : remaining k' (pxCurrentTCB k) = Some w;
  pl_others : forall t, t <> pxCurrentTCB k ->
    kcontainer k' (IState t) = kcontainer k (IState t) /\
    kcontainer k' (IEvent t) = kcontainer k (IEvent t)
}.

(** The ways the event item is put on the list. *)
Inductive enlists (ev : ListId) (i : ItemId) : (Lists ListId ItemId -> Lists ListId ItemId) -> Prop :=
| enlist_ordered : enlists ev i (lInsert ev i)
| enlist_end : enlists ev i (lInsertEnd ev i)
| enlist_valued v : enlists ev i (fun s => lInsertEnd ev i (set_value i v s)).

Lemma running_event_free k : kinv k -> running k -> kcontainer k (IEvent (pxCurrentTCB k)) = None.
Proof.
  intros [Hb Hblk _] Hr. destruct (kcontainer k (IEvent (pxCurrentTCB k))) as [l|] eqn:E; [|done].
  exfalso. unfold running in Hr. destruct (Hblk (pxCurrentTCB k)); congruence.
Qed.

Lemma enlist_ok k t o n f : kbase k -> live k t -> kcontainer k (IEvent t) = None ->
  enlists (LEvent o n) (IEvent t) f ->
  kbase (on_lists f k) /\ (forall i, kcontainer (on_lists f k) i =
    if decide (i = IEvent t) then Some (LEvent o n) else kcontainer k i) /\
  klist (on_lists f k) LTermination = klist k LTermination /\
  klist (on_lists f k) LPendingReady = klist k LPendingReady /\
  (forall u, kvalue (on_lists f k) (IState u) = kvalue k (IState u)).
Proof.
  intros Hb Hl Hc Hf. unfold kcontainer, klist, kvalue in *. destruct Hf as [| |v]; simpl.
  - split; [apply (kbase_insert_other k (IEvent t) (LEvent o n)); try done; by left|].
    split_and!; try (by rewrite on_list_lInsert_ne); intros.
    + rewrite container_lInsert. repeat case_decide; congruence.
    + apply value_lInsert.
  - split; [apply (kbase_insert_other k (IEvent t) (LEvent o n)); try done; by right|].
    split_and!; try (by rewrite on_list_lInsertEnd_ne); intros.
    + rewrite container_lInsertEnd. repeat case_decide; congruence.
    + apply value_lInsertEnd.
  - split.
    + apply (kbase_insert_other (on_lists (set_value (IEvent t) v) k) (IEvent t) (LEvent o n)); try done.
      * by apply kbase_set_event_value.
      * split; [|done]. unfold kcontainer. simpl. by rewrite container_set_value.
      * by right.
    + split_and!; try (by rewrite on_list_lInsertEnd_ne); intros.
      * rewrite container_lInsertEnd, container_set_value. repeat case_decide; congruence.
      * rewrite value_lInsertEnd. by rewrite value_set_value.
Qed.

Lemma place_ok k o n f w : kinv k -> running k -> 0 < w < 4294967296 ->
  enlists (LEvent o n) (IEvent (pxCurrentTCB k)) f ->
  exists k', prvAddCurrentTaskToDelayedList w (on_lists f k) = Some k' /\
    placed (LEvent o n) w k k'.
Proof.
  intros Hinv Hrun Hw Hf. pose proof Hinv as [Hb Hblk Hc].
  pose proof (running_event_free k Hinv Hrun) as Hfree. pose proof (running_live k Hinv Hrun) as Hlive.
  destruct (enlist_ok k _ o n f Hb Hlive Hfree Hf) as (Hb1 & Hc1 & Ht1 & Hp1 & Hv1).
  set (t := pxCurrentTCB k) in *. set (k1 := on_lists f k) in *.
  assert (running k1) as Hrun1 by (unfold running; rewrite Hc1, decide_False by done; exact Hrun).
  destruct (delay_current k1 w Hb1 Hrun1 Hw) as (k2 & E & Hb2 & Ho & Hst & Hv & Hoth & Ht).
  change (pxCurrentTCB k1) with t in *. change (xTickCount k1) with (xTickCount k) in *.
  change (pxDelayedTaskList k1) with (pxDelayedTaskList k) in *.
  change (pxOverflowDelayedTaskList k1) with (pxOverflowDelayedTaskList k) in *.
  assert (only_lists k k2) as Ho2 by (etrans; [apply (only_lists_on f)|exact Ho]).
  assert (kbase k2) as Hbk2 by (by eapply only_lists_kbase).
  assert (forall u, kcontainer k2 (IEvent u) = if decide (u = t) then Some (LEvent o n)
    else kcontainer k (IEvent u)) as He2.
  { intros u. destruct (Hoth (IEvent u)) as [-> _]; [done|]. rewrite Hc1. repeat case_decide; congruence. }
  assert (forall u, u <> t -> kcontainer k2 (IState u) = kcontainer k (IState u)) as Hs2.
  { intros u Hu. destruct (Hoth (IState u)) as [-> _]; [congruence|]. by rewrite Hc1, decide_False. }
  exists k2. split; [done|]. split; [split| | | |].
  - done.
  - intros u. rewrite He2. case_decide as Hu; [subst u|].
    + intros _. rewrite Hst. destruct (delayed_is _ Hb) as ([E1|E1] & [E2|E2] & _);
        rewrite E1, E2; destruct (_ <? _); auto.
    + intros Hu2%Hblk. by rewrite Hs2.
  - apply (only_lists_counts k); [done..|by rewrite Ht, Ht1|].
    intros Hs. apply (klist_nil _ _ Hbk2). intros i Hi.
    destruct (event_item _ _ _ Hbk2 Hi I) as [u ->]. rewrite He2 in Hi. case_decide; [congruence|].
    by apply (no_pending k Hinv Hs u).
  - done.
  - fold t. by rewrite He2, decide_True.
  - unfold remaining. fold t. rewrite Hst, Hv. destruct (delayed_is _ Hb) as (_ & _ & Hne).
    pose proof (ki_tick Hb). destruct Ho2 as (L & T & N & ->). simpl.
    destruct (Z.ltb_spec (u32 (xTickCount k + w)) (xTickCount k)).
    + rewrite decide_False, decide_True by congruence. f_equal. wrap_lia.
    + rewrite decide_True by done. f_equal. wrap_lia.
  - intros u Hu. by rewrite He2, Hs2, decide_False.
Qed.

Lemma vTaskPlaceOnEventList_ok k o n w : kinv k -> running k -> 0 < w < 4294967296 ->
  exists k', vTaskPlaceOnEventList (LEvent o n) w k = Some k' /\ placed (LEvent o n) w k k'.
Proof. intros. apply place_ok; try done. constructor. Qed.

Lemma vTaskPlaceOnUnorderedEventList_ok k o n v w : kinv k -> running k -> 0 < w < 4294967296 ->
  exists k', vTaskPlaceOnUnorderedEventList (LEvent o n) v w k = Some k' /\ placed (LEvent o n) w k k'.
Proof.
  intros. unfold vTaskPlaceOnUnorderedEventList.
  apply (place_ok k o n (fun s => lInsertEnd _ _ (set_value _ (Z.lor v taskEVENT_LIST_ITEM_VALUE_IN_USE) s)));
    try done. constructor.
Qed.

Lemma vTaskPlaceOnEventListRestricted_ok k o n w b : kinv k -> running k -> 0 < w < 4294967296 ->
  exists k', vTaskPlaceOnEventListRestricted (LEvent o n) w b k = Some k' /\
    placed (LEvent o n) (if b then portMAX_DELAY else w) k k'.
Proof.
  intros. unfold vTaskPlaceOnEventListRestricted. apply place_ok; try done; [by destruct b|constructor].
Qed.

(** ** Waking the first waiter *)

(** [t] no longer waits on its event list: it is ready, or will be when the
    scheduler resumes. *)
Record released (t : Z) (k k' : Kernel) : Prop := mkReleased {
  rl_kinv : kinv k';
  rl_frame : exists b k1, only_lists k k1 /\ k' = set_xYieldPending b k1;
  rl_now : uxSchedulerSuspended k = 0 ->
    kcontainer k' (IState t) = Some (LReady (uxPriority (tcb k t))) /\ kcontainer k' (IEvent t) = None;
  rl_later : uxSchedulerSuspended k <> 0 ->
    kcontainer k' (IState t) = kcontainer k (IState t) /\ kcontainer k' (IEvent t) = Some LPendingReady;
  rl_others : forall t', t' <> t ->
    kcontainer k' (IState t') = kcontainer k (IState t') /\
    kcontainer k' (IEvent t') = kcontainer k (IEvent t')
}.

Lemma woken_kinv t k k' : kinv k -> woken t k k' -> kbase k' -> kinv k'.
Proof.
  intros Hinv Hw Hb'. pose proof Hinv as [Hb Hblk Hc]. split; [done|by eapply kblocked_woken|].
  destruct Hw as [Ho Hs He Hoth Hv Ht]. apply (only_lists_counts k); try done.
  intros Hs0. apply (klist_nil _ _ Hb'). intros i Hi.
  destruct (event_item _ _ _ Hb' Hi I) as [u ->].
  destruct (decide (u = t)) as [->|]; [congruence|]. rewrite Hoth in Hi by congruence.
  by apply (no_pending k Hinv Hs0 u).
Qed.

Lemma move_to_pending k t o n : kinv k -> kcontainer k (IEvent t) = Some (LEvent o n) ->
  uxSchedulerSuspended k <> 0 ->
  let k' := on_lists (fun s => lInsertEnd LPendingReady (IEvent t) (lRemove (IEvent t) s)) k in
  kinv k' /\ forall i, kcontainer k' i = if decide (i = IEvent t) then Some LPendingReady else kcontainer k i.
Proof.
  intros Hinv Ht Hs k'. pose proof Hinv as [Hb Hblk Hc].
  pose proof (ki_event Hb _ _ Ht) as [Hlive _].
  assert (kbase (on_lists (lRemove (IEvent t)) k)) as Hb1 by (apply kbase_remove; [done|congruence]).
  assert (forall i, kcontainer k' i = if decide (i = IEvent t) then Some LPendingReady
    else kcontainer k i) as Hcont.
  { intros i. unfold k', kcontainer. simpl. rewrite container_lInsertEnd, container_lRemove.
    repeat case_decide; congruence. }
  assert (kbase k') as Hb'.
  { apply (kbase_insert_other (on_lists (lRemove (IEvent t)) k) (IEvent t) LPendingReady); try done.
    - split; [|done]. unfold kcontainer. simpl. by rewrite container_lRemove, decide_True.
    - by right. }
  split; [|done]. split; [done| |].
  - intros u. rewrite !Hcont. rewrite (decide_False (P := IState u = IEvent t)) by done.
    case_decide as Hu; [|apply Hblk]. intros _. simplify_eq. apply Hblk. congruence.
  - apply (only_lists_counts k); [apply only_lists_on|done| |done].
    unfold klist, k', kcontainer in *. simpl. rewrite on_list_lInsertEnd_ne by done.
    rewrite on_list_lRemove, decide_False; [done|congruence].
Qed.

Lemma xTaskRemoveFromEventList_ok k o n : kinv k -> klist k (LEvent o n) <> [] ->
  exists t k' w, head_owner (LEvent o n) k = Some t /\
    xTaskRemoveFromEventList (LEvent o n) k = Some (k', w) /\ released t k k' /\
    (w = true <-> uxPriority (tcb k t) > cur_prio k) /\
    xYieldPending k' = (xYieldPending k || w).
Proof.
  intros Hinv Hne. pose proof Hinv as [Hb Hblk Hc].
  pose proof (event_head k (LEvent o n) Hb I) as Hhd. unfold xTaskRemoveFromEventList.
  destruct (head_owner (LEvent o n) k) as [t|] eqn:Eh; [|done]. cbn [mbind option_bind].
  exists t. assert (exists k1, (exists k0, uxListRemove (IEvent t) k = Some k0 /\
      (if uxSchedulerSuspended k0.1 =? 0
       then '(k, _) ← uxListRemove (IState t) k0.1; Some (prvAddTaskToReadyList t k)
       else Some (on_lists (lInsertEnd LPendingReady (IEvent t)) k0.1)) = Some k1) /\
    kinv k1 /\ only_lists k k1 /\
    (uxSchedulerSuspended k = 0 -> kcontainer k1 (IState t) = Some (LReady (uxPriority (tcb k t))) /\
       kcontainer k1 (IEvent t) = None) /\
    (uxSchedulerSuspended k <> 0 -> kcontainer k1 (IState t) = kcontainer k (IState t) /\
       kcontainer k1 (IEvent t) = Some LPendingReady) /\
    (forall t', t' <> t -> kcontainer k1 (IState t') = kcontainer k (IState t') /\
       kcontainer k1 (IEvent t') = kcontainer k (IEvent t')))
    as (k1 & ([k0 n0] & E0 & E1) & Hinv1 & Ho1 & Hnow & Hlater & Hoth).
  { rewrite (uxListRemove_eq _ _ _ Hhd).
    destruct (decide (uxSchedulerSuspended k = 0)) as [Hs|Hs].
    - destruct (wake_event_first k t _ Hb Hblk Hhd) as (k1 & E & Hb1 & Hblk1 & Hwk).
      rewrite (uxListRemove_eq _ _ _ Hhd) in E. cbn [mbind option_bind] in E.
      exists k1. pose proof (only_lists_kbase _ _ (wk_only _ _ _ Hwk) Hb1) as Hb1'.
      split_and!; [|by eapply woken_kinv|apply Hwk|intros _; split; apply Hwk|done|].
      + eexists. split; [done|]. simpl. rewrite Hs. simpl. exact E.
      + intros t' Ht'. split; apply Hwk; congruence.
    - destruct (move_to_pending k t o n Hinv Hhd Hs) as [Hinv1 Hc1].
      exists (on_lists (fun s => lInsertEnd LPendingReady (IEvent t) (lRemove (IEvent t) s)) k).
      split_and!; [|done|apply only_lists_on|done| |].
      + eexists. split; [done|]. simpl. by destruct (Z.eqb_spec (uxSchedulerSuspended k) 0).
      + intros _. rewrite !Hc1. by rewrite decide_False, decide_True.
      + intros t' Ht'. rewrite !Hc1. by rewrite !decide_False by congruence. }
  rewrite E0. cbn [mbind option_bind]. simpl in E1. rewrite E1. cbn [mbind option_bind].
  assert ((forall u, tcb k1 u = tcb k u) /\ pxCurrentTCB k1 = pxCurrentTCB k /\
    xYieldPending k1 = xYieldPending k) as (Et & Ecur & Ey) by (by destruct Ho1 as (? & ? & ? & ->)).
  rewrite !Et, Ecur. fold (cur_prio k). rewrite Z.gtb_ltb.
  destruct (Z.ltb_spec (cur_prio k) (uxPriority (tcb k t))) as [Hgt|Hle].
  - do 2 eexists. split; [done|]. split; [reflexivity|]. split; [|split].
    + split; try done; [by apply kinv_pending_yield|by exists true, k1].
    + split; [lia|done].
    + simpl. by rewrite orb_true_r.
  - do 2 eexists. split; [done|]. split; [reflexivity|]. split; [|split].
    + split; try done. exists (xYieldPending k1), k1. split; [done|]. by destruct k1.
    + split; [done|lia].
    + by rewrite orb_false_r.
Qed.
