(* ===== verification/KernelTimeout.v ===== *)
(** * Time outs: xTaskCheckForTimeOut measures elapsed ticks *)

From S2P Require Import Prelude ListSpec Kernel KernelInv KernelTick KernelResume.
#[local] Open Scope Z_scope.

Lemma s32_range z : -2147483648 <= s32 z < 2147483648.
Proof. unfold s32. pose proof (Z.mod_pos_bound (z + 2147483648) 4294967296). lia. Qed.

Lemma s32_succ z : s32 (z + 1) <> z.
Proof. pose proof (s32_range (z + 1)). unfold s32 in *. Z.div_mod_to_equations. lia. Qed.

(** The overflow count after [n] ticks, [n] less than a full turn. *)
Lemma tick_n_overflow n k k' : kinv k -> uxSchedulerSuspended k = 0 -> tick_n n k = Some k' ->
  Z.of_nat n < 4294967296 ->
  xNumOfOverflows k' = (if xTickCount k + Z.of_nat n <? 4294967296 then xNumOfOverflows k
                        else s32 (xNumOfOverflows k + 1)).
Proof.
  revert k. induction n as [|n IH]; intros k Hinv Hs.
  - intros E _. injection E as <-. pose proof (ki_tick (kinv_base _ Hinv)). rewrite Z.add_0_r.
    destruct (Z.ltb_spec (xTickCount k) 4294967296); [done|lia].
  - pose proof Hinv as [Hb Hblk _]. pose proof (ki_tick Hb). simpl tick_n.
    destruct (xTaskIncrementTick_ok k Hb Hblk Hs) as (k1 & sw & -> & Htk & _).
    cbn [mbind option_bind]. intros E Hn.
    rewrite (IH k1 (ticked_kinv _ _ Hinv Hs Htk)); [|by rewrite (tick_frame_suspended _ _ (tk_frame _ _ Htk))|done|lia].
    rewrite (tk_over _ _ Htk), (tk_count _ _ Htk), Nat2Z.inj_succ.
    destruct (decide (xTickCount k + 1 < 4294967296)).
    + rewrite u32_small by lia. destruct (Z.eqb_spec (xTickCount k + 1) 0); [lia|].
      by replace (xTickCount k + 1 + Z.of_nat n) with (xTickCount k + Z.succ (Z.of_nat n)) by lia.
    + assert (xTickCount k = 4294967295) as -> by lia. change (u32 (4294967295 + 1)) with 0. simpl.
      destruct (Z.ltb_spec (0 + Z.of_nat n) 4294967296); [|lia].
      destruct (Z.ltb_spec (4294967295 + Z.succ (Z.of_nat n)) 4294967296); [lia|done].
Qed.

(** What xTaskCheckForTimeOut reads of the time that passed. *)
Lemma elapsed_ticks k n k' : kinv k -> uxSchedulerSuspended k = 0 -> tick_n n k = Some k' ->
  Z.of_nat n < 4294967296 ->
  u32 (xTickCount k' - xTickCount k) = Z.of_nat n /\
  negb (xNumOfOverflows k' =? xNumOfOverflows k) && (xTickCount k' >=? xTickCount k) = false.
Proof.
  intros Hinv Hs Hrun Hn. pose proof (ki_tick (kinv_base _ Hinv)) as Ht.
  pose proof (tick_n_overflow n k k' Hinv Hs Hrun Hn) as Hov.
  destruct (tick_n_kinv n k Hinv Hs) as (k1 & E1 & _ & [Hc _ _ _] & _).
  rewrite Hrun in E1. injection E1 as <-. rewrite Hc, Hov, Z.geb_leb. split; [wrap_lia|].
  destruct (Z.ltb_spec (xTickCount k + Z.of_nat n) 4294967296) as [Hlow|Hhigh]; [by rewrite Z.eqb_refl|].
  destruct (Z.leb_spec (xTickCount k) (u32 (xTickCount k + Z.of_nat n))) as [Hge|_]; [wrap_lia|].
  by rewrite andb_false_r.
Qed.

(** C11: a time out state taken by vTaskSetTimeOutState and checked after
    [n] ticks (fewer than 2^32, whether or not the tick count overflowed in
    between) reports a time out exactly when the [w] ticks to wait have
    passed; otherwise the ticks that remain are [w - n] and the state starts
    again from the present. *)
Theorem timeout_counts_ticks k n k' w :
  kinv k -> uxSchedulerSuspended k = 0 -> tick_n n k = Some k' ->
  Z.of_nat n < 4294967296 -> 0 <= w < 4294967296 ->
  xTaskCheckForTimeOut (vTaskSetTimeOutState k) w k' =
    if Z.of_nat n <? w then (false, vTaskSetTimeOutState k', w - Z.of_nat n)
    else (true, vTaskSetTimeOutState k, 0).
Proof.
  intros Hinv Hs Hrun Hn Hw. destruct (elapsed_ticks k n k' Hinv Hs Hrun Hn) as [Hel Hov].
  unfold xTaskCheckForTimeOut, vTaskSetTimeOutState, vTaskInternalSetTimeOutState. simpl.
  rewrite Hel, Hov. destruct (Z.ltb_spec (Z.of_nat n) w); [|done].
  by rewrite (u32_small (w - Z.of_nat n)) by lia.
Qed.
