(* ===== verification/KernelPrio.v ===== *)
(** * Priority inheritance

    A task that blocks on a mutex lends its priority to the holder; the
    holder gives it back with its last mutex, and falls back to the priority
    of the waiters that are left when a waiter times out. *)

From S2P Require Import Prelude ListSpec Kernel KernelInv KernelTick KernelResume KernelSched.
#[local] Open Scope Z_scope.

(** Only the control block of [t] and the places of its own items change. *)
Record adjusted (t : Z) (k k' : Kernel) : Prop := mkAdjusted {
  aj_kinv : kinv k';
  aj_live : forall t', live k' t' <-> live k t';
  aj_tcbs : forall t', t' <> t -> tcb k' t' = tcb k t';
  aj_base : uxBasePriority (tcb k' t) = uxBasePriority (tcb k t);
  aj_others : forall i, i <> IState t -> kcontainer k' i = kcontainer k i;
  aj_ready : is_ready k t <-> is_ready k' t;
  aj_waiting : ~ is_ready k t -> kcontainer k' (IState t) = kcontainer k (IState t);
  aj_current : pxCurrentTCB k' = pxCurrentTCB k;
  aj_tick : xTickCount k' = xTickCount k;
  aj_susp : uxSchedulerSuspended k' = uxSchedulerSuspended k
}.

Lemma live_upd t f k t' : live k t -> live (upd_tcb t f k) t' <-> live k t'.
Proof.
  intros Hl. unfold live, upd_tcb. simpl. rewrite lookup_insert. case_decide; subst; [|done].
  split; [done|by eexists].
Qed.

Lemma size_upd t f k : live k t -> size (k_tcbs (upd_tcb t f k)) = size (k_tcbs k).
Proof. intros Hl. simpl. by apply map_size_insert_Some. Qed.

Lemma ready_not_ready_list k t : kbase k -> ~ is_ready k t -> forall q, kcontainer k (IState t) <> Some (LReady q).
Proof. intros Hb Hn q E. destruct (ki_state Hb _ _ E) as [_ Hq]. simpl in Hq. subst q. by apply Hn. Qed.

(** What the four places that change a priority come to: the event item gets
    a value if [v] says so, and a ready task changes lists. *)
Definition with_value (t : Z) (v : option Z) (k : Kernel) : Kernel :=
  match v with Some v => on_lists (set_value (IEvent t) v) k | None => k end.
Definition unready (t p : Z) (k : Kernel) : Kernel :=
  let k1 := on_lists (lRemove (IState t)) k in
  if list_length (LReady p) k1 =? 0 then portRESET_READY_PRIORITY p k1 else k1.
Definition reprioritised (t p : Z) (v : option Z) (k : Kernel) : Kernel :=
  if decide (is_ready k t) then
    prvAddTaskToReadyList t (upd_tcb t (set_uxPriority p)
      (unready t (uxPriority (tcb k t)) (with_value t v k)))
  else upd_tcb t (set_uxPriority p) (with_value t v k).

Lemma with_value_frame t v k : kbase k ->
  kbase (with_value t v k) /\ (forall i, kcontainer (with_value t v k) i = kcontainer k i) /\
  (forall l, klist (with_value t v k) l = klist k l) /\ exists L, with_value t v k = set_lists L k.
Proof.
  intros Hb. destruct v as [v|]; simpl; split_and!; try done.
  - by apply kbase_set_event_value.
  - intros i. unfold kcontainer. simpl. apply container_set_value.
  - by eexists.
  - exists (k_lists k). by destruct k.
Qed.

Lemma unready_frame t p k : exists T, unready t p k =
  set_uxTopReadyPriority T (on_lists (lRemove (IState t)) k).
Proof.
  unfold unready. destruct (list_length _ _ =? 0); [by eexists|].
  exists (uxTopReadyPriority k). by destruct k.
Qed.

Lemma reprio_frame t p v k : exists L T, reprioritised t p v k =
  set_lists L (set_uxTopReadyPriority T (upd_tcb t (set_uxPriority p) k)).
Proof.
  unfold reprioritised. assert (exists L, with_value t v k = set_lists L k) as (L & ->).
  { destruct v as [v|]; [by eexists|]. exists (k_lists k). by destruct k. }
  case_decide.
  - destruct (unready_frame t (uxPriority (tcb k t)) (set_lists L k)) as (T & ->).
    rewrite prvAdd_eq. by eexists _, _.
  - exists L, (uxTopReadyPriority k). by destruct k.
Qed.

Lemma reprio_containers t p v k i : kbase k ->
  kcontainer (reprioritised t p v k) i =
    (if decide (i = IState t) then
       if decide (is_ready k t) then Some (LReady p) else kcontainer k i
     else kcontainer k i).
Proof.
  intros Hb. destruct (with_value_frame t v k Hb) as (_ & Hc & _ & L & E).
  unfold reprioritised. case_decide as Hr.
  - destruct (unready_frame t (uxPriority (tcb k t)) (with_value t v k)) as (T & ->).
    rewrite prvAdd_eq. unfold kcontainer. simpl. rewrite container_lInsertEnd, tcb_upd_tcb.
    rewrite (decide_True (P := t = t)) by done. simpl. rewrite container_lRemove.
    change (container (k_lists (with_value t v k)) i) with (kcontainer (with_value t v k) i).
    rewrite Hc. repeat case_decide; done || congruence.
  - change (kcontainer (upd_tcb t (set_uxPriority p) (with_value t v k)) i)
      with (kcontainer (with_value t v k) i). rewrite Hc. by case_decide.
Qed.

Lemma reprio_list t p v k l : kbase k -> (forall q, l <> LReady q) ->
  klist (reprioritised t p v k) l = klist k l.
Proof.
  intros Hb Hl. destruct (with_value_frame t v k Hb) as (_ & Hc & Hlist & L & E).
  unfold reprioritised. case_decide as Hr; [|apply Hlist].
  destruct (unready_frame t (uxPriority (tcb k t)) (with_value t v k)) as (T & ->).
  rewrite prvAdd_eq. unfold klist. simpl. rewrite on_list_lInsertEnd_ne by (intros El; by apply (Hl _ (eq_sym El))).
  rewrite on_list_lRemove, decide_False; [apply Hlist|].
  change (kcontainer (with_value t v k) (IState t) <> Some l). rewrite Hc, Hr. intros [= El]. by apply (Hl _ (eq_sym El)).
Qed.

(** Of the values of the items only that of the event item may change. *)
Definition revalued (t : Z) (v : option Z) (k k' : Kernel) : Prop :=
  forall i, kvalue k' i = if decide (i = IEvent t) then default (kvalue k i) v else kvalue k i.

Lemma revalued_same t k : revalued t None k k.
Proof. intros i. by case_decide. Qed.
Lemma with_value_value t v k i :
  kvalue (with_value t v k) i = if decide (i = IEvent t) then default (kvalue k i) v else kvalue k i.
Proof.
  destruct v as [v|]; simpl; [|by case_decide]. rewrite kvalue_on_lists, value_set_value.
  destruct (decide (i = IEvent t)) as [->|]; [by rewrite decide_True|by rewrite decide_False by congruence].
Qed.
Lemma reprio_value t p v k : revalued t v k (reprioritised t p v k).
Proof.
  intros i. rewrite <- with_value_value. unfold reprioritised. case_decide; [|done].
  destruct (unready_frame t (uxPriority (tcb k t)) (with_value t v k)) as (T & ->). rewrite prvAdd_eq.
  unfold kvalue. simpl. by rewrite value_lInsertEnd, value_lRemove.
Qed.

Lemma reprio_kbase t p v k : kbase k -> live k t ->
  uxBasePriority (tcb k t) <= p < configMAX_PRIORITIES -> kbase (reprioritised t p v k).
Proof.
  intros Hb Hlive Hp. destruct (with_value_frame t v k Hb) as (Hb0 & Hc & _ & L & E).
  destruct (reprio_frame t p v k) as (L' & T' & E').
  assert (kbase_at (xTickCount k) (reprioritised t p v k)) as Hb'; [|by rewrite E' in *].
  unfold reprioritised. unfold kbase in Hb0. rewrite E in Hb0. simpl in Hb0. rewrite <- E in Hb0.
  assert (live (with_value t v k) t) as Hl0 by (by rewrite E).
  assert (tcb (with_value t v k) t = tcb k t) as Et0 by (by rewrite E). case_decide as Hr.
  - assert (kcontainer (with_value t v k) (IState t) = Some (LReady (uxPriority (tcb k t)))) as Hr0
      by (by rewrite Hc).
    pose proof (kbase_remove_ready _ _ _ Hb0 Hr0) as Hb1. cbv zeta in Hb1.
    fold (unready t (uxPriority (tcb k t)) (with_value t v k)) in Hb1.
    destruct (unready_frame t (uxPriority (tcb k t)) (with_value t v k)) as (T & E1).
    assert (kcontainer (unready t (uxPriority (tcb k t)) (with_value t v k)) (IState t) = None) as Hc1
      by (rewrite E1; unfold kcontainer; simpl; by rewrite container_lRemove, decide_True).
    assert (tcb (unready t (uxPriority (tcb k t)) (with_value t v k)) t = tcb k t) as Et1
      by (by rewrite E1).
    assert (live (unready t (uxPriority (tcb k t)) (with_value t v k)) t) as Hl1 by (by rewrite E1).
    apply kbase_add_ready; [|done|by apply live_upd].
    apply kbase_set_priority; [done|intros q; by rewrite Hc1|by rewrite Et1|done].
  - apply kbase_set_priority; [done| |by rewrite Et0|done].
    intros q. rewrite Hc. by apply ready_not_ready_list.
Qed.

Lemma reprioritised_ok k t p v : kinv k -> live k t ->
  uxBasePriority (tcb k t) <= p < configMAX_PRIORITIES ->
  adjusted t k (reprioritised t p v k) /\
  tcb (reprioritised t p v k) t = set_uxPriority p (tcb k t).
Proof.
  intros Hinv Hlive Hp. pose proof Hinv as [Hb Hblk [Hn1 Hn2 Hn3 Hn4 Hn5]].
  pose proof (reprio_kbase t p v k Hb Hlive Hp) as Hb'.
  pose proof (fun i => reprio_containers t p v k i Hb) as Hc.
  pose proof (fun l => reprio_list t p v k l Hb) as Hl.
  destruct (reprio_frame t p v k) as (L & T & E). set (k' := reprioritised t p v k) in *.
  assert (forall t', tcb k' t' = if decide (t = t') then set_uxPriority p (tcb k t) else tcb k t') as Et
    by (intros; rewrite E; apply tcb_upd_tcb).
  split; [|by rewrite Et, decide_True].
  split; try (by rewrite E).
  - split; [done| |].
    + intros u. rewrite !Hc, (decide_False (P := IEvent u = IState t)) by done. intros Hu.
      destruct (decide (u = t)) as [->|Hne]; [|rewrite !decide_False by congruence; by apply Hblk].
      rewrite !(decide_True (P := IState t = IState t)), !(decide_False (P := is_ready k t)); [by apply Hblk| |done].
      intros Hr. unfold is_ready in Hr. destruct (Hblk t Hu); congruence.
    + split; rewrite ?Hl by done; try (by rewrite E).
      rewrite E. rewrite <- (size_upd t (set_uxPriority p) k Hlive) in Hn1. exact Hn1.
  - intros t'. rewrite E. by apply live_upd.
  - intros t' Ht'. by rewrite Et, decide_False.
  - by rewrite Et, decide_True.
  - intros i Hi. by rewrite Hc, decide_False.
  - assert (is_ready k' t <-> kcontainer k' (IState t) = Some (LReady p)) as Hiff
      by (unfold is_ready; by rewrite Et, decide_True).
    rewrite Hiff, Hc, decide_True by done.
    destruct (decide (is_ready k t)) as [Hr|Hr]; [by split|]. split; [done|]. intros Hr'. exfalso. by apply (ready_not_ready_list k t Hb Hr) in Hr'.
  - intros Hr. by rewrite Hc, decide_True, decide_False.
Qed.

(** ** The operations *)

Lemma remove_unready t p k : kcontainer k (IState t) = Some (LReady p) ->
  exists k1 n, uxListRemove (IState t) k = Some (k1, n) /\ k1 = on_lists (lRemove (IState t)) k /\
    n = list_length (LReady p) k1 /\
    (if n =? 0 then taskRESET_READY_PRIORITY p k1 else k1) = unready t p k.
Proof.
  intros Ht. rewrite (uxListRemove_eq _ _ _ Ht). do 2 eexists. split_and!; [done..|].
  unfold taskRESET_READY_PRIORITY, unready. by destruct (list_length _ _ =? 0).
Qed.

Lemma set_value_lRemove i j v (s : Lists ListId ItemId) : i <> j ->
  set_value i v (lRemove j s) = lRemove j (set_value i v s).
Proof.
  intros Hij. unfold lRemove. rewrite container_set_value.
  destruct (container s j) as [l|]; [|done].
  change (mkLists (<[l := ring_remove j (ring s l)]> (l_rings s))
      (<[i := mkAItem v (container (set_container j None s) i)]>
        (<[j := mkAItem (value s j) None]> (l_items s))) =
    mkLists (<[l := ring_remove j (ring s l)]> (l_rings s))
      (<[j := mkAItem (value (set_value i v s) j) None]>
        (<[i := mkAItem v (container s i)]> (l_items s)))).
  rewrite container_set, value_set_value, !decide_False by congruence.
  by rewrite insert_insert_ne.
Qed.

(** Lending: the holder runs at the highest of the two priorities. *)
Lemma xTaskPriorityInherit_ok k h : kinv k -> live k h -> h <> 0 -> live k (pxCurrentTCB k) ->
  exists k', xTaskPriorityInherit h k = Some (k', uxBasePriority (tcb k h) <? cur_prio k) /\
    adjusted h k k' /\ uxPriority (tcb k' h) = Z.max (uxPriority (tcb k h)) (cur_prio k) /\
    uxMutexesHeld (tcb k' h) = uxMutexesHeld (tcb k h) /\
    revalued h (if (uxPriority (tcb k h) <? cur_prio k) && event_value_free h k
                then Some (u32 (configMAX_PRIORITIES - cur_prio k)) else None) k k'.
Proof.
  intros Hinv Hlive Hh Hcur. pose proof Hinv as [Hb _ _].
  destruct (ki_prio Hb _ Hlive) as [Hbase Hmax]. pose proof (ki_prio Hb _ Hcur) as [_ Hcmax].
  unfold xTaskPriorityInherit. destruct (Z.eqb_spec h 0); [done|]. cbn [negb]. fold (cur_prio k) in *.
  destruct (Z.ltb_spec (uxPriority (tcb k h)) (cur_prio k)) as [Hlt|Hge].
  - destruct (Z.ltb_spec (uxBasePriority (tcb k h)) (cur_prio k)); [|lia].
    set (v := if event_value_free h k then Some (u32 (configMAX_PRIORITIES - cur_prio k)) else None).
    destruct (reprioritised_ok k h (cur_prio k) v Hinv Hlive) as [Hadj Et]; [unfold cur_prio in *; lia|].
    exists (reprioritised h (cur_prio k) v k). rewrite Et.
    split; [|split_and!; [done|simpl; lia|done|apply reprio_value]].
    assert ((if event_value_free h k then on_lists (set_value (IEvent h)
      (u32 (configMAX_PRIORITIES - cur_prio k))) k else k) = with_value h v k) as Ev
      by (subst v; by destruct (event_value_free h k)).
    rewrite Ev.
    destruct (with_value_frame h v k Hb) as (_ & Hc & _ & L & EL).
    assert (tcb (with_value h v k) h = tcb k h) as Etv by (by rewrite EL).
    rewrite Hc, Etv. fold (is_ready k h). unfold reprioritised.
    destruct (decide (is_ready k h)) as [Hr|Hr]; [|done].
    destruct (remove_unready h (uxPriority (tcb k h)) (with_value h v k)) as (k1 & n1 & -> & Ek1 & _ & <-);
      [by rewrite Hc|].
    cbn [mbind option_bind]. assert (tcb k1 h = tcb k h) as -> by (rewrite Ek1, EL; done). done.
  - exists k. split; [done|]. split_and!; [by split|lia|done|apply revalued_same].
Qed.

Lemma adjusted_trans t k1 k2 k3 : adjusted t k1 k2 -> adjusted t k2 k3 -> adjusted t k1 k3.
Proof.
  intros [] []. split; try done; try congruence; intros.
  - by rewrite aj_live1.
  - by rewrite aj_tcbs1, aj_tcbs0.
  - by rewrite aj_others1, aj_others0.
  - by rewrite aj_ready0.
  - rewrite aj_waiting1, aj_waiting0; [done|done|by rewrite <- aj_ready0].
Qed.

(** A count of mutexes changes nothing the invariant reads. *)
Lemma adjusted_held k t n : kinv k -> live k t -> adjusted t k (upd_tcb t (set_uxMutexesHeld n) k).
Proof.
  intros [Hb Hblk [Hn1 Hn2 Hn3 Hn4 Hn5]] Hl.
  assert (forall u, tcb (upd_tcb t (set_uxMutexesHeld n) k) u =
    if decide (t = u) then set_uxMutexesHeld n (tcb k t) else tcb k u) as Et by (intros; apply tcb_upd_tcb).
  split; try done.
  - split; [by apply kbase_upd_other|done|]. split; try done.
    rewrite <- (size_upd t (set_uxMutexesHeld n) k Hl) in Hn1. exact Hn1.
  - intros u. by apply live_upd.
  - intros u Hu. by rewrite Et, decide_False.
  - by rewrite Et, decide_True.
  - unfold is_ready. by rewrite Et, decide_True.
Qed.

Lemma upd_tcb_ext t f g k : f (tcb k t) = g (tcb k t) -> upd_tcb t f k = upd_tcb t g k.
Proof. intros E. unfold upd_tcb. by rewrite E. Qed.

(** The event item's value may be assigned before or after the move. *)
Lemma unready_value t p q v k :
  on_lists (set_value (IEvent t) v) (upd_tcb t (set_uxPriority q) (unready t p k)) =
  upd_tcb t (set_uxPriority q) (unready t p (on_lists (set_value (IEvent t) v) k)).
Proof.
  assert (on_lists (set_value (IEvent t) v) (on_lists (lRemove (IState t)) k) =
    on_lists (lRemove (IState t)) (on_lists (set_value (IEvent t) v) k)) as E
    by (unfold on_lists; simpl; by rewrite set_value_lRemove).
  unfold unready. rewrite <- E.
  change (list_length (LReady p) (on_lists (set_value (IEvent t) v) (on_lists (lRemove (IState t)) k)))
    with (list_length (LReady p) (on_lists (lRemove (IState t)) k)).
  by destruct (list_length _ _ =? 0).
Qed.

(** Giving a mutex back: the last one restores the priority of the task. *)
Lemma xTaskPriorityDisinherit_ok k t : kinv k -> is_ready k t -> t <> 0 ->
  0 < uxMutexesHeld (tcb k t) < 4294967296 ->
  exists k', xTaskPriorityDisinherit t k =
      Some (k', (uxMutexesHeld (tcb k t) =? 1) && negb (uxPriority (tcb k t) =? uxBasePriority (tcb k t))) /\
    adjusted t k k' /\ uxMutexesHeld (tcb k' t) = uxMutexesHeld (tcb k t) - 1 /\
    uxPriority (tcb k' t) = (if uxMutexesHeld (tcb k t) =? 1 then uxBasePriority (tcb k t)
                             else uxPriority (tcb k t)) /\
    revalued t (if (uxMutexesHeld (tcb k t) =? 1) && negb (uxPriority (tcb k t) =? uxBasePriority (tcb k t))
                then Some (u32 (configMAX_PRIORITIES - uxBasePriority (tcb k t))) else None) k k'.
Proof.
  intros Hinv Hr Ht Hm. assert (live k t) as Hlive by (by apply (ki_state (kinv_base _ Hinv) _ _ Hr)).
  pose proof (ki_prio (kinv_base _ Hinv) _ Hlive) as [Hbase Hmax].
  set (k1 := upd_tcb t (set_uxMutexesHeld (uxMutexesHeld (tcb k t) - 1)) k).
  assert (upd_tcb t (fun c => set_uxMutexesHeld (u32 (uxMutexesHeld c - 1)) c) k = k1) as E1
    by (apply upd_tcb_ext; by rewrite u32_small by lia).
  pose proof (adjusted_held k t (uxMutexesHeld (tcb k t) - 1) Hinv Hlive) as Hadj1. fold k1 in Hadj1.
  assert (tcb k1 t = set_uxMutexesHeld (uxMutexesHeld (tcb k t) - 1) (tcb k t)) as Et1
    by (unfold k1; by rewrite tcb_upd_tcb, decide_True).
  assert (forall i, kvalue k1 i = kvalue k i) as Hv1 by done.
  unfold xTaskPriorityDisinherit. destruct (Z.eqb_spec t 0); [done|]. cbn [negb].
  rewrite E1. clearbody k1. rewrite Et1. simpl.
  destruct (Z.eqb_spec (uxPriority (tcb k t)) (uxBasePriority (tcb k t))) as [E|E]; cbn [negb].
  { exists k1. rewrite andb_false_r, Et1. split_and!; try done; [simpl; rewrite E; by case_match|].
    intros i. rewrite Hv1. by case_decide. }
  destruct (Z.eqb_spec (uxMutexesHeld (tcb k t) - 1) 0) as [Em|Em];
    destruct (Z.eqb_spec (uxMutexesHeld (tcb k t)) 1) as [Em'|]; try lia; simpl;
    [|exists k1; rewrite Et1; split_and!; try done; intros i; rewrite Hv1; by case_decide].
  set (v := u32 (configMAX_PRIORITIES - uxBasePriority (tcb k t))).
  destruct (reprioritised_ok k1 t (uxBasePriority (tcb k t)) (Some v)) as [Hadj2 Et2];
    [apply Hadj1|by apply Hadj1|rewrite Et1; simpl; lia|].
  exists (reprioritised t (uxBasePriority (tcb k t)) (Some v) k1).
  split_and!; [|by eapply adjusted_trans|rewrite Et2, Et1; simpl; lia|rewrite Et2; done|
    intros i; rewrite reprio_value; by rewrite Hv1].
  assert (is_ready k1 t) as Hr1 by (by apply (aj_ready _ _ _ Hadj1)).
  unfold is_ready in Hr1. rewrite Et1 in Hr1. simpl in Hr1.
  rewrite (uxListRemove_eq _ _ _ Hr1). cbn [mbind option_bind].
  assert (tcb (on_lists (lRemove (IState t)) k1) t = tcb k1 t) as -> by done.
  assert (uxPriority (tcb k1 t) = uxPriority (tcb k t)) as Ep1 by (by rewrite Et1).
  assert (uxBasePriority (tcb k1 t) = uxBasePriority (tcb k t)) as Eb1 by (by rewrite Et1).
  assert ((if list_length (LReady (uxPriority (tcb k t))) (on_lists (lRemove (IState t)) k1) =? 0
    then taskRESET_READY_PRIORITY (uxPriority (tcb k1 t)) (on_lists (lRemove (IState t)) k1)
    else on_lists (lRemove (IState t)) k1) = unready t (uxPriority (tcb k1 t)) k1) as ->
    by (rewrite Ep1; unfold taskRESET_READY_PRIORITY, unready; by destruct (list_length _ _ =? 0)).
  destruct (unready_frame t (uxPriority (tcb k1 t)) k1) as (T & Eu).
  rewrite (upd_tcb_ext _ _ (set_uxPriority (uxBasePriority (tcb k t)))) by (rewrite Eu; simpl; by rewrite <- Eb1).
  rewrite tcb_upd_tcb, decide_True by done. rewrite unready_value.
  unfold reprioritised. rewrite decide_True by (unfold is_ready; by rewrite Ep1). done.
Qed.

(** Two tasks on a list: it is not empty when one is taken off. *)
Lemma remove_of_two k i j l : kbase k -> kcontainer k i = Some l -> kcontainer k j = Some l -> i <> j ->
  (list_length l (on_lists (lRemove i) k) =? 0) = false.
Proof.
  intros Hb Hi Hj Hij. unfold list_length, klist. simpl.
  assert (j ∈ on_list (lRemove i (k_lists k)) l) as Hin.
  { apply elem_of_on_list_lRemove; [apply Hb|]. split; [|congruence].
    by apply (elem_klist _ _ _ Hb). }
  destruct (on_list _ _) as [|x xs]; [by apply elem_of_nil in Hin|]. simpl. lia.
Qed.

(** The priority a holder has after a waiter timed out, if the best of the other
    waiters has priority [w]: as long as it holds another mutex it keeps what it
    has, since that one may have raised it. *)
Definition prio_after_timeout (t w : Z) (k : Kernel) : Z :=
  if uxMutexesHeld (tcb k t) =? 1 then Z.max (uxBasePriority (tcb k t)) w else uxPriority (tcb k t).
Definition value_after_timeout (t w : Z) (k : Kernel) : option Z :=
  if negb (uxPriority (tcb k t) =? prio_after_timeout t w k) && event_value_free t k
  then Some (u32 (configMAX_PRIORITIES - prio_after_timeout t w k)) else None.

(** The code up to the ready lists. *)
Lemma after_timeout_eq k t w : t <> 0 ->
  let p := prio_after_timeout t w k in
  let k1 := upd_tcb t (set_uxPriority p) (with_value t (value_after_timeout t w k) k) in
  vTaskPriorityDisinheritAfterTimeout t w k =
    if uxPriority (tcb k t) =? p then Some k
    else if decide (kcontainer k1 (IState t) = Some (LReady (uxPriority (tcb k t)))) then
      '(k2, n) ← uxListRemove (IState t) k1;
      Some (prvAddTaskToReadyList t (if n =? 0 then taskRESET_READY_PRIORITY p k2 else k2))
    else Some k1.
Proof.
  intros Ht. unfold vTaskPriorityDisinheritAfterTimeout. destruct (Z.eqb_spec t 0); [done|]. cbn [negb].
  unfold value_after_timeout, prio_after_timeout. set (q := if uxBasePriority (tcb k t) <? w then w else uxBasePriority (tcb k t)).
  assert (q = Z.max (uxBasePriority (tcb k t)) w) as <-
    by (subst q; destruct (Z.ltb_spec (uxBasePriority (tcb k t)) w); lia). clearbody q. cbv zeta.
  destruct (Z.eqb_spec (uxMutexesHeld (tcb k t)) 1) as [Em|Em]; [|rewrite Z.eqb_refl; by destruct (negb (uxPriority (tcb k t) =? q))].
  destruct (Z.eqb_spec (uxPriority (tcb k t)) q) as [E|E]; cbn [negb andb]; [done|].
  set (k0 := upd_tcb t (set_uxPriority q) k). set (k1 := upd_tcb t (set_uxPriority q) (with_value _ _ _)).
  assert ((if event_value_free t k0 then on_lists (set_value (IEvent t) (u32 (configMAX_PRIORITIES - q))) k0 else k0) = k1) as ->
    by (unfold k1; change (event_value_free t k0) with (event_value_free t k); by destruct (event_value_free t k)).
  case_decide as Hr; [|done]. rewrite (uxListRemove_eq _ _ _ Hr). cbn [mbind option_bind].
  assert (tcb (on_lists (lRemove (IState t)) k1) t = set_uxPriority q (tcb k t)) as ->; [|by destruct (_ =? 0)].
  unfold k1. rewrite tcb_on_lists, tcb_upd_tcb, decide_True by done. by destruct (event_value_free t k).
Qed.

(** After a waiter timed out the holder keeps what the other waiters lend: if it
    is not ready, or leaves a task on its ready list (the running task, when the
    two have the same priority), or need not move. *)
Lemma vTaskPriorityDisinheritAfterTimeout_ok k t w : kinv k -> live k t -> t <> 0 -> 0 <= w < configMAX_PRIORITIES ->
  (is_ready k t -> uxPriority (tcb k t) <> prio_after_timeout t w k ->
   exists u, u <> t /\ kcontainer k (IState u) = Some (LReady (uxPriority (tcb k t)))) ->
  exists k', vTaskPriorityDisinheritAfterTimeout t w k = Some k' /\ adjusted t k k' /\
    uxMutexesHeld (tcb k' t) = uxMutexesHeld (tcb k t) /\
    uxPriority (tcb k' t) = prio_after_timeout t w k /\ revalued t (value_after_timeout t w k) k k'.
Proof.
  intros Hinv Hlive Ht Hw Hother. pose proof (ki_prio (kinv_base _ Hinv) _ Hlive) as [Hbase Hmax].
  rewrite after_timeout_eq by done. cbv zeta. set (p := prio_after_timeout t w k) in *. set (v := value_after_timeout t w k).
  destruct (Z.eqb_spec (uxPriority (tcb k t)) p) as [E|E].
  { exists k. split_and!; [done|by split|done|done|]. unfold v, value_after_timeout. fold p. rewrite E, Z.eqb_refl. apply revalued_same. }
  destruct (reprioritised_ok k t p v Hinv Hlive) as [Hadj Et]; [unfold p, prio_after_timeout; case_match; lia|].
  exists (reprioritised t p v k). rewrite Et. split; [|split_and!; [done|done|done|apply reprio_value]].
  destruct (with_value_frame t v k (kinv_base _ Hinv)) as (_ & Hc & Hl & L & EL).
  unfold reprioritised. change (kcontainer (upd_tcb t (set_uxPriority p) (with_value t v k)) (IState t))
    with (kcontainer (with_value t v k) (IState t)). rewrite Hc. fold (is_ready k t).
  destruct (decide (is_ready k t)) as [Hr|Hr]; [|done].
  assert ((list_length (LReady (uxPriority (tcb k t))) (on_lists (lRemove (IState t)) (with_value t v k)) =? 0)
    = false) as Hlen.
  { destruct (Hother Hr E) as (u & Hu & Hcu). apply (remove_of_two _ _ (IState u)); [|by rewrite Hc|by rewrite Hc|congruence].
    by apply with_value_frame, Hinv. }
  unfold unready. rewrite Hlen, (uxListRemove_eq _ _ (LReady (uxPriority (tcb k t)))) by (rewrite <- Hr; apply Hc).
  cbn [mbind option_bind].
  change (list_length ?l (on_lists ?f (upd_tcb t (set_uxPriority p) ?k0))) with (list_length l (on_lists f k0)).
  by rewrite Hlen.
Qed.

(** A ready list that does not hold just one task holds another. *)
Lemma ready_with_another k t : kbase k -> is_ready k t -> klist k (LReady (uxPriority (tcb k t))) <> [IState t] ->
  exists u, u <> t /\ kcontainer k (IState u) = Some (LReady (uxPriority (tcb k t))).
Proof.
  intros Hb Hr Hne. set (l := LReady (uxPriority (tcb k t))) in *.
  assert (IState t ∈ klist k l) as Hin by (by apply (elem_klist _ _ _ Hb)).
  assert (exists i, i ∈ klist k l /\ i <> IState t) as (i & Hi & Hit).
  { pose proof (wf_NoDup _ l (ki_wf Hb)) as Hnd. fold (klist k l) in Hnd. destruct (klist k l) as [|i [|j xs]]; [by apply elem_of_nil in Hin| |].
    - apply list_elem_of_singleton in Hin. congruence.
    - apply NoDup_cons in Hnd as [Hnd _]. destruct (decide (i = IState t)) as [->|]; [|exists i; split; [by left|done]].
      exists j. split; [by right; left|]. intros ->. apply Hnd. by left. }
  apply (elem_klist _ _ _ Hb) in Hi. destruct i as [u|u]; [by exists u; split; [congruence|]|].
  by destruct (ki_event Hb _ _ Hi).
Qed.

(** A ready holder that is alone on its list moves as well, but the code resets
    the bit of the list it goes to: that of the list it leaves empty stays. *)
Lemma after_timeout_alone k t w : kinv k -> t <> 0 -> 0 <= w < configMAX_PRIORITIES ->
  is_ready k t -> uxPriority (tcb k t) <> prio_after_timeout t w k -> klist k (LReady (uxPriority (tcb k t))) = [IState t] ->
  exists k', vTaskPriorityDisinheritAfterTimeout t w k = Some k' /\
    (forall u, tcb k' u = if decide (t = u) then set_uxPriority (prio_after_timeout t w k) (tcb k t) else tcb k u) /\
    (forall i, kcontainer k' i = if decide (i = IState t) then Some (LReady (prio_after_timeout t w k)) else kcontainer k i) /\
    klist k' (LReady (uxPriority (tcb k t))) = [] /\ Z.testbit (uxTopReadyPriority k') (uxPriority (tcb k t)) = true /\
    revalued t (value_after_timeout t w k) k k'.
Proof.
  intros Hinv Ht Hw Hr E Hone. pose proof (kinv_base _ Hinv) as Hb. assert (live k t) as Hlive by (by apply (ki_state Hb _ _ Hr)).
  pose proof (ki_prio Hb _ Hlive) as [Hbase Hmax].
  rewrite after_timeout_eq by done. cbv zeta. set (p := prio_after_timeout t w k) in *. set (v := value_after_timeout t w k).
  assert (0 <= p < 7) as Hp by (unfold p, prio_after_timeout, configMAX_PRIORITIES in *; case_match; lia). clearbody p.
  rewrite (proj2 (Z.eqb_neq _ _) E). destruct (with_value_frame t v k Hb) as (_ & Hc & Hl & L & EL).
  pose proof (with_value_value t v k) as Hv. set (k0 := with_value t v k) in *. clearbody k0.
  set (k1 := upd_tcb t (set_uxPriority p) k0).
  change (kcontainer k1 (IState t)) with (kcontainer k0 (IState t)). rewrite Hc. fold (is_ready k t). rewrite decide_True by done.
  assert (kcontainer k1 (IState t) = Some (LReady (uxPriority (tcb k t)))) as Hr1 by (rewrite <- Hr; apply Hc).
  rewrite (uxListRemove_eq _ _ _ Hr1). cbn [mbind option_bind]. set (k2 := on_lists (lRemove (IState t)) k1).
  assert (klist k2 (LReady (uxPriority (tcb k t))) = []) as Hnil.
  { unfold k2. rewrite klist_on_lists, on_list_lRemove, decide_True by done.
    change (on_list (k_lists k1)) with (klist k0). rewrite Hl, Hone. unfold remove_item. by rewrite decide_True. }
  set (k3 := if _ =? 0 then _ else _).
  assert (exists T, k3 = set_uxTopReadyPriority T k2 /\ Z.testbit T (uxPriority (tcb k t)) = true) as (T & -> & HT).
  { assert (Z.testbit (uxTopReadyPriority k2) (uxPriority (tcb k t)) = true) as Hbit.
    { change (uxTopReadyPriority k2) with (uxTopReadyPriority k0). rewrite EL. apply (ki_map Hb). by rewrite Hone. }
    assert (exists T, k2 = set_uxTopReadyPriority T k2 /\ Z.testbit T (uxPriority (tcb k t)) = true) as Hsame by (eexists; by split).
    unfold k3, taskRESET_READY_PRIORITY. destruct (list_length _ k2 =? 0); [|done]. destruct (list_length _ k2 =? 0); [|done].
    eexists. split; [reflexivity|]. rewrite testbit_reset; [rewrite Hbit; destruct (Z.eqb_spec p (uxPriority (tcb k t))); done| |lia].
    change (uxTopReadyPriority k2) with (uxTopReadyPriority k0). rewrite EL. apply (ki_bits Hb). }
  eexists. split; [reflexivity|]. rewrite prvAdd_eq.
  assert (tcb (set_uxTopReadyPriority T k2) t = set_uxPriority p (tcb k0 t)) as Et
    by (change (tcb (set_uxTopReadyPriority T k2)) with (tcb k1); unfold k1; by rewrite tcb_upd_tcb, decide_True).
  rewrite Et. split_and!.
  - intros u. change (tcb k1 u = if decide (t = u) then set_uxPriority p (tcb k t) else tcb k u). unfold k1. rewrite tcb_upd_tcb, EL. done.
  - intros i. unfold kcontainer. simpl. rewrite container_lInsertEnd, container_lRemove. fold (kcontainer k0 i). rewrite Hc.
    repeat case_decide; done.
  - unfold klist. simpl. rewrite on_list_lInsertEnd_ne by congruence. exact Hnil.
  - simpl. rewrite testbit_record by lia. by rewrite HT.
  - intros i. rewrite <- Hv. unfold kvalue. simpl. by rewrite value_lInsertEnd, value_lRemove.
Qed.

(** C12: how a mutex moves priorities, call by call, in any state of the kernel.
    (1) When the running task blocks on a mutex, the holder gets the higher of
    the two priorities, however many mutexes it holds, and stays on a ready
    list, the right one, if it was on one; the result says whether it runs above
    its base priority.  (2) When the running task gives a mutex back it holds one
    less, and returns to its base priority exactly when that was the last one,
    asking for a switch if that lowered it.  (3) When the running task times out
    waiting for a mutex whose holder is another task, and the best of the other
    waiters has priority [w], a holder of this one mutex falls to the higher of
    [w] and its base priority, and a holder of several keeps its priority.  In
    each case no other task changes, and the value of an event item changes only
    as the new priority says, in (1) and (3) only if it is not in use.
    (4) The case that (3) leaves out, a ready holder that is alone on its ready
    list and has to leave it: priorities and lists change in the same way, but
    the bit of the list left empty stays set. *)
Theorem priority_lent_and_returned k :
  kinv k -> running k -> pxCurrentTCB k <> 0 ->
  (forall h, live k h -> h <> 0 -> exists k',
     xTaskPriorityInherit h k = Some (k', uxBasePriority (tcb k h) <? cur_prio k) /\ adjusted h k k' /\
     uxPriority (tcb k' h) = Z.max (uxPriority (tcb k h)) (cur_prio k) /\ uxMutexesHeld (tcb k' h) = uxMutexesHeld (tcb k h) /\
     revalued h (if (uxPriority (tcb k h) <? cur_prio k) && event_value_free h k
                 then Some (u32 (configMAX_PRIORITIES - cur_prio k)) else None) k k') /\
  (let c := tcb k (pxCurrentTCB k) in
   let lowered := (uxMutexesHeld c =? 1) && negb (uxPriority c =? uxBasePriority c) in
   0 < uxMutexesHeld c < 4294967296 -> exists k',
     xTaskPriorityDisinherit (pxCurrentTCB k) k = Some (k', lowered) /\ adjusted (pxCurrentTCB k) k k' /\
     uxMutexesHeld (tcb k' (pxCurrentTCB k)) = uxMutexesHeld c - 1 /\
     uxPriority (tcb k' (pxCurrentTCB k)) = (if uxMutexesHeld c =? 1 then uxBasePriority c else uxPriority c) /\
     revalued (pxCurrentTCB k) (if lowered then Some (u32 (configMAX_PRIORITIES - uxBasePriority c)) else None) k k') /\
  (forall h w, live k h -> h <> 0 -> h <> pxCurrentTCB k -> 0 <= w < configMAX_PRIORITIES ->
     (is_ready k h -> uxPriority (tcb k h) <> prio_after_timeout h w k -> klist k (LReady (uxPriority (tcb k h))) <> [IState h]) ->
     exists k', vTaskPriorityDisinheritAfterTimeout h w k = Some k' /\ adjusted h k k' /\
       uxMutexesHeld (tcb k' h) = uxMutexesHeld (tcb k h) /\ uxPriority (tcb k' h) = prio_after_timeout h w k /\
       revalued h (value_after_timeout h w k) k k') /\
  (forall h w, h <> 0 -> h <> pxCurrentTCB k -> 0 <= w < configMAX_PRIORITIES ->
     is_ready k h -> uxPriority (tcb k h) <> prio_after_timeout h w k -> klist k (LReady (uxPriority (tcb k h))) = [IState h] ->
     exists k', vTaskPriorityDisinheritAfterTimeout h w k = Some k' /\
       (forall u, tcb k' u = if decide (h = u) then set_uxPriority (prio_after_timeout h w k) (tcb k h) else tcb k u) /\
       (forall i, kcontainer k' i = if decide (i = IState h) then Some (LReady (prio_after_timeout h w k)) else kcontainer k i) /\
       klist k' (LReady (uxPriority (tcb k h))) = [] /\ Z.testbit (uxTopReadyPriority k') (uxPriority (tcb k h)) = true /\
       revalued h (value_after_timeout h w k) k k').
Proof.
  intros Hinv Hrun Hcur. pose proof (kinv_base _ Hinv) as Hb. split_and!.
  - intros h Hl Hh. apply xTaskPriorityInherit_ok; [done..|by apply running_live].
  - cbv zeta. intros Hm. destruct (xTaskPriorityDisinherit_ok k (pxCurrentTCB k) Hinv Hrun Hcur Hm) as (k' & H). by exists k'.
  - intros h w Hl Hh _ Hw Hmany. apply vTaskPriorityDisinheritAfterTimeout_ok; [done..|]. intros Hr E.
    apply (ready_with_another k h Hb Hr), Hmany; done.
  - intros h w Hh _ Hw Hr E Hone. by apply after_timeout_alone.
Qed.
