(* ===== verification/Tasks.v ===== *)
(** * tasks.c: creating and deleting tasks

    A task's control block and stack come from the allocator of the kernel
    (the interface [Allocator]); the words pxPortInitialiseStack writes for the
    first dispatch are kept by address.  Deleting another task frees its memory
    at once, a task that deletes itself is cleaned up by the idle task. *)

From S2P Require Import Prelude ListSpec Allocator Kernel KernelInv KernelTick KernelResume KernelSched.
#[local] Open Scope Z_scope.

Definition configMAX_TASK_NAME_LEN : Z := 16.
(** [sizeof(TCB_t)] and [sizeof(StackType_t)]. *)
Definition sizeof_TCB_t : Z := 84.
Definition sizeof_StackType_t : Z := 4.

Definition portINITIAL_XPSR : Z := 0x01000000.
Definition portINITIAL_EXC_RETURN : Z := 0xfffffffd.
Definition portSTART_ADDRESS_MASK : Z := 0xfffffffe.

(** The kernel, the allocator and the words of the stacks. *)
Record System (H : Type) := mkSystem { sys_k : Kernel; sys_h : H; sys_stack : gmap Z Z }.
Arguments mkSystem {H} _ _ _.
Arguments sys_k {H} _.
Arguments sys_h {H} _.
Arguments sys_stack {H} _.

Section tasks.
Context {H : Type} `{Allocator H}.
(** What a new control block's name bytes held before, and the address of
    prvTaskExitError. *)
Context (old_name : list Z) (portTASK_RETURN_ADDRESS : Z).

(** The new top of the stack and the stack with the initial frame. *)
Definition pxPortInitialiseStack (pxTopOfStack pxCode pvParameters : Z) (m : gmap Z Z)
    : Z * gmap Z Z :=
  let w := sizeof_StackType_t in
  let top := u32 (pxTopOfStack - w) in
  let m := <[top := portINITIAL_XPSR]> m in
  let top := u32 (top - w) in
  let m := <[top := Z.land pxCode portSTART_ADDRESS_MASK]> m in
  let top := u32 (top - w) in
  let m := <[top := portTASK_RETURN_ADDRESS]> m in
  let top := u32 (top - 5 * w) in
  let m := <[top := pvParameters]> m in
  let top := u32 (top - w) in
  let m := <[top := portINITIAL_EXC_RETURN]> m in
  let top := u32 (top - 8 * w) in
  (top, m).

(** The copy of the name, up to and including its terminator. *)
Fixpoint copy_name (n x : nat) (pcName dst : list Z) : option (list Z) :=
  match n with
  | O => Some dst
  | S n =>
    c ← pcName !! x;
    let dst := <[x := c]> dst in
    if c =? 0 then Some dst else copy_name n (S x) pcName dst
  end.

Definition task_name (pcName : option (list Z)) : option (list Z) :=
  match pcName with
  | Some s =>
    dst ← copy_name (Z.to_nat configMAX_TASK_NAME_LEN) 0 s old_name;
    Some (<[Z.to_nat (configMAX_TASK_NAME_LEN - 1) := 0]> dst)
  | None => Some (<[0%nat := 0]> old_name)
  end.

Definition prvInitialiseNewTask (pxTaskCode : Z) (pcName : option (list Z))
    (ulStackDepth pvParameters uxPriority pxNewTCB pxStack : Z) (s : System H)
    : option (System H) :=
  let k := sys_k s in
  let pxTopOfStack := u32 (pxStack + sizeof_StackType_t * u32 (ulStackDepth - 1)) in
  let pxTopOfStack := Z.land pxTopOfStack (Z.lnot 7) in
  name ← task_name pcName;
  let uxPriority := if uxPriority >=? configMAX_PRIORITIES then configMAX_PRIORITIES - 1
                    else uxPriority in
  let k := on_lists (lInitialiseItem (IState pxNewTCB)) k in
  let k := on_lists (lInitialiseItem (IEvent pxNewTCB)) k in
  let k := on_lists (set_value (IEvent pxNewTCB) (u32 (configMAX_PRIORITIES - uxPriority))) k in
  let '(top, m) := pxPortInitialiseStack pxTopOfStack pxTaskCode pvParameters (sys_stack s) in
  let c := mkTCB top uxPriority pxStack name uxPriority 0 0 NotWaiting in
  Some (mkSystem (set_tcbs (<[pxNewTCB := c]> (k_tcbs k)) k) (sys_h s) m).

(** The handle of the new task, 0 for errCOULD_NOT_ALLOCATE_REQUIRED_MEMORY. *)
Definition xTaskCreate (pxTaskCode : Z) (pcName : option (list Z))
    (usStackDepth pvParameters uxPriority : Z) (s : System H) : option (System H * Z) :=
  '(h, pxStack) ← malloc (usStackDepth * sizeof_StackType_t) (sys_h s);
  '(h, pxNewTCB) ←
    (if negb (pxStack =? 0) then
       '(h, t) ← malloc sizeof_TCB_t h;
       if negb (t =? 0) then Some (h, t)
       else h ← free pxStack h; Some (h, 0)
     else Some (h, 0));
  let s := mkSystem (sys_k s) h (sys_stack s) in
  if negb (pxNewTCB =? 0) then
    s ← prvInitialiseNewTask pxTaskCode pcName usStackDepth pvParameters uxPriority pxNewTCB pxStack s;
    Some (mkSystem (prvAddNewTaskToReadyList pxNewTCB (sys_k s)) (sys_h s) (sys_stack s), pxNewTCB)
  else Some (s, 0).

Definition prvDeleteTCB (t : Z) (s : System H) : option (System H) :=
  h ← free (pxStack (tcb (sys_k s) t)) (sys_h s);
  h ← free t h;
  Some (mkSystem (set_tcbs (delete t (k_tcbs (sys_k s))) (sys_k s)) h (sys_stack s)).

(** A handle of 0 (NULL) is the calling task. *)
Definition prvGetTCBFromHandle (t : Z) (k : Kernel) : Z := if t =? 0 then pxCurrentTCB k else t.

Definition vTaskDelete (xTaskToDelete : Z) (s : System H) : option (System H) :=
  let k := sys_k s in
  let t := prvGetTCBFromHandle xTaskToDelete k in
  '(k, n) ← uxListRemove (IState t) k;
  let k := if n =? 0 then taskRESET_READY_PRIORITY (uxPriority (tcb k t)) k else k in
  k ← remove_event_item t k;
  let k := set_uxTaskNumber (u32 (uxTaskNumber k + 1)) k in
  s ← (if t =? pxCurrentTCB k then
         let k := on_lists (lInsertEnd LTermination (IState t)) k in
         Some (mkSystem (set_uxDeletedTasksWaitingCleanUp
                           (u32 (uxDeletedTasksWaitingCleanUp k + 1)) k) (sys_h s) (sys_stack s))
       else
         let k := set_uxCurrentNumberOfTasks (u32 (uxCurrentNumberOfTasks k - 1)) k in
         s ← prvDeleteTCB t (mkSystem k (sys_h s) (sys_stack s));
         Some (mkSystem (prvResetNextTaskUnblockTime (sys_k s)) (sys_h s) (sys_stack s)));
  Some (if xSchedulerRunning (sys_k s) && (t =? pxCurrentTCB (sys_k s))
        then mkSystem (portYIELD (sys_k s)) (sys_h s) (sys_stack s) else s).

(** The loop of prvCheckTasksWaitingTermination. *)
Fixpoint clean_up (fuel : nat) (s : System H) : option (System H) :=
  if uxDeletedTasksWaitingCleanUp (sys_k s) >? 0 then
    match fuel with
    | O => None
    | S fuel =>
      t ← head_owner LTermination (sys_k s);
      '(k, _) ← uxListRemove (IState t) (sys_k s);
      let k := set_uxCurrentNumberOfTasks (u32 (uxCurrentNumberOfTasks k - 1)) k in
      let k := set_uxDeletedTasksWaitingCleanUp (u32 (uxDeletedTasksWaitingCleanUp k - 1)) k in
      s ← prvDeleteTCB t (mkSystem k (sys_h s) (sys_stack s));
      clean_up fuel s
    end
  else Some s.

Definition prvCheckTasksWaitingTermination (s : System H) : option (System H) :=
  clean_up (Z.to_nat (uxDeletedTasksWaitingCleanUp (sys_k s))) s.

(** One turn of the idle task. *)
Definition prvIdleTask (s : System H) : option (System H) :=
  s ← prvCheckTasksWaitingTermination s;
  Some (if list_length (LReady 0) (sys_k s) >? 1
        then mkSystem (portYIELD (sys_k s)) (sys_h s) (sys_stack s) else s).
End tasks.

(** ** Adding a task to the kernel *)

(** The kernel before any task exists. *)
Record booted (k : Kernel) : Prop := mkBooted {
  bt_rings : forall l, ring (k_lists k) l = ring_empty;
  bt_items : forall i, kcontainer k i = None;
  bt_tcbs : k_tcbs k = ∅;
  bt_current : pxCurrentTCB k = 0;
  bt_counts : uxCurrentNumberOfTasks k = 0 /\ uxDeletedTasksWaitingCleanUp k = 0 /\
    uxTopReadyPriority k = 0 /\ xTickCount k = 0 /\ xNextTaskUnblockTime k = 0 /\
    uxSchedulerSuspended k = 0 /\ uxPendedTicks k = 0 /\ xSchedulerRunning k = false
}.

(** The control block of a new task, its items on no list. *)
Definition with_tcb (t v : Z) (c : TCB_t) (k : Kernel) : Kernel :=
  set_tcbs (<[t := c]> (k_tcbs k))
    (on_lists (set_value (IEvent t) v)
      (on_lists (lInitialiseItem (IEvent t)) (on_lists (lInitialiseItem (IState t)) k))).

Definition new_tcb (c : TCB_t) : Prop :=
  0 <= uxPriority c < configMAX_PRIORITIES /\ uxBasePriority c = uxPriority c.

Lemma set_container_id {L I} `{Countable L, Countable I} (i : I) c (s : Lists L I) :
  container s i = c -> forall j, container (set_container i c s) j = container s j /\
    value (set_container i c s) j = value s j.
Proof. intros E j. rewrite container_set, value_set_container. by case_decide; subst. Qed.

Section with_tcb.
Context (t v : Z) (c : TCB_t) (k : Kernel).

Lemma with_tcb_container i : (forall j, owner j = t -> kcontainer k j = None) ->
  kcontainer (with_tcb t v c k) i = kcontainer k i.
Proof.
  intros Hc. unfold kcontainer. simpl. unfold lInitialiseItem. rewrite container_set_value, !container_set.
  change (container (k_lists k) i) with (kcontainer k i).
  repeat case_decide; [by subst i; rewrite Hc..|done].
Qed.
Lemma with_tcb_value u : kvalue (with_tcb t v c k) (IState u) = kvalue k (IState u).
Proof.
  unfold kvalue. simpl. unfold lInitialiseItem.
  by rewrite value_set_value, decide_False, !value_set_container by done.
Qed.
Lemma with_tcb_ring l : ring (k_lists (with_tcb t v c k)) l = ring (k_lists k) l.
Proof. done. Qed.
Lemma with_tcb_tcb u : tcb (with_tcb t v c k) u = if decide (t = u) then c else tcb k u.
Proof. unfold tcb. simpl. rewrite lookup_insert. by case_decide. Qed.
Lemma with_tcb_live u : live (with_tcb t v c k) u <-> u = t \/ live k u.
Proof.
  unfold live. simpl. rewrite lookup_insert. case_decide; subst; [split; [by left|by eexists]|].
  split; [by right|]. intros [->|?]; done.
Qed.
End with_tcb.

Lemma not_live_free {lo} k t : kbase_at lo k -> k_tcbs k !! t = None ->
  forall i, owner i = t -> kcontainer k i = None.
Proof.
  intros Hb Ht i Hi. destruct (kcontainer k i) as [l|] eqn:E; [|done]. exfalso.
  assert (live k t) as [? ?]; [|congruence].
  destruct i as [u|u]; simpl in Hi; subst u; [by apply (ki_state Hb) in E as [? _]|by apply (ki_event Hb) in E as [? _]].
Qed.

Lemma kbase_with_tcb k t v c : kbase k -> k_tcbs k !! t = None -> new_tcb c ->
  kbase (with_tcb t v c k).
Proof.
  intros Hb Ht [Hp Hbp]. pose proof (not_live_free k t Hb Ht) as Hfree. pose proof Hb as [Kwf Kst Kev Kpr Kbits Kmap Ksw Ktick Knext Kdue Kover Ksort].
  assert (forall u, live k u -> u <> t) as Hne by (intros u [? ?] ->; congruence).
  split; try done; unfold klist.
  - split; [apply Kwf|]. intros i l. change (container (k_lists (with_tcb t v c k)) i) with
      (kcontainer (with_tcb t v c k) i). rewrite with_tcb_container by done. apply Kwf.
  - intros u l. rewrite with_tcb_container, with_tcb_live by done. intros E.
    destruct (Kst _ _ E) as [Hl Hs]. split; [by right|].
    destruct l; try done. simpl. rewrite with_tcb_tcb, decide_False; [done|]. by apply not_eq_sym, Hne.
  - intros u l. rewrite with_tcb_container, with_tcb_live by done. intros E.
    destruct (Kev _ _ E) as [Hl Hs]. split; [by right|done].
  - intros u Hu. rewrite with_tcb_tcb. case_decide; [lia|].
    apply Kpr. apply with_tcb_live in Hu as [->|?]; done.
  - intros u. rewrite with_tcb_container, with_tcb_value by done. apply Kdue.
  - intros u. rewrite with_tcb_container, with_tcb_value by done. apply Kover.
  - intros l Hl. eapply sorted_ext; [by apply Ksort|].
    intros a b Ha%(elem_klist _ _ _ Hb) Hbb%(elem_klist _ _ _ Hb). unfold wake_le.
    destruct (state_item _ _ _ Hb Ha) as [ta ->]; [tauto|].
    destruct (state_item _ _ _ Hb Hbb) as [tb ->]; [tauto|]. by rewrite !with_tcb_value.
Qed.

(** The lists after prvInitialiseTaskLists of a kernel that has none. *)
Lemma init_lists_ring k l : (forall l, ring (k_lists k) l = ring_empty) ->
  ring (k_lists (prvInitialiseTaskLists k)) l = ring_empty.
Proof.
  intros Hr. unfold prvInitialiseTaskLists. simpl.
  unfold lInitialise. rewrite !ring_upd. repeat case_decide; done.
Qed.
Lemma init_lists_container k i : kcontainer (prvInitialiseTaskLists k) i = kcontainer k i.
Proof. done. Qed.

Lemma init_lists_kbase k : (forall l, ring (k_lists k) l = ring_empty) ->
  (forall i, kcontainer k i = None) ->
  (forall t, live k t -> new_tcb (tcb k t)) -> uxTopReadyPriority k = 0 ->
  xTickCount k = 0 -> xNextTaskUnblockTime k = 0 -> kbase (prvInitialiseTaskLists k).
Proof.
  intros Hr Hc Ht Htop Htick Hnext.
  assert (forall l, klist (prvInitialiseTaskLists k) l = []) as Hl
    by (intros; unfold klist, on_list; by rewrite init_lists_ring).
  split.
  - split; [intros l; rewrite init_lists_ring by done; apply ring_wf_empty|].
    intros i l. change (kcontainer (prvInitialiseTaskLists k) i = Some l <->
      i ∈ klist (prvInitialiseTaskLists k) l). rewrite init_lists_container, Hc, Hl.
    split; [done|by intros ?%elem_of_nil].
  - intros t l. by rewrite init_lists_container, Hc.
  - intros t l. by rewrite init_lists_container, Hc.
  - intros t Hlive. destruct (Ht t Hlive) as [? E].
    change (tcb (prvInitialiseTaskLists k) t) with (tcb k t). lia.
  - change (uxTopReadyPriority (prvInitialiseTaskLists k)) with (uxTopReadyPriority k). rewrite Htop. lia.
  - intros p. change (uxTopReadyPriority (prvInitialiseTaskLists k)) with (uxTopReadyPriority k).
    rewrite Htop, Z.bits_0, Hl. done.
  - by left.
  - change (xTickCount (prvInitialiseTaskLists k)) with (xTickCount k). lia.
  - change (xNextTaskUnblockTime (prvInitialiseTaskLists k)) with (xNextTaskUnblockTime k). lia.
  - intros t. by rewrite init_lists_container, Hc.
  - intros t. by rewrite init_lists_container, Hc.
  - intros l _. rewrite Hl. constructor.
Qed.

(** Fields that the base invariant does not read. *)
Lemma kbase_fields k t n m : kbase k ->
  kbase (set_uxTaskNumber m (set_pxCurrentTCB t (set_uxCurrentNumberOfTasks n k))).
Proof. by intros []. Qed.

(** What prvAddNewTaskToReadyList does to a kernel with the task's control
    block in place. *)
Record task_added (t : Z) (c : TCB_t) (k k' : Kernel) : Prop := mkAdded {
  ta_kinv : kinv k';
  ta_tcbs : k_tcbs k' = <[t := c]> (k_tcbs k);
  ta_state : kcontainer k' (IState t) = Some (LReady (uxPriority c));
  ta_others : forall i, i <> IState t -> kcontainer k' i = kcontainer k i;
  ta_current : pxCurrentTCB k' =
    if (pxCurrentTCB k =? 0) || negb (xSchedulerRunning k) && (cur_prio k <=? uxPriority c)
    then t else pxCurrentTCB k;
  ta_yield : k_yield k' = k_yield k || (xSchedulerRunning k && (cur_prio k <? uxPriority c));
  ta_same : xSchedulerRunning k' = xSchedulerRunning k /\
    uxSchedulerSuspended k' = uxSchedulerSuspended k /\ xTickCount k' = xTickCount k
}.

Lemma add_to_ready_kinv k t : kbase k -> kblocked k -> kcounts k -> live k t ->
  kcontainer k (IState t) = None -> kcontainer k (IEvent t) = None ->
  kinv (prvAddTaskToReadyList t k).
Proof.
  intros Hb Hblk Hc Hl Ht He.
  assert (forall i, kcontainer (prvAddTaskToReadyList t k) i =
    if decide (IState t = i) then Some (LReady (uxPriority (tcb k t))) else kcontainer k i) as Hcont
    by (intros; rewrite prvAdd_eq; unfold kcontainer; simpl; by rewrite container_lInsertEnd).
  split; [by apply kbase_add_ready| |].
  - intros u. rewrite !Hcont. rewrite (decide_False (P := IState t = IEvent u)) by done.
    case_decide; [|apply Hblk]. simplify_eq. by rewrite He.
  - destruct Hc as [Hn1 Hn2 Hn3 Hn4 Hn5].
    assert (forall l, (forall q, l <> LReady q) -> klist (prvAddTaskToReadyList t k) l = klist k l) as Hl2.
    { intros l Hq. rewrite prvAdd_eq. unfold klist. simpl. rewrite on_list_lInsertEnd_ne; [done|].
      by apply not_eq_sym. }
    split; try (by rewrite prvAdd_eq); rewrite Hl2 by done; done.
Qed.

(** A kernel that is running, or that has no task yet. *)
Definition kernel_ok (k : Kernel) : Prop :=
  (kinv k /\ live k (pxCurrentTCB k) /\ pxCurrentTCB k <> 0) \/ booted k.

(** The bookkeeping before the new task is put on its ready list. *)
Lemma before_ready k t v c : kernel_ok k -> k_tcbs k !! t = None -> new_tcb c ->
  Z.of_nat (size (k_tcbs k)) + 1 < 4294967296 -> forall k4,
  (exists C m, k4 = set_uxTaskNumber m (set_pxCurrentTCB C
     (set_uxCurrentNumberOfTasks (u32 (uxCurrentNumberOfTasks k + 1)) (with_tcb t v c k))) /\
     kinv k) \/
  (exists m, k4 = set_uxTaskNumber m (prvInitialiseTaskLists (set_pxCurrentTCB t
     (set_uxCurrentNumberOfTasks (u32 (uxCurrentNumberOfTasks k + 1)) (with_tcb t v c k)))) /\
     booted k) ->
  kbase k4 /\ kblocked k4 /\ kcounts k4 /\ live k4 t /\
  (forall i, kcontainer k4 i = kcontainer k i) /\ kcontainer k (IState t) = None /\
  kcontainer k (IEvent t) = None.
Proof.
  intros Hok Ht Hc Hn k4 Hk4.
  assert (size (<[t := c]> (k_tcbs k)) = S (size (k_tcbs k))) as Hsize by (by rewrite map_size_insert_None).
  destruct Hk4 as [(C & m & -> & Hinv)|(m & -> & Hbt)].
  - pose proof Hinv as [Hb Hblk [[Hn1 Hn1'] Hn2 Hn3 Hn4 Hn5]]. pose proof (not_live_free k t Hb Ht) as Hfree.
    pose proof (fun i => with_tcb_container t v c k i Hfree) as Hcont.
    pose proof (kbase_with_tcb k t v c Hb Ht Hc) as Hb1.
    split; [by apply kbase_fields|]. split; [|split; [split; simpl; try done|split; [by apply with_tcb_live; left|]]].
    + intros u Hu. change (kcontainer (with_tcb t v c k) (IEvent u) <> None) in Hu.
      change (kcontainer (with_tcb t v c k) (IState u) = Some LDelayed1 \/
        kcontainer (with_tcb t v c k) (IState u) = Some LDelayed2). rewrite Hcont in *. by apply Hblk.
    + rewrite Hsize, Hn1, u32_small by lia. lia.
    + split_and!; [done|by apply Hfree..].
  - destruct Hbt as [Hr Hi Htcb Hcur (Hn1 & Hn2 & Htop & Htick & Hnext & Hs & Hp & Hrun)].
    assert (forall i, kcontainer (with_tcb t v c k) i = kcontainer k i) as Hcont
      by (intros i; apply with_tcb_container; intros; apply Hi).
    set (k3 := set_pxCurrentTCB t _).
    assert (kbase (prvInitialiseTaskLists k3)) as Hb3.
    { apply init_lists_kbase; try done.
      - intros i. change (kcontainer (with_tcb t v c k) i = None). by rewrite Hcont.
      - intros u Hu. apply (with_tcb_live t v c k) in Hu. change (new_tcb (tcb (with_tcb t v c k) u)).
        rewrite with_tcb_tcb. case_decide; [done|]. destruct Hu as [->|[? E]]; [done|].
        rewrite Htcb in E. done. }
    assert (forall l, klist (set_uxTaskNumber m (prvInitialiseTaskLists k3)) l = []) as Hl
      by (intros l; exact (f_equal r_items (init_lists_ring k3 l Hr))).
    split; [by destruct Hb3|]. split; [|split; [split; rewrite ?Hl|split; [by apply with_tcb_live; left|]]].
    + intros u Hu. exfalso. apply Hu. change (kcontainer (with_tcb t v c k) (IEvent u) = None). by rewrite Hcont.
    + change (u32 (uxCurrentNumberOfTasks k + 1) = Z.of_nat (size (<[t := c]> (k_tcbs k))) /\
        Z.of_nat (size (<[t := c]> (k_tcbs k))) < 4294967296). by rewrite Hsize, Htcb, Hn1.
    + exact Hn2.
    + change (0 <= uxSchedulerSuspended k < 4294967296). lia.
    + change (0 <= uxPendedTicks k < 4294967296). lia.
    + done.
    + split_and!; [done|apply Hi..].
Qed.

(** The assignments of prvAddNewTaskToReadyList to [pxCurrentTCB]. *)
Definition next_current (t : Z) (k : Kernel) : Z :=
  if (pxCurrentTCB k =? 0) ||
     negb (xSchedulerRunning k) && (uxPriority (tcb k (pxCurrentTCB k)) <=? uxPriority (tcb k t))
  then t else pxCurrentTCB k.

Lemma add_new_eq t k : exists k4,
  prvAddNewTaskToReadyList t k =
    (let k5 := prvAddTaskToReadyList t k4 in
     if xSchedulerRunning k && (uxPriority (tcb k (next_current t k)) <? uxPriority (tcb k t))
     then portYIELD k5 else k5) /\
  let k3 := set_pxCurrentTCB (next_current t k)
    (set_uxCurrentNumberOfTasks (u32 (uxCurrentNumberOfTasks k + 1)) k) in
  k4 = set_uxTaskNumber (u32 (uxTaskNumber k + 1))
    (if (pxCurrentTCB k =? 0) && (u32 (uxCurrentNumberOfTasks k + 1) =? 1)
     then prvInitialiseTaskLists k3 else k3).
Proof.
  eexists. split; [|cbv zeta; reflexivity]. unfold prvAddNewTaskToReadyList, next_current.
  set (n := u32 (uxCurrentNumberOfTasks k + 1)).
  change (pxCurrentTCB (set_uxCurrentNumberOfTasks n k)) with (pxCurrentTCB k).
  assert (set_pxCurrentTCB (pxCurrentTCB k) (set_uxCurrentNumberOfTasks n k) =
    set_uxCurrentNumberOfTasks n k) as Hid by (by destruct k).
  destruct (Z.eqb_spec (pxCurrentTCB k) 0) as [E|E]; simpl orb; simpl andb.
  - change (uxCurrentNumberOfTasks (set_pxCurrentTCB t (set_uxCurrentNumberOfTasks n k))) with n.
    destruct (n =? 1); simpl; by destruct (xSchedulerRunning k).
  - change (xSchedulerRunning (set_uxCurrentNumberOfTasks n k)) with (xSchedulerRunning k).
    destruct (xSchedulerRunning k) eqn:Er; cbn [negb andb]; simpl.
    + rewrite Hid. by rewrite Er.
    + change (tcb (set_uxCurrentNumberOfTasks n k)) with (tcb k).
      destruct (uxPriority (tcb k (pxCurrentTCB k)) <=? uxPriority (tcb k t)); simpl; [|rewrite Hid]; by rewrite Er.
Qed.

Lemma add_new_ok k t v c : kernel_ok k -> t <> 0 -> k_tcbs k !! t = None -> new_tcb c ->
  Z.of_nat (size (k_tcbs k)) + 1 < 4294967296 ->
  task_added t c k (prvAddNewTaskToReadyList t (with_tcb t v c k)).
Proof.
  intros Hok Ht Hnew Hc Hn.
  destruct (add_new_eq t (with_tcb t v c k)) as (k4 & -> & E4). cbv zeta in E4 |- *.
  set (C := next_current t (with_tcb t v c k)) in *.
  change (pxCurrentTCB (with_tcb t v c k)) with (pxCurrentTCB k) in *.
  change (xSchedulerRunning (with_tcb t v c k)) with (xSchedulerRunning k) in *.
  change (uxCurrentNumberOfTasks (with_tcb t v c k)) with (uxCurrentNumberOfTasks k) in *.
  assert (C = if (pxCurrentTCB k =? 0) || negb (xSchedulerRunning k) && (cur_prio k <=? uxPriority c)
    then t else pxCurrentTCB k) as EC.
  { subst C. unfold next_current. change (pxCurrentTCB (with_tcb t v c k)) with (pxCurrentTCB k).
    change (xSchedulerRunning (with_tcb t v c k)) with (xSchedulerRunning k).
    rewrite !with_tcb_tcb, (decide_True (P := t = t)) by done.
    destruct (Z.eqb_spec (pxCurrentTCB k) 0) as [E|E]; [done|].
    destruct Hok as [(_ & [? Hl] & _)|Hb]; [|by rewrite (bt_current _ Hb) in E].
    rewrite decide_False by congruence. done. }
  assert (((exists C0 m, k4 = set_uxTaskNumber m (set_pxCurrentTCB C0
     (set_uxCurrentNumberOfTasks (u32 (uxCurrentNumberOfTasks k + 1)) (with_tcb t v c k))) /\ kinv k) \/
    (exists m, k4 = set_uxTaskNumber m (prvInitialiseTaskLists (set_pxCurrentTCB t
     (set_uxCurrentNumberOfTasks (u32 (uxCurrentNumberOfTasks k + 1)) (with_tcb t v c k)))) /\
     booted k)) /\ pxCurrentTCB k4 = C) as [Hk4 EC4].
  { rewrite E4. split; [|by destruct (_ && _)].
    destruct Hok as [[Hinv Hne]|Hbt].
    - left. destruct Hne as [_ Hne]. destruct (Z.eqb_spec (pxCurrentTCB k) 0); [done|]. simpl. by eexists _, _.
    - right. pose proof Hbt as [_ _ _ Hcur0 (Hn0 & _)]. rewrite Hcur0, Hn0. simpl.
      rewrite EC, Hcur0. simpl. by eexists. }
  destruct (before_ready k t v c Hok Hnew Hc Hn k4 Hk4) as (Hb4 & Hblk4 & Hc4 & Hl4 & Hcont4 & Hst & Hev).
  assert (k_tcbs k4 = <[t := c]> (k_tcbs k) /\ xSchedulerRunning k4 = xSchedulerRunning k /\
    k_yield k4 = k_yield k /\ uxSchedulerSuspended k4 = uxSchedulerSuspended k /\ xTickCount k4 = xTickCount k)
    as (Et4 & Er4 & Ey4 & Es4 & Etk4) by (rewrite E4; by destruct (_ && _)).
  assert (tcb k4 t = c) as Etc by (unfold tcb; by rewrite Et4, lookup_insert_eq).
  set (k5 := prvAddTaskToReadyList t k4).
  assert (kinv k5) as Hinv5 by (apply add_to_ready_kinv; rewrite ?Hcont4; done).
  assert (forall i, kcontainer k5 i = if decide (IState t = i) then Some (LReady (uxPriority c)) else kcontainer k i) as Hcont5.
  { intros i. unfold k5. rewrite prvAdd_eq. unfold kcontainer at 1. simpl.
    rewrite container_lInsertEnd, Etc. case_decide; [done|apply Hcont4]. }
  set (y := xSchedulerRunning k && _).
  assert (y = (xSchedulerRunning k && (cur_prio k <? uxPriority c))) as Ey.
  { subst y. destruct (xSchedulerRunning k) eqn:Er; [|done]. simpl.
    rewrite !with_tcb_tcb, (decide_True (P := t = t)) by done. f_equal. rewrite EC. simpl.
    rewrite orb_false_r.
    destruct Hok as [(_ & [? Hl] & Hne)|Hb]; [|by destruct Hb as [_ _ _ _ (_&_&_&_&_&_&_&?)]; congruence].
    destruct (Z.eqb_spec (pxCurrentTCB k) 0); [done|]. by rewrite decide_False by congruence. }
  clearbody y. split.
  - destruct y; [by apply kinv_yield|done].
  - destruct y; simpl; by rewrite ?Et4.
  - destruct y; [change (kcontainer (portYIELD k5)) with (kcontainer k5)|]; by rewrite Hcont5, decide_True.
  - intros i Hi. destruct y; [change (kcontainer (portYIELD k5)) with (kcontainer k5)|];
      by rewrite Hcont5, decide_False by congruence.
  - rewrite <- EC, <- EC4. by destruct y.
  - rewrite <- Ey. destruct y; simpl; [by rewrite orb_true_r|by rewrite orb_false_r].
  - destruct y; simpl; by rewrite ?Er4, ?Es4, ?Etk4.
Qed.

(** ** Creating tasks *)

(** The memory of the tasks: a control block and a stack each, all distinct. *)
Record task_mem (k : Kernel) (bs : gmap Z Z) : Prop := mkTaskMem {
  tm_tcb : forall t, live k t -> bs !! t = Some sizeof_TCB_t /\ 0 < t < 4294967295;
  tm_stack : forall t, live k t -> is_Some (bs !! pxStack (tcb k t));
  tm_inj : forall t u, live k t -> live k u -> pxStack (tcb k t) = pxStack (tcb k u) -> t = u;
  tm_apart : forall t u, live k t -> live k u -> pxStack (tcb k t) <> u
}.

Lemma tasks_bounded (m : gmap Z TCB_t) : (forall t, is_Some (m !! t) -> 0 < t < 4294967295) ->
  Z.of_nat (size m) + 1 < 4294967296.
Proof.
  intros Hm. rewrite <- size_dom.
  assert (Z.of_nat (size (dom m)) <= Z.of_nat (size (list_to_set (C := gset Z) (seqZ 1 4294967294)))) as Hle.
  { apply inj_le. apply subseteq_size. intros t Ht%elem_of_dom%Hm.
    apply elem_of_list_to_set, elem_of_seqZ. lia. }
  rewrite size_list_to_set in Hle by apply NoDup_seqZ. rewrite length_seqZ in Hle. lia.
Qed.

Lemma initialise_stack_ok exit top code params m : 68 <= top < 4294967296 ->
  exists m', pxPortInitialiseStack exit top code params m = (top - 68, m') /\
    forall a, m' !! a <> m !! a -> top - 68 <= a < top.
Proof.
  intros Htop. unfold pxPortInitialiseStack, sizeof_StackType_t.
  rewrite (u32_small (top - 4)), (u32_small (top - 4 - 4)), (u32_small (top - 4 - 4 - 4)),
    (u32_small (top - 4 - 4 - 4 - 5 * 4)), (u32_small (top - 4 - 4 - 4 - 5 * 4 - 4)) by lia.
  rewrite u32_small by lia. eexists. split; [f_equal; lia|].
  intros a. rewrite !lookup_insert. repeat case_decide; try lia. done.
Qed.

Section create.
Context {H : Type} `{!Allocator H} {HA : AllocatorOk H} (old_name : list Z) (exit : Z).

Lemma with_tcb_frame exit' code name depth params prio t st (s : System H) nm :
  task_name old_name name = Some nm -> 0 <= prio ->
  exists c v m, prvInitialiseNewTask old_name exit' code name depth params prio t st s =
    Some (mkSystem (with_tcb t v c (sys_k s)) (sys_h s) m) /\
    new_tcb c /\ uxPriority c = Z.min prio 6 /\ pcTaskName c = nm /\ pxStack c = st /\
    (pxTopOfStack c, m) = pxPortInitialiseStack exit'
      (Z.land (u32 (st + 4 * u32 (depth - 1))) (Z.lnot 7)) code params (sys_stack s).
Proof.
  intros Hnm Hp. unfold prvInitialiseNewTask. rewrite Hnm. cbn [mbind option_bind].
  unfold configMAX_PRIORITIES, sizeof_StackType_t.
  set (p := if prio >=? 7 then 7 - 1 else prio).
  assert (p = Z.min prio 6) as Ep
    by (subst p; rewrite Z.geb_leb; destruct (Z.leb_spec 7 prio); lia).
  destruct (pxPortInitialiseStack _ _ _ _ _) as [top m]. do 3 eexists.
  split; [reflexivity|]. unfold new_tcb, configMAX_PRIORITIES. simpl. split_and!; (done || lia).
Qed.

(** The frame fits a stack of at least 19 words. *)
Lemma stack_frame_fits st depth code params m top m' : 0 < st -> st + 4 * depth <= 4294967296 ->
  st mod 8 = 0 -> 19 <= depth ->
  (top, m') = pxPortInitialiseStack exit
    (Z.land (u32 (st + 4 * u32 (depth - 1))) (Z.lnot 7)) code params m ->
  st <= top /\ forall a, m' !! a <> m !! a -> top <= a < st + 4 * depth.
Proof.
  intros Hst Hend Hal Hd. rewrite (u32_small (depth - 1)), u32_small by lia.
  rewrite Heap4.land_lnot_7. set (x := (st + 4 * (depth - 1)) / 8 * 8).
  assert (st + 4 * depth - 8 <= x <= st + 4 * depth - 4) as Hx
    by (subst x; Z.div_mod_to_equations; lia).
  destruct (initialise_stack_ok exit x code params m) as (m2 & -> & Hm2); [lia|].
  intros [= -> ->]. split; [lia|]. intros a Ha%Hm2. lia.
Qed.

Lemma task_mem_add k k' t c bs st n : task_mem k bs -> task_added t c k k' ->
  pxStack c = st -> fresh bs st n -> fresh (<[st := n]> bs) t sizeof_TCB_t ->
  task_mem k' (<[t := sizeof_TCB_t]> (<[st := n]> bs)).
Proof.
  intros [Ht Hs Hi Ha] Hadd Hst Hf1 Hf2.
  assert (forall u, live k' u <-> u = t \/ live k u) as Hl.
  { intros u. unfold live. rewrite (ta_tcbs _ _ _ _ Hadd), lookup_insert.
    case_decide; subst; [split; [by left|by eexists]|]. split; [by right|]. by intros [->|?]. }
  assert (forall u, pxStack (tcb k' u) = if decide (t = u) then st else pxStack (tcb k u)) as Hst'.
  { intros u. unfold tcb. rewrite (ta_tcbs _ _ _ _ Hadd), lookup_insert. by case_decide. }
  assert (st <> t) as Hne by (intros ->; pose proof (fr_new _ _ _ Hf2) as E; by rewrite lookup_insert_eq in E).
  pose proof (fr_new _ _ _ Hf1) as Hn1. pose proof (fr_new _ _ _ Hf2) as Hn2.
  rewrite lookup_insert_ne in Hn2 by done. destruct (fr_range _ _ _ Hf2) as [Hr1 Hr2]. unfold sizeof_TCB_t in Hr2.
  assert (forall u, live k u -> u <> t /\ u <> st /\ pxStack (tcb k u) <> st /\ pxStack (tcb k u) <> t) as Hne2.
  { intros u Hu. destruct (Ht u Hu) as [E _]. destruct (Hs u Hu) as [? E2]. split_and!; congruence. }
  split.
  - intros u [->|Hu]%Hl; [rewrite lookup_insert_eq; split; [done|lia]|].
    destruct (Hne2 u Hu) as (? & ? & _). rewrite !lookup_insert_ne by done. by apply Ht.
  - intros u Hu. rewrite Hst'. case_decide as Hd.
    + rewrite lookup_insert_ne by done. rewrite lookup_insert_eq. by eexists.
    + apply Hl in Hu as [->|Hu]; [done|]. destruct (Hne2 u Hu) as (? & ? & ? & ?).
      rewrite !lookup_insert_ne by done. by apply Hs.
  - intros u w Hu Hw. rewrite !Hst'. repeat case_decide; subst; try done.
    + intros E. apply Hl in Hw as [->|Hw]; [done|]. by destruct (Hne2 w Hw) as (? & ? & [] & ?).
    + intros E. apply Hl in Hu as [->|Hu]; [done|]. by destruct (Hne2 u Hu) as (? & ? & [] & ?).
    + apply Hl in Hu as [->|Hu]; [done|]. apply Hl in Hw as [->|Hw]; [done|]. by apply Hi.
  - intros u w Hu Hw. rewrite Hst'. case_decide; subst.
    + apply Hl in Hw as [->|Hw]; [done|]. destruct (Hne2 w Hw) as (? & ? & ?). done.
    + apply Hl in Hu as [->|Hu]; [done|]. destruct (Hne2 u Hu) as (? & ? & ? & ?).
      apply Hl in Hw as [->|Hw]; [done|]. by apply Ha.
Qed.

Lemma task_added_ok k k' t c : kernel_ok k -> t <> 0 -> task_added t c k k' -> kernel_ok k'.
Proof.
  intros Hok Ht [Hinv Htcb _ _ Hcur _ _]. left. split; [done|]. unfold live. rewrite Htcb, Hcur.
  destruct (Z.eqb_spec (pxCurrentTCB k) 0) as [E|E]; simpl.
  { split; [rewrite lookup_insert_eq; by eexists|done]. }
  destruct (_ && _); [split; [rewrite lookup_insert_eq; by eexists|done]|].
  split; [|done]. rewrite lookup_insert. case_decide; [by eexists|].
  destruct Hok as [(_ & Hl & _)|Hb]; [done|]. by rewrite (bt_current _ Hb) in E.
Qed.

(** C13: creating a task either fails for want of memory, and then leaves the
    kernel as it was and every block it took is given back, or makes a new
    task: its control block and stack are fresh memory, it is on the ready list
    of its priority (at most configMAX_PRIORITIES - 1), no other task's state
    changes, the scheduler is asked to switch if it is more urgent than the
    running task, and the initial frame lies within a stack of 19 words or more. *)
Theorem task_create_outcome code name depth params prio (s : System H) bs nm :
  kernel_ok (sys_k s) -> task_mem (sys_k s) bs -> owns (sys_h s) bs ->
  0 <= depth < 65536 -> 0 <= prio -> task_name old_name name = Some nm ->
  exists s' t, xTaskCreate old_name exit code name depth params prio s = Some (s', t) /\
    ((t = 0 /\ sys_k s' = sys_k s /\ owns (sys_h s') bs) \/
     exists c, let bs' := <[t := sizeof_TCB_t]> (<[pxStack c := depth * 4]> bs) in
       t <> 0 /\ ~ live (sys_k s) t /\ task_added t c (sys_k s) (sys_k s') /\ kernel_ok (sys_k s') /\
       uxPriority c = Z.min prio 6 /\ pcTaskName c = nm /\
       owns (sys_h s') bs' /\ task_mem (sys_k s') bs' /\
       (19 <= depth -> pxStack c <= pxTopOfStack c /\
          forall a, sys_stack s' !! a <> sys_stack s !! a ->
            pxTopOfStack c <= a < pxStack c + 4 * depth)).
Proof using HA.
  intros Hok Hmem Howns Hd Hp Hnm. unfold xTaskCreate, sizeof_StackType_t.
  destruct (malloc_ok (sys_h s) bs (depth * 4) Howns ltac:(lia)) as (h1 & st & -> & Hst).
  cbn [mbind option_bind]. destruct Hst as [[-> Ho1]|[Hf1 Ho1]].
  { simpl. do 2 eexists. split; [reflexivity|]. by left. }
  destruct (fr_range _ _ _ Hf1) as [Hst1 Hst2]. destruct (Z.eqb_spec st 0); [lia|]. cbn [negb].
  destruct (malloc_ok h1 _ sizeof_TCB_t Ho1 ltac:(done)) as (h2 & t & -> & Ht).
  cbn [mbind option_bind]. destruct Ht as [[-> Ho2]|[Hf2 Ho2]].
  { simpl. destruct (free_ok h2 _ st _ Ho2 (lookup_insert_eq _ _ _)) as (h3 & -> & Ho3). simpl.
    do 2 eexists. split; [reflexivity|]. left. split_and!; [done..|]. simpl.
    rewrite delete_insert_id in Ho3; [done|apply Hf1]. }
  destruct (fr_range _ _ _ Hf2) as [Ht1 Ht2]. destruct (Z.eqb_spec t 0); [lia|]. cbn [negb mbind option_bind].
  destruct (Z.eqb_spec t 0); [lia|]. cbn [negb].
  destruct (with_tcb_frame exit code name depth params prio t st
    (mkSystem (sys_k s) h2 (sys_stack s)) nm Hnm Hp) as (c & v & m & -> & Hnew & Hprio & Hname & Hstk & Hframe).
  cbn [mbind option_bind]. simpl in Hframe. do 2 eexists. split; [reflexivity|]. right. exists c. simpl.
  assert (~ live (sys_k s) t) as Hnl.
  { intros Hl. destruct (tm_tcb _ _ Hmem t Hl) as [E _]. pose proof (fr_new _ _ _ Hf2) as E2.
    apply lookup_insert_None in E2 as [E2 _]. congruence. }
  assert (k_tcbs (sys_k s) !! t = None) as Hnone
    by (destruct (k_tcbs (sys_k s) !! t) eqn:E; [by destruct Hnl; eexists|done]).
  assert (task_added t c (sys_k s) (prvAddNewTaskToReadyList t (with_tcb t v c (sys_k s)))) as Hadd.
  { apply add_new_ok; try done. apply tasks_bounded. intros u Hu. by apply (tm_tcb _ _ Hmem). }
  rewrite Hstk. split_and!; try done.
  - by eapply task_added_ok.
  - by eapply task_mem_add.
  - intros Hd19. apply (stack_frame_fits st depth code params (sys_stack s)); try done; [lia|].
    apply Hf1.
Qed.
End create.

(** ** Deleting tasks *)

(** Clearing the bit of a ready list that is empty. *)
Lemma kbase_reset_empty k p : kbase k -> 0 <= p < configMAX_PRIORITIES -> 
  kbase (taskRESET_READY_PRIORITY p k).
Proof.
  intros Hb Hp. unfold configMAX_PRIORITIES in Hp. unfold taskRESET_READY_PRIORITY, list_length.
  destruct (klist k (LReady p)) as [|x xs] eqn:E; [simpl|by destruct (Z.eqb_spec (Z.of_nat (length (x :: xs))) 0)].
  pose proof (ki_bits Hb) as Hbits. pose proof (ki_map Hb) as Hmap. destruct Hb as [].
  split; try done; simpl.
  - apply reset_range; lia.
  - intros q. rewrite testbit_reset by lia. change (klist (portRESET_READY_PRIORITY p k)) with (klist k).
    destruct (Z.eqb_spec p q) as [<-|Hne]; simpl.
    + rewrite andb_false_r, E. done.
    + rewrite andb_true_r. apply Hmap.
Qed.

(** Both items of a task are off their lists. *)
Definition unlinked (t : Z) (k k' : Kernel) : Prop := kbase k' /\ exists T,
  k' = set_uxTopReadyPriority T (on_lists (fun s => lRemove (IEvent t) (lRemove (IState t) s)) k).

Lemma unlink_ok k t l : kbase k -> kcontainer k (IState t) = Some l ->
  exists k1 n k2, uxListRemove (IState t) k = Some (k1, n) /\
    remove_event_item t (if n =? 0 then taskRESET_READY_PRIORITY (uxPriority (tcb k1 t)) k1 else k1)
      = Some k2 /\ unlinked t k k2.
Proof.
  intros Hb Ht. rewrite (uxListRemove_eq _ _ _ Ht). do 3 eexists. split; [done|].
  set (k1 := on_lists (lRemove (IState t)) k). set (n := list_length l k1).
  pose proof (ki_state Hb _ _ Ht) as [Hlive Hs]. pose proof (ki_prio Hb _ Hlive) as Hp.
  change (tcb k1 t) with (tcb k t).
  assert (kbase (if n =? 0 then taskRESET_READY_PRIORITY (uxPriority (tcb k t)) k1 else k1)) as Hb1.
  { assert ((exists p, l = LReady p) \/ ~ exists p, l = LReady p) as [[p ->]|Hn]
      by (clear Hs; destruct l; first [left; by eexists|right; by intros [??]]).
    - simpl in Hs. subst p. pose proof (kbase_remove_ready _ _ _ Hb Ht) as Hb1. fold k1 in Hb1. subst n.
      cbv zeta in Hb1. unfold taskRESET_READY_PRIORITY. revert Hb1. by destruct (list_length _ _ =? 0).
    - assert (kbase k1) as Hbk1.
      { apply kbase_remove; [done|]. intros p E. apply Hn. exists p. congruence. }
      destruct (n =? 0); [|done]. apply kbase_reset_empty; [done|lia]. }
  rewrite remove_event_eq. split; [done|].
  set (k2 := if n =? 0 then _ else _) in *.
  assert (exists T, k2 = set_uxTopReadyPriority T k1) as (T & E2).
  { subst k2. unfold taskRESET_READY_PRIORITY. destruct (n =? 0); [destruct (list_length _ _ =? 0)|];
      first [by eexists|exists (uxTopReadyPriority k1); by destruct k1]. }
  change (unlinked t k (on_lists (lRemove (IEvent t)) k2)). clearbody k2.
  split; [|exists T; by rewrite E2]. apply (kbase_remove k2); [by rewrite E2 in *|].
  intros p E. by destruct (ki_event Hb1 _ _ E).
Qed.

Lemma unlinked_container t k k' i : unlinked t k k' ->
  kcontainer k' i = if decide (owner i = t) then None else kcontainer k i.
Proof.
  intros (_ & T & ->). unfold kcontainer. simpl. rewrite !container_lRemove.
  destruct i as [u|u]; simpl; repeat case_decide; congruence.
Qed.

Lemma unlinked_list t k k' l : unlinked t k k' -> kcontainer k (IState t) <> Some l ->
  kcontainer k (IEvent t) <> Some l -> klist k' l = klist k l.
Proof.
  intros (_ & T & ->) H1 H2. unfold klist. simpl. unfold kcontainer in *.
  rewrite on_list_lRemove, container_lRemove, decide_False by (by case_decide).
  by rewrite on_list_lRemove, decide_False.
Qed.

(** Every task on the termination list exists. *)
Lemma term_le_tasks {lo} k : kbase_at lo k -> (length (klist k LTermination) <= size (k_tcbs k))%nat.
Proof.
  intros Hb. rewrite <- (length_fmap owner). apply length_le_size.
  - apply NoDup_fmap_2_strong; [|apply wf_NoDup, Hb].
    intros i j Hi%(elem_klist _ _ _ Hb) Hj%(elem_klist _ _ _ Hb) E.
    destruct (state_item _ _ _ Hb Hi) as [t ->]; [tauto|].
    destruct (state_item _ _ _ Hb Hj) as [u ->]; [tauto|]. simpl in E. by subst.
  - intros t (i & -> & Hi%(elem_klist _ _ _ Hb))%list_elem_of_fmap.
    destruct (state_item _ _ _ Hb Hi) as [u ->]; [tauto|]. by apply (ki_state Hb) in Hi as [? _].
Qed.

Lemma kbase_delete k t : kbase k -> (forall i, owner i = t -> kcontainer k i = None) ->
  kbase (set_tcbs (delete t (k_tcbs k)) k).
Proof.
  intros Hb Hfree. pose proof Hb as [Kwf Kst Kev Kpr Kbits Kmap Ksw Ktick Knext Kdue Kover Ksort].
  assert (forall u, live k u -> u <> t -> live (set_tcbs (delete t (k_tcbs k)) k) u) as Hl
    by (intros u Hu Hne; unfold live; simpl; by rewrite lookup_delete_ne).
  assert (forall u, u <> t -> tcb (set_tcbs (delete t (k_tcbs k)) k) u = tcb k u) as Ht
    by (intros u Hne; unfold tcb; simpl; by rewrite lookup_delete_ne).
  split; try done.
  - intros u l E. change (kcontainer k (IState u) = Some l) in E.
    assert (u <> t) as Hne by (intros ->; by rewrite (Hfree (IState t) eq_refl) in E).
    destruct (Kst _ _ E) as [Hlu Hs]. split; [auto|]. destruct l; try done. simpl in *. by rewrite Ht.
  - intros u l E. change (kcontainer k (IEvent u) = Some l) in E.
    assert (u <> t) as Hne by (intros ->; by rewrite (Hfree (IEvent t) eq_refl) in E).
    destruct (Kev _ _ E) as [Hlu Hs]. split; [auto|done].
  - intros u Hu. assert (u <> t) as Hne by (intros ->; destruct Hu as [? Hu]; simpl in Hu; by rewrite lookup_delete_eq in Hu).
    rewrite Ht by done. apply Kpr. destruct Hu as [c Hu]. simpl in Hu. rewrite lookup_delete_ne in Hu by done. by eexists.
Qed.

(** [t] is no task any more; nothing else changed for the others. *)
Record task_gone (t : Z) (k k' : Kernel) : Prop := mkGone {
  tg_kinv : kinv k';
  tg_tcbs : k_tcbs k' = delete t (k_tcbs k);
  tg_items : forall i, kcontainer k' i = if decide (owner i = t) then None else kcontainer k i;
  tg_current : pxCurrentTCB k' = pxCurrentTCB k;
  tg_same : xSchedulerRunning k' = xSchedulerRunning k /\ k_yield k' = k_yield k /\
    uxSchedulerSuspended k' = uxSchedulerSuspended k
}.

(** A kernel from which [t] was unlinked and whose counters were adjusted. *)
Lemma gone_ok k t k2 d n m : kinv k -> live k t -> kbase k2 ->
  (forall i, kcontainer k2 i = if decide (owner i = t) then None else kcontainer k i) ->
  d = Z.of_nat (length (klist k2 LTermination)) -> n = u32 (uxCurrentNumberOfTasks k - 1) ->
  (exists L T, k2 = set_lists L (set_uxTopReadyPriority T k)) ->
  task_gone t k (set_tcbs (delete t (k_tcbs k)) (set_uxDeletedTasksWaitingCleanUp d
    (set_uxCurrentNumberOfTasks n (set_uxTaskNumber m k2)))).
Proof.
  intros [Hb Hblk [[Hn1 Hn1'] Hn2 Hn3 Hn4 Hn5]] Hl Hb2 Hc Hd Hn (L & T & E2).
  set (k3 := set_tcbs _ _).
  assert (kbase k3) as Hb3.
  { assert (kbase (set_tcbs (delete t (k_tcbs k2)) k2)) as Hbd
      by (apply kbase_delete; [done|]; intros i Hi; by rewrite Hc, decide_True).
    assert (k_tcbs k2 = k_tcbs k) as Etc by (by rewrite E2). rewrite Etc in Hbd. by destruct Hbd. }
  assert (forall i, kcontainer k3 i = if decide (owner i = t) then None else kcontainer k i) as Hc3
    by (intros i; apply Hc).
  assert (uxSchedulerSuspended k3 = uxSchedulerSuspended k) as Hsusp by (subst k3; by rewrite E2).
  assert (uxPendedTicks k3 = uxPendedTicks k) as Hpend by (subst k3; by rewrite E2).
  assert (size (delete t (k_tcbs k)) = pred (size (k_tcbs k)) /\ size (k_tcbs k) <> 0%nat) as [Hsz Hpos].
  { destruct Hl as [c Hl]. split; [by rewrite map_size_delete, Hl|].
    intros Hz%map_size_empty_inv. by rewrite Hz in Hl. }
  split.
  - split; [done| |].
    + intros u. rewrite !Hc3. simpl. case_decide; [done|]. apply Hblk.
    + split.
      * change (n = Z.of_nat (size (delete t (k_tcbs k))) /\
          Z.of_nat (size (delete t (k_tcbs k))) < 4294967296). rewrite Hsz, Hn, Hn1, u32_small by lia. lia.
      * exact Hd.
      * by rewrite Hsusp.
      * by rewrite Hpend.
      * rewrite Hsusp, Hpend.
        intros Hs. destruct (Hn5 Hs) as [Hnil Hp]. split; [|done].
        apply (klist_nil _ _ Hb3). intros i. rewrite Hc3. case_decide; [done|].
        by apply (klist_nil _ _ Hb).
  - done.
  - done.
  - subst k3. by rewrite E2.
  - subst k3. by rewrite E2.
Qed.

Lemma gone_next k t k' e : task_gone t k k' -> kbase (set_xNextTaskUnblockTime e k') ->
  task_gone t k (set_xNextTaskUnblockTime e k').
Proof. intros [[Hb Hblk [? ? ? ? ?]] ? ? ? ?] Hb'. split; try done. Qed.

Lemma task_mem_same k k' bs : k_tcbs k' = k_tcbs k -> task_mem k bs -> task_mem k' bs.
Proof. intros E [M1 M2 M3 M4]. split; unfold live, tcb; rewrite E; done. Qed.

Lemma task_mem_delete k k' t bs : task_mem k bs -> live k t -> task_gone t k k' ->
  task_mem k' (delete t (delete (pxStack (tcb k t)) bs)).
Proof.
  intros [Ht Hs Hi Ha] Hl [_ Htcb _ _ _].
  assert (forall u, live k' u -> u <> t /\ live k u /\ tcb k' u = tcb k u) as Hlive.
  { intros u [c Hu]. rewrite Htcb in Hu. assert (u <> t) as Hne by (intros ->; by rewrite lookup_delete_eq in Hu).
    rewrite lookup_delete_ne in Hu by done. split_and!; [done|by eexists|].
    unfold tcb. by rewrite Htcb, lookup_delete_ne. }
  split.
  - intros u (Hne & Hu & _)%Hlive. rewrite lookup_delete_ne by done.
    rewrite lookup_delete_ne by (by apply Ha). by apply Ht.
  - intros u (Hne & Hu & ->)%Hlive. rewrite lookup_delete_ne by (intros E; by apply (Ha u t)).
    rewrite lookup_delete_ne by (intros E; apply Hne; by apply Hi). by apply Hs.
  - intros u w (_ & Hu & ->)%Hlive (_ & Hw & ->)%Hlive. by apply Hi.
  - intros u w (_ & Hu & ->)%Hlive (_ & Hw & _)%Hlive. by apply Ha.
Qed.

(** A task that deleted itself: it waits on the termination list. *)
Record task_ended (t : Z) (k k' : Kernel) : Prop := mkEnded {
  te_kinv : kinv k';
  te_tcbs : k_tcbs k' = k_tcbs k;
  te_state : kcontainer k' (IState t) = Some LTermination;
  te_others : forall i, i <> IState t -> kcontainer k' i = kcontainer k i;
  te_current : pxCurrentTCB k' = pxCurrentTCB k;
  te_yield : xSchedulerRunning k = true -> k_yield k' = true
}.

Lemma ended_ok k t k2 m : kinv k -> running k -> t = pxCurrentTCB k -> unlinked t k k2 ->
  let k3 := set_uxTaskNumber m k2 in
  task_ended t k (let k4 := set_uxDeletedTasksWaitingCleanUp (u32 (uxDeletedTasksWaitingCleanUp k3 + 1))
      (on_lists (lInsertEnd LTermination (IState t)) k3) in
    if xSchedulerRunning k then portYIELD k4 else k4).
Proof.
  intros Hinv Hrun Et Hun k3. pose proof Hinv as [Hb Hblk [[Hn1 Hn1'] Hn2 Hn3 Hn4 Hn5]].
  assert (live k t) as Hlive by (subst t; by apply running_live).
  assert (kcontainer k (IEvent t) = None) as Hev.
  { destruct (kcontainer k (IEvent t)) eqn:E; [|done]. exfalso. subst t. unfold running in Hrun.
    destruct (Hblk (pxCurrentTCB k)); congruence. }
  pose proof (unlinked_container t k k2) as Hcu. specialize (fun i => Hcu i Hun) as Hc2.
  destruct Hun as [Hb2 (T & E2)].
  assert (klist k2 LTermination = klist k LTermination) as Hterm.
  { apply (unlinked_list t); [split; [done|by eexists]|subst t; unfold running in Hrun; congruence|congruence]. }
  set (k5 := on_lists (lInsertEnd LTermination (IState t)) k2).
  assert (kbase k5) as Hb5.
  { apply (kbase_insert_other k2 (IState t) LTermination); try done; [|by right].
    split; [by rewrite Hc2, decide_True|]. split; [by rewrite E2|done]. }
  assert (forall i, kcontainer k5 i = if decide (IState t = i) then Some LTermination else kcontainer k2 i) as Hc5
    by (intros; unfold kcontainer, k5; simpl; by rewrite container_lInsertEnd).
  assert (forall i, i <> IState t -> kcontainer k5 i = kcontainer k i) as Hoth.
  { intros i Hi. rewrite Hc5, decide_False, Hc2 by congruence. case_decide as Ho; [|done].
    destruct i as [u|u]; simpl in Ho; subst u; [done|]. by rewrite Hev. }
  assert (klist k5 LTermination ≡ₚ IState t :: klist k LTermination) as Hperm
    by (rewrite <- Hterm; apply on_list_lInsertEnd_perm).
  pose proof (term_le_tasks k5 Hb5) as Hle.
  assert (k_tcbs k5 = k_tcbs k /\ uxCurrentNumberOfTasks k5 = uxCurrentNumberOfTasks k /\
    uxSchedulerSuspended k5 = uxSchedulerSuspended k /\ uxPendedTicks k5 = uxPendedTicks k /\
    pxCurrentTCB k5 = pxCurrentTCB k /\ uxDeletedTasksWaitingCleanUp k2 = uxDeletedTasksWaitingCleanUp k)
    as (F1 & F2 & F3 & F4 & F5 & F6) by (unfold k5; by rewrite E2).
  set (k4 := set_uxDeletedTasksWaitingCleanUp (u32 (uxDeletedTasksWaitingCleanUp k3 + 1))
    (on_lists (lInsertEnd LTermination (IState t)) k3)).
  assert (kinv k4) as Hinv4.
  { split; [by destruct Hb5| |split].
    - intros u. change (kcontainer k5 (IEvent u) <> None -> kcontainer k5 (IState u) = Some LDelayed1 \/
        kcontainer k5 (IState u) = Some LDelayed2). rewrite Hoth by done. intros Hu.
      destruct (decide (u = t)) as [->|]; [congruence|]. rewrite Hoth by congruence. by apply Hblk.
    - change (uxCurrentNumberOfTasks k5 = Z.of_nat (size (k_tcbs k5)) /\ Z.of_nat (size (k_tcbs k5)) < 4294967296).
      by rewrite F1, F2.
    - change (u32 (uxDeletedTasksWaitingCleanUp k2 + 1) = Z.of_nat (length (klist k5 LTermination))).
      rewrite F1, Hperm in Hle. rewrite Hperm, F6, Hn2. simpl in *. rewrite u32_small by lia. lia.
    - change (0 <= uxSchedulerSuspended k5 < 4294967296). by rewrite F3.
    - change (0 <= uxPendedTicks k5 < 4294967296). by rewrite F4.
    - change (uxSchedulerSuspended k5 = 0 -> klist k5 LPendingReady = [] /\ uxPendedTicks k5 = 0).
      rewrite F3, F4. intros Hs. destruct (Hn5 Hs) as [Hnil ?]. split; [|done].
      apply (klist_nil _ _ Hb5). intros i. destruct (decide (i = IState t)) as [->|Hi].
      + by rewrite Hc5, decide_True.
      + rewrite Hoth by done. by apply (klist_nil _ _ Hb). }
  cbv zeta. fold k4. destruct (xSchedulerRunning k) eqn:Er.
  all: split; [first [by apply kinv_yield|done]|exact F1| |exact Hoth|exact F5|first [done|congruence]].
  all: change (kcontainer k5 (IState t) = Some LTermination); by rewrite Hc5, decide_True.
Qed.

Section delete.
Context {H : Type} `{!Allocator H} {HA : AllocatorOk H}.

Lemma deleteTCB_ok t (s : System H) k0 bs : task_mem k0 bs -> live k0 t -> owns (sys_h s) bs ->
  tcb (sys_k s) t = tcb k0 t ->
  exists h, prvDeleteTCB t s =
      Some (mkSystem (set_tcbs (delete t (k_tcbs (sys_k s))) (sys_k s)) h (sys_stack s)) /\
    owns h (delete t (delete (pxStack (tcb k0 t)) bs)).
Proof using HA.
  intros Hm Hl Ho Et. unfold prvDeleteTCB. rewrite Et.
  destruct (tm_stack _ _ Hm t Hl) as [n Hst]. destruct (tm_tcb _ _ Hm t Hl) as [Htc _].
  destruct (free_ok (sys_h s) bs _ n Ho Hst) as (h1 & -> & Ho1). cbn [mbind option_bind].
  destruct (free_ok h1 _ t sizeof_TCB_t Ho1) as (h2 & -> & Ho2).
  { rewrite lookup_delete_ne; [done|]. by apply (tm_apart _ _ Hm). }
  simpl. by eexists.
Qed.

(** C14: deleting another task takes it off every list it is on, whatever it
    was doing, and gives its stack and control block back; a task that deletes
    itself is moved to the termination list, keeps its memory for the moment,
    and asks for a context switch.  All other tasks stay where they are. *)
Theorem task_delete_outcome handle (s : System H) bs :
  kinv (sys_k s) -> task_mem (sys_k s) bs -> owns (sys_h s) bs ->
  let t := prvGetTCBFromHandle handle (sys_k s) in
  kcontainer (sys_k s) (IState t) <> None -> kcontainer (sys_k s) (IState t) <> Some LTermination ->
  (t = pxCurrentTCB (sys_k s) -> running (sys_k s)) ->
  exists s', vTaskDelete handle s = Some s' /\
    if decide (t = pxCurrentTCB (sys_k s)) then
      task_ended t (sys_k s) (sys_k s') /\ owns (sys_h s') bs /\ task_mem (sys_k s') bs
    else
      let bs' := delete t (delete (pxStack (tcb (sys_k s) t)) bs) in
      task_gone t (sys_k s) (sys_k s') /\ owns (sys_h s') bs' /\ task_mem (sys_k s') bs'.
Proof using HA.
  intros Hinv Hm Ho t Hlist Hnt Hrun. unfold vTaskDelete. fold t. set (k := sys_k s) in *.
  destruct (kcontainer k (IState t)) as [l|] eqn:El; [|done].
  pose proof (kinv_base _ Hinv) as Hb. pose proof (ki_state Hb _ _ El) as [Hlive _].
  destruct (unlink_ok k t l Hb El) as (k1 & n & k2 & -> & E2 & Hun). cbn [mbind option_bind].
  rewrite E2. cbn [mbind option_bind]. pose proof (fun i => unlinked_container t k k2 i Hun) as Hc2.
  pose proof Hun as [Hb2 (T & Ek2)].
  assert (pxCurrentTCB k2 = pxCurrentTCB k /\ xSchedulerRunning k2 = xSchedulerRunning k) as [Ec Er]
    by (by rewrite Ek2).
  change (pxCurrentTCB (set_uxTaskNumber ?m k2)) with (pxCurrentTCB k2). rewrite Ec.
  destruct (Z.eqb_spec t (pxCurrentTCB k)) as [Et|Et].
  - cbn [mbind option_bind]. cbn [sys_k sys_h sys_stack]. eexists. split; [reflexivity|]. rewrite decide_True by done.
    pose proof (ended_ok k t k2 (u32 (uxTaskNumber k2 + 1)) Hinv (Hrun Et) Et Hun) as Hend.
    change (xSchedulerRunning _) with (xSchedulerRunning k2). change (pxCurrentTCB _) with (pxCurrentTCB k2).
    rewrite Ec, Er, Et, Z.eqb_refl, andb_true_r. rewrite Et in Hend. cbv zeta in Hend.
    destruct (xSchedulerRunning k); simpl; (split; [exact Hend|split; [done|]]);
      apply (task_mem_same k); first [apply (te_tcbs _ _ _ Hend)|done].
  - set (k3 := set_uxCurrentNumberOfTasks _ _).
    assert (uxDeletedTasksWaitingCleanUp k2 = uxDeletedTasksWaitingCleanUp k /\ k_tcbs k2 = k_tcbs k /\
      uxCurrentNumberOfTasks k2 = uxCurrentNumberOfTasks k) as (Ed & Etc & En) by (by rewrite Ek2).
    destruct (deleteTCB_ok t (mkSystem k3 (sys_h s) (sys_stack s)) k bs Hm Hlive Ho) as (h & -> & Ho').
    { unfold tcb. simpl. by rewrite Etc. }
    cbn [mbind option_bind]. cbn [sys_k sys_h sys_stack].
    assert (task_gone t k (set_tcbs (delete t (k_tcbs k3)) k3)) as Hgone.
    { change (k_tcbs k3) with (k_tcbs k2). rewrite Etc.
      assert (k3 = set_uxDeletedTasksWaitingCleanUp (uxDeletedTasksWaitingCleanUp k2) k3) as -> by (by destruct k2).
      apply (gone_ok k t k2); try done.
      - rewrite Ed. destruct Hinv as [_ Hblk [_ -> _ _ _]]. f_equal. f_equal. symmetry.
        apply (unlinked_list t); [done|congruence|].
        intros E. by destruct (ki_event Hb _ _ E).
      - simpl. by rewrite En.
      - rewrite Ek2. by eexists _, _. }
    destruct (reset_next_ok _ (kinv_base _ (tg_kinv _ _ _ Hgone))) as (e & -> & Hbe).
    pose proof (gone_next _ _ _ _ Hgone Hbe) as Hgone'.
    pose proof (tg_current _ _ _ Hgone') as Ecur. cbn [sys_k sys_h sys_stack].
    rewrite Ecur. destruct (Z.eqb_spec t (pxCurrentTCB k)); [done|]. rewrite andb_false_r.
    eexists. split; [reflexivity|]. rewrite decide_False by done. simpl. split; [exact Hgone'|]. split; [done|].
    by apply (task_mem_delete k).
Qed.

(** The tasks on the termination list are gone, and their memory with them. *)
Record cleaned (k k' : Kernel) (bs bs' : gmap Z Z) : Prop := mkCleaned {
  cl_kinv : kinv k';
  cl_live : forall t, live k' t <-> live k t /\ kcontainer k (IState t) <> Some LTermination;
  cl_items : forall i, kcontainer k (IState (owner i)) <> Some LTermination ->
    kcontainer k' i = kcontainer k i;
  cl_tcbs : forall t, live k' t -> tcb k' t = tcb k t;
  cl_none : uxDeletedTasksWaitingCleanUp k' = 0;
  cl_current : pxCurrentTCB k' = pxCurrentTCB k;
  cl_yield : k_yield k' = k_yield k;
  cl_mem : task_mem k' bs';
  cl_blocks : forall p w, bs' !! p = Some w <-> bs !! p = Some w /\
    forall t, kcontainer k (IState t) = Some LTermination -> p <> t /\ p <> pxStack (tcb k t)
}.

Lemma term_head k : kinv k -> uxDeletedTasksWaitingCleanUp k > 0 ->
  exists t, head_owner LTermination k = Some t /\ kcontainer k (IState t) = Some LTermination.
Proof.
  intros [Hb _ [_ Hd _ _ _]] Hpos. unfold head_owner. rewrite Hd in Hpos.
  destruct (klist k LTermination) as [|i xs] eqn:E; [simpl in Hpos; lia|]. simpl.
  assert (kcontainer k i = Some LTermination) as Hi by (apply (elem_klist _ _ _ Hb); rewrite E; by left).
  destruct (state_item _ _ _ Hb Hi) as [t ->]; [tauto|]. by exists t.
Qed.

Lemma ended_event_free k t : kinv k -> kcontainer k (IState t) = Some LTermination ->
  kcontainer k (IEvent t) = None.
Proof.
  intros [_ Hblk _] Ht. destruct (kcontainer k (IEvent t)) eqn:E; [|done]. exfalso.
  destruct (Hblk t); congruence.
Qed.

(** One turn of the loop. *)
Lemma clean_step k t : kinv k -> kcontainer k (IState t) = Some LTermination ->
  let k2 := on_lists (lRemove (IState t)) k in
  task_gone t k (set_tcbs (delete t (k_tcbs k))
    (set_uxDeletedTasksWaitingCleanUp (u32 (uxDeletedTasksWaitingCleanUp k - 1))
      (set_uxCurrentNumberOfTasks (u32 (uxCurrentNumberOfTasks k - 1)) k2))) /\
  u32 (uxDeletedTasksWaitingCleanUp k - 1) = uxDeletedTasksWaitingCleanUp k - 1.
Proof.
  intros Hinv Ht k2. pose proof Hinv as [Hb Hblk [Hn Hd _ _ _]].
  pose proof (ended_event_free k t Hinv Ht) as Hev. pose proof (ki_state Hb _ _ Ht) as [Hlive _].
  assert (uxDeletedTasksWaitingCleanUp k - 1 = Z.of_nat (length (klist k2 LTermination))) as Elen.
  { rewrite Hd. unfold klist, k2. simpl. rewrite on_list_lRemove, decide_True by exact Ht.
    assert (IState t ∈ on_list (k_lists k) LTermination) as Hin by (by apply (elem_klist _ _ _ Hb)).
    pose proof (length_remove_item (IState t) _ Hin). unfold klist. lia. }
  pose proof (term_le_tasks k Hb) as Hle.
  assert (u32 (uxDeletedTasksWaitingCleanUp k - 1) = uxDeletedTasksWaitingCleanUp k - 1) as Hu
    by (apply u32_small; rewrite Hd in *; lia).
  split; [|done].
  assert (kbase k2) as Hb2 by (apply kbase_remove; [done|congruence]).
  assert (set_uxTaskNumber (uxTaskNumber k2) k2 = k2) as Hid by (by destruct k).
  rewrite <- Hid. apply (gone_ok k t k2); try done.
  - intros i. unfold k2, kcontainer. simpl. rewrite container_lRemove.
    destruct i as [u|u]; simpl; repeat case_decide; try congruence. subst u. exact Hev.
  - by rewrite Hu.
  - exists (k_lists k2), (uxTopReadyPriority k). by destruct k.
Qed.

Lemma clean_up_ok n (s : System H) bs : kinv (sys_k s) -> task_mem (sys_k s) bs ->
  owns (sys_h s) bs -> uxDeletedTasksWaitingCleanUp (sys_k s) = Z.of_nat n ->
  exists s' bs', clean_up n s = Some s' /\ owns (sys_h s') bs' /\ cleaned (sys_k s) (sys_k s') bs bs'.
Proof using HA.
  revert s bs. induction n as [|n IH]; intros s bs Hinv Hm Ho Hn.
  - exists s, bs. simpl. rewrite Hn. split; [done|]. split; [done|].
    assert (forall t, kcontainer (sys_k s) (IState t) <> Some LTermination) as Hnone.
    { intros t. destruct Hinv as [Hb _ [_ Hd _ _ _]]. apply (klist_nil _ _ Hb).
      apply nil_length_inv. lia. }
    split; try done; naive_solver.
  - cbn [clean_up]. rewrite Z.gtb_ltb. destruct (Z.ltb_spec 0 (uxDeletedTasksWaitingCleanUp (sys_k s))); [|lia].
    destruct (term_head (sys_k s) Hinv) as (t & -> & Ht); [lia|]. cbn [mbind option_bind].
    rewrite (uxListRemove_eq _ _ _ Ht). cbn [mbind option_bind].
    pose proof (ki_state (kinv_base _ Hinv) _ _ Ht) as [Hlive _].
    set (k := sys_k s) in *.
    destruct (clean_step k t Hinv Ht) as [Hgone Hdec].
    set (k3 := set_uxDeletedTasksWaitingCleanUp _ (set_uxCurrentNumberOfTasks _ _)).
    destruct (deleteTCB_ok t (mkSystem k3 (sys_h s) (sys_stack s)) k bs Hm Hlive Ho eq_refl) as (h & -> & Ho1).
    cbn [mbind option_bind]. change (k_tcbs (sys_k (mkSystem k3 (sys_h s) (sys_stack s)))) with (k_tcbs k).
    cbn [sys_k sys_h sys_stack].
    pose proof (task_mem_delete k _ t bs Hm Hlive Hgone) as Hm1.
    set (k1 := set_tcbs (delete t (k_tcbs k)) k3) in *. change (task_gone t k k1) in Hgone.
    destruct (IH (mkSystem k1 h (sys_stack s)) _ (tg_kinv _ _ _ Hgone) Hm1 Ho1)
      as (s' & bs' & -> & Ho' & Hcl); [simpl; rewrite Hdec, Hn; lia|].
    exists s', bs'. split; [done|]. split; [done|]. simpl in Hcl.
    destruct Hcl as [C1 C2 C3 C4 C5 C6 C7 C8 C9]. destruct Hgone as [G1 G2 G3 G4 (_ & G5 & _)].
    assert (forall u, live k1 u <-> u <> t /\ live k u) as Hl1.
    { intros u. unfold live. rewrite G2. destruct (decide (u = t)) as [->|Hne].
      - rewrite lookup_delete_eq. split; [by intros []|tauto].
      - rewrite lookup_delete_ne by done. tauto. }
    assert (forall u, u <> t -> tcb k1 u = tcb k u) as Ht1
      by (intros u Hu; unfold tcb; by rewrite G2, lookup_delete_ne).
    split; try done.
    + intros u. rewrite C2, Hl1, G3. simpl. case_decide; [subst; split; [tauto|]|tauto].
      intros [_ []]. done.
    + intros i Hi. assert (owner i <> t) as Hne by (intros E; by rewrite E in Hi).
      rewrite C3, G3; rewrite ?G3; simpl; by rewrite decide_False.
    + intros u Hu. rewrite C4 by done. apply C2 in Hu as [[Hu _]%Hl1 _]. by apply Ht1.
    + intros p w. rewrite C9. rewrite lookup_delete_Some, lookup_delete_Some. split.
      * intros ((Hp1 & Hp2 & Hp) & Hall). split; [done|]. intros u Hu.
        destruct (decide (u = t)) as [->|Hne]; [by split|]. rewrite <- Ht1 by done. apply Hall.
        rewrite G3. simpl. by rewrite decide_False.
      * intros (Hp & Hall). destruct (Hall t Ht) as [Hp1 Hp2]. split; [by split_and!|].
        intros u. rewrite G3. simpl. case_decide as Hd; [done|]. intros Hu. rewrite Ht1 by done. by apply Hall.
Qed.

(** C15: one turn of the idle task frees the memory of every task that
    deleted itself, and only theirs: the loop ends, all tasks on the
    termination list are gone with their stacks and control blocks, the others
    are untouched, and the idle task yields when it shares its priority. *)
Theorem idle_frees_ended (s : System H) bs :
  kinv (sys_k s) -> task_mem (sys_k s) bs -> owns (sys_h s) bs ->
  exists s' bs', prvIdleTask s = Some s' /\ owns (sys_h s') bs' /\
    cleaned (sys_k s) (set_yield (k_yield (sys_k s)) (sys_k s')) bs bs' /\
    k_yield (sys_k s') = (k_yield (sys_k s) || (list_length (LReady 0) (sys_k s') >? 1)).
Proof using HA.
  intros Hinv Hm Ho. unfold prvIdleTask, prvCheckTasksWaitingTermination.
  assert (uxDeletedTasksWaitingCleanUp (sys_k s) = Z.of_nat (Z.to_nat (uxDeletedTasksWaitingCleanUp (sys_k s)))) as Hd.
  { destruct Hinv as [_ _ [_ -> _ _ _]]. lia. }
  destruct (clean_up_ok _ s bs Hinv Hm Ho Hd) as (s' & bs' & -> & Ho' & Hcl). cbn [mbind option_bind].
  eexists _, bs'. split; [reflexivity|].
  pose proof (cl_yield _ _ _ _ Hcl) as Hy.
  assert (set_yield (k_yield (sys_k s)) (sys_k s') = sys_k s') as Hid
    by (rewrite <- Hy; by destruct (sys_k s')).
  destruct (list_length (LReady 0) (sys_k s') >? 1) eqn:Eg; cbn [sys_k sys_h].
  - split; [done|]. change (set_yield (k_yield (sys_k s)) (portYIELD (sys_k s')))
      with (set_yield (k_yield (sys_k s)) (sys_k s')). rewrite Hid. split; [done|].
    change (list_length (LReady 0) (portYIELD (sys_k s'))) with (list_length (LReady 0) (sys_k s')).
    rewrite Eg, orb_true_r. done.
  - rewrite Hid, Eg, orb_false_r. done.
Qed.
End delete.
