(* ===== verification/KernelWait.v ===== *)
(** * Waiting lists in detail: order of the waiters, quiet resumptions *)

From S2P Require Import Prelude ListSpec Kernel KernelInv KernelTick KernelResume KernelSched KernelEvent.
#[local] Open Scope Z_scope.

(** A list with one item on it. *)
Lemma klist_single {lo} k l i : kbase_at lo k -> (forall j, kcontainer k j = Some l <-> j = i) ->
  klist k l = [i].
Proof.
  intros Hb Hi. pose proof (wf_NoDup (k_lists k) l (ki_wf Hb)) as Hn. fold (klist k l) in Hn.
  assert (forall j, j ∈ klist k l <-> j = i) as Hel by (intros j; by rewrite (elem_klist _ _ _ Hb)).
  destruct (klist k l) as [|a [|b xs]] eqn:E.
  - specialize (proj2 (Hel i) eq_refl). by intros ?%elem_of_nil.
  - f_equal. apply Hel. by left.
  - exfalso. apply NoDup_cons in Hn as [Ha _]. apply Ha.
    rewrite (proj1 (Hel a)) by (by left). rewrite <- (proj1 (Hel b)) by (right; by left). by left.
Qed.

Lemma head_event k o n t : kinv k -> head_owner (LEvent o n) k = Some t ->
  head (klist k (LEvent o n)) = Some (IEvent t) /\ kcontainer k (IEvent t) = Some (LEvent o n).
Proof.
  intros [Hb _ _] Hh. unfold head_owner in Hh. destruct (klist k (LEvent o n)) as [|i l] eqn:E; [done|].
  assert (kcontainer k i = Some (LEvent o n)) as Hi by (apply (elem_klist _ _ _ Hb); rewrite E; by left).
  destruct (event_item _ _ _ Hb Hi I) as [u ->]. simpl in Hh. by injection Hh as ->.
Qed.

(** Waking the first waiter of an event list leaves the others in order, and
    the other event lists alone. *)
Lemma removed_lists k o n k' y : kinv k -> xTaskRemoveFromEventList (LEvent o n) k = Some (k', y) ->
  forall o' n', klist k' (LEvent o' n') =
    if decide (LEvent o' n' = LEvent o n) then tail (klist k (LEvent o n)) else klist k (LEvent o' n').
Proof.
  intros Hinv. pose proof Hinv as [Hb Hblk _]. unfold xTaskRemoveFromEventList.
  destruct (head_owner (LEvent o n) k) as [t|] eqn:Eh; [|done]. cbn [mbind option_bind].
  destruct (head_event k o n t Hinv Eh) as [Hhd Hc].
  rewrite (uxListRemove_eq _ _ _ Hc). cbn [mbind option_bind].
  set (k1 := on_lists (lRemove (IEvent t)) k).
  assert (forall o' n', klist k1 (LEvent o' n') =
    if decide (LEvent o' n' = LEvent o n) then tail (klist k (LEvent o n)) else klist k (LEvent o' n')) as H1.
  { intros o' n'. unfold k1, klist, kcontainer in *. simpl. rewrite on_list_lRemove, Hc.
    destruct (decide (LEvent o' n' = LEvent o n)) as [->|Hne]; [rewrite decide_True by done|by rewrite decide_False by congruence].
    destruct (on_list (k_lists k) (LEvent o n)) as [|i l]; simpl in *; [done|]. injection Hhd as ->.
    by rewrite decide_True. }
  assert (kcontainer k1 (IState t) = kcontainer k (IState t)) as Hst
    by (unfold kcontainer, k1; simpl; by rewrite container_lRemove, decide_False).
  assert (exists l, kcontainer k (IState t) = Some l /\ forall o' n', l <> LEvent o' n') as (l & Hl & Hle).
  { destruct (Hblk t) as [E|E]; [congruence|by exists LDelayed1|by exists LDelayed2]. }
  assert (forall k2, (if uxSchedulerSuspended k1 =? 0 then '(k, _) ← uxListRemove (IState t) k1; Some (prvAddTaskToReadyList t k)
    else Some (on_lists (lInsertEnd LPendingReady (IEvent t)) k1)) = Some k2 ->
    forall o' n', klist k2 (LEvent o' n') = klist k1 (LEvent o' n')) as H2.
  { intros k2. destruct (uxSchedulerSuspended k1 =? 0).
    - rewrite (uxListRemove_eq k1 (IState t) l) by congruence. cbn [mbind option_bind]. intros [= <-] o' n'.
      rewrite prvAdd_eq. unfold klist. simpl. rewrite on_list_lInsertEnd_ne by done.
      change (on_list (lRemove (IState t) (k_lists k1)) (LEvent o' n') = on_list (k_lists k1) (LEvent o' n')).
      rewrite on_list_lRemove, decide_False; [done|]. change (kcontainer k1 (IState t) <> Some (LEvent o' n')).
      rewrite Hst, Hl. intros [= E]. by apply (Hle o' n').
    - intros [= <-] o' n'. unfold klist. simpl. by rewrite on_list_lInsertEnd_ne. }
  destruct (if uxSchedulerSuspended k1 =? 0 then _ else _) as [k2|]; [|done]. cbn [mbind option_bind].
  intros E o' n'. rewrite <- H1, <- (H2 k2 eq_refl).
  destruct (_ >? _); injection E as <- _; done.
Qed.

(** Resuming with no tick held back: no list but those of the pending tasks,
    and no time passes. *)
Lemma resume_quiet k k' y : kinv k -> uxSchedulerSuspended k = 1 -> uxPendedTicks k = 0 ->
  xTaskResumeAll k = Some (k', y) -> xNumOfOverflows k' = xNumOfOverflows k.
Proof.
  intros [Hb Hblk _] Hs Hp. rewrite xTaskResumeAll_eq, Hs. change (u32 (1 - 1)) with 0. simpl.
  destruct (uxCurrentNumberOfTasks k >? 0); [|by intros [= <- _]].
  unfold resume_body. set (k0 := set_uxSchedulerSuspended 0 k).
  destruct (ready_pending_ok (length (klist k0 LPendingReady)) None k0) as (k1 & last & -> & Hrd & _);
    [by apply kbase_suspended|done|lia|]. cbn [mbind option_bind].
  destruct (rd_frame _ _ Hrd) as (b & k2 & (L & T & N & E2) & E1).
  set (km := match last with Some _ => _ | None => _ end).
  assert (uxPendedTicks km = 0 /\ xNumOfOverflows km = xNumOfOverflows k) as [-> Ho].
  { subst km. assert (forall e, uxPendedTicks (set_xNextTaskUnblockTime e k1) = 0 /\
      xNumOfOverflows (set_xNextTaskUnblockTime e k1) = xNumOfOverflows k) as H by (intros; by rewrite E1, E2).
    destruct last; [|by rewrite E1, E2].
    destruct (reset_next_ok k1 (rd_base _ _ Hrd)) as (e & -> & _). apply H. }
  simpl. cbn [mbind option_bind]. intros E. destruct (xYieldPending km); injection E as <- _; done.
Qed.
