(* ===== verification/Bytes.v ===== *)
(** * Byte-addressed memory

    A memory maps the addresses that exist to bytes; [load_bytes] and
    [store_bytes] are the two directions of [memcpy]. *)

From S2P Require Import Prelude.
#[local] Open Scope Z_scope.

Fixpoint store_bytes (a : Z) (bs : list Z) (m : gmap Z Z) : gmap Z Z :=
  match bs with [] => m | b :: bs => store_bytes (a + 1) bs (<[a := b]> m) end.
Fixpoint load_bytes (a : Z) (n : nat) (m : gmap Z Z) : option (list Z) :=
  match n with
  | O => Some []
  | S n => b ← m !! a; bs ← load_bytes (a + 1) n m; Some (b :: bs)
  end.
(** All addresses of the area exist. *)
Definition mapped (a : Z) (n : nat) (m : gmap Z Z) : Prop := forall x, a <= x < a + Z.of_nat n -> is_Some (m !! x).

Lemma lookup_store_bytes a bs m x : store_bytes a bs m !! x =
  if decide (a <= x < a + Z.of_nat (length bs)) then bs !! Z.to_nat (x - a) else m !! x.
Proof.
  revert a m. induction bs as [|b bs IH]; intros a m; simpl.
  - by rewrite decide_False by lia.
  - rewrite IH. destruct (decide (x = a)) as [->|Hx].
    + rewrite decide_False by lia. rewrite decide_True by lia. rewrite lookup_insert_eq.
      by replace (Z.to_nat (a - a)) with 0%nat by lia.
    + rewrite lookup_insert_ne by done. destruct (decide (a + 1 <= x < a + 1 + Z.of_nat (length bs))).
      * rewrite decide_True by lia.
        by replace (Z.to_nat (x - a)) with (S (Z.to_nat (x - (a + 1)))) by lia.
      * by rewrite decide_False by lia.
Qed.

Lemma load_bytes_ext a n m m' : (forall x, a <= x < a + Z.of_nat n -> m !! x = m' !! x) ->
  load_bytes a n m = load_bytes a n m'.
Proof.
  revert a. induction n as [|n IH]; intros a Hm; simpl; [done|].
  rewrite Hm by lia. destruct (m' !! a); simpl; [|done]. by rewrite (IH (a + 1)) by (intros; apply Hm; lia).
Qed.

Lemma load_store_same a bs m : load_bytes a (length bs) (store_bytes a bs m) = Some bs.
Proof.
  revert a m. induction bs as [|b bs IH]; intros a m; simpl; [done|].
  rewrite lookup_store_bytes, decide_False, lookup_insert_eq by lia. simpl. by rewrite IH.
Qed.

Lemma load_store_apart a b bs n m : b + Z.of_nat n <= a \/ a + Z.of_nat (length bs) <= b ->
  load_bytes b n (store_bytes a bs m) = load_bytes b n m.
Proof.
  intros Hd. apply load_bytes_ext. intros x Hx. rewrite lookup_store_bytes, decide_False by lia. done.
Qed.

Lemma load_bytes_Some a n m bs : load_bytes a n m = Some bs <->
  length bs = n /\ forall i : nat, (i < n)%nat -> m !! (a + Z.of_nat i) = bs !! i.
Proof.
  revert a bs. induction n as [|n IH]; intros a bs; simpl.
  - split; [intros [= <-]; split; [done|lia]|intros [Hl _]; by destruct bs].
  - split.
    + destruct (m !! a) as [b|] eqn:E; [|done]. destruct (load_bytes (a + 1) n m) as [t|] eqn:Et; [|done]. simpl. intros [= <-].
      apply IH in Et as [Hl Hi]. split; [simpl; lia|]. intros [|i] Hlt; simpl; [by rewrite Z.add_0_r|].
      rewrite <- Hi by lia. f_equal. lia.
    + intros [Hl Hi]. destruct bs as [|b t]; [done|]. pose proof (Hi 0%nat ltac:(lia)) as H0. rewrite Z.add_0_r in H0. rewrite H0. simpl.
      rewrite (proj2 (IH (a + 1) t)); [done|]. split; [simpl in Hl; lia|]. intros i Hlt. change (t !! i) with ((b :: t) !! S i). rewrite <- (Hi (S i)) by lia. f_equal. lia.
Qed.
Lemma load_bytes_mapped a n m : mapped a n m -> is_Some (load_bytes a n m).
Proof.
  revert a. induction n as [|n IH]; intros a Hm; simpl; [by eexists|]. destruct (Hm a ltac:(lia)) as [b ->]. simpl.
  destruct (IH (a + 1)) as [t ->]; [intros x Hx; apply Hm; lia|]. by eexists.
Qed.
Lemma length_load a n m bs : load_bytes a n m = Some bs -> length bs = n.
Proof. by intros [? _]%load_bytes_Some. Qed.
Lemma load_bytes_app a n k m : load_bytes a (n + k) m = x ← load_bytes a n m; y ← load_bytes (a + Z.of_nat n) k m; Some (x ++ y).
Proof.
  revert a. induction n as [|n IH]; intros a; simpl.
  - rewrite Z.add_0_r. by destruct (load_bytes a k m).
  - destruct (m !! a); [|done]. simpl. rewrite IH. replace (a + 1 + Z.of_nat n) with (a + Z.of_nat (S n)) by lia.
    destruct (load_bytes (a + 1) n m); [|done]. simpl. by destruct (load_bytes _ k m).
Qed.
Lemma mapped_store a n b bs m : mapped a n m -> mapped a n (store_bytes b bs m).
Proof. intros Hm x Hx. rewrite lookup_store_bytes. case_decide; [apply lookup_lt_is_Some; lia|by apply Hm]. Qed.
Lemma mapped_sub a n b k m : mapped a n m -> a <= b -> b + Z.of_nat k <= a + Z.of_nat n -> mapped b k m.
Proof. intros Hm Ha Hb x Hx. apply Hm. lia. Qed.
(** The bytes of an area in two parts. *)
Lemma load_bytes_split a m x y : load_bytes a (length (x ++ y)) m = Some (x ++ y) <->
  load_bytes a (length x) m = Some x /\ load_bytes (a + Z.of_nat (length x)) (length y) m = Some y.
Proof.
  rewrite length_app, load_bytes_app. split; [|by intros [-> ->]].
  destruct (load_bytes a (length x) m) as [x'|] eqn:Ex; [|done]. simpl. destruct (load_bytes _ (length y) m) as [y'|] eqn:Ey; [|done]. simpl.
  intros [= E]. apply length_load in Ex. by apply app_inj_1 in E as [-> ->].
Qed.
