(* ===== verification/Queue.v ===== *)
(** * queue.c: queues, semaphores and mutexes

    A queue lives at an address; its storage is memory by address, its two
    event lists are lists of the kernel ([LEvent q 0], [LEvent q 1]).  The
    union [u] is kept as two words, read as the pointers of a queue or as the
    holder and recursion count of a mutex, and [uxQueueType] is [pcHead], as
    in the source.  The critical sections are single steps; a call that may
    block is a loop over the steps between them, with its local variables in
    [Call], so that interrupts and other tasks can run in between.
    Queue sets and static allocation are not configured. *)

From S2P Require Import Prelude Bytes ListSpec Allocator Kernel.
#[local] Open Scope Z_scope.

(** ** Data *)

Definition queueUNLOCKED : Z := -1.
Definition queueLOCKED_UNMODIFIED : Z := 0.
(** [sizeof(Queue_t)]: pcHead, pcWriteTo, u, two [List_t], three words, two locks. *)
Definition sizeof_Queue_t : Z := 72.
Definition configQUEUE_REGISTRY_SIZE : Z := 8.

Inductive Position := queueSEND_TO_BACK | queueSEND_TO_FRONT | queueOVERWRITE.
#[export] Instance Position_eq_dec : EqDecision Position.
Proof. solve_decision. Defined.

Record Queue_t := mkQueue {
  pcHead : Z;
  pcWriteTo : Z;
  q_u0 : Z;
  q_u1 : Z;
  uxMessagesWaiting : Z;
  uxLength : Z;
  uxItemSize : Z;
  cRxLock : Z;
  cTxLock : Z
}.
Definition pcTail : Queue_t -> Z := q_u0.
Definition pcReadFrom : Queue_t -> Z := q_u1.
Definition xMutexHolder : Queue_t -> Z := q_u0.
Definition uxRecursiveCallCount : Queue_t -> Z := q_u1.
Definition uxQueueType : Queue_t -> Z := pcHead.
Definition queueQUEUE_IS_MUTEX : Z := 0.

Definition set_pcHead (v : Z) (q : Queue_t) : Queue_t := mkQueue v (pcWriteTo q) (q_u0 q) (q_u1 q)
  (uxMessagesWaiting q) (uxLength q) (uxItemSize q) (cRxLock q) (cTxLock q).
Definition set_pcWriteTo (v : Z) (q : Queue_t) : Queue_t := mkQueue (pcHead q) v (q_u0 q) (q_u1 q)
  (uxMessagesWaiting q) (uxLength q) (uxItemSize q) (cRxLock q) (cTxLock q).
Definition set_u0 (v : Z) (q : Queue_t) : Queue_t := mkQueue (pcHead q) (pcWriteTo q) v (q_u1 q)
  (uxMessagesWaiting q) (uxLength q) (uxItemSize q) (cRxLock q) (cTxLock q).
Definition set_u1 (v : Z) (q : Queue_t) : Queue_t := mkQueue (pcHead q) (pcWriteTo q) (q_u0 q) v
  (uxMessagesWaiting q) (uxLength q) (uxItemSize q) (cRxLock q) (cTxLock q).
Definition set_uxMessagesWaiting (v : Z) (q : Queue_t) : Queue_t := mkQueue (pcHead q) (pcWriteTo q)
  (q_u0 q) (q_u1 q) v (uxLength q) (uxItemSize q) (cRxLock q) (cTxLock q).
Definition set_cRxLock (v : Z) (q : Queue_t) : Queue_t := mkQueue (pcHead q) (pcWriteTo q) (q_u0 q)
  (q_u1 q) (uxMessagesWaiting q) (uxLength q) (uxItemSize q) v (cTxLock q).
Definition set_cTxLock (v : Z) (q : Queue_t) : Queue_t := mkQueue (pcHead q) (pcWriteTo q) (q_u0 q)
  (q_u1 q) (uxMessagesWaiting q) (uxLength q) (uxItemSize q) (cRxLock q) v.

(** The kernel, the queues by handle, and the bytes of memory. *)
Record World := mkWorld { w_k : Kernel; w_q : gmap Z Queue_t; w_mem : gmap Z Z }.
Definition set_kernel (k : Kernel) (w : World) : World := mkWorld k (w_q w) (w_mem w).
Definition set_mem (m : gmap Z Z) (w : World) : World := mkWorld (w_k w) (w_q w) m.
(** Assignment to fields of the queue at [q]. *)
Definition upd_queue (q : Z) (f : Queue_t -> Queue_t) (w : World) : option World :=
  c ← w_q w !! q; Some (mkWorld (w_k w) (<[q := f c]> (w_q w)) (w_mem w)).
Definition on_kernel (f : Kernel -> option Kernel) (w : World) : option World :=
  k ← f (w_k w); Some (set_kernel k w).

Definition xTasksWaitingToSend (q : Z) : ListId := LEvent q 0.
Definition xTasksWaitingToReceive (q : Z) : ListId := LEvent q 1.

(** [memcpy] to memory; the source must have the bytes. *)
Definition memcpy_to (a : Z) (item : list Z) (n : Z) (m : gmap Z Z) : option (gmap Z Z) :=
  if decide (Z.to_nat n <= length item)%nat then Some (store_bytes a (take (Z.to_nat n) item) m)
  else None.

Definition queueYIELD (w : World) : World := set_kernel (portYIELD (w_k w)) w.

(** Wakes the first task of an event list, if there is one; the flag says that
    it has a higher priority than the running task. *)
Definition wake_first (ev : ListId) (w : World) : option (World * bool) :=
  if list_empty ev (w_k w) then Some (w, false)
  else '(k, y) ← xTaskRemoveFromEventList ev (w_k w); Some (set_kernel k w, y).

(** ** Copying items *)

Definition prvCopyDataToQueue (q : Z) (item : list Z) (pos : Position) (w : World)
    : option (World * bool) :=
  c ← w_q w !! q;
  let n := uxMessagesWaiting c in
  '(w, y, n) ←
    (if uxItemSize c =? 0 then
       if uxQueueType c =? queueQUEUE_IS_MUTEX then
         '(k, y) ← xTaskPriorityDisinherit (xMutexHolder c) (w_k w);
         w ← upd_queue q (set_u0 0) (set_kernel k w);
         Some (w, y, n)
       else Some (w, false, n)
     else
       match pos with
       | queueSEND_TO_BACK =>
         m ← memcpy_to (pcWriteTo c) item (uxItemSize c) (w_mem w);
         let p := u32 (pcWriteTo c + uxItemSize c) in
         let p := if p >=? pcTail c then pcHead c else p in
         w ← upd_queue q (set_pcWriteTo p) (set_mem m w);
         Some (w, false, n)
       | _ =>
         m ← memcpy_to (pcReadFrom c) item (uxItemSize c) (w_mem w);
         let p := u32 (pcReadFrom c - uxItemSize c) in
         let p := if p <? pcHead c then u32 (pcTail c - uxItemSize c) else p in
         w ← upd_queue q (set_u1 p) (set_mem m w);
         Some (w, false,
               if bool_decide (pos = queueOVERWRITE) && (n >? 0) then u32 (n - 1) else n)
       end);
  w ← upd_queue q (set_uxMessagesWaiting (u32 (n + 1))) w;
  Some (w, y).

(** The bytes read. *)
Definition prvCopyDataFromQueue (q : Z) (w : World) : option (World * list Z) :=
  c ← w_q w !! q;
  if negb (uxItemSize c =? 0) then
    let p := u32 (pcReadFrom c + uxItemSize c) in
    let p := if p >=? pcTail c then pcHead c else p in
    w ← upd_queue q (set_u1 p) w;
    bs ← load_bytes p (Z.to_nat (uxItemSize c)) (w_mem w);
    Some (w, bs)
  else Some (w, []).

Definition prvIsQueueEmpty (q : Z) (w : World) : option bool :=
  c ← w_q w !! q; Some (uxMessagesWaiting c =? 0).
Definition prvIsQueueFull (q : Z) (w : World) : option bool :=
  c ← w_q w !! q; Some (uxMessagesWaiting c =? uxLength c).

(** ** Locking *)

Definition prvLockQueue (q : Z) (w : World) : option World :=
  w ← upd_queue q (fun c => if cRxLock c =? queueUNLOCKED
                            then set_cRxLock queueLOCKED_UNMODIFIED c else c) w;
  upd_queue q (fun c => if cTxLock c =? queueUNLOCKED
                        then set_cTxLock queueLOCKED_UNMODIFIED c else c) w.

(** A loop of prvUnlockQueue: one waiting task is woken for each change that
    was counted while the queue was locked. *)
Fixpoint wake_locked (n : nat) (ev : ListId) (w : World) : option World :=
  match n with
  | O => Some w
  | S n =>
    if list_empty ev (w_k w) then Some w
    else
      '(k, y) ← xTaskRemoveFromEventList ev (w_k w);
      wake_locked n ev (set_kernel (if (y : bool) then vTaskMissedYield k else k) w)
  end.

(** The two critical sections of prvUnlockQueue. *)
Definition unlock_tx (q : Z) (w : World) : option World :=
  c ← w_q w !! q;
  w ← wake_locked (Z.to_nat (cTxLock c)) (xTasksWaitingToReceive q) w;
  upd_queue q (set_cTxLock queueUNLOCKED) w.
Definition unlock_rx (q : Z) (w : World) : option World :=
  c ← w_q w !! q;
  w ← wake_locked (Z.to_nat (cRxLock c)) (xTasksWaitingToSend q) w;
  upd_queue q (set_cRxLock queueUNLOCKED) w.
Definition prvUnlockQueue (q : Z) (w : World) : option World := w ← unlock_tx q w; unlock_rx q w.

(** ** Creation *)

Definition xQueueGenericReset (q : Z) (xNewQueue : bool) (w : World) : option World :=
  w ← upd_queue q (fun c =>
        let c := set_u0 (u32 (pcHead c + u32 (uxLength c * uxItemSize c))) c in
        let c := set_uxMessagesWaiting 0 c in
        let c := set_pcWriteTo (pcHead c) c in
        let c := set_u1 (u32 (pcHead c + u32 (u32 (uxLength c - 1) * uxItemSize c))) c in
        let c := set_cRxLock queueUNLOCKED c in
        set_cTxLock queueUNLOCKED c) w;
  if xNewQueue then
    Some (set_kernel (on_lists (lInitialise (xTasksWaitingToReceive q))
                       (on_lists (lInitialise (xTasksWaitingToSend q)) (w_k w))) w)
  else
    '(w, y) ← wake_first (xTasksWaitingToSend q) w;
    Some (if (y : bool) then queueYIELD w else w).

Definition prvInitialiseNewQueue (uxQueueLength uxItemSize pucQueueStorage q : Z) (w : World)
    : option World :=
  let head := if uxItemSize =? 0 then q else pucQueueStorage in
  let c := mkQueue head 0 0 0 0 uxQueueLength uxItemSize 0 0 in
  xQueueGenericReset q true (mkWorld (w_k w) (<[q := c]> (w_q w)) (w_mem w)).

(** ** The critical sections of the sending and receiving calls

    [None] in the result says that the call has to wait. *)

Definition try_send (q : Z) (item : list Z) (pos : Position) (w : World)
    : option (World * option (bool * list Z)) :=
  c ← w_q w !! q;
  if (uxMessagesWaiting c <? uxLength c) || bool_decide (pos = queueOVERWRITE) then
    '(w, xYieldRequired) ← prvCopyDataToQueue q item pos w;
    w ← (if negb (list_empty (xTasksWaitingToReceive q) (w_k w)) then
           '(w, y) ← wake_first (xTasksWaitingToReceive q) w;
           Some (if (y : bool) then queueYIELD w else w)
         else Some (if (xYieldRequired : bool) then queueYIELD w else w));
    Some (w, Some (true, []))
  else Some (w, None).

Definition try_receive (q : Z) (w : World) : option (World * option (bool * list Z)) :=
  c ← w_q w !! q;
  if uxMessagesWaiting c >? 0 then
    '(w, bs) ← prvCopyDataFromQueue q w;
    w ← upd_queue q (set_uxMessagesWaiting (u32 (uxMessagesWaiting c - 1))) w;
    '(w, y) ← wake_first (xTasksWaitingToSend q) w;
    Some (if (y : bool) then queueYIELD w else w, Some (true, bs))
  else Some (w, None).

Definition try_peek (q : Z) (w : World) : option (World * option (bool * list Z)) :=
  c ← w_q w !! q;
  if uxMessagesWaiting c >? 0 then
    '(w, bs) ← prvCopyDataFromQueue q w;
    w ← upd_queue q (set_u1 (pcReadFrom c)) w;
    '(w, y) ← wake_first (xTasksWaitingToReceive q) w;
    Some (if (y : bool) then queueYIELD w else w, Some (true, bs))
  else Some (w, None).

Definition try_take (q : Z) (w : World) : option (World * option (bool * list Z)) :=
  c ← w_q w !! q;
  if uxMessagesWaiting c >? 0 then
    w ← upd_queue q (set_uxMessagesWaiting (u32 (uxMessagesWaiting c - 1))) w;
    w ← (if uxQueueType c =? queueQUEUE_IS_MUTEX then
           let '(k, t) := pvTaskIncrementMutexHeldCount (w_k w) in
           upd_queue q (set_u0 t) (set_kernel k w)
         else Some w);
    '(w, y) ← wake_first (xTasksWaitingToSend q) w;
    Some (if (y : bool) then queueYIELD w else w, Some (true, []))
  else Some (w, None).

(** ** Calls that may block *)

Inductive Request :=
| Send (item : list Z) (pos : Position) | Receive | Peek | SemaphoreTake.

(** Where a call is: before its critical section, or at a step of the part
    that runs with the scheduler suspended; and why it leaves that part. *)
Inductive Reason := Blocked | Retry | TimedOut.
Inductive Pc :=
| Enter | SuspendAll | LockQueue | CheckTimeOut | TestQueue | PlaceOnList
| UnlockTx (why : Reason) | UnlockRx (why : Reason) | ResumeAll (why : Reason) | TestAgain.
#[export] Instance Reason_eq_dec : EqDecision Reason.
Proof. solve_decision. Defined.
#[export] Instance Pc_eq_dec : EqDecision Pc.
Proof. solve_decision. Defined.

Record Call := mkCall {
  c_request : Request;
  c_queue : Z;
  c_pc : Pc;
  xTicksToWait : Z;
  xEntryTimeSet : bool;
  xTimeOut : TimeOut_t;
  xInheritanceOccurred : bool
}.
Definition start_call (r : Request) (q ticks : Z) : Call :=
  mkCall r q Enter ticks false (mkTimeOut 0 0) false.
Definition at_pc (p : Pc) (c : Call) : Call :=
  mkCall (c_request c) (c_queue c) p (xTicksToWait c) (xEntryTimeSet c) (xTimeOut c)
    (xInheritanceOccurred c).
Definition with_timeout (set : bool) (o : TimeOut_t) (ticks : Z) (c : Call) : Call :=
  mkCall (c_request c) (c_queue c) (c_pc c) ticks set o (xInheritanceOccurred c).
Definition with_inheritance (b : bool) (c : Call) : Call :=
  mkCall (c_request c) (c_queue c) (c_pc c) (xTicksToWait c) (xEntryTimeSet c) (xTimeOut c) b.

(** Returned: whether it is pdPASS and the bytes received; or still running. *)
Definition Outcome : Type := (bool * list Z) + Call.

Definition try_request (r : Request) (q : Z) (w : World) : option (World * option (bool * list Z)) :=
  match r with
  | Send item pos => try_send q item pos w
  | Receive => try_receive q w
  | Peek => try_peek q w
  | SemaphoreTake => try_take q w
  end.
Definition must_wait (r : Request) (q : Z) (w : World) : option bool :=
  match r with Send _ _ => prvIsQueueFull q w | _ => prvIsQueueEmpty q w end.
Definition waiting_list (r : Request) (q : Z) : ListId :=
  match r with Send _ _ => xTasksWaitingToSend q | _ => xTasksWaitingToReceive q end.

Definition prvGetDisinheritPriorityAfterTimeout (q : Z) (w : World) : Z :=
  match klist (w_k w) (xTasksWaitingToReceive q) with
  | i :: _ => u32 (configMAX_PRIORITIES - kvalue (w_k w) i)
  | [] => 0
  end.

(** What xQueueSemaphoreTake adds: the holder of a mutex inherits the priority
    of the task that is about to wait, and gives it back when that times out. *)
Definition inherit (c : Call) (w : World) : option (World * Call) :=
  match c_request c with
  | SemaphoreTake =>
    d ← w_q w !! c_queue c;
    if uxQueueType d =? queueQUEUE_IS_MUTEX then
      '(k, b) ← xTaskPriorityInherit (xMutexHolder d) (w_k w);
      Some (set_kernel k w, with_inheritance b c)
    else Some (w, c)
  | _ => Some (w, c)
  end.
Definition disinherit (c : Call) (w : World) : option World :=
  if xInheritanceOccurred c then
    d ← w_q w !! c_queue c;
    on_kernel (vTaskPriorityDisinheritAfterTimeout (xMutexHolder d)
                 (prvGetDisinheritPriorityAfterTimeout (c_queue c) w)) w
  else Some w.

(** One step of the calling task. *)
Definition call_step (c : Call) (w : World) : option (World * Outcome) :=
  let q := c_queue c in
  match c_pc c with
  | Enter =>
    '(w, r) ← try_request (c_request c) q w;
    Some (w,
      match r with
      | Some r => inl r
      | None =>
        if xTicksToWait c =? 0 then inl (false, [])
        else inr (at_pc SuspendAll
          (if xEntryTimeSet c then c
           else with_timeout true (vTaskInternalSetTimeOutState (w_k w)) (xTicksToWait c) c))
      end)
  | SuspendAll => Some (set_kernel (vTaskSuspendAll (w_k w)) w, inr (at_pc LockQueue c))
  | LockQueue => w ← prvLockQueue q w; Some (w, inr (at_pc CheckTimeOut c))
  | CheckTimeOut =>
    let '(out, o, ticks) := xTaskCheckForTimeOut (xTimeOut c) (xTicksToWait c) (w_k w) in
    let c := with_timeout (xEntryTimeSet c) o ticks c in
    Some (w, inr (at_pc (if (out : bool) then UnlockTx TimedOut else TestQueue) c))
  | TestQueue =>
    b ← must_wait (c_request c) q w;
    if (b : bool) then '(w, c) ← inherit c w; Some (w, inr (at_pc PlaceOnList c))
    else Some (w, inr (at_pc (UnlockTx Retry) c))
  | PlaceOnList =>
    w ← on_kernel (vTaskPlaceOnEventList (waiting_list (c_request c) q) (xTicksToWait c)) w;
    Some (w, inr (at_pc (UnlockTx Blocked) c))
  | UnlockTx why => w ← unlock_tx q w; Some (w, inr (at_pc (UnlockRx why) c))
  | UnlockRx why => w ← unlock_rx q w; Some (w, inr (at_pc (ResumeAll why) c))
  | ResumeAll why =>
    '(k, yielded) ← xTaskResumeAll (w_k w);
    let w := set_kernel k w in
    Some (match why with Blocked => if (yielded : bool) then w else queueYIELD w | _ => w end,
      match why, c_request c with
      | TimedOut, Send _ _ => inl (false, [])
      | TimedOut, _ => inr (at_pc TestAgain c)
      | _, _ => inr (at_pc Enter c)
      end)
  | TestAgain =>
    b ← prvIsQueueEmpty q w;
    if (b : bool) then w ← disinherit c w; Some (w, inl (false, []))
    else Some (w, inr (at_pc Enter c))
  end.

(** [n] steps of the caller with nothing in between. *)
Fixpoint run_call (n : nat) (c : Call) (w : World) : option (World * Outcome) :=
  match n with
  | O => Some (w, inr c)
  | S n =>
    '(w, o) ← call_step c w;
    match o with inl r => Some (w, inl r) | inr c => run_call n c w end
  end.

Definition xQueueGenericSend (q : Z) (item : list Z) (ticks : Z) (pos : Position) : Call :=
  start_call (Send item pos) q ticks.
Definition xQueueReceive (q ticks : Z) : Call := start_call Receive q ticks.
Definition xQueuePeek (q ticks : Z) : Call := start_call Peek q ticks.
Definition xQueueSemaphoreTake (q ticks : Z) : Call := start_call SemaphoreTake q ticks.

(** A call that waits for 0 ticks returns from its first step. *)
Definition call_now (c : Call) (w : World) : option (World * bool * list Z) :=
  '(w, o) ← call_step c w;
  match o with inl (ok, bs) => Some (w, ok, bs) | inr _ => None end.

(** ** Interrupts

    The last component is what is stored through [pxHigherPriorityTaskWoken]
    (pdTRUE or nothing). *)

Definition xQueueGenericSendFromISR (q : Z) (item : list Z) (pos : Position) (w : World)
    : option (World * bool * bool) :=
  c ← w_q w !! q;
  if (uxMessagesWaiting c <? uxLength c) || bool_decide (pos = queueOVERWRITE) then
    '(w, _) ← prvCopyDataToQueue q item pos w;
    if cTxLock c =? queueUNLOCKED then
      '(w, y) ← wake_first (xTasksWaitingToReceive q) w; Some (w, true, y)
    else
      w ← upd_queue q (set_cTxLock (s8 (cTxLock c + 1))) w; Some (w, true, false)
  else Some (w, false, false).

Definition xQueueGiveFromISR (q : Z) (w : World) : option (World * bool * bool) :=
  c ← w_q w !! q;
  if uxMessagesWaiting c <? uxLength c then
    w ← upd_queue q (set_uxMessagesWaiting (u32 (uxMessagesWaiting c + 1))) w;
    if cTxLock c =? queueUNLOCKED then
      '(w, y) ← wake_first (xTasksWaitingToReceive q) w; Some (w, true, y)
    else
      w ← upd_queue q (set_cTxLock (s8 (cTxLock c + 1))) w; Some (w, true, false)
  else Some (w, false, false).

Definition xQueueReceiveFromISR (q : Z) (w : World) : option (World * bool * list Z * bool) :=
  c ← w_q w !! q;
  if uxMessagesWaiting c >? 0 then
    '(w, bs) ← prvCopyDataFromQueue q w;
    w ← upd_queue q (set_uxMessagesWaiting (u32 (uxMessagesWaiting c - 1))) w;
    if cRxLock c =? queueUNLOCKED then
      '(w, y) ← wake_first (xTasksWaitingToSend q) w; Some (w, true, bs, y)
    else
      w ← upd_queue q (set_cRxLock (s8 (cRxLock c + 1))) w; Some (w, true, bs, false)
  else Some (w, false, [], false).

Definition xQueuePeekFromISR (q : Z) (w : World) : option (World * bool * list Z) :=
  c ← w_q w !! q;
  if uxMessagesWaiting c >? 0 then
    '(w, bs) ← prvCopyDataFromQueue q w;
    w ← upd_queue q (set_u1 (pcReadFrom c)) w;
    Some (w, true, bs)
  else Some (w, false, []).

(** ** Queries *)

Definition uxQueueMessagesWaiting (q : Z) (w : World) : option Z :=
  c ← w_q w !! q; Some (uxMessagesWaiting c).
Definition uxQueueMessagesWaitingFromISR (q : Z) (w : World) : option Z :=
  c ← w_q w !! q; Some (uxMessagesWaiting c).
Definition uxQueueSpacesAvailable (q : Z) (w : World) : option Z :=
  c ← w_q w !! q; Some (u32 (uxLength c - uxMessagesWaiting c)).
Definition xQueueIsQueueEmptyFromISR (q : Z) (w : World) : option bool :=
  c ← w_q w !! q; Some (uxMessagesWaiting c =? 0).
Definition xQueueIsQueueFullFromISR (q : Z) (w : World) : option bool :=
  c ← w_q w !! q; Some (uxMessagesWaiting c =? uxLength c).

(** The timer task's wait: the scheduler is already suspended. *)
Definition vQueueWaitForMessageRestricted (q ticks : Z) (xWaitIndefinitely : bool) (w : World)
    : option World :=
  w ← prvLockQueue q w;
  c ← w_q w !! q;
  w ← (if uxMessagesWaiting c =? 0
       then on_kernel (vTaskPlaceOnEventListRestricted (xTasksWaitingToReceive q) ticks
                         xWaitIndefinitely) w
       else Some w);
  prvUnlockQueue q w.

(** ** Mutexes: recursive take and give

    A recursive take that does not own the mutex is a xQueueSemaphoreTake,
    which may block, followed by [take_recursive_end]. *)

Definition xQueueGiveMutexRecursive (q : Z) (w : World) : option (World * bool) :=
  c ← w_q w !! q;
  if xMutexHolder c =? xTaskGetCurrentTaskHandle (w_k w) then
    let n := u32 (uxRecursiveCallCount c - 1) in
    w ← upd_queue q (set_u1 n) w;
    if n =? 0 then
      '(w, _, _) ← call_now (xQueueGenericSend q [] 0 queueSEND_TO_BACK) w; Some (w, true)
    else Some (w, true)
  else Some (w, false).

Definition take_recursive_end (q : Z) (ok : bool) (w : World) : option (World * bool) :=
  if ok then
    c ← w_q w !! q;
    w ← upd_queue q (set_u1 (u32 (uxRecursiveCallCount c + 1))) w; Some (w, true)
  else Some (w, false).
Definition xQueueTakeMutexRecursive (q ticks : Z) (w : World) : option ((World * bool) + Call) :=
  c ← w_q w !! q;
  if xMutexHolder c =? xTaskGetCurrentTaskHandle (w_k w) then
    inl <$> take_recursive_end q true w
  else Some (inr (xQueueSemaphoreTake q ticks)).

(** ** The registry of names: pcQueueName and xHandle of each entry *)

Definition Registry : Type := list (Z * Z).
Definition empty_registry : Registry := repeat (0, 0) (Z.to_nat configQUEUE_REGISTRY_SIZE).

Fixpoint vQueueAddToRegistry (q name : Z) (r : Registry) : Registry :=
  match r with
  | [] => []
  | (n, h) :: r => if n =? 0 then (name, q) :: r else (n, h) :: vQueueAddToRegistry q name r
  end.
Fixpoint pcQueueGetName (q : Z) (r : Registry) : Z :=
  match r with
  | [] => 0
  | (n, h) :: r => if h =? q then n else pcQueueGetName q r
  end.
Fixpoint vQueueUnregisterQueue (q : Z) (r : Registry) : Registry :=
  match r with
  | [] => []
  | (n, h) :: r => if h =? q then (0, 0) :: r else (n, h) :: vQueueUnregisterQueue q r
  end.

(** ** Creation and deletion in the kernel's memory *)

Section create.
Context {H : Type} `{!Allocator H}.

(** The handle, or 0 when there is no memory. *)
Definition xQueueGenericCreate (uxQueueLength uxItemSize : Z) (h : H) (w : World)
    : option (H * World * Z) :=
  let bytes := if uxItemSize =? 0 then 0 else u32 (uxQueueLength * uxItemSize) in
  '(h, q) ← malloc (u32 (sizeof_Queue_t + bytes)) h;
  if negb (q =? 0) then
    w ← prvInitialiseNewQueue uxQueueLength uxItemSize (u32 (q + sizeof_Queue_t)) q w;
    Some (h, w, q)
  else Some (h, w, 0).

Definition prvInitialiseMutex (q : Z) (w : World) : option World :=
  if negb (q =? 0) then
    w ← upd_queue q (fun c => set_u1 0 (set_pcHead queueQUEUE_IS_MUTEX (set_u0 0 c))) w;
    '(w, _, _) ← call_now (xQueueGenericSend q [] 0 queueSEND_TO_BACK) w;
    Some w
  else Some w.

Definition xQueueCreateMutex (h : H) (w : World) : option (H * World * Z) :=
  '(h, w, q) ← xQueueGenericCreate 1 0 h w;
  w ← prvInitialiseMutex q w;
  Some (h, w, q).

Definition xQueueCreateCountingSemaphore (uxMaxCount uxInitialCount : Z) (h : H) (w : World)
    : option (H * World * Z) :=
  '(h, w, q) ← xQueueGenericCreate uxMaxCount 0 h w;
  if negb (q =? 0) then
    w ← upd_queue q (set_uxMessagesWaiting uxInitialCount) w; Some (h, w, q)
  else Some (h, w, q).

Definition vQueueDelete (q : Z) (h : H) (w : World) (r : Registry) : option (H * World * Registry) :=
  let r := vQueueUnregisterQueue q r in
  h ← free q h;
  Some (h, mkWorld (w_k w) (delete q (w_q w)) (w_mem w), r).
End create.
