(* ===== verification/QueueSpec.v ===== *)
(** * Queues are bounded first-in first-out buffers

    The ring of item slots in a queue's storage holds a list of messages; the
    copies of queue.c put a message at either end of it and take it from the
    front.  The specification at the end is the one a client relies on. *)

From S2P Require Import Prelude Bytes ListSpec Allocator Kernel KernelInv KernelTick KernelResume KernelSched KernelEvent Queue.
#[local] Open Scope Z_scope.

(** ** Slots *)

Definition slot (h l s i : Z) : Z := h + (i mod l) * s.

Section slots.
Context (h l s : Z) (Hl : 0 < l) (Hs : 0 < s).

Lemma slot_bounds i : h <= slot h l s i /\ slot h l s i + s <= h + l * s.
Proof using Hl Hs. unfold slot. pose proof (Z.mod_pos_bound i l Hl). nia. Qed.

Lemma mod_succ i : (i + 1) mod l = if i mod l + 1 =? l then 0 else i mod l + 1.
Proof using Hl.
  pose proof (Z.mod_pos_bound i l Hl). rewrite <- Zplus_mod_idemp_l.
  destruct (Z.eqb_spec (i mod l + 1) l) as [->|]; [apply Z_mod_same_full|apply Z.mod_small; lia].
Qed.

Lemma slot_next i : (if slot h l s i + s >=? h + l * s then h else slot h l s i + s) = slot h l s (i + 1).
Proof using Hl Hs.
  unfold slot. rewrite mod_succ. pose proof (Z.mod_pos_bound i l Hl). rewrite Z.geb_leb.
  destruct (Z.eqb_spec (i mod l + 1) l), (Z.leb_spec (h + l * s) (h + i mod l * s + s)); nia.
Qed.

Lemma slot_prev i : (if slot h l s (i + 1) - s <? h then h + l * s - s else slot h l s (i + 1) - s) = slot h l s i.
Proof using Hl Hs.
  unfold slot. rewrite mod_succ. pose proof (Z.mod_pos_bound i l Hl).
  destruct (Z.eqb_spec (i mod l + 1) l); case_match; bool_to_prop; nia.
Qed.

Lemma slot_apart i j : i mod l <> j mod l ->
  slot h l s i + s <= slot h l s j \/ slot h l s j + s <= slot h l s i.
Proof using Hs. unfold slot. intros Hij. destruct (Z.lt_total (i mod l) (j mod l)) as [?|[?|?]]; nia. Qed.

Lemma mod_ne i j : 0 < j - i < l -> i mod l <> j mod l.
Proof using Hl.
  intros Hij E. assert ((j - i) mod l = 0) as E2 by (rewrite Zminus_mod, E, Z.sub_diag; apply Zmod_0_l).
  rewrite Z.mod_small in E2; lia.
Qed.
End slots.

(** ** Representation *)

(** The messages [xs] in the ring of slots; the slot read last is [r]. *)
Record ring_rep (c : Queue_t) (m : gmap Z Z) (xs : list (list Z)) (r : Z) : Prop := mkRingRep {
  rr_fits : 0 < uxItemSize c <= pcHead c /\ pcHead c + uxLength c * uxItemSize c < 4294967296;
  rr_tail : pcTail c = pcHead c + uxLength c * uxItemSize c;
  rr_read : pcReadFrom c = slot (pcHead c) (uxLength c) (uxItemSize c) r;
  rr_write : pcWriteTo c = slot (pcHead c) (uxLength c) (uxItemSize c) (r + 1 + Z.of_nat (length xs));
  rr_items : forall i x, xs !! i = Some x ->
    load_bytes (slot (pcHead c) (uxLength c) (uxItemSize c) (r + 1 + Z.of_nat i))
      (Z.to_nat (uxItemSize c)) m = Some x
}.

(** A queue or a semaphore (items of no bytes) that holds [xs]. *)
Record queue_rep (c : Queue_t) (m : gmap Z Z) (xs : list (list Z)) : Prop := mkQueueRep {
  qr_kind : uxQueueType c <> queueQUEUE_IS_MUTEX;
  qr_length : 0 < uxLength c < 4294967296;
  qr_count : uxMessagesWaiting c = Z.of_nat (length xs) /\ Z.of_nat (length xs) <= uxLength c;
  qr_size : 0 <= uxItemSize c /\ Forall (fun x => Z.of_nat (length x) = uxItemSize c) xs;
  qr_ring : uxItemSize c = 0 \/ exists r, ring_rep c m xs r
}.

(** A message put into the queue. *)
Definition put (pos : Position) (x : list Z) (xs : list (list Z)) : list (list Z) :=
  match pos with
  | queueSEND_TO_BACK => xs ++ [x]
  | queueSEND_TO_FRONT => x :: xs
  | queueOVERWRITE => [x]
  end.
(** There is room, or the message in a queue of length 1 is replaced. *)
Definition may_put (c : Queue_t) (pos : Position) (xs : list (list Z)) : Prop :=
  match pos with
  | queueOVERWRITE => uxLength c = 1 /\ 0 < uxItemSize c
  | _ => Z.of_nat (length xs) < uxLength c
  end.

(** What the copies leave alone. *)
Definition same_shape (c c' : Queue_t) : Prop :=
  pcHead c' = pcHead c /\ uxLength c' = uxLength c /\ uxItemSize c' = uxItemSize c /\
  cRxLock c' = cRxLock c /\ cTxLock c' = cTxLock c.
Definition same_outside (c : Queue_t) (m m' : gmap Z Z) : Prop :=
  forall a, ~ (pcHead c <= a < pcHead c + uxLength c * uxItemSize c) -> m' !! a = m !! a.

(** ** The copies on the ring *)

Lemma ring_put_back c m xs r x : ring_rep c m xs r -> 0 < uxLength c ->
  Z.of_nat (length xs) < uxLength c -> Z.of_nat (length x) = uxItemSize c ->
  ring_rep (set_pcWriteTo (slot (pcHead c) (uxLength c) (uxItemSize c) (r + 1 + Z.of_nat (length xs) + 1)) c)
    (store_bytes (pcWriteTo c) x m) (xs ++ [x]) r /\
  same_outside c m (store_bytes (pcWriteTo c) x m).
Proof.
  intros [[[Hs Hsh] Hend] Ht Hr Hw Hi] Hl Hroom Hx. rewrite Hw. split; [split; try done; simpl|].
  - rewrite length_app. simpl. f_equal. lia.
  - intros i y Hy. apply lookup_app_Some in Hy as [Hy|[Hge Hy]].
    + rewrite load_store_apart; [by apply Hi|]. apply lookup_lt_Some in Hy.
      destruct (slot_apart (pcHead c) (uxLength c) (uxItemSize c) Hs (r + 1 + Z.of_nat i)
        (r + 1 + Z.of_nat (length xs))); [apply mod_ne; lia|left|right]; lia.
    + destruct (i - length xs)%nat as [|j] eqn:E; [|by destruct j]. simpl in Hy. injection Hy as <-.
      assert (i = length xs) as -> by lia.
      replace (Z.to_nat (uxItemSize c)) with (length x) by lia. apply load_store_same.
  - intros a Ha. rewrite lookup_store_bytes, decide_False; [done|].
    pose proof (slot_bounds (pcHead c) (uxLength c) (uxItemSize c) Hl Hs (r + 1 + Z.of_nat (length xs))). lia.
Qed.

Lemma ring_put_front c m xs r x : ring_rep c m xs r -> 0 < uxLength c ->
  Z.of_nat (length xs) < uxLength c -> Z.of_nat (length x) = uxItemSize c ->
  ring_rep (set_u1 (slot (pcHead c) (uxLength c) (uxItemSize c) (r - 1)) c)
    (store_bytes (pcReadFrom c) x m) (x :: xs) (r - 1) /\
  same_outside c m (store_bytes (pcReadFrom c) x m).
Proof.
  intros [[[Hs Hsh] Hend] Ht Hr Hw Hi] Hl Hroom Hx. rewrite Hr. split; [split; try done; simpl|].
  - rewrite Hw. f_equal. lia.
  - intros i y Hy. destruct i as [|i]; simpl in Hy.
    + injection Hy as <-. replace (r - 1 + 1 + Z.of_nat 0) with r by lia.
      replace (Z.to_nat (uxItemSize c)) with (length x) by lia. apply load_store_same.
    + replace (r - 1 + 1 + Z.of_nat (S i)) with (r + 1 + Z.of_nat i) by lia.
      rewrite load_store_apart; [by apply Hi|]. apply lookup_lt_Some in Hy.
      destruct (slot_apart (pcHead c) (uxLength c) (uxItemSize c) Hs (r + 1 + Z.of_nat i) r);
        [apply not_eq_sym, mod_ne; lia|left|right]; lia.
  - intros a Ha. rewrite lookup_store_bytes, decide_False; [done|].
    pose proof (slot_bounds (pcHead c) (uxLength c) (uxItemSize c) Hl Hs r). lia.
Qed.

Lemma ring_overwrite c m xs r x : ring_rep c m xs r -> uxLength c = 1 ->
  Z.of_nat (length x) = uxItemSize c ->
  ring_rep (set_u1 (slot (pcHead c) (uxLength c) (uxItemSize c) (r - 1)) c)
    (store_bytes (pcReadFrom c) x m) [x] (r - 1) /\
  same_outside c m (store_bytes (pcReadFrom c) x m).
Proof.
  intros [[[Hs Hsh] Hend] Ht Hr Hw Hi] Hl Hx.
  assert (forall i j, slot (pcHead c) (uxLength c) (uxItemSize c) i = slot (pcHead c) (uxLength c) (uxItemSize c) j)
    as Hsame by (intros; unfold slot; by rewrite Hl, !Z.mod_1_r).
  rewrite Hr. split; [split; try done; simpl|].
  - rewrite Hw. apply Hsame.
  - intros i y Hy. destruct i as [|i]; simpl in Hy; [|done]. injection Hy as <-.
    rewrite (Hsame (r - 1 + 1 + Z.of_nat 0) r).
    replace (Z.to_nat (uxItemSize c)) with (length x) by lia. apply load_store_same.
  - intros a Ha. rewrite lookup_store_bytes, decide_False; [done|].
    pose proof (slot_bounds (pcHead c) (uxLength c) (uxItemSize c) ltac:(lia) Hs r). lia.
Qed.

Lemma ring_take c m x xs r : ring_rep c m (x :: xs) r ->
  ring_rep (set_u1 (slot (pcHead c) (uxLength c) (uxItemSize c) (r + 1)) c) m xs (r + 1) /\
  load_bytes (slot (pcHead c) (uxLength c) (uxItemSize c) (r + 1)) (Z.to_nat (uxItemSize c)) m = Some x.
Proof.
  intros [Hf Ht Hr Hw Hi]. split.
  - split; try done; simpl.
    + rewrite Hw. simpl. f_equal. lia.
    + intros i y Hy. replace (r + 1 + 1 + Z.of_nat i) with (r + 1 + Z.of_nat (S i)) by lia. by apply Hi.
  - specialize (Hi 0%nat x eq_refl). by replace (r + 1 + Z.of_nat 0) with (r + 1) in Hi by lia.
Qed.

(** The pointer arithmetic of the copies. *)
Lemma write_next c m xs r : ring_rep c m xs r -> 0 < uxLength c ->
  (let p := u32 (pcWriteTo c + uxItemSize c) in if p >=? pcTail c then pcHead c else p) =
  slot (pcHead c) (uxLength c) (uxItemSize c) (r + 1 + Z.of_nat (length xs) + 1).
Proof.
  intros [[[Hs Hsh] Hend] Ht Hr Hw Hi] Hl. cbv zeta. rewrite Hw, Ht.
  pose proof (slot_bounds (pcHead c) (uxLength c) (uxItemSize c) Hl Hs (r + 1 + Z.of_nat (length xs))).
  rewrite u32_small by lia. by apply slot_next.
Qed.
Lemma read_next c m xs r : ring_rep c m xs r -> 0 < uxLength c ->
  (let p := u32 (pcReadFrom c + uxItemSize c) in if p >=? pcTail c then pcHead c else p) =
  slot (pcHead c) (uxLength c) (uxItemSize c) (r + 1).
Proof.
  intros [[[Hs Hsh] Hend] Ht Hr Hw Hi] Hl. cbv zeta. rewrite Hr, Ht.
  pose proof (slot_bounds (pcHead c) (uxLength c) (uxItemSize c) Hl Hs r).
  rewrite u32_small by lia. by apply slot_next.
Qed.
Lemma read_prev c m xs r : ring_rep c m xs r -> 0 < uxLength c ->
  (let p := u32 (pcReadFrom c - uxItemSize c) in
   if p <? pcHead c then u32 (pcTail c - uxItemSize c) else p) =
  slot (pcHead c) (uxLength c) (uxItemSize c) (r - 1).
Proof.
  intros [[[Hs Hsh] Hend] Ht Hr Hw Hi] Hl. cbv zeta. rewrite Hr, Ht.
  pose proof (slot_bounds (pcHead c) (uxLength c) (uxItemSize c) Hl Hs r).
  rewrite !u32_small by nia. pose proof (slot_prev (pcHead c) (uxLength c) (uxItemSize c) Hl Hs (r - 1)) as Hp.
  by replace (r - 1 + 1) with r in Hp by lia.
Qed.

(** ** The copies of queue.c *)

Lemma upd_queue_eq q f w c : w_q w !! q = Some c ->
  upd_queue q f w = Some (mkWorld (w_k w) (<[q := f c]> (w_q w)) (w_mem w)).
Proof. intros E. unfold upd_queue. by rewrite E. Qed.

Lemma memcpy_to_eq a x n m : Z.of_nat (length x) = n -> memcpy_to a x n m = Some (store_bytes a x m).
Proof.
  intros Hx. unfold memcpy_to. rewrite decide_True by lia. by rewrite take_ge by lia.
Qed.

Lemma length_put pos x xs c : may_put c pos xs ->
  Z.of_nat (length (put pos x xs)) =
    (if bool_decide (pos = queueOVERWRITE) && (Z.of_nat (length xs) >? 0)
     then Z.of_nat (length xs) - 1 else Z.of_nat (length xs)) + 1 \/ 1 < Z.of_nat (length xs).
Proof.
  destruct pos; simpl; intros Hm; try (left; rewrite ?length_app; simpl; lia).
  rewrite Z.gtb_ltb. destruct (Z.ltb_spec 0 (Z.of_nat (length xs))); lia.
Qed.

Lemma copy_to_ok q c xs x pos w : w_q w !! q = Some c -> queue_rep c (w_mem w) xs ->
  Z.of_nat (length x) = uxItemSize c -> may_put c pos xs ->
  exists c' m', prvCopyDataToQueue q x pos w = Some (mkWorld (w_k w) (<[q := c']> (w_q w)) m', false) /\
    queue_rep c' m' (put pos x xs) /\ same_shape c c' /\ same_outside c (w_mem w) m'.
Proof.
  intros Eq [Hk Hl [Hn Hn'] [Hsz Hall] Hring] Hx Hmay. unfold prvCopyDataToQueue. rewrite Eq.
  cbn [mbind option_bind].
  assert (Forall (fun y => Z.of_nat (length y) = uxItemSize c) (put pos x xs)) as Hall'.
  { destruct pos; simpl; [apply Forall_app; by auto|by constructor|by repeat constructor]. }
  assert (Z.of_nat (length (put pos x xs)) <= uxLength c) as Hlen'
    by (destruct pos; simpl in *; rewrite ?length_app; simpl; lia).
  destruct (Z.eqb_spec (uxItemSize c) 0) as [E0|E0].
  - destruct (Z.eqb_spec (uxQueueType c) queueQUEUE_IS_MUTEX); [done|]. cbn [mbind option_bind].
    rewrite (upd_queue_eq _ _ _ c Eq). cbn [mbind option_bind]. do 2 eexists. split; [reflexivity|].
    assert (u32 (uxMessagesWaiting c + 1) = Z.of_nat (length (put pos x xs))) as Hcnt.
    { rewrite Hn. destruct pos; simpl in *; rewrite ?length_app; simpl; [| |lia]; rewrite u32_small by lia; lia. }
    split; [|split; [by split_and!|done]]. split; simpl; auto.
  - destruct Hring as [?|[r Hr]]; [done|].
    assert (forall c' m', uxMessagesWaiting c' = uxMessagesWaiting c -> same_shape c c' ->
      (exists r', ring_rep c' m' (put pos x xs) r') -> same_outside c (w_mem w) m' ->
      queue_rep (set_uxMessagesWaiting (Z.of_nat (length (put pos x xs))) c') m' (put pos x xs) /\
      same_shape c (set_uxMessagesWaiting (Z.of_nat (length (put pos x xs))) c') /\
      same_outside c (w_mem w) m') as Hdone.
    { intros c' m' Hm' (S1 & S2 & S3 & S4 & S5) (r' & [? ? ? ? ?]) Hout.
      split; [split|split; [by split_and!|done]]; simpl; rewrite ?S2, ?S3; try done;
        [unfold uxQueueType in *; simpl; by rewrite S1|].
      right. exists r'. by split. }
    destruct pos.
    + rewrite memcpy_to_eq by done. cbn [mbind option_bind].
      destruct (ring_put_back c _ xs r x Hr) as [Hrep Hout]; [lia|simpl in Hmay; lia|done|].
      pose proof (write_next c _ xs r Hr ltac:(lia)) as Ep. cbv zeta in Ep. rewrite Ep.
      rewrite (upd_queue_eq q _ (set_mem _ w) c) by exact Eq. cbn [mbind option_bind].
      rewrite (upd_queue_eq _ _ _ _ (lookup_insert_eq _ _ _)). cbn [mbind option_bind].
      replace (u32 (uxMessagesWaiting c + 1)) with (Z.of_nat (length (put queueSEND_TO_BACK x xs)))
        by (rewrite u32_small by (simpl in *; lia); simpl; rewrite length_app; simpl; lia).
      do 2 eexists. simpl. rewrite insert_insert_eq. split; [reflexivity|].
      apply Hdone; [done|by split_and!|by eexists|done].
    + rewrite memcpy_to_eq by done. cbn [mbind option_bind].
      destruct (ring_put_front c _ xs r x Hr) as [Hrep Hout]; [lia|simpl in Hmay; lia|done|].
      pose proof (read_prev c _ xs r Hr ltac:(lia)) as Ep. cbv zeta in Ep. rewrite Ep.
      rewrite (upd_queue_eq q _ (set_mem _ w) c) by exact Eq. cbn [mbind option_bind].
      rewrite bool_decide_eq_false_2 by done. simpl.
      rewrite (upd_queue_eq _ _ _ _ (lookup_insert_eq _ _ _)). cbn [mbind option_bind].
      replace (u32 (uxMessagesWaiting c + 1)) with (Z.of_nat (length (put queueSEND_TO_FRONT x xs)))
        by (rewrite u32_small by (simpl in *; lia); simpl; lia).
      do 2 eexists. simpl. rewrite insert_insert_eq. split; [reflexivity|].
      apply Hdone; [done|by split_and!|by eexists|done].
    + rewrite memcpy_to_eq by done. cbn [mbind option_bind]. destruct Hmay as [Hl1 _].
      destruct (ring_overwrite c _ xs r x Hr Hl1 Hx) as [Hrep Hout].
      pose proof (read_prev c _ xs r Hr ltac:(lia)) as Ep. cbv zeta in Ep. rewrite Ep.
      rewrite (upd_queue_eq q _ (set_mem _ w) c) by exact Eq. cbn [mbind option_bind].
      rewrite bool_decide_eq_true_2 by done. simpl.
      rewrite (upd_queue_eq _ _ _ _ (lookup_insert_eq _ _ _)). cbn [mbind option_bind].
      replace (u32 ((if uxMessagesWaiting c >? 0 then u32 (uxMessagesWaiting c - 1) else uxMessagesWaiting c) + 1))
        with (Z.of_nat (length (put queueOVERWRITE x xs)))
        by (rewrite Z.gtb_ltb; simpl; destruct (Z.ltb_spec 0 (uxMessagesWaiting c)); wrap_lia).
      do 2 eexists. simpl. rewrite insert_insert_eq. split; [reflexivity|].
      apply (Hdone (set_u1 _ c)); [done|by split_and!|by eexists|done].
Qed.

(** Taking the first message: the read pointer moves and the bytes come out. *)
Lemma copy_from_ok q c x xs w : w_q w !! q = Some c -> queue_rep c (w_mem w) (x :: xs) ->
  exists p, prvCopyDataFromQueue q w =
      Some (mkWorld (w_k w) (<[q := set_u1 p c]> (w_q w)) (w_mem w), x) /\
    queue_rep (set_uxMessagesWaiting (Z.of_nat (length xs)) (set_u1 p c)) (w_mem w) xs.
Proof.
  intros Eq [Hk Hl [Hn Hn'] [Hsz Hall] Hring]. unfold prvCopyDataFromQueue. rewrite Eq. cbn [mbind option_bind].
  apply Forall_cons in Hall as [Hx Hall]. simpl in Hn'.
  destruct (Z.eqb_spec (uxItemSize c) 0) as [E0|E0]; cbn [negb].
  - exists (q_u1 c). assert (set_u1 (q_u1 c) c = c) as E1 by (by destruct c).
    rewrite E1, insert_id by done. assert (x = []) as -> by (apply nil_length_inv; lia).
    split; [by destruct w|]. split; simpl; auto. split; [done|lia].
  - destruct Hring as [?|[r Hr]]; [done|]. destruct (ring_take c _ x xs r Hr) as [Hrep Hload].
    pose proof (read_next c _ _ r Hr ltac:(lia)) as Ep. cbv zeta in Ep. rewrite Ep.
    rewrite (upd_queue_eq _ _ _ c Eq). cbn [mbind option_bind]. simpl. rewrite Hload. simpl.
    eexists. split; [reflexivity|]. split; simpl; try done; [split; [done|lia]|].
    right. exists (r + 1). by destruct Hrep.
Qed.

(** ** Waking the first waiter *)

(** The first task of [ev], if any, is released; [y]: it is more urgent than
    the running task. *)
Definition woke (ev : ListId) (k k' : Kernel) (y : bool) : Prop :=
  (klist k ev = [] /\ k' = k /\ y = false) \/
  exists t, head_owner ev k = Some t /\ released t k k' /\
    (y = true <-> uxPriority (tcb k t) > cur_prio k).

Lemma wake_first_ok q n w : kinv (w_k w) ->
  exists k' y, wake_first (LEvent q n) w = Some (set_kernel k' w, y) /\ woke (LEvent q n) (w_k w) k' y /\
    kinv k'.
Proof.
  intros Hinv. unfold wake_first, list_empty. destruct (klist (w_k w) (LEvent q n)) as [|i l] eqn:E.
  - exists (w_k w), false. split; [by destruct w|]. split; [by left|done].
  - destruct (xTaskRemoveFromEventList_ok (w_k w) q n Hinv) as (t & k' & y & Hh & -> & Hr & Hy & _); [by rewrite E|].
    exists k', y. split; [done|]. split; [|apply Hr]. right. by exists t.
Qed.

Definition yield_if (y : bool) (k : Kernel) : Kernel := if y then portYIELD k else k.
Lemma queueYIELD_eq (y : bool) k w : (if y then queueYIELD (set_kernel k w) else set_kernel k w) = set_kernel (yield_if y k) w.
Proof. by destruct y. Qed.
Lemma kinv_yield_if y k : kinv k -> kinv (yield_if y k).
Proof. destruct y; [apply kinv_yield|done]. Qed.

(** ** The operations that do not block *)

(** The queue at [q] holds the messages [xs]. *)
Definition holds (q : Z) (w : World) (c : Queue_t) (xs : list (list Z)) : Prop :=
  w_q w !! q = Some c /\ queue_rep c (w_mem w) xs.

(** Only the queue at [q] and its storage changed besides the kernel. *)
Record queue_step (q : Z) (c : Queue_t) (w w' : World) (xs' : list (list Z)) : Prop := mkQueueStep {
  qs_kinv : kinv (w_k w');
  qs_holds : exists c', holds q w' c' xs' /\ uxLength c' = uxLength c /\ uxItemSize c' = uxItemSize c /\
    pcHead c' = pcHead c;
  qs_queues : forall q', q' <> q -> w_q w' !! q' = w_q w !! q';
  qs_memory : same_outside c (w_mem w) (w_mem w')
}.

Lemma queue_step_refl q c w xs : kinv (w_k w) -> holds q w c xs -> queue_step q c w w xs.
Proof. intros Hk Hh. split; [done|by exists c|done|done]. Qed.

Lemma queue_step_kernel q c w w' xs' k : queue_step q c w w' xs' -> kinv k ->
  queue_step q c w (set_kernel k w') xs'.
Proof. intros [_ H1 H2 H3] Hk. by split. Qed.

(** Locks can be changed freely. *)
Lemma queue_rep_locks c m xs a b : queue_rep c m xs -> queue_rep (set_cRxLock a (set_cTxLock b c)) m xs.
Proof.
  intros [? ? ? ? Hr]. split; try done. destruct Hr as [?|[r []]]; [by left|right]. by exists r.
Qed.

Definition accepts (c : Queue_t) (pos : Position) (xs : list (list Z)) : bool :=
  (Z.of_nat (length xs) <? uxLength c) || bool_decide (pos = queueOVERWRITE).
(** What the source asserts of a message and its position. *)
Definition valid_item (c : Queue_t) (x : list Z) (pos : Position) : Prop :=
  Z.of_nat (length x) = uxItemSize c /\ (pos = queueOVERWRITE -> uxLength c = 1 /\ 0 < uxItemSize c).

Lemma accepts_may_put c pos xs x : valid_item c x pos -> accepts c pos xs = true -> may_put c pos xs.
Proof. intros [_ Hv] Ha%orb_true_iff. destruct pos; simpl; [| |by apply Hv]; destruct Ha as [?%Z.ltb_lt|?]; done. Qed.

Lemma copy_step q c xs x pos w : kinv (w_k w) -> holds q w c xs -> valid_item c x pos ->
  accepts c pos xs = true ->
  exists c' m', prvCopyDataToQueue q x pos w = Some (mkWorld (w_k w) (<[q := c']> (w_q w)) m', false) /\
    same_shape c c' /\ queue_step q c w (mkWorld (w_k w) (<[q := c']> (w_q w)) m') (put pos x xs).
Proof.
  intros Hk [Eq Hrep] Hv Ha. destruct (copy_to_ok q c xs x pos w Eq Hrep (proj1 Hv) (accepts_may_put _ _ _ _ Hv Ha))
    as (c' & m' & E & Hrep' & Hs & Hout). exists c', m'. split; [done|]. split; [done|]. destruct Hs as (S1 & S2 & S3 & _).
  split; simpl; [done| | |done].
  - exists c'. split; [split; simpl; [by rewrite lookup_insert_eq|done]|by split_and!].
  - intros q' Hq'. by rewrite lookup_insert_ne.
Qed.

Lemma try_send_ok q c xs x pos w : kinv (w_k w) -> holds q w c xs -> valid_item c x pos ->
  exists w', try_send q x pos w = Some (w', if accepts c pos xs then Some (true, []) else None) /\
    queue_step q c w w' (if accepts c pos xs then put pos x xs else xs) /\
    if accepts c pos xs then
      exists k1 y, woke (xTasksWaitingToReceive q) (w_k w) k1 y /\ w_k w' = yield_if y k1
    else w' = w.
Proof.
  intros Hk Hh Hv. pose proof Hh as [Eq Hrep]. unfold try_send. rewrite Eq. cbn [mbind option_bind].
  rewrite (proj1 (qr_count _ _ _ Hrep)). fold (accepts c pos xs). destruct (accepts c pos xs) eqn:Ea.
  - destruct (copy_step q c xs x pos w Hk Hh Hv Ea) as (c' & m' & -> & Hs & Hstep). cbn [mbind option_bind].
    set (w1 := mkWorld _ _ m') in *. change (w_k w1) with (w_k w).
    destruct (wake_first_ok q 1 w1 Hk) as (k1 & y & Ew & Hw & Hk1).
    change (w_k w1) with (w_k w) in Hw. fold (xTasksWaitingToReceive q) in Ew, Hw.
    exists (set_kernel (yield_if y k1) w1).
    assert ((if negb (list_empty (xTasksWaitingToReceive q) (w_k w))
      then '(w0, y0) ← wake_first (xTasksWaitingToReceive q) w1; Some (if (y0 : bool) then queueYIELD w0 else w0)
      else Some w1) = Some (set_kernel (yield_if y k1) w1)) as ->.
    { unfold list_empty. destruct (klist (w_k w) _) as [|i l] eqn:El; simpl negb; cbv iota.
      - destruct Hw as [(_ & -> & ->)|(t & Hh' & _)]; [done|]. unfold head_owner in Hh'. by rewrite El in Hh'.
      - rewrite Ew. cbn [mbind option_bind]. by rewrite queueYIELD_eq. }
    split; [done|]. split; [by apply queue_step_kernel, kinv_yield_if|]. by exists k1, y.
  - exists w. split; [done|]. split; [by apply queue_step_refl|done].
Qed.

Lemma dequeue_step q c x xs w : kinv (w_k w) -> holds q w c (x :: xs) ->
  exists p, prvCopyDataFromQueue q w = Some (mkWorld (w_k w) (<[q := set_u1 p c]> (w_q w)) (w_mem w), x) /\
    (forall a b, queue_step q c w (mkWorld (w_k w) (<[q := set_cRxLock a (set_cTxLock b
       (set_uxMessagesWaiting (u32 (uxMessagesWaiting c - 1)) (set_u1 p c)))]> (w_q w)) (w_mem w)) xs) /\
    mkWorld (w_k w) (<[q := set_u1 (pcReadFrom c) (set_u1 p c)]> (w_q w)) (w_mem w) = w.
Proof.
  intros Hk [Eq Hrep]. destruct (copy_from_ok q c x xs w Eq Hrep) as (p & E & Hrep').
  exists p. split; [done|]. split.
  - intros a b. split; simpl; [done| | |done].
    + eexists. split; [split; simpl; [by rewrite lookup_insert_eq|]|done].
      apply queue_rep_locks. destruct (qr_count _ _ _ Hrep) as [Hn Hle]. simpl in Hn, Hle.
      pose proof (qr_length _ _ _ Hrep).
      replace (u32 (uxMessagesWaiting c - 1)) with (Z.of_nat (length xs)) by (rewrite u32_small by lia; lia). done.
    + intros q' Hq'. by rewrite lookup_insert_ne.
  - assert (set_u1 (pcReadFrom c) (set_u1 p c) = c) as -> by (by destruct c).
    rewrite insert_id by done. by destruct w.
Qed.

Definition answer_of (xs : list (list Z)) : option (bool * list Z) :=
  match xs with [] => None | x :: _ => Some (true, x) end.

Lemma holds_empty q c w xs : holds q w c xs -> (uxMessagesWaiting c >? 0) = negb (bool_decide (xs = [])).
Proof. intros [_ [_ _ [-> _] _ _]]. by destruct xs. Qed.

Lemma set_locks_id c n p : set_cRxLock (cRxLock c) (set_cTxLock (cTxLock c) (set_uxMessagesWaiting n (set_u1 p c))) =
  set_uxMessagesWaiting n (set_u1 p c).
Proof. by destruct c. Qed.

(** The wake-up at the end of an operation, with its yield. *)
Lemma wake_yield_ok ev n q c w w1 xs (r : option (bool * list Z)) : ev = LEvent q n -> queue_step q c w w1 xs ->
  exists k' y, ('(w0, y) ← wake_first ev w1;
     Some (if (y : bool) then queueYIELD w0 else w0, r)) = Some (set_kernel (yield_if y k') w1, r) /\
    woke ev (w_k w1) k' y /\ queue_step q c w (set_kernel (yield_if y k') w1) xs.
Proof.
  intros -> Hs. destruct (wake_first_ok q n w1 (qs_kinv _ _ _ _ _ Hs)) as (k' & y & -> & Hw & Hk).
  exists k', y. cbn [mbind option_bind]. rewrite queueYIELD_eq. split; [done|]. split; [done|].
  by apply queue_step_kernel, kinv_yield_if.
Qed.

Lemma try_receive_ok q c xs w : kinv (w_k w) -> holds q w c xs ->
  exists w', try_receive q w = Some (w', answer_of xs) /\ queue_step q c w w' (tail xs) /\
    if bool_decide (xs = []) then w' = w else
      exists k1 y, woke (xTasksWaitingToSend q) (w_k w) k1 y /\ w_k w' = yield_if y k1.
Proof.
  intros Hk Hh. pose proof Hh as [Eq _]. unfold try_receive. rewrite Eq. cbn [mbind option_bind].
  rewrite (holds_empty q c w xs Hh). destruct xs as [|x xs]; simpl.
  { exists w. split; [done|]. split; [by apply queue_step_refl|done]. }
  destruct (dequeue_step q c x xs w Hk Hh) as (p & -> & Hstep & _). cbn [mbind option_bind].
  rewrite (upd_queue_eq _ _ _ _ (lookup_insert_eq _ _ _)). simpl. rewrite insert_insert_eq.
  specialize (Hstep (cRxLock c) (cTxLock c)). rewrite set_locks_id in Hstep.
  destruct (wake_yield_ok (xTasksWaitingToSend q) 0 q _ _ _ _ (Some (true, x)) eq_refl Hstep) as (k' & y & -> & Hw & Hs).
  eexists. split; [reflexivity|]. split; [done|]. by exists k', y.
Qed.

Lemma try_peek_ok q c xs w : kinv (w_k w) -> holds q w c xs ->
  exists w', try_peek q w = Some (w', answer_of xs) /\ queue_step q c w w' xs /\
    if bool_decide (xs = []) then w' = w else
      exists k1 y, woke (xTasksWaitingToReceive q) (w_k w) k1 y /\ w' = set_kernel (yield_if y k1) w.
Proof.
  intros Hk Hh. pose proof Hh as [Eq _]. unfold try_peek. rewrite Eq. cbn [mbind option_bind].
  rewrite (holds_empty q c w xs Hh). destruct xs as [|x xs]; simpl.
  { exists w. split; [done|]. split; [by apply queue_step_refl|done]. }
  destruct (dequeue_step q c x xs w Hk Hh) as (p & -> & _ & Hid). cbn [mbind option_bind].
  rewrite (upd_queue_eq _ _ _ _ (lookup_insert_eq _ _ _)). simpl. rewrite insert_insert_eq, Hid.
  destruct (wake_yield_ok (xTasksWaitingToReceive q) 1 q _ _ _ _ (Some (true, x)) eq_refl (queue_step_refl q c w _ Hk Hh)) as (k' & y & -> & Hw & Hs).
  eexists. split; [reflexivity|]. split; [done|]. by exists k', y.
Qed.

(** A semaphore: taking is receiving. *)
Lemma try_take_ok q c xs w : kinv (w_k w) -> holds q w c xs -> uxItemSize c = 0 ->
  exists w', try_take q w = Some (w', answer_of xs) /\ queue_step q c w w' (tail xs) /\
    if bool_decide (xs = []) then w' = w else
      exists k1 y, woke (xTasksWaitingToSend q) (w_k w) k1 y /\ w_k w' = yield_if y k1.
Proof.
  intros Hk Hh Hsz. pose proof Hh as [Eq Hrep]. unfold try_take. rewrite Eq. cbn [mbind option_bind].
  rewrite (holds_empty q c w xs Hh). destruct xs as [|x xs]; simpl.
  { exists w. split; [done|]. split; [by apply queue_step_refl|done]. }
  assert (x = []) as ->.
  { destruct (qr_size _ _ _ Hrep) as [_ [Hx _]%Forall_cons]. apply nil_length_inv. lia. }
  destruct (dequeue_step q c [] xs w Hk Hh) as (p & E & Hstep & _).
  unfold prvCopyDataFromQueue in E. rewrite Eq in E. cbn [mbind option_bind] in E. rewrite Hsz in E. simpl in E.
  assert (set_u1 p c = c) as Ep.
  { injection E as E. apply (f_equal (fun w => w_q w !! q)) in E. simpl in E.
    rewrite lookup_insert_eq, Eq in E. by injection E as <-. }
  specialize (Hstep (cRxLock c) (cTxLock c)). rewrite set_locks_id, Ep in Hstep.
  rewrite (upd_queue_eq _ _ _ _ Eq). cbn [mbind option_bind].
  destruct (Z.eqb_spec (uxQueueType c) queueQUEUE_IS_MUTEX) as [Em|_]; [by destruct (qr_kind _ _ _ Hrep)|].
  cbn [mbind option_bind].
  destruct (wake_yield_ok (xTasksWaitingToSend q) 0 q _ _ _ _ (Some (true, [])) eq_refl Hstep) as (k' & y & -> & Hw & Hs).
  eexists. split; [reflexivity|]. split; [done|]. by exists k', y.
Qed.

(** *** Interrupts *)

(** On an unlocked queue an interrupt wakes a waiter, on a locked one it counts. *)
Definition woke_or_counted (ev : ListId) (lock lock' : Z) (k k' : Kernel) (y : bool) : Prop :=
  if lock =? queueUNLOCKED then woke ev k k' y /\ lock' = lock
  else k' = k /\ y = false /\ lock' = s8 (lock + 1).

Lemma xQueueGenericSendFromISR_ok q c xs x pos w : kinv (w_k w) -> holds q w c xs -> valid_item c x pos ->
  exists w' y, xQueueGenericSendFromISR q x pos w = Some (w', accepts c pos xs, y) /\
    queue_step q c w w' (if accepts c pos xs then put pos x xs else xs) /\
    if accepts c pos xs then
      exists c', w_q w' !! q = Some c' /\ cRxLock c' = cRxLock c /\
        woke_or_counted (xTasksWaitingToReceive q) (cTxLock c) (cTxLock c') (w_k w) (w_k w') y
    else w' = w /\ y = false.
Proof.
  intros Hk Hh Hv. pose proof Hh as [Eq Hrep]. unfold xQueueGenericSendFromISR. rewrite Eq. cbn [mbind option_bind].
  rewrite (proj1 (qr_count _ _ _ Hrep)). fold (accepts c pos xs). destruct (accepts c pos xs) eqn:Ea.
  - destruct (copy_step q c xs x pos w Hk Hh Hv Ea) as (c' & m' & -> & Hs & Hstep). cbn [mbind option_bind].
    unfold woke_or_counted. destruct (Z.eqb_spec (cTxLock c) queueUNLOCKED) as [El|El].
    + destruct (wake_first_ok q 1 (mkWorld (w_k w) (<[q := c']> (w_q w)) m') Hk) as (k1 & y & Ew & Hw & Hk1).
      fold (xTasksWaitingToReceive q) in Ew. rewrite Ew. cbn [mbind option_bind]. do 2 eexists. split; [reflexivity|].
      split; [by apply queue_step_kernel|]. exists c'. split; [simpl; by rewrite lookup_insert_eq|]. split; [apply Hs|]. split; [done|]. apply Hs.
    + rewrite (upd_queue_eq _ _ _ _ (lookup_insert_eq _ _ _)). cbn [mbind option_bind]. simpl.
      rewrite insert_insert_eq. do 2 eexists. split; [reflexivity|].
      destruct Hstep as [_ (c2 & [Ec2 Hrep2] & Hc2) Hq Hm]. simpl in Ec2. rewrite lookup_insert_eq in Ec2. injection Ec2 as <-.
      split.
      * split; simpl; [done| |intros; by rewrite lookup_insert_ne|done].
        eexists. split; [split; simpl; [by rewrite lookup_insert_eq|]|done].
        pose proof (queue_rep_locks c' m' _ (cRxLock c') (s8 (cTxLock c + 1)) Hrep2) as Hr.
        by destruct c'.
      * eexists. simpl. split; [by rewrite lookup_insert_eq|]. split; [apply Hs|]. split; [done|]. by split.
  - exists w, false. split; [done|]. split; [by apply queue_step_refl|done].
Qed.

Lemma xQueueReceiveFromISR_ok q c xs w : kinv (w_k w) -> holds q w c xs ->
  exists w' y, xQueueReceiveFromISR q w =
      Some (w', negb (bool_decide (xs = [])), default [] (head xs), y) /\
    queue_step q c w w' (tail xs) /\
    if bool_decide (xs = []) then w' = w /\ y = false else
      exists c', w_q w' !! q = Some c' /\
        woke_or_counted (xTasksWaitingToSend q) (cRxLock c) (cRxLock c') (w_k w) (w_k w') y.
Proof.
  intros Hk Hh. pose proof Hh as [Eq _]. unfold xQueueReceiveFromISR. rewrite Eq. cbn [mbind option_bind].
  rewrite (holds_empty q c w xs Hh). destruct xs as [|x xs]; simpl.
  { exists w, false. split; [done|]. split; [by apply queue_step_refl|done]. }
  destruct (dequeue_step q c x xs w Hk Hh) as (p & -> & Hstep & _). cbn [mbind option_bind].
  rewrite (upd_queue_eq _ _ _ _ (lookup_insert_eq _ _ _)). cbn [mbind option_bind w_q w_k w_mem]. rewrite insert_insert_eq.
  unfold woke_or_counted. destruct (Z.eqb_spec (cRxLock c) queueUNLOCKED) as [El|El].
  - specialize (Hstep (cRxLock c) (cTxLock c)). rewrite set_locks_id in Hstep.
    match type of Hstep with queue_step _ _ _ ?w1 _ =>
      destruct (wake_first_ok q 0 w1 Hk) as (k1 & y & Ew & Hw & Hk1) end.
    fold (xTasksWaitingToSend q) in Ew. rewrite Ew. cbn [mbind option_bind]. do 2 eexists. split; [reflexivity|].
    split; [by apply queue_step_kernel|]. eexists. split; [simpl; by rewrite lookup_insert_eq|]. by split.
  - rewrite (upd_queue_eq _ _ _ _ (lookup_insert_eq _ _ _)). cbn [mbind option_bind]. simpl.
    rewrite insert_insert_eq. do 2 eexists. split; [reflexivity|].
    specialize (Hstep (s8 (cRxLock c + 1)) (cTxLock c)).
    split; [by destruct c|]. eexists. split; [simpl; by rewrite lookup_insert_eq|]. by split.
Qed.

Lemma xQueuePeekFromISR_ok q c xs w : kinv (w_k w) -> holds q w c xs ->
  xQueuePeekFromISR q w = Some (w, negb (bool_decide (xs = [])), default [] (head xs)).
Proof.
  intros Hk Hh. pose proof Hh as [Eq _]. unfold xQueuePeekFromISR. rewrite Eq. cbn [mbind option_bind].
  rewrite (holds_empty q c w xs Hh). destruct xs as [|x xs]; simpl; [done|].
  destruct (dequeue_step q c x xs w Hk Hh) as (p & -> & _ & Hid). cbn [mbind option_bind].
  rewrite (upd_queue_eq _ _ _ _ (lookup_insert_eq _ _ _)). simpl. rewrite insert_insert_eq, Hid. done.
Qed.

Lemma xQueueGiveFromISR_ok q c xs w : kinv (w_k w) -> holds q w c xs -> uxItemSize c = 0 ->
  xQueueGiveFromISR q w = xQueueGenericSendFromISR q [] queueSEND_TO_BACK w.
Proof.
  intros Hk [Eq Hrep] Hsz. unfold xQueueGiveFromISR, xQueueGenericSendFromISR, prvCopyDataToQueue. rewrite Eq.
  cbn [mbind option_bind]. rewrite bool_decide_eq_false_2, orb_false_r by done.
  destruct (uxMessagesWaiting c <? uxLength c); [|done]. rewrite Hsz, Z.eqb_refl.
  destruct (Z.eqb_spec (uxQueueType c) queueQUEUE_IS_MUTEX) as [Em|_]; [by destruct (qr_kind _ _ _ Hrep)|].
  cbn [mbind option_bind]. by rewrite (upd_queue_eq _ _ _ _ Eq).
Qed.

(** ** The contract: a bounded first-in first-out buffer *)

(** The calls of clients and interrupts that do not wait. *)
Inductive queue_op :=
| OpSend (x : list Z) (pos : Position) | OpSendFromISR (x : list Z) (pos : Position) | OpGiveFromISR
| OpReceive | OpReceiveFromISR | OpTake | OpPeek | OpPeekFromISR | OpMessages | OpSpaces.

(** What a call tells its caller: pdPASS or not, the bytes, or a count. *)
Inductive answer := Ans (ok : bool) (bs : list Z) | Count (n : Z).

Definition run_queue_op (q : Z) (op : queue_op) (w : World) : option (World * answer) :=
  match op with
  | OpSend x pos => '(w, ok, bs) ← call_now (xQueueGenericSend q x 0 pos) w; Some (w, Ans ok bs)
  | OpSendFromISR x pos => '(w, ok, _) ← xQueueGenericSendFromISR q x pos w; Some (w, Ans ok [])
  | OpGiveFromISR => '(w, ok, _) ← xQueueGiveFromISR q w; Some (w, Ans ok [])
  | OpReceive => '(w, ok, bs) ← call_now (xQueueReceive q 0) w; Some (w, Ans ok bs)
  | OpReceiveFromISR => '(w, ok, bs, _) ← xQueueReceiveFromISR q w; Some (w, Ans ok bs)
  | OpTake => '(w, ok, bs) ← call_now (xQueueSemaphoreTake q 0) w; Some (w, Ans ok bs)
  | OpPeek => '(w, ok, bs) ← call_now (xQueuePeek q 0) w; Some (w, Ans ok bs)
  | OpPeekFromISR => '(w, ok, bs) ← xQueuePeekFromISR q w; Some (w, Ans ok bs)
  | OpMessages => n ← uxQueueMessagesWaiting q w; Some (w, Count n)
  | OpSpaces => n ← uxQueueSpacesAvailable q w; Some (w, Count n)
  end.
Fixpoint run_queue_ops (q : Z) (ops : list queue_op) (w : World) : option (World * list answer) :=
  match ops with
  | [] => Some (w, [])
  | op :: ops => '(w, a) ← run_queue_op q op w; '(w, r) ← run_queue_ops q ops w; Some (w, a :: r)
  end.

(** The same on the list of messages in a buffer of length [l]. *)
Definition spec_send (l : Z) (x : list Z) (pos : Position) (xs : list (list Z)) : list (list Z) * answer :=
  if (Z.of_nat (length xs) <? l) || bool_decide (pos = queueOVERWRITE)
  then (put pos x xs, Ans true []) else (xs, Ans false []).
Definition spec_first (keep : bool) (xs : list (list Z)) : list (list Z) * answer :=
  match xs with [] => ([], Ans false []) | x :: r => (if keep then xs else r, Ans true x) end.
Definition spec_op (l : Z) (op : queue_op) (xs : list (list Z)) : list (list Z) * answer :=
  match op with
  | OpSend x pos | OpSendFromISR x pos => spec_send l x pos xs
  | OpGiveFromISR => spec_send l [] queueSEND_TO_BACK xs
  | OpReceive | OpReceiveFromISR | OpTake => spec_first false xs
  | OpPeek | OpPeekFromISR => spec_first true xs
  | OpMessages => (xs, Count (Z.of_nat (length xs)))
  | OpSpaces => (xs, Count (l - Z.of_nat (length xs)))
  end.
Fixpoint spec_ops (l : Z) (ops : list queue_op) (xs : list (list Z)) : list (list Z) * list answer :=
  match ops with
  | [] => (xs, [])
  | op :: ops => let '(xs, a) := spec_op l op xs in let '(xs, r) := spec_ops l ops xs in (xs, a :: r)
  end.

(** Messages have the item size; only a queue of length 1 is overwritten; the
    semaphore calls are for queues without bytes. *)
Definition valid_op (l s : Z) (op : queue_op) : Prop :=
  match op with
  | OpSend x pos | OpSendFromISR x pos =>
    Z.of_nat (length x) = s /\ (pos = queueOVERWRITE -> l = 1 /\ 0 < s)
  | OpGiveFromISR | OpTake => s = 0
  | _ => True
  end.

Lemma call_now_try r q w w' o : try_request r q w = Some (w', o) ->
  call_now (start_call r q 0) w =
    match o with Some (ok, bs) => Some (w', ok, bs) | None => Some (w', false, []) end.
Proof.
  intros E. unfold call_now, call_step. cbn [start_call c_pc c_request c_queue xTicksToWait].
  rewrite E. cbn [mbind option_bind]. by destruct o as [[ok bs]|].
Qed.

Lemma run_queue_op_ok q c xs op w : kinv (w_k w) -> holds q w c xs ->
  valid_op (uxLength c) (uxItemSize c) op ->
  exists w', run_queue_op q op w = Some (w', (spec_op (uxLength c) op xs).2) /\
    queue_step q c w w' (spec_op (uxLength c) op xs).1.
Proof.
  intros Hk Hh Hv. assert (forall x pos, valid_item c x pos -> spec_send (uxLength c) x pos xs =
    (if accepts c pos xs then put pos x xs else xs, Ans (accepts c pos xs) [])) as Hspec.
  { intros x pos _. unfold spec_send. fold (accepts c pos xs). by destruct (accepts c pos xs). }
  assert (uxItemSize c = 0 -> valid_item c [] queueSEND_TO_BACK) as Hgive
    by (intros E; split; [by rewrite E|done]).
  destruct op as [x pos|x pos| | | | | | | |]; cbn [run_queue_op spec_op valid_op] in *.
  - destruct (try_send_ok q c xs x pos w Hk Hh Hv) as (w' & E & Hs & _). rewrite Hspec by done. simpl.
    unfold xQueueGenericSend. rewrite (call_now_try (Send x pos) q w w' _ E). exists w'. by destruct (accepts c pos xs).
  - destruct (xQueueGenericSendFromISR_ok q c xs x pos w Hk Hh Hv) as (w' & y & -> & Hs & _).
    rewrite Hspec by done. simpl. by exists w'.
  - rewrite (xQueueGiveFromISR_ok q c xs w Hk Hh Hv).
    destruct (xQueueGenericSendFromISR_ok q c xs [] queueSEND_TO_BACK w Hk Hh (Hgive Hv)) as (w' & y & -> & Hs & _).
    rewrite Hspec by auto. simpl. by exists w'.
  - destruct (try_receive_ok q c xs w Hk Hh) as (w' & E & Hs & _).
    unfold xQueueReceive. rewrite (call_now_try Receive q w w' _ E). exists w'. by destruct xs.
  - destruct (xQueueReceiveFromISR_ok q c xs w Hk Hh) as (w' & y & -> & Hs & _). exists w'. by destruct xs.
  - destruct (try_take_ok q c xs w Hk Hh Hv) as (w' & E & Hs & _).
    unfold xQueueSemaphoreTake. rewrite (call_now_try SemaphoreTake q w w' _ E). exists w'. destruct xs as [|x xs]; [done|].
    simpl in *. assert (x = []) as ->; [|done].
    destruct Hh as [_ Hrep]. destruct (qr_size _ _ _ Hrep) as [_ [Hx _]%Forall_cons]. apply nil_length_inv. lia.
  - destruct (try_peek_ok q c xs w Hk Hh) as (w' & E & Hs & _).
    unfold xQueuePeek. rewrite (call_now_try Peek q w w' _ E). exists w'. by destruct xs.
  - rewrite (xQueuePeekFromISR_ok q c xs w Hk Hh). exists w. split; [by destruct xs|].
    destruct xs; by apply queue_step_refl.
  - destruct Hh as [Eq Hrep]. unfold uxQueueMessagesWaiting. rewrite Eq. simpl.
    rewrite (proj1 (qr_count _ _ _ Hrep)). exists w. split; [done|]. by apply queue_step_refl.
  - destruct Hh as [Eq Hrep]. unfold uxQueueSpacesAvailable. rewrite Eq. simpl.
    destruct (qr_count _ _ _ Hrep) as [-> ?]. pose proof (qr_length _ _ _ Hrep).
    rewrite u32_small by lia. exists w. split; [done|]. by apply queue_step_refl.
Qed.

(** C16: a queue or semaphore, used by any sequence of sends (to the back, to
    the front, overwriting), receives, peeks, gives and takes from tasks and
    interrupts, answers each call as a bounded first-in first-out buffer of its
    length does; no call writes outside of the queue's storage or changes
    another queue, and the kernel's invariant holds throughout. *)
Theorem queue_programs_refine q c xs ops w :
  kinv (w_k w) -> holds q w c xs -> Forall (valid_op (uxLength c) (uxItemSize c)) ops ->
  exists w', run_queue_ops q ops w = Some (w', (spec_ops (uxLength c) ops xs).2) /\
    kinv (w_k w') /\ (exists c', holds q w' c' (spec_ops (uxLength c) ops xs).1) /\
    (forall q', q' <> q -> w_q w' !! q' = w_q w !! q') /\ same_outside c (w_mem w) (w_mem w').
Proof.
  intros Hk Hh Hv. revert w c xs Hk Hh Hv. induction ops as [|op ops IH]; intros w c xs Hk Hh Hv.
  - exists w. split; [done|]. split; [done|]. split; [by exists c|done].
  - apply Forall_cons in Hv as [Hv1 Hv]. simpl.
    destruct (run_queue_op_ok q c xs op w Hk Hh Hv1) as (w1 & -> & [Hk1 (c1 & Hh1 & El & Es & Ep) Hq1 Hm1]).
    cbn [mbind option_bind]. destruct (spec_op (uxLength c) op xs) as [xs1 a]. simpl in *.
    destruct (IH w1 c1 xs1 Hk1 Hh1) as (w2 & -> & Hk2 & Hh2 & Hq2 & Hm2); [by rewrite El, Es|].
    rewrite El in *. destruct (spec_ops (uxLength c) ops xs1) as [xs2 r]. cbn [mbind option_bind].
    exists w2. split; [done|]. split; [done|]. split; [done|]. split.
    + intros q' Hq'. by rewrite Hq2, Hq1.
    + intros a' Ha. unfold same_outside in Hm2. rewrite Es, Ep, El in Hm2. by rewrite Hm2, Hm1.
Qed.
