(* ===== verification/QueueBlock.v ===== *)
(** * Receiving with a time out: no lost wake-up, exact time outs

    The steps of a receive that finds its queue empty, in the presence of an
    interrupt that sends at any point between them.  [calm] is the kernel while
    the caller runs, [asleep] with the caller on the queue's event list,
    [called] once it was taken off that list again. *)

From S2P Require Import Prelude Bytes ListSpec Kernel KernelInv KernelTick KernelResume KernelSched KernelEvent KernelTimeout KernelWait Queue QueueSpec.
#[local] Open Scope Z_scope.

Section receive.
(** The queue, the task that receives, and the ticks it is ready to wait. *)
Context (q t ticks : Z) (Hticks : 0 < ticks < 4294967296).

(** [s] suspensions of the scheduler, no tick held back. *)
Record quiet (s : Z) (k : Kernel) : Prop := mkQuiet {
  qt_kinv : kinv k;
  qt_current : pxCurrentTCB k = t;
  qt_suspended : uxSchedulerSuspended k = s;
  qt_pended : uxPendedTicks k = 0
}.

Record calm (s : Z) (k : Kernel) : Prop := mkCalm {
  ca_quiet : quiet s k;
  ca_running : running k;
  ca_pending : klist k LPendingReady = [];
  ca_waiters : klist k (xTasksWaitingToReceive q) = []
}.
Record asleep (s : Z) (k : Kernel) : Prop := mkAsleep {
  as_quiet : quiet s k;
  as_pending : klist k LPendingReady = [];
  as_waiters : klist k (xTasksWaitingToReceive q) = [IEvent t];
  as_left : remaining k t = Some ticks
}.
Record called (k : Kernel) : Prop := mkCalled {
  cd_quiet : quiet 1 k;
  cd_event : kcontainer k (IEvent t) = Some LPendingReady;
  cd_waiters : klist k (xTasksWaitingToReceive q) = []
}.

Lemma calm_suspend k : calm 0 k -> calm 1 (vTaskSuspendAll k).
Proof.
  intros [[Hk Hc Hs Hp] Hr Hpend Hw]. unfold vTaskSuspendAll. rewrite Hs. change (u32 (0 + 1)) with 1.
  split; try done. split; try done. by apply kinv_suspended_once.
Qed.

(** Going to sleep. *)
Lemma calm_place k : calm 1 k -> exists k', vTaskPlaceOnEventList (xTasksWaitingToReceive q) ticks k = Some k' /\
  asleep 1 k' /\ xTickCount k' = xTickCount k /\ xNumOfOverflows k' = xNumOfOverflows k.
Proof using Hticks.
  intros [[Hk Hc Hs Hp] Hr Hpend Hw].
  destruct (vTaskPlaceOnEventList_ok k q 1 ticks Hk Hr Hticks) as (k' & E & [Hk' Ho He Hl Hoth]).
  rewrite Hc in *. exists k'. split; [done|].
  assert (pxCurrentTCB k' = t /\ uxSchedulerSuspended k' = 1 /\ uxPendedTicks k' = 0 /\
    xTickCount k' = xTickCount k /\ xNumOfOverflows k' = xNumOfOverflows k) as (E1 & E2 & E3 & E4 & E5)
    by (destruct Ho as (? & ? & ? & ->); done).
  split; [|done]. pose proof (kinv_base _ Hk') as Hb'. pose proof (kinv_base _ Hk) as Hb.
  split; [by split| | |done].
  - apply (klist_nil _ _ Hb'). intros i Hi. destruct (event_item _ _ _ Hb' Hi I) as [u ->].
    destruct (decide (u = t)) as [->|Hu]; [congruence|]. destruct (Hoth u Hu) as [_ E6]. rewrite E6 in Hi.
    by apply (proj1 (klist_nil _ _ Hb) Hpend (IEvent u)).
  - apply (klist_single _ _ _ Hb'). intros j. split; [|by intros ->]. intros Hj.
    destruct (event_item _ _ _ Hb' Hj I) as [u ->]. destruct (decide (u = t)) as [->|Hu]; [done|].
    destruct (Hoth u Hu) as [_ E6]. rewrite E6 in Hj. exfalso.
    by apply (proj1 (klist_nil _ _ Hb) Hw (IEvent u)).
Qed.

Lemma quiet_tasks s k : quiet s k -> live k t -> uxCurrentNumberOfTasks k > 0.
Proof. intros [Hk _ _ _] Hl. by apply (kinv_tasks k t). Qed.

(** The three ways to resume. *)
Lemma calm_resume k : calm 1 k -> exists k' y, xTaskResumeAll k = Some (k', y) /\ calm 0 k'.
Proof.
  intros [[Hk Hc Hs Hp] Hr Hpend Hw]. pose proof (running_live k Hk Hr) as Hl. rewrite Hc in Hl.
  destruct (resume_last k Hk Hs) as (k' & y & E & Hk' & Hres & Hs' & _); [by apply (kinv_tasks k t)|].
  exists k', y. split; [done|]. pose proof Hk as [Hb _ _]. pose proof Hk' as [Hb' _ Hcn'].
  destruct Hres as [Etcb Ecur _ _ _ Hsame _ _]. rewrite Hp in Hsame.
  assert (forall u, kcontainer k' (IState u) = kcontainer k (IState u) /\ kcontainer k' (IEvent u) = kcontainer k (IEvent u)) as Hall.
  { intros u. apply Hsame; [by apply (proj1 (klist_nil _ _ Hb) Hpend)|].
    intros r Hrem. by apply (remaining_bounds k u r Hb). }
  destruct (kc_quiet _ Hcn' Hs') as [Hp1 Hp2].
  split; [by split; rewrite ?Ecur|unfold running in *; rewrite Ecur, (proj1 (Hall _)), Hr; unfold tcb; by rewrite Etcb|done|].
  apply (klist_nil _ _ Hb'). intros i Hi. destruct (event_item _ _ _ Hb' Hi I) as [u ->].
  rewrite (proj2 (Hall u)) in Hi. by apply (proj1 (klist_nil _ _ Hb) Hw (IEvent u)).
Qed.

Lemma delayed_live k r : kbase k -> remaining k t = Some r -> live k t.
Proof.
  intros Hb Hr. unfold remaining in Hr. destruct (kcontainer k (IState t)) as [l|] eqn:E.
  - by apply (ki_state Hb) in E as [? _].
  - repeat case_decide; done.
Qed.

Lemma asleep_resume k : asleep 1 k -> exists k' y, xTaskResumeAll k = Some (k', y) /\ asleep 0 k' /\
  xTickCount k' = xTickCount k /\ xNumOfOverflows k' = xNumOfOverflows k /\ (y = true -> k_yield k' = true).
Proof using Hticks.
  intros [[Hk Hc Hs Hp] Hpend Hw Hrem]. pose proof (kinv_base _ Hk) as Hb.
  pose proof (delayed_live k _ Hb Hrem) as Hl.
  destruct (resume_last k Hk Hs) as (k' & y & E & Hk' & Hres & Hs' & Hy); [by apply (kinv_tasks k t)|].
  exists k', y. split; [done|]. pose proof Hk' as [Hb' _ Hcn'].
  destruct Hres as [Etcb Ecur Etick _ _ Hsame Hleft Hyk]. rewrite Hp in *.
  assert (forall u, kcontainer k (IEvent u) <> Some LPendingReady) as Hnp
    by (intros u; by apply (proj1 (klist_nil _ _ Hb) Hpend)).
  assert (forall u, kcontainer k' (IEvent u) = kcontainer k (IEvent u)) as Hall.
  { intros u. apply Hsame; [done|]. intros r Hr. by apply (remaining_bounds k u r Hb). }
  destruct (kc_quiet _ Hcn' Hs') as [Hp1 Hp2].
  split; [split|split_and!].
  - by split; rewrite ?Ecur.
  - done.
  - apply (klist_single _ _ _ Hb'). intros j.
    assert (forall i, kcontainer k i = Some (xTasksWaitingToReceive q) <-> i = IEvent t) as Hj.
    { intros i. rewrite <- (elem_klist _ _ _ Hb), Hw. apply list_elem_of_singleton. }
    split.
    + intros Hi. destruct (event_item _ _ _ Hb' Hi I) as [u ->]. apply Hj. by rewrite <- Hall.
    + intros ->. rewrite Hall. by apply Hj.
  - rewrite Hleft, decide_False, Hrem by done. destruct (Z.leb_spec ticks 0); [lia|]. f_equal. lia.
  - rewrite Etick, Z.add_0_r. apply u32_small, (ki_tick Hb).
  - by apply (resume_quiet k k' y).
  - intros Ey. rewrite Hyk, <- Hy, Ey. apply orb_true_r.
Qed.

Lemma called_resume k : called k -> exists k' y, xTaskResumeAll k = Some (k', y) /\ calm 0 k'.
Proof.
  intros [[Hk Hc Hs Hp] He Hw]. pose proof (kinv_base _ Hk) as Hb.
  pose proof (ki_event Hb _ _ He) as [Hl _].
  destruct (resume_last k Hk Hs) as (k' & y & E & Hk' & Hres & Hs' & _); [by apply (kinv_tasks k t)|].
  exists k', y. split; [done|]. pose proof Hk' as [Hb' _ Hcn'].
  destruct Hres as [Etcb Ecur _ Hpnd _ Hsame _ _]. rewrite Hp in *.
  destruct (kc_quiet _ Hcn' Hs') as [Hp1 Hp2]. destruct (Hpnd t He) as [Hst Hev].
  split; [by split; rewrite ?Ecur|unfold running; rewrite Ecur, Hc, Hst; unfold tcb; by rewrite Etcb|done|].
  apply (klist_nil _ _ Hb'). intros i Hi. destruct (event_item _ _ _ Hb' Hi I) as [u ->].
  destruct (decide (kcontainer k (IEvent u) = Some LPendingReady)) as [Hpu|Hpu].
  - destruct (Hpnd u Hpu) as [_ E2]. congruence.
  - destruct (Hsame u Hpu) as [_ E2]; [intros r Hr; by apply (remaining_bounds k u r Hb)|].
    rewrite E2 in Hi. by apply (proj1 (klist_nil _ _ Hb) Hw (IEvent u)).
Qed.

(** Taken off the event list by a sender. *)
Lemma asleep_wake s k : asleep s k -> exists k' y,
  xTaskRemoveFromEventList (xTasksWaitingToReceive q) k = Some (k', y) /\
  (s = 1 -> called k') /\ (s = 0 -> calm 0 k').
Proof.
  intros [[Hk Hc Hs Hp] Hpend Hw Hrem]. pose proof (kinv_base _ Hk) as Hb.
  destruct (xTaskRemoveFromEventList_ok k q 1 Hk) as (u & k' & y & Hh & E & Hr & _ & _);
    [change (LEvent q 1) with (xTasksWaitingToReceive q); by rewrite Hw|].
  assert (u = t) as ->.
  { unfold head_owner in Hh. change (LEvent q 1) with (xTasksWaitingToReceive q) in Hh. rewrite Hw in Hh.
    simpl in Hh. by injection Hh as ->. }
  pose proof (removed_lists k q 1 k' y Hk E q 1) as Hl. rewrite decide_True in Hl by done.
  fold (xTasksWaitingToReceive q) in E, Hl. rewrite Hw in Hl. simpl in Hl.
  exists k', y. split; [done|]. destruct Hr as [Hk' (b & k1 & (L & T & N & ->) & E') Hnow Hlater Hoth].
  assert (pxCurrentTCB k' = t /\ uxSchedulerSuspended k' = s /\ uxPendedTicks k' = 0 /\
    forall u, tcb k' u = tcb k u) as (E1 & E2 & E3 & E4) by (by rewrite E').
  split; intros ->.
  - split; [by split| |done]. apply Hlater. lia.
  - split; [by split| |by apply (kc_quiet _ (kinv_counts _ Hk') E2)|done].
    unfold running. rewrite E1, E4. by apply Hnow.
Qed.

(** ** The steps of the call *)

Definition C (p : Pc) (o : TimeOut_t) : Call := mkCall Receive q p ticks true o false.

(** The kernel satisfies [P]; the queue holds [xs] and has these locks. *)
Definition st (P : Kernel -> Prop) (size rx tx : Z) (xs : list (list Z)) (w : World) : Prop :=
  P (w_k w) /\ exists d, holds q w d xs /\ uxItemSize d = size /\ cRxLock d = rx /\ cTxLock d = tx.

Lemma st_kernel (P P' : Kernel -> Prop) size rx tx xs w k :
  st P size rx tx xs w -> P' k -> st P' size rx tx xs (set_kernel k w).
Proof. intros [_ Hd] Hk. by split. Qed.

Lemma st_imp (P P' : Kernel -> Prop) size rx tx xs w : (forall k, P k -> P' k) ->
  st P size rx tx xs w -> st P' size rx tx xs w.
Proof. intros HP [H1 H2]. split; auto. Qed.

Lemma st_locks P size rx tx xs w f rx' tx' : st P size rx tx xs w ->
  (forall d, cRxLock d = rx -> cTxLock d = tx -> f d = set_cRxLock rx' (set_cTxLock tx' d)) ->
  exists w', upd_queue q f w = Some w' /\ st P size rx' tx' xs w' /\ w_k w' = w_k w.
Proof.
  intros [HP (d & [Eq Hrep] & Hs & Hrx & Htx)] Hf. rewrite (upd_queue_eq _ _ _ _ Eq). eexists. split; [done|].
  split; [|done]. split; [done|]. rewrite (Hf d Hrx Htx). eexists. split; [split; simpl; [by rewrite lookup_insert_eq|]|done].
  by apply queue_rep_locks.
Qed.

Lemma step_lock P size xs w o : st P size (-1) (-1) xs w -> exists w',
  call_step (C LockQueue o) w = Some (w', inr (C CheckTimeOut o)) /\ st P size 0 0 xs w'.
Proof.
  intros Hst. cbn [call_step C c_pc c_queue]. unfold prvLockQueue.
  match goal with |- context [upd_queue q ?f w] =>
    destruct (st_locks P size (-1) (-1) xs w f 0 (-1) Hst) as (w1 & -> & Hst1 & _) end.
  { intros d Hrx Htx. rewrite Hrx. destruct d. simpl in *. by subst. }
  cbn [mbind option_bind].
  match goal with |- context [upd_queue q ?f w1] =>
    destruct (st_locks P size 0 (-1) xs w1 f 0 0 Hst1) as (w2 & -> & Hst2 & _) end.
  { intros d Hrx Htx. rewrite Htx. destruct d. simpl in *. by subst. }
  by eexists.
Qed.

Lemma step_check w o : 0 <= xTickCount (w_k w) < 4294967296 -> vTaskInternalSetTimeOutState (w_k w) = o ->
  call_step (C CheckTimeOut o) w = Some (w, inr (C TestQueue o)).
Proof using Hticks.
  intros Ht <-. cbn [call_step C c_pc xTimeOut xTicksToWait]. unfold xTaskCheckForTimeOut, vTaskInternalSetTimeOutState. simpl.
  rewrite Z.eqb_refl. simpl. rewrite Z.sub_diag. change (u32 0) with 0.
  destruct (Z.ltb_spec 0 ticks); [|lia]. rewrite Z.sub_0_r, u32_small by lia. done.
Qed.

Lemma step_test P size rx tx xs w o : st P size rx tx xs w ->
  call_step (C TestQueue o) w = Some (w, inr (C (if bool_decide (xs = []) then PlaceOnList else UnlockTx Retry) o)).
Proof.
  intros [_ (d & Hh & _)]. pose proof Hh as [Eq _]. pose proof (holds_empty q d w xs Hh) as He.
  cbn [call_step C c_pc c_queue c_request must_wait]. unfold prvIsQueueEmpty. rewrite Eq. cbn [mbind option_bind].
  destruct Hh as [_ [_ _ [Hn _] _ _]]. rewrite Hn. by destruct xs.
Qed.

(** Nobody to wake: unlocking only unlocks. *)
Lemma step_unlock_tx_none P size rx tx xs w o why : st P size rx tx xs w ->
  tx <= 0 \/ klist (w_k w) (xTasksWaitingToReceive q) = [] -> exists w',
  call_step (C (UnlockTx why) o) w = Some (w', inr (C (UnlockRx why) o)) /\ st P size rx (-1) xs w'.
Proof.
  intros Hst Hno. pose proof Hst as [_ (d & [Eq _] & _ & Hrx & Htx)]. cbn [call_step C c_pc c_queue]. unfold unlock_tx. rewrite Eq.
  cbn [mbind option_bind]. rewrite Htx.
  assert (wake_locked (Z.to_nat tx) (xTasksWaitingToReceive q) w = Some w) as ->.
  { destruct (Z.to_nat tx) eqn:En; [done|]. destruct Hno as [?|Hnil]; [lia|]. simpl. unfold list_empty. by rewrite Hnil. }
  cbn [mbind option_bind].
  edestruct (st_locks P size rx tx xs w (set_cTxLock queueUNLOCKED) rx (-1)) as (w1 & -> & Hst1 & _); [done| |by eexists].
  intros d' <- _. by destruct d'.
Qed.

Lemma step_unlock_rx P size xs w o why : st P size 0 (-1) xs w -> exists w',
  call_step (C (UnlockRx why) o) w = Some (w', inr (C (ResumeAll why) o)) /\ st P size (-1) (-1) xs w'.
Proof.
  intros Hst. pose proof Hst as [_ (d & [Eq _] & _ & Hrx & Htx)]. cbn [call_step C c_pc c_queue]. unfold unlock_rx. rewrite Eq.
  cbn [mbind option_bind]. rewrite Hrx. simpl.
  edestruct (st_locks P size 0 (-1) xs w (set_cRxLock queueUNLOCKED) (-1) (-1)) as (w1 & -> & Hst1 & _); [done| |by eexists].
  intros d' _ E. destruct d'. simpl in *. by subst.
Qed.

(** The caller is asleep and messages were counted: it is called. *)
Lemma step_unlock_tx_wake size rx tx xs w o why : st (asleep 1) size rx tx xs w -> 0 < tx -> exists w',
  call_step (C (UnlockTx why) o) w = Some (w', inr (C (UnlockRx why) o)) /\ st called size rx (-1) xs w'.
Proof.
  intros Hst Htx0. pose proof Hst as [Has (d & [Eq Hrep] & Hsz & Hrx & Htx)].
  destruct (asleep_wake 1 _ Has) as (k' & y & E & Hcd & _). specialize (Hcd eq_refl).
  set (k1 := if y then vTaskMissedYield k' else k').
  assert (called k1) as Hcd1.
  { subst k1. destruct y; [|done]. destruct Hcd as [[? ? ? ?] ? ?]. split; try done. split; try done.
    by apply kinv_pending_yield. }
  cbn [call_step C c_pc c_queue]. unfold unlock_tx. rewrite Eq. cbn [mbind option_bind]. rewrite Htx.
  assert (wake_locked (Z.to_nat tx) (xTasksWaitingToReceive q) w = Some (set_kernel k1 w)) as ->.
  { destruct (Z.to_nat tx) as [|n] eqn:En; [lia|]. simpl. unfold list_empty at 1. rewrite (as_waiters _ _ Has).
    rewrite E. cbn [mbind option_bind]. fold k1. destruct n; simpl; [done|]. unfold list_empty. simpl.
    by rewrite (cd_waiters _ Hcd1). }
  cbn [mbind option_bind].
  edestruct (st_locks called size rx tx xs (set_kernel k1 w) (set_cTxLock queueUNLOCKED) rx (-1)) as (w1 & -> & Hst1 & _);
    [by apply (st_kernel (asleep 1))| |by eexists].
  intros d' <- _. by destruct d'.
Qed.

(** ** The interrupt that sends *)

Lemma st_holds P size rx tx xs w d : P (w_k w) -> holds q w d xs -> uxItemSize d = size ->
  cRxLock d = rx -> cTxLock d = tx -> st P size rx tx xs w.
Proof. intros HP Hh ? ? ?. split; [done|]. by exists d. Qed.

Lemma isr_send (P P' : Kernel -> Prop) size rx tx x w :
  st P size rx tx [] w -> (forall k, P k -> kinv k) -> Z.of_nat (length x) = size ->
  (forall k k' y, P k -> tx = queueUNLOCKED -> woke (xTasksWaitingToReceive q) k k' y -> P' k') ->
  (forall k, P k -> tx <> queueUNLOCKED -> P' k) ->
  exists w' y, xQueueGenericSendFromISR q x queueSEND_TO_BACK w = Some (w', true, y) /\
    st P' size rx (if tx =? queueUNLOCKED then tx else s8 (tx + 1)) [x] w'.
Proof.
  intros [HP (d & Hh & Hsz & Hrx & Htx)] Hk Hx Hwoke Hlock.
  assert (accepts d queueSEND_TO_BACK [] = true) as Ha.
  { apply orb_true_intro. left. apply Z.ltb_lt. pose proof (qr_length _ _ _ (proj2 Hh)). simpl. lia. }
  destruct (xQueueGenericSendFromISR_ok q d [] x queueSEND_TO_BACK w (Hk _ HP) Hh) as (w' & y & E & Hs & Hw);
    [by split; [rewrite Hsz; exact Hx|intros ?]|].
  rewrite Ha in *. destruct Hw as (d' & Ed' & Hrx' & Hw).
  destruct (qs_holds _ _ _ _ _ Hs) as (d2 & Hh2 & _ & Hsz2 & _).
  assert (d2 = d') as -> by (destruct Hh2 as [E2 _]; congruence).
  exists w', y. split; [done|]. unfold woke_or_counted in Hw. rewrite Htx in Hw.
  destruct (Z.eqb_spec tx queueUNLOCKED) as [Eu|Eu].
  - destruct Hw as [Hw Hl]. apply (st_holds P' _ _ _ _ w' d'); try done; try congruence.
    by apply (Hwoke (w_k w) _ y).
  - destruct Hw as (Ek & _ & Hl). apply (st_holds P' _ _ _ _ w' d'); try done; try congruence.
    rewrite Ek. by apply Hlock.
Qed.

Lemma woke_nobody k k' y : klist k (xTasksWaitingToReceive q) = [] ->
  woke (xTasksWaitingToReceive q) k k' y -> k' = k.
Proof.
  intros Hw [(_ & -> & _)|(u & Hh & _)]; [done|]. unfold head_owner in Hh. by rewrite Hw in Hh.
Qed.

(** What [woke] means for the sleeping caller. *)
Lemma woke_asleep s k k' y : asleep s k -> woke (xTasksWaitingToReceive q) k k' y ->
  (s = 1 -> called k') /\ (s = 0 -> calm 0 k').
Proof.
  intros [[Hk Hc Hs Hp] Hpend Hw Hrem] Hwk. pose proof (kinv_base _ Hk) as Hb.
  destruct Hwk as [(Hnil & _)|(u & Hh & Hr & _)]; [by rewrite Hw in Hnil|].
  assert (u = t) as -> by (unfold head_owner in Hh; rewrite Hw in Hh; simpl in Hh; by injection Hh as ->).
  destruct Hr as [Hk' (b & k1 & (L & T & N & ->) & E') Hnow Hlater Hoth]. pose proof (kinv_base _ Hk') as Hb'.
  assert (pxCurrentTCB k' = t /\ uxSchedulerSuspended k' = s /\ uxPendedTicks k' = 0 /\
    forall u, tcb k' u = tcb k u) as (E1 & E2 & E3 & E4) by (by rewrite E').
  assert (klist k' (xTasksWaitingToReceive q) = []) as Hl.
  { apply (klist_nil _ _ Hb'). intros i Hi. destruct (event_item _ _ _ Hb' Hi I) as [u ->].
    destruct (decide (u = t)) as [->|Hu].
    - destruct (decide (uxSchedulerSuspended k = 0)); [destruct Hnow|destruct Hlater]; congruence.
    - destruct (Hoth u Hu) as [_ E]. rewrite E in Hi. apply (elem_klist _ _ _ Hb) in Hi. rewrite Hw in Hi.
      apply list_elem_of_singleton in Hi. congruence. }
  split; intros ->.
  - split; [by split| |done]. apply Hlater. lia.
  - split; [by split| |by apply (kc_quiet _ (kinv_counts _ Hk') E2)|done].
    unfold running. rewrite E1, E4. by apply Hnow.
Qed.

(** ** The stages of the call, before the interrupt sends and after *)

(** The kernel's time is the one the caller noted. *)
Definition timed (o : TimeOut_t) (P : Kernel -> Prop) (k : Kernel) : Prop :=
  P k /\ vTaskInternalSetTimeOutState k = o.

(** The queue is empty and the caller is at [p]. *)
Definition before (size : Z) (o : TimeOut_t) (p : Pc) (w : World) : Prop :=
  match p with
  | SuspendAll => st (timed o (calm 0)) size (-1) (-1) [] w
  | LockQueue => st (timed o (calm 1)) size (-1) (-1) [] w
  | CheckTimeOut | TestQueue | PlaceOnList => st (timed o (calm 1)) size 0 0 [] w
  | UnlockTx Blocked => st (timed o (asleep 1)) size 0 0 [] w
  | UnlockRx Blocked => st (timed o (asleep 1)) size 0 (-1) [] w
  | ResumeAll Blocked => st (timed o (asleep 1)) size (-1) (-1) [] w
  | Enter => st (timed o (asleep 0)) size (-1) (-1) [] w
  | _ => False
  end.
(** The message [x] was sent; [steps] more steps deliver it. *)
Definition after (size : Z) (x : list Z) (o : TimeOut_t) (p : Pc) (w : World) : Prop :=
  match p with
  | Enter => st (calm 0) size (-1) (-1) [x] w
  | SuspendAll => st (timed o (calm 0)) size (-1) (-1) [x] w
  | LockQueue => st (timed o (calm 1)) size (-1) (-1) [x] w
  | CheckTimeOut | TestQueue => exists tx, st (timed o (calm 1)) size 0 tx [x] w
  | PlaceOnList => st (calm 1) size 0 1 [x] w
  | UnlockTx Blocked => st (asleep 1) size 0 1 [x] w
  | UnlockTx Retry => exists tx, st (calm 1) size 0 tx [x] w
  | UnlockRx Blocked => st called size 0 (-1) [x] w
  | UnlockRx Retry => st (calm 1) size 0 (-1) [x] w
  | ResumeAll Blocked => st called size (-1) (-1) [x] w
  | ResumeAll Retry => st (calm 1) size (-1) (-1) [x] w
  | _ => False
  end.
Definition steps (p : Pc) : nat :=
  match p with
  | Enter => 1 | ResumeAll _ => 2 | UnlockRx _ => 3 | UnlockTx _ => 4 | PlaceOnList => 5
  | TestQueue => 5 | CheckTimeOut => 6 | LockQueue => 7 | SuspendAll => 8 | TestAgain => 0
  end.
(** The way of a call that finds the queue empty. *)
Definition next (p : Pc) : Pc :=
  match p with
  | SuspendAll => LockQueue | LockQueue => CheckTimeOut | CheckTimeOut => TestQueue
  | TestQueue => PlaceOnList | PlaceOnList => UnlockTx Blocked | UnlockTx r => UnlockRx r
  | UnlockRx r => ResumeAll r | _ => Enter
  end.

Lemma yield_kernel (P : Kernel -> Prop) size rx tx xs w (y : bool) : (forall b k, P k -> P (set_yield b k)) ->
  st P size rx tx xs w -> st P size rx tx xs (if y then w else queueYIELD w).
Proof. intros HP [H1 H2]. destruct y; [by split|]. split; [by apply HP|done]. Qed.

Lemma quiet_yield s b k : quiet s k -> quiet s (set_yield b k).
Proof. intros [H1 H2 H3 H4]. split; try done. by apply kinv_yield. Qed.
Lemma calm_yield s b k : calm s k -> calm s (set_yield b k).
Proof. intros [H1 H2 H3 H4]. split; try done. by apply quiet_yield. Qed.
Lemma asleep_yield s b k : asleep s k -> asleep s (set_yield b k).
Proof. intros [H1 H2 H3 H4]. split; try done. by apply quiet_yield. Qed.

Lemma timed_suspend o k : timed o (calm 0) k -> timed o (calm 1) (vTaskSuspendAll k).
Proof. intros [H1 H2]. split; [by apply calm_suspend|done]. Qed.

Lemma step_suspend size xs w o : st (timed o (calm 0)) size (-1) (-1) xs w -> exists w',
  call_step (C SuspendAll o) w = Some (w', inr (C LockQueue o)) /\ st (timed o (calm 1)) size (-1) (-1) xs w'.
Proof. intros [H1 H2]. eexists. split; [reflexivity|]. split; [by apply timed_suspend|done]. Qed.

Lemma step_check_timed size rx tx xs w o : st (timed o (calm 1)) size rx tx xs w ->
  call_step (C CheckTimeOut o) w = Some (w, inr (C TestQueue o)).
Proof using Hticks.
  intros [[[[Hk _ _ _] _ _ _] Ho] _]. apply step_check; [apply (ki_tick (kinv_base _ Hk))|done].
Qed.

Lemma step_place (P P' : Kernel -> Prop) size rx tx xs w o :
  (forall k, P k -> exists k', vTaskPlaceOnEventList (xTasksWaitingToReceive q) ticks k = Some k' /\ P' k') ->
  st P size rx tx xs w -> exists w',
  call_step (C PlaceOnList o) w = Some (w', inr (C (UnlockTx Blocked) o)) /\ st P' size rx tx xs w'.
Proof.
  intros Hpl [H1 H2]. destruct (Hpl _ H1) as (k' & E & Ha). cbn [call_step C c_pc c_queue c_request waiting_list xTicksToWait].
  unfold on_kernel. rewrite E. cbn [mbind option_bind]. eexists. split; [reflexivity|]. by split.
Qed.

(** Resuming, from a kernel where it leads to [P]. *)
Lemma step_resume (P P' : Kernel -> Prop) size xs w o why : why <> TimedOut ->
  (forall k, P k -> exists k' y, xTaskResumeAll k = Some (k', y) /\ P' k') ->
  (forall b k, P' k -> P' (set_yield b k)) ->
  st P size (-1) (-1) xs w -> exists w',
  call_step (C (ResumeAll why) o) w = Some (w', inr (C Enter o)) /\ st P' size (-1) (-1) xs w'.
Proof.
  intros Hwhy Hres Hy [H1 H2]. destruct (Hres _ H1) as (k' & y & E & HP').
  cbn [call_step C c_pc c_queue c_request]. rewrite E. cbn [mbind option_bind].
  assert (st P' size (-1) (-1) xs (set_kernel k' w)) as Hst by (by split).
  destruct why; [|by eexists|done]. eexists. split; [reflexivity|]. by apply yield_kernel.
Qed.

Lemma before_step size o p w : before size o p w -> p <> Enter -> exists w',
  call_step (C p o) w = Some (w', inr (C (next p) o)) /\ before size o (next p) w'.
Proof using Hticks.
  intros Hp Hne. destruct p as [| | | | | |[]|[]|[]|]; simpl in Hp |- *; try done.
  - by apply step_suspend.
  - by apply step_lock.
  - exists w. split; [by eapply step_check_timed|done].
  - exists w. split; [|done]. by rewrite (step_test _ _ _ _ _ _ o Hp).
  - apply (step_place (timed o (calm 1))); [|done]. intros k [Hk Ho].
    destruct (calm_place k Hk) as (k' & E & Ha & Et & Eo). exists k'. split; [done|]. split; [done|].
    by rewrite <- Ho; unfold vTaskInternalSetTimeOutState; rewrite Et, Eo.
  - apply (step_unlock_tx_none _ _ _ _ _ _ _ _ Hp). left. lia.
  - by apply step_unlock_rx.
  - apply (step_resume (timed o (asleep 1)) (timed o (asleep 0))); [done| | |done].
    + intros k [Hk Ho]. destruct (asleep_resume k Hk) as (k' & y & E & Ha & Et & Eo & _). exists k', y.
      split; [done|]. split; [done|]. by rewrite <- Ho; unfold vTaskInternalSetTimeOutState; rewrite Et, Eo.
    + intros b k [Hk Ho]. split; [by apply asleep_yield|done].
Qed.

Lemma after_step size x o p w : after size x o p w -> p <> Enter -> exists w' p',
  call_step (C p o) w = Some (w', inr (C p' o)) /\ after size x o p' w' /\ (steps p' < steps p)%nat.
Proof using Hticks.
  intros Hp Hne. assert (forall k, timed o (calm 1) k -> calm 1 k) as Hun by (by intros k [? _]).
  destruct p as [| | | | | |[]|[]|[]|]; simpl in Hp; try done.
  - destruct (step_suspend _ _ _ _ Hp) as (w' & ? & ?). exists w', LockQueue. by split_and!; [| |simpl; lia].
  - destruct (step_lock _ _ _ _ o Hp) as (w' & ? & ?). exists w', CheckTimeOut. split_and!; [done|by exists 0|simpl; lia].
  - destruct Hp as [tx Hp]. exists w, TestQueue. split_and!; [by eapply step_check_timed|by exists tx|simpl; lia].
  - destruct Hp as [tx Hp]. exists w, (UnlockTx Retry). split_and!; [by rewrite (step_test _ _ _ _ _ _ o Hp)| |simpl; lia].
    exists tx. by eapply st_imp; [|exact Hp].
  - destruct (step_place (calm 1) (asleep 1) size 0 1 [x] w o) as (w' & ? & ?); [|exact Hp|].
    { intros k Hk. destruct (calm_place k Hk) as (k' & ? & ? & _). by exists k'. }
    exists w', (UnlockTx Blocked). by split_and!; [| |simpl; lia].
  - destruct (step_unlock_tx_wake _ _ _ _ _ o Blocked Hp) as (w' & ? & ?); [lia|].
    exists w', (UnlockRx Blocked). by split_and!; [| |simpl; lia].
  - destruct Hp as [tx Hp]. destruct (step_unlock_tx_none _ _ _ _ _ _ o Retry Hp) as (w' & ? & ?); [right; apply Hp|].
    exists w', (UnlockRx Retry). by split_and!; [| |simpl; lia].
  - destruct (step_unlock_rx _ _ _ _ o Blocked Hp) as (w' & ? & ?). exists w', (ResumeAll Blocked). by split_and!; [| |simpl; lia].
  - destruct (step_unlock_rx _ _ _ _ o Retry Hp) as (w' & ? & ?). exists w', (ResumeAll Retry). by split_and!; [| |simpl; lia].
  - destruct (step_resume called (calm 0) size [x] w o Blocked) as (w' & ? & ?); [done|apply called_resume|by intros; apply calm_yield|done|].
    exists w', Enter. by split_and!; [| |simpl; lia].
  - destruct (step_resume (calm 1) (calm 0) size [x] w o Retry) as (w' & ? & ?); [done|apply calm_resume|by intros; apply calm_yield|done|].
    exists w', Enter. by split_and!; [| |simpl; lia].
Qed.

(** The interrupt at any stage. *)
Lemma isr_at size x o p w : before size o p w -> Z.of_nat (length x) = size -> exists w' y,
  xQueueGenericSendFromISR q x queueSEND_TO_BACK w = Some (w', true, y) /\ after size x o p w'.
Proof.
  intros Hp Hx.
  assert (forall o' s k, timed o' (calm s) k -> kinv k) as Hkt by (by intros o' s k [[[? _ _ _] _ _ _] _]).
  assert (forall o' s k, timed o' (asleep s) k -> kinv k) as Hka by (by intros o' s k [[[? _ _ _] _ _ _] _]).
  assert (forall o' s k k' y, timed o' (calm s) k -> woke (xTasksWaitingToReceive q) k k' y -> timed o' (calm s) k') as Hno.
  { intros o' s k k' y Ht Hw. by rewrite (woke_nobody k k' y (ca_waiters _ _ (proj1 Ht)) Hw). }
  destruct p as [| | | | | |[]|[]|[]|]; simpl in Hp |- *; try done.
  - apply (isr_send _ (calm 0) _ _ _ x w Hp (Hka o 0) Hx); [|done].
    intros k k' y [Ha _] _ Hw. by apply (woke_asleep 0 k k' y Ha Hw).
  - apply (isr_send _ _ _ _ _ x w Hp (Hkt o 0) Hx); [|done]. intros k k' y Ha _. by apply Hno.
  - apply (isr_send _ _ _ _ _ x w Hp (Hkt o 1) Hx); [|done]. intros k k' y Ha _. by apply Hno.
  - edestruct (isr_send _ (timed o (calm 1)) _ _ _ x w Hp (Hkt o 1) Hx) as (w' & y & E & Hst); [done..|]. exists w', y. split; [done|by eexists].
  - edestruct (isr_send _ (timed o (calm 1)) _ _ _ x w Hp (Hkt o 1) Hx) as (w' & y & E & Hst); [done..|]. exists w', y. split; [done|by eexists].
  - apply (isr_send _ (calm 1) _ _ _ x w Hp (Hkt o 1) Hx); [done|]. by intros k [? _].
  - apply (isr_send _ (asleep 1) _ _ _ x w Hp (Hka o 1) Hx); [done|]. by intros k [? _].
  - apply (isr_send _ called _ _ _ x w Hp (Hka o 1) Hx); [|done].
    intros k k' y [Ha _] _ Hw. by apply (woke_asleep 1 k k' y Ha Hw).
  - apply (isr_send _ called _ _ _ x w Hp (Hka o 1) Hx); [|done].
    intros k k' y [Ha _] _ Hw. by apply (woke_asleep 1 k k' y Ha Hw).
Qed.

(** Back at the start the message is there. *)
Definition delivered (x : list Z) (w : World) : Prop := kinv (w_k w) /\ exists d, holds q w d [].

Lemma enter_delivers size x o b w : st (calm 0) size (-1) (-1) [x] w -> exists w',
  call_step (mkCall Receive q Enter ticks b o false) w = Some (w', inl (true, x)) /\ delivered x w'.
Proof.
  intros [[[Hk _ _ _] _ _ _] (d & Hh & _)]. destruct (try_receive_ok q d [x] w Hk Hh) as (w' & E & Hs & _).
  exists w'. cbn [call_step c_pc c_queue c_request try_request]. rewrite E. split; [done|].
  destruct Hs as [Hk' (d' & Hh' & _) _ _]. split; [done|by exists d'].
Qed.

Lemma after_delivers size x o n p w : (steps p <= n)%nat -> after size x o p w ->
  exists w', run_call n (C p o) w = Some (w', inl (true, x)) /\ delivered x w'.
Proof using Hticks.
  revert p w. induction n as [|n IH]; intros p w Hn Hp; [by destruct p as [| | | | | | | | |]; simpl in *; try lia|].
  destruct (decide (p = Enter)) as [->|Hne].
  - destruct (enter_delivers size x o true w Hp) as (w' & E & Hd). exists w'. split; [|done].
    cbn [run_call]. unfold C. by rewrite E.
  - destruct (after_step size x o p w Hp Hne) as (w1 & p1 & E & Hp1 & Hlt).
    cbn [run_call]. rewrite E. cbn [mbind option_bind]. apply IH; [lia|done].
Qed.

(** The first step notes the time. *)
Lemma enter_empty size w : st (calm 0) size (-1) (-1) [] w ->
  call_step (xQueueReceive q ticks) w = Some (w, inr (C SuspendAll (vTaskInternalSetTimeOutState (w_k w)))).
Proof using Hticks.
  intros [[[Hk _ _ _] _ _ _] (d & Hh & _)]. destruct (try_receive_ok q d [] w Hk Hh) as (w' & E & _ & ->).
  cbn [call_step xQueueReceive start_call c_pc c_queue c_request try_request xTicksToWait xEntryTimeSet].
  rewrite E. cbn [mbind option_bind answer_of]. destruct (Z.eqb_spec ticks 0); [lia|done].
Qed.

Lemma run_call_app n m c w w1 c1 : run_call n c w = Some (w1, inr c1) ->
  run_call (n + m) c w = run_call m c1 w1.
Proof.
  revert c w. induction n as [|n IH]; intros c w; cbn [run_call Nat.add]; [by intros [= -> ->]|].
  destruct (call_step c w) as [[w2 [r|c2]]|]; cbn [mbind option_bind]; [done|apply IH|done].
Qed.

Lemma run_call_next n c w w' c' : call_step c w = Some (w', inr c') -> run_call (S n) c w = run_call n c' w'.
Proof. cbn [run_call]. by intros ->. Qed.
Lemma run_call_return n c w w' r : call_step c w = Some (w', inl r) -> run_call (S n) c w = Some (w', inl r).
Proof. cbn [run_call]. by intros ->. Qed.

Definition stage (n : nat) : Pc := Nat.iter n next SuspendAll.

Lemma before_run size o n w : before size o SuspendAll w -> (n <= 8)%nat ->
  exists w', run_call n (C SuspendAll o) w = Some (w', inr (C (stage n) o)) /\ before size o (stage n) w'.
Proof using Hticks.
  intros Hw. induction n as [|n IH]; intros Hn; [by exists w|].
  destruct IH as (w1 & E1 & H1); [lia|]. destruct (before_step size o (stage n) w1 H1) as (w2 & E2 & H2).
  { do 8 (destruct n as [|n]; [done|]). lia. }
  exists w2. split; [|done]. pose proof (run_call_app n 1 _ _ _ _ E1) as Ea. rewrite Nat.add_1_r in Ea.
  rewrite Ea. cbn [run_call]. by rewrite E2.
Qed.
End receive.

(** C17: no wake-up is lost.  A receive that finds the queue empty takes nine
    steps to go to sleep; at whichever of them an interrupt sends a message,
    also while the queue is locked or the scheduler suspended, the receive gets
    that message within eight more steps of its own; an interrupt that comes
    when the receiver already sleeps makes it ready. *)
Theorem receive_no_lost_wakeup q t ticks w d x i :
  0 < ticks < 4294967296 -> calm q t 0 (w_k w) -> holds q w d [] ->
  cRxLock d = queueUNLOCKED -> cTxLock d = queueUNLOCKED ->
  Z.of_nat (length x) = uxItemSize d -> (i <= 9)%nat ->
  exists w1 c1 w2 y w3,
    run_call i (xQueueReceive q ticks) w = Some (w1, inr c1) /\
    xQueueGenericSendFromISR q x queueSEND_TO_BACK w1 = Some (w2, true, y) /\
    (i = 9%nat -> ~ running (w_k w1) /\ running (w_k w2)) /\
    run_call 8 c1 w2 = Some (w3, inl (true, x)) /\
    kinv (w_k w3) /\ exists d', holds q w3 d' [].
Proof.
  intros Ht Hc Hh Hrx Htx Hx Hi.
  assert (st q (calm q t 0) (uxItemSize d) (-1) (-1) [] w) as Hst by (by apply (st_holds q _ _ _ _ _ _ d)).
  destruct i as [|i].
  - destruct (isr_send q _ (calm q t 0) _ _ _ x w Hst) as (w2 & y & E2 & H2);
      [by intros k [[]]|done| |done|].
    { intros k k' y Hk _ Hw. by rewrite (woke_nobody q k k' y (ca_waiters _ _ _ _ Hk) Hw). }
    destruct (enter_delivers q t ticks _ x (mkTimeOut 0 0) false w2 H2) as (w3 & E3 & H3).
    exists w, (xQueueReceive q ticks), w2, y, w3. split_and!; [done|done|done| |apply H3..].
    cbn [run_call]. change (xQueueReceive q ticks) with (mkCall Receive q Enter ticks false (mkTimeOut 0 0) false).
    by rewrite E3.
  - pose proof (enter_empty q t ticks Ht _ w Hst) as E0. set (o := vTaskInternalSetTimeOutState (w_k w)) in *.
    assert (before q t ticks (uxItemSize d) o SuspendAll w) as Hb by (destruct Hst; by split).
    destruct (before_run q t ticks Ht _ o i w Hb) as (w1 & E1 & H1); [lia|].
    destruct (isr_at q t ticks _ x o _ w1 H1 Hx) as (w2 & y & E2 & H2).
    assert (steps (stage i) <= 8)%nat as H8 by (destruct (stage i); simpl; lia).
    destruct (after_delivers q t ticks Ht _ x o 8 _ w2 H8 H2) as (w3 & E3 & H3).
    exists w1, (C q ticks (stage i) o), w2, y, w3. split_and!; [|done| |done|apply H3..].
    + cbn [run_call]. by rewrite E0.
    + intros [= ->]. simpl in H1, H2. destruct H1 as [[[Hq _ _ Hrem] _] _], H2 as [[_ Hr _ _] _]. split; [|done].
      intros Hrun. unfold running in Hrun. rewrite (qt_current _ _ _ Hq) in Hrun.
      destruct (delayed_is _ (kinv_base _ (qt_kinv _ _ _ Hq))) as (? & ? & _).
      unfold remaining in Hrem. rewrite Hrun in Hrem.
      rewrite !decide_False in Hrem by (intros E; rewrite <- E in *; naive_solver). done.
Qed.

(** ** Time outs *)

Section timeout.
Context (q t ticks : Z) (Hticks : 0 < ticks < 4294967296).

(** The time the caller noted is [ticks] ago. *)
Definition expired (o : TimeOut_t) (s : Z) (k : Kernel) : Prop :=
  calm q t s k /\ xTaskCheckForTimeOut o ticks k = (true, o, 0).

(** The only waiter leaves as its time comes. *)
Lemma tick_n_single n k k' o i : kinv k -> kinv k' -> nticked n k k' -> klist k (LEvent o i) = [IEvent t] ->
  kcontainer k' (IEvent t) = None -> klist k' (LEvent o i) = [].
Proof.
  intros Hk Hk' Hn Hl Ht. pose proof (kinv_base _ Hk) as Hb. pose proof (kinv_base _ Hk') as Hb'.
  apply (klist_nil _ _ Hb'). intros j Hj. destruct (event_item _ _ _ Hb' Hj I) as [u ->].
  destruct (decide (u = t)) as [->|Hu]; [congruence|].
  assert (kcontainer k (IEvent u) = Some (LEvent o i)) as Hc.
  { destruct (remaining k u) as [r|] eqn:Er; [|destruct (nt_same _ _ _ Hn u) as [_ E]; [intros r' E; by rewrite Er in E|congruence]].
    destruct (decide (r <= n)) as [Hle|Hgt]; [destruct (nt_woken _ _ _ Hn u r Er Hle); congruence|].
    destruct (nt_same _ _ _ Hn u) as [_ E]; [intros r' E; rewrite Er in E; injection E as <-; lia|congruence]. }
  apply (elem_klist _ _ _ Hb) in Hc. rewrite Hl in Hc. apply list_elem_of_singleton in Hc. congruence.
Qed.

Lemma sleep_expires o k k' : timed o (asleep q t ticks 0) k -> tick_n (Z.to_nat ticks) k = Some k' ->
  expired o 0 k'.
Proof using Hticks.
  intros [[[Hk Hc Hs Hp] Hpend Hw Hrem] Ho] E.
  destruct (elapsed_ticks k _ k' Hk Hs E) as [Hel Hov]; [lia|]. rewrite Z2Nat.id in Hel by lia.
  destruct (tick_n_kinv (Z.to_nat ticks) k Hk Hs) as (k2 & E2 & Hk' & Hn & Hf).
  rewrite E in E2. injection E2 as <-. rewrite Z2Nat.id in Hn by lia.
  destruct (nt_woken _ _ _ Hn t ticks Hrem ltac:(lia)) as [Hst Hev].
  pose proof (tick_frame_suspended _ _ Hf) as Hs'. rewrite Hs in Hs'.
  assert (pxCurrentTCB k' = t /\ forall u, tcb k' u = tcb k u) as [Hc' Htcb]
    by (destruct Hf as (? & ? & ? & ? & ? & ? & ? & ->); done).
  split; [split|].
  - split; try done. by apply (kc_quiet _ (kinv_counts _ Hk') Hs').
  - unfold running. by rewrite Hc', Htcb.
  - by apply (kc_quiet _ (kinv_counts _ Hk') Hs').
  - by apply (tick_n_single ticks k k' q 1).
  - rewrite <- Ho. unfold xTaskCheckForTimeOut, vTaskInternalSetTimeOutState. simpl. rewrite Hel, Hov.
    by destruct (Z.ltb_spec ticks ticks); [lia|].
Qed.

(** The last eight steps of a receive whose time is up. *)
Lemma expired_returns size o w : st q (expired o 0) size (-1) (-1) [] w -> exists w',
  run_call 8 (C q ticks Enter o) w = Some (w', inl (false, [])) /\ kinv (w_k w') /\ exists d, holds q w' d [].
Proof using Hticks.
  intros Hst. pose proof Hst as [[[[Hk _ _ _] _ _ _] _] (d & Hh & _)].
  destruct (try_receive_ok q d [] w Hk Hh) as (w0 & E0 & _ & ->).
  rewrite (run_call_next 7 _ w w (C q ticks SuspendAll o)).
  2:{ cbn [call_step C c_pc c_queue c_request try_request xTicksToWait xEntryTimeSet]. rewrite E0.
      cbn [mbind option_bind answer_of]. by destruct (Z.eqb_spec ticks 0); [lia|]. }
  set (w1 := set_kernel (vTaskSuspendAll (w_k w)) w).
  rewrite (run_call_next 6 _ w w1 (C q ticks LockQueue o)) by done.
  assert (st q (expired o 1) size (-1) (-1) [] w1) as Hst1.
  { destruct Hst as [[Hcalm Hex] Hd]. split; [|done]. split; [by apply calm_suspend|done]. }
  destruct (step_lock q ticks _ _ _ w1 o Hst1) as (w2 & E2 & Hst2). rewrite (run_call_next 5 _ _ _ _ E2).
  rewrite (run_call_next 4 _ w2 w2 (C q 0 (UnlockTx TimedOut) o)).
  2:{ cbn [call_step C c_pc xTimeOut xTicksToWait]. by rewrite (proj2 (proj1 Hst2)). }
  destruct (step_unlock_tx_none q 0 _ _ _ _ _ _ o TimedOut Hst2) as (w3 & E3 & Hst3); [left; lia|].
  rewrite (run_call_next 3 _ _ _ _ E3).
  destruct (step_unlock_rx q 0 _ _ _ _ o TimedOut Hst3) as (w4 & E4 & Hst4). rewrite (run_call_next 2 _ _ _ _ E4).
  destruct Hst4 as [[Hcalm4 _] (d4 & Hh4 & _)]. destruct (calm_resume q t _ Hcalm4) as (k5 & y & E5 & [[Hk5 _ _ _] _ _ _]).
  rewrite (run_call_next 1 _ w4 (set_kernel k5 w4) (C q 0 TestAgain o)).
  2:{ cbn [call_step C c_pc c_queue c_request]. by rewrite E5. }
  exists (set_kernel k5 w4). split_and!; [|done|by exists d4].
  apply run_call_return. cbn [call_step C c_pc c_queue]. unfold prvIsQueueEmpty.
  destruct Hh4 as [E4' [_ _ [Hn _] _ _]]. simpl w_q. rewrite E4'. cbn [mbind option_bind]. by rewrite Hn.
Qed.
End timeout.

Lemma receive_sleeps q t ticks w d :
  0 < ticks < 4294967296 -> calm q t 0 (w_k w) -> holds q w d [] ->
  cRxLock d = queueUNLOCKED -> cTxLock d = queueUNLOCKED ->
  exists w1 c1, run_call 9 (xQueueReceive q ticks) w = Some (w1, inr c1) /\
    (forall n k, Z.of_nat n < ticks -> tick_n n (w_k w1) = Some k ->
       remaining k t = Some (ticks - Z.of_nat n)) /\
    exists k w2, tick_n (Z.to_nat ticks) (w_k w1) = Some k /\ running k /\ pxCurrentTCB k = t /\
      run_call 8 c1 (set_kernel k w1) = Some (w2, inl (false, [])) /\
      kinv (w_k w2) /\ exists d', holds q w2 d' [].
Proof.
  intros Ht Hc Hh Hrx Htx.
  assert (st q (calm q t 0) (uxItemSize d) (-1) (-1) [] w) as Hst by (by apply (st_holds q _ _ _ _ _ _ d)).
  pose proof (enter_empty q t ticks Ht _ w Hst) as E0. set (o := vTaskInternalSetTimeOutState (w_k w)) in *.
  assert (before q t ticks (uxItemSize d) o SuspendAll w) as Hb by (destruct Hst; by split).
  destruct (before_run q t ticks Ht _ o 8 w Hb) as (w1 & E1 & H1); [lia|].
  change (stage 8) with Enter in *. destruct H1 as [Hta Hd]. pose proof Hta as [[[Hk _ Hs _] _ _ Hrem] _].
  exists w1, (C q ticks Enter o). split; [by rewrite (run_call_next 8 _ _ _ _ E0)|]. split.
  - intros n k Hn E. destruct (tick_n_kinv n (w_k w1) Hk Hs) as (k' & E' & _ & Htk & _).
    rewrite E in E'. injection E' as <-. rewrite (nt_left _ _ _ Htk), Hrem.
    by destruct (Z.leb_spec ticks (Z.of_nat n)); [lia|].
  - destruct (tick_n_kinv (Z.to_nat ticks) (w_k w1) Hk Hs) as (k & E & _).
    pose proof (sleep_expires q t ticks Ht o _ k Hta E) as Hex.
    destruct (expired_returns q t ticks Ht (uxItemSize d) o (set_kernel k w1)) as (w2 & E2 & Hk2 & Hd2); [by split|].
    destruct Hex as [[[_ Hcur _ _] Hrun _ _] _]. exists k, w2. by split_and!.
Qed.

(** C18: a receive from a queue that stays empty gives up exactly when its
    time is over.  After nine steps the caller sleeps; it sleeps for as long as
    fewer than [ticks] ticks have passed, is ready after [ticks] ticks, also
    when the tick count overflowed meanwhile, and its next eight steps return
    errQUEUE_EMPTY; nothing is read from the queue. *)
Theorem receive_times_out q t ticks w d :
  0 < ticks < 4294967296 -> calm q t 0 (w_k w) -> holds q w d [] ->
  cRxLock d = queueUNLOCKED -> cTxLock d = queueUNLOCKED ->
  exists w1 c1, run_call 9 (xQueueReceive q ticks) w = Some (w1, inr c1) /\
    (forall n k, Z.of_nat n < ticks -> tick_n n (w_k w1) = Some k ->
       remaining k t = Some (ticks - Z.of_nat n)) /\
    exists k w2, tick_n (Z.to_nat ticks) (w_k w1) = Some k /\ running k /\ pxCurrentTCB k = t /\
      run_call 8 c1 (set_kernel k w1) = Some (w2, inl (false, [])) /\
      kinv (w_k w2) /\ exists d', holds q w2 d' [].
Proof. apply receive_sleeps. Qed.

(** The count of sends to a locked queue is an 8-bit signed integer that is not
    checked: the 128th send turns 127 into -128, and unlocking then wakes
    nobody, however many tasks wait. *)
Lemma lock_count_wraps q w c : w_q w !! q = Some c -> cTxLock c = 127 ->
  uxItemSize c = 0 -> uxQueueType c <> queueQUEUE_IS_MUTEX -> uxMessagesWaiting c < uxLength c ->
  exists w1, xQueueGiveFromISR q w = Some (w1, true, false) /\ w_k w1 = w_k w /\
    exists w2, unlock_tx q w1 = Some w2 /\ w_k w2 = w_k w.
Proof.
  intros Eq Htx Hsz Hkd Hlt. unfold xQueueGiveFromISR. rewrite Eq. cbn [mbind option_bind].
  destruct (Z.ltb_spec (uxMessagesWaiting c) (uxLength c)); [|lia].
  rewrite (upd_queue_eq _ _ _ _ Eq). cbn [mbind option_bind]. rewrite Htx. change (127 =? queueUNLOCKED) with false.
  cbv iota. rewrite (upd_queue_eq _ _ _ _ (lookup_insert_eq _ _ _)). cbn [mbind option_bind w_q w_k w_mem].
  eexists. split; [reflexivity|]. split; [done|]. unfold unlock_tx. cbn [w_q]. rewrite lookup_insert_eq.
  cbn [mbind option_bind]. change (Z.to_nat (cTxLock _)) with 0%nat. cbn [wake_locked mbind option_bind].
  rewrite (upd_queue_eq _ _ _ _ (lookup_insert_eq _ _ _)). by eexists.
Qed.
