(* ===== verification/QueueMutex.v ===== *)
(** * Mutexes: who holds them, and what interferes

    A mutex is a queue of one item without bytes, whose [pcHead] is NULL.  The
    specification is an automaton for each mutex, on its holder and recursion
    count; the calls of tasks implement it, whatever else the kernel does in
    between, and each task counts the mutexes that it holds. *)

From S2P Require Import Prelude Bytes ListSpec Kernel KernelInv KernelTick KernelResume KernelSched KernelEvent KernelPrio KernelWait Queue QueueSpec.
#[local] Open Scope Z_scope.

(** ** The automaton *)

(** A handle of 0 is NULL: nobody holds the mutex. *)
Definition Owner : Type := Z * Z.

Inductive mutex_op := MTake | MGive | MTakeRecursive | MGiveRecursive.

Definition spec_mutex (t : Z) (op : mutex_op) (o : Owner) : Owner * bool :=
  let '(h, n) := o in
  match op with
  | MTake => if h =? 0 then (t, n, true) else (h, n, false)
  | MGive => if h =? 0 then (h, n, false) else (0, n, true)
  | MTakeRecursive =>
    if (h =? t) || (h =? 0) then (t, u32 (n + 1), true) else (h, n, false)
  | MGiveRecursive =>
    if h =? t then (if u32 (n - 1) =? 0 then 0 else h, u32 (n - 1), true) else (h, n, false)
  end.

(** The calls, with no time to wait. *)
Definition run_mutex_op (q : Z) (op : mutex_op) (w : World) : option (World * bool) :=
  match op with
  | MTake => '(w, ok, _) ← call_now (xQueueSemaphoreTake q 0) w; Some (w, ok)
  | MGive => '(w, ok, _) ← call_now (xQueueGenericSend q [] 0 queueSEND_TO_BACK) w; Some (w, ok)
  | MTakeRecursive =>
    r ← xQueueTakeMutexRecursive q 0 w;
    match r with
    | inl r => Some r
    | inr c => '(w, ok, _) ← call_now c w; take_recursive_end q ok w
    end
  | MGiveRecursive => xQueueGiveMutexRecursive q w
  end.

(** ** Representation *)

Record is_mutex (c : Queue_t) (o : Owner) : Prop := mkIsMutex {
  im_kind : uxQueueType c = queueQUEUE_IS_MUTEX;
  im_shape : uxItemSize c = 0 /\ uxLength c = 1;
  im_free : uxMessagesWaiting c = if o.1 =? 0 then 1 else 0;
  im_owner : xMutexHolder c = o.1 /\ uxRecursiveCallCount c = o.2
}.

(** How many of the mutexes a task holds. *)
Definition held_by (t : Z) (qo : Z * Owner) : Prop := qo.2.1 = t.
#[export] Instance held_by_dec t qo : Decision (held_by t qo).
Proof. unfold held_by. apply _. Defined.
Definition mutexes_of (t : Z) (os : gmap Z Owner) : Z := Z.of_nat (size (filter (held_by t) os)).

(** [os] are the mutexes of the system.  Every task counts those it holds. *)
Record mutexes_rep (w : World) (os : gmap Z Owner) : Prop := mkMutexesRep {
  mx_kinv : kinv (w_k w);
  mx_queues : forall q o, os !! q = Some o -> exists c, w_q w !! q = Some c /\ is_mutex c o;
  mx_held : forall t, live (w_k w) t -> t <> 0 /\ uxMutexesHeld (tcb (w_k w) t) = mutexes_of t os;
  mx_size : Z.of_nat (size os) < 4294967296
}.

(** One mutex and the others. *)
Lemma mutexes_of_delete t q (o : Owner) (os : gmap Z Owner) : os !! q = Some o ->
  mutexes_of t os = mutexes_of t (delete q os) + Z.b2z (bool_decide (o.1 = t)).
Proof.
  intros E. unfold mutexes_of. assert (filter (held_by t) (delete q os) !! q = None) as Hn
    by (apply map_lookup_filter_None; left; apply lookup_delete_eq).
  rewrite <- (insert_delete_id os q o E) at 1. rewrite map_filter_insert, delete_delete_eq. unfold held_by at 1. simpl.
  case_decide; case_bool_decide; try done; [|simpl; lia]. rewrite map_size_insert_None by done. simpl. lia.
Qed.
Lemma mutexes_of_insert t q (o o' : Owner) (os : gmap Z Owner) : os !! q = Some o ->
  mutexes_of t (<[q := o']> os) = mutexes_of t os + (Z.b2z (bool_decide (o'.1 = t)) - Z.b2z (bool_decide (o.1 = t))).
Proof.
  intros E. rewrite (mutexes_of_delete t q o' _ (lookup_insert_eq os q o')), (mutexes_of_delete t q o os E).
  rewrite delete_insert_eq. lia.
Qed.
Lemma mutexes_of_new t q (os : gmap Z Owner) : os !! q = None -> t <> 0 -> mutexes_of t (<[q := (0, 0)]> os) = mutexes_of t os.
Proof.
  intros E Ht. rewrite (mutexes_of_delete t q (0, 0) _ (lookup_insert_eq os q (0, 0))), delete_insert_id by done.
  rewrite bool_decide_eq_false_2 by (simpl; congruence). simpl. lia.
Qed.
Lemma mutexes_of_bounds t q (o : Owner) (os : gmap Z Owner) : os !! q = Some o ->
  Z.b2z (bool_decide (o.1 = t)) <= mutexes_of t os <= Z.of_nat (size os) - (1 - Z.b2z (bool_decide (o.1 = t))).
Proof.
  intros E. rewrite (mutexes_of_delete t q o os E). unfold mutexes_of.
  pose proof (map_size_filter (held_by t) (delete q os)) as Hs. rewrite map_size_delete_Some in Hs by (by eexists).
  assert (size os <> 0%nat) by (intros H0%map_size_empty_iff; by subst). lia.
Qed.

(** What a call of the running task [t] on the mutex [q] leaves alone; the
    number of mutexes that [t] counts changes by [d]. *)
Record call_effect (q t d : Z) (w w' : World) : Prop := mkCallEffect {
  ce_kinv : kinv (w_k w');
  ce_queues : forall q', q' <> q -> w_q w' !! q' = w_q w !! q';
  ce_live : forall u, live (w_k w') u <-> live (w_k w) u;
  ce_tcbs : forall u, u <> t -> tcb (w_k w') u = tcb (w_k w) u;
  ce_base : uxBasePriority (tcb (w_k w') t) = uxBasePriority (tcb (w_k w) t);
  ce_held : uxMutexesHeld (tcb (w_k w') t) = uxMutexesHeld (tcb (w_k w) t) + d
}.

Lemma call_effect_same q t w w' : kinv (w_k w) -> w_k w' = w_k w -> (forall q', q' <> q -> w_q w' !! q' = w_q w !! q') -> call_effect q t 0 w w'.
Proof. intros Hk E Hq. split; rewrite ?E; try done. lia. Qed.
Lemma call_effect_trans q t d1 d2 w1 w2 w3 : call_effect q t d1 w1 w2 -> call_effect q t d2 w2 w3 -> call_effect q t (d1 + d2) w1 w3.
Proof.
  intros [] []. split; try done; intros.
  - by rewrite ce_queues1, ce_queues0.
  - by rewrite ce_live1.
  - by rewrite ce_tcbs1, ce_tcbs0.
  - congruence.
  - lia.
Qed.
(** The kernel moves as one task's control block does, then a waiter is woken;
    only the queue of the mutex changes. *)
Lemma call_effect_of q t d w k1 k2 c m : adjusted t (w_k w) k1 -> kinv k2 -> k_tcbs k2 = k_tcbs k1 ->
  uxMutexesHeld (tcb k1 t) = uxMutexesHeld (tcb (w_k w) t) + d ->
  call_effect q t d w (mkWorld k2 (<[q := c]> (w_q w)) m).
Proof.
  intros Ha Hk2 Et Em. assert (forall u, tcb k2 u = tcb k1 u) as Etcb by (intros; unfold tcb; by rewrite Et).
  split; cbn [w_k w_q]; [done|intros; by rewrite lookup_insert_ne| | | |]; rewrite ?Etcb.
  - intros u. unfold live. rewrite Et. apply (aj_live _ _ _ Ha).
  - intros u Hu. rewrite Etcb. by apply (aj_tcbs _ _ _ Ha).
  - apply (aj_base _ _ _ Ha).
  - exact Em.
Qed.

(** Waking a waiter changes no control block of a task. *)
Lemma woke_tcbs ev k k' y : woke ev k k' y -> k_tcbs k' = k_tcbs k /\ pxCurrentTCB k' = pxCurrentTCB k.
Proof.
  intros [(_ & -> & _)|(t & _ & Hr & _)]; [done|].
  by destruct (rl_frame _ _ _ Hr) as (b & k1 & (L & T & N & ->) & ->).
Qed.

(** The end of a take or give. *)
Lemma wake_end q n w (r : option (bool * list Z)) : kinv (w_k w) -> exists k' y,
  ('(w0, y) ← wake_first (LEvent q n) w; Some (if (y : bool) then queueYIELD w0 else w0, r)) =
    Some (set_kernel (yield_if y k') w, r) /\
  kinv (yield_if y k') /\ k_tcbs (yield_if y k') = k_tcbs (w_k w) /\
  pxCurrentTCB (yield_if y k') = pxCurrentTCB (w_k w).
Proof.
  intros Hk. destruct (wake_first_ok q n w Hk) as (k' & y & -> & Hw & Hk'). destruct (woke_tcbs _ _ _ _ Hw).
  exists k', y. cbn [mbind option_bind]. rewrite queueYIELD_eq. split_and!; [done|by apply kinv_yield_if|by destruct y..].
Qed.

(** The invariant does not name the running task. *)
Lemma kinv_current t k : kinv k -> kinv (set_pxCurrentTCB t k).
Proof. intros [[] Hblk []]. split; [by split|done|by split]. Qed.

(** ** Taking and giving *)

Lemma mutex_take q w c n : kinv (w_k w) -> w_q w !! q = Some c -> is_mutex c (0, n) ->
  let t := pxCurrentTCB (w_k w) in live (w_k w) t -> t <> 0 -> 0 <= uxMutexesHeld (tcb (w_k w) t) < 4294967295 ->
  exists w' c', call_now (xQueueSemaphoreTake q 0) w = Some (w', true, []) /\ w_q w' !! q = Some c' /\ is_mutex c' (t, n) /\
    call_effect q t 1 w w' /\ uxPriority (tcb (w_k w') t) = uxPriority (tcb (w_k w) t).
Proof.
  intros Hk Ec [Hkd [Hsz Hlen] Hn [Ho Hr]] t Hl Ht0 Hcnt. simpl in Hn, Ho, Hr.
  set (k1 := upd_tcb t (fun c => set_uxMutexesHeld (u32 (uxMutexesHeld c + 1)) c) (w_k w)).
  assert (adjusted t (w_k w) k1 /\ tcb k1 t = set_uxMutexesHeld (uxMutexesHeld (tcb (w_k w) t) + 1) (tcb (w_k w) t)) as [Ha Em].
  { unfold k1. rewrite (upd_tcb_ext t _ (set_uxMutexesHeld (uxMutexesHeld (tcb (w_k w) t) + 1)))
      by (by rewrite u32_small by lia).
    split; [by apply adjusted_held|]. by rewrite tcb_upd_tcb, decide_True. }
  set (c' := set_u0 t (set_uxMessagesWaiting 0 c)).
  assert (exists k2, try_take q w = Some (mkWorld k2 (<[q := c']> (w_q w)) (w_mem w), Some (true, [])) /\ kinv k2 /\
    k_tcbs k2 = k_tcbs k1) as (k2 & E & Hk2 & Et2).
  { unfold try_take. rewrite Ec. cbn [mbind option_bind]. rewrite Hn, Z.gtb_ltb.
    change (0 <? 1) with true. cbv iota. rewrite (upd_queue_eq _ _ _ _ Ec). cbn [mbind option_bind].
    rewrite Hkd, Z.eqb_refl. unfold pvTaskIncrementMutexHeldCount. cbn [w_k]. fold t.
    destruct (Z.eqb_spec t 0); [done|]. cbn [negb]. fold k1. rewrite (upd_queue_eq _ _ _ _ (lookup_insert_eq _ _ _)).
    cbn [mbind option_bind]. simpl. rewrite insert_insert_eq.
    match goal with |- context [wake_first _ ?w1] =>
      destruct (wake_end q 0 w1 (Some (true, [])) (aj_kinv _ _ _ Ha)) as (k2 & y & E2 & Hk2 & Et2 & _) end.
    fold (xTasksWaitingToSend q) in E2. rewrite E2. exists (yield_if y k2). by split. }
  exists (mkWorld k2 (<[q := c']> (w_q w)) (w_mem w)), c'. split; [unfold xQueueSemaphoreTake; by rewrite (call_now_try SemaphoreTake q w _ _ E)|].
  split; [apply lookup_insert_eq|]. split; [split; simpl; [done|done|by destruct (Z.eqb_spec t 0)|done]|].
  split; [apply (call_effect_of q t 1 w k1); [done..|by rewrite Em]|]. cbn [w_k]. unfold tcb at 1. rewrite Et2. fold (tcb k1 t). by rewrite Em.
Qed.

Lemma mutex_take_held q w c h n : w_q w !! q = Some c -> is_mutex c (h, n) -> h <> 0 ->
  call_now (xQueueSemaphoreTake q 0) w = Some (w, false, []).
Proof.
  intros Ec [_ _ Hn _] Hh. simpl in Hn. rewrite (proj2 (Z.eqb_neq _ _) Hh) in Hn. unfold xQueueSemaphoreTake.
  rewrite (call_now_try SemaphoreTake q w w None); [done|]. cbn [try_request]. unfold try_take. rewrite Ec. cbn [mbind option_bind]. by rewrite Hn.
Qed.

(** The wake-up or the yield that ends a send. *)
Lemma send_end q w1 (yield : bool) : kinv (w_k w1) -> exists k',
  (if negb (list_empty (xTasksWaitingToReceive q) (w_k w1))
   then '(w, y) ← wake_first (xTasksWaitingToReceive q) w1; Some (if (y : bool) then queueYIELD w else w)
   else Some (if yield then queueYIELD w1 else w1)) = Some (set_kernel k' w1) /\
  kinv k' /\ k_tcbs k' = k_tcbs (w_k w1) /\ pxCurrentTCB k' = pxCurrentTCB (w_k w1).
Proof.
  intros Hk. destruct (list_empty _ _); cbn [negb].
  - exists (yield_if yield (w_k w1)). split; [by destruct yield, w1|]. split; [by apply kinv_yield_if|by destruct yield].
  - destruct (wake_first_ok q 1 w1 Hk) as (k' & y & E & Hw & Hk'). destruct (woke_tcbs _ _ _ _ Hw) as [Et Ec].
    fold (xTasksWaitingToReceive q) in E. rewrite E. cbn [mbind option_bind]. rewrite queueYIELD_eq.
    exists (yield_if y k'). split_and!; [done|by apply kinv_yield_if|by destruct y..].
Qed.

Lemma mutex_give q w c n : kinv (w_k w) -> w_q w !! q = Some c -> running (w_k w) ->
  let t := pxCurrentTCB (w_k w) in is_mutex c (t, n) -> t <> 0 -> 0 < uxMutexesHeld (tcb (w_k w) t) < 4294967296 ->
  exists w' c', call_now (xQueueGenericSend q [] 0 queueSEND_TO_BACK) w = Some (w', true, []) /\ w_q w' !! q = Some c' /\
    is_mutex c' (0, n) /\ call_effect q t (-1) w w' /\
    uxPriority (tcb (w_k w') t) = (if uxMutexesHeld (tcb (w_k w) t) =? 1 then uxBasePriority (tcb (w_k w) t) else uxPriority (tcb (w_k w) t)).
Proof.
  intros Hk Ec Hrun t [Hkd [Hsz Hlen] Hn [Ho Hr]] Ht0 Hcnt. simpl in Hn, Ho, Hr. rewrite (proj2 (Z.eqb_neq _ _) Ht0) in Hn.
  destruct (xTaskPriorityDisinherit_ok (w_k w) t Hk Hrun Ht0 Hcnt) as (k1 & Ed & Ha & Em & Ep & _).
  set (yield := (uxMutexesHeld (tcb (w_k w) t) =? 1) && negb (uxPriority (tcb (w_k w) t) =? uxBasePriority (tcb (w_k w) t))) in *.
  set (c' := set_uxMessagesWaiting (u32 (0 + 1)) (set_u0 0 c)).
  assert (prvCopyDataToQueue q [] queueSEND_TO_BACK w = Some (mkWorld k1 (<[q := c']> (w_q w)) (w_mem w), yield)) as Ecopy.
  { unfold prvCopyDataToQueue. rewrite Ec. cbn [mbind option_bind]. rewrite Hsz, Hkd, !Z.eqb_refl, Ho, Ed.
    cbn [mbind option_bind]. rewrite (upd_queue_eq q _ (set_kernel k1 w) c) by exact Ec. cbn [mbind option_bind].
    rewrite (upd_queue_eq _ _ _ _ (lookup_insert_eq _ _ _)). cbn [mbind option_bind]. simpl.
    by rewrite insert_insert_eq, Hn. }
  destruct (send_end q (mkWorld k1 (<[q := c']> (w_q w)) (w_mem w)) yield (aj_kinv _ _ _ Ha)) as (k2 & Ew & Hk2 & Et2 & _).
  cbn [w_k] in Et2. exists (mkWorld k2 (<[q := c']> (w_q w)) (w_mem w)), c'. split.
  { unfold xQueueGenericSend. rewrite (call_now_try (Send [] queueSEND_TO_BACK) q w
      (set_kernel k2 (mkWorld k1 (<[q := c']> (w_q w)) (w_mem w))) (Some (true, []))); [done|].
    cbn [try_request]. unfold try_send. rewrite Ec. cbn [mbind option_bind]. rewrite Hn, Hlen.
    change ((0 <? 1) || _) with true. cbv iota. rewrite Ecopy. cbn [mbind option_bind]. by rewrite Ew. }
  split; [apply lookup_insert_eq|]. split; [by split|].
  split; [apply (call_effect_of q t (-1) w k1); [done..|lia]|]. cbn [w_k]. unfold tcb at 1. rewrite Et2. exact Ep.
Qed.

Lemma mutex_give_free q w c n : w_q w !! q = Some c -> is_mutex c (0, n) ->
  call_now (xQueueGenericSend q [] 0 queueSEND_TO_BACK) w = Some (w, false, []).
Proof.
  intros Ec [_ [_ Hlen] Hn _]. simpl in Hn. unfold xQueueGenericSend. rewrite (call_now_try (Send [] queueSEND_TO_BACK) q w w None); [done|].
  cbn [try_request]. unfold try_send. rewrite Ec. cbn [mbind option_bind]. by rewrite Hn, Hlen.
Qed.

(** The recursion count alone. *)
Lemma mutex_count q w c h n m : w_q w !! q = Some c -> is_mutex c (h, n) -> exists w' c',
  upd_queue q (set_u1 m) w = Some w' /\ w_q w' !! q = Some c' /\ is_mutex c' (h, m) /\ w_k w' = w_k w /\
  forall q', q' <> q -> w_q w' !! q' = w_q w !! q'.
Proof.
  intros Ec [Hkd Hsh Hn [Ho Hr]]. rewrite (upd_queue_eq _ _ _ _ Ec). do 2 eexists. split; [reflexivity|]. cbn [w_q w_k].
  split; [apply lookup_insert_eq|]. split; [by split|]. split; [done|]. intros. by rewrite lookup_insert_ne.
Qed.
Lemma mutex_count_up q w c h n : w_q w !! q = Some c -> is_mutex c (h, n) -> exists w' c',
  take_recursive_end q true w = Some (w', true) /\ w_q w' !! q = Some c' /\ is_mutex c' (h, u32 (n + 1)) /\ w_k w' = w_k w /\
  forall q', q' <> q -> w_q w' !! q' = w_q w !! q'.
Proof.
  intros Ec Hm. destruct (mutex_count q w c h n (u32 (n + 1)) Ec Hm) as (w' & c' & E & H). exists w', c'. split; [|done].
  destruct Hm as [_ _ _ [_ Hr]]. unfold take_recursive_end. rewrite Ec. cbn [mbind option_bind]. simpl in Hr. by rewrite Hr, E.
Qed.

(** Whether a call gives the mutex up, and the priority the caller has then. *)
Definition gives_up (t : Z) (op : mutex_op) (o : Owner) : bool :=
  bool_decide (o.1 = t) && negb (bool_decide ((spec_mutex t op o).1.1 = t)).
Definition prio_after (t : Z) (op : mutex_op) (o : Owner) (c : TCB_t) : Z :=
  if gives_up t op o && (uxMutexesHeld c =? 1) then uxBasePriority c else uxPriority c.

(** Every call follows the automaton of its mutex. *)
Lemma run_mutex_op_ok q op w c (o : Owner) : kinv (w_k w) -> running (w_k w) -> w_q w !! q = Some c -> is_mutex c o ->
  let t := pxCurrentTCB (w_k w) in let held := uxMutexesHeld (tcb (w_k w) t) in
  t <> 0 -> Z.b2z (bool_decide (o.1 = t)) <= held < 4294967295 + Z.b2z (bool_decide (o.1 = t)) ->
  (op = MGive -> o.1 = 0 \/ o.1 = t) -> exists w' c',
  run_mutex_op q op w = Some (w', (spec_mutex t op o).2) /\ w_q w' !! q = Some c' /\ is_mutex c' (spec_mutex t op o).1 /\
  call_effect q t (Z.b2z (bool_decide ((spec_mutex t op o).1.1 = t)) - Z.b2z (bool_decide (o.1 = t))) w w' /\
  uxPriority (tcb (w_k w') t) = prio_after t op o (tcb (w_k w) t).
Proof.
  intros Hk Hrun Ec Hm t held Ht0 Hheld Hgive. destruct o as [h n]. cbn [fst] in *. unfold prio_after, gives_up. fold held.
  pose proof (running_live _ Hk Hrun) as Hl. fold t in Hl. pose proof (im_owner _ _ Hm) as [Ho Hr]. cbn [fst snd] in Ho, Hr.
  assert (call_effect q t 0 w w) as Hsame by (by apply call_effect_same).
  destruct op; cbn [run_mutex_op spec_mutex].
  - destruct (Z.eqb_spec h 0) as [->|Hh0]; cbn [fst snd].
    + rewrite (bool_decide_eq_false_2 (0 = t)) in Hheld |- * by done. simpl in Hheld.
      destruct (mutex_take q w c n Hk Ec Hm Hl Ht0) as (w' & c' & E & Ec' & Hm' & He & Hp); [fold t; fold held; lia|]. fold t in Hm', He, Hp.
      rewrite E. exists w', c'. rewrite (bool_decide_eq_true_2 (t = t)) by done. by split_and!.
    + rewrite (mutex_take_held q w c h n Ec Hm Hh0). exists w, c. rewrite Z.sub_diag, andb_negb_r. by split_and!.
  - destruct (Z.eqb_spec h 0) as [->|Hh0]; cbn [fst snd].
    + rewrite (mutex_give_free q w c n Ec Hm). exists w, c. rewrite Z.sub_diag, andb_negb_r. by split_and!.
    + destruct Hgive as [?| ->]; [done..|]. rewrite (bool_decide_eq_true_2 (t = t)) in Hheld |- * by done.
      rewrite (bool_decide_eq_false_2 (0 = t)) by done. simpl in Hheld |- *.
      destruct (mutex_give q w c n Hk Ec Hrun Hm Ht0) as (w' & c' & E & Ec' & Hm' & He & Hp); [fold t; fold held; lia|].
      fold t in He, Hp. fold held in Hp. rewrite E. exists w', c'. by split_and!.
  - unfold xQueueTakeMutexRecursive, xTaskGetCurrentTaskHandle. rewrite Ec. cbn [mbind option_bind]. rewrite Ho. fold t.
    destruct (Z.eqb_spec h t) as [->|Hne]; simpl orb; cbn [fst snd].
    + destruct (mutex_count_up q w c t n Ec Hm) as (w' & c' & -> & Ec' & Hm' & Ek & Hq). exists w', c'.
      rewrite Z.sub_diag, andb_negb_r. cbn [fmap option_fmap option_map mbind option_bind]. rewrite Ek. split_and!; try done. by apply call_effect_same.
    + cbn [mbind option_bind]. destruct (Z.eqb_spec h 0) as [->|Hh0]; simpl orb; cbn [fst snd].
      * rewrite (bool_decide_eq_false_2 (0 = t)) in Hheld |- * by done. simpl in Hheld.
        destruct (mutex_take q w c n Hk Ec Hm Hl Ht0) as (w1 & c1 & -> & Ec1 & Hm1 & He1 & Hp1); [fold t; fold held; lia|]. fold t in Hm1, He1, Hp1.
        cbn [mbind option_bind]. destruct (mutex_count_up q w1 c1 t n Ec1 Hm1) as (w' & c' & -> & Ec' & Hm' & Ek & Hq). exists w', c'.
        rewrite (bool_decide_eq_true_2 (t = t)) by done. simpl. rewrite Ek. split_and!; try done.
        change 1 with (1 + 0). eapply call_effect_trans; [exact He1|]. apply call_effect_same; [apply He1|done..].
      * rewrite (mutex_take_held q w c h n Ec Hm Hh0). cbn [mbind option_bind take_recursive_end]. exists w, c.
        rewrite Z.sub_diag, andb_negb_r. by split_and!.
  - unfold xQueueGiveMutexRecursive, xTaskGetCurrentTaskHandle. rewrite Ec. cbn [mbind option_bind]. rewrite Ho, Hr. fold t.
    destruct (Z.eqb_spec h t) as [->|Hne]; cbn [fst snd].
    2: { exists w, c. rewrite Z.sub_diag, andb_negb_r. by split_and!. }
    destruct (mutex_count q w c t n (u32 (n - 1)) Ec Hm) as (w1 & c1 & -> & Ec1 & Hm1 & Ek1 & Hq1). cbn [mbind option_bind].
    assert (call_effect q t 0 w w1) as He1 by (by apply call_effect_same).
    destruct (Z.eqb_spec (u32 (n - 1)) 0) as [E0|E0].
    + rewrite (bool_decide_eq_true_2 (t = t)) in Hheld |- * by done. rewrite (bool_decide_eq_false_2 (0 = t)) by done. simpl in Hheld |- *.
      destruct (mutex_give q w1 c1 (u32 (n - 1))) as (w' & c' & E & Ec' & Hm' & He & Hp); rewrite ?Ek1; [done..|fold t; fold held; lia|].
      rewrite Ek1 in He, Hp. fold t in He, Hp. fold held in Hp. rewrite E. exists w', c'. split_and!; try done.
      change (-1) with (0 + -1). by eapply call_effect_trans.
    + exists w1, c1. rewrite Z.sub_diag, andb_negb_r. cbn [andb]. rewrite Ek1. by split_and!.
Qed.

(** The same for all mutexes together. *)
Definition spec_mutexes (t q : Z) (op : mutex_op) (os : gmap Z Owner) : gmap Z Owner :=
  match os !! q with Some o => <[q := (spec_mutex t op o).1]> os | None => os end.
(** Whether the call gives back the last mutex of its task. *)
Definition gives_last (t q : Z) (op : mutex_op) (os : gmap Z Owner) : bool :=
  match os !! q with Some o => gives_up t op o && (mutexes_of t (spec_mutexes t q op os) =? 0) | None => false end.

(** The holder of a mutex that a call of [t] changes is [t] before or after. *)
Lemma spec_mutex_holder t op o u : (op = MGive -> o.1 = 0 \/ o.1 = t) -> u <> t -> u <> 0 ->
  bool_decide ((spec_mutex t op o).1.1 = u) = bool_decide (o.1 = u).
Proof.
  intros Hg Hut Hu. destruct o as [h n]. cbn [fst] in Hg. destruct op; cbn [spec_mutex]; repeat case_match; cbn [fst];
    repeat match goal with H : (_ =? _) = true |- _ => apply Z.eqb_eq in H | H : (_ || _) = true |- _ => apply orb_prop in H as [H|H] end; subst;
    try done; try (by rewrite !bool_decide_eq_false_2 by congruence).
  destruct Hg as [->| ->]; [done..|]. by rewrite !bool_decide_eq_false_2 by congruence.
Qed.

Lemma run_mutexes_ok q op w (os : gmap Z Owner) (o : Owner) : mutexes_rep w os -> running (w_k w) -> os !! q = Some o ->
  let t := pxCurrentTCB (w_k w) in (op = MGive -> o.1 = 0 \/ o.1 = t) -> exists w',
  run_mutex_op q op w = Some (w', (spec_mutex t op o).2) /\ mutexes_rep w' (spec_mutexes t q op os) /\
  uxPriority (tcb (w_k w') t) = (if gives_last t q op os then uxBasePriority (tcb (w_k w) t) else uxPriority (tcb (w_k w) t)).
Proof.
  intros [Hk Hqs Hheld Hsz] Hrun Eo t Hgive. destruct (Hqs q o Eo) as (c & Ec & Hm).
  pose proof (running_live _ Hk Hrun) as Hl. destruct (Hheld t Hl) as [Ht0 Eh]. pose proof (mutexes_of_bounds t q o os Eo) as Hb.
  destruct (run_mutex_op_ok q op w c o Hk Hrun Ec Hm) as (w' & c' & E & Ec' & Hm' & [He1 He2 He3 He4 He5 He6] & Hp); [done| |done|].
  { fold t. rewrite Eh. lia. }
  fold t in E, Hm', He2, He4, He5, He6, Hp. exists w'. split; [done|]. unfold gives_last, spec_mutexes. rewrite Eo.
  pose proof (mutexes_of_insert t q o (spec_mutex t op o).1 os Eo) as Ei. split; [split|].
  - exact He1.
  - intros q' o'. destruct (decide (q' = q)) as [->|Hq]; [rewrite lookup_insert_eq; intros [= <-]; by exists c'|].
    rewrite lookup_insert_ne by done. rewrite He2 by done. apply Hqs.
  - intros u Hu. apply He3 in Hu. destruct (Hheld u Hu) as [Hu0 Ehu]. split; [done|].
    destruct (decide (u = t)) as [->|Hne]; [rewrite He6, Eh; lia|]. rewrite He4, Ehu by done.
    rewrite (mutexes_of_insert u q o _ os Eo), (spec_mutex_holder t op o u Hgive Hne Hu0). lia.
  - rewrite map_size_insert_Some by (by eexists). done.
  - rewrite Hp. unfold prio_after. rewrite Eh. unfold gives_up in *. destruct (bool_decide (o.1 = t)), (bool_decide ((spec_mutex t op o).1.1 = t)); cbn [andb negb Z.b2z] in *; try done.
    rewrite Ei. destruct (Z.eqb_spec (mutexes_of t os) 1), (Z.eqb_spec (mutexes_of t os + (0 - 1)) 0); (done || lia).
Qed.

(** ** Runs with interference *)

(** What the rest of the system may do between two calls: anything that keeps
    the kernel's invariant and leaves the mutexes [qs] and the counts of held
    mutexes alone (both change in the calls of the run only); another task may
    be running afterwards.  A new task holds no mutex (its control block is not
    one that a mutex names). *)
Definition elsewhere (qs : gset Z) (w w' : World) : Prop :=
  kinv (w_k w') /\ running (w_k w') /\ (forall q, q ∈ qs -> w_q w' !! q = w_q w !! q) /\
  forall t, live (w_k w') t ->
    (live (w_k w) t /\ uxMutexesHeld (tcb (w_k w') t) = uxMutexesHeld (tcb (w_k w) t)) \/
    (t <> 0 /\ uxMutexesHeld (tcb (w_k w') t) = 0 /\
     forall q c, q ∈ qs -> w_q w !! q = Some c -> xMutexHolder c <> t).

(** A call with the task that made it, its mutex and its result; a new mutex. *)
Inductive mutex_event := ECall (t q : Z) (op : mutex_op) (ok : bool) | ENew (q : Z).

Inductive mutex_run : gset Z -> World -> list mutex_event -> World -> Prop :=
| run_done qs w : mutex_run qs w [] w
| run_else qs w w1 tr w' : elsewhere qs w w1 -> mutex_run qs w1 tr w' -> mutex_run qs w tr w'
| run_new qs q w w1 tr w' : elsewhere qs w w1 -> q ∉ qs -> (exists c, w_q w1 !! q = Some c /\ is_mutex c (0, 0)) ->
    mutex_run ({[q]} ∪ qs) w1 tr w' -> mutex_run qs w (ENew q :: tr) w'
| run_op qs q w op w1 ok tr w' : running (w_k w) -> q ∈ qs -> run_mutex_op q op w = Some (w1, ok) ->
    mutex_run qs w1 tr w' -> mutex_run qs w (ECall (pxCurrentTCB (w_k w)) q op ok :: tr) w'.

(** The automata accept a trace. *)
Fixpoint accepts_trace (os : gmap Z Owner) (tr : list mutex_event) : option (gmap Z Owner) :=
  match tr with
  | [] => Some os
  | ECall t q op ok :: tr =>
    o ← os !! q; if Bool.eqb (spec_mutex t op o).2 ok then accepts_trace (spec_mutexes t q op os) tr else None
  | ENew q :: tr => accepts_trace (<[q := (0, 0)]> os) tr
  end.
(** Clients give what they hold, and there are less than 2^32 mutexes. *)
Definition fair_give (t q : Z) (op : mutex_op) (os : gmap Z Owner) : Prop :=
  op = MGive -> forall o : Owner, os !! q = Some o -> o.1 = 0 \/ o.1 = t.
Fixpoint fair_givers (os : gmap Z Owner) (tr : list mutex_event) : Prop :=
  match tr with
  | [] => True
  | ECall t q op _ :: tr => fair_give t q op os /\ fair_givers (spec_mutexes t q op os) tr
  | ENew q :: tr => Z.of_nat (size os) + 1 < 4294967296 /\ fair_givers (<[q := (0, 0)]> os) tr
  end.

Lemma elsewhere_rep qs w w' os : mutexes_rep w os -> dom os = qs -> elsewhere qs w w' -> mutexes_rep w' os.
Proof.
  intros [Hk Hqs Hheld Hsz] Hdom (Hk' & _ & Eq & Ht). assert (forall q o, os !! q = Some o -> q ∈ qs) as Hin
    by (intros q o E; rewrite <- Hdom; apply elem_of_dom; by eexists).
  split; [done| | |done].
  - intros q o E. rewrite Eq by (by eapply Hin). by apply Hqs.
  - intros t Hl. destruct (Ht t Hl) as [[Hl' ->]|(Ht0 & -> & Hn)]; [by apply Hheld|]. split; [done|].
    symmetry. unfold mutexes_of. enough (filter (held_by t) os = ∅) as -> by done.
    apply map_empty. intros q. apply map_lookup_filter_None. right. intros o E Ho.
    destruct (Hqs q o E) as (c & Ec & [_ _ _ [Hh _]]). apply (Hn q c (Hin q o E) Ec). rewrite Hh. exact Ho.
Qed.
Lemma new_rep w os q c : mutexes_rep w os -> os !! q = None -> w_q w !! q = Some c -> is_mutex c (0, 0) ->
  Z.of_nat (size os) + 1 < 4294967296 -> mutexes_rep w (<[q := (0, 0)]> os).
Proof.
  intros [Hk Hqs Hheld Hsz] Hn Ec Hc Hs. split; [done| | |rewrite map_size_insert_None by done; lia].
  - intros q' o'. destruct (decide (q' = q)) as [->|]; [rewrite lookup_insert_eq; intros [= <-]; by exists c|].
    rewrite lookup_insert_ne by done. apply Hqs.
  - intros t Hl. destruct (Hheld t Hl) as [Ht0 ->]. split; [done|]. by rewrite mutexes_of_new.
Qed.

(** Another task runs. *)
Lemma switch_elsewhere qs w u : kinv (w_k w) -> is_ready (w_k w) u ->
  elsewhere qs w (set_kernel (set_pxCurrentTCB u (w_k w)) w).
Proof. intros Hk Hr. split; [by apply kinv_current|]. split; [exact Hr|]. split; [done|]. intros t Ht. by left. Qed.

(** C19: mutual exclusion.  Tasks use any number of mutexes and recursive mutexes,
    also several at a time and new ones, by calls without waiting time; between
    the calls the kernel does anything else (tasks are created, deleted, blocked,
    switched, or run at an inherited priority) that leaves those mutexes and the
    tasks' counts of held mutexes to the calls.  Every call answers as the
    automaton of the holder and the recursion count of its mutex: a take succeeds
    exactly when nobody holds it (or, recursively, the caller does), a recursive
    give by another task fails, and the mutex is free again exactly when its
    holder has given it as often as it took it.  The kernel's invariant holds, and
    every task's count is the number of mutexes that it holds; a task is set to
    its base priority by the call that gives back its last mutex, and by no
    other call.  (A plain give is for the holder only.) *)
Theorem mutex_runs_refine qs w os tr w' :
  mutexes_rep w os -> dom os = qs -> mutex_run qs w tr w' -> fair_givers os tr ->
  exists os', accepts_trace os tr = Some os' /\ mutexes_rep w' os' /\
    (running (w_k w') -> forall q (o : Owner) op, os' !! q = Some o -> let t := pxCurrentTCB (w_k w') in fair_give t q op os' ->
       exists w2, run_mutex_op q op w' = Some (w2, (spec_mutex t op o).2) /\ mutexes_rep w2 (spec_mutexes t q op os') /\
         uxPriority (tcb (w_k w2) t) =
           (if gives_last t q op os' then uxBasePriority (tcb (w_k w') t) else uxPriority (tcb (w_k w') t))).
Proof.
  intros Hm Hdom Hrun. revert os Hm Hdom.
  induction Hrun as [qs w|qs w w1 tr w' Helse _ IH|qs q w w1 tr w' Helse Hq (c & Ec & Hc) _ IH|qs q w op w1 ok tr w' Hr Hq E _ IH]; intros os Hm Hdom Hfair.
  - exists os. split_and!; [done..|]. intros Hr q o op Eo t Hg. apply run_mutexes_ok; [done..|]. intros Hop. by apply (Hg Hop).
  - apply IH; [by eapply elsewhere_rep|done..].
  - destruct Hfair as [Hs Hfair]. cbn [accepts_trace]. assert (os !! q = None) as Hn by (apply not_elem_of_dom; by rewrite Hdom).
    apply IH; [|rewrite dom_insert_L; by rewrite Hdom|done]. apply (new_rep w1 os q c); [by eapply elsewhere_rep|done..].
  - destruct Hfair as [Hg Hfair]. rewrite <- Hdom in Hq. apply elem_of_dom in Hq as [o Eo].
    destruct (run_mutexes_ok q op w os o Hm Hr Eo) as (w2 & E2 & Hm2 & _); [intros Hop; by apply (Hg Hop)|].
    rewrite E in E2. injection E2 as <- ->. cbn [accepts_trace]. rewrite Eo. cbn [mbind option_bind]. rewrite Bool.eqb_reflx.
    apply IH; [done| |done]. unfold spec_mutexes. rewrite Eo, dom_insert_lookup_L by (by eexists). exact Hdom.
Qed.
