(* ===== verification/QueueCreate.v ===== *)
(** * Queues, semaphores and mutexes in the kernel's memory

    Creating and deleting them with an allocator that keeps its contract
    ([AllocatorOk]), and what a new one holds. *)

From S2P Require Import Prelude Bytes ListSpec Heap4 Allocator Kernel KernelInv KernelTick KernelResume KernelSched KernelEvent KernelPrio KernelWait Queue QueueSpec QueueMutex.
#[local] Open Scope Z_scope.

(** ** The event lists of a new object *)

Lemma ring_lInitialise (s : Lists ListId ItemId) l l' : lists_wf s -> on_list s l = [] ->
  ring (lInitialise l s) l' = ring s l'.
Proof.
  intros [Hwf _] Hl. unfold lInitialise. rewrite ring_upd. case_decide as E; [subst|done].
  destruct (Hwf l') as [_ Hi]. unfold on_list in Hl. destruct (ring s l') as [xs [i|]]; simpl in *; subst; [|done].
  exfalso. specialize (Hi i eq_refl). by apply elem_of_nil in Hi.
Qed.

Lemma kinv_lInitialise k l : kinv k -> klist k l = [] -> kinv (on_lists (lInitialise l) k) /\
  forall l', klist (on_lists (lInitialise l) k) l' = klist k l'.
Proof.
  intros [Hb Hblk [Hn1 Hn2 Hn3 Hn4 Hn5]] Hl. pose proof (ring_lInitialise (k_lists k) l) as Hr.
  assert (forall l', klist (on_lists (lInitialise l) k) l' = klist k l') as Hk.
  { intros l'. unfold klist, on_list. simpl. by rewrite (Hr l' (ki_wf Hb)). }
  split; [|done]. destruct Hb as [[Hw1 Hw2] ? ? ? ? Hmap ? ? ? ? ? Hsort]. split; [|done|].
  - split; try done.
    + split; simpl; [intros l'; by rewrite Hr|]. intros i l'. specialize (Hk l'). unfold klist in Hk. simpl in Hk. rewrite Hk. apply Hw2.
    + intros p. rewrite Hk. apply Hmap.
    + intros l' Hl'. rewrite Hk. by apply Hsort.
  - split; rewrite ?Hk; done.
Qed.

(** ** A new queue *)

(** The storage of a queue of [n] items of [s] bytes fits where it is. *)
Definition storage_fits (n s a : Z) : Prop :=
  0 < n < 4294967296 /\ 0 <= s <= a /\ a + n * s < 4294967296.

Definition new_queue (n s a q : Z) : Queue_t :=
  let head := if s =? 0 then q else a in
  mkQueue head head (u32 (head + n * s)) (u32 (head + u32 (n - 1) * s)) 0 n s queueUNLOCKED queueUNLOCKED.

Lemma new_queue_rep n s a q m : storage_fits n s a -> q <> 0 -> queue_rep (new_queue n s a q) m [].
Proof.
  intros (Hn & Hs & Hf) Hq. unfold new_queue. destruct (Z.eqb_spec s 0) as [->|Hs0].
  - split; simpl; try done; [lia|]. by left.
  - split; simpl; [unfold queueQUEUE_IS_MUTEX, uxQueueType; simpl; lia|lia|lia|by split; [lia|constructor]|].
    right. exists (n - 1). rewrite !(u32_small (n - 1)) by lia. split; simpl; [lia|by apply u32_small; lia| | |done].
    + unfold slot. rewrite Z.mod_small, u32_small by nia. done.
    + unfold slot. replace (n - 1 + 1 + Z.of_nat 0) with n by lia. rewrite Z_mod_same_full. lia.
Qed.

Lemma initialise_ok n s a q w : kinv (w_k w) -> storage_fits n s a -> q <> 0 ->
  klist (w_k w) (xTasksWaitingToSend q) = [] -> klist (w_k w) (xTasksWaitingToReceive q) = [] ->
  exists k', prvInitialiseNewQueue n s a q w =
      Some (mkWorld k' (<[q := new_queue n s a q]> (w_q w)) (w_mem w)) /\ kinv k' /\
    (forall l, klist k' l = klist (w_k w) l) /\ k_tcbs k' = k_tcbs (w_k w) /\ pxCurrentTCB k' = pxCurrentTCB (w_k w) /\
    (forall i, kcontainer k' i = kcontainer (w_k w) i).
Proof.
  intros Hk (Hn & Hs & Hf) Hq Hsnd Hrcv. unfold prvInitialiseNewQueue, xQueueGenericReset.
  rewrite (upd_queue_eq _ _ _ _ (lookup_insert_eq _ _ _)). cbn [mbind option_bind].
  destruct (kinv_lInitialise (w_k w) (xTasksWaitingToSend q) Hk Hsnd) as [Hk1 Hl1].
  destruct (kinv_lInitialise _ (xTasksWaitingToReceive q) Hk1) as [Hk2 Hl2]; [by rewrite Hl1|].
  eexists. split; [|split; [exact Hk2|split_and!; try done; intros l; by rewrite Hl2, Hl1]].
  unfold set_kernel. simpl. rewrite insert_insert_eq. do 4 f_equal.
  unfold new_queue, set_cTxLock, set_cRxLock, set_u1, set_u0, set_pcWriteTo, set_uxMessagesWaiting. simpl.
  rewrite !(u32_small (n * s)), !(u32_small (u32 (n - 1) * s)); [done|rewrite (u32_small (n - 1))|]; nia.
Qed.

(** ** Creating with an allocator *)

(** An address that is not in use names no object yet: nobody waits there. *)
Definition unused_lists (k : Kernel) (bs : gmap Z Z) : Prop := forall q n, bs !! q = None -> klist k (LEvent q n) = [].

(** What a new object leaves alone. *)
Record created_in (w w' : World) (q : Z) (c : Queue_t) : Prop := mkCreatedIn {
  cr_kinv : kinv (w_k w');
  cr_queues : w_q w' = <[q := c]> (w_q w);
  cr_memory : w_mem w' = w_mem w;
  cr_lists : forall l, klist (w_k w') l = klist (w_k w) l;
  cr_tasks : k_tcbs (w_k w') = k_tcbs (w_k w) /\ pxCurrentTCB (w_k w') = pxCurrentTCB (w_k w);
  cr_items : forall i, kcontainer (w_k w') i = kcontainer (w_k w) i
}.

Section create.
Context {H : Type} `{!Allocator H} {HA : AllocatorOk H}.

Lemma create_outcome n s h bs w :
  kinv (w_k w) -> owns h bs -> unused_lists (w_k w) bs ->
  0 < n < 4294967296 -> 0 <= s -> sizeof_Queue_t + n * s < 4294967296 ->
  exists h' w' q, xQueueGenericCreate n s h w = Some (h', w', q) /\
    ((q = 0 /\ w' = w /\ owns h' bs) \/
     (fresh bs q (sizeof_Queue_t + n * s) /\ owns h' (<[q := sizeof_Queue_t + n * s]> bs) /\
      (s <= q + sizeof_Queue_t -> storage_fits n s (q + sizeof_Queue_t) /\
         created_in w w' q (new_queue n s (q + sizeof_Queue_t) q)))).
Proof using HA.
  intros Hk Ho Hun Hn Hs Hfit. unfold xQueueGenericCreate.
  assert ((if s =? 0 then 0 else u32 (n * s)) = n * s) as ->.
  { destruct (Z.eqb_spec s 0) as [->|]; [lia|]. apply u32_small. unfold sizeof_Queue_t in *. nia. }
  rewrite u32_small by (unfold sizeof_Queue_t in *; nia).
  destruct (malloc_ok h bs (sizeof_Queue_t + n * s) Ho) as (h' & q & -> & Hout); [unfold sizeof_Queue_t in *; nia|].
  cbn [mbind option_bind]. destruct Hout as [[-> Ho']|[Hf Ho']].
  { exists h', w, 0. split; [done|by left]. }
  pose proof Hf as [[Hq Hend] Hal Hnew Hap]. destruct (Z.eqb_spec q 0) as [?|Hq0]; [lia|]. cbn [negb].
  assert (exists w', prvInitialiseNewQueue n s (u32 (q + sizeof_Queue_t)) q w = Some w' /\
    (s <= q + sizeof_Queue_t -> storage_fits n s (q + sizeof_Queue_t) /\
       created_in w w' q (new_queue n s (q + sizeof_Queue_t) q))) as (w' & -> & Hcr).
  { destruct (decide (s <= q + sizeof_Queue_t)) as [Hle|Hgt].
    - assert (storage_fits n s (q + sizeof_Queue_t)) as Hst by (unfold storage_fits; lia).
      rewrite u32_small by (unfold sizeof_Queue_t in *; nia).
      destruct (initialise_ok n s (q + sizeof_Queue_t) q w Hk Hst Hq0) as (k' & -> & Hk' & Hl & Ht & Hc & Hi);
        [by apply Hun..|]. eexists. split; [reflexivity|]. intros _. split; [done|]. by split.
    - unfold prvInitialiseNewQueue, xQueueGenericReset. rewrite (upd_queue_eq _ _ _ _ (lookup_insert_eq _ _ _)).
      eexists. split; [reflexivity|]. lia. }
  cbn [mbind option_bind]. exists h', w', q. split; [done|]. right. by split_and!.
Qed.

(** Semaphores: nothing to store, so nothing can be too low in memory. *)
Lemma semaphore_outcome n h bs w :
  kinv (w_k w) -> owns h bs -> unused_lists (w_k w) bs -> 0 < n < 4294967296 ->
  exists h' w' q, xQueueGenericCreate n 0 h w = Some (h', w', q) /\
    ((q = 0 /\ w' = w /\ owns h' bs) \/
     (fresh bs q sizeof_Queue_t /\ owns h' (<[q := sizeof_Queue_t]> bs) /\ q <> 0 /\
      created_in w w' q (new_queue n 0 (q + sizeof_Queue_t) q))).
Proof using HA.
  intros Hk Ho Hun Hn. destruct (create_outcome n 0 h bs w Hk Ho Hun Hn) as (h' & w' & q & E & Hout);
    [lia|unfold sizeof_Queue_t; lia|]. rewrite Z.mul_0_r, Z.add_0_r in Hout.
  exists h', w', q. split; [done|]. destruct Hout as [?|(Hf & Ho' & Hcr)]; [by left|right].
  pose proof (fr_range _ _ _ Hf). destruct Hcr as [_ Hcr]; [unfold sizeof_Queue_t; lia|]. split_and!; [done|done|lia|done].
Qed.

(** A counting semaphore starts with its initial count of units. *)
Lemma counting_outcome n i h bs w :
  kinv (w_k w) -> owns h bs -> unused_lists (w_k w) bs -> 0 < n < 4294967296 -> 0 <= i <= n ->
  exists h' w' q, xQueueCreateCountingSemaphore n i h w = Some (h', w', q) /\
    ((q = 0 /\ w' = w /\ owns h' bs) \/
     (fresh bs q sizeof_Queue_t /\ owns h' (<[q := sizeof_Queue_t]> bs) /\ kinv (w_k w') /\
      exists c, holds q w' c (replicate (Z.to_nat i) []) /\ uxItemSize c = 0 /\ uxLength c = n)).
Proof using HA.
  intros Hk Ho Hun Hn Hi. destruct (semaphore_outcome n h bs w Hk Ho Hun Hn) as (h' & w' & q & E & Hout).
  unfold xQueueCreateCountingSemaphore. rewrite E. cbn [mbind option_bind].
  destruct Hout as [(-> & -> & Ho')|(Hf & Ho' & Hq & [Hk' Hqs Hm _ _ _])]; [exists h', w, 0; split; [done|by left]|].
  destruct (Z.eqb_spec q 0); [done|]. cbn [negb].
  assert (w_q w' !! q = Some (new_queue n 0 (q + sizeof_Queue_t) q)) as Eq by (by rewrite Hqs, lookup_insert_eq).
  rewrite (upd_queue_eq _ _ _ _ Eq). cbn [mbind option_bind]. do 3 eexists. split; [reflexivity|]. right.
  split_and!; [done..|]. eexists. split; [split; [simpl; by rewrite lookup_insert_eq|]|by split].
  split; simpl; [done|lia|rewrite length_replicate; lia|split; [lia|by apply Forall_replicate]|by left].
Qed.

(** A mutex starts free, beside those that are there. *)
Lemma mutex_outcome h bs w os :
  kinv (w_k w) -> owns h bs -> unused_lists (w_k w) bs -> mutexes_rep w os -> (forall q, is_Some (os !! q) -> is_Some (bs !! q)) ->
  Z.of_nat (size os) + 1 < 4294967296 ->
  exists h' w' q, xQueueCreateMutex h w = Some (h', w', q) /\
    ((q = 0 /\ w' = w /\ owns h' bs) \/
     (fresh bs q sizeof_Queue_t /\ owns h' (<[q := sizeof_Queue_t]> bs) /\ mutexes_rep w' (<[q := (0, 0)]> os))).
Proof using HA.
  intros Hk Ho Hun Hrep Hbs Hsz. destruct (semaphore_outcome 1 h bs w Hk Ho Hun) as (h' & w' & q & E & Hout); [lia|].
  unfold xQueueCreateMutex, prvInitialiseMutex. rewrite E. cbn [mbind option_bind].
  destruct Hout as [(-> & -> & Ho')|(Hf & Ho' & Hq & [Hk' Hqs Hm Hl [Ht _] _])]; [exists h', w, 0; split; [done|by left]|].
  destruct (Z.eqb_spec q 0); [done|]. cbn [negb].
  assert (w_q w' !! q = Some (new_queue 1 0 (q + sizeof_Queue_t) q)) as Eq by (by rewrite Hqs, lookup_insert_eq).
  rewrite (upd_queue_eq _ _ _ _ Eq). cbn [mbind option_bind].
  set (c := set_u1 0 (set_pcHead queueQUEUE_IS_MUTEX (set_u0 0 (new_queue 1 0 (q + sizeof_Queue_t) q)))).
  set (w1 := mkWorld (w_k w') (<[q := c]> (w_q w')) (w_mem w')).
  assert (exists k2, try_send q [] queueSEND_TO_BACK w1 =
    Some (set_kernel k2 (mkWorld (w_k w') (<[q := set_uxMessagesWaiting 1 (set_u0 0 c)]> (w_q w')) (w_mem w')), Some (true, [])) /\
    kinv k2 /\ k_tcbs k2 = k_tcbs (w_k w')) as (k2 & Es & Hk2 & Et2).
  { destruct (send_end q (mkWorld (w_k w') (<[q := set_uxMessagesWaiting 1 (set_u0 0 c)]> (w_q w')) (w_mem w')) false Hk')
      as (k2 & Ew & Hk2 & Et2 & _). exists k2. split; [|by split].
    unfold try_send, w1. cbn [w_q]. rewrite lookup_insert_eq. cbn [mbind option_bind].
    change ((uxMessagesWaiting c <? uxLength c) || _) with true. cbv iota.
    assert (prvCopyDataToQueue q [] queueSEND_TO_BACK (mkWorld (w_k w') (<[q := c]> (w_q w')) (w_mem w')) =
      Some (mkWorld (w_k w') (<[q := set_uxMessagesWaiting 1 (set_u0 0 c)]> (w_q w')) (w_mem w'), false)) as ->.
    { unfold prvCopyDataToQueue. cbn [w_q]. rewrite lookup_insert_eq. cbn [mbind option_bind].
      change (uxItemSize c =? 0) with true. change (uxQueueType c =? queueQUEUE_IS_MUTEX) with true.
      change (xTaskPriorityDisinherit (xMutexHolder c) (w_k (mkWorld (w_k w') (<[q := c]> (w_q w')) (w_mem w'))))
        with (Some (w_k w', false)). cbn [mbind option_bind]. unfold set_kernel. cbn [w_k w_q w_mem].
      rewrite (upd_queue_eq _ _ _ _ (lookup_insert_eq _ _ _)). cbn [mbind option_bind].
      rewrite (upd_queue_eq _ _ _ _ (lookup_insert_eq _ _ _)). cbn [mbind option_bind w_k w_q w_mem].
      by rewrite !insert_insert_eq. }
    cbn [mbind option_bind]. by rewrite Ew. }
  unfold xQueueGenericSend. rewrite (call_now_try (Send [] queueSEND_TO_BACK) q w1 _ _ Es). cbn [mbind option_bind].
  do 3 eexists. split; [reflexivity|]. right. split_and!; [done..|].
  assert (os !! q = None) as Hnew.
  { destruct (os !! q) eqn:Eo; [|done]. destruct (Hbs q) as [b Eb]; [by eexists|]. by rewrite (fr_new _ _ _ Hf) in Eb. }
  apply (new_rep _ os q (set_uxMessagesWaiting 1 (set_u0 0 c))); [|done|apply lookup_insert_eq|by split|done].
  destruct Hrep as [_ Hqs2 Hheld Hs2]. split; [done| | |done]; cbn [w_k w_q set_kernel].
  - intros q' o' Eo'. assert (q' <> q) by congruence. rewrite lookup_insert_ne, Hqs, lookup_insert_ne by done. by apply Hqs2.
  - intros t. unfold live, tcb. rewrite Et2, Ht. apply Hheld.
Qed.

(** The number of bytes is computed in 32 bits: with 2^30 + 1 items of 4 bytes
    the kernel asks for storage of one item, and the queue does not know it. *)
Lemma create_overflow h h' q w : malloc 76 h = Some (h', q) -> q <> 0 ->
  exists w' c, xQueueGenericCreate 1073741825 4 h w = Some (h', w', q) /\ w_q w' !! q = Some c /\
    uxLength c = 1073741825 /\ uxItemSize c = 4.
Proof.
  intros E Hq. unfold xQueueGenericCreate. change (u32 (sizeof_Queue_t + _)) with 76. rewrite E.
  cbn [mbind option_bind]. destruct (Z.eqb_spec q 0); [done|]. cbn [negb].
  unfold prvInitialiseNewQueue, xQueueGenericReset. rewrite (upd_queue_eq _ _ _ _ (lookup_insert_eq _ _ _)).
  cbn [mbind option_bind]. do 2 eexists. split; [reflexivity|]. simpl. by rewrite lookup_insert_eq.
Qed.

(** C20: creating a queue of [n] items of [s] bytes whose size fits in 32 bits
    either fails with NULL and changes nothing, or gives an empty queue in a
    fresh block that holds all its items, leaving every other queue, task and
    waiting list alone; deleting that queue gives the block back and takes its
    name out of the registry.  (The last hypothesis: the block is not within
    the first [s] bytes of memory, where the source's pointer before the first
    item would wrap.) *)
Theorem queue_create_outcome n s h bs w r :
  kinv (w_k w) -> owns h bs -> unused_lists (w_k w) bs ->
  0 < n < 4294967296 -> 0 <= s -> sizeof_Queue_t + n * s < 4294967296 ->
  exists h' w' q, xQueueGenericCreate n s h w = Some (h', w', q) /\
    ((q = 0 /\ w' = w /\ owns h' bs) \/
     (fresh bs q (sizeof_Queue_t + n * s) /\ owns h' (<[q := sizeof_Queue_t + n * s]> bs) /\
      (s <= q + sizeof_Queue_t ->
         kinv (w_k w') /\
         (exists c, holds q w' c [] /\ uxLength c = n /\ uxItemSize c = s /\
            cRxLock c = queueUNLOCKED /\ cTxLock c = queueUNLOCKED /\
            (0 < s -> pcHead c = q + sizeof_Queue_t /\ pcTail c = q + sizeof_Queue_t + n * s)) /\
         (forall q', q' <> q -> w_q w' !! q' = w_q w !! q') /\ w_mem w' = w_mem w /\
         (forall l, klist (w_k w') l = klist (w_k w) l) /\ k_tcbs (w_k w') = k_tcbs (w_k w) /\
         exists h'' w'', vQueueDelete q h' w' r = Some (h'', w'', vQueueUnregisterQueue q r) /\ owns h'' bs /\
           w_q w'' = delete q (w_q w) /\ w_k w'' = w_k w'))).
Proof using HA.
  intros Hk Ho Hun Hn Hs Hfit. destruct (create_outcome n s h bs w Hk Ho Hun Hn Hs Hfit) as (h' & w' & q & E & Hout).
  exists h', w', q. split; [done|]. destruct Hout as [?|(Hf & Ho' & Hcr)]; [by left|right].
  pose proof Hf as [[Hq Hend] Hal Hnew Hap]. split_and!; [done|done|]. intros Hle.
  destruct (Hcr Hle) as [Hst [Hk' Hqs Hm Hl [Ht _] _]]. split_and!; [done| | |done|done|done|].
  - exists (new_queue n s (q + sizeof_Queue_t) q). split_and!; try done.
    + split; [by rewrite Hqs, lookup_insert_eq|]. apply new_queue_rep; [done|lia].
    + intros Hs0. unfold new_queue. destruct (Z.eqb_spec s 0); [lia|]. split; [done|]. apply u32_small.
      unfold sizeof_Queue_t in *. nia.
  - intros q' Hq'. by rewrite Hqs, lookup_insert_ne.
  - destruct (free_ok h' _ q (sizeof_Queue_t + n * s) Ho') as (h'' & Ef & Ho''); [by rewrite lookup_insert_eq|].
    rewrite delete_insert_id in Ho'' by done. unfold vQueueDelete. rewrite Ef. cbn [mbind option_bind].
    do 2 eexists. split; [reflexivity|]. split_and!; [done| |done]. simpl. rewrite Hqs. by rewrite delete_insert_eq.
Qed.
End create.
