(* ===== verification/KernelSample.v ===== *)
(** * A running system, and the kernel's theorems applied to it

    Three tasks, the idle task and two of priority 2, added to the kernel the
    way xTaskCreate does it, and the scheduler started; then the running task
    waits for an event with a time out of one tick. *)

From S2P Require Import Prelude ListSpec Heap4 Allocator Kernel KernelInv KernelTick KernelResume KernelSched KernelEvent KernelTimeout KernelPrio Tasks.
#[local] Open Scope Z_scope.

(** The static variables before main; the pointers to the delayed lists are
    not yet assigned and their value does not matter. *)
Definition boot : Kernel :=
  mkKernel (mkLists ∅ ∅) ∅ 0 LDelayed1 LDelayed1 0 0 0 0 false 0 false 0 0 0 0 false.

Lemma boot_ok : booted boot.
Proof. by split. Qed.

Definition sample_tcb (t p : Z) : TCB_t := mkTCB 0 p (t + 0x100) [] p 0 0 NotWaiting.
Definition add_sample (t p : Z) (k : Kernel) : Kernel :=
  prvAddNewTaskToReadyList t (with_tcb t (7 - p) (sample_tcb t p) k).

Definition created : Kernel := add_sample 0x3000 2 (add_sample 0x2000 2 (add_sample 0x1000 0 boot)).
Definition sample : Kernel := set_xSchedulerRunning true (set_xNextTaskUnblockTime portMAX_DELAY created).

Lemma add_sample_ok k t p : kernel_ok k -> t <> 0 -> k_tcbs k !! t = None -> 0 <= p < 7 ->
  Z.of_nat (size (k_tcbs k)) + 1 < 4294967296 ->
  task_added t (sample_tcb t p) k (add_sample t p k) /\ kernel_ok (add_sample t p k).
Proof.
  intros Hk Ht Hn Hp Hs. assert (task_added t (sample_tcb t p) k (add_sample t p k)) as Ha by (by apply add_new_ok).
  split; [done|by eapply task_added_ok].
Qed.

Lemma created_ok : kernel_ok created.
Proof.
  repeat (apply add_sample_ok; [|discriminate|reflexivity|lia|vm_compute; reflexivity]).
  right. apply boot_ok.
Qed.

(** Starting the scheduler while no task is delayed. *)
Lemma started_ok k : kinv k -> klist k (pxDelayedTaskList k) = [] ->
  kinv (set_xSchedulerRunning true (set_xNextTaskUnblockTime portMAX_DELAY k)).
Proof.
  intros [Hb Hblk [? ? ? ? ?]] Hnil.
  assert (kbase (set_xNextTaskUnblockTime portMAX_DELAY k)) as [].
  { eapply (kbase_set_next (xTickCount k)); [exact Hb|done|]. intros t Ht.
    by apply (proj1 (klist_nil _ _ Hb) Hnil) in Ht. }
  split; [by split|done|by split].
Qed.

Lemma sample_ok : kinv sample.
Proof.
  apply started_ok; [|vm_compute; reflexivity]. destruct created_ok as [[? _]|Hb]; [done|].
  by discriminate (bt_current _ Hb).
Qed.

Lemma sample_running : running sample.
Proof. vm_compute. reflexivity. Qed.

Lemma sample_tasks t : live sample t -> t = 0x1000 \/ t = 0x2000 \/ t = 0x3000.
Proof.
  intros [c Hc]. change (k_tcbs sample) with (<[0x3000 := sample_tcb 0x3000 2]>
    (<[0x2000 := sample_tcb 0x2000 2]> (<[0x1000 := sample_tcb 0x1000 0]> (∅ : gmap Z TCB_t)))) in Hc.
  rewrite !lookup_insert in Hc. repeat case_decide; auto. done.
Qed.

(** The running task, 0x3000, waits for an event for one tick. *)
Definition waiting : Kernel :=
  default sample (vTaskPlaceOnEventList (LEvent 0x9000 0) 1 sample).

Lemma waiting_ok : kinv waiting.
Proof.
  destruct (vTaskPlaceOnEventList_ok sample 0x9000 0 1 sample_ok sample_running) as (k' & E & Hp);
    [lia|]. unfold waiting. rewrite E. apply Hp.
Qed.

(** ** The theorems at work *)

Lemma tick_wakes_exactly_witness :
  remaining waiting 0x3000 = Some 1 /\
  exists k' sw, xTaskIncrementTick waiting = Some (k', sw) /\
    kcontainer k' (IState 0x3000) = Some (LReady 2) /\ kcontainer k' (IEvent 0x3000) = None.
Proof.
  assert (remaining waiting 0x3000 = Some 1) as Hr by (vm_compute; reflexivity).
  split; [exact Hr|].
  destruct (tick_wakes_exactly waiting waiting_ok eq_refl) as (k' & sw & E & _ & _ & _ & Hw & _).
  exists k', sw. split; [exact E|]. exact (Hw 0x3000 Hr).
Defined.

Lemma delay_wakes_on_time_witness :
  exists k1, vTaskDelay 3 sample = Some k1 /\
    exists k2, tick_n 3 k1 = Some k2 /\ kcontainer k2 (IState 0x3000) = Some (LReady 2).
Proof.
  destruct (delay_wakes_on_time sample 3 sample_ok sample_running eq_refl)
    as (k1 & E1 & _ & _ & _ & Hn); [lia|].
  exists k1. split; [exact E1|]. destruct (Hn 3%nat) as (k2 & E2 & _ & _ & Hd).
  exists k2. split; [exact E2|]. apply Hd. lia.
Defined.

Lemma suspended_ticks_not_lost_witness :
  exists ks ys k2, sys_ticks 5 (vTaskSuspendAll sample) = Some (ks, ys) /\ xTickCount ks = 0 /\
    xTaskResumeAll ks = Some (k2, true) /\ kinv k2 /\ xYieldPending k2 = true /\ xTickCount k2 = 5.
Proof.
  destruct (suspended_ticks_not_lost sample 5 sample_ok sample_running eq_refl)
    as (ks & ys & k1 & y & E1 & Et & _ & E2 & _ & E3 & Hi); [lia|].
  assert (y = true /\ xTickCount k1 = 5) as [-> Hc] by (vm_compute in E2; by injection E2 as <- <-).
  eexists ks, ys, _. split_and!; [exact E1|exact Et|exact E3|exact Hi|reflexivity|exact Hc].
Defined.

Lemma switch_runs_highest_witness :
  is_ready sample 0x2000 /\ exists k', vTaskSwitchContext sample = Some k' /\ running k' /\ cur_prio k' >= 2.
Proof.
  assert (is_ready sample 0x2000) as Hr by (vm_compute; reflexivity).
  split; [exact Hr|].
  destruct (switch_runs_highest sample 0x2000 sample_ok Hr) as (k' & E & _ & _ & Hs).
  destruct (Hs eq_refl) as (Hrun & _ & Hmax & _). exists k'. split_and!; [exact E|exact Hrun|].
  pose proof (Hmax 0x2000 Hr) as Hle. change (uxPriority (tcb sample 0x2000)) with 2 in Hle. lia.
Defined.

Lemma switches_take_turns_witness :
  exists k' ts, switch_n 2 sample = Some (k', ts) /\ (ts ≡ₚ [0x2000; 0x3000]) /\ NoDup ts.
Proof.
  destruct (switches_take_turns sample 2 sample_ok eq_refl) as (k' & ts & E & Hp & Hn).
  - vm_compute. discriminate.
  - intros t Ht. pose proof (ki_state (kinv_base _ sample_ok) _ _ Ht) as [Hl _].
    apply sample_tasks in Hl as [->|[->| ->]]; vm_compute; discriminate.
  - exists k', ts. split_and!; [exact E|exact Hp|exact Hn].
Defined.

Lemma timeout_counts_ticks_witness :
  exists k', tick_n 4 sample = Some k' /\
    xTaskCheckForTimeOut (vTaskSetTimeOutState sample) 10 k' = (false, vTaskSetTimeOutState k', 6).
Proof.
  destruct (tick_n_kinv 4 sample sample_ok eq_refl) as (k' & E & _). exists k'. split; [exact E|].
  rewrite (timeout_counts_ticks sample 4 k' 10 sample_ok eq_refl E); [reflexivity|lia|lia].
Defined.

(** The idle task holds a mutex the running task wants. *)
Definition holding : Kernel := upd_tcb 0x1000 (set_uxMutexesHeld 1) sample.

Lemma holding_ok : kinv holding.
Proof. apply (adjusted_held sample 0x1000 1 sample_ok). by eexists. Qed.

Lemma priority_lent_and_returned_witness :
  exists k1, xTaskPriorityInherit 0x1000 holding = Some (k1, true) /\ uxPriority (tcb k1 0x1000) = 2 /\
    exists k2, vTaskPriorityDisinheritAfterTimeout 0x1000 0 holding = Some k2 /\ uxPriority (tcb k2 0x1000) = 0.
Proof.
  destruct (priority_lent_and_returned holding holding_ok) as (Hlend & _ & Htimeout & _).
  - vm_compute. reflexivity.
  - vm_compute. discriminate.
  - destruct (Hlend 0x1000) as (k1 & E1 & _ & Hp1 & _); [by eexists|discriminate|].
    change (uxBasePriority (tcb holding 0x1000) <? cur_prio holding) with true in E1.
    exists k1. split; [exact E1|]. split; [exact Hp1|].
    destruct (Htimeout 0x1000 0) as (k2 & E2 & _ & _ & Hp2 & _); [by eexists|discriminate|vm_compute; discriminate|vm_compute; split; [discriminate|reflexivity]|..].
    + intros _ H. exfalso. apply H. vm_compute. reflexivity.
    + exists k2. split; [exact E2|exact Hp2].
Defined.

(** The holder has priority 1, alone, when a waiter that runs above it times out
    (it was raised itself while it waited): the list of priority 1 is empty
    then, its bit stays set, and once the other tasks sleep the scheduler looks
    for the next task in the empty list and finds none, although the holder is
    ready. *)
Definition raised : Kernel := reprioritised 0x1000 1 None holding.
Lemma raised_ok : kinv raised.
Proof. apply (reprioritised_ok holding 0x1000 1 None holding_ok); [by eexists|vm_compute; split; [discriminate|reflexivity]]. Qed.
Definition others_sleep (k : Kernel) : option Kernel :=
  k ← vTaskDelay 10 k; k ← vTaskSwitchContext k; vTaskDelay 10 k.
Lemma timeout_loses_ready_task :
  (exists k, others_sleep raised = Some k /\ is_ready k 0x1000 /\ (pxCurrentTCB <$> vTaskSwitchContext k) = Some 0x1000) /\
  (exists k0 k, vTaskPriorityDisinheritAfterTimeout 0x1000 0 raised = Some k0 /\ others_sleep k0 = Some k /\
     is_ready k 0x1000 /\ vTaskSwitchContext k = None).
Proof.
  assert (exists k, others_sleep raised = Some k) as [k E] by (vm_compute; by eexists).
  assert (exists k0, vTaskPriorityDisinheritAfterTimeout 0x1000 0 raised = Some k0) as [k0 E0] by (vm_compute; by eexists).
  split.
  - exists k. split; [done|]. vm_compute in E. injection E as <-. vm_compute. by split.
  - assert (exists k', others_sleep k0 = Some k') as [k' E'] by (vm_compute in E0; injection E0 as <-; vm_compute; by eexists).
    exists k0, k'. split; [done|]. split; [done|]. vm_compute in E0. injection E0 as <-. vm_compute in E'. injection E' as <-. vm_compute. by split.
Qed.


(** The first task of a fresh system, allocated by heap_4.c. *)
Definition boot_system : System Heap := mkSystem boot heap0 ∅.
Definition idle_name : list Z := [73; 68; 76; 69; 0].

Lemma task_create_outcome_witness :
  exists s' t,
    @xTaskCreate Heap (heap4 0x20000003 0x20030000 77) (repeat 0 16) 0x08001000 0x08002000
      (Some idle_name) 256 0 9 boot_system = Some (s', t) /\
    kinv (sys_k s') /\ uxPriority (tcb (sys_k s') t) = 6.
Proof.
  assert (layout 0x20000003 0x20030000) as Hl by (vm_compute; intuition discriminate).
  assert (@owns Heap (heap4 0x20000003 0x20030000 77) heap0 ∅) as Ho.
  { exists (initial_segs 0x20000003). split; [by left|]. intros p w E. by rewrite lookup_empty in E. }
  assert (task_mem boot ∅) as Hm.
  { assert (forall t, ~ live boot t) as Hno by (intros t [c Hc]; change ((∅ : gmap Z TCB_t) !! t = Some c) in Hc; by rewrite lookup_empty in Hc).
    split; intros t; intros; exfalso; by apply (Hno t). }
  destruct (@task_create_outcome Heap (heap4 0x20000003 0x20030000 77)
    (heap4_ok 0x20000003 0x20030000 77 Hl) (repeat 0 16) 0x08001000 0x08002000 (Some idle_name)
    256 0 9 boot_system ∅ (idle_name ++ repeat 0 11)) as (s' & t & E & Hout).
  - right. apply boot_ok.
  - exact Hm.
  - exact Ho.
  - lia.
  - lia.
  - vm_compute. reflexivity.
  - exists s', t. split; [exact E|]. destruct Hout as [(Ht & _)|(c & _ & _ & Hadd & _ & Hp & _)].
    + exfalso. apply (f_equal (option_map snd)) in E. vm_compute in E. injection E as E.
      rewrite Ht in E. discriminate.
    + split; [apply Hadd|]. unfold tcb. rewrite (ta_tcbs _ _ _ _ Hadd), lookup_insert_eq. exact Hp.
Defined.

(** An allocator whose memory is all handed out: it only takes blocks back. *)
Definition handed_out : Allocator (gmap Z Z) :=
  mkAllocator _ (fun _ h => Some (h, 0)) (fun p h => Some (delete p h)) (fun h bs => h = bs).
Lemma handed_out_ok : @AllocatorOk _ handed_out.
Proof.
  split.
  - intros h bs w Ho _. exists h, 0. split; [done|]. by left.
  - intros h bs p w Ho _. simpl in *. subst. by eexists.
Qed.

Definition sample_blocks : gmap Z Z :=
  list_to_map [(0x1000, 84); (0x1100, 1024); (0x2000, 84); (0x2100, 512); (0x3000, 84); (0x3100, 512)].

Lemma sample_mem : task_mem sample sample_blocks.
Proof.
  split.
  - intros t [->|[->| ->]]%sample_tasks; (split; [vm_compute; reflexivity|lia]).
  - intros t [->|[->| ->]]%sample_tasks; by eexists.
  - intros t u [->|[->| ->]]%sample_tasks [->|[->| ->]]%sample_tasks; vm_compute;
      (reflexivity || discriminate).
  - intros t u [->|[->| ->]]%sample_tasks [->|[->| ->]]%sample_tasks; vm_compute;
      (reflexivity || discriminate).
Qed.

Definition sample_system : System (gmap Z Z) := mkSystem sample sample_blocks ∅.

Lemma task_delete_outcome_witness :
  exists s', @vTaskDelete _ handed_out 0x2000 sample_system = Some s' /\
    kinv (sys_k s') /\ ~ live (sys_k s') 0x2000 /\ sys_h s' !! 0x2100 = None.
Proof.
  destruct (@task_delete_outcome _ handed_out handed_out_ok 0x2000 sample_system sample_blocks)
    as (s' & E & Hout).
  - apply sample_ok.
  - apply sample_mem.
  - reflexivity.
  - vm_compute. discriminate.
  - vm_compute. discriminate.
  - vm_compute. discriminate.
  - exists s'. split; [exact E|]. rewrite decide_False in Hout by (vm_compute; discriminate).
    destruct Hout as (Hg & Ho & _). cbv [owns handed_out] in Ho. split_and!.
    + apply Hg.
    + intros [c Hc]. rewrite (tg_tcbs _ _ _ Hg) in Hc. by rewrite lookup_delete_eq in Hc.
    + rewrite Ho. vm_compute. reflexivity.
Defined.

(** The running task has deleted itself. *)
Definition ended_system : System (gmap Z Z) :=
  default sample_system (@vTaskDelete _ handed_out 0 sample_system).

Lemma ended_system_ok : kinv (sys_k ended_system) /\ k_tcbs (sys_k ended_system) = k_tcbs sample /\
  sys_h ended_system = sample_blocks.
Proof.
  assert (unlinked 0x3000 sample (default sample (
    '(k, n) ← uxListRemove (IState 0x3000) sample;
    remove_event_item 0x3000 (if n =? 0 then taskRESET_READY_PRIORITY (uxPriority (tcb k 0x3000)) k else k)))) as Hun.
  { destruct (unlink_ok sample 0x3000 (LReady 2) (kinv_base _ sample_ok)) as (k1 & n & k2 & E1 & E2 & Hun);
      [vm_compute; reflexivity|]. rewrite E1. cbn [mbind option_bind]. by rewrite E2. }
  pose proof (ended_ok sample 0x3000 _ 4 sample_ok sample_running eq_refl Hun) as Hend.
  split; [|split]; [|vm_compute; reflexivity..].
  pose proof (te_kinv _ _ _ Hend) as Hk. match type of Hk with kinv ?k =>
    assert (sys_k ended_system = k) as -> by (vm_compute; reflexivity) end. exact Hk.
Qed.

Lemma idle_frees_ended_witness :
  exists s', @prvIdleTask _ handed_out ended_system = Some s' /\
    ~ live (sys_k s') 0x3000 /\ sys_h s' !! 0x3100 = None.
Proof.
  destruct ended_system_ok as (Hk & Ht & Hh).
  destruct (@idle_frees_ended _ handed_out handed_out_ok ended_system sample_blocks)
    as (s' & bs' & E & Ho & Hcl & _).
  - exact Hk.
  - apply (task_mem_same sample); [exact Ht|apply sample_mem].
  - exact Hh.
  - exists s'. split; [exact E|].
    assert (kcontainer (sys_k ended_system) (IState 0x3000) = Some LTermination) as Hterm by (vm_compute; reflexivity).
    split.
    + intros Hl. apply (cl_live _ _ _ _ Hcl 0x3000) in Hl as [_ Hl]. exact (Hl Hterm).
    + destruct (sys_h s' !! 0x3100) as [w|] eqn:Ew; [|done]. exfalso. cbv [owns handed_out] in Ho. subst bs'.
      apply (cl_blocks _ _ _ _ Hcl) in Ew as [_ Hall]. destruct (Hall 0x3000 Hterm) as [_ Hne]. by apply Hne.
Defined.
