(* ===== verification/QueueSample.v ===== *)
(** * The queue theorems applied to a running system

    A queue of two messages of two bytes, at address 0x9000, in the kernel of
    [KernelSample]; no task waits on it. *)

From S2P Require Import Prelude ListSpec Heap4 Allocator Kernel KernelInv KernelTick KernelResume KernelSched KernelEvent KernelPrio KernelWait Queue QueueSpec QueueBlock QueueMutex QueueCreate KernelSample.
#[local] Open Scope Z_scope.

Definition empty_world : World := mkWorld sample ∅ ∅.
Definition world_with (n s : Z) : World := default empty_world (prvInitialiseNewQueue n s 0x9048 0x9000 empty_world).
Definition sample_world : World := world_with 2 2.
Definition sample_queue : Queue_t := new_queue 2 2 0x9048 0x9000.

Lemma sample_fits : storage_fits 2 2 0x9048.
Proof. unfold storage_fits. lia. Qed.

Lemma world_with_ok n s : storage_fits n s 0x9048 -> kinv (w_k (world_with n s)) /\
  holds 0x9000 (world_with n s) (new_queue n s 0x9048 0x9000) [] /\ calm 0x9000 0x3000 0 (w_k (world_with n s)).
Proof.
  intros Hfits. assert (uxSchedulerSuspended (w_k (world_with n s)) = 0 /\ uxPendedTicks (w_k (world_with n s)) = 0) as [Hs Hp] by (split; vm_compute; reflexivity).
  destruct (initialise_ok n s 0x9048 0x9000 empty_world sample_ok Hfits) as
    (k' & E & Hk & Hl & Ht & Hc & Hi); [discriminate|vm_compute; reflexivity..|].
  assert (klist sample (xTasksWaitingToReceive 0x9000) = []) as Hnil by (vm_compute; reflexivity).
  assert (world_with n s = mkWorld k' (<[0x9000 := new_queue n s 0x9048 0x9000]> ∅) ∅) as Ew by (unfold world_with; rewrite E; reflexivity).
  rewrite Ew in *. cbn [w_k] in *. change (w_k empty_world) with sample in *. change (pxCurrentTCB sample) with 0x3000 in Hc.
  split; [exact Hk|]. split.
  - split; [exact (lookup_insert_eq ∅ 0x9000 _)|]. by apply new_queue_rep.
  - split; [split; [exact Hk|exact Hc|exact Hs|exact Hp]| | |by rewrite Hl].
    + unfold running. rewrite Hc, Hi. unfold tcb. rewrite Ht. vm_compute; reflexivity.
    + rewrite Hl. vm_compute; reflexivity.
Qed.

Lemma sample_world_ok : kinv (w_k sample_world) /\ holds 0x9000 sample_world sample_queue [] /\
  running (w_k sample_world) /\ pxCurrentTCB (w_k sample_world) = 0x3000 /\
  klist (w_k sample_world) (xTasksWaitingToReceive 0x9000) = [].
Proof. destruct (world_with_ok 2 2 sample_fits) as (Hk & Hh & [[_ Hc _ _] Hr _ Hw]). by split_and!. Qed.

Lemma sample_calm : calm 0x9000 0x3000 0 (w_k sample_world).
Proof. apply (world_with_ok 2 2 sample_fits). Qed.

Definition sample_ops : list queue_op :=
  [OpSend [1; 2] queueSEND_TO_BACK; OpSendFromISR [3; 4] queueSEND_TO_FRONT; OpSend [5; 6] queueSEND_TO_BACK;
   OpPeek; OpReceive; OpReceiveFromISR; OpReceive; OpSpaces].

Lemma queue_programs_refine_witness : exists w', run_queue_ops 0x9000 sample_ops sample_world =
  Some (w', [Ans true []; Ans true []; Ans false []; Ans true [3; 4]; Ans true [3; 4]; Ans true [1; 2];
             Ans false []; Count 2]) /\ kinv (w_k w').
Proof.
  destruct sample_world_ok as (Hk & Hh & _).
  destruct (queue_programs_refine 0x9000 sample_queue [] sample_ops sample_world Hk Hh) as (w' & E & Hk' & _).
  - repeat constructor; simpl; try lia; discriminate.
  - exists w'. split; [exact E|exact Hk'].
Defined.

(** The interrupt comes when the queue is locked, between the two steps of the
    unlocking, and when the receiver sleeps. *)
Lemma receive_no_lost_wakeup_witness :
  Forall (fun i => exists w1 c1 w2 y w3, run_call i (xQueueReceive 0x9000 5) sample_world = Some (w1, inr c1) /\
    xQueueGenericSendFromISR 0x9000 [7; 8] queueSEND_TO_BACK w1 = Some (w2, true, y) /\
    run_call 8 c1 w2 = Some (w3, inl (true, [7; 8]))) [4; 7; 9]%nat.
Proof.
  destruct sample_world_ok as (_ & Hh & _). repeat constructor.
  all: match goal with |- context [run_call ?i] =>
    destruct (receive_no_lost_wakeup 0x9000 0x3000 5 sample_world sample_queue [7; 8] i)
      as (w1 & c1 & w2 & y & w3 & E1 & E2 & _ & E3 & _);
    [lia|exact sample_calm|exact Hh|reflexivity|reflexivity|reflexivity|lia|];
    exists w1, c1, w2, y, w3; split; [exact E1|split; [exact E2|exact E3]] end.
Defined.

Lemma receive_times_out_witness :
  exists w1 c1 k w2, run_call 9 (xQueueReceive 0x9000 5) sample_world = Some (w1, inr c1) /\
    tick_n 5 (w_k w1) = Some k /\ run_call 8 c1 (set_kernel k w1) = Some (w2, inl (false, [])).
Proof.
  destruct sample_world_ok as (_ & Hh & _).
  destruct (receive_times_out 0x9000 0x3000 5 sample_world sample_queue)
    as (w1 & c1 & E1 & _ & k & w2 & E2 & _ & _ & E3 & _);
    [lia|exact sample_calm|exact Hh|reflexivity|reflexivity|].
  exists w1, c1, k, w2. split; [exact E1|split; [exact E2|exact E3]].
Defined.

(** A free recursive mutex; task 0x3000 takes it, task 0x2000 gets to run and
    tries in vain. *)
Definition free_mutex : Queue_t := mkQueue 0 0 0 0 1 1 0 (-1) (-1).
Definition mutex_world : World := mkWorld sample {[0xA000 := free_mutex; 0xB000 := free_mutex]} ∅.
Definition free_mutexes : gmap Z Owner := {[0xA000 := (0, 0); 0xB000 := (0, 0)]}.
Definition mutex_taken : World := default mutex_world (fst <$> run_mutex_op 0xA000 MTakeRecursive mutex_world).
Definition both_taken : World := default mutex_world (fst <$> run_mutex_op 0xB000 MTake mutex_taken).
Definition mutex_wanted : World := set_kernel (set_pxCurrentTCB 0x2000 (w_k both_taken)) both_taken.

Lemma mutex_world_ok : mutexes_rep mutex_world free_mutexes.
Proof.
  split; [exact sample_ok| | |done].
  - intros q o. unfold free_mutexes. rewrite !lookup_insert. repeat case_decide; subst; intros E; simplify_map_eq;
      (exists free_mutex; split; [done|by split]).
  - intros t [->|[->| ->]]%sample_tasks; (split; [discriminate|vm_compute; reflexivity]).
Qed.

(** A task takes two mutexes; another wants the first. *)
Lemma mutex_runs_refine_witness : exists os,
  accepts_trace free_mutexes [ECall 0x3000 0xA000 MTakeRecursive true; ECall 0x3000 0xB000 MTake true; ECall 0x2000 0xA000 MTake false] = Some os /\
  mutexes_rep mutex_wanted os /\ os !! 0xA000 = Some (0x3000, 1) /\ os !! 0xB000 = Some (0x3000, 0).
Proof.
  assert (running (w_k mutex_world)) as Hr0 by exact sample_running.
  assert (run_mutex_op 0xA000 MTakeRecursive mutex_world = Some (mutex_taken, true)) as E1 by (vm_compute; reflexivity).
  assert (run_mutex_op 0xB000 MTake mutex_taken = Some (both_taken, true)) as E2 by (vm_compute; reflexivity).
  assert (running (w_k mutex_taken)) as Hr1 by (vm_compute; reflexivity).
  assert (kinv (w_k both_taken)) as Hk2.
  { destruct (run_mutexes_ok 0xA000 MTakeRecursive mutex_world free_mutexes (0, 0) mutex_world_ok Hr0) as (w1 & F1 & Hm1 & _); [reflexivity|discriminate|].
    rewrite E1 in F1. injection F1 as <-.
    destruct (run_mutexes_ok 0xB000 MTake mutex_taken _ (0, 0) Hm1 Hr1) as (w2 & F2 & [Hm2 _ _ _] & _); [vm_compute; reflexivity|discriminate|].
    rewrite E2 in F2. injection F2 as <-. exact Hm2. }
  destruct (mutex_runs_refine {[0xA000; 0xB000]} mutex_world free_mutexes
    [ECall 0x3000 0xA000 MTakeRecursive true; ECall 0x3000 0xB000 MTake true; ECall 0x2000 0xA000 MTake false] mutex_wanted) as (os & Ha & Hm & _).
  - exact mutex_world_ok.
  - vm_compute. reflexivity.
  - apply (run_op _ 0xA000 mutex_world MTakeRecursive mutex_taken true); [exact Hr0|set_solver|exact E1|].
    apply (run_op _ 0xB000 mutex_taken MTake both_taken true); [exact Hr1|set_solver|exact E2|].
    apply (run_else _ both_taken mutex_wanted).
    + apply switch_elsewhere; [exact Hk2|vm_compute; reflexivity].
    + apply (run_op _ 0xA000 mutex_wanted MTake mutex_wanted false); [vm_compute; reflexivity|set_solver|vm_compute; reflexivity|]. apply run_done.
  - split; [discriminate|]. split; [discriminate|]. split; [discriminate|exact I].
  - exists os. split; [exact Ha|]. split; [exact Hm|]. vm_compute in Ha. injection Ha as <-. split; reflexivity.
Defined.

(** Two messages of four bytes, in the heap of heap_4.c; then the queue is
    deleted. *)
Lemma queue_create_outcome_witness :
  exists h' w' q, @xQueueGenericCreate Heap (heap4 0x20000003 0x20030000 77) 2 4 heap0 empty_world = Some (h', w', q) /\
    kinv (w_k w') /\ q = 0x20000010.
Proof.
  assert (layout 0x20000003 0x20030000) as Hl by (vm_compute; intuition discriminate).
  assert (@owns Heap (heap4 0x20000003 0x20030000 77) heap0 ∅) as Ho.
  { exists (initial_segs 0x20000003). split; [by left|]. intros p w E. by rewrite lookup_empty in E. }
  assert (unused_lists sample ∅) as Hun.
  { intros q n _. apply (klist_nil _ _ (kinv_base _ sample_ok)). intros i Hi.
    destruct (event_item _ _ _ (kinv_base _ sample_ok) Hi I) as [u ->].
    pose proof (ki_event (kinv_base _ sample_ok) _ _ Hi) as [Hu _]. revert Hi.
    apply sample_tasks in Hu as [->|[->| ->]]; vm_compute; discriminate. }
  destruct (@queue_create_outcome Heap (heap4 0x20000003 0x20030000 77) (heap4_ok 0x20000003 0x20030000 77 Hl)
    2 4 heap0 ∅ empty_world empty_registry sample_ok Ho Hun) as (h' & w' & q & E & Hout);
    [lia|lia|vm_compute; reflexivity|].
  assert (q = 0x20000010) as Hq by (apply (f_equal (option_map snd)) in E; vm_compute in E; injection E as <-; reflexivity).
  exists h', w', q. split; [exact E|].
  destruct Hout as [(H0 & _)|(_ & _ & Hcr)]; [exfalso; rewrite Hq in H0; discriminate|].
  destruct Hcr as (Hk & _); [rewrite Hq; vm_compute; discriminate|]. split; [exact Hk|exact Hq].
Defined.
