(* ===== verification/Logger.v ===== *)
(** * Logger.cpp and Uart.hpp: the circular log

    The static members are a record; characters are bytes.  A message is given
    as the text that printf's formatting produces from it; what the source does
    with the text, its length and its buffers is modelled, [None] being a write
    or read outside of an array. *)

From S2P Require Import Prelude.
#[local] Open Scope Z_scope.

Definition LOG_BUFFER_SIZE : Z := 4096.
Definition MAX_LOG_MSG : Z := 256.

Record Logger := mkLogger {
  m_buffer : list Z;
  m_writePos : Z;
  m_readPos : Z;
  m_bufferFull : bool
}.

(** ** C strings and the UART *)

(** The bytes before the terminating NUL. *)
Fixpoint cstring (bs : list Z) : list Z :=
  match bs with [] => [] | b :: bs => if b =? 0 then [] else b :: cstring bs end.
Definition chars (s : string) : list Z := map (fun a => Z.of_nat (Ascii.nat_of_ascii a)) (String.list_ascii_of_string s).
Definition crlf : list Z := [13; 10].

(** [a[i] = b] in a local array. *)
Definition store (a : list Z) (i b : Z) : option (list Z) :=
  if (0 <=? i) && (i <? Z.of_nat (length a)) then Some (<[Z.to_nat i := b]> a) else None.

(** What was handed to HAL_UART_Transmit, in order. *)
Definition uart_print (bs : list Z) (u : list Z) : list Z := u ++ cstring bs.
Definition uart_println (bs : list Z) (u : list Z) : list Z := uart_print crlf (uart_print bs u).

(** Printing an array: strlen reads up to the NUL, which has to be there. *)
Definition uart_print_array (a u : list Z) : option (list Z) :=
  if bool_decide (0 ∈ a) then Some (uart_print a u) else None.

(** [%lu]. *)
Fixpoint udec (fuel : nat) (n : Z) : list Z :=
  match fuel with
  | O => []
  | S fuel => (if n <? 10 then [] else udec fuel (n / 10)) ++ [48 + n mod 10]
  end.
Definition print_ulong (n : Z) : list Z := udec 10 n.

(** [snprintf(&buf[off], size, ...)] of a text: at most [size - 1] bytes and
    a NUL are written; the length of the text is returned. *)
Definition snprintf (buf : list Z) (off size : Z) (text : list Z) : option (list Z * Z) :=
  if size =? 0 then Some (buf, Z.of_nat (length text))
  else
    let bs := take (Z.to_nat (size - 1)) text ++ [0] in
    if off + Z.of_nat (length bs) <=? Z.of_nat (length buf)
    then Some (splice (Z.to_nat off) bs buf, Z.of_nat (length text)) else None.

(** ** The logger *)

Definition logger_init : Logger := mkLogger (repeat 0 (Z.to_nat LOG_BUFFER_SIZE)) 0 0 false.
Definition logger_clear (l : Logger) : Logger := logger_init.

Definition _write (data : list Z) (len : Z) (l : Logger) : option Logger :=
  if len =? 0 then Some l
  else if m_writePos l + len >=? LOG_BUFFER_SIZE then
    let firstPart := u16 (LOG_BUFFER_SIZE - m_writePos l) in
    b ← (if firstPart >? 0 then memcpy_bytes (m_buffer l) (m_writePos l) data 0 firstPart else Some (m_buffer l));
    let secondPart := u16 (len - firstPart) in
    b ← memcpy_bytes b 0 data firstPart secondPart;
    Some (mkLogger b secondPart (m_readPos l) true)
  else
    b ← memcpy_bytes (m_buffer l) (m_writePos l) data 0 len;
    Some (mkLogger b (u16 (m_writePos l + len)) (m_readPos l) (m_bufferFull l)).

(** The end of both ways to log: the line end, the clipped length, the write. *)
Definition finish_log (msgBuffer : list Z) (len : Z) (l : Logger) : option Logger :=
  '(msgBuffer, n) ← snprintf msgBuffer len (u32 (MAX_LOG_MSG - len)) crlf;
  let len := len + n in
  let len := if len >? MAX_LOG_MSG then MAX_LOG_MSG else len in
  _write msgBuffer (u16 len) l.

(** [stack] is what the local array held before. *)
Definition logger_log (stack : list Z) (text : list Z) (l : Logger) : option Logger :=
  '(msgBuffer, len) ← snprintf stack 0 MAX_LOG_MSG text;
  finish_log msgBuffer len l.

Inductive Level := ERR | WRN | INF | DBG.
Definition level_name (v : Level) : list Z :=
  match v with ERR => chars "ERR" | WRN => chars "WRN" | INF => chars "INF" | DBG => chars "DBG" end.
(** "[%s][%lu] ". *)
Definition log_header (v : Level) (timestamp : Z) : list Z :=
  chars "[" ++ level_name v ++ chars "][" ++ print_ulong timestamp ++ chars "] ".

Definition _logWithLevel (stack : list Z) (v : Level) (timestamp : Z) (text : list Z) (l : Logger) : option Logger :=
  '(msgBuffer, len) ← snprintf stack 0 MAX_LOG_MSG (log_header v timestamp);
  if len >? 0 then
    '(msgBuffer, n) ← snprintf msgBuffer len (u32 (MAX_LOG_MSG - len)) text;
    finish_log msgBuffer (len + n) l
  else Some l.

Definition getUnreadCount (l : Logger) : Z :=
  if m_bufferFull l then LOG_BUFFER_SIZE
  else if m_writePos l >=? m_readPos l then u16 (m_writePos l - m_readPos l)
  else u16 (LOG_BUFFER_SIZE - m_readPos l + m_writePos l).

(** The local array of flush, the number of bytes in it, and the UART. *)
Definition Gather : Type := list Z * Z * list Z.
Definition SIZEOF_TEMPBUF : Z := 256.

(** The body of the copying loops: [tempBuf[tempLen++] = b], printed when 255
    bytes are there. *)
Definition flush_byte (b : Z) (st : Gather) : option Gather :=
  let '(tempBuf, tempLen, u) := st in
  tempBuf ← store tempBuf tempLen b;
  let tempLen := u16 (tempLen + 1) in
  if tempLen >=? SIZEOF_TEMPBUF - 1 then
    tempBuf ← store tempBuf tempLen 0; u ← uart_print_array tempBuf u; Some (tempBuf, 0, u)
  else Some (tempBuf, tempLen, u).

(** [for (uint16_t i = from; i < to_; i++)] over [m_buffer]. *)
Fixpoint flush_loop (fuel : nat) (buffer : list Z) (i to_ : Z) (st : Gather) : option Gather :=
  match fuel with
  | O => None
  | S fuel =>
    if i <? to_ then b ← buffer !! Z.to_nat i; st ← flush_byte b st; flush_loop fuel buffer (u16 (i + 1)) to_ st
    else Some st
  end.
(** Flush remaining data. *)
Definition flush_end (st : Gather) : option (list Z) :=
  let '(tempBuf, tempLen, u) := st in
  if tempLen >? 0 then tempBuf ← store tempBuf tempLen 0; uart_print_array tempBuf u else Some u.
(** No range of the buffer is longer. *)
Definition flush_fuel : nat := S (Z.to_nat LOG_BUFFER_SIZE).

(** The two branches of flush: the bytes from [m_readPos] to [m_writePos], around
    the end if the buffer wrapped. *)
Definition flush_ranges (l : Logger) (st : Gather) : option (Logger * Gather) :=
  if negb (m_bufferFull l) then
    st ← (if m_readPos l <? m_writePos l then flush_loop flush_fuel (m_buffer l) (m_readPos l) (m_writePos l) st else Some st);
    Some (mkLogger (m_buffer l) (m_writePos l) (m_writePos l) (m_bufferFull l), st)
  else
    st ← flush_loop flush_fuel (m_buffer l) (m_readPos l) LOG_BUFFER_SIZE st;
    st ← flush_loop flush_fuel (m_buffer l) 0 (m_writePos l) st;
    Some (mkLogger (m_buffer l) (m_writePos l) (m_writePos l) false, st).

(** [tempBuf] is what the local array held before. *)
Definition logger_flush (tempBuf : list Z) (l : Logger) (u : list Z) : option (Logger * list Z) :=
  let count := getUnreadCount l in
  if count =? 0 then Some (l, uart_println (chars "--- No logs ---") u)
  else
    let u := uart_println (crlf ++ chars "=== LOGS ===") u in
    '(l, st) ← flush_ranges l (tempBuf, 0, u);
    u ← flush_end st;
    Some (l, uart_println (crlf ++ chars "=== END ===" ++ crlf) u).

(** ** The log as a first-in first-out buffer *)

(** [bs] was written since the last flush and is all still there. *)
Record log_rep (l : Logger) (bs : list Z) : Prop := mkLogRep {
  lr_size : length (m_buffer l) = 4096%nat;
  lr_read : 0 <= m_readPos l < 4096;
  lr_fits : (length bs <= 4096)%nat;
  lr_write : m_writePos l = (m_readPos l + Z.of_nat (length bs)) mod 4096;
  lr_full : m_bufferFull l = (4096 <=? m_readPos l + Z.of_nat (length bs));
  lr_bytes : forall i b, bs !! i = Some b ->
    m_buffer l !! Z.to_nat ((m_readPos l + Z.of_nat i) mod 4096) = Some b
}.

(** Positions of the ring, without the division. *)
Lemma ring_pos r i : 0 <= r < 4096 -> 0 <= i <= 4096 ->
  (r + i) mod 4096 = if r + i <? 4096 then r + i else r + i - 4096.
Proof.
  intros Hr Hi. destruct (Z.ltb_spec (r + i) 4096); [apply Z.mod_small; lia|].
  replace (r + i) with (r + i - 4096 + 1 * 4096) at 1 by lia. rewrite Z_mod_plus_full. apply Z.mod_small. lia.
Qed.

(** What _write does to the array: the bytes go to the positions from
    [m_writePos] on, around the end. *)
Lemma _write_buffer l data n :
  length (m_buffer l) = 4096%nat -> 0 <= m_writePos l < 4096 -> 0 <= n <= 256 -> n <= Z.of_nat (length data) ->
  exists l', _write data n l = Some l' /\ length (m_buffer l') = 4096%nat /\ m_readPos l' = m_readPos l /\
    m_writePos l' = (m_writePos l + n) mod 4096 /\
    m_bufferFull l' = m_bufferFull l || (4096 <=? m_writePos l + n) /\
    forall p, 0 <= p < 4096 -> m_buffer l' !! Z.to_nat p =
      if (p - m_writePos l) mod 4096 <? n then data !! Z.to_nat ((p - m_writePos l) mod 4096)
      else m_buffer l !! Z.to_nat p.
Proof.
  intros Hs Hw Hn Hd. unfold _write. destruct (Z.eqb_spec n 0) as [->|Hn0].
  { exists l. rewrite Z.add_0_r, Z.mod_small by lia. rewrite (proj2 (Z.leb_gt _ _)), orb_false_r by lia.
    split_and!; try done. intros p Hp. destruct (Z.ltb_spec ((p - m_writePos l) mod 4096) 0); [|done].
    pose proof (Z.mod_pos_bound (p - m_writePos l) 4096). lia. }
  unfold LOG_BUFFER_SIZE. rewrite Z.geb_leb. destruct (Z.leb_spec 4096 (m_writePos l + n)) as [Hwrap|Hno].
  - rewrite (u16_small (4096 - m_writePos l)), (u16_small (n - _)) by lia. rewrite Z.gtb_ltb.
    destruct (Z.ltb_spec 0 (4096 - m_writePos l)); [|lia].
    rewrite memcpy_bytes_eq by lia. cbn [mbind option_bind].
    set (part1 := slice _ _ data). assert (length part1 = Z.to_nat (4096 - m_writePos l)) as H1
      by (apply length_slice; lia).
    assert (Z.to_nat (m_writePos l) + length part1 <= length (m_buffer l))%nat as Hfit1 by lia.
    assert (length (splice (Z.to_nat (m_writePos l)) part1 (m_buffer l)) = 4096%nat) as Hb1
      by (by rewrite length_splice).
    rewrite memcpy_bytes_eq by lia. cbn [mbind option_bind].
    set (part2 := slice _ _ data). assert (length part2 = Z.to_nat (n - (4096 - m_writePos l))) as H2
      by (apply length_slice; lia).
    eexists. split; [reflexivity|]. cbn [m_buffer m_readPos m_writePos m_bufferFull].
    split_and!; [rewrite length_splice; lia|done|wrap_lia|by rewrite orb_true_r|].
    intros p Hp. rewrite lookup_splice, lookup_splice by lia. rewrite H1, H2. unfold part1, part2.
    rewrite !lookup_slice. Z.div_mod_to_equations.
    destruct (Z.ltb_spec r n); repeat case_decide; try lia; try done; f_equal; lia.
  - rewrite memcpy_bytes_eq by lia. cbn [mbind option_bind].
    set (part := slice _ _ data). assert (length part = Z.to_nat n) as H1 by (apply length_slice; lia).
    eexists. split; [reflexivity|]. cbn [m_buffer m_readPos m_writePos m_bufferFull]. rewrite u16_small by lia.
    split_and!; [rewrite length_splice; lia|done|by rewrite Z.mod_small by lia|by rewrite orb_false_r|].
    intros p Hp. rewrite lookup_splice by lia. rewrite H1. unfold part.
    rewrite !lookup_slice. Z.div_mod_to_equations.
    destruct (Z.ltb_spec r n); repeat case_decide; try lia; try done; f_equal; lia.
Qed.

Lemma _write_ok l bs data n : log_rep l bs -> 0 <= n <= 256 -> n <= Z.of_nat (length data) ->
  Z.of_nat (length bs) + n <= 4096 ->
  exists l', _write data n l = Some l' /\ log_rep l' (bs ++ take (Z.to_nat n) data).
Proof.
  intros [Hs Hr Hf Hw Hfull Hb] Hn Hd Hfit.
  destruct (_write_buffer l data n Hs) as (l' & E & Hs' & Hr' & Hw' & Hfull' & Hb'); [wrap_lia|done|done|].
  assert (length (take (Z.to_nat n) data) = Z.to_nat n) as Hlt by (rewrite length_take; lia).
  exists l'. split; [done|]. split; rewrite ?length_app, ?Hlt, ?Hr'; [done|done|lia| | |].
  - rewrite Hw', Hw. wrap_lia.
  - rewrite Hfull', Hfull, Hw. clear - Hr Hn Hfit. Z.div_mod_to_equations.
    destruct (Z.leb_spec 4096 (m_readPos l + Z.of_nat (length bs))), (Z.leb_spec 4096 (r + n)),
      (Z.leb_spec 4096 (m_readPos l + Z.of_nat (length bs + Z.to_nat n))); simpl; (done || lia).
  - intros i b Hi. rewrite Hb' by (apply Z.mod_pos_bound; lia).
    destruct (decide (i < length bs)%nat) as [Hlt'|Hge].
    + rewrite lookup_app_l in Hi by done. rewrite Hw.
      destruct (Z.ltb_spec (((m_readPos l + Z.of_nat i) mod 4096 - (m_readPos l + Z.of_nat (length bs)) mod 4096) mod 4096) n);
        [exfalso; wrap_lia|by apply Hb].
    + rewrite lookup_app_r in Hi by lia. apply lookup_take_Some in Hi as [Hi Hi'].
      assert (((m_readPos l + Z.of_nat i) mod 4096 - m_writePos l) mod 4096 = Z.of_nat (i - length bs)) as Ep
        by (rewrite Hw; wrap_lia).
      rewrite Ep. destruct (Z.ltb_spec (Z.of_nat (i - length bs)) n); [|lia]. by rewrite Nat2Z.id.
Qed.

(** *** Formatting *)

Lemma snprintf_ok buf off text : length buf = 256%nat -> 0 <= off -> off + Z.of_nat (length text) <= 255 ->
  snprintf buf off (256 - off) text = Some (splice (Z.to_nat off) (text ++ [0]) buf, Z.of_nat (length text)).
Proof.
  intros Hb Ho Hl. unfold snprintf. destruct (Z.eqb_spec (256 - off) 0); [lia|].
  rewrite take_ge by lia. rewrite length_app, Hb. simpl. rewrite (proj2 (Z.leb_le _ _)) by lia. done.
Qed.

(** [buf] holds the text [t] at its start. *)
Definition starts (buf t : list Z) : Prop := length buf = 256%nat /\ take (length t) buf = t.

Lemma starts_append buf t text : starts buf t -> (length t + length text <= 255)%nat ->
  exists buf', snprintf buf (Z.of_nat (length t)) (256 - Z.of_nat (length t)) text = Some (buf', Z.of_nat (length text)) /\
    starts buf' (t ++ text).
Proof.
  intros [Hb Ht] Hl. rewrite snprintf_ok by (done || lia). eexists. split; [reflexivity|].
  rewrite Nat2Z.id. split.
  - rewrite length_splice; [done|]. rewrite length_app. simpl. lia.
  - unfold splice. rewrite Ht, length_app. rewrite (assoc_L (++)), (assoc_L (++)).
    rewrite <- (assoc_L (++) (t ++ text)). by rewrite <- length_app, take_app_length.
Qed.

Lemma starts_nil buf : length buf = 256%nat -> starts buf [].
Proof. by split. Qed.

(** Both ways to log come to one write of the formatted line. *)
Lemma finish_log_eq buf t l : starts buf t -> (length t <= 253)%nat ->
  exists b, finish_log buf (Z.of_nat (length t)) l = _write b (Z.of_nat (length t) + 2) l /\ starts b (t ++ crlf).
Proof.
  intros Hst Hl. unfold finish_log, MAX_LOG_MSG. rewrite u32_small by lia.
  destruct (starts_append buf t crlf Hst) as (b & -> & Hb); [simpl; lia|]. cbn [mbind option_bind].
  rewrite Z.gtb_ltb. change (Z.of_nat (length crlf)) with 2. destruct (Z.ltb_spec 256 (Z.of_nat (length t) + 2)); [lia|].
  rewrite u16_small by lia. by exists b.
Qed.

Lemma logger_log_eq stack text l : length stack = 256%nat -> (length text <= 253)%nat ->
  exists b, logger_log stack text l = _write b (Z.of_nat (length text) + 2) l /\ starts b (text ++ crlf).
Proof.
  intros Hs Hl. unfold logger_log, MAX_LOG_MSG.
  destruct (starts_append stack [] text (starts_nil _ Hs)) as (b & E & Hst); [simpl; lia|].
  change (256 - Z.of_nat (length [])) with 256 in E. change (Z.of_nat (length [])) with 0 in E.
  rewrite E. cbn [mbind option_bind]. by apply finish_log_eq.
Qed.

Lemma _logWithLevel_eq stack v ts text l : length stack = 256%nat ->
  (length (log_header v ts ++ text) <= 253)%nat ->
  exists b, _logWithLevel stack v ts text l = _write b (Z.of_nat (length (log_header v ts ++ text)) + 2) l /\
    starts b ((log_header v ts ++ text) ++ crlf).
Proof.
  intros Hs Hl. rewrite length_app in Hl. unfold _logWithLevel, MAX_LOG_MSG.
  destruct (starts_append stack [] (log_header v ts) (starts_nil _ Hs)) as (b & E & Hst);
    [change (length (@nil Z)) with 0%nat; lia|].
  change (256 - Z.of_nat (length [])) with 256 in E. change (Z.of_nat (length [])) with 0 in E.
  rewrite E. cbn [mbind option_bind]. rewrite Z.gtb_ltb.
  assert (0 < length (log_header v ts))%nat by (unfold log_header; rewrite length_app; simpl; lia).
  destruct (Z.ltb_spec 0 (Z.of_nat (length (log_header v ts)))); [|lia]. rewrite u32_small by lia.
  simpl app in Hst. destruct (starts_append b (log_header v ts) text Hst) as (b2 & -> & Hst2); [lia|].
  cbn [mbind option_bind]. rewrite <- Nat2Z.inj_add, <- length_app. apply finish_log_eq; [done|rewrite length_app; lia].
Qed.

Lemma write_line b t l bs : starts b t -> (length t <= 255)%nat -> log_rep l bs -> (length bs + length t <= 4096)%nat ->
  exists l', _write b (Z.of_nat (length t)) l = Some l' /\ log_rep l' (bs ++ t).
Proof.
  intros [Hb Ht] Hl Hrep Hfit. destruct (_write_ok l bs b (Z.of_nat (length t)) Hrep) as (l' & E & Hl'); [lia..|].
  exists l'. split; [done|]. by rewrite Nat2Z.id, Ht in Hl'.
Qed.

(** *** Flushing *)

Definition no_nul (bs : list Z) : Prop := Forall (fun b => b <> 0) bs.

Lemma cstring_no_nul bs : no_nul bs -> cstring bs = bs.
Proof. induction 1 as [|b bs Hb _ IH]; simpl; [done|]. destruct (Z.eqb_spec b 0); [done|]. by rewrite IH. Qed.

Lemma cstring_terminated bs rest : no_nul bs -> cstring (bs ++ 0 :: rest) = bs.
Proof. induction 1 as [|b bs Hb _ IH]; simpl; [done|]. destruct (Z.eqb_spec b 0); [done|]. by rewrite IH. Qed.

Lemma store_ok a i b : 0 <= i < Z.of_nat (length a) -> store a i b = Some (<[Z.to_nat i := b]> a).
Proof. intros Hi. unfold store. by rewrite (proj2 (Z.leb_le _ _)), (proj2 (Z.ltb_lt _ _)) by lia. Qed.
(** The array up to a stored byte. *)
Lemma take_store (a : list Z) i b : (i < length a)%nat -> take (S i) (<[i := b]> a) = take i a ++ [b].
Proof.
  intros Hi. rewrite (take_S_r _ _ b) by (apply list_lookup_insert_eq; lia). by rewrite take_insert_ge.
Qed.
Lemma store_nul (a : list Z) i : (i < length a)%nat -> 0 ∈ <[i := 0]> a /\ (no_nul (take i a) -> cstring (<[i := 0]> a) = take i a).
Proof.
  intros Hi. split; [by apply list_elem_of_insert|]. intros Hn. rewrite insert_take_drop by done. by apply cstring_terminated.
Qed.

(** [bs] were gathered: the array keeps its size and room for one more byte and
    its NUL, nothing printed is lost, and without NULs nothing at all. *)
Definition gathered (st : Gather) (bs : list Z) (st' : Gather) : Prop :=
  let '(a, n, u) := st in let '(a', n', u') := st' in
  length a' = 256%nat /\ 0 <= n' < 255 /\ (exists o, u' = u ++ o) /\
  (no_nul (take (Z.to_nat n) a) -> no_nul bs ->
   u' ++ take (Z.to_nat n') a' = (u ++ take (Z.to_nat n) a) ++ bs /\ no_nul (take (Z.to_nat n') a')).
Definition gathering (st : Gather) : Prop := length st.1.1 = 256%nat /\ 0 <= st.1.2 < 255.

Lemma gathered_nil st : gathering st -> gathered st [] st.
Proof.
  destruct st as [[a n] u]. intros [Ha Hn]. split; [done|]. split; [done|]. split; [exists []; by rewrite app_nil_r|].
  intros H _. by rewrite app_nil_r.
Qed.
Lemma gathered_app st bs st1 bs' st2 : gathered st bs st1 -> gathered st1 bs' st2 -> gathered st (bs ++ bs') st2.
Proof.
  destruct st as [[a n] u], st1 as [[a1 n1] u1], st2 as [[a2 n2] u2]. intros (_ & _ & [o1 E1] & H1) (L2 & N2 & [o2 E2] & H2).
  split; [done|]. split; [done|]. split; [exists (o1 ++ o2); by rewrite E2, E1, (assoc_L (++))|].
  intros Hn Hbs. apply Forall_app in Hbs as [Hb Hb']. destruct (H1 Hn Hb) as [Q1 Hn1]. destruct (H2 Hn1 Hb') as [Q2 Hn2].
  split; [|done]. by rewrite Q2, Q1, (assoc_L (++)).
Qed.
Lemma gathered_ok st bs st' : gathered st bs st' -> gathering st'.
Proof. destruct st as [[a n] u], st' as [[a' n'] u']. intros (? & ? & _). by split. Qed.

Lemma flush_byte_ok b st : gathering st -> exists st', flush_byte b st = Some st' /\ gathered st [b] st'.
Proof.
  destruct st as [[a n] u]. intros [Ha Hn]. cbn [fst snd] in *. unfold flush_byte. rewrite store_ok by lia. cbn [mbind option_bind].
  rewrite u16_small, Z.geb_leb by lia. change (SIZEOF_TEMPBUF - 1) with 255.
  assert (Z.to_nat (n + 1) = S (Z.to_nat n)) as ES by lia. pose proof (take_store a (Z.to_nat n) b ltac:(lia)) as Et. rewrite <- ES in Et.
  set (a1 := <[Z.to_nat n := b]> a) in *. assert (length a1 = 256%nat) as Ha1 by (unfold a1; by rewrite length_insert).
  destruct (Z.leb_spec 255 (n + 1)) as [Hfull|Hroom].
  - rewrite store_ok by lia. cbn [mbind option_bind]. destruct (store_nul a1 (Z.to_nat (n + 1)) ltac:(lia)) as [H0 Hc].
    unfold uart_print_array. rewrite bool_decide_eq_true_2 by done. cbn [mbind option_bind]. eexists. split; [reflexivity|].
    split; [by rewrite length_insert|]. split; [lia|]. unfold uart_print. split; [by eexists|]. intros Hna Hb.
    rewrite Hc, Et by (rewrite Et; by apply Forall_app). change (Z.to_nat 0) with 0%nat. cbn [take].
    split; [by rewrite app_nil_r, (assoc_L (++))|by constructor].
  - eexists. split; [reflexivity|]. split; [done|]. split; [lia|]. split; [exists []; by rewrite app_nil_r|].
    intros Hna Hb. rewrite Et. split; [by rewrite (assoc_L (++))|by apply Forall_app].
Qed.

Lemma flush_loop_ok fuel buffer i to_ st :
  gathering st -> 0 <= i -> to_ <= Z.of_nat (length buffer) -> to_ <= 65535 -> (Z.to_nat (to_ - i) < fuel)%nat ->
  exists st', flush_loop fuel buffer i to_ st = Some st' /\ gathered st (slice (Z.to_nat i) (Z.to_nat (to_ - i)) buffer) st'.
Proof.
  revert i st. induction fuel as [|fuel IH]; intros i st Hst Hi Hto Hmax Hf; [lia|]. cbn [flush_loop].
  destruct (Z.ltb_spec i to_) as [Hlt|Hge].
  - destruct (lookup_lt_is_Some_2 buffer (Z.to_nat i)) as [b Eb]; [lia|]. rewrite Eb. cbn [mbind option_bind].
    destruct (flush_byte_ok b st Hst) as (st1 & -> & Hg). cbn [mbind option_bind]. rewrite u16_small by lia.
    destruct (IH (i + 1) st1) as (st' & E & Hg'); [by eapply gathered_ok|lia..|]. exists st'. split; [done|].
    pose proof (gathered_app _ _ _ _ _ Hg Hg') as H. unfold slice in *.
    replace (Z.to_nat (to_ - i)) with (S (Z.to_nat (to_ - (i + 1)))) by lia.
    rewrite (drop_S _ _ _ Eb). replace (Z.to_nat (i + 1)) with (S (Z.to_nat i)) in H by lia. exact H.
  - exists st. split; [done|]. replace (Z.to_nat (to_ - i)) with 0%nat by lia. by apply gathered_nil.
Qed.

(** The characters at positions [from] up to [to]. *)
Definition log_range (l : Logger) (from to : Z) : list Z := slice (Z.to_nat from) (Z.to_nat (to - from)) (m_buffer l).
(** What the two branches of flush read. *)
Definition flushed (l : Logger) : list Z :=
  if m_bufferFull l then log_range l (m_readPos l) LOG_BUFFER_SIZE ++ log_range l 0 (m_writePos l)
  else log_range l (m_readPos l) (m_writePos l).

Lemma log_range_bytes l bs : log_rep l bs -> flushed l = bs.
Proof.
  unfold flushed. intros [Hs Hr Hf Hw Hfull Hb]. rewrite (ring_pos _ _ Hr) in Hw by lia.
  assert (forall a b, 0 <= a <= b -> b <= 4096 -> length (log_range l a b) = Z.to_nat (b - a)) as Hlen
    by (intros; apply length_slice; lia).
  apply list_eq. intros i. unfold LOG_BUFFER_SIZE. rewrite Hfull.
  assert (forall j b, bs !! j = Some b -> m_buffer l !! Z.to_nat (if m_readPos l + Z.of_nat j <? 4096 then m_readPos l + Z.of_nat j
    else m_readPos l + Z.of_nat j - 4096) = Some b) as Hb'.
  { intros j b Hj. rewrite <- (ring_pos _ _ Hr) by (apply lookup_lt_Some in Hj; lia). by apply Hb. }
  destruct (Z.leb_spec 4096 (m_readPos l + Z.of_nat (length bs))) as [Hge|Hlt];
    (destruct (Z.ltb_spec (m_readPos l + Z.of_nat (length bs)) 4096); [|try lia]); try lia.
  - assert (length (log_range l (m_readPos l) 4096) = Z.to_nat (4096 - m_readPos l)) as H1 by (apply Hlen; lia).
    destruct (bs !! i) as [b|] eqn:Ei.
    + pose proof (lookup_lt_Some _ _ _ Ei). specialize (Hb' i b Ei).
      destruct (Z.ltb_spec (m_readPos l + Z.of_nat i) 4096).
      * rewrite lookup_app_l by lia. unfold log_range. rewrite lookup_slice, decide_True by lia. rewrite <- Hb'. f_equal. lia.
      * rewrite lookup_app_r by lia. unfold log_range at 2. rewrite lookup_slice, decide_True by lia. rewrite <- Hb'. f_equal. lia.
    + apply lookup_ge_None in Ei. apply lookup_ge_None. rewrite length_app, H1, Hlen by lia. lia.
  - destruct (bs !! i) as [b|] eqn:Ei.
    + pose proof (lookup_lt_Some _ _ _ Ei). specialize (Hb' i b Ei).
      destruct (Z.ltb_spec (m_readPos l + Z.of_nat i) 4096); [|lia].
      unfold log_range. rewrite lookup_slice, decide_True by lia. rewrite <- Hb'. f_equal. lia.
    + apply lookup_ge_None in Ei. apply lookup_ge_None. rewrite Hlen by lia. lia.
Qed.

Definition banner (bs : list Z) : list Z :=
  if bool_decide (bs = []) then chars "--- No logs ---" ++ crlf
  else crlf ++ chars "=== LOGS ===" ++ crlf ++ bs ++ crlf ++ chars "=== END ===" ++ crlf ++ crlf.

Lemma println_chars s u : uart_println (chars s) u = u ++ cstring (chars s) ++ crlf.
Proof. unfold uart_println, uart_print. by rewrite <- (assoc_L (++)). Qed.

Lemma unread_zero l bs : log_rep l bs -> (getUnreadCount l =? 0) = bool_decide (bs = []).
Proof.
  intros [Hs Hr Hf Hw Hfull Hb]. unfold getUnreadCount. rewrite Hfull.
  rewrite (ring_pos _ _ Hr) in Hw by lia. destruct (Z.leb_spec 4096 (m_readPos l + Z.of_nat (length bs))).
  - rewrite bool_decide_eq_false_2; [done|]. intros ->. simpl in *. lia.
  - destruct (Z.ltb_spec (m_readPos l + Z.of_nat (length bs)) 4096); [|lia]. rewrite Hw, Z.geb_leb.
    destruct (Z.leb_spec (m_readPos l) (m_readPos l + Z.of_nat (length bs))); [|lia].
    rewrite u16_small by lia. case_bool_decide as Hbs; [subst; apply Z.eqb_eq; simpl; lia|].
    apply Z.eqb_neq. destruct bs; [done|simpl; lia].
Qed.

(** The members are in their ranges. *)
Definition logger_ok (l : Logger) : Prop :=
  length (m_buffer l) = 4096%nat /\ 0 <= m_writePos l < 4096 /\ 0 <= m_readPos l < 4096.
Lemma log_rep_fine l bs : log_rep l bs -> logger_ok l.
Proof. intros [Hs Hr Hf Hw _ _]. split; [done|]. split; [wrap_lia|done]. Qed.

(** Both branches of flush gather the unread range. *)
Lemma flush_gathers l st : logger_ok l -> gathering st ->
  exists st', flush_ranges l st = Some (mkLogger (m_buffer l) (m_writePos l) (m_writePos l) false, st') /\ gathered st (flushed l) st'.
Proof.
  intros (Hb & Hw & Hr) Hst. unfold flush_ranges, flushed, log_range, flush_fuel, LOG_BUFFER_SIZE.
  destruct (m_bufferFull l); cbn [negb].
  - destruct (flush_loop_ok (S (Z.to_nat 4096)) (m_buffer l) (m_readPos l) 4096 st) as (st1 & -> & H1); [done|lia..|]. cbn [mbind option_bind].
    destruct (flush_loop_ok (S (Z.to_nat 4096)) (m_buffer l) 0 (m_writePos l) st1) as (st2 & -> & H2); [by eapply gathered_ok|lia..|].
    cbn [mbind option_bind]. exists st2. split; [done|]. by eapply gathered_app.
  - destruct (Z.ltb_spec (m_readPos l) (m_writePos l)).
    + destruct (flush_loop_ok (S (Z.to_nat 4096)) (m_buffer l) (m_readPos l) (m_writePos l) st) as (st1 & -> & H1); [done|lia..|].
      cbn [mbind option_bind]. by exists st1.
    + cbn [mbind option_bind]. exists st. split; [done|]. unfold slice.
      replace (Z.to_nat (m_writePos l - m_readPos l)) with 0%nat by lia. by apply gathered_nil.
Qed.

(** What is left in the array is printed. *)
Lemma flush_rest st : gathering st ->
  exists u, flush_end st = Some u /\ (exists o, u = st.2 ++ o) /\
    (no_nul (take (Z.to_nat st.1.2) st.1.1) -> u = st.2 ++ take (Z.to_nat st.1.2) st.1.1).
Proof.
  destruct st as [[a n] u]. intros [Ha Hn]. cbn [fst snd] in *. unfold flush_end. rewrite Z.gtb_ltb. destruct (Z.ltb_spec 0 n) as [Hpos|Hz].
  - rewrite store_ok by lia. cbn [mbind option_bind]. destruct (store_nul a (Z.to_nat n) ltac:(lia)) as [H0 Hc].
    unfold uart_print_array. rewrite bool_decide_eq_true_2 by done. eexists. split; [reflexivity|]. unfold uart_print.
    split; [by eexists|]. intros H. by rewrite Hc.
  - exists u. split; [done|]. split; [exists []; by rewrite app_nil_r|]. intros _. replace (Z.to_nat n) with 0%nat by lia.
    by rewrite app_nil_r.
Qed.

(** flush never leaves its arrays, keeps what was printed, and prints the unread
    range if it has no NUL. *)
Lemma logger_flush_eq tempBuf l u : length tempBuf = 256%nat -> logger_ok l -> getUnreadCount l <> 0 ->
  exists u', logger_flush tempBuf l u = Some (mkLogger (m_buffer l) (m_writePos l) (m_writePos l) false, u') /\ (exists o, u' = u ++ o) /\
    (no_nul (flushed l) -> u' = u ++ crlf ++ chars "=== LOGS ===" ++ crlf ++ flushed l ++ crlf ++ chars "=== END ===" ++ crlf ++ crlf).
Proof.
  intros Ht Hl Hz. unfold logger_flush. destruct (Z.eqb_spec (getUnreadCount l) 0) as [?|_]; [done|]. cbv zeta.
  set (u1 := uart_println (crlf ++ chars "=== LOGS ===") u).
  assert (u1 = u ++ crlf ++ chars "=== LOGS ===" ++ crlf) as Eu1
    by (unfold u1, uart_println, uart_print; by rewrite <- (assoc_L (++))).
  destruct (flush_gathers l (tempBuf, 0, u1) Hl) as (st & -> & Hg); [done|]. cbn [mbind option_bind].
  destruct (flush_rest st (gathered_ok _ _ _ Hg)) as (u2 & E2 & [o2 G2] & P2). destruct st as [[a n] u3]. rewrite E2. cbn [mbind option_bind fst snd] in *.
  eexists. split; [reflexivity|]. destruct Hg as (_ & _ & [o3 G3] & P3). unfold uart_println, uart_print. split.
  - rewrite G2, G3, Eu1, <- !(assoc_L (++)). by eexists.
  - intros Hn. destruct P3 as [Q3 Hn3]; [by constructor|done|]. rewrite (P2 Hn3), Q3, Eu1. cbn [take Z.to_nat]. by rewrite app_nil_r, <- !(assoc_L (++)).
Qed.

Lemma logger_flush_ok tempBuf l bs u : length tempBuf = 256%nat -> log_rep l bs -> no_nul bs ->
  exists l', logger_flush tempBuf l u = Some (l', u ++ banner bs) /\ log_rep l' [].
Proof.
  intros Ht Hrep Hnn. pose proof (unread_zero l bs Hrep) as Hz. pose proof (log_range_bytes l bs Hrep) as Hread.
  unfold banner. case_bool_decide as Hbs.
  - unfold logger_flush. rewrite Hz. cbv zeta. exists l. split; [rewrite println_chars; reflexivity|]. clear Hread. by subst.
  - destruct (logger_flush_eq tempBuf l u Ht (log_rep_fine _ _ Hrep)) as (u' & E & _ & Hp); [by apply Z.eqb_neq|].
    rewrite Hread in Hp. eexists. split; [by rewrite <- (Hp Hnn)|].
    destruct Hrep as [Hs Hr Hf Hw Hfull Hb]. split; simpl; [done|wrap_lia|lia|wrap_lia| |done].
    symmetry. apply Z.leb_gt. wrap_lia.
Qed.

(** ** The contract *)

Inductive log_op := OpLog (text : list Z) | OpLevel (v : Level) (timestamp : Z) (text : list Z) | OpFlush | OpClear.

(** The logger and the bytes the UART was given. *)
Definition run_log_op (stack tempBuf : list Z) (op : log_op) (s : Logger * list Z) : option (Logger * list Z) :=
  let '(l, u) := s in
  match op with
  | OpLog text => l ← logger_log stack text l; Some (l, u)
  | OpLevel v ts text => l ← _logWithLevel stack v ts text l; Some (l, u)
  | OpFlush => logger_flush tempBuf l u
  | OpClear => Some (logger_clear l, u)
  end.
Fixpoint run_log_ops (stack tempBuf : list Z) (ops : list log_op) (s : Logger * list Z) : option (Logger * list Z) :=
  match ops with [] => Some s | op :: ops => s ← run_log_op stack tempBuf op s; run_log_ops stack tempBuf ops s end.

(** The text of one call, and the same program on a list of unread bytes. *)
Definition message (op : log_op) : list Z :=
  match op with
  | OpLog text => text ++ crlf
  | OpLevel v ts text => log_header v ts ++ text ++ crlf
  | _ => []
  end.
Definition spec_log_op (op : log_op) (s : list Z * list Z) : list Z * list Z :=
  let '(bs, u) := s in
  match op with
  | OpLog _ | OpLevel _ _ _ => (bs ++ message op, u)
  | OpFlush => ([], u ++ banner bs)
  | OpClear => ([], u)
  end.

(** Messages of at most 255 characters with their line end, none of them NUL,
    and at most 4096 bytes between two flushes. *)
Fixpoint fits_log (bs : list Z) (ops : list log_op) : Prop :=
  match ops with
  | [] => True
  | op :: ops => (length (message op) <= 255)%nat /\ no_nul (message op) /\
    (length bs + length (message op) <= 4096)%nat /\ fits_log (spec_log_op op (bs, [])).1 ops
  end.

Lemma logger_init_ok : log_rep logger_init [].
Proof. split; [apply repeat_length|done|simpl; lia|done|done|done]. Qed.

Lemma run_log_op_ok stack tempBuf op l bs u : length stack = 256%nat -> length tempBuf = 256%nat -> log_rep l bs -> no_nul bs ->
  (length (message op) <= 255)%nat -> no_nul (message op) -> (length bs + length (message op) <= 4096)%nat ->
  exists l', run_log_op stack tempBuf op (l, u) = Some (l', (spec_log_op op (bs, u)).2) /\
    log_rep l' (spec_log_op op (bs, u)).1 /\ no_nul (spec_log_op op (bs, u)).1.
Proof.
  intros Hs Ht Hrep Hnn Hl Hm Hfit. assert (no_nul (bs ++ message op)) as Hnn' by (by apply Forall_app).
  destruct op as [text|v ts text| |]; cbn [run_log_op spec_log_op message fst snd] in *.
  - rewrite !length_app in Hl, Hfit. change (length crlf) with 2%nat in *.
    destruct (logger_log_eq stack text l Hs) as (b & -> & Hst); [lia|].
    destruct (write_line b (text ++ crlf) l bs Hst) as (l' & E & Hl'); [rewrite length_app; simpl; lia|done|rewrite length_app; simpl; lia|].
    rewrite length_app, Nat2Z.inj_add in E. change (Z.of_nat (length crlf)) with 2 in E. rewrite E. by exists l'.
  - rewrite !length_app in Hl, Hfit. change (length crlf) with 2%nat in *.
    destruct (_logWithLevel_eq stack v ts text l Hs) as (b & -> & Hst); [rewrite length_app; lia|].
    destruct (write_line b _ l bs Hst) as (l' & E & Hl'); [rewrite !length_app; change (length crlf) with 2%nat; lia|done|
      rewrite !length_app; change (length crlf) with 2%nat; lia|].
    rewrite (length_app _ crlf), Nat2Z.inj_add in E. change (Z.of_nat (length crlf)) with 2 in E. rewrite E.
    rewrite <- (assoc_L (++)) in Hl'. by exists l'.
  - destruct (logger_flush_ok tempBuf l bs u Ht Hrep Hnn) as (l' & E & Hl'). exists l'. split; [done|]. split; [done|by constructor].
  - exists logger_init. split; [done|]. split; [apply logger_init_ok|by constructor].
Qed.

(** C21: nothing is lost from the log.  However often the log is written,
    flushed and cleared: as long as every message has at most 255 characters
    with its header and line end and no NUL, and at most 4096 bytes are written
    between two flushes, every flush prints exactly the messages since the last
    one, in order, wherever they lie around the end of the circular buffer; and
    neither that buffer nor the local arrays of 256 bytes of the log calls and of
    flush are read or written out of their bounds, whatever they held before.
    ([log_overruns_stack] and [log_overrun_repeats] show both bounds are needed.) *)
Theorem logger_prints_all stack tempBuf ops l bs u :
  length stack = 256%nat -> length tempBuf = 256%nat -> log_rep l bs -> no_nul bs -> fits_log bs ops ->
  exists l', run_log_ops stack tempBuf ops (l, u) = Some (l', (foldl (fun s op => spec_log_op op s) (bs, u) ops).2) /\
    log_rep l' (foldl (fun s op => spec_log_op op s) (bs, u) ops).1.
Proof.
  intros Hs Ht. revert l bs u. induction ops as [|op ops IH]; intros l bs u Hrep Hnn Hf; [by exists l|].
  destruct Hf as (Hl & Hm & Hfit & Hf). cbn [run_log_ops foldl].
  destruct (run_log_op_ok stack tempBuf op l bs u Hs Ht Hrep Hnn Hl Hm Hfit) as (l1 & -> & Hrep1 & Hnn1). cbn [mbind option_bind].
  assert (forall u', (spec_log_op op (bs, u')).1 = (spec_log_op op (bs, u)).1) as Hu by (by destruct op).
  rewrite (Hu []) in Hf. destruct (spec_log_op op (bs, u)) as [bs1 u1]. by apply IH.
Qed.

Definition sample_stack : list Z := repeat 170 256.
Definition sample_log : list log_op := [OpLog (chars "boot"); OpLevel WRN 1207 (chars "no link"); OpFlush; OpFlush].

Lemma logger_prints_all_witness : exists l',
  run_log_ops sample_stack sample_stack sample_log (logger_init, []) =
    Some (l', banner (chars "boot" ++ crlf ++ chars "[WRN][1207] no link" ++ crlf) ++ banner []) /\ log_rep l' [].
Proof.
  destruct (logger_prints_all sample_stack sample_stack sample_log logger_init [] []) as (l' & E & H).
  - reflexivity.
  - reflexivity.
  - exact logger_init_ok.
  - constructor.
  - vm_compute. repeat split; repeat constructor; discriminate.
  - exists l'. split; [exact E|exact H].
Defined.

(** ** Where the code departs from that *)

(** A message of more than 256 characters: the length that snprintf returns
    leads the line end out of the local array. *)
Lemma log_overruns_stack stack text l : length stack = 256%nat -> 256 < Z.of_nat (length text) < 4294967296 ->
  logger_log stack text l = None.
Proof.
  intros Hs Ht. unfold logger_log, snprintf at 1, MAX_LOG_MSG. simpl Z.eqb. cbv iota.
  assert (length (take (Z.to_nat (256 - 1)) text ++ [0]) = 256%nat) as Hlen
    by (rewrite length_app, length_take; change (length [0]) with 1%nat; lia).
  rewrite Hlen, Hs. change (0 + Z.of_nat 256 <=? Z.of_nat 256) with true. cbv iota. cbn [mbind option_bind]. unfold finish_log, snprintf, MAX_LOG_MSG.
  assert (u32 (256 - Z.of_nat (length text)) >= 1) by (unfold u32; Z.div_mod_to_equations; lia).
  destruct (Z.eqb_spec (u32 (256 - Z.of_nat (length text))) 0); [lia|].
  rewrite length_splice by (rewrite Hlen, Hs; simpl; lia). rewrite Hs.
  match goal with |- context [Z.of_nat (length text) + Z.of_nat (length ?b) <=? ?m] =>
    rewrite (proj2 (Z.leb_gt (Z.of_nat (length text) + Z.of_nat (length b)) m)) by lia end. done.
Qed.

(** Once the buffer wrapped the unread count is 4096, whatever is unread. *)
Lemma unread_after_wrap l bs : log_rep l bs -> 4096 <= m_readPos l + Z.of_nat (length bs) -> getUnreadCount l = 4096.
Proof. intros [_ _ _ _ Hf _] H. unfold getUnreadCount. rewrite Hf. by rewrite (proj2 (Z.leb_le _ _)). Qed.

(** The buffer overrun: the writer has gone past the oldest unread byte.  Flush
    starts at the old read position, in the middle of the newest messages, and
    prints everything before the write position a second time at the end. *)
Lemma log_overrun_repeats tempBuf l u : length tempBuf = 256%nat -> logger_ok l -> no_nul (m_buffer l) ->
  m_bufferFull l = true -> m_readPos l = 0 ->
  option_map snd (logger_flush tempBuf l u) = Some (u ++ crlf ++ chars "=== LOGS ===" ++ crlf ++
    (m_buffer l ++ take (Z.to_nat (m_writePos l)) (m_buffer l)) ++ crlf ++ chars "=== END ===" ++ crlf ++ crlf).
Proof.
  intros Ht Hl Hnn Hf Hr. pose proof Hl as (Hs & Hw & _).
  assert (flushed l = m_buffer l ++ take (Z.to_nat (m_writePos l)) (m_buffer l)) as E.
  { unfold flushed, log_range, slice. rewrite Hf, Hr. rewrite !Z.sub_0_r. change (Z.to_nat 0) with 0%nat.
    rewrite !drop_0. rewrite (take_ge (m_buffer l) (Z.to_nat LOG_BUFFER_SIZE)); [done|unfold LOG_BUFFER_SIZE; lia]. }
  destruct (logger_flush_eq tempBuf l u Ht Hl) as (u' & Eq & _ & Hp); [unfold getUnreadCount; by rewrite Hf|].
  rewrite Eq, E in *. cbn [option_map snd]. rewrite Hp; [done|]. apply Forall_app. split; [done|by apply Forall_take].
Qed.

(** ** A logger in any state *)

Lemma length_udec fuel n : (length (udec fuel n) <= fuel)%nat.
Proof.
  revert n. induction fuel as [|f IH]; intros n; cbn [udec]; [done|]. rewrite length_app. simpl length.
  specialize (IH (n / 10)). destruct (n <? 10); simpl; lia.
Qed.
Lemma length_log_header v ts : (length (log_header v ts) <= 18)%nat.
Proof.
  unfold log_header. rewrite !length_app. pose proof (length_udec 10 ts) as Hd. unfold print_ulong.
  generalize dependent (udec 10 ts). intros d Hd.
  assert (length (level_name v) = 3%nat) as -> by (by destruct v). simpl length. lia.
Qed.

Lemma logger_level_ok stack v ts text l : length stack = 256%nat -> (length text <= 235)%nat -> logger_ok l ->
  exists l', _logWithLevel stack v ts text l = Some l' /\ logger_ok l'.
Proof.
  intros Hs Ht (Hb & Hw & Hr). pose proof (length_log_header v ts) as Hh.
  destruct (_logWithLevel_eq stack v ts text l Hs) as (b & -> & [Hbl _]); [rewrite length_app; lia|].
  destruct (_write_buffer l b (Z.of_nat (length (log_header v ts ++ text)) + 2) Hb Hw)
    as (l' & -> & Hs' & Hr' & Hw' & _); [rewrite length_app; lia..|].
  exists l'. split; [done|]. split; [done|]. rewrite Hr', Hw'. split; [apply Z.mod_pos_bound; lia|done].
Qed.

(** Whatever is in the buffer, also after an overrun: flush ends, keeps the
    members in their ranges and takes back nothing that was printed. *)
Lemma logger_flush_safe tempBuf l u : length tempBuf = 256%nat -> logger_ok l ->
  exists l' out, logger_flush tempBuf l u = Some (l', u ++ out) /\ logger_ok l'.
Proof.
  intros Ht Hl. destruct (decide (getUnreadCount l = 0)) as [Hz|Hz].
  - unfold logger_flush. rewrite (proj2 (Z.eqb_eq _ _) Hz). cbv zeta. exists l. eexists. split; [rewrite println_chars; reflexivity|done].
  - destruct (logger_flush_eq tempBuf l u Ht Hl Hz) as (u' & -> & [out ->] & _). eexists _, out. split; [reflexivity|].
    destruct Hl as (? & ? & ?). done.
Qed.

Lemma logger_init_fine : logger_ok logger_init.
Proof. split; [apply repeat_length|done]. Qed.
