(* ===== verification/Shell.v ===== *)
(** * Shell.cpp and Filesystem.hpp: commands on a LittleFS volume

    LittleFS is fetched by the build and not part of the repository: the class
    [Lfs] lists the calls the wrapper makes, [LfsOk] what its documentation
    promises of them.  A C string is the list of its bytes before the NUL. *)

From S2P Require Import Prelude Logger.
#[local] Open Scope Z_scope.

(** ** LittleFS *)

Record lfs_info := mkInfo { li_dir : bool; li_name : list Z; li_size : Z }.

(** The volume [S], open files and open directories; results below 0 are errors. *)
Class Lfs (S : Type) := mkLfs {
  LFS_ERR_OK : Z;
  LFS_O_RDONLY : Z;
  LFS_O_WRONLY : Z;
  LFS_O_CREAT : Z;
  LFS_O_TRUNC : Z;
  lfs_file_t : Type;
  lfs_dir_t : Type;
  lfs_mount : S -> S * Z;
  lfs_format : S -> S * Z;
  lfs_remove : list Z -> S -> S * Z;
  lfs_file_open : list Z -> Z -> S -> S * lfs_file_t * Z;
  lfs_file_write : lfs_file_t -> list Z -> S -> S * lfs_file_t * Z;
  lfs_file_read : lfs_file_t -> Z -> S -> S * lfs_file_t * Z * list Z;
  lfs_file_close : lfs_file_t -> S -> S * Z;
  lfs_dir_open : list Z -> S -> S * lfs_dir_t * Z;
  lfs_dir_read : lfs_dir_t -> S -> S * lfs_dir_t * Z * lfs_info;
  lfs_dir_close : lfs_dir_t -> S -> S * Z
}.

(** [file_at s p d]: the file [p] exists and contains [d].  What was written is
    there once the file was closed without an error (closing writes what is
    still pending and may fail). *)
Class LfsOk (S : Type) `{Lfs S} := {
  file_at : S -> list Z -> list Z -> Prop;
  lfs_write_ok p d s s1 f s2 f2 s3 e e3 :
    lfs_file_open p (Z.lor (Z.lor LFS_O_WRONLY LFS_O_CREAT) LFS_O_TRUNC) s = (s1, f, e) -> 0 <= e ->
    lfs_file_write f d s1 = (s2, f2, Z.of_nat (length d)) ->
    lfs_file_close f2 s2 = (s3, e3) -> 0 <= e3 -> file_at s3 p d;
  lfs_read_ok p d n s : file_at s p d -> 0 <= n ->
    exists s1 f s2 f2, lfs_file_open p LFS_O_RDONLY s = (s1, f, 0) /\
      lfs_file_read f n s1 = (s2, f2, Z.min n (Z.of_nat (length d)), take (Z.to_nat n) d) /\
      file_at (lfs_file_close f2 s2).1 p d;
  lfs_read_bound f n s s' f' r bs : lfs_file_read f n s = (s', f', r, bs) -> 0 <= r -> r = Z.of_nat (length bs) /\ r <= n
}.

(** ** Filesystem.hpp *)

Section fs.
Context {S : Type} `{!Lfs S}.

Definition fs_write (path data : list Z) (s : S) : S * bool :=
  let '(s, file, e) := lfs_file_open path (Z.lor (Z.lor LFS_O_WRONLY LFS_O_CREAT) LFS_O_TRUNC) s in
  if e <? 0 then (s, false)
  else
    let '(s, file, _) := lfs_file_write file data s in
    let '(s, _) := lfs_file_close file s in
    (s, true).

(** [out] is the array the caller passes, of [outlen] bytes. *)
Definition fs_read (path : list Z) (out : list Z) (outlen : Z) (s : S) : option (S * list Z * bool) :=
  let '(s, file, e) := lfs_file_open path LFS_O_RDONLY s in
  if e <? 0 then Some (s, out, false)
  else
    let '(s, file, n, bs) := lfs_file_read file (outlen - 1) s in
    let '(s, _) := lfs_file_close file s in
    if n <? 0 then Some (s, out, false)
    else
      out ← memcpy_bytes out 0 (bs ++ [0]) 0 (n + 1);
      Some (s, out, true).

Definition fs_remove (path : list Z) (s : S) : S * bool :=
  let '(s, e) := lfs_remove path s in (s, e =? LFS_ERR_OK).

(** [%-20s]. *)
Definition pad20 (t : list Z) : list Z := t ++ repeat 32 (20 - length t).
(** The formatted text of an entry, and [char line[280]] that it is cut to;
    [line] is what the array held before. *)
Definition SIZEOF_LINE : Z := 280.
Definition ls_text (info : lfs_info) : list Z :=
  if li_dir info then chars "[DIR]  " ++ li_name info ++ crlf
  else chars "[FILE] " ++ pad20 (li_name info) ++ chars " " ++ print_ulong (li_size info) ++ chars " B" ++ crlf.
Definition ls_line (line : list Z) (info : lfs_info) : option (list Z) :=
  '(line, _) ← snprintf line 0 SIZEOF_LINE (ls_text info); Some line.

(** [strlen(a)], which needs a NUL in the array. *)
Definition strlen (a : list Z) : option Z := if bool_decide (0 ∈ a) then Some (Z.of_nat (length (cstring a))) else None.
(** [strncat(out, src, n)]: at most [n] characters of [src] and a NUL go behind
    the characters in [out]. *)
Definition strncat (out src : list Z) (n : Z) : option (list Z) :=
  len ← strlen out; m ← strlen src;
  memcpy_bytes out len (take (Z.to_nat n) (cstring src) ++ [0]) 0 (Z.min n m + 1).

(** [out] is the array of the caller, of [outlen] bytes. *)
Fixpoint ls_loop (fuel : nat) (dir : lfs_dir_t) (line out : list Z) (outlen : Z) (s : S) : option (S * lfs_dir_t * list Z) :=
  match fuel with
  | O => None
  | Datatypes.S fuel =>
    let '(s, dir, r, info) := lfs_dir_read dir s in
    if r >? 0 then
      text ← ls_line line info;
      len ← strlen out;
      out ← strncat out text (u32 (outlen - len - 1));
      ls_loop fuel dir line out outlen s
    else Some (s, dir, out)
  end.

Definition fs_ls (fuel : nat) (line out : list Z) (outlen : Z) (s : S) : option (S * list Z * bool) :=
  let '(s, dir, e) := lfs_dir_open (chars "/") s in
  if e <? 0 then Some (s, out, false)
  else
    out ← store out 0 0;
    '(s, dir, out) ← ls_loop fuel dir line out outlen s;
    c ← head out;
    out ← (if c =? 0 then strncat out (chars "(empty)" ++ crlf ++ [0]) (u32 (outlen - 1)) else Some out);
    let '(s, _) := lfs_dir_close dir s in
    Some (s, out, true).
End fs.

(** ** Shell.cpp *)

Section shell.
Context {S : Type} `{!Lfs S}.

(** The logger, the UART output and the volume. *)
Record Shell := mkShell { sh_log : Logger; sh_uart : list Z; sh_fs : S }.

(** The surroundings of a call: HAL_GetTick, fs_mounted, what the local arrays
    held before ([msgBuffer] of the log calls, [tempBuf] of flush, [line] of ls,
    [out] of parse_cmd), and a bound on the directory entries. *)
Record Env := mkEnv {
  e_tick : Z; fs_mounted : bool; e_stack : list Z; e_temp : list Z; e_line : list Z; e_out : list Z; e_entries : nat
}.

Definition say (t : list Z) (h : Shell) : Shell := mkShell (sh_log h) (uart_println t (sh_uart h)) (sh_fs h).
Definition note (e : Env) (v : Level) (t : list Z) (h : Shell) : option Shell :=
  l ← _logWithLevel (e_stack e) v (e_tick e) t (sh_log h); Some (mkShell l (sh_uart h) (sh_fs h)).
Definition with_fs (s : S) (h : Shell) : Shell := mkShell (sh_log h) (sh_uart h) s.

(** [%d]. *)
Definition print_int (n : Z) : list Z := if n <? 0 then chars "-" ++ print_ulong (- n) else print_ulong n.

(** The volume, mounted, after one format if it was not mountable. *)
Definition fs_mount (e : Env) (h : Shell) : option (Shell * bool) :=
  h ← note e DBG (chars "FS mount: addr=0x08060000 blk_sz=131072 blk_cnt=2") h;
  let '(s, err) := lfs_mount (sh_fs h) in
  h ← note e DBG (chars "FS lfs_mount: " ++ print_int err) (with_fs s h);
  if err =? LFS_ERR_OK then h ← note e INF (chars "FS mount: OK") h; Some (h, true)
  else
    h ← note e WRN (chars "FS mount failed (" ++ print_int err ++ chars "), formatting...") h;
    let '(s, fmt) := lfs_format (sh_fs h) in
    h ← note e DBG (chars "FS lfs_format: " ++ print_int fmt) (with_fs s h);
    if negb (fmt =? LFS_ERR_OK) then
      h ← note e ERR (chars "FS format FAILED (" ++ print_int fmt ++ chars ")") h; Some (h, false)
    else
      let '(s, err2) := lfs_mount (sh_fs h) in
      h ← note e DBG (chars "FS lfs_mount (after format): " ++ print_int err2) (with_fs s h);
      if err2 =? LFS_ERR_OK then h ← note e INF (chars "FS mount: OK (after format)") h; Some (h, true)
      else
        h ← note e ERR (chars "FS mount after format FAILED (" ++ print_int err2 ++ chars ")") h; Some (h, false).

(** [strcmp(line, s) == 0], [strncmp(line, s, strlen(s)) == 0], [strchr]. *)
Definition is_cmd (s : string) (line : list Z) : bool := bool_decide (line = chars s).
Definition has_prefix (s : string) (line : list Z) : bool := bool_decide (take (length (chars s)) line = chars s).
Definition after_prefix (s : string) (line : list Z) : list Z := drop (length (chars s)) line.
Fixpoint split_space (bs : list Z) : option (list Z * list Z) :=
  match bs with
  | [] => None
  | b :: bs => if b =? 32 then Some ([], bs)
               else match split_space bs with Some (l, r) => Some (b :: l, r) | None => None end
  end.

Definition not_mounted (e : Env) (cmd : string) (h : Shell) : option Shell :=
  note e ERR (chars cmd ++ chars ": FS not mounted") (say (chars "ERR: Filesystem not mounted") h).
(** Printing an array: the bytes before its NUL, with a line end or without. *)
Definition print_array (out : list Z) (line_end : bool) (h : Shell) : option Shell :=
  u ← uart_print_array out (sh_uart h);
  Some (mkShell (sh_log h) (if line_end then uart_print crlf u else u) (sh_fs h)).

Definition cmd_ls (e : Env) (h : Shell) : option Shell :=
  if negb (fs_mounted e) then not_mounted e "ls" h
  else
    '(s, out, _) ← fs_ls (e_entries e) (e_line e) (e_out e) 512 (sh_fs h);
    h ← note e INF (chars "ls output:") (with_fs s h);
    print_array out false h.
Definition cmd_read (e : Env) (path : list Z) (h : Shell) : option Shell :=
  if negb (fs_mounted e) then not_mounted e "read" h
  else
    '(s, out, ok) ← fs_read path (e_out e) 512 (sh_fs h);
    if (ok : bool) then
      h ← note e INF (chars "read " ++ path ++ chars ": OK") (with_fs s h); print_array out true h
    else
      h ← note e ERR (chars "read: not found: " ++ path) (with_fs s h);
      Some (say (chars "ERR: file not found") h).
Definition cmd_rm (e : Env) (path : list Z) (h : Shell) : option Shell :=
  if negb (fs_mounted e) then not_mounted e "rm" h
  else
    let '(s, ok) := fs_remove path (sh_fs h) in
    h ← note e INF (chars "rm " ++ path ++ chars (if ok then ": OK" else ": FAIL")) (with_fs s h);
    Some (say (chars (if ok then "OK" else "ERR: cannot remove")) h).
Definition cmd_write (e : Env) (rest : list Z) (h : Shell) : option Shell :=
  if negb (fs_mounted e) then not_mounted e "write" h
  else
    match split_space rest with
    | None => Some (say (chars "Usage: write <file> <data>") h)
    | Some (path, data) =>
      let '(s, ok) := fs_write path data (sh_fs h) in
      h ← note e INF (chars "write " ++ path ++ chars (if ok then ": OK" else ": FAIL")) (with_fs s h);
      Some (say (chars (if ok then "OK" else "ERR: cannot write")) h)
    end.
Definition help_text : list string :=
  ["Commands:"; "  logs              - show all logs"; "  logs clear        - clear logs";
   "  ls                - list files"; "  read <file>       - read file"; "  write <file> <data>";
   "  rm <file>         - remove file"]%string.

Definition parse_cmd (e : Env) (line : list Z) (h : Shell) : option Shell :=
  if is_cmd "logs" line then
    '(l, u) ← logger_flush (e_temp e) (sh_log h) (sh_uart h); Some (mkShell l u (sh_fs h))
  else if is_cmd "logs clear" line then
    Some (say (chars "Logs cleared") (mkShell (logger_clear (sh_log h)) (sh_uart h) (sh_fs h)))
  else if is_cmd "ls" line then cmd_ls e h
  else if has_prefix "read " line then cmd_read e (after_prefix "read " line) h
  else if has_prefix "rm " line then cmd_rm e (after_prefix "rm " line) h
  else if has_prefix "write " line then cmd_write e (after_prefix "write " line) h
  else if is_cmd "help" line then Some (foldl (fun h t => say (chars t) h) h help_text)
  else
    h ← note e WRN (chars "Unknown command: " ++ line) h;
    Some (say (chars "Unknown command. Type 'help'.") h).
End shell.

(** ** Reading the command line *)

Lemma split_space_at path data : Forall (fun b => b <> 32) path -> split_space (path ++ 32 :: data) = Some (path, data).
Proof. induction 1 as [|b path Hb _ IH]; simpl; [done|]. destruct (Z.eqb_spec b 32); [done|]. by rewrite IH. Qed.

Lemma split_space_length bs l r : split_space bs = Some (l, r) -> (length l <= length bs)%nat.
Proof.
  revert l. induction bs as [|b bs IH]; simpl; intros l; [done|]. destruct (b =? 32); [intros [= <- <-]; simpl; lia|].
  destruct (split_space bs) as [[l' r']|]; [|done]. intros [= <- <-]. specialize (IH l' eq_refl). simpl. lia.
Qed.

(** What one of the prefixes leaves. *)
Lemma after_prefix_length p line : (length (after_prefix p line) <= length line)%nat.
Proof. unfold after_prefix. rewrite length_drop. lia. Qed.

(** ** Notes in the log *)

Section shell.
Context {S : Type} `{!Lfs S}.
Implicit Types h : Shell (S := S).

(** The local arrays have the sizes of the source. *)
Record env_ok (e : Env) : Prop := mkEnvOk {
  eo_stack : length (e_stack e) = 256%nat;
  eo_temp : length (e_temp e) = 256%nat;
  eo_line : length (e_line e) = 280%nat;
  eo_out : length (e_out e) = 512%nat
}.

Lemma note_ok e v t h : env_ok e -> (length t <= 235)%nat -> logger_ok (sh_log h) ->
  exists l, note e v t h = Some (mkShell l (sh_uart h) (sh_fs h)) /\ logger_ok l.
Proof.
  intros [He _ _ _] Ht Hl. unfold note. destruct (logger_level_ok (e_stack e) v (e_tick e) t (sh_log h) He Ht Hl) as (l & -> & Hl').
  by exists l.
Qed.

(** ** Files *)

Lemma fs_read_ok `{!LfsOk S} path out data s : file_at s path data -> length out = 512%nat -> no_nul data ->
  exists s' out', fs_read path out 512 s = Some (s', out', true) /\ file_at s' path data /\
    0 ∈ out' /\ cstring out' = take 511 data.
Proof.
  intros Hat Hout Hnn. destruct (lfs_read_ok path data 511 s Hat) as (s1 & f & s2 & f2 & E1 & E2 & Hat'); [lia|].
  unfold fs_read. rewrite E1. change (0 <? 0) with false. cbv iota. change (512 - 1) with 511. rewrite E2.
  destruct (lfs_file_close f2 s2) as [s3 e3]. cbn [fst] in Hat'.
  destruct (Z.ltb_spec (511 `min` Z.of_nat (length data)) 0); [lia|]. cbv iota.
  change (Z.to_nat 511) with 511%nat in *. set (bs := take 511 data).
  assert (length (bs ++ [0]) = Z.to_nat (511 `min` Z.of_nat (length data) + 1)) as Hlen
    by (unfold bs; rewrite length_app, length_take; change (length [0]) with 1%nat; lia).
  rewrite memcpy_bytes_eq by lia. cbn [mbind option_bind].
  assert (slice (Z.to_nat 0) (Z.to_nat (511 `min` Z.of_nat (length data) + 1)) (bs ++ [0]) = bs ++ [0]) as ->
    by (unfold slice; rewrite drop_0, take_ge; [done|lia]).
  eexists _, _. split; [reflexivity|]. split; [done|]. unfold splice. simpl take. rewrite app_nil_l, <- (assoc_L (++)).
  split; [set_solver|]. assert (no_nul bs) as Hb by (by apply Forall_take).
  by apply cstring_terminated.
Qed.

(** *** Listing *)

Lemma no_nul_cstring a : no_nul (cstring a).
Proof. induction a as [|b a IH]; simpl; [constructor|]. destruct (Z.eqb_spec b 0); [constructor|by constructor]. Qed.
(** The characters of an array with a NUL stand at its start, before the NUL. *)
Lemma cstring_split a : 0 ∈ a -> exists rest, a = cstring a ++ 0 :: rest.
Proof.
  induction a as [|b a IH]; [by intros ?%elem_of_nil|]. simpl. destruct (Z.eqb_spec b 0) as [->|Hb]; [by exists a|].
  intros [<-|H]%elem_of_cons; [done|]. destruct (IH H) as [rest E]. exists rest. by rewrite E at 1.
Qed.
Lemma strlen_ok a : 0 ∈ a -> strlen a = Some (Z.of_nat (length (cstring a))) /\ (length (cstring a) < length a)%nat.
Proof.
  intros H. unfold strlen. rewrite bool_decide_eq_true_2 by done. split; [done|]. destruct (cstring_split a H) as [rest E].
  rewrite E at 2. rewrite length_app. simpl. lia.
Qed.

Lemma strncat_ok out src n : 0 ∈ out -> 0 ∈ src -> 0 <= n -> Z.of_nat (length (cstring out)) + n < Z.of_nat (length out) ->
  exists out', strncat out src n = Some out' /\ length out' = length out /\ 0 ∈ out' /\
    cstring out' = cstring out ++ take (Z.to_nat n) (cstring src).
Proof.
  intros Ho Hs Hn Hroom. unfold strncat. rewrite (proj1 (strlen_ok out Ho)), (proj1 (strlen_ok src Hs)). cbn [mbind option_bind].
  set (t := take (Z.to_nat n) (cstring src)). assert (length t = Z.to_nat (Z.min n (Z.of_nat (length (cstring src))))) as Ht
    by (unfold t; rewrite length_take; lia).
  rewrite memcpy_bytes_eq by (rewrite ?length_app; simpl; lia). rewrite Nat2Z.id.
  assert (slice (Z.to_nat 0) (Z.to_nat (n `min` Z.of_nat (length (cstring src)) + 1)) (t ++ [0]) = t ++ [0]) as ->
    by (unfold slice; rewrite drop_0, take_ge; [done|rewrite length_app; simpl; lia]).
  eexists. split; [reflexivity|]. split; [apply length_splice; rewrite length_app; simpl; lia|].
  destruct (cstring_split out Ho) as [rest E]. pose proof (no_nul_cstring out) as Hc. revert E Hc. generalize (cstring out). intros c E Hc.
  unfold splice. rewrite E, take_app_length, <- (assoc_L (++) t [0]), (assoc_L (++) c). split; [set_solver|].
  apply cstring_terminated. apply Forall_app. split; [done|apply Forall_take, no_nul_cstring].
Qed.

(** The line of an entry as it is printed: cut to the array. *)
Definition entry_text (info : lfs_info) : list Z := cstring (take 279 (ls_text info)).
Lemma ls_line_ok line info : length line = 280%nat ->
  exists line', ls_line line info = Some line' /\ 0 ∈ line' /\ cstring line' = entry_text info.
Proof.
  intros Hl. unfold ls_line, snprintf, SIZEOF_LINE. change (280 =? 0) with false. change (Z.to_nat (280 - 1)) with 279%nat. cbv iota zeta.
  set (t := take 279 (ls_text info)). assert (Z.of_nat (length (t ++ [0])) <= 280) by (unfold t; rewrite length_app, length_take; change (length [0]) with 1%nat; lia).
  rewrite (proj2 (Z.leb_le _ _)) by lia. cbn [mbind option_bind]. eexists. split; [reflexivity|]. unfold splice. change (Z.to_nat 0) with 0%nat.
  cbn [take app]. rewrite <- app_assoc. split; [set_solver|]. unfold entry_text. fold t. generalize (drop (0 + length (t ++ [0])) line).
  clear. intros rest. change (take 0 line) with (@nil Z). cbn [app]. induction t as [|b t IH]; [done|]. cbn [app cstring]. destruct (b =? 0); [done|]. by f_equal.
Qed.
(** A name of LittleFS (255 bytes at most) is listed in full. *)
Lemma entry_text_full info : (length (li_name info) <= 255)%nat -> no_nul (ls_text info) -> entry_text info = ls_text info.
Proof.
  intros Hn Hnn. unfold entry_text. rewrite take_ge; [by apply cstring_no_nul|]. unfold ls_text. pose proof (length_udec 10 (li_size info)) as Hd.
  unfold print_ulong. clear Hnn. generalize dependent (udec 10 (li_size info)). intros d Hd. unfold pad20.
  destruct (li_dir info); rewrite !length_app, ?repeat_length; simpl length; lia.
Qed.
Lemma entry_text_some info : entry_text info <> [].
Proof. unfold entry_text, ls_text. destruct (li_dir info); simpl; discriminate. Qed.
Lemma print_int_length n : (length (print_int n) <= 11)%nat.
Proof.
  unfold print_int, print_ulong. pose proof (length_udec 10 n) as H1. pose proof (length_udec 10 (- n)) as H2.
  generalize dependent (udec 10 n). generalize dependent (udec 10 (- n)). intros d H2 d' H1.
  destruct (n <? 0); rewrite ?length_app; simpl length; lia.
Qed.

(** Mounting formats at most once, reports what the last call of LittleFS
    said, and prints nothing. *)
Lemma fs_mount_formats e h : env_ok e -> logger_ok (sh_log h) ->
  exists h' ok, fs_mount e h = Some (h', ok) /\ logger_ok (sh_log h') /\ sh_uart h' = sh_uart h /\
    ((lfs_mount (sh_fs h)).2 = LFS_ERR_OK -> sh_fs h' = (lfs_mount (sh_fs h)).1 /\ ok = true) /\
    (ok = true -> exists s0, sh_fs h' = (lfs_mount s0).1 /\ (lfs_mount s0).2 = LFS_ERR_OK).
Proof.
  intros He Hl. unfold fs_mount.
  assert (forall v t h0, (length t <= 50)%nat -> logger_ok (sh_log h0) ->
    exists l, note e v t h0 = Some (mkShell l (sh_uart h0) (sh_fs h0)) /\ logger_ok l) as Hn
    by (intros; apply note_ok; [done|lia|done]).
  pose proof print_int_length as Hp.
  repeat first
  [ match goal with |- context [note e ?v ?t ?h0] =>
      let E := fresh "E" in let Hl' := fresh "Hl" in
      destruct (Hn v t h0) as (? & E & Hl');
        [rewrite ?length_app; repeat match goal with |- context [print_int ?n] => pose proof (Hp n); generalize dependent (print_int n); intros end; simpl length; lia
        |by auto|rewrite E; clear E; cbn [mbind option_bind sh_fs sh_log sh_uart with_fs]] end
  | match goal with |- context [lfs_mount ?s] => let E := fresh "Em" in destruct (lfs_mount s) as [? ?] eqn:E end
  | match goal with |- context [lfs_format ?s] => destruct (lfs_format s) as [? ?] end
  | match goal with |- context [?a =? LFS_ERR_OK] => destruct (Z.eqb_spec a LFS_ERR_OK); cbn [negb] end ].
  all: eexists _, _; split; [reflexivity|]; split; [done|]; split; [done|]; split; try done.
  all: intros _; match goal with H : lfs_mount ?s0 = (?s, _) |- context [mkShell _ _ ?s] => exists s0; by rewrite H end.
Qed.

(** ** The commands *)

Lemma print_array_ok out b h : 0 ∈ out -> print_array out b h =
  Some (mkShell (sh_log h) (if b then uart_println out (sh_uart h) else uart_print out (sh_uart h)) (sh_fs h)).
Proof. intros H0. unfold print_array, uart_print_array. by rewrite bool_decide_eq_true_2. Qed.

Lemma parse_write e rest h : parse_cmd e (chars "write " ++ rest) h = cmd_write e rest h.
Proof. reflexivity. Qed.
Lemma parse_read e path h : parse_cmd e (chars "read " ++ path) h = cmd_read e path h.
Proof. reflexivity. Qed.
End shell.

(** ** All commands *)

Section total.
Context {S : Type} `{!Lfs S} `{!LfsOk S}.
Implicit Types h : Shell (S := S).

(** The root directory opens, and ends after at most [n] entries. *)
Fixpoint dir_ends (n : nat) (d : lfs_dir_t) (s : S) : Prop :=
  let '(s', d', r, _) := lfs_dir_read d s in
  r <= 0 \/ match n with O => False | Datatypes.S n => dir_ends n d' s' end.
Definition root_lists (n : nat) (s : S) : Prop :=
  let '(s', d, r) := lfs_dir_open (chars "/") s in 0 <= r /\ dir_ends n d s'.

(** What a finished command leaves behind. *)
Record finished (h h' : Shell (S := S)) : Prop := mkFinished {
  fi_log : logger_ok (sh_log h');
  fi_uart : exists out, sh_uart h' = sh_uart h ++ out
}.
Definition finishes (h : Shell) (P : S -> Prop) (r : option (Shell (S := S))) : Prop :=
  exists h', r = Some h' /\ finished h h' /\ P (sh_fs h').

Lemma finished_say t h0 h : finished h0 h -> finished h0 (say t h).
Proof.
  intros [Hl [out E]]. split; [done|]. unfold say, uart_println, uart_print. simpl. rewrite E, <- !(assoc_L (++)). by eexists.
Qed.
Lemma finished_fs s h0 h : finished h0 h -> finished h0 (with_fs s h).
Proof. by intros []. Qed.
Lemma finished_print t (b : bool) h0 h : finished h0 h ->
  finished h0 (mkShell (sh_log h) (if b then uart_println t (sh_uart h) else uart_print t (sh_uart h)) (sh_fs h)).
Proof.
  intros [Hl [out E]]. split; [done|]. unfold uart_println, uart_print. simpl. destruct b; rewrite E, <- !(assoc_L (++)); by eexists.
Qed.
Lemma note_finished e v t h0 h (P : S -> Prop) k : env_ok e -> (length t <= 235)%nat -> finished h0 h ->
  (forall h', finished h0 h' -> sh_fs h' = sh_fs h -> finishes h0 P (k h')) ->
  finishes h0 P (h' ← note e v t h; k h').
Proof.
  intros He Ht [Hl Hu] Hk. destruct (note_ok e v t h He Ht Hl) as (l & -> & Hl'). cbn [mbind option_bind].
  apply Hk; [by split|done].
Qed.

(** The entries that are there, and what `ls` prints for them: as much as fits
    the array of 512 bytes. *)
Fixpoint dir_list (n : nat) (d : lfs_dir_t) (s : S) : list lfs_info :=
  let '(s', d', r, info) := lfs_dir_read d s in
  if r >? 0 then match n with O => [] | Datatypes.S n => info :: dir_list n d' s' end else [].
Definition root_list (n : nat) (s : S) : list lfs_info := let '(s', d, _) := lfs_dir_open (chars "/") s in dir_list n d s'.
Definition ls_output (infos : list lfs_info) : list Z :=
  match infos with [] => chars "(empty)" ++ crlf | _ => take 511 (concat (entry_text <$> infos)) end.

Lemma take_app_take (n : nat) (p t : list Z) : take n (p ++ t) = take n p ++ take (n - length (take n p)) t.
Proof.
  rewrite take_app. f_equal. rewrite length_take. destruct (decide (n <= length p)%nat).
  - by replace (n - length p)%nat with (n - n `min` length p)%nat by lia.
  - by replace (n - n `min` length p)%nat with (n - length p)%nat by lia.
Qed.

Lemma ls_loop_ok n d s line out p : length line = 280%nat -> length out = 512%nat -> 0 ∈ out -> cstring out = take 511 p ->
  dir_ends n d s -> exists s' d' out', ls_loop (Datatypes.S n) d line out 512 s = Some (s', d', out') /\ length out' = 512%nat /\ 0 ∈ out' /\
    cstring out' = take 511 (p ++ concat (entry_text <$> dir_list n d s)).
Proof.
  intros Hline. revert d s out p. induction n as [|n IH]; intros d s out p Ho H0 Hp; cbn [dir_ends dir_list];
    change (ls_loop (Datatypes.S ?m) d line out 512 s) with (let '(s, dir, r, info) := lfs_dir_read d s in
      if r >? 0 then text ← ls_line line info; len ← strlen out; out ← strncat out text (u32 (512 - len - 1)); ls_loop m dir line out 512 s
      else Some (s, dir, out)); destruct (lfs_dir_read d s) as [[[s1 d1] r] info]; rewrite Z.gtb_ltb; intros [Hr|Hr].
  1, 3: rewrite (proj2 (Z.ltb_ge _ _)) by lia; exists s1, d1, out; by rewrite app_nil_r.
  - done.
  - destruct (Z.ltb_spec 0 r); [|exists s1, d1, out; by rewrite app_nil_r].
    destruct (ls_line_ok line info Hline) as (text & -> & Ht & Et). destruct (strlen_ok out H0) as [El Hl]. cbn [mbind option_bind]. rewrite El.
    cbn [mbind option_bind]. rewrite u32_small by lia.
    destruct (strncat_ok out text (512 - Z.of_nat (length (cstring out)) - 1)) as (out1 & -> & Ho1 & H1 & E1); [done|done|lia..|]. cbn [mbind option_bind].
    destruct (IH d1 s1 out1 (p ++ entry_text info)) as (s' & d' & out' & E & Ho' & H0' & E'); [lia|done| |done|].
    { rewrite E1, Et, take_app_take, Hp. f_equal. f_equal. rewrite <- Hp. lia. }
    exists s', d', out'. split; [exact E|]. split; [done|]. split; [done|]. rewrite E'. cbn [fmap list_fmap concat]. by rewrite (assoc_L (++)).
Qed.

Lemma fs_ls_ok n line out s : length line = 280%nat -> length out = 512%nat -> root_lists n s ->
  exists s' out', fs_ls (Datatypes.S n) line out 512 s = Some (s', out', true) /\ length out' = 512%nat /\ 0 ∈ out' /\
    cstring out' = ls_output (root_list n s).
Proof.
  unfold fs_ls, root_lists, root_list. destruct (lfs_dir_open (chars "/") s) as [[s1 d] r]. intros Hline Ho [Hr Hends].
  destruct (Z.ltb_spec r 0); [lia|]. rewrite store_ok by lia. cbn [mbind option_bind]. change (Z.to_nat 0) with 0%nat.
  destruct (ls_loop_ok n d s1 line (<[0%nat := 0]> out) []) as (s2 & d2 & out2 & -> & Ho2 & H02 & E2); [done|by rewrite length_insert| | |done|].
  { apply store_nul. lia. }
  { destruct (store_nul out 0) as [_ ->]; [lia|done|constructor]. }
  cbn [mbind option_bind app] in *. destruct out2 as [|c out2]; [done|]. cbn [head mbind option_bind].
  destruct (lfs_dir_close d2 s2) as [s3 e3]. unfold ls_output. destruct (dir_list n d s1) as [|info infos].
  - cbn [fmap list_fmap concat] in E2. change (take 511 (@nil Z)) with (@nil Z) in E2. simpl in E2.
    destruct (Z.eqb_spec c 0) as [->|]; [|done]. rewrite u32_small by lia.
    destruct (strncat_ok (0 :: out2) (chars "(empty)" ++ crlf ++ [0]) (512 - 1)) as (out3 & -> & Ho3 & H03 & E3);
      [done|set_solver|lia|rewrite Ho2; simpl; lia|]. cbn [mbind option_bind]. exists s3, out3. split; [done|]. split; [lia|]. split; [done|].
    rewrite E3. done.
  - assert (c <> 0) as Hc.
    { intros ->. simpl in E2. pose proof (entry_text_some info). by destruct (entry_text info). }
    rewrite (proj2 (Z.eqb_neq c 0) Hc). cbn [mbind option_bind]. by exists s3, (c :: out2).
Qed.

Lemma not_mounted_finishes e c h : env_ok e -> logger_ok (sh_log h) -> (length (chars c) <= 50)%nat ->
  finishes h (fun s => s = sh_fs h) (not_mounted e c h).
Proof.
  intros He Hl Hc. unfold not_mounted. destruct (note_ok e ERR (chars c ++ chars ": FS not mounted") (say (chars "ERR: Filesystem not mounted") h) He)
    as (l & E & Hl'); [rewrite length_app; simpl (length (chars ": FS not mounted")); lia|done|].
  eexists. split; [exact E|]. split; [|done]. split; [done|]. simpl. unfold uart_println, uart_print. rewrite <- !(assoc_L (++)). eexists. reflexivity.
Qed.

Lemma finished_refl h : logger_ok (sh_log h) -> finished h h.
Proof. intros Hl. split; [done|]. exists []. by rewrite app_nil_r. Qed.

(** The four commands on a mounted volume. *)
Definition any (s : S) : Prop := True.

(** `ls` prints the listing. *)
Lemma cmd_ls_prints e h : env_ok e -> logger_ok (sh_log h) -> fs_mounted e = true ->
  e_entries e <> 0%nat -> root_lists (pred (e_entries e)) (sh_fs h) ->
  exists h', cmd_ls e h = Some h' /\ logger_ok (sh_log h') /\ sh_uart h' = sh_uart h ++ ls_output (root_list (pred (e_entries e)) (sh_fs h)).
Proof.
  intros [He1 He2 He3 He4] Hl Hm Hn Hroot. unfold cmd_ls. rewrite Hm. cbn [negb].
  destruct (fs_ls_ok (pred (e_entries e)) (e_line e) (e_out e) (sh_fs h)) as (s' & out & E & _ & H0 & Eo); [done..|].
  replace (Datatypes.S (pred (e_entries e))) with (e_entries e) in E by lia. rewrite E. cbn [mbind option_bind].
  destruct (note_ok e INF (chars "ls output:") (with_fs s' h)) as (l & -> & Hl'); [done|simpl; lia|done|]. cbn [mbind option_bind].
  rewrite print_array_ok by done. eexists. split; [reflexivity|]. split; [done|]. cbn [sh_uart with_fs]. unfold uart_print. by rewrite Eo.
Qed.
Lemma cmd_ls_finishes e h : env_ok e -> logger_ok (sh_log h) -> fs_mounted e = true ->
  e_entries e <> 0%nat -> root_lists (pred (e_entries e)) (sh_fs h) -> finishes h any (cmd_ls e h).
Proof.
  intros He Hl Hm Hn Hroot. destruct (cmd_ls_prints e h He Hl Hm Hn Hroot) as (h' & E & Hl' & Eu).
  exists h'. split; [done|]. split; [|done]. split; [done|]. by eexists.
Qed.

Lemma cmd_read_finishes e path h : env_ok e -> logger_ok (sh_log h) -> (length path <= 200)%nat ->
  fs_mounted e = true -> finishes h any (cmd_read e path h).
Proof using LfsOk0.
  intros He Hl Hp Hm. unfold cmd_read. rewrite Hm. cbn [negb]. unfold fs_read.
  destruct (lfs_file_open path LFS_O_RDONLY (sh_fs h)) as [[s1 f] r]. destruct (r <? 0).
  { cbn [mbind option_bind]. apply note_finished; [done|rewrite length_app; simpl length at 1; lia|by apply finished_fs, finished_refl|].
    intros h' Hf _. eexists. split; [reflexivity|]. split; [by apply finished_say|done]. }
  destruct (lfs_file_read f (512 - 1) s1) as [[[s2 f2] n] bs] eqn:Er. destruct (lfs_file_close f2 s2) as [s3 e3]. destruct (Z.ltb_spec n 0).
  { cbn [mbind option_bind]. apply note_finished; [done|rewrite length_app; simpl length at 1; lia|by apply finished_fs, finished_refl|].
    intros h' Hf _. eexists. split; [reflexivity|]. split; [by apply finished_say|done]. }
  destruct (lfs_read_bound _ _ _ _ _ _ _ Er) as [En Hle]; [done|]. pose proof He as [_ _ _ He2].
  rewrite memcpy_bytes_eq by (rewrite ?length_app; change (length [0]) with 1%nat; lia). cbn [mbind option_bind].
  assert (slice (Z.to_nat 0) (Z.to_nat (n + 1)) (bs ++ [0]) = bs ++ [0]) as ->
    by (unfold slice; rewrite drop_0, take_ge; [done|rewrite length_app; simpl; lia]).
  apply note_finished; [done|rewrite !length_app; simpl (length (chars _)); lia|by apply finished_fs, finished_refl|].
  intros h' Hf _. rewrite print_array_ok by (unfold splice; set_solver). eexists. split; [reflexivity|].
  split; [|done]. by apply (finished_print _ true).
Qed.

Lemma cmd_rm_finishes e path h : env_ok e -> logger_ok (sh_log h) -> (length path <= 200)%nat ->
  fs_mounted e = true -> finishes h any (cmd_rm e path h).
Proof.
  intros He Hl Hp Hm. unfold cmd_rm. rewrite Hm. cbn [negb]. destruct (fs_remove path (sh_fs h)) as [s ok].
  apply note_finished; [done|rewrite !length_app; destruct ok; simpl (length (chars _)); lia|by apply finished_fs, finished_refl|].
  intros h' Hf _. eexists. split; [reflexivity|]. split; [by apply finished_say|done].
Qed.

Lemma cmd_write_finishes e rest h : env_ok e -> logger_ok (sh_log h) -> (length rest <= 200)%nat ->
  fs_mounted e = true -> finishes h any (cmd_write e rest h).
Proof.
  intros He Hl Hp Hm. unfold cmd_write. rewrite Hm. cbn [negb].
  destruct (split_space rest) as [[path data]|] eqn:Es.
  - pose proof (split_space_length _ _ _ Es). destruct (fs_write path data (sh_fs h)) as [s ok].
    apply note_finished; [done|rewrite !length_app; destruct ok; simpl (length (chars _)); lia|by apply finished_fs, finished_refl|].
    intros h' Hf _. eexists. split; [reflexivity|]. split; [by apply finished_say|done].
  - eexists. split; [reflexivity|]. split; [by apply finished_say, finished_refl|done].
Qed.
End total.

(** C22: what the shell writes it reads back.  On a mounted volume, `write f d`
    for a name of at most 200 characters without a space answers OK, and if
    LittleFS could open the file, write all of it and close it without an error,
    a `read f` after it prints [d] (its first 511 bytes: the array in parse_cmd
    has 512); nothing else is printed and no local array is overrun.
    ([write_error_ignored] shows that the answer OK alone says nothing.) *)
Theorem shell_write_read {S} `{!Lfs S, !LfsOk S} (e : Env) (h : Shell (S := S)) path data s1 f s2 f2 s3 r r3 :
  fs_mounted e = true -> env_ok e -> logger_ok (sh_log h) ->
  Forall (fun b => b <> 32) path -> (length path <= 200)%nat -> no_nul data ->
  lfs_file_open path (Z.lor (Z.lor LFS_O_WRONLY LFS_O_CREAT) LFS_O_TRUNC) (sh_fs h) = (s1, f, r) -> 0 <= r ->
  lfs_file_write f data s1 = (s2, f2, Z.of_nat (length data)) ->
  lfs_file_close f2 s2 = (s3, r3) -> 0 <= r3 ->
  exists h1 h2, parse_cmd e (chars "write " ++ path ++ chars " " ++ data) h = Some h1 /\
    sh_uart h1 = sh_uart h ++ chars "OK" ++ crlf /\
    parse_cmd e (chars "read " ++ path) h1 = Some h2 /\
    sh_uart h2 = sh_uart h1 ++ take 511 data ++ crlf /\
    file_at (sh_fs h2) path data /\ logger_ok (sh_log h2).
Proof.
  intros Hm He Hl Hsp Hlen Hnn Eo Hr Ew Ec Hr3. rewrite parse_write. unfold cmd_write. rewrite Hm. cbn [negb].
  change (chars " " ++ data) with (32 :: data). rewrite (split_space_at path data Hsp). unfold fs_write. rewrite Eo.
  destruct (Z.ltb_spec r 0); [lia|]. rewrite Ew, Ec.
  pose proof (lfs_write_ok path data _ _ _ _ _ _ _ _ Eo Hr Ew Ec Hr3) as Hat.
  destruct (note_ok e INF (chars "write " ++ path ++ chars ": OK") (with_fs s3 h) He) as (l1 & -> & Hl1);
    [rewrite !length_app; simpl length; lia|done|]. cbn [mbind option_bind].
  set (h1 := say (chars "OK") (mkShell l1 (sh_uart (with_fs s3 h)) (sh_fs (with_fs s3 h)))).
  destruct (fs_read_ok path (e_out e) data s3 Hat) as (s4 & out & Er & Hat4 & H0 & Hout); [apply He|done|].
  destruct (note_ok e INF (chars "read " ++ path ++ chars ": OK") (with_fs s4 h1) He) as (l2 & En & Hl2);
    [rewrite !length_app; simpl length; lia|done|].
  exists h1. eexists. split; [done|]. split; [apply println_chars|]. rewrite parse_read. unfold cmd_read.
  rewrite Hm. cbn [negb]. change (sh_fs h1) with s3. rewrite Er. cbn [mbind option_bind]. rewrite En. cbn [mbind option_bind].
  rewrite (print_array_ok _ _ _ H0). split; [reflexivity|]. split_and!; [|done|done].
  cbn [sh_uart with_fs]. unfold uart_println at 1, uart_print. rewrite Hout. by rewrite <- (assoc_L (++)).
Qed.

(** C23: every command line of at most 200 characters is handled.  If the local
    arrays have their sizes, whatever they held, and, on a mounted volume,
    LittleFS opens its root directory and has fewer than [e_entries] entries
    there (any bound will do), and never reads more than it was asked for:
    parse_cmd returns, without an access outside of its arrays, those of ls,
    read, flush and the log calls, or the log; it prints after what was printed
    before; a volume that is not mounted is not touched; and `ls` prints the
    entries in order, cut to the 511 characters of its array.
    ([ls_error_prints_garbage] shows what `ls` does when the directory does not
    open.) *)
Theorem shell_commands_safe {S} `{!Lfs S, !LfsOk S} (e : Env) (h : Shell (S := S)) line :
  env_ok e -> logger_ok (sh_log h) -> (length line <= 200)%nat ->
  (fs_mounted e = true -> e_entries e <> 0%nat /\ root_lists (pred (e_entries e)) (sh_fs h)) ->
  exists h', parse_cmd e line h = Some h' /\ logger_ok (sh_log h') /\
    (exists out, sh_uart h' = sh_uart h ++ out) /\
    (fs_mounted e = false -> sh_fs h' = sh_fs h) /\
    (fs_mounted e = true -> line = chars "ls" -> sh_uart h' = sh_uart h ++ ls_output (root_list (pred (e_entries e)) (sh_fs h))).
Proof.
  intros He Hl Hline Hroot.
  assert (finishes h (fun s => fs_mounted e = false -> s = sh_fs h) (parse_cmd e line h)) as (h' & E & [H1 H2] & H3);
    [|exists h'; split; [done|]; split; [done|]; split; [done|]; split; [done|]; intros Hm ->;
      destruct (Hroot Hm) as [Hn Hr]; destruct (cmd_ls_prints e h He Hl Hm Hn Hr) as (h2 & E2 & _ & Eu);
      change (parse_cmd e (chars "ls") h) with (cmd_ls e h) in E; congruence].
  assert (forall (P : S -> Prop) r, (forall s, P s -> fs_mounted e = false -> s = sh_fs h) -> finishes h P r ->
    finishes h (fun s => fs_mounted e = false -> s = sh_fs h) r) as Himp
    by (intros P r HP (h' & ? & ? & ?); exists h'; auto).
  assert (forall c r, (length (chars c) <= 50)%nat -> (fs_mounted e = true -> finishes h any r) ->
    finishes h (fun s => fs_mounted e = false -> s = sh_fs h) (if negb (fs_mounted e) then not_mounted e c h else r)) as Hcmd.
  { intros c r Hc Hr. destruct (fs_mounted e) eqn:Em; cbn [negb].
    - apply (Himp any); [by intros|by apply Hr].
    - eapply Himp; [|by apply not_mounted_finishes]. by intros s ->. }
  pose proof (after_prefix_length) as Hpre. unfold parse_cmd.
  destruct (is_cmd "logs" line).
  { destruct (logger_flush_safe (e_temp e) (sh_log h) (sh_uart h)) as (l & out & -> & Hl'); [apply He|done|].
    eexists. split; [reflexivity|]. split; [|done]. split; [done|]. by exists out. }
  destruct (is_cmd "logs clear" line).
  { eexists. split; [reflexivity|]. split; [|done]. apply finished_say. split; [apply logger_init_fine|]. exists []. by rewrite app_nil_r. }
  destruct (is_cmd "ls" line).
  { pose proof (cmd_ls_finishes e h He Hl) as Hls. unfold cmd_ls in *. apply Hcmd; [simpl; lia|]. intros Hm.
    destruct (Hroot Hm) as [Hn Hr]. specialize (Hls Hm Hn Hr). by rewrite Hm in Hls. }
  destruct (has_prefix "read " line).
  { pose proof (cmd_read_finishes e (after_prefix "read " line) h He Hl) as Hrd. unfold cmd_read in *. apply Hcmd; [simpl; lia|].
    intros Hm. specialize (Hpre "read "%string line). rewrite Hm in Hrd. apply Hrd; [lia|done]. }
  destruct (has_prefix "rm " line).
  { pose proof (cmd_rm_finishes e (after_prefix "rm " line) h He Hl) as Hrm. unfold cmd_rm in *. apply Hcmd; [simpl; lia|].
    intros Hm. specialize (Hpre "rm "%string line). rewrite Hm in Hrm. apply Hrm; [lia|done]. }
  destruct (has_prefix "write " line).
  { pose proof (cmd_write_finishes e (after_prefix "write " line) h He Hl) as Hwr. unfold cmd_write in *. apply Hcmd; [simpl; lia|].
    intros Hm. specialize (Hpre "write "%string line). rewrite Hm in Hwr. apply Hwr; [lia|done]. }
  destruct (is_cmd "help" line).
  { eexists. split; [reflexivity|]. split; [|done]. cbn [foldl help_text]. repeat apply finished_say. by apply finished_refl. }
  apply note_finished; [done|rewrite length_app; simpl (length (chars _)); lia|by apply finished_refl|].
  intros h' Hf Ef. eexists. split; [reflexivity|]. split; [by apply finished_say|done].
Qed.

(** Where the code departs from what it means to do. *)

(** `ls` prints its array also when the directory could not be read and the
    array was never written. *)
Lemma ls_error_prints_garbage {S} `{!Lfs S} (e : Env) (h : Shell (S := S)) s1 d r :
  env_ok e -> logger_ok (sh_log h) -> fs_mounted e = true ->
  lfs_dir_open (chars "/") (sh_fs h) = (s1, d, r) -> r < 0 -> 0 ∈ e_out e ->
  exists h', parse_cmd e (chars "ls") h = Some h' /\ sh_uart h' = sh_uart h ++ cstring (e_out e).
Proof.
  intros He Hl Hm Eo Hr H0. change (parse_cmd e (chars "ls") h) with (cmd_ls e h). unfold cmd_ls, fs_ls. rewrite Hm, Eo. cbn [negb].
  destruct (Z.ltb_spec r 0); [|lia]. cbn [mbind option_bind].
  destruct (note_ok e INF (chars "ls output:") (with_fs s1 h) He) as (l & -> & _); [simpl; lia|done|]. cbn [mbind option_bind].
  rewrite (print_array_ok _ _ _ H0). by eexists.
Qed.

(** `write` answers OK whatever lfs_file_write and lfs_file_close report, for
    instance that the volume is full. *)
Lemma write_error_ignored {S} `{!Lfs S} path data (s : S) s1 f s2 f2 s3 r n r3 :
  lfs_file_open path (Z.lor (Z.lor LFS_O_WRONLY LFS_O_CREAT) LFS_O_TRUNC) s = (s1, f, r) -> 0 <= r ->
  lfs_file_write f data s1 = (s2, f2, n) -> lfs_file_close f2 s2 = (s3, r3) -> n < 0 \/ r3 < 0 -> fs_write path data s = (s3, true).
Proof. intros Eo Hr Ew Ec Hn. unfold fs_write. rewrite Eo. destruct (Z.ltb_spec r 0); [lia|]. by rewrite Ew, Ec. Qed.
