(* ===== verification/ShellSample.v ===== *)
(** * The shell on a volume in memory

    A volume that keeps LittleFS's promises: a map from names to contents. *)

From S2P Require Import Prelude Logger Shell.
#[local] Open Scope Z_scope.

Definition Volume : Type := gmap (list Z) (list Z).

Definition ram : Lfs Volume := mkLfs Volume 0 1 2 256 1024 (list Z) (list lfs_info)
  (fun s => (s, 0)) (fun s => (∅, 0))
  (fun p s => (delete p s, if s !! p is Some _ then 0 else -2))
  (fun p flags s => if flags =? 1 then (s, p, if s !! p is Some _ then 0 else -2) else (<[p := []]> s, p, 0))
  (fun f d s => (<[f := default [] (s !! f) ++ d]> s, f, Z.of_nat (length d)))
  (fun f n s => (s, f, Z.min n (Z.of_nat (length (default [] (s !! f)))), take (Z.to_nat n) (default [] (s !! f))))
  (fun f s => (s, 0))
  (fun p s => (s, (fun kv => mkInfo false kv.1 (Z.of_nat (length kv.2))) <$> map_to_list s, 0))
  (fun d s => match d with [] => (s, [], 0, mkInfo false [] 0) | i :: d => (s, d, 1, i) end)
  (fun d s => (s, 0)).

Lemma ram_ok : @LfsOk Volume ram.
Proof.
  apply (@Build_LfsOk Volume ram (fun s p d => s !! p = Some d)).
  - intros p d s s1 f s2 f2 s3 e e3. simpl. intros [= <- <- <-] _ [= <- <-] [= <- <-] _.
    rewrite (lookup_insert_eq s p []). simpl. apply (lookup_insert_eq (<[p:=[]]> s) p d).
  - intros p d n s E Hn. simpl. exists s, p, s, p. rewrite E. by split_and!.
  - intros f n s s' f' r bs. simpl. intros [= <- <- <- <-] Hr. rewrite length_take. lia.
Qed.

Definition sample_env : Env := mkEnv 42 true sample_stack sample_stack (repeat 170 280) (repeat 170 512) 8.
Definition sample_shell : Shell := @mkShell Volume logger_init [] ∅.
Lemma sample_env_ok : env_ok sample_env.
Proof. by split. Qed.

Lemma shell_write_read_witness : exists h1 h2,
  @parse_cmd Volume ram sample_env (chars "write " ++ chars "a.txt" ++ chars " " ++ chars "hello world") sample_shell = Some h1 /\
  @parse_cmd Volume ram sample_env (chars "read " ++ chars "a.txt") h1 = Some h2 /\
  sh_uart h2 = (chars "OK" ++ crlf) ++ chars "hello world" ++ crlf.
Proof.
  destruct (@shell_write_read Volume ram ram_ok sample_env sample_shell (chars "a.txt") (chars "hello world")
    {[chars "a.txt" := []]} (chars "a.txt") {[chars "a.txt" := chars "hello world"]} (chars "a.txt")
    {[chars "a.txt" := chars "hello world"]} 0 0)
    as (h1 & h2 & E1 & U1 & E2 & U2 & _).
  - reflexivity.
  - exact sample_env_ok.
  - exact logger_init_fine.
  - repeat constructor; discriminate.
  - apply Nat.leb_le. reflexivity.
  - repeat constructor; discriminate.
  - reflexivity.
  - lia.
  - vm_compute. reflexivity.
  - reflexivity.
  - lia.
  - exists h1, h2. split; [exact E1|]. split; [exact E2|]. rewrite U2, U1. reflexivity.
Defined.

(** A volume with one file. *)
Definition full_shell : Shell := @mkShell Volume logger_init [] {[chars "a.txt" := chars "hello"]}.
Lemma shell_commands_safe_witness : exists h',
  @parse_cmd Volume ram sample_env (chars "ls") full_shell = Some h' /\ logger_ok (sh_log h') /\
  sh_uart h' = chars "[FILE] a.txt                5 B" ++ crlf.
Proof.
  destruct (@shell_commands_safe Volume ram ram_ok sample_env full_shell (chars "ls")) as (h' & E & H & _ & _ & Hls).
  - exact sample_env_ok.
  - exact logger_init_fine.
  - apply Nat.leb_le. reflexivity.
  - intros _. split; [discriminate|]. vm_compute. split; [discriminate|]. right. left. discriminate.
  - exists h'. split; [exact E|]. split; [exact H|]. rewrite (Hls eq_refl eq_refl). vm_compute. reflexivity.
Defined.
