(* ===== verification/Clients.v ===== *)
(** * Clients of a component

    A component is a set of calls on a state; a client chooses each call from
    the answers so far.  A component refines a specification, a relation
    between calls, abstract states and answers, when each call does; then so
    does every client that keeps to the rules of the calls. *)

From S2P Require Import Prelude.

Section clients.
Context {Op Ans St A : Type} (run : Op -> St -> option (St * Ans)).

Fixpoint run_client (n : nat) (client : list Ans -> Op) (past : list Ans) (s : St) : option (St * list Ans) :=
  match n with
  | O => Some (s, past)
  | S n => '(s, a) ← run (client past) s; run_client n client (past ++ [a]) s
  end.

Context (spec : Op -> A -> A -> Ans -> Prop) (may : Op -> A -> Prop).

(** A client that respects the rules for [n] calls, whatever it is answered. *)
Fixpoint behaves (n : nat) (client : list Ans -> Op) (past : list Ans) (σ : A) : Prop :=
  match n with
  | O => True
  | S n => may (client past) σ /\ forall σ' a, spec (client past) σ σ' a -> behaves n client (past ++ [a]) σ'
  end.

(** The runs of the specification. *)
Inductive spec_runs (client : list Ans -> Op) : nat -> list Ans -> A -> list Ans -> A -> Prop :=
| RunsDone past σ : spec_runs client 0 past σ past σ
| RunsStep n past σ a σ1 past' σ' : spec (client past) σ σ1 a ->
    spec_runs client n (past ++ [a]) σ1 past' σ' -> spec_runs client (S n) past σ past' σ'.

Context (rep : A -> St -> Prop).
Definition call_refines (op : Op) (σ : A) (s : St) : Prop :=
  exists s' a σ', run op s = Some (s', a) /\ spec op σ σ' a /\ rep σ' s'.

Lemma clients_refine n client past σ s :
  (forall op σ s, rep σ s -> may op σ -> call_refines op σ s) -> rep σ s -> behaves n client past σ ->
  exists s' answers σ', run_client n client past s = Some (s', answers) /\ spec_runs client n past σ answers σ' /\ rep σ' s'.
Proof.
  intros Hstep. revert past σ s. induction n as [|n IH]; intros past σ s Hr Hb; cbn [run_client].
  { do 3 eexists. split; [reflexivity|]. split; [constructor|done]. }
  destruct Hb as [Hm Hb]. destruct (Hstep _ σ s Hr Hm) as (s1 & a & σ1 & -> & Hs & Hr1).
  cbn [mbind option_bind]. destruct (IH _ σ1 s1 Hr1 (Hb _ _ Hs)) as (s' & as' & σ' & E & Hrun & Hr').
  exists s', as', σ'. split; [done|]. split; [by econstructor|done].
Qed.
End clients.
