(* ===== verification/SysArch.v ===== *)
(** * sys_arch.c: what lwIP asks of the operating system

    Mailboxes of pointers, counting semaphores, mutexes and threads over the
    queues and tasks of FreeRTOS.  A [sys_mbox_t *] argument is modelled by the
    handle it points to; a function that stores a handle returns it.  Calls
    that may wait are the step machines of [Queue] with the locals of the port
    around them; [under] runs them with anything in between. *)

From S2P Require Import Prelude Bytes Clients LwipErr ListSpec Heap4 Allocator Kernel KernelInv KernelTick KernelResume KernelSched KernelEvent KernelPrio KernelWait Tasks Queue QueueSpec QueueBlock QueueMutex QueueCreate.
#[local] Open Scope Z_scope.

(** ** Constants *)

Definition SYS_ARCH_TIMEOUT : Z := 4294967295.
Definition SYS_MBOX_EMPTY : Z := SYS_ARCH_TIMEOUT.
Definition configTICK_RATE_HZ : Z := 1000.
Definition portTICK_PERIOD_MS : Z := 1000 / configTICK_RATE_HZ.
Definition pdMS_TO_TICKS (ms : Z) : Z := u32 (ms * configTICK_RATE_HZ) / 1000.
Definition sizeof_ptr : Z := 4.

(** ** Mailboxes *)

Section port.
Context {H : Type} `{!Allocator H}.

Definition sys_mbox_new (size : Z) (h : H) (w : World) : option (H * World * Z * Z) :=
  '(h, w, mbox) ← xQueueGenericCreate (u32 size) sizeof_ptr h w;
  Some (h, w, mbox, if mbox =? 0 then ERR_MEM else ERR_OK).

Definition sys_mbox_free (mbox : Z) (h : H) (w : World) (r : Registry) : option (H * World * Registry) :=
  vQueueDelete mbox h w r.

(** Posting is a send that is repeated until it succeeds. *)
Definition sys_mbox_post (mbox msg : Z) : Call := xQueueGenericSend mbox (le32 msg) portMAX_DELAY queueSEND_TO_BACK.
Definition post_step (mbox msg : Z) (c : Call) (w : World) : option (World * (unit + Call)) :=
  '(w, o) ← call_step c w;
  Some (w, match o with
           | inl (true, _) => inl tt
           | inl (false, _) => inr (sys_mbox_post mbox msg)
           | inr c => inr c
           end).

Definition sys_mbox_trypost (mbox msg : Z) (w : World) : option (World * Z) :=
  '(w, ok, _) ← call_now (xQueueGenericSend mbox (le32 msg) 0 queueSEND_TO_BACK) w;
  Some (w, if (ok : bool) then ERR_OK else ERR_MEM).

Definition portYIELD_FROM_ISR (woken : bool) (w : World) : World := if woken then queueYIELD w else w.
Definition sys_mbox_trypost_fromisr (mbox msg : Z) (w : World) : option (World * Z) :=
  '(w, ok, woken) ← xQueueGenericSendFromISR mbox (le32 msg) queueSEND_TO_BACK w;
  Some (if (ok : bool) then (portYIELD_FROM_ISR woken w, ERR_OK) else (w, ERR_MEM)).

(** A wait with a time-out: 0 stands for the longest delay. *)
Definition timeout_ticks (timeout_ms : Z) : Z := if timeout_ms =? 0 then portMAX_DELAY else pdMS_TO_TICKS timeout_ms.
Record Wait := mkWait { wt_call : Call; wt_t0 : Z }.
Definition elapsed_ms (t0 : Z) (w : World) : Z := u32 (u32 (xTaskGetTickCount (w_k w) - t0) * portTICK_PERIOD_MS).

Definition sys_arch_mbox_fetch (mbox timeout_ms : Z) (w : World) : Wait :=
  mkWait (xQueueReceive mbox (timeout_ticks timeout_ms)) (xTaskGetTickCount (w_k w)).
(** Returned: the time waited and what is stored through [msg]. *)
Definition fetch_step (f : Wait) (w : World) : option (World * (Z * Z + Wait)) :=
  '(w, o) ← call_step (wt_call f) w;
  Some (w, match o with
           | inl (true, bs) => inl (elapsed_ms (wt_t0 f) w, le32_of bs)
           | inl (false, _) => inl (SYS_ARCH_TIMEOUT, 0)
           | inr c => inr (mkWait c (wt_t0 f))
           end).

Definition sys_arch_mbox_tryfetch (mbox : Z) (w : World) : option (World * Z * Z) :=
  '(w, ok, bs) ← call_now (xQueueReceive mbox 0) w;
  Some (if (ok : bool) then (w, 0, le32_of bs) else (w, SYS_MBOX_EMPTY, 0)).

Definition sys_mbox_valid (mbox : Z) : Z := if mbox =? 0 then 0 else 1.
Definition sys_mbox_set_invalid (mbox : Z) : Z := 0.

(** ** Semaphores *)

Definition sys_sem_new (count : Z) (h : H) (w : World) : option (H * World * Z * Z) :=
  '(h, w, sem) ← xQueueCreateCountingSemaphore 255 count h w;
  Some (h, w, sem, if sem =? 0 then ERR_MEM else ERR_OK).
Definition sys_sem_free (sem : Z) (h : H) (w : World) (r : Registry) : option (H * World * Registry) :=
  vQueueDelete sem h w r.
(** xSemaphoreGive. *)
Definition sys_sem_signal (sem : Z) (w : World) : option World :=
  '(w, _, _) ← call_now (xQueueGenericSend sem [] 0 queueSEND_TO_BACK) w; Some w.

Definition sys_arch_sem_wait (sem timeout_ms : Z) (w : World) : Wait :=
  mkWait (xQueueSemaphoreTake sem (timeout_ticks timeout_ms)) (xTaskGetTickCount (w_k w)).
Definition wait_step (f : Wait) (w : World) : option (World * (Z + Wait)) :=
  '(w, o) ← call_step (wt_call f) w;
  Some (w, match o with
           | inl (true, _) => inl (elapsed_ms (wt_t0 f) w)
           | inl (false, _) => inl SYS_ARCH_TIMEOUT
           | inr c => inr (mkWait c (wt_t0 f))
           end).
Definition sys_sem_valid (sem : Z) : Z := if sem =? 0 then 0 else 1.
Definition sys_sem_set_invalid (sem : Z) : Z := 0.

(** ** Mutexes *)

Definition sys_mutex_new (h : H) (w : World) : option (H * World * Z * Z) :=
  '(h, w, mutex) ← xQueueCreateMutex h w;
  Some (h, w, mutex, if mutex =? 0 then ERR_MEM else ERR_OK).
Definition sys_mutex_free (mutex : Z) (h : H) (w : World) (r : Registry) : option (H * World * Registry) :=
  vQueueDelete mutex h w r.
Definition sys_mutex_lock (mutex : Z) : Call := xQueueSemaphoreTake mutex portMAX_DELAY.
Definition sys_mutex_unlock (mutex : Z) (w : World) : option World :=
  '(w, _, _) ← call_now (xQueueGenericSend mutex [] 0 queueSEND_TO_BACK) w; Some w.
Definition sys_mutex_valid (mutex : Z) : Z := if mutex =? 0 then 0 else 1.
Definition sys_mutex_set_invalid (mutex : Z) : Z := 0.

(** ** Threads and time *)

(** [configSTACK_DEPTH_TYPE] is [uint16_t]; the handle stays NULL when the
    task could not be created. *)
Definition sys_thread_new (old_name : list Z) (task_return : Z) (name : list Z) (fn arg stacksize prio : Z)
    (s : System H) : option (System H * Z) :=
  xTaskCreate old_name task_return fn (Some name) (u16 stacksize) arg (u32 prio) s.

Definition sys_now (k : Kernel) : Z := u32 (xTaskGetTickCount k * portTICK_PERIOD_MS).
End port.

(** ** The contract: a store of mailboxes and semaphores *)

Inductive Obj := Mbox (size : Z) (msgs : list Z) | Sem (count : Z).

Inductive port_op :=
| NewMbox (size : Z) | FreeMbox (q : Z) | Post (q m : Z) | TryPost (q m : Z) | TryPostFromISR (q m : Z)
| Fetch (q timeout : Z) | TryFetch (q : Z)
| NewSem (count : Z) | FreeSem (q : Z) | Signal (q : Z) | SemWait (q timeout : Z).

(** What a call returns: nothing, an error code, an error code and a handle, a
    time and a message, a time. *)
Inductive port_answer := RNone | RErr (e : Z) | RNew (e q : Z) | RMsg (ms m : Z) | RTime (ms : Z).

Section run.
Context {H : Type} `{!Allocator H}.

Definition Port : Type := H * World * Registry.
Definition on_world (s : Port) (r : option (World * port_answer)) : option (Port * port_answer) :=
  '(w, a) ← r; Some ((s.1.1, w, s.2), a).

(** The calls, those that may wait when they need not. *)
Definition run_port (op : port_op) (s : Port) : option (Port * port_answer) :=
  let '(h, w, r) := s in
  match op with
  | NewMbox n => '(h, w, q, e) ← sys_mbox_new n h w; Some ((h, w, r), RNew e q)
  | FreeMbox q => s ← sys_mbox_free q h w r; Some (s, RNone)
  | Post q m => on_world s ('(w, o) ← post_step q m (sys_mbox_post q m) w;
                            match o with inl _ => Some (w, RNone) | inr _ => None end)
  | TryPost q m => on_world s ('(w, e) ← sys_mbox_trypost q m w; Some (w, RErr e))
  | TryPostFromISR q m => on_world s ('(w, e) ← sys_mbox_trypost_fromisr q m w; Some (w, RErr e))
  | Fetch q t => on_world s ('(w, o) ← fetch_step (sys_arch_mbox_fetch q t w) w;
                             match o with inl (ms, m) => Some (w, RMsg ms m) | inr _ => None end)
  | TryFetch q => on_world s ('(w, ms, m) ← sys_arch_mbox_tryfetch q w; Some (w, RMsg ms m))
  | NewSem n => '(h, w, q, e) ← sys_sem_new n h w; Some ((h, w, r), RNew e q)
  | FreeSem q => s ← sys_sem_free q h w r; Some (s, RNone)
  | Signal q => on_world s (w ← sys_sem_signal q w; Some (w, RNone))
  | SemWait q t => on_world s ('(w, o) ← wait_step (sys_arch_sem_wait q t w) w;
                               match o with inl ms => Some (w, RTime ms) | inr _ => None end)
  end.
End run.

(** The same on the store.  Creating may fail; nothing else is left open. *)
Inductive spec_port : port_op -> gmap Z Obj -> gmap Z Obj -> port_answer -> Prop :=
| SNewMbox n σ q : 0 < q -> σ !! q = None -> spec_port (NewMbox n) σ (<[q := Mbox n []]> σ) (RNew ERR_OK q)
| SNoMbox n σ : spec_port (NewMbox n) σ σ (RNew ERR_MEM 0)
| SFreeMbox σ q : spec_port (FreeMbox q) σ (delete q σ) RNone
| SPost σ q m n ms : σ !! q = Some (Mbox n ms) -> spec_port (Post q m) σ (<[q := Mbox n (ms ++ [m])]> σ) RNone
| STryPost σ q m n ms : σ !! q = Some (Mbox n ms) -> Z.of_nat (length ms) < n ->
    spec_port (TryPost q m) σ (<[q := Mbox n (ms ++ [m])]> σ) (RErr ERR_OK)
| STryPostFull σ q m n ms : σ !! q = Some (Mbox n ms) -> Z.of_nat (length ms) = n ->
    spec_port (TryPost q m) σ σ (RErr ERR_MEM)
| SIsrPost σ q m n ms : σ !! q = Some (Mbox n ms) -> Z.of_nat (length ms) < n ->
    spec_port (TryPostFromISR q m) σ (<[q := Mbox n (ms ++ [m])]> σ) (RErr ERR_OK)
| SIsrPostFull σ q m n ms : σ !! q = Some (Mbox n ms) -> Z.of_nat (length ms) = n ->
    spec_port (TryPostFromISR q m) σ σ (RErr ERR_MEM)
| SFetch σ q t n m ms : σ !! q = Some (Mbox n (m :: ms)) -> spec_port (Fetch q t) σ (<[q := Mbox n ms]> σ) (RMsg 0 m)
| STryFetch σ q n m ms : σ !! q = Some (Mbox n (m :: ms)) -> spec_port (TryFetch q) σ (<[q := Mbox n ms]> σ) (RMsg 0 m)
| STryFetchNone σ q n : σ !! q = Some (Mbox n []) -> spec_port (TryFetch q) σ σ (RMsg SYS_MBOX_EMPTY 0)
| SNewSem n σ q : 0 < q -> σ !! q = None -> spec_port (NewSem n) σ (<[q := Sem n]> σ) (RNew ERR_OK q)
| SNoSem n σ : spec_port (NewSem n) σ σ (RNew ERR_MEM 0)
| SFreeSem σ q : spec_port (FreeSem q) σ (delete q σ) RNone
| SSignal σ q n : σ !! q = Some (Sem n) -> spec_port (Signal q) σ (<[q := Sem (Z.min 255 (n + 1))]> σ) RNone
| SSemWait σ q t n : σ !! q = Some (Sem n) -> spec_port (SemWait q t) σ (<[q := Sem (n - 1)]> σ) (RTime 0).

Definition is_mbox (σ : gmap Z Obj) (q : Z) : Prop := exists n ms, σ !! q = Some (Mbox n ms).
Definition is_sem (σ : gmap Z Obj) (q : Z) : Prop := exists n, σ !! q = Some (Sem n).

(** What a client has to respect: sizes that fit, live objects of the right
    kind, pointers of 32 bits, nobody waiting for what is freed ([N q]), and
    here, waits that need not wait. *)
Definition may_call (N : Z -> Prop) (op : port_op) (σ : gmap Z Obj) : Prop :=
  match op with
  | NewMbox n => 0 < n /\ sizeof_Queue_t + n * 4 < 4294967296
  | FreeMbox q => is_mbox σ q /\ N q
  | Post q m => (exists n ms, σ !! q = Some (Mbox n ms) /\ Z.of_nat (length ms) < n) /\ 0 <= m < 4294967296
  | TryPost q m | TryPostFromISR q m => is_mbox σ q /\ 0 <= m < 4294967296
  | Fetch q _ => exists n m ms, σ !! q = Some (Mbox n (m :: ms))
  | TryFetch q => is_mbox σ q
  | NewSem n => 0 <= n <= 255
  | FreeSem q => is_sem σ q /\ N q
  | Signal q => is_sem σ q
  | SemWait q _ => exists n, σ !! q = Some (Sem n) /\ 0 < n
  end.

(** ** Representation *)

Definition obj_items (o : Obj) : list (list Z) :=
  match o with Mbox _ ms => map le32 ms | Sem n => replicate (Z.to_nat n) [] end.
Definition obj_len (o : Obj) : Z := match o with Mbox n _ => n | Sem _ => 255 end.
Definition obj_size (o : Obj) : Z := match o with Mbox _ _ => 4 | Sem _ => 0 end.
Definition obj_ok (o : Obj) : Prop :=
  match o with Mbox _ ms => Forall (fun m => 0 <= m < 4294967296) ms | Sem n => 0 <= n end.
Definition obj_bytes (o : Obj) : Z := sizeof_Queue_t + obj_len o * obj_size o.

Record obj_rep (q : Z) (w : World) (o : Obj) : Prop := mkObjRep {
  or_holds : exists c, holds q w c (obj_items o) /\ uxLength c = obj_len o /\ uxItemSize c = obj_size o /\
    (0 < obj_size o -> pcHead c = q + sizeof_Queue_t);
  or_ok : obj_ok o
}.

(** Blocks in use do not overlap. *)
Definition apart (bs : gmap Z Z) : Prop := forall p q v u, bs !! p = Some v -> bs !! q = Some u -> p <> q ->
  p + v <= q \/ q + u <= p.

Section rep.
Context {H : Type} `{!Allocator H} {HA : AllocatorOk H}.

(** Nobody waits at the addresses in [N]. *)
Record port_rep (N : Z -> Prop) (σ : gmap Z Obj) (s : Port (H := H)) (bs : gmap Z Z) : Prop := mkPortRep {
  pr_kinv : kinv (w_k s.1.2);
  pr_owns : owns s.1.1 bs;
  pr_unused : forall q, bs !! q = None -> N q;
  pr_nobody : forall q n, N q -> klist (w_k s.1.2) (LEvent q n) = [];
  pr_apart : apart bs;
  pr_objs : forall q o, σ !! q = Some o -> 0 < q /\ bs !! q = Some (obj_bytes o) /\ obj_rep q s.1.2 o
}.

(** *** Nobody joins a waiting list *)

Definition fewer (k k' : Kernel) : Prop := forall q n, klist k (LEvent q n) = [] -> klist k' (LEvent q n) = [].

Lemma released_fewer t k k' : kinv k -> released t k k' -> fewer k k'.
Proof.
  intros [Hb _ _] [[Hb' _ _] _ Hnow Hlater Hoth] q n Hnil. apply (klist_nil _ _ Hb'). intros i Hi.
  destruct (event_item _ _ _ Hb' Hi I) as [u ->]. apply (proj1 (klist_nil _ _ Hb) Hnil (IEvent u)).
  destruct (decide (u = t)) as [->|Hu]; [|by rewrite <- (proj2 (Hoth u Hu))].
  destruct (decide (uxSchedulerSuspended k = 0)) as [Hs|Hs].
  - destruct (Hnow Hs) as [_ E]. by rewrite E in Hi.
  - destruct (Hlater Hs) as [_ E]. by rewrite E in Hi.
Qed.

Lemma woke_fewer q n k k' y : kinv k -> woke (LEvent q n) k k' y -> fewer k k'.
Proof.
  intros Hk [(_ & -> & _)|(t & _ & Hr & _)]; [by intros ???|]. by apply (released_fewer t k k' Hk).
Qed.

Lemma fewer_yield_if k k' y : fewer k k' -> fewer k (yield_if y k').
Proof. intros Hf q n Hn. specialize (Hf q n Hn). by destruct y. Qed.

(** *** One object changes, the others stay *)

Lemma queue_rep_outside c m m' xs : queue_rep c m xs ->
  (0 < uxItemSize c -> forall a, pcHead c <= a < pcHead c + uxLength c * uxItemSize c -> m' !! a = m !! a) ->
  queue_rep c m' xs.
Proof.
  intros [Hk Hl Hc Hs Hr] Hm. split; try done. destruct Hr as [?|[r [[Hs0 Hend] Ht Hrd Hw Hi]]]; [by left|right].
  exists r. split; try done. intros i x Hx. rewrite <- (Hi i x Hx). apply load_bytes_ext. intros a Ha.
  apply Hm; [lia|]. pose proof (slot_bounds (pcHead c) (uxLength c) (uxItemSize c) ltac:(lia) ltac:(lia) (r + 1 + Z.of_nat i)).
  lia.
Qed.

Lemma rep_step N σ s bs q o c w' o' : port_rep N σ s bs -> σ !! q = Some o ->
  holds q s.1.2 c (obj_items o) -> uxLength c = obj_len o -> uxItemSize c = obj_size o ->
  (0 < obj_size o -> pcHead c = q + sizeof_Queue_t) ->
  queue_step q c s.1.2 w' (obj_items o') -> fewer (w_k s.1.2) (w_k w') ->
  obj_len o' = obj_len o -> obj_size o' = obj_size o -> obj_ok o' ->
  port_rep N (<[q := o']> σ) (s.1.1, w', s.2) bs.
Proof.
  intros [Hk Ho Hun Hno Hap Hobj] Eq Hh Hlen Hsz Hhead [Hk' (c' & Hh' & L' & S' & P') Hqs Hm] Hf El Es Hok'.
  split; [done|done|done| |done|].
  - intros p n Hp. by apply Hf, Hno.
  - intros p x. rewrite lookup_insert_Some. destruct (Hobj q o Eq) as (Hq & Hbs & _).
    intros [[<- <-]|[Hne Ex]]; simpl.
    { unfold obj_bytes. rewrite El, Es. split_and!; [done|done|]. split; [|done]. exists c'.
      rewrite L', S', P', El, Es. by split_and!. }
    destruct (Hobj p x Ex) as (Hp & Hbp & [(d & [Ed Hrep] & Ld & Sd & Pd) Hokx]). split_and!; [done|done|].
    split; [|done]. exists d. split_and!; try done. split; [by rewrite Hqs|].
    apply (queue_rep_outside d (w_mem s.1.2)); [done|]. intros Hd a Ha. apply Hm.
    assert (0 < obj_size x) as Hx by lia. rewrite (Pd Hx) in Ha. intros Ha'.
    assert (uxItemSize c <> 0) as Hc by (intros E0; rewrite E0 in Ha'; lia).
    assert (0 < obj_size o) as Ho' by (destruct o; simpl in *; lia). rewrite (Hhead Ho') in Ha'.
    unfold obj_bytes in *. rewrite Ld, Sd in Ha. rewrite Hlen, Hsz in Ha'.
    unfold sizeof_Queue_t in *. destruct (Hap q p _ _ Hbs Hbp); [congruence|lia|lia].
Qed.

(** An object that was just created. *)
Lemma rep_new N σ s bs q o h' w' : port_rep N σ s bs -> fresh bs q (obj_bytes o) -> owns h' (<[q := obj_bytes o]> bs) ->
  kinv (w_k w') -> (forall l, klist (w_k w') l = klist (w_k s.1.2) l) -> obj_rep q w' o ->
  (forall p, p <> q -> w_q w' !! p = w_q s.1.2 !! p) -> w_mem w' = w_mem s.1.2 ->
  port_rep N (<[q := o]> σ) (h', w', s.2) (<[q := obj_bytes o]> bs).
Proof.
  intros [Hk Ho Hun Hno Hap Hobj] [[Hq _] _ Hnew Hapq] Ho' Hk' Hl Hrep Hqs Hm. split; [done|done| | | |].
  - intros p [Hp _]%lookup_insert_None. by apply Hun.
  - intros p n Hp. simpl. rewrite Hl. by apply Hno.
  - intros p p' v u. rewrite !lookup_insert_Some. intros [[<- <-]|[? E1]] [[<- <-]|[? E2]] Hne; [done| | |by eapply Hap].
    + destruct (Hapq _ _ E2); [by right|by left].
    + destruct (Hapq _ _ E1); [by left|by right].
  - intros p x. rewrite lookup_insert_Some. intros [[<- <-]|[Hne Ex]]; [by rewrite lookup_insert_eq|].
    destruct (Hobj p x Ex) as (Hp & Hbp & [(d & [Ed Hrd] & Hd) Hok]). rewrite lookup_insert_ne by done.
    split_and!; [done|done|]. split; [|done]. exists d. split; [|done]. split; simpl; [rewrite Hqs; [done|congruence]|by rewrite Hm].
Qed.

Lemma fresh_unnamed N σ s bs q n : port_rep N σ s bs -> fresh bs q n -> σ !! q = None.
Proof.
  intros Hr Hf. destruct (σ !! q) as [o|] eqn:E; [|done]. destruct (pr_objs _ _ _ _ Hr q o E) as (_ & Hb & _).
  by rewrite (fr_new _ _ _ Hf) in Hb.
Qed.

(** *** Sending and receiving *)

Lemma obj_kinv N σ s bs q o : port_rep N σ s bs -> σ !! q = Some o -> exists c, kinv (w_k s.1.2) /\
  holds q s.1.2 c (obj_items o) /\ uxLength c = obj_len o /\ uxItemSize c = obj_size o /\
  (0 < obj_size o -> pcHead c = q + sizeof_Queue_t) /\ obj_ok o /\ Z.of_nat (length (obj_items o)) <= obj_len o.
Proof.
  intros Hr Eq. destruct (pr_objs _ _ _ _ Hr q o Eq) as (_ & _ & [(c & Hh & Hl & Hs & Hp) Hok]). exists c.
  pose proof (qr_count _ _ _ (proj2 Hh)) as [_ Hle]. rewrite Hl in Hle. split_and!; try done. apply Hr.
Qed.

(** What a successful or refused send leaves. *)
Definition sent N (σ : gmap Z Obj) (s : Port (H := H)) bs q o x w' : Prop :=
  if Z.of_nat (length (obj_items o)) <? obj_len o then
    forall o', obj_items o' = obj_items o ++ [x] -> obj_len o' = obj_len o -> obj_size o' = obj_size o -> obj_ok o' ->
      port_rep N (<[q := o']> σ) (s.1.1, w', s.2) bs
  else port_rep N σ (s.1.1, w', s.2) bs.

Lemma accepts_back c o : uxLength c = obj_len o ->
  accepts c queueSEND_TO_BACK (obj_items o) = (Z.of_nat (length (obj_items o)) <? obj_len o).
Proof. intros Hl. unfold accepts. by rewrite bool_decide_eq_false_2, orb_false_r, Hl. Qed.

Lemma send_rep N σ s bs q o x : port_rep N σ s bs -> σ !! q = Some o -> Z.of_nat (length x) = obj_size o ->
  exists w', try_send q x queueSEND_TO_BACK s.1.2 =
      Some (w', if Z.of_nat (length (obj_items o)) <? obj_len o then Some (true, []) else None) /\
    sent N σ s bs q o x w'.
Proof.
  intros Hr Eq Hx. destruct (obj_kinv N σ s bs q o Hr Eq) as (c & Hk & Hh & Hl & Hs & Hp & Hok & _).
  destruct (try_send_ok q c (obj_items o) x queueSEND_TO_BACK s.1.2 Hk Hh) as (w' & E & Hstep & Hw); [by split; [lia|]|].
  rewrite (accepts_back c o Hl) in *. exists w'. split; [done|]. unfold sent. destruct (_ <? _).
  - intros o' Hi Hl' Hs' Hok'. destruct Hw as (k1 & y & Hw & Ek).
    apply (rep_step N σ s bs q o c w' o' Hr Eq Hh); [done..| | |done|done|done]; [by rewrite Hi|].
    rewrite Ek. apply fewer_yield_if. by apply (woke_fewer q 1 _ _ y).
  - subst w'. by destruct s as [[h w] r].
Qed.

Lemma send_isr_rep N σ s bs q o x : port_rep N σ s bs -> σ !! q = Some o -> Z.of_nat (length x) = obj_size o ->
  exists w' y, xQueueGenericSendFromISR q x queueSEND_TO_BACK s.1.2 =
      Some (w', Z.of_nat (length (obj_items o)) <? obj_len o, y) /\
    sent N σ s bs q o x (if Z.of_nat (length (obj_items o)) <? obj_len o then portYIELD_FROM_ISR y w' else w').
Proof.
  intros Hr Eq Hx. destruct (obj_kinv N σ s bs q o Hr Eq) as (c & Hk & Hh & Hl & Hs & Hp & Hok & _).
  destruct (xQueueGenericSendFromISR_ok q c (obj_items o) x queueSEND_TO_BACK s.1.2 Hk Hh) as (w' & y & E & Hstep & Hw); [by split; [lia|]|].
  rewrite (accepts_back c o Hl) in *. exists w', y. split; [done|]. unfold sent. destruct (_ <? _).
  - intros o' Hi Hl' Hs' Hok'. destruct Hw as (c' & _ & _ & Hw).
    assert (fewer (w_k s.1.2) (w_k w')) as Hf.
    { unfold woke_or_counted in Hw. destruct (cTxLock c =? queueUNLOCKED).
      - apply (woke_fewer q 1 _ _ y Hk). apply Hw.
      - destruct Hw as [-> _]. by intros ???. }
    assert (portYIELD_FROM_ISR y w' = set_kernel (yield_if y (w_k w')) w') as -> by (destruct w'; by destruct y).
    apply (rep_step N σ s bs q o c _ o' Hr Eq Hh); [done..| | |done|done|done].
    + rewrite Hi. apply queue_step_kernel; [done|]. apply kinv_yield_if. apply Hstep.
    + by apply fewer_yield_if.
  - destruct Hw as [-> _]. by destruct s as [[h w] r].
Qed.

(** The first item taken by [f] (receive or take). *)
Lemma took_rep N σ s bs q o c w' : port_rep N σ s bs -> σ !! q = Some o -> kinv (w_k s.1.2) ->
  holds q s.1.2 c (obj_items o) -> uxLength c = obj_len o -> uxItemSize c = obj_size o ->
  (0 < obj_size o -> pcHead c = q + sizeof_Queue_t) ->
  queue_step q c s.1.2 w' (tail (obj_items o)) ->
  (if bool_decide (obj_items o = []) then w' = s.1.2 else
     exists k1 y, woke (xTasksWaitingToSend q) (w_k s.1.2) k1 y /\ w_k w' = yield_if y k1) ->
  forall o', obj_items o' = tail (obj_items o) -> obj_len o' = obj_len o -> obj_size o' = obj_size o -> obj_ok o' ->
    port_rep N (<[q := o']> σ) (s.1.1, w', s.2) bs.
Proof.
  intros Hr Eq Hk Hh Hl Hs Hp Hstep Hw o' Hi Hl' Hs' Hok'.
  apply (rep_step N σ s bs q o c w' o' Hr Eq Hh); [done..| | |done|done|done]; [by rewrite Hi|].
  case_bool_decide; [subst w'; by intros ???|]. destruct Hw as (k1 & y & Hw & ->).
  apply fewer_yield_if. by apply (woke_fewer q 0 _ _ y).
Qed.

Lemma receive_rep N σ s bs q o : port_rep N σ s bs -> σ !! q = Some o -> exists w',
  try_receive q s.1.2 = Some (w', answer_of (obj_items o)) /\
  forall o', obj_items o' = tail (obj_items o) -> obj_len o' = obj_len o -> obj_size o' = obj_size o -> obj_ok o' ->
    port_rep N (<[q := o']> σ) (s.1.1, w', s.2) bs.
Proof.
  intros Hr Eq. destruct (obj_kinv N σ s bs q o Hr Eq) as (c & Hk & Hh & Hl & Hs & Hp & _ & _).
  destruct (try_receive_ok q c (obj_items o) s.1.2 Hk Hh) as (w' & E & Hstep & Hw). exists w'. split; [done|].
  by apply (took_rep N σ s bs q o c w').
Qed.

Lemma take_rep N σ s bs q n : port_rep N σ s bs -> σ !! q = Some (Sem n) -> 0 < n -> exists w',
  try_take q s.1.2 = Some (w', Some (true, [])) /\ port_rep N (<[q := Sem (n - 1)]> σ) (s.1.1, w', s.2) bs.
Proof.
  intros Hr Eq Hn. destruct (obj_kinv N σ s bs q _ Hr Eq) as (c & Hk & Hh & Hl & Hs & Hp & Hok & _).
  destruct (try_take_ok q c _ s.1.2 Hk Hh Hs) as (w' & E & Hstep & Hw). exists w'.
  assert (obj_items (Sem n) = [] :: obj_items (Sem (n - 1))) as Ei.
  { simpl. replace (Z.to_nat n) with (S (Z.to_nat (n - 1))) by lia. done. }
  split; [by rewrite Ei in E|]. apply (took_rep N σ s bs q (Sem n) c w'); try done; [by rewrite Ei|simpl; lia].
Qed.
End rep.

(** ** Every call does what the store does *)

Section refine.
Context {H : Type} `{!Allocator H} {HA : AllocatorOk H}.

(** A call that answers, with the state it leaves. *)
Definition refines (N : Z -> Prop) (op : port_op) (σ : gmap Z Obj) (s : Port (H := H)) : Prop :=
  exists s' a σ' bs', run_port op s = Some (s', a) /\ spec_port op σ σ' a /\ port_rep N σ' s' bs'.

(** The first step of a call that can be served at once. *)
Lemma served r q ticks w w' x : try_request r q w = Some (w', Some x) -> call_step (start_call r q ticks) w = Some (w', inl x).
Proof. intros E. unfold call_step. cbn [start_call c_pc c_request c_queue]. by rewrite E. Qed.

Lemma map_bytes_length ms : length (map le32 ms) = length ms.
Proof. apply length_map. Qed.

Lemma elapsed_none k w' : xTickCount k = xTickCount (w_k w') -> elapsed_ms (xTickCount k) w' = 0.
Proof. intros E. unfold elapsed_ms, xTaskGetTickCount. by rewrite E, Z.sub_diag. Qed.

Lemma woke_tick q n k k' y : woke (LEvent q n) k k' y -> xTickCount k' = xTickCount k.
Proof.
  intros [(_ & -> & _)|(t & _ & [_ (b & k1 & Hl & ->) _ _ _] & _)]; [done|]. simpl. destruct Hl as (? & ? & ? & ->). done.
Qed.

(** Nothing that is served at once lets time pass. *)
Lemma receive_tick q c xs w w' : kinv (w_k w) -> holds q w c xs -> try_receive q w = Some (w', answer_of xs) ->
  xTickCount (w_k w') = xTickCount (w_k w).
Proof.
  intros Hk Hh E. destruct (try_receive_ok q c xs w Hk Hh) as (w2 & E2 & _ & Hw). rewrite E in E2. injection E2 as <-.
  case_bool_decide; [by subst|]. destruct Hw as (k1 & y & Hw & ->). rewrite <- (woke_tick _ _ _ _ _ Hw). by destruct y.
Qed.
Lemma take_tick q c xs w w' : kinv (w_k w) -> holds q w c xs -> uxItemSize c = 0 -> try_take q w = Some (w', answer_of xs) ->
  xTickCount (w_k w') = xTickCount (w_k w).
Proof.
  intros Hk Hh Hs E. destruct (try_take_ok q c xs w Hk Hh Hs) as (w2 & E2 & _ & Hw). rewrite E in E2. injection E2 as <-.
  case_bool_decide; [by subst|]. destruct Hw as (k1 & y & Hw & ->). rewrite <- (woke_tick _ _ _ _ _ Hw). by destruct y.
Qed.

Lemma new_mbox_refines N σ s bs n : port_rep N σ s bs -> may_call N (NewMbox n) σ -> refines N (NewMbox n) σ s.
Proof using HA.
  intros Hr [Hn Hfit]. destruct s as [[h w] r]. pose proof Hr as [Hk Ho Hun Hno _ _].
  unfold sizeof_Queue_t in Hfit.
  destruct (create_outcome n 4 h bs w Hk Ho) as (h' & w' & q & E & Hout);
    [by intros p i Hp; apply Hno, Hun|unfold sizeof_Queue_t; lia..|].
  unfold refines, run_port, sys_mbox_new, sizeof_ptr. rewrite u32_small by lia. rewrite E. cbn [mbind option_bind].
  destruct Hout as [(-> & -> & Ho')|(Hf & Ho' & Hcr)].
  { do 4 eexists. split; [reflexivity|]. split; [by constructor|]. by split; try done; apply Hr. }
  pose proof Hf as [[Hq Hend] _ _ _]. destruct Hcr as [Hst [Hk' Hqs Hm Hl _ _]]; [unfold sizeof_Queue_t; lia|].
  destruct (Z.eqb_spec q 0); [lia|]. do 4 eexists. split; [reflexivity|].
  split; [constructor; [lia|by eapply fresh_unnamed]|].
  apply (rep_new N σ (h, w, r) bs q (Mbox n []) h' w' Hr Hf Ho' Hk' Hl); simpl; [|by intros p Hp; rewrite Hqs, lookup_insert_ne|done].
  split; [|simpl; by constructor]. eexists. split; [split; [by rewrite Hqs, lookup_insert_eq|by apply new_queue_rep; [|lia]]|].
  done.
Qed.

Lemma new_sem_refines N σ s bs n : port_rep N σ s bs -> may_call N (NewSem n) σ -> refines N (NewSem n) σ s.
Proof using HA.
  intros Hr Hn. simpl in Hn. destruct s as [[h w] r]. pose proof Hr as [Hk Ho Hun Hno _ _].
  assert (unused_lists (w_k w) bs) as Hul by (intros p i Hp; by apply Hno, Hun).
  destruct (semaphore_outcome 255 h bs w Hk Ho Hul) as (h' & w' & q & E & Hout); [lia|].
  unfold refines, run_port, sys_sem_new, xQueueCreateCountingSemaphore. rewrite E. cbn [mbind option_bind].
  destruct Hout as [(-> & -> & Ho')|(Hf & Ho' & Hq & [Hk' Hqs Hm Hl _ _])].
  { do 4 eexists. split; [reflexivity|]. split; [by constructor|]. by split; try done; apply Hr. }
  destruct (Z.eqb_spec q 0); [done|]. cbn [negb].
  assert (w_q w' !! q = Some (new_queue 255 0 (q + sizeof_Queue_t) q)) as Eq by (by rewrite Hqs, lookup_insert_eq).
  rewrite (upd_queue_eq _ _ _ _ Eq). cbn [mbind option_bind]. destruct (Z.eqb_spec q 0); [done|]. do 4 eexists. split; [reflexivity|].
  pose proof Hf as [[Hq0 _] _ _ _]. split; [constructor; [lia|by eapply fresh_unnamed]|].
  apply (rep_new N σ (h, w, r) bs q (Sem n) h' _ Hr Hf Ho'); [done|done| | |done].
  - split; [|simpl; lia]. eexists. split; [split; [simpl; by rewrite lookup_insert_eq|]|done].
    split; simpl; [done|lia|rewrite length_replicate; lia|split; [lia|by apply Forall_replicate]|by left].
  - intros p Hp. simpl. by rewrite Hqs, !lookup_insert_ne.
Qed.

Lemma port_free_refines N σ h w r bs q o : port_rep N σ (h, w, r) bs -> σ !! q = Some o -> N q -> exists s' bs',
  vQueueDelete q h w r = Some s' /\ port_rep N (delete q σ) s' bs'.
Proof using HA.
  intros [Hk Ho Hun Hno Hap Hobj] Eq HN. destruct (Hobj q o Eq) as (Hq & Hb & _).
  destruct (free_ok h bs q _ Ho Hb) as (h' & E & Ho'). unfold vQueueDelete. rewrite E. cbn [mbind option_bind].
  do 2 eexists. split; [reflexivity|]. split; [done|exact Ho'| |done| |].
  - intros p [->|Hp]%lookup_delete_None; [done|by apply Hun].
  - intros p p' v u [_ E1]%lookup_delete_Some [_ E2]%lookup_delete_Some. by apply (Hap p p').
  - intros p x [Hne Ex]%lookup_delete_Some. destruct (Hobj p x Ex) as (Hp & Hbp & [(c & [Ec Hc] & Hl) Hok]).
    split_and!; [done|by rewrite lookup_delete_ne|]. split; [|done]. exists c. split; [|done]. split; [simpl; by rewrite lookup_delete_ne|done].
Qed.

(** A sent message appended to the box. *)
Lemma mbox_room n ms : (Z.of_nat (length (obj_items (Mbox n ms))) <? obj_len (Mbox n ms)) = (Z.of_nat (length ms) <? n).
Proof. simpl. by rewrite length_map. Qed.

Lemma sent_mbox N σ s bs q n ms m w' : sent N σ s bs q (Mbox n ms) (le32 m) w' -> Forall (fun m => 0 <= m < 4294967296) ms ->
  0 <= m < 4294967296 -> Z.of_nat (length ms) < n -> port_rep (H := H) N (<[q := Mbox n (ms ++ [m])]> σ) (s.1.1, w', s.2) bs.
Proof.
  unfold sent. rewrite mbox_room. intros Hs Hms Hm Hlt. destruct (Z.ltb_spec (Z.of_nat (length ms)) n); [|lia].
  apply Hs; simpl; [by rewrite map_app|done|done|]. apply Forall_app. split; [done|]. by constructor.
Qed.

Lemma sent_refused N σ s bs q o x w' : sent (H := H) N σ s bs q o x w' -> obj_len o <= Z.of_nat (length (obj_items o)) ->
  port_rep N σ (s.1.1, w', s.2) bs.
Proof. unfold sent. destruct (Z.ltb_spec (Z.of_nat (length (obj_items o))) (obj_len o)); [lia|done]. Qed.

Lemma post_refines N σ s bs q m : port_rep N σ s bs -> may_call N (Post q m) σ -> refines N (Post q m) σ s.
Proof.
  intros Hr [(n & ms & Eq & Hlt) Hm]. destruct (obj_kinv N σ s bs q _ Hr Eq) as (c & _ & _ & _ & _ & _ & Hok & _).
  destruct (send_rep N σ s bs q _ (le32 m) Hr Eq) as (w' & E & Hs); [done|]. rewrite mbox_room in E.
  destruct (Z.ltb_spec (Z.of_nat (length ms)) n); [|lia]. destruct s as [[h w] r]. cbn [fst snd] in *. unfold refines, run_port, post_step, sys_mbox_post, xQueueGenericSend.
  rewrite (served (Send _ _) _ _ _ _ _ E). do 4 eexists. split; [reflexivity|]. split; [by constructor|]. by apply (sent_mbox _ _ _ _ _ _ _ _ _ Hs).
Qed.

Lemma trypost_refines N σ s bs q m : port_rep N σ s bs -> may_call N (TryPost q m) σ -> refines N (TryPost q m) σ s.
Proof.
  intros Hr [(n & ms & Eq) Hm]. destruct (obj_kinv N σ s bs q _ Hr Eq) as (c & _ & _ & _ & _ & _ & Hok & Hle).
  destruct (send_rep N σ s bs q _ (le32 m) Hr Eq) as (w' & E & Hs); [done|]. rewrite mbox_room in E.
  destruct s as [[h w] r]. cbn [fst snd] in *. unfold refines, run_port, sys_mbox_trypost, xQueueGenericSend.
  rewrite (call_now_try (Send _ _) _ _ _ _ E). simpl in Hle. rewrite length_map in Hle.
  destruct (Z.ltb_spec (Z.of_nat (length ms)) n); do 4 eexists; (split; [reflexivity|]).
  - split; [by eapply STryPost|]. by apply (sent_mbox _ _ _ _ _ _ _ _ _ Hs).
  - split; [eapply STryPostFull; [done|lia]|]. apply (sent_refused _ _ _ _ _ _ _ _ Hs). simpl. rewrite length_map. lia.
Qed.

Lemma trypost_isr_refines N σ s bs q m : port_rep N σ s bs -> may_call N (TryPostFromISR q m) σ -> refines N (TryPostFromISR q m) σ s.
Proof.
  intros Hr [(n & ms & Eq) Hm]. destruct (obj_kinv N σ s bs q _ Hr Eq) as (c & _ & _ & _ & _ & _ & Hok & Hle).
  destruct (send_isr_rep N σ s bs q _ (le32 m) Hr Eq) as (w' & y & E & Hs); [done|]. rewrite mbox_room in *.
  destruct s as [[h w] r]. cbn [fst snd] in *. unfold refines, run_port, sys_mbox_trypost_fromisr. cbn [fst snd] in E. rewrite E. cbn [mbind option_bind].
  simpl in Hle. rewrite length_map in Hle. destruct (Z.ltb_spec (Z.of_nat (length ms)) n); do 4 eexists; (split; [reflexivity|]).
  - split; [by eapply SIsrPost|]. by apply (sent_mbox _ _ _ _ _ _ _ _ _ Hs).
  - split; [eapply SIsrPostFull; [done|lia]|]. apply (sent_refused _ _ _ _ _ _ _ _ Hs). simpl. rewrite length_map. lia.
Qed.

Lemma fetch_first N σ s bs q n m ms : port_rep N σ s bs -> σ !! q = Some (Mbox n (m :: ms)) -> exists w',
  try_receive q s.1.2 = Some (w', Some (true, le32 m)) /\ le32_of (le32 m) = m /\
  xTickCount (w_k w') = xTickCount (w_k s.1.2) /\ port_rep N (<[q := Mbox n ms]> σ) (s.1.1, w', s.2) bs.
Proof.
  intros Hr Eq. destruct (obj_kinv N σ s bs q _ Hr Eq) as (c & Hk & Hh & _ & _ & _ & Hok & Hle).
  destruct (receive_rep N σ s bs q _ Hr Eq) as (w' & E & Hs). exists w'. pose proof (receive_tick q c _ _ _ Hk Hh E).
  simpl in Hok. apply Forall_cons in Hok as [Hm Hms]. split_and!; [done|by apply le32_of_le32|done|by apply Hs].
Qed.

Lemma fetch_refines N σ s bs q t : port_rep N σ s bs -> may_call N (Fetch q t) σ -> refines N (Fetch q t) σ s.
Proof.
  intros Hr (n & m & ms & Eq). destruct (fetch_first N σ s bs q n m ms Hr Eq) as (w' & E & Ep & Et & Hr').
  destruct s as [[h w] r]. cbn [fst snd] in *. unfold refines, run_port, fetch_step, sys_arch_mbox_fetch, xQueueReceive. cbn [wt_call wt_t0].
  rewrite (served Receive _ _ _ _ _ E). do 4 eexists. split; [reflexivity|]. split; [|exact Hr'].
  rewrite Ep. unfold xTaskGetTickCount at 1. rewrite elapsed_none by done. by eapply SFetch.
Qed.

Lemma tryfetch_refines N σ s bs q : port_rep N σ s bs -> may_call N (TryFetch q) σ -> refines N (TryFetch q) σ s.
Proof.
  intros Hr (n & ms & Eq). destruct ms as [|m ms].
  - destruct (receive_rep N σ s bs q _ Hr Eq) as (w' & E & Hs). specialize (Hs (Mbox n []) eq_refl eq_refl eq_refl).
    rewrite insert_id in Hs by done. destruct s as [[h w] r]. cbn [fst snd] in *. unfold refines, run_port, sys_arch_mbox_tryfetch, xQueueReceive.
    rewrite (call_now_try Receive _ _ _ _ E). do 4 eexists. split; [reflexivity|]. split; [by eapply STryFetchNone|]. by apply Hs; simpl.
  - destruct (fetch_first N σ s bs q n m ms Hr Eq) as (w' & E & Ep & _ & Hr').
    destruct s as [[h w] r]. cbn [fst snd] in *. unfold refines, run_port, sys_arch_mbox_tryfetch, xQueueReceive.
    rewrite (call_now_try Receive _ _ _ _ E). do 4 eexists. split; [reflexivity|]. split; [|exact Hr'].
    cbn [fst snd]. rewrite Ep. by eapply STryFetch.
Qed.

Lemma signal_refines N σ s bs q : port_rep N σ s bs -> may_call N (Signal q) σ -> refines N (Signal q) σ s.
Proof.
  intros Hr (n & Eq). destruct (obj_kinv N σ s bs q _ Hr Eq) as (c & _ & _ & _ & _ & _ & Hok & Hle).
  destruct (send_rep N σ s bs q _ [] Hr Eq) as (w' & E & Hs); [done|]. simpl in Hok, Hle, E. rewrite length_replicate in *.
  assert (Z.of_nat (Z.to_nat n) = n) as En by lia. rewrite En in *.
  assert (port_rep N (<[q := Sem (Z.min 255 (n + 1))]> σ) (s.1.1, w', s.2) bs) as Hr'.
  { destruct (Z.ltb_spec n 255) as [Hlt|Hge].
    - unfold sent in Hs. simpl in Hs. rewrite length_replicate, En in Hs. destruct (Z.ltb_spec n 255); [|lia].
      apply Hs; simpl; [|done|done|lia]. replace (Z.to_nat (255 `min` (n + 1))) with (Z.to_nat n + 1)%nat by lia. apply (replicate_add (Z.to_nat n) 1 []). 
    - rewrite insert_id by (rewrite Eq; do 2 f_equal; lia). apply (sent_refused _ _ _ _ _ _ _ _ Hs). simpl. rewrite length_replicate. lia. }
  destruct s as [[h w] r]. cbn [fst snd] in *. unfold refines, run_port, sys_sem_signal, xQueueGenericSend.
  rewrite (call_now_try (Send _ _) _ _ _ _ E). exists (h, w', r), RNone. do 2 eexists. split; [by destruct (n <? 255)|].
  split; [by constructor|exact Hr'].
Qed.

Lemma wait_refines N σ s bs q t : port_rep N σ s bs -> may_call N (SemWait q t) σ -> refines N (SemWait q t) σ s.
Proof.
  intros Hr (n & Eq & Hn). destruct (obj_kinv N σ s bs q _ Hr Eq) as (c & Hk & Hh & _ & Hs & _ & _ & _).
  destruct (take_rep N σ s bs q n Hr Eq Hn) as (w' & E & Hr').
  assert (xTickCount (w_k w') = xTickCount (w_k s.1.2)) as Et.
  { apply (take_tick q c _ _ _ Hk Hh Hs). rewrite E. simpl. by replace (Z.to_nat n) with (S (Z.to_nat (n - 1))) by lia. }
  destruct s as [[h w] r]. cbn [fst snd] in *. unfold refines, run_port, wait_step, sys_arch_sem_wait, xQueueSemaphoreTake. cbn [wt_call wt_t0].
  rewrite (served SemaphoreTake _ _ _ _ _ E). do 4 eexists. split; [reflexivity|]. split; [|exact Hr'].
  unfold xTaskGetTickCount at 1. rewrite elapsed_none by done. by constructor.
Qed.

Lemma port_refines N op σ s bs : port_rep N σ s bs -> may_call N op σ -> refines N op σ s.
Proof using HA.
  intros Hr Hm. destruct op.
  - by eapply new_mbox_refines.
  - destruct Hm as [(n & ms & Eq) HN]. destruct s as [[h w] r].
    destruct (port_free_refines N σ h w r bs q _ Hr Eq HN) as (s' & bs' & E & Hr'). unfold refines, run_port, sys_mbox_free. rewrite E.
    do 4 eexists. split; [reflexivity|]. split; [constructor|done].
  - by eapply post_refines.
  - by eapply trypost_refines.
  - by eapply trypost_isr_refines.
  - by eapply fetch_refines.
  - by eapply tryfetch_refines.
  - by eapply new_sem_refines.
  - destruct Hm as [(n & Eq) HN]. destruct s as [[h w] r].
    destruct (port_free_refines N σ h w r bs q _ Hr Eq HN) as (s' & bs' & E & Hr'). unfold refines, run_port, sys_sem_free. rewrite E.
    do 4 eexists. split; [reflexivity|]. split; [constructor|done].
  - by eapply signal_refines.
  - by eapply wait_refines.
Qed.

End refine.

(** ** Calls that wait, whatever happens between their steps *)

(** [others] runs between the steps of the caller: before each of them, some
    of it, which may change the world in any way. *)
Fixpoint under {C R} (step : C -> World -> option (World * (R + C))) (others : list (World -> World)) (c : C) (w : World)
    : option (World * (R + C)) :=
  match others with
  | [] => Some (w, inr c)
  | other :: others =>
    '(w, o) ← step c (other w);
    match o with inl r => Some (w, inl r) | inr c => under step others c w end
  end.

(** What the contract of a waiting call says: each step of the caller leaves
    every mailbox and semaphore as it finds it, until one does what [served]
    says, and that is the call's result. *)
Definition keeps (w w' : World) : Prop := forall p o, obj_rep p w o -> obj_rep p w' o.
Inductive waited {R} (served : World -> World -> R -> Prop) : list (World -> World) -> World -> World -> option R -> Prop :=
| WaitOn w : waited served [] w w None
| WaitStep other others w w1 w' r : keeps (other w) w1 -> waited served others w1 w' r -> waited served (other :: others) w w' r
| WaitDone other others w w' r : served (other w) w' r -> waited served (other :: others) w w' (Some r).
Definition result {R C} (o : R + C) : option R := match o with inl r => Some r | inr _ => None end.

(** In a world in which the object at [q] is [o], the step makes it [o']. *)
Definition becomes (q : Z) (w w' : World) (o' : Obj) : Prop :=
  kinv (w_k w') /\ obj_rep q w' o' /\ forall p, p <> q -> w_q w' !! p = w_q w !! p.
Definition waited_ms (t0 : Z) (w : World) : Z := (xTickCount (w_k w) - t0) mod 4294967296.

Definition posted (q m : Z) (w w' : World) (_ : unit) : Prop := forall n ms, kinv (w_k w) -> obj_rep q w (Mbox n ms) ->
  Z.of_nat (length ms) < n /\ becomes q w w' (Mbox n (ms ++ [m])).
Definition fetched (q t0 : Z) (w w' : World) (r : Z * Z) : Prop := forall n ms, kinv (w_k w) -> obj_rep q w (Mbox n ms) ->
  match ms with
  | m :: ms => r = (waited_ms t0 w', m) /\ becomes q w w' (Mbox n ms)
  | [] => r = (SYS_ARCH_TIMEOUT, 0) /\ keeps w w'
  end.
Definition taken (q t0 : Z) (w w' : World) (r : Z) : Prop := forall n, kinv (w_k w) -> obj_rep q w (Sem n) ->
  if 0 <? n then r = waited_ms t0 w' /\ becomes q w w' (Sem (n - 1))
  else r = SYS_ARCH_TIMEOUT /\ keeps w w'.

(** *** The steps of a call that goes on waiting *)

Definition unlocked (c : Queue_t) : Queue_t := set_cRxLock 0 (set_cTxLock 0 c).
Definition same_items (w w' : World) : Prop := w_mem w' = w_mem w /\
  forall p c, w_q w !! p = Some c -> exists c', w_q w' !! p = Some c' /\ unlocked c' = unlocked c.

Lemma same_items_keeps w w' : same_items w w' -> keeps w w'.
Proof.
  intros [Em Hq] p o [(c & [Ec Hrep] & Hl & Hs & Hp) Hok]. split; [|done]. destruct (Hq p c Ec) as (c' & Ec' & E).
  destruct c, c'. unfold unlocked in E. simpl in *. simplify_eq. eexists. split; [split; [exact Ec'|]|by split_and!].
  rewrite Em. destruct Hrep as [? ? ? ? Hr]. split; [done..|]. destruct Hr as [?|[r [? ? ? ? ?]]]; [by left|right; exists r; by split].
Qed.

Lemma same_items_refl w : same_items w w.
Proof. split; [done|]. intros p c E. by exists c. Qed.
Lemma same_items_kernel k w : same_items w (set_kernel k w).
Proof. split; [done|]. intros p c E. by exists c. Qed.
Lemma same_items_trans w1 w2 w3 : same_items w1 w2 -> same_items w2 w3 -> same_items w1 w3.
Proof.
  intros [E1 H1] [E2 H2]. split; [congruence|]. intros p c E. destruct (H1 p c E) as (c2 & F2 & U2).
  destruct (H2 p c2 F2) as (c3 & F3 & U3). exists c3. split; [done|congruence].
Qed.

Lemma same_items_upd q f w w' : (forall c, unlocked (f c) = unlocked c) -> upd_queue q f w = Some w' -> same_items w w'.
Proof.
  intros Hf. unfold upd_queue. destruct (w_q w !! q) as [c|] eqn:Eq; [|done]. intros [= <-]. split; [done|]. intros p d E. simpl.
  destruct (decide (p = q)) as [->|Hp]; [|rewrite lookup_insert_ne by done; by exists d].
  rewrite lookup_insert_eq. exists (f c). split; [done|]. rewrite Hf. congruence.
Qed.

Lemma same_items_wake n ev w w' : wake_locked n ev w = Some w' -> same_items w w'.
Proof.
  revert w. induction n as [|n IH]; intros w; cbn [wake_locked]; [intros [= <-]; apply same_items_refl|].
  destruct (list_empty _ _); [intros [= <-]; apply same_items_refl|].
  destruct (xTaskRemoveFromEventList ev (w_k w)) as [[k y]|]; [|done]. cbn [mbind option_bind].
  intros E. eapply same_items_trans; [|by apply IH]. apply same_items_kernel.
Qed.

Lemma same_items_inherit c w w' c' : inherit c w = Some (w', c') ->
  same_items w w' /\ c_request c' = c_request c /\ c_queue c' = c_queue c.
Proof.
  unfold inherit. destruct (c_request c) eqn:Er; try (intros [= <- <-]; split_and!; [apply same_items_refl|done..]).
  destruct (w_q w !! c_queue c) as [d|]; [|done]. cbn [mbind option_bind].
  destruct (_ =? _); [|intros [= <- <-]; split_and!; [apply same_items_refl|done..]].
  destruct (xTaskPriorityInherit _ _) as [[k b]|]; [|done]. cbn [mbind option_bind]. intros [= <- <-].
  split_and!; [apply same_items_kernel|done..].
Qed.

Lemma same_items_disinherit c w w' : disinherit c w = Some w' -> same_items w w'.
Proof.
  unfold disinherit, on_kernel. destruct (xInheritanceOccurred c); [|intros [= <-]; apply same_items_refl].
  destruct (w_q w !! c_queue c) as [d|]; [|done]. cbn [mbind option_bind].
  destruct (vTaskPriorityDisinheritAfterTimeout _ _ _) as [k|]; [|done]. cbn [mbind option_bind]. intros [= <-]. apply same_items_kernel.
Qed.

Lemma same_items_lock q w w' : prvLockQueue q w = Some w' -> same_items w w'.
Proof.
  unfold prvLockQueue. destruct (upd_queue q _ w) as [w1|] eqn:E1; [|done]. cbn [mbind option_bind]. intros E2.
  eapply same_items_trans; [eapply same_items_upd; [|exact E1]|eapply same_items_upd; [|exact E2]]; intros c; simpl; by case_match.
Qed.

Lemma same_items_unlock q w w' : unlock_tx q w = Some w' \/ unlock_rx q w = Some w' -> same_items w w'.
Proof.
  unfold unlock_tx, unlock_rx. destruct (w_q w !! q) as [c|]; [|by intros [|]]. cbn [mbind option_bind].
  intros [E|E]; revert E; (destruct (wake_locked _ _ w) as [w1|] eqn:E1; [|done]); cbn [mbind option_bind]; intros E2;
    (eapply same_items_trans; [by eapply same_items_wake|by eapply same_items_upd; [|exact E2]]).
Qed.

(** A request that is not served changes nothing, and finds nothing to take. *)
Definition nothing_to_take (r : Request) (q : Z) (w : World) : Prop :=
  match r with Send _ _ => True | _ => exists c, w_q w !! q = Some c /\ uxMessagesWaiting c <= 0 end.

Lemma try_request_none r q w w' : try_request r q w = Some (w', None) -> w' = w /\ nothing_to_take r q w.
Proof.
  destruct r; simpl; [unfold try_send|unfold try_receive|unfold try_peek|unfold try_take].
  all: destruct (w_q w !! q) as [c|]; [|done]; cbn [mbind option_bind]; destruct (_ || _) || destruct (Z.gtb_spec (uxMessagesWaiting c) 0).
  all: intros E; try (by injection E as <-; split; [|try exists c]).
  all: exfalso; repeat (simplify_option_eq; repeat case_match; try done).
Qed.

Lemma try_request_true r q w w' b bs : try_request r q w = Some (w', Some (b, bs)) -> b = true.
Proof.
  destruct r; simpl; [unfold try_send|unfold try_receive|unfold try_peek|unfold try_take].
  all: intros E; by repeat (simplify_option_eq; repeat case_match; try done).
Qed.

(** A step of a call: it goes on, was served, or gives up. *)
Lemma call_step_waits c w w' o : call_step c w = Some (w', o) ->
  match o with
  | inr c' => same_items w w' /\ c_request c' = c_request c /\ c_queue c' = c_queue c
  | inl (true, bs) => try_request (c_request c) (c_queue c) w = Some (w', Some (true, bs))
  | inl (false, _) => same_items w w' /\ nothing_to_take (c_request c) (c_queue c) w
  end.
Proof.
  unfold call_step. destruct (c_pc c) as [| | | | | |why|why|why|].
  - destruct (try_request _ _ w) as [[w1 [[b bs]|]]|] eqn:E; [| |done]; cbn [mbind option_bind].
    + intros [= <- <-]. by pose proof (try_request_true _ _ _ _ _ _ E) as ->.
    + apply try_request_none in E as [-> Hn]. destruct (_ =? 0); intros [= <- <-]; [by split; [apply same_items_refl|]|].
      split; [apply same_items_refl|]. by destruct (xEntryTimeSet c).
  - intros [= <- <-]. split; [apply same_items_kernel|done].
  - destruct (prvLockQueue _ w) as [w1|] eqn:E; [|done]. intros [= <- <-]. by split; [eapply same_items_lock|].
  - destruct (xTaskCheckForTimeOut _ _ _) as [[out t] ticks]. intros [= <- <-]. split; [apply same_items_refl|]. by destruct out.
  - destruct (must_wait _ _ w) as [[]|]; [| |done]; cbn [mbind option_bind]; [|intros [= <- <-]; by split; [apply same_items_refl|]].
    destruct (inherit c w) as [[w1 c1]|] eqn:E; [|done]. cbn [mbind option_bind]. intros [= <- <-]. by apply same_items_inherit in E.
  - unfold on_kernel. destruct (vTaskPlaceOnEventList _ _ _) as [k|]; [|done]. cbn [mbind option_bind]. intros [= <- <-].
    split; [apply same_items_kernel|done].
  - destruct (unlock_tx _ w) as [w1|] eqn:E; [|done]. intros [= <- <-]. split; [eapply same_items_unlock; by left|done].
  - destruct (unlock_rx _ w) as [w1|] eqn:E; [|done]. intros [= <- <-]. split; [eapply same_items_unlock; by right|done].
  - destruct (xTaskResumeAll (w_k w)) as [[k y]|]; [|done]. cbn [mbind option_bind].
    assert (same_items w (match why with Blocked => if y then set_kernel k w else queueYIELD (set_kernel k w) | _ => set_kernel k w end)) as Hs.
    { apply (same_items_trans _ (set_kernel k w)); [apply same_items_kernel|]. destruct why, y; apply same_items_refl || apply same_items_kernel. }
    intros [= <- <-]. destruct why, (c_request c) eqn:Er; try (by split); by split; [|split].
  - unfold prvIsQueueEmpty. destruct (w_q w !! c_queue c) as [d|] eqn:Eq; [|done]. cbn [mbind option_bind].
    destruct (Z.eqb_spec (uxMessagesWaiting d) 0) as [E0|_]; [|intros [= <- <-]; by split; [apply same_items_refl|]].
    destruct (disinherit c w) as [w1|] eqn:E; [|done]. cbn [mbind option_bind]. intros [= <- <-].
    split; [by eapply same_items_disinherit|]. unfold nothing_to_take. destruct (c_request c); try done; exists d; (split; [done|lia]).
Qed.

(** *** The step that serves a call *)

Lemma becomes_step q c o w w' o' : holds q w c (obj_items o) -> uxLength c = obj_len o -> uxItemSize c = obj_size o ->
  (0 < obj_size o -> pcHead c = q + sizeof_Queue_t) -> queue_step q c w w' (obj_items o') ->
  obj_len o' = obj_len o -> obj_size o' = obj_size o -> obj_ok o' -> becomes q w w' o'.
Proof.
  intros Hh Hl Hs Hp [Hk (c' & Hh' & L & S & P) Hq _] El Es Hok. split_and!; [done| |done]. split; [|done].
  exists c'. rewrite L, S, P, El, Es. by split_and!.
Qed.

Lemma send_posted q m w w' bs : 0 <= m < 4294967296 -> try_send q (le32 m) queueSEND_TO_BACK w = Some (w', Some (true, bs)) ->
  posted q m w w' tt.
Proof.
  intros Hm E n ms Hk [(c & Hh & Hl & Hs & Hp) Hok].
  destruct (try_send_ok q c _ (le32 m) queueSEND_TO_BACK w Hk Hh) as (w2 & E2 & Hstep & _); [split; [simpl in *; lia|done]|].
  rewrite E in E2. rewrite (accepts_back c _ Hl), mbox_room in *. destruct (Z.ltb_spec (Z.of_nat (length ms)) n); [|done].
  injection E2 as <- _. split; [done|]. apply (becomes_step q c (Mbox n ms)); try done; simpl.
  - rewrite map_app. exact Hstep.
  - apply Forall_app. split; [exact Hok|by constructor].
Qed.

Lemma took_step r q w o : match r with Send _ _ | Peek => False | Receive => True | SemaphoreTake => obj_size o = 0 end ->
  kinv (w_k w) -> obj_rep q w o -> exists c w2, holds q w c (obj_items o) /\ uxLength c = obj_len o /\ uxItemSize c = obj_size o /\
    (0 < obj_size o -> pcHead c = q + sizeof_Queue_t) /\
    try_request r q w = Some (w2, answer_of (obj_items o)) /\ queue_step q c w w2 (tail (obj_items o)).
Proof.
  intros Hr Hk [(c & Hh & Hl & Hs & Hp) Hok]. exists c. destruct r; try done.
  - destruct (try_receive_ok q c _ w Hk Hh) as (w2 & E & Hstep & _). exists w2. by split_and!.
  - destruct (try_take_ok q c _ w Hk Hh) as (w2 & E & Hstep & _); [congruence|]. exists w2. by split_and!.
Qed.

Lemma nothing_left r q w o : match r with Send _ _ => False | _ => True end -> nothing_to_take r q w -> obj_rep q w o -> obj_items o = [].
Proof.
  intros Hr Hn [(c & [Ec Hrep] & _) _]. assert (exists d, w_q w !! q = Some d /\ uxMessagesWaiting d <= 0) as (d & Ed & Hd) by (by destruct r).
  rewrite Ec in Ed. injection Ed as <-. destruct (qr_count _ _ _ Hrep) as [E _]. destruct (obj_items o); [done|]. simpl in E. lia.
Qed.

Lemma elapsed_waited t0 w : elapsed_ms t0 w = waited_ms t0 w.
Proof. unfold elapsed_ms, waited_ms, xTaskGetTickCount, u32. change portTICK_PERIOD_MS with 1. by rewrite Z.mul_1_r, Z.mod_mod. Qed.

Lemma receive_fetched q t0 w w' bs : try_receive q w = Some (w', Some (true, bs)) -> fetched q t0 w w' (elapsed_ms t0 w', le32_of bs).
Proof.
  intros E n ms Hk Ho. destruct (took_step Receive q w _ I Hk Ho) as (c & w2 & Hh & Hl & Hs & Hp & E2 & Hstep).
  simpl in E2. rewrite E in E2. destruct ms as [|m ms]; [done|]. injection E2 as <- ->.
  pose proof (or_ok _ _ _ Ho) as [Hm Hms]%Forall_cons. rewrite elapsed_waited, le32_of_le32 by done. split; [done|].
  by apply (becomes_step q c (Mbox n (m :: ms))).
Qed.

Lemma take_taken q t0 w w' bs : try_take q w = Some (w', Some (true, bs)) -> taken q t0 w w' (elapsed_ms t0 w').
Proof.
  intros E n Hk Ho. destruct (took_step SemaphoreTake q w (Sem n) eq_refl Hk Ho) as (c & w2 & Hh & Hl & Hs & Hp & E2 & Hstep).
  pose proof (or_ok _ _ _ Ho) as Hn. simpl in Hn, E2. rewrite E in E2. destruct (Z.ltb_spec 0 n); [|by replace (Z.to_nat n) with O in E2 by lia].
  rewrite elapsed_waited. split; [done|]. replace (Z.to_nat n) with (S (Z.to_nat (n - 1))) in E2 by lia. injection E2 as <- _.
  apply (becomes_step q c (Sem n)); try done; [|simpl; lia]. simpl in Hstep.
  by replace (Z.to_nat n) with (S (Z.to_nat (n - 1))) in Hstep by lia.
Qed.

(** *** The runs *)

Definition call_of (r : Request) (q : Z) (c : Call) : Prop := c_request c = r /\ c_queue c = q.

Lemma under_waited {R C} (P : C -> Prop) step (served : World -> World -> R -> Prop) :
  (forall c w w' o, P c -> step c w = Some (w', o) ->
     match o with inl r => served w w' r | inr c' => keeps w w' /\ P c' end) ->
  forall others c w w' o, P c -> under step others c w = Some (w', o) -> waited served others w w' (result o).
Proof.
  intros Hstep others. induction others as [|f others IH]; intros c w w' o Hc; cbn [under]; [intros [= <- <-]; constructor|].
  destruct (step c (f w)) as [[w1 o1]|] eqn:E; [|done]. cbn [mbind option_bind]. specialize (Hstep c (f w) w1 o1 Hc E).
  destruct o1 as [r|c1]; [intros [= <- <-]; by constructor|]. intros E2. destruct Hstep as [Hk Hc1].
  apply (WaitStep _ _ _ _ w1); [done|by apply (IH c1)].
Qed.

Lemma post_waits q m others w w' o : 0 <= m < 4294967296 -> under (post_step q m) others (sys_mbox_post q m) w = Some (w', o) ->
  waited (posted q m) others w w' (result o).
Proof.
  intros Hm. apply (under_waited (call_of (Send (le32 m) queueSEND_TO_BACK) q)); [|done]. clear -Hm. intros c w w' o [Hr Hq]. unfold post_step.
  destruct (call_step c w) as [[w1 o1]|] eqn:E; [|done]. cbn [mbind option_bind]. intros [= <- <-]. apply call_step_waits in E.
  destruct o1 as [[[] bs]|c1]; rewrite Hr, Hq in E.
  - by apply (send_posted q m w w1 bs).
  - split; [by apply same_items_keeps, E|done].
  - destruct E as (E & ? & ?). by split; [apply same_items_keeps|].
Qed.

Lemma fetch_waits q ms others w w' o : under fetch_step others (sys_arch_mbox_fetch q ms w) w = Some (w', o) ->
  waited (fetched q (xTickCount (w_k w))) others w w' (result o).
Proof.
  set (t0 := xTickCount (w_k w)). intros E. revert E. apply (under_waited (fun f => call_of Receive q (wt_call f) /\ wt_t0 f = t0)); [|done]. clearbody t0. clear.
  intros [c t] w w' o [[Hr Hq] Ht]. simpl in Ht, Hr, Hq. subst t. unfold fetch_step. cbn [wt_call wt_t0].
  destruct (call_step c w) as [[w1 o1]|] eqn:E; [|done]. cbn [mbind option_bind]. intros [= <- <-]. apply call_step_waits in E.
  destruct o1 as [[[] bs]|c1]; rewrite Hr, Hq in E.
  - by apply receive_fetched.
  - destruct E as [E Hn]. intros n l _ Ho. pose proof (nothing_left Receive q w _ I Hn Ho) as El. destruct l; [|done]. by split; [|apply same_items_keeps].
  - destruct E as (E & ? & ?). by split; [apply same_items_keeps|].
Qed.

Lemma sem_wait_waits q ms others w w' o : under wait_step others (sys_arch_sem_wait q ms w) w = Some (w', o) ->
  waited (taken q (xTickCount (w_k w))) others w w' (result o).
Proof.
  set (t0 := xTickCount (w_k w)). intros E. revert E. apply (under_waited (fun f => call_of SemaphoreTake q (wt_call f) /\ wt_t0 f = t0)); [|done]. clearbody t0. clear.
  intros [c t] w w' o [[Hr Hq] Ht]. simpl in Ht, Hr, Hq. subst t. unfold wait_step. cbn [wt_call wt_t0].
  destruct (call_step c w) as [[w1 o1]|] eqn:E; [|done]. cbn [mbind option_bind]. intros [= <- <-]. apply call_step_waits in E.
  destruct o1 as [[[] bs]|c1]; rewrite Hr, Hq in E.
  - by eapply take_taken.
  - destruct E as [E Hn]. intros n _ Ho. pose proof (nothing_left SemaphoreTake q w _ I Hn Ho) as El. pose proof (or_ok _ _ _ Ho) as Hok. simpl in El, Hok.
    destruct (Z.ltb_spec 0 n); [by replace (Z.to_nat n) with (S (Z.to_nat (n - 1))) in El by lia|]. by split; [|apply same_items_keeps].
  - destruct E as (E & ? & ?). by split; [apply same_items_keeps|].
Qed.

(** *** No step is stuck *)

(** The worlds in which the caller takes its next step: the kernel's invariant
    holds, the object is there and of the right kind, and the caller is running
    when it goes to sleep, and the one that suspended the scheduler when it
    resumes it. *)
Definition serves (r : Request) (o : Obj) : Prop :=
  match r, o with Send _ _, Mbox _ _ | Receive, Mbox _ _ | SemaphoreTake, Sem _ => True | _, _ => False end.
Record fit (c : Call) (w : World) : Prop := mkFit {
  ft_kinv : kinv (w_k w);
  ft_object : exists o, obj_rep (c_queue c) w o /\ serves (c_request c) o;
  ft_running : c_pc c = PlaceOnList -> running (w_k w);
  ft_resumes : forall why, c_pc c = ResumeAll why -> uxSchedulerSuspended (w_k w) = 1 /\ uxCurrentNumberOfTasks (w_k w) > 0
}.
Fixpoint admitted {R C} (step : C -> World -> option (World * (R + C))) (call : C -> Call) (others : list (World -> World))
    (c : C) (w : World) : Prop :=
  match others with
  | [] => True
  | other :: others => fit (call c) (other w) /\ forall w1 c1, step c (other w) = Some (w1, inr c1) -> admitted step call others c1 w1
  end.

(** What the steps keep. *)
Record going (r : Request) (q : Z) (c : Call) : Prop := mkGoing {
  go_call : call_of r q c;
  go_lent : xInheritanceOccurred c = false;
  go_ticks : 0 <= xTicksToWait c < 4294967296;
  go_sleep : c_pc c = TestQueue \/ c_pc c = PlaceOnList -> 0 < xTicksToWait c
}.
Definition sendable (r : Request) : Prop :=
  match r with Send x pos => length x = 4%nat /\ pos = queueSEND_TO_BACK | _ => True end.

Lemma wake_locked_some n q i w : kinv (w_k w) -> exists w', wake_locked n (LEvent q i) w = Some w' /\ w_q w' = w_q w.
Proof.
  revert w. induction n as [|n IH]; intros w Hk; cbn [wake_locked]; [by exists w|].
  unfold list_empty. destruct (klist (w_k w) (LEvent q i)) as [|j l] eqn:E; [by exists w|].
  destruct (xTaskRemoveFromEventList_ok (w_k w) q i Hk) as (t & k' & y & _ & -> & Hr & _); [by rewrite E|]. cbn [mbind option_bind].
  destruct (IH (set_kernel (if y then vTaskMissedYield k' else k') w)) as (w' & -> & Eq); [|by exists w'].
  destruct y; [apply kinv_pending_yield|]; apply Hr.
Qed.

Lemma try_request_some r q w o : sendable r -> kinv (w_k w) -> obj_rep q w o -> serves r o -> is_Some (try_request r q w).
Proof.
  intros Hx Hk [(d & Hh & Hl & Hs & _) _] Hr. destruct r as [x pos| | |], o; try done; simpl in *.
  - destruct Hx as [Hx ->]. destruct (try_send_ok q d _ x queueSEND_TO_BACK w Hk Hh) as (w' & -> & _); [split; [lia|done]|by eexists].
  - destruct (try_receive_ok q d _ w Hk Hh) as (w' & -> & _). by eexists.
  - destruct (try_take_ok q d _ w Hk Hh Hs) as (w' & -> & _). by eexists.
Qed.

Lemma inherit_not_mutex r q c w o : going r q c -> obj_rep q w o -> inherit c w = Some (w, c).
Proof.
  intros [[Er Eq] _ _ _] [(d & [Ed Hrep] & _) _]. unfold inherit. destruct (c_request c); try done. rewrite Eq, Ed. cbn [mbind option_bind].
  destruct (Z.eqb_spec (uxQueueType d) queueQUEUE_IS_MUTEX) as [E|_]; [|done]. by destruct (qr_kind _ _ _ Hrep).
Qed.

Lemma going_pc r q p c : going r q c -> p <> TestQueue -> p <> PlaceOnList -> going r q (at_pc p c).
Proof. intros [? ? ? ?] H1 H2. split; try done. by intros [?|?]. Qed.

Lemma check_going r q c k : going r q c -> let '(out, o, ticks) := xTaskCheckForTimeOut (xTimeOut c) (xTicksToWait c) k in
  going r q (at_pc (if (out : bool) then UnlockTx TimedOut else TestQueue) (with_timeout (xEntryTimeSet c) o ticks c)).
Proof.
  intros [Hc Hl Ht _]. unfold xTaskCheckForTimeOut. pose proof (u32_range (xTickCount k - xTimeOnEntering (xTimeOut c))) as He.
  destruct (negb _ && _); [by split; [done..|intros [?|?]]|]. destruct (Z.ltb_spec (u32 (xTickCount k - xTimeOnEntering (xTimeOut c))) (xTicksToWait c));
    [|by split; [done..|intros [?|?]]].
  rewrite u32_small by lia. split; simpl; [done|done|lia|lia].
Qed.

Lemma call_progress r q c w : sendable r -> going r q c -> fit c w -> exists w' o, call_step c w = Some (w', o) /\
  match o with inl _ => True | inr c' => going r q c' end.
Proof.
  intros Hx Hg [Hk (o & Ho & Hs) Hrun Hres]. pose proof Hg as [[Er Eq] Hl Ht Hsl]. rewrite Er in Hs. rewrite Eq in Ho.
  pose proof Ho as [(d & [Ed _] & _) _]. unfold call_step. rewrite Er, Eq.
  destruct (c_pc c) as [| | | | | |why|why|why|] eqn:Epc.
  - destruct (try_request_some r q w o Hx Hk Ho Hs) as [[w1 [x|]] ->]; cbn [mbind option_bind]; [by do 2 eexists|].
    destruct (_ =? 0); [by do 2 eexists|]. do 2 eexists. split; [done|]. simpl. apply going_pc; [|done..].
    destruct (xEntryTimeSet c); [done|]. split; simpl; [done..|]. rewrite Epc. by intros [?|?].
  - do 2 eexists. split; [done|]. by apply going_pc.
  - unfold prvLockQueue. rewrite (upd_queue_eq _ _ _ _ Ed). cbn [mbind option_bind].
    rewrite (upd_queue_eq _ _ _ _ (lookup_insert_eq _ _ _)). cbn [mbind option_bind]. do 2 eexists. split; [done|]. by apply going_pc.
  - pose proof (check_going r q c (w_k w) Hg) as Hc. destruct (xTaskCheckForTimeOut _ _ _) as [[out t] ticks]. by do 2 eexists.
  - assert (exists b, must_wait r q w = Some b) as [[] ->] by (destruct r; simpl; unfold prvIsQueueFull, prvIsQueueEmpty; rewrite Ed; by eexists).
    + cbn [mbind option_bind]. rewrite (inherit_not_mutex r q c w o Hg Ho). cbn [mbind option_bind]. do 2 eexists. split; [done|].
      split; simpl; [done..|]. intros _. apply Hsl. by left.
    + cbn [mbind option_bind]. do 2 eexists. split; [done|]. by apply going_pc.
  - unfold on_kernel. assert (exists n, waiting_list r q = LEvent q n) as [n ->] by (destruct r; by eexists).
    destruct (vTaskPlaceOnEventList_ok (w_k w) q n (xTicksToWait c) Hk) as (k' & -> & _); [by apply Hrun|split; [apply Hsl; by right|lia]|].
    cbn [mbind option_bind]. do 2 eexists. split; [done|]. by apply going_pc.
  - unfold unlock_tx, xTasksWaitingToReceive. rewrite Ed. cbn [mbind option_bind]. destruct (wake_locked_some (Z.to_nat (cTxLock d)) q 1 w Hk) as (w1 & -> & E1).
    cbn [mbind option_bind]. rewrite <- E1 in Ed. rewrite (upd_queue_eq _ _ _ _ Ed). do 2 eexists. split; [done|]. by apply going_pc.
  - unfold unlock_rx, xTasksWaitingToSend. rewrite Ed. cbn [mbind option_bind]. destruct (wake_locked_some (Z.to_nat (cRxLock d)) q 0 w Hk) as (w1 & -> & E1).
    cbn [mbind option_bind]. rewrite <- E1 in Ed. rewrite (upd_queue_eq _ _ _ _ Ed). do 2 eexists. split; [done|]. by apply going_pc.
  - destruct (Hres why eq_refl) as [H1 H2]. destruct (resume_last (w_k w) Hk H1 H2) as (k' & y & -> & _). cbn [mbind option_bind].
    do 2 eexists. split; [done|]. destruct why, r; try done; by apply going_pc.
  - unfold prvIsQueueEmpty. rewrite Ed. cbn [mbind option_bind]. unfold disinherit. rewrite Hl.
    destruct (_ =? 0); cbn [mbind option_bind]; do 2 eexists; (split; [done|]); [done|by apply going_pc].
Qed.

Lemma under_some {R C} (P : C -> Prop) step (call : C -> Call) :
  (forall c w, P c -> fit (call c) w -> exists w' (o : R + C), step c w = Some (w', o) /\ match o with inl _ => True | inr c' => P c' end) ->
  forall others c w, P c -> admitted step call others c w -> is_Some (under step others c w).
Proof.
  intros Hstep others. induction others as [|f others IH]; intros c w Hc; cbn [under admitted]; [by eexists|]. intros [Hf Ha].
  destruct (Hstep c (f w) Hc Hf) as (w1 & o & E & Ho). rewrite E in *. cbn [mbind option_bind]. destruct o as [r|c1]; [by eexists|].
  by apply IH; [|apply Ha].
Qed.

Lemma going_start r q ticks : 0 <= ticks < 4294967296 -> going r q (start_call r q ticks).
Proof. intros Ht. split; [done|done|done|]. by intros [?|?]. Qed.

Lemma timeout_ticks_range ms : 0 <= timeout_ticks ms < 4294967296.
Proof.
  unfold timeout_ticks, pdMS_TO_TICKS. destruct (ms =? 0); [done|]. pose proof (u32_range (ms * configTICK_RATE_HZ)).
  split; [apply Z.div_pos; lia|apply Z.div_lt_upper_bound; lia].
Qed.

Lemma post_some q m others w : admitted (post_step q m) id others (sys_mbox_post q m) w -> is_Some (under (post_step q m) others (sys_mbox_post q m) w).
Proof.
  apply (under_some (going (Send (le32 m) queueSEND_TO_BACK) q)); [|by apply going_start]. intros c w' Hg Hf.
  destruct (call_progress (Send (le32 m) queueSEND_TO_BACK) q c w' (conj eq_refl eq_refl) Hg Hf) as (w1 & o & E & Ho). unfold post_step. rewrite E. cbn [mbind option_bind].
  do 2 eexists. split; [done|]. destruct o as [[[] bs]|c1]; [done|by apply going_start|done].
Qed.

Lemma fetch_some q ms others w : admitted fetch_step wt_call others (sys_arch_mbox_fetch q ms w) w ->
  is_Some (under fetch_step others (sys_arch_mbox_fetch q ms w) w).
Proof.
  apply (under_some (fun f => going Receive q (wt_call f))); [|apply going_start, timeout_ticks_range]. intros c w' Hg Hf.
  destruct (call_progress Receive q _ w' I Hg Hf) as (w1 & o & E & Ho). unfold fetch_step. rewrite E. cbn [mbind option_bind].
  do 2 eexists. split; [done|]. by destruct o as [[[] bs]|c1].
Qed.

Lemma sem_wait_some q ms others w : admitted wait_step wt_call others (sys_arch_sem_wait q ms w) w ->
  is_Some (under wait_step others (sys_arch_sem_wait q ms w) w).
Proof.
  apply (under_some (fun f => going SemaphoreTake q (wt_call f))); [|apply going_start, timeout_ticks_range]. intros c w' Hg Hf.
  destruct (call_progress SemaphoreTake q _ w' I Hg Hf) as (w1 & o & E & Ho). unfold wait_step. rewrite E. cbn [mbind option_bind].
  do 2 eexists. split; [done|]. by destruct o as [[[] bs]|c1].
Qed.

(** *** Time-outs *)

Fixpoint run_fetch (n : nat) (f : Wait) (w : World) : option (World * (Z * Z + Wait)) :=
  match n with
  | O => Some (w, inr f)
  | S n =>
    '(w, o) ← fetch_step f w;
    match o with inl r => Some (w, inl r) | inr f => run_fetch n f w end
  end.

Lemma run_fetch_call n f w w' o : run_call n (wt_call f) w = Some (w', o) ->
  run_fetch n f w = Some (w', match o with
    | inl (true, bs) => inl (elapsed_ms (wt_t0 f) w', le32_of bs)
    | inl (false, _) => inl (SYS_ARCH_TIMEOUT, 0)
    | inr c => inr (mkWait c (wt_t0 f))
    end).
Proof.
  revert f w. induction n as [|n IH]; intros f w; cbn [run_call run_fetch]; [intros [= <- <-]; by destruct f|].
  unfold fetch_step. destruct (call_step (wt_call f) w) as [[w1 [[[] bs]|c]]|]; cbn [mbind option_bind]; [by intros [= <- <-]..| |done].
  apply (IH (mkWait c (wt_t0 f))).
Qed.

(** A fetch from a mailbox that stays empty sleeps for as many ticks as its
    time-out is converted to and then returns SYS_ARCH_TIMEOUT and NULL. *)
Lemma fetch_times_out q t ms w d :
  0 < timeout_ticks ms < 4294967296 -> calm q t 0 (w_k w) -> holds q w d [] ->
  cRxLock d = queueUNLOCKED -> cTxLock d = queueUNLOCKED ->
  exists w1 f1 k w2, run_fetch 9 (sys_arch_mbox_fetch q ms w) w = Some (w1, inr f1) /\
    tick_n (Z.to_nat (timeout_ticks ms)) (w_k w1) = Some k /\
    run_fetch 8 f1 (set_kernel k w1) = Some (w2, inl (SYS_ARCH_TIMEOUT, 0)).
Proof.
  intros Ht Hc Hh Hrx Htx. destruct (receive_sleeps q t _ w d Ht Hc Hh Hrx Htx) as (w1 & c1 & E1 & _ & k & w2 & E2 & _ & _ & E3 & _).
  exists w1, (mkWait c1 (xTickCount (w_k w))), k, w2. split; [|split; [done|]].
  - exact (run_fetch_call 9 (sys_arch_mbox_fetch q ms w) w w1 _ E1).
  - exact (run_fetch_call 8 (mkWait c1 _) _ w2 _ E3).
Qed.


Lemma timeout_ticks_ms ms : 0 <= ms <= 4294967 -> timeout_ticks ms = if ms =? 0 then 4294967295 else ms.
Proof.
  intros Hms. unfold timeout_ticks, pdMS_TO_TICKS, configTICK_RATE_HZ. destruct (ms =? 0); [done|].
  rewrite u32_small by lia. by rewrite Z.div_mul.
Qed.

(** C24: the port keeps lwIP's store of mailboxes and semaphores.  Any client,
    whose calls may depend on the answers so far, that creates and deletes
    mailboxes and semaphores, posts and fetches pointers from tasks and
    interrupts, signals and takes semaphores, by calls that need not wait, is
    answered as by a store in which each mailbox is a bounded first-in
    first-out buffer of exactly the pointers posted to it and each semaphore a
    counter that stops at 255; creating either fails with ERR_MEM or gives an
    unused handle; the objects never disturb each other, whatever the allocator
    reuses, and the kernel's invariant holds at the end.  Calls that wait do
    the same at their last step, whatever happens between their steps, as long
    as the kernel's invariant holds, the object is there, the caller is running
    when it goes to sleep and resumes the scheduler that it suspended
    ([admitted]): none of their steps is stuck; until the last each of their
    steps leaves every mailbox and semaphore alone; a post ends only with the
    step that puts its pointer behind the others, after as many sends that timed
    out as it takes; a fetch and a wait end with the step that takes the first
    pointer or counts down, and return the milliseconds since they were called
    (modulo 2^32), or with SYS_ARCH_TIMEOUT at a step that finds the mailbox
    empty or the count 0.  A fetch from a mailbox that
    stays empty, with a time-out of at most 4294967 ms and nothing else going
    on, ends with SYS_ARCH_TIMEOUT after exactly its time-out, 0 standing for
    2^32 - 1 ms. *)
Theorem port_clients_refine {H : Type} `{!Allocator H} {HA : AllocatorOk H} :
  (forall N n client past σ s bs, port_rep (H := H) N σ s bs -> behaves spec_port (may_call N) n client past σ ->
     exists s' answers σ', run_client run_port n client past s = Some (s', answers) /\
       spec_runs spec_port client n past σ answers σ' /\ exists bs', port_rep N σ' s' bs') /\
  (forall q m others w, 0 <= m < 4294967296 -> admitted (post_step q m) id others (sys_mbox_post q m) w ->
     exists w' o, under (post_step q m) others (sys_mbox_post q m) w = Some (w', o) /\ waited (posted q m) others w w' (result o)) /\
  (forall q ms others w, admitted fetch_step wt_call others (sys_arch_mbox_fetch q ms w) w ->
     exists w' o, under fetch_step others (sys_arch_mbox_fetch q ms w) w = Some (w', o) /\
       waited (fetched q (xTickCount (w_k w))) others w w' (result o)) /\
  (forall q ms others w, admitted wait_step wt_call others (sys_arch_sem_wait q ms w) w ->
     exists w' o, under wait_step others (sys_arch_sem_wait q ms w) w = Some (w', o) /\
       waited (taken q (xTickCount (w_k w))) others w w' (result o)) /\
  (forall q t ms w d, 0 <= ms <= 4294967 -> calm q t 0 (w_k w) -> holds q w d [] ->
     cRxLock d = queueUNLOCKED -> cTxLock d = queueUNLOCKED ->
     exists w1 f1 k w2, run_fetch 9 (sys_arch_mbox_fetch q ms w) w = Some (w1, inr f1) /\
       tick_n (Z.to_nat (if ms =? 0 then 4294967295 else ms)) (w_k w1) = Some k /\
       run_fetch 8 f1 (set_kernel k w1) = Some (w2, inl (SYS_ARCH_TIMEOUT, 0))).
Proof.
  split; [|split_and!].
  - intros N n client past σ s bs Hr. apply (clients_refine run_port spec_port (may_call N) (fun σ s => exists bs, port_rep N σ s bs)); [|by exists bs].
    clear - HA. intros op σ0 s0 (bs0 & Hr0) Hm. destruct (port_refines N op σ0 s0 bs0 Hr0 Hm) as (s' & a & σ' & bs' & E & Hs & Hr').
    exists s', a, σ'. split; [done|]. split; [done|by exists bs'].
  - intros q m others w Hm [[w' o] E]%post_some. exists w', o. split; [done|by apply post_waits].
  - intros q ms others w [[w' o] E]%fetch_some. exists w', o. split; [done|by apply (fetch_waits q ms)].
  - intros q ms others w [[w' o] E]%sem_wait_some. exists w', o. split; [done|by apply (sem_wait_waits q ms)].
  - intros q t ms w d Hms Hc Hh Hrx Htx. rewrite <- timeout_ticks_ms by done. apply (fetch_times_out q t ms w d); try done.
    rewrite timeout_ticks_ms by done. destruct (ms =? 0) eqn:E; lia.
Qed.

(** Waiting forever is not: 2^32 - 1 ticks (50 days) later the fetch gives up
    with the answer of a time-out, since INCLUDE_vTaskSuspend is 0. *)
Lemma fetch_forever_gives_up : timeout_ticks 0 = 4294967295.
Proof. reflexivity. Qed.

(** The conversion to ticks multiplies in 32 bits: a time-out of 4294968 ms
    (72 minutes) is 0 ticks, and the fetch does not wait at all. *)
Lemma fetch_long_timeout q w : c_pc (wt_call (sys_arch_mbox_fetch q 4294968 w)) = Enter /\
  xTicksToWait (wt_call (sys_arch_mbox_fetch q 4294968 w)) = 0.
Proof. split; reflexivity. Qed.
