(* ===== verification/SysArchSample.v ===== *)
(** * The port of lwIP applied to a running system

    A client of the port in the kernel of [KernelSample] with the heap of
    heap_4.c; a post and a fetch that are served, and a fetch that sleeps. *)

From S2P Require Import Prelude Clients LwipErr ListSpec Heap4 Allocator Kernel KernelInv KernelTick KernelResume KernelSched KernelEvent Queue QueueSpec QueueBlock QueueCreate SysArch KernelSample QueueSample.
#[local] Open Scope Z_scope.

(** Creates a mailbox, posts to it from a task and from an interrupt, fetches
    and deletes it; without memory it tries again. *)
Definition sample_client (past : list port_answer) : port_op :=
  match past with
  | RNew 0 q :: rest =>
    match length rest with
    | 0%nat => TryPost q 0x20001234
    | 1%nat => TryPostFromISR q 0xDEADBEEF
    | 2%nat => Fetch q 0
    | _ => FreeMbox q
    end
  | _ => NewMbox 2
  end.

Lemma spec_functional_mbox op σ σ' a q n ms : spec_port op σ σ' a -> σ !! q = Some (Mbox n ms) ->
  match op with
  | TryPost q' m | TryPostFromISR q' m => q' = q -> Z.of_nat (length ms) < n -> σ' = <[q := Mbox n (ms ++ [m])]> σ
  | Fetch q' _ => q' = q -> σ' = <[q := Mbox n (tail ms)]> σ
  | _ => True
  end.
Proof. destruct 1; try done; intros E ->; simplify_eq; try done; intros; lia. Qed.

Lemma sample_behaves : behaves spec_port (may_call (fun _ => True)) 5 sample_client [] ∅.
Proof.
  assert (forall n past σ, (forall p, sample_client (past ++ p) = NewMbox 2) -> behaves spec_port (may_call (fun _ => True)) n sample_client past σ) as Hno.
  { induction n as [|n IH]; intros past σ Hp; [done|]. pose proof (Hp []) as E. rewrite app_nil_r in E. simpl. rewrite E. split; [done|].
    intros σ' a _. apply IH. intros p. rewrite <- (assoc_L (++)). apply Hp. }
  split; [done|]. intros σ1 a1 H1. inversion H1; subst; [|by apply Hno].
  set (σ1 := <[q := Mbox 2 []]> ∅). assert (σ1 !! q = Some (Mbox 2 [])) as E1 by apply lookup_insert_eq.
  split; [simpl; split; [by do 2 eexists|lia]|]. intros σ2 a2 R2.
  pose proof (spec_functional_mbox _ _ _ _ _ _ _ R2 E1 eq_refl ltac:(done)) as E2.
  assert (σ2 !! q = Some (Mbox 2 [0x20001234])) as L2 by (rewrite E2; apply lookup_insert_eq).
  split; [simpl; split; [by do 2 eexists|lia]|]. intros σ3 a3 R3.
  pose proof (spec_functional_mbox _ _ _ _ _ _ _ R3 L2 eq_refl ltac:(done)) as E3.
  assert (σ3 !! q = Some (Mbox 2 [0x20001234; 0xDEADBEEF])) as L3 by (rewrite E3; apply lookup_insert_eq).
  split; [simpl; by do 3 eexists|]. intros σ4 a4 R4.
  pose proof (spec_functional_mbox _ _ _ _ _ _ _ R4 L3 eq_refl) as E4.
  assert (σ4 !! q = Some (Mbox 2 [0xDEADBEEF])) as L4 by (rewrite E4; apply lookup_insert_eq).
  split; [|done]. simpl. split; [by do 2 eexists|done].
Qed.

Definition sample_port : Port (H := Heap) := (heap0, empty_world, empty_registry).

Lemma sample_port_ok : @port_rep Heap (heap4 0x20000003 0x20030000 77) (fun _ => True) ∅ sample_port ∅.
Proof.
  split.
  - exact sample_ok.
  - exists (initial_segs 0x20000003). split; [by left|]. intros p w E. by rewrite lookup_empty in E.
  - done.
  - intros q n _. apply (klist_nil _ _ (kinv_base _ sample_ok)). intros i Hi.
    destruct (event_item _ _ _ (kinv_base _ sample_ok) Hi I) as [u ->].
    pose proof (ki_event (kinv_base _ sample_ok) _ _ Hi) as [Hu _]. revert Hi.
    apply sample_tasks in Hu as [->|[->| ->]]; vm_compute; discriminate.
  - intros p q v u E. by rewrite lookup_empty in E.
  - intros q o E. by rewrite lookup_empty in E.
Qed.

(** An empty mailbox of two pointers at 0x9000. *)
Definition mbox_world : World := world_with 2 4.

Lemma mbox_fits : storage_fits 2 4 0x9048.
Proof. unfold storage_fits. lia. Qed.
Lemma mbox_world_rep : obj_rep 0x9000 mbox_world (Mbox 2 []).
Proof. destruct (world_with_ok 2 4 mbox_fits) as (_ & Hh & _). split; [|by constructor]. eexists. by split. Qed.

(** A fetch with a time-out of 5 ms: the task sleeps, and an interrupt posts
    after 3 ms. *)
Definition post_later (w : World) : World :=
  let w := match tick_n 3 (w_k w) with Some k => set_kernel k w | None => w end in
  match sys_mbox_trypost_fromisr 0x9000 0x20001234 w with Some (w, _) => w | None => w end.

Lemma fetch_sample : snd <$> under fetch_step (replicate 9 id ++ post_later :: replicate 7 id) (sys_arch_mbox_fetch 0x9000 5 mbox_world) mbox_world =
  Some (inl (3, 0x20001234)).
Proof. vm_compute. reflexivity. Qed.

Definition post_fetch : option ((unit + Call) * (Z * Z + Wait)) :=
  '(w1, o1) ← under (post_step 0x9000 7) [id] (sys_mbox_post 0x9000 7) mbox_world;
  '(w2, o2) ← under fetch_step [id] (sys_arch_mbox_fetch 0x9000 0 w1) w1;
  Some (o1, o2).
Lemma post_fetch_sample : post_fetch = Some (inl tt, inl (0, 7)).
Proof. vm_compute. reflexivity. Qed.

(** A fetch that goes to sleep is admitted at each of its steps. *)
Lemma fit_before q t ticks size o ob p w : before q t ticks size o p w -> obj_rep q w ob -> serves Receive ob ->
  fit (QueueBlock.C q ticks p o) w.
Proof.
  intros Hb Ho Hs. split; [|by exists ob| |].
  - destruct p as [| | | | | |[]|[]|[]|]; try done; destruct Hb as [[Hk _] _]; apply Hk.
  - cbn [c_pc QueueBlock.C]. intros ->. destruct Hb as [[Hk _] _]. exact (ca_running _ _ _ _ Hk).
  - cbn [c_pc QueueBlock.C]. intros [] ->; [|done..]. destruct Hb as [[[Hq _ _ Hleft] _] _]. split; [apply Hq|].
    apply (quiet_tasks t 1 _ Hq). apply (delayed_live t _ ticks); [apply Hq|done].
Qed.

Lemma sleeps_admitted q t ticks size o t0 ob n p w : 0 < ticks < 4294967296 -> serves Receive ob ->
  (forall m, (m < n)%nat -> Nat.iter m next p <> Enter) -> before q t ticks size o p w -> obj_rep q w ob ->
  admitted fetch_step wt_call (replicate n id) (mkWait (QueueBlock.C q ticks p o) t0) w.
Proof.
  intros Ht Hs. revert p w. induction n as [|n IH]; intros p w Hp Hb Ho; [done|]. cbn [admitted replicate id]. split; [by eapply fit_before|].
  destruct (before_step q t ticks Ht size o p w Hb) as (w1 & E & Hb1); [by apply (Hp 0%nat); lia|].
  intros w2 c2. unfold fetch_step. cbn [wt_call wt_t0]. rewrite E. cbn [mbind option_bind]. intros [= <- <-].
  apply IH; [|done|].
  - intros m Hm. rewrite <- Nat.iter_succ_r. apply Hp. lia.
  - apply call_step_waits in E as [E _]. by apply (same_items_keeps _ _ E).
Qed.

Lemma mbox_fetch_admitted : admitted fetch_step wt_call (replicate 9 id) (sys_arch_mbox_fetch 0x9000 5 mbox_world) mbox_world.
Proof.
  destruct (world_with_ok 2 4 mbox_fits) as (Hk & Hh & Hc).
  assert (st 0x9000 (calm 0x9000 0x3000 0) 4 (-1) (-1) [] mbox_world) as Hst by (by apply (st_holds 0x9000 _ _ _ _ _ _ _ Hc Hh)).
  change (replicate 9 id) with (id :: replicate 8 id (A := World -> World)). cbn [admitted id].
  split; [split; [done|by exists (Mbox 2 []); split; [exact mbox_world_rep|]|done|done]|].
  intros w1 c1. unfold fetch_step. cbn [wt_call wt_t0 sys_arch_mbox_fetch]. change (timeout_ticks 5) with 5. change (id mbox_world) with mbox_world.
  rewrite (enter_empty 0x9000 0x3000 5 ltac:(lia) 4 mbox_world Hst). cbn [mbind option_bind]. intros [= <- <-].
  apply (sleeps_admitted 0x9000 0x3000 5 4 _ _ (Mbox 2 [])); [lia|done| | |exact mbox_world_rep].
  - intros m Hm. do 8 (destruct m as [|m]; [done|]). lia.
  - simpl. destruct Hst. by split.
Qed.

Lemma port_clients_refine_witness : (exists s',
  run_client (@run_port Heap (heap4 0x20000003 0x20030000 77)) 5 sample_client [] sample_port =
    Some (s', [RNew 0 0x20000010; RErr 0; RErr 0; RMsg 0 0x20001234; RNone]) /\ kinv (w_k s'.1.2)) /\
  (exists w1 w2, under (post_step 0x9000 7) [id] (sys_mbox_post 0x9000 7) mbox_world = Some (w1, inl tt) /\
    obj_rep 0x9000 w1 (Mbox 2 [7]) /\
    under fetch_step [id] (sys_arch_mbox_fetch 0x9000 0 w1) w1 = Some (w2, inl (0, 7)) /\ obj_rep 0x9000 w2 (Mbox 2 [])) /\
  (exists w' o, under fetch_step (replicate 9 id) (sys_arch_mbox_fetch 0x9000 5 mbox_world) mbox_world = Some (w', o) /\
    waited (fetched 0x9000 (xTickCount (w_k mbox_world))) (replicate 9 id) mbox_world w' (result o)) /\
  (exists w1 f1 k w2, run_fetch 9 (sys_arch_mbox_fetch 0x9000 5 mbox_world) mbox_world = Some (w1, inr f1) /\
    tick_n 5 (w_k w1) = Some k /\ run_fetch 8 f1 (set_kernel k w1) = Some (w2, inl (SYS_ARCH_TIMEOUT, 0))).
Proof.
  assert (layout 0x20000003 0x20030000) as Hl by (vm_compute; intuition discriminate).
  destruct (@port_clients_refine Heap (heap4 0x20000003 0x20030000 77) (heap4_ok 0x20000003 0x20030000 77 Hl))
    as (Hclients & Hpost & Hfetch & _ & Htimeout). destruct (world_with_ok 2 4 mbox_fits) as (Hk & Hh & Hc). split; [|split; [|split]].
  - destruct (Hclients (fun _ => True) 5%nat sample_client [] ∅ sample_port ∅ sample_port_ok sample_behaves) as (s' & as' & σ' & E & _ & bs' & Hr).
    assert (as' = [RNew 0 0x20000010; RErr 0; RErr 0; RMsg 0 0x20001234; RNone]) as Ea.
    { apply (f_equal (option_map snd)) in E. vm_compute in E. injection E as <-. reflexivity. }
    exists s'. split; [rewrite <- Ea; exact E|]. exact (pr_kinv _ _ _ _ Hr).
  - pose proof post_fetch_sample as Es. unfold post_fetch in Es.
    destruct (Hpost 0x9000 7 [id] mbox_world) as (w1 & o1 & E1 & W1);
      [lia|split; [split; [exact Hk|exists (Mbox 2 []); split; [exact mbox_world_rep|exact I]|discriminate|discriminate]|done]|].
    rewrite E1 in Es. cbn [mbind option_bind] in Es. destruct (under fetch_step _ _ w1) as [[w o]|] eqn:E; [|discriminate].
    injection Es as -> ->. assert (posted 0x9000 7 mbox_world w1 tt) as P1.
    { inversion W1 as [|? ? ? ? ? ? _ W|? ? ? ? ? W]; subst; [inversion W|exact W]. }
    destruct (P1 2 [] Hk mbox_world_rep) as [_ (Hk1 & Ho1 & _)].
    destruct (Hfetch 0x9000 0 [id] w1) as (w2 & o2 & E2 & W2);
      [split; [split; [exact Hk1|exists (Mbox 2 [7]); split; [exact Ho1|exact I]|discriminate|discriminate]|done]|].
    rewrite E in E2. injection E2 as <- <-. assert (fetched 0x9000 (xTickCount (w_k w1)) w1 w (0, 7)) as P2.
    { inversion W2 as [|? ? ? ? ? ? _ W|? ? ? ? ? W]; subst; [inversion W|exact W]. }
    destruct (P2 2 [7] Hk1 Ho1) as [_ (_ & Ho2 & _)]. exists w1, w. split; [exact E1|]. split; [exact Ho1|]. split; [exact E|exact Ho2].
  - exact (Hfetch 0x9000 5 (replicate 9 id) mbox_world mbox_fetch_admitted).
  - apply (Htimeout 0x9000 0x3000 5 mbox_world (new_queue 2 4 0x9048 0x9000)); [lia|exact Hc|exact Hh|reflexivity|reflexivity].
Defined.
