(* ===== verification/Notify.v ===== *)
(** * tasks.c: direct-to-task notifications

    Each task has a 32-bit notification value and a state; giving and taking
    make them a counting semaphore with one waiter.  The two critical sections
    of a take and of a wait are separate steps: between them the task may have
    slept, been notified, or run out of time. *)

From S2P Require Import Prelude ListSpec Kernel KernelInv KernelTick KernelResume KernelSched KernelEvent.
#[local] Open Scope Z_scope.

Inductive eNotifyAction := eNoAction | eSetBits | eIncrement | eSetValueWithOverwrite | eSetValueWithoutOverwrite.
#[export] Instance eNotifyAction_eq_dec : EqDecision eNotifyAction.
Proof. solve_decision. Defined.

(** The switch on [eAction]: the new value and pdPASS or pdFAIL. *)
Definition notify_value (eAction : eNotifyAction) (ulValue old : Z) (ucOriginalNotifyState : NotifyState) : Z * bool :=
  match eAction with
  | eSetBits => (Z.lor old ulValue, true)
  | eIncrement => (u32 (old + 1), true)
  | eSetValueWithOverwrite => (ulValue, true)
  | eSetValueWithoutOverwrite =>
    if decide (ucOriginalNotifyState = Received) then (old, false) else (ulValue, true)
  | eNoAction => (old, true)
  end.

(** Takes the task out of the blocked state, from a task and from an interrupt. *)
Definition make_ready (t : Z) (k : Kernel) : option Kernel :=
  '(k, _) ← uxListRemove (IState t) k; Some (prvAddTaskToReadyList t k).
Definition unblock_from_isr (t : Z) (k : Kernel) : option (Kernel * bool) :=
  k ← (if uxSchedulerSuspended k =? 0 then make_ready t k
       else Some (on_lists (lInsertEnd LPendingReady (IEvent t)) k));
  Some (if uxPriority (tcb k t) >? uxPriority (tcb k (pxCurrentTCB k))
        then (set_xYieldPending true k, true) else (k, false)).

(** The previous value is what is stored through the pointer argument. *)
Definition xTaskGenericNotify (t ulValue : Z) (eAction : eNotifyAction) (k : Kernel) : option (Kernel * Z * bool) :=
  let old := ulNotifiedValue (tcb k t) in
  let ucOriginalNotifyState := ucNotifyState (tcb k t) in
  let '(v, ok) := notify_value eAction ulValue old ucOriginalNotifyState in
  let k := upd_tcb t (set_notify v Received) k in
  k ← (if decide (ucOriginalNotifyState = Waiting) then
         k ← make_ready t k;
         Some (if uxPriority (tcb k t) >? uxPriority (tcb k (pxCurrentTCB k)) then portYIELD k else k)
       else Some k);
  Some (k, old, ok).

(** The last component: pdTRUE is stored through [pxHigherPriorityTaskWoken]. *)
Definition xTaskGenericNotifyFromISR (t ulValue : Z) (eAction : eNotifyAction) (k : Kernel)
    : option (Kernel * Z * bool * bool) :=
  let old := ulNotifiedValue (tcb k t) in
  let ucOriginalNotifyState := ucNotifyState (tcb k t) in
  let '(v, ok) := notify_value eAction ulValue old ucOriginalNotifyState in
  let k := upd_tcb t (set_notify v Received) k in
  '(k, woken) ← (if decide (ucOriginalNotifyState = Waiting) then unblock_from_isr t k else Some (k, false));
  Some (k, old, ok, woken).

Definition vTaskNotifyGiveFromISR (t : Z) (k : Kernel) : option (Kernel * bool) :=
  let ucOriginalNotifyState := ucNotifyState (tcb k t) in
  let k := upd_tcb t (set_notify (u32 (ulNotifiedValue (tcb k t) + 1)) Received) k in
  if decide (ucOriginalNotifyState = Waiting) then unblock_from_isr t k else Some (k, false).

(** The wait of both calls. *)
Definition notify_block (xTicksToWait : Z) (k : Kernel) : option Kernel :=
  if xTicksToWait >? 0 then k ← prvAddCurrentTaskToDelayedList xTicksToWait k; Some (portYIELD k) else Some k.

(** ulTaskNotifyTake, its two critical sections. *)
Definition notify_take_begin (xTicksToWait : Z) (k : Kernel) : option Kernel :=
  let t := pxCurrentTCB k in
  if ulNotifiedValue (tcb k t) =? 0 then notify_block xTicksToWait (upd_tcb t (set_notify 0 Waiting) k)
  else Some k.
Definition notify_take_end (xClearCountOnExit : bool) (k : Kernel) : Kernel * Z :=
  let t := pxCurrentTCB k in
  let ulReturn := ulNotifiedValue (tcb k t) in
  let v := if negb (ulReturn =? 0) then (if xClearCountOnExit then 0 else u32 (ulReturn - 1)) else ulReturn in
  (upd_tcb t (set_notify v NotWaiting) k, ulReturn).

(** xTaskNotifyWait, its two critical sections. *)
Definition notify_wait_begin (ulBitsToClearOnEntry xTicksToWait : Z) (k : Kernel) : option Kernel :=
  let t := pxCurrentTCB k in
  if negb (bool_decide (ucNotifyState (tcb k t) = Received)) then
    let v := Z.land (ulNotifiedValue (tcb k t)) (u32 (Z.lnot ulBitsToClearOnEntry)) in
    notify_block xTicksToWait (upd_tcb t (set_notify v Waiting) k)
  else Some k.
Definition notify_wait_end (ulBitsToClearOnExit : Z) (k : Kernel) : Kernel * Z * bool :=
  let t := pxCurrentTCB k in
  let pulNotificationValue := ulNotifiedValue (tcb k t) in
  let received := bool_decide (ucNotifyState (tcb k t) = Received) in
  let v := if received then Z.land pulNotificationValue (u32 (Z.lnot ulBitsToClearOnExit)) else pulNotificationValue in
  (upd_tcb t (set_notify v NotWaiting) k, pulNotificationValue, received).

(** A handle of 0 (NULL) is the calling task. *)
Definition xTaskNotifyStateClear (xTask : Z) (k : Kernel) : Kernel * bool :=
  let t := if xTask =? 0 then pxCurrentTCB k else xTask in
  if decide (ucNotifyState (tcb k t) = Received)
  then (upd_tcb t (set_notify (ulNotifiedValue (tcb k t)) NotWaiting) k, true) else (k, false).

(** ** The kernel's invariant *)

Lemma kinv_notify k t v s : kinv k -> live k t -> kinv (upd_tcb t (set_notify v s) k).
Proof.
  intros [Hb Hblk [[Hn1 Hn1'] Hn2 Hn3 Hn4 Hn5]] Hl. split; [by apply kbase_upd_other|done|].
  split; simpl; try done. destruct Hl as [c Hc]. by rewrite map_size_insert_Some by (by exists c).
Qed.

Lemma notify_same k t v s : uxPriority (tcb (upd_tcb t (set_notify v s) k) t) = uxPriority (tcb k t).
Proof. rewrite tcb_upd_tcb. by rewrite decide_True. Qed.

Lemma lor_reset x p : 0 <= x < 4294967296 -> 0 <= p < 32 ->
  Z.lor (Z.land x (u32 (Z.lnot (Z.shiftl 1 p)))) (Z.shiftl 1 p) = Z.lor x (Z.shiftl 1 p).
Proof.
  intros Hx Hp. apply Z.bits_inj'. intros q Hq. rewrite !testbit_record by lia. rewrite testbit_reset by done.
  destruct (Z.testbit x q), (p =? q); done.
Qed.

(** A task that is somewhere but not deleted. *)
Definition present (k : Kernel) (t : Z) : Prop := exists l, kcontainer k (IState t) = Some l /\ l <> LTermination.

(** Taking the state item to the end of its ready list, from wherever it is. *)
Lemma make_ready_ok k t : kinv k -> present k t -> kcontainer k (IEvent t) = None ->
  exists k', make_ready t k = Some k' /\ kinv k' /\ only_lists k k' /\
    kcontainer k' (IState t) = Some (LReady (uxPriority (tcb k t))) /\
    (forall i, i <> IState t -> kcontainer k' i = kcontainer k i).
Proof.
  intros Hinv (l & Hl & Hnt) He. pose proof Hinv as [Hb Hblk Hc]. unfold make_ready.
  rewrite (uxListRemove_eq _ _ _ Hl). cbn [mbind option_bind].
  pose proof (ki_state Hb _ _ Hl) as [Hlive Hsl]. pose proof (live_prio _ _ Hb Hlive) as Hp.
  set (k1 := on_lists (lRemove (IState t)) k). exists (prvAddTaskToReadyList t k1). split; [done|].
  assert (kbase (prvAddTaskToReadyList t k1)) as Hb'.
  { assert ((exists p, l = LReady p) \/ forall p, l <> LReady p) as [[p ->]|Hnr]
      by (destruct l as [p| | | | |]; [left; by exists p|by right..]).
    - simpl in Hsl. subst p. pose proof (kbase_remove_ready k t _ Hb Hl) as Hr. cbv zeta in Hr. fold k1 in Hr.
      destruct (list_length (LReady (uxPriority (tcb k t))) k1 =? 0).
      + assert (prvAddTaskToReadyList t k1 = prvAddTaskToReadyList t (portRESET_READY_PRIORITY (uxPriority (tcb k t)) k1)) as ->.
        { rewrite !prvAdd_eq. f_equal. change (tcb (portRESET_READY_PRIORITY _ k1) t) with (tcb k t). change (tcb k1 t) with (tcb k t).
          unfold portRESET_READY_PRIORITY, set_uxTopReadyPriority. simpl. f_equal. symmetry. apply lor_reset; [apply Hb|lia]. }
        apply kbase_add_ready; [done| |done]. unfold kcontainer. simpl. by rewrite container_lRemove, decide_True.
      + apply kbase_add_ready; [done| |done]. unfold kcontainer. simpl. by rewrite container_lRemove, decide_True.
    - apply kbase_add_ready; [apply kbase_remove; [done|congruence]| |done]. unfold kcontainer. simpl. by rewrite container_lRemove, decide_True. }
  assert (forall i, kcontainer (prvAddTaskToReadyList t k1) i =
    if decide (i = IState t) then Some (LReady (uxPriority (tcb k t))) else kcontainer k i) as Hcont.
  { intros i. unfold kcontainer. rewrite prvAdd_eq. simpl. change (tcb k1 t) with (tcb k t).
    rewrite container_lInsertEnd, container_lRemove. repeat case_decide; congruence. }
  assert (only_lists k (prvAddTaskToReadyList t k1)) as Ho by (etrans; [apply (only_lists_on (lRemove (IState t)))|apply only_lists_add]).
  split_and!; [|done|by rewrite Hcont, decide_True|intros i Hi; by rewrite Hcont, decide_False].
  split; [done| |].
  - intros u. rewrite !Hcont. rewrite (decide_False (P := IEvent u = IState t)) by done.
    case_decide; [simplify_eq; by rewrite He|]. apply Hblk.
  - apply (only_lists_counts k); [done..| |].
    + unfold klist. rewrite prvAdd_eq. simpl. rewrite on_list_lInsertEnd_ne by done.
      rewrite on_list_lRemove, decide_False; [done|]. unfold kcontainer in Hl. congruence.
    + intros Hs. apply (klist_nil _ _ Hb'). intros i Hi. destruct (event_item _ _ _ Hb' Hi I) as [u ->].
      rewrite Hcont, decide_False in Hi by done. by apply (no_pending k Hinv Hs u).
Qed.

(** [t] sleeps in a notification call: delayed and not about to be readied. *)
Definition delayed (k : Kernel) (t : Z) : Prop :=
  kcontainer k (IState t) = Some LDelayed1 \/ kcontainer k (IState t) = Some LDelayed2.
Definition asleep (k : Kernel) (t : Z) : Prop := delayed k t /\ kcontainer k (IEvent t) <> Some LPendingReady.

Lemma to_pending_ok k t : kinv k -> delayed k t -> kcontainer k (IEvent t) = None -> uxSchedulerSuspended k <> 0 ->
  let k' := on_lists (lInsertEnd LPendingReady (IEvent t)) k in
  kinv k' /\ forall i, kcontainer k' i = if decide (i = IEvent t) then Some LPendingReady else kcontainer k i.
Proof.
  intros Hinv Hd He Hs k'. pose proof Hinv as [Hb Hblk Hc].
  assert (live k t) as Hl by (destruct Hd as [Hd|Hd]; by apply (ki_state Hb) in Hd as [? _]).
  assert (forall i, kcontainer k' i = if decide (i = IEvent t) then Some LPendingReady else kcontainer k i) as Hcont.
  { intros i. unfold k', kcontainer. simpl. rewrite container_lInsertEnd. repeat case_decide; congruence. }
  split; [|done]. split.
  - apply (kbase_insert_other k (IEvent t) LPendingReady); try done. by right.
  - intros u. rewrite !Hcont. rewrite (decide_False (P := IState u = IEvent t)) by done.
    case_decide; [by simplify_eq|]. apply Hblk.
  - apply (only_lists_counts k); [apply only_lists_on|done| |done].
    unfold klist, k'. simpl. by rewrite on_list_lInsertEnd_ne.
Qed.

(** Going to sleep without an event. *)
Lemma sleep_ok k w : kinv k -> running k -> 0 < w < 4294967296 ->
  exists k', prvAddCurrentTaskToDelayedList w k = Some k' /\ kinv k' /\ only_lists k k' /\
    delayed k' (pxCurrentTCB k) /\ (forall i, i <> IState (pxCurrentTCB k) -> kcontainer k' i = kcontainer k i).
Proof.
  intros Hinv Hrun Hw. pose proof Hinv as [Hb Hblk Hc]. pose proof (running_event_free k Hinv Hrun) as Hfree.
  destruct (delay_current k w Hb Hrun Hw) as (k' & E & Hb' & Ho & Hst & Hv & Hoth & Ht). exists k'. split; [done|].
  assert (kbase k') as Hbk by (by eapply only_lists_kbase).
  assert (delayed k' (pxCurrentTCB k)) as Hd.
  { unfold delayed. rewrite Hst. destruct (delayed_is _ Hb) as ([E1|E1] & [E2|E2] & _); rewrite E1, E2; destruct (_ <? _); auto. }
  split_and!; [|done|done|intros i Hi; by apply Hoth]. split; [done| |].
  - intros u. destruct (Hoth (IEvent u)) as [-> _]; [done|]. destruct (decide (u = pxCurrentTCB k)) as [->|Hu]; [by rewrite Hfree|].
    destruct (Hoth (IState u)) as [-> _]; [congruence|apply Hblk].
  - apply (only_lists_counts k); [done..|]. intros Hs. apply (klist_nil _ _ Hbk). intros i Hi.
    destruct (event_item _ _ _ Hbk Hi I) as [u ->]. destruct (Hoth (IEvent u)) as [E' _]; [done|]. rewrite E' in Hi.
    by apply (no_pending k Hinv Hs u).
Qed.

(** ** Giving *)

(** [t] has its new value, and if it waited it does not sleep any more. *)
Record given (t v : Z) (k k' : Kernel) : Prop := mkGiven {
  gv_kinv : kinv k';
  gv_value : ulNotifiedValue (tcb k' t) = v /\ ucNotifyState (tcb k' t) = Received;
  gv_present : present k' t;
  gv_awake : ucNotifyState (tcb k t) = Waiting -> ~ asleep k' t;
  gv_same : ucNotifyState (tcb k t) <> Waiting -> k' = upd_tcb t (set_notify v Received) k
}.

(** What an interrupt needs: a task that waits is free, and with the scheduler
    suspended it sleeps. *)
Definition notifiable (k : Kernel) (t : Z) : Prop :=
  kinv k /\ present k t /\ (ucNotifyState (tcb k t) = Waiting -> kcontainer k (IEvent t) = None).
Definition isr_notifiable (k : Kernel) (t : Z) : Prop :=
  ucNotifyState (tcb k t) = Waiting -> uxSchedulerSuspended k <> 0 -> delayed k t.

Lemma present_live k t : kinv k -> present k t -> live k t.
Proof. intros [Hb _ _] (l & Hl & _). by apply (ki_state Hb) in Hl as [? _]. Qed.

Lemma only_lists_notify k k' t : only_lists k k' -> tcb k' t = tcb k t.
Proof. by intros (? & ? & ? & ->). Qed.

Lemma ready_awake k t p : kcontainer k (IState t) = Some (LReady p) -> ~ delayed k t.
Proof. intros E [E'|E']; congruence. Qed.

(** The value is written and the task made ready, by a task or interrupt; the
    yield does not matter. *)
Lemma given_ready t v k y f : notifiable k t -> ucNotifyState (tcb k t) = Waiting ->
  (forall k, f k = set_xYieldPending y k \/ f k = set_yield y k \/ f k = k) -> exists k',
  make_ready t (upd_tcb t (set_notify v Received) k) = Some k' /\ given t v k (f k').
Proof.
  intros (Hk & Hp & He) Hw Hf. pose proof (present_live k t Hk Hp) as Hl. set (k1 := upd_tcb t (set_notify v Received) k).
  destruct (make_ready_ok k1 t (kinv_notify k t v Received Hk Hl) Hp (He Hw)) as (k2 & E & Hk2 & Ho & Hst & _).
  exists k2. split; [done|].
  assert (tcb k2 t = set_notify v Received (tcb k t)) as Et
    by (rewrite (only_lists_notify _ _ _ Ho); unfold k1; by rewrite tcb_upd_tcb, decide_True).
  assert (given t v k k2) as [G1 G2 G3 G4 G5].
  { split; [done|by rewrite Et|by eexists|intros _ [Hd _]; by eapply ready_awake|done]. }
  destruct (Hf k2) as [->|[->| ->]]; [| |by split]; split; try done; [by apply kinv_pending_yield|by apply kinv_yield].
Qed.

Lemma given_else t v k : notifiable k t -> ucNotifyState (tcb k t) <> Waiting ->
  given t v k (upd_tcb t (set_notify v Received) k).
Proof.
  intros (Hk & Hp & _) Hw. pose proof (present_live k t Hk Hp) as Hl.
  split; [by apply kinv_notify|rewrite tcb_upd_tcb; by rewrite decide_True|done|done|done].
Qed.

(** Notifying from a task, on every branch: the answer, the value, and the
    waiting task is ready, whatever the action. *)
Lemma xTaskGenericNotify_ok t x a k : notifiable k t ->
  exists k', xTaskGenericNotify t x a k = Some (k', ulNotifiedValue (tcb k t),
      (notify_value a x (ulNotifiedValue (tcb k t)) (ucNotifyState (tcb k t))).2) /\
    given t (notify_value a x (ulNotifiedValue (tcb k t)) (ucNotifyState (tcb k t))).1 k k'.
Proof.
  intros Hn. unfold xTaskGenericNotify. destruct (notify_value a x _ _) as [v ok]. simpl fst. simpl snd.
  case_decide as Hw.
  - destruct (given_ready t v k true (fun k => if uxPriority (tcb k t) >? uxPriority (tcb k (pxCurrentTCB k)) then portYIELD k else k) Hn Hw)
      as (k' & -> & Hg); [intros k'; destruct (_ >? _); auto|]. cbn [mbind option_bind]. by eexists.
  - cbn [mbind option_bind]. eexists. split; [reflexivity|]. by apply given_else.
Qed.

Lemma unblock_from_isr_ok t v k : notifiable k t -> isr_notifiable k t -> ucNotifyState (tcb k t) = Waiting ->
  exists k' w, unblock_from_isr t (upd_tcb t (set_notify v Received) k) = Some (k', w) /\ given t v k k' /\
    (w = true <-> uxPriority (tcb k t) > cur_prio k).
Proof.
  intros Hn Hi Hw. pose proof Hn as (Hk & Hp & He). pose proof (present_live k t Hk Hp) as Hl.
  set (k1 := upd_tcb t (set_notify v Received) k).
  assert (exists k2, (if uxSchedulerSuspended k1 =? 0 then make_ready t k1 else Some (on_lists (lInsertEnd LPendingReady (IEvent t)) k1)) = Some k2 /\
    only_lists k1 k2 /\ given t v k k2) as (k2 & E & Ho & Hg).
  { change (uxSchedulerSuspended k1) with (uxSchedulerSuspended k). destruct (Z.eqb_spec (uxSchedulerSuspended k) 0) as [Hs|Hs].
    - destruct (given_ready t v k true (fun k => k) Hn Hw) as (k2 & E & Hg); [auto|]. exists k2. split; [done|]. split; [|done].
      destruct (make_ready_ok k1 t (kinv_notify k t v Received Hk Hl) Hp (He Hw)) as (k3 & E3 & _ & Ho & _).
      fold k1 in E. rewrite E in E3. by injection E3 as <-.
    - destruct (to_pending_ok k1 t (kinv_notify k t v Received Hk Hl) (Hi Hw Hs) (He Hw) Hs) as [Hk2 Hc2].
      eexists. split; [reflexivity|]. split; [apply only_lists_on|]. split; [exact Hk2| | | |done].
      + change (tcb (on_lists _ k1) t) with (tcb k1 t). unfold k1. rewrite tcb_upd_tcb. by rewrite decide_True.
      + destruct Hp as (l & El & Hnt). exists l. by rewrite Hc2, decide_False.
      + intros _ [_ Hne]. by rewrite Hc2, decide_True in Hne. }
  unfold unblock_from_isr. rewrite E. cbn [mbind option_bind].
  assert (uxPriority (tcb k2 t) = uxPriority (tcb k t) /\ uxPriority (tcb k2 (pxCurrentTCB k2)) = cur_prio k) as [-> ->].
  { rewrite (only_lists_notify _ _ t Ho), (only_lists_notify _ _ (pxCurrentTCB k2) Ho).
    destruct Ho as (? & ? & ? & ->). unfold k1. split; [by apply notify_same|]. unfold cur_prio.
    change (pxCurrentTCB (set_lists _ _)) with (pxCurrentTCB k). rewrite tcb_upd_tcb. by case_decide; subst. }
  rewrite Z.gtb_ltb. destruct (Z.ltb_spec (cur_prio k) (uxPriority (tcb k t))) as [Hgt|Hle].
  - do 2 eexists. split; [reflexivity|]. destruct Hg as [G1 G2 G3 G4 G5]. split; [|split; [lia|done]].
    split; try done. by apply kinv_pending_yield.
  - do 2 eexists. split; [reflexivity|]. split; [done|]. split; [done|lia].
Qed.

Lemma xTaskGenericNotifyFromISR_ok t x a k : notifiable k t -> isr_notifiable k t ->
  exists k' w, xTaskGenericNotifyFromISR t x a k = Some (k', ulNotifiedValue (tcb k t),
      (notify_value a x (ulNotifiedValue (tcb k t)) (ucNotifyState (tcb k t))).2, w) /\
    given t (notify_value a x (ulNotifiedValue (tcb k t)) (ucNotifyState (tcb k t))).1 k k' /\
    (w = true <-> ucNotifyState (tcb k t) = Waiting /\ uxPriority (tcb k t) > cur_prio k).
Proof.
  intros Hn Hi. unfold xTaskGenericNotifyFromISR. destruct (notify_value a x _ _) as [v ok]. simpl fst. simpl snd.
  case_decide as Hw.
  - destruct (unblock_from_isr_ok t v k Hn Hi Hw) as (k' & w & -> & Hg & Hy). do 2 eexists. split; [reflexivity|]. by rewrite Hy; intuition.
  - do 2 eexists. split; [reflexivity|]. split; [by apply given_else|]. split; [done|by intros []].
Qed.

Lemma vTaskNotifyGiveFromISR_eq t k : vTaskNotifyGiveFromISR t k =
  ('(k, _, _, w) ← xTaskGenericNotifyFromISR t 0 eIncrement k; Some (k, w)).
Proof.
  unfold vTaskNotifyGiveFromISR, xTaskGenericNotifyFromISR. simpl. case_decide; [|done].
  by destruct (unblock_from_isr t _) as [[? ?]|].
Qed.

(** ** Taking and giving as a counting semaphore *)

Inductive nev := GiveFromISR | GiveFromTask | TakeBegin (ticks : Z) | TakeEnd (clear : bool) | Else (k : Kernel).

(** The kernel and whether [t] is between the two sections of a take.  An event
    gives (1 or 0) and a finished take returns. *)
Definition nstep (t : Z) (e : nev) (s : Kernel * bool) : option (Kernel * bool * Z * list (bool * Z)) :=
  let '(k, b) := s in
  match e with
  | GiveFromISR => '(k, _) ← vTaskNotifyGiveFromISR t k; Some (k, b, 1, [])
  | GiveFromTask => '(k, _, _) ← xTaskGenericNotify t 0 eIncrement k; Some (k, b, 1, [])
  | TakeBegin ticks => k ← notify_take_begin ticks k; Some (k, true, 0, [])
  | TakeEnd clear => let '(k, r) := notify_take_end clear k in Some (k, false, 0, [(clear, r)])
  | Else k => Some (k, b, 0, [])
  end.
Fixpoint nrun (t : Z) (evs : list nev) (s : Kernel * bool) : option (Kernel * bool * Z * list (bool * Z)) :=
  match evs with
  | [] => Some (s, 0, [])
  | e :: evs => '(s, n, r) ← nstep t e s; '(s, n', r') ← nrun t evs s; Some (s, n + n', r ++ r')
  end.

(** Anything else that happens in the system: it does not touch the
    notification of [t], does not put [t] to sleep or on an event list, does
    not delete it. *)
Record other (t : Z) (k k' : Kernel) : Prop := mkOther {
  ot_kinv : kinv k';
  ot_notify : ulNotifiedValue (tcb k' t) = ulNotifiedValue (tcb k t) /\ ucNotifyState (tcb k' t) = ucNotifyState (tcb k t);
  ot_present : present k t -> present k' t;
  ot_asleep : asleep k' t -> asleep k t;
  ot_event : kcontainer k (IEvent t) = None -> kcontainer k' (IEvent t) = None
}.

Definition allowed (t : Z) (e : nev) (s : Kernel * bool) : Prop :=
  let '(k, b) := s in
  match e with
  | GiveFromISR => isr_notifiable k t
  | GiveFromTask => True
  | TakeBegin ticks => b = false /\ pxCurrentTCB k = t /\ running k /\ 0 <= ticks < 4294967296
  | TakeEnd _ => b = true /\ pxCurrentTCB k = t /\ running k
  | Else k' => other t k k'
  end.
Fixpoint all_allowed (t : Z) (evs : list nev) (s : Kernel * bool) : Prop :=
  match evs with
  | [] => True
  | e :: evs => allowed t e s /\ forall s' n r, nstep t e s = Some (s', n, r) -> all_allowed t evs s'
  end.

(** The invariant: [t] sleeps only in a take, with nothing to take. *)
Record notify_inv (t : Z) (s : Kernel * bool) : Prop := mkNotifyInv {
  ni_kinv : kinv s.1;
  ni_present : present s.1 t;
  ni_range : 0 <= ulNotifiedValue (tcb s.1 t) < 4294967296;
  ni_asleep : asleep s.1 t -> ucNotifyState (tcb s.1 t) = Waiting;
  ni_waiting : ucNotifyState (tcb s.1 t) = Waiting ->
    s.2 = true /\ ulNotifiedValue (tcb s.1 t) = 0 /\ kcontainer s.1 (IEvent t) = None
}.

(** What a take that returned [r] took. *)
Definition taken (clear : bool) (r : Z) : Z := if clear then r else if r =? 0 then 0 else 1.
Fixpoint total (rs : list (bool * Z)) : Z := match rs with [] => 0 | (c, r) :: rs => taken c r + total rs end.
Lemma total_app a b : total (a ++ b) = total a + total b.
Proof. induction a as [|[c r] a IH]; simpl; [done|]. rewrite IH. lia. Qed.

Lemma running_awake k : running k -> ~ delayed k (pxCurrentTCB k).
Proof. intros Hr. by eapply ready_awake. Qed.

Lemma ni_notifiable t s : notify_inv t s -> notifiable s.1 t.
Proof. intros [H1 H2 _ _ H5]. split_and!; [done|done|]. intros Hw. by apply H5. Qed.

Lemma given_inv t k b k' : notify_inv t (k, b) -> given t (u32 (ulNotifiedValue (tcb k t) + 1)) k k' ->
  notify_inv t (k', b) /\ ulNotifiedValue (tcb k' t) = u32 (ulNotifiedValue (tcb k t) + 1).
Proof.
  intros [N1 N2 N3 N4 N5] [G1 [Gv Gs] G3 G4 G5]. simpl in *. split; [|done]. split; simpl; [done|done| | |by rewrite Gs].
  - rewrite Gv. apply u32_range.
  - intros Ha. exfalso. destruct (decide (ucNotifyState (tcb k t) = Waiting)) as [Hw|Hw]; [by apply (G4 Hw)|].
    rewrite (G5 Hw) in Ha. by apply Hw, N4.
Qed.

Lemma take_begin_inv t ticks k : notify_inv t (k, false) -> pxCurrentTCB k = t -> running k -> 0 <= ticks < 4294967296 ->
  exists k', notify_take_begin ticks k = Some k' /\ notify_inv t (k', true) /\
    ulNotifiedValue (tcb k' t) = ulNotifiedValue (tcb k t).
Proof.
  intros [N1 N2 N3 N4 N5] Ec Hr Ht. simpl in *. unfold notify_take_begin. rewrite Ec.
  destruct (Z.eqb_spec (ulNotifiedValue (tcb k t)) 0) as [Hv|Hv].
  2:{ exists k. split; [done|]. split; [|done]. split; simpl; try done. intros Hw. by destruct (N5 Hw). }
  set (k1 := upd_tcb t (set_notify 0 Waiting) k). pose proof (kinv_notify k t 0 Waiting N1 (present_live _ _ N1 N2)) as Hk1. fold k1 in Hk1.
  assert (forall u, uxPriority (tcb k1 u) = uxPriority (tcb k u)) as Hpr by (intros u; unfold k1; rewrite tcb_upd_tcb; by case_decide; subst).
  assert (running k1) as Hr1 by (unfold running; rewrite Hpr; exact Hr).
  assert (kcontainer k (IEvent t) = None) as He by (rewrite <- Ec; by apply running_event_free).
  assert (tcb k1 t = set_notify 0 Waiting (tcb k t)) as Et by (unfold k1; by rewrite tcb_upd_tcb, decide_True).
  unfold notify_block. rewrite Z.gtb_ltb. destruct (Z.ltb_spec 0 ticks).
  - destruct (sleep_ok k1 ticks Hk1 Hr1) as (k2 & -> & Hk2 & Ho & Hd & Hoth); [lia|]. cbn [mbind option_bind].
    change (pxCurrentTCB k1) with (pxCurrentTCB k) in *. rewrite Ec in *.
    assert (tcb k2 t = set_notify 0 Waiting (tcb k t)) as Et2 by (by rewrite (only_lists_notify _ _ _ Ho)).
    eexists. split; [reflexivity|]. change (tcb (portYIELD k2) t) with (tcb k2 t). rewrite Et2. split; [|done].
    split; simpl; change (tcb (portYIELD k2) t) with (tcb k2 t); rewrite ?Et2; simpl; [by apply kinv_yield| |lia|done|].
    + destruct Hd as [Hd|Hd]; by eexists.
    + intros _. split_and!; [done|done|]. change (kcontainer k2 (IEvent t) = None). by rewrite Hoth.
  - exists k1. split; [done|]. rewrite Et. split; [|done]. split; simpl; rewrite ?Et; simpl; [done|done|lia|done|]. done.
Qed.

Lemma take_end_inv t clear k : notify_inv t (k, true) -> pxCurrentTCB k = t -> running k ->
  let '(k', r) := notify_take_end clear k in notify_inv t (k', false) /\ r = ulNotifiedValue (tcb k t) /\
    ulNotifiedValue (tcb k' t) = ulNotifiedValue (tcb k t) - taken clear r.
Proof.
  intros [N1 N2 N3 N4 N5] Ec Hr. simpl in *. unfold notify_take_end. rewrite Ec.
  set (v := if negb _ then _ else _). assert (v = ulNotifiedValue (tcb k t) - taken clear (ulNotifiedValue (tcb k t)) /\ 0 <= v < 4294967296) as [Ev Hv].
  { unfold v, taken. destruct (Z.eqb_spec (ulNotifiedValue (tcb k t)) 0), clear; simpl; rewrite ?u32_small by lia; lia. }
  split_and!; [|done|by rewrite tcb_upd_tcb, decide_True].
  split; simpl; rewrite ?tcb_upd_tcb, ?decide_True by done; simpl; [by apply kinv_notify, present_live|done|done| |done].
  intros [Hd _]. exfalso. apply (running_awake k Hr). by rewrite Ec.
Qed.

Lemma other_inv t k k' b : notify_inv t (k, b) -> other t k k' -> notify_inv t (k', b).
Proof.
  intros [N1 N2 N3 N4 N5] [O1 [Ov Os] O3 O4 O5]. simpl in *. split; simpl; rewrite ?Ov, ?Os; [done|by apply O3|done|auto|].
  intros Hw. destruct (N5 Hw) as (? & ? & ?). auto.
Qed.

(** C25: notifications count, and no give is lost.  Interleave gives from
    interrupts and tasks, the two critical sections of takes, and anything else
    the system does, in any order: every step can be taken; the notification
    value is at any time the number of gives less what the takes returned (modulo
    2^32), and the task sleeps only in a take and only when there is nothing to
    take, so that a give during a take always wakes it, whether the interrupt
    comes before, while or after the task goes to sleep. *)
Theorem notifications_counted t evs s : notify_inv t s -> all_allowed t evs s ->
  exists s' n rs, nrun t evs s = Some (s', n, rs) /\ notify_inv t s' /\
    ulNotifiedValue (tcb s'.1 t) = u32 (ulNotifiedValue (tcb s.1 t) + n - total rs) /\
    (asleep s'.1 t -> ulNotifiedValue (tcb s'.1 t) = 0).
Proof.
  revert s. induction evs as [|e evs IH]; intros [k b] Hi Ha.
  { exists (k, b), 0, []. split; [done|]. split; [done|]. pose proof (ni_range _ _ Hi). simpl in *.
    split; [rewrite u32_small by lia; lia|]. intros Hs. by destruct (ni_waiting _ _ Hi (ni_asleep _ _ Hi Hs)) as (_ & ? & _). }
  destruct Ha as [Ha Hnext].
  assert (exists s1 n r, nstep t e (k, b) = Some (s1, n, r) /\ notify_inv t s1 /\
    ulNotifiedValue (tcb s1.1 t) = u32 (ulNotifiedValue (tcb k t) + n - total r)) as (s1 & n & r & E & Hi1 & Hv1).
  { pose proof (ni_notifiable _ _ Hi) as Hn. pose proof (ni_range _ _ Hi) as Hrg. simpl in Hn, Hrg.
    destruct e as [| |ticks|clear|k']; cbn [nstep allowed] in *.
    - destruct (xTaskGenericNotifyFromISR_ok t 0 eIncrement k Hn Ha) as (k' & w & E & Hg & _).
      rewrite vTaskNotifyGiveFromISR_eq, E. do 3 eexists. split; [reflexivity|].
      destruct (given_inv t k b k' Hi Hg) as [? Ev]. split; [done|]. simpl. rewrite Ev. f_equal. lia.
    - destruct (xTaskGenericNotify_ok t 0 eIncrement k Hn) as (k' & -> & Hg). do 3 eexists. split; [reflexivity|].
      destruct (given_inv t k b k' Hi Hg) as [? Ev]. split; [done|]. simpl. rewrite Ev. f_equal. lia.
    - destruct Ha as (-> & Ec & Hr & Ht). destruct (take_begin_inv t ticks k Hi Ec Hr Ht) as (k' & -> & Hi' & Hv').
      do 3 eexists. split; [reflexivity|]. split; [done|]. simpl. rewrite Hv', u32_small by lia. lia.
    - destruct Ha as (-> & Ec & Hr). pose proof (take_end_inv t clear k Hi Ec Hr) as He.
      destruct (notify_take_end clear k) as [k' r] eqn:E. destruct He as (Hi' & Er & Hv'). do 3 eexists. split; [reflexivity|]. split; [done|].
      pose proof (ni_range _ _ Hi') as Hrg'. simpl in *. rewrite Hv' in *. rewrite u32_small by lia. lia.
    - do 3 eexists. split; [reflexivity|]. split; [by eapply other_inv|]. destruct Ha as [_ [Hv _] _ _ _]. simpl. rewrite Hv, u32_small by lia. lia. }
  destruct (IH s1 Hi1 (Hnext _ _ _ E)) as (s2 & n2 & r2 & E2 & Hi2 & Hv2 & Hs2).
  exists s2, (n + n2), (r ++ r2). cbn [nrun]. rewrite E. cbn [mbind option_bind]. rewrite E2. split; [done|]. split; [done|]. split; [|done].
  rewrite Hv2, Hv1, total_app. simpl. unfold u32. Z.div_mod_to_equations. lia.
Qed.

(** ** The rest of the kernel is such other activity *)

Lemma ticked_other t k k' : kinv k -> uxSchedulerSuspended k = 0 -> ticked k k' -> other t k k'.
Proof.
  intros Hk Hs Htk. pose proof (ticked_kinv k k' Hk Hs Htk) as Hk'. destruct Htk as [_ _ _ _ Hf _ Hw Hsame _].
  split; [done| | | |].
  - destruct Hf as (? & ? & ? & ? & ? & ? & ? & ->). done.
  - intros (l & El & Hl). destruct (decide (remaining k t = Some 1)) as [Hr|Hr].
    + destruct (Hw t Hr) as [E _]. by eexists.
    + destruct (Hsame t Hr) as [E _]. exists l. by rewrite E.
  - intros [Hd He]. destruct (decide (remaining k t = Some 1)) as [Hr|Hr].
    + destruct (Hw t Hr) as [E _]. by destruct (ready_awake _ _ _ E).
    + destruct (Hsame t Hr) as [E1 E2]. unfold asleep, delayed in *. by rewrite E1, E2 in *.
  - intros He. destruct (decide (remaining k t = Some 1)) as [Hr|Hr]; [by destruct (Hw t Hr)|].
    by destruct (Hsame t Hr) as [_ ->].
Qed.

Lemma resumed_other t k k' : kinv k' -> resumed k k' -> other t k k'.
Proof.
  intros Hk' Hres. pose proof (rs_tcbs _ _ Hres) as Et. pose proof (rs_pending _ _ Hres t) as Hp.
  pose proof (rs_timeout _ _ Hres t) as Ht. pose proof (rs_same _ _ Hres t) as Hs.
  assert ((kcontainer k' (IState t) = Some (LReady (uxPriority (tcb k t))) /\ kcontainer k' (IEvent t) = None) \/
    (kcontainer k' (IState t) = kcontainer k (IState t) /\ kcontainer k' (IEvent t) = kcontainer k (IEvent t))) as Hc.
  { destruct (decide (kcontainer k (IEvent t) = Some LPendingReady)) as [E|E]; [left; by apply Hp|].
    destruct (remaining k t) as [r|] eqn:Er.
    - destruct (Z.le_gt_cases r (uxPendedTicks k)); [left; by apply (Ht r)|]. right. apply Hs; [done|].
      intros r'. intros [= <-]. lia.
    - right. apply Hs; [done|]. by intros r'. }
  split; [done|unfold tcb; by rewrite Et| | |].
  - intros (l & El & Hl). destruct Hc as [[E _]|[E _]]; [by eexists|]. exists l. by rewrite E.
  - intros [Hd He]. destruct Hc as [[E _]|[E1 E2]]; [by destruct (ready_awake _ _ _ E)|].
    unfold asleep, delayed in *. by rewrite E1, E2 in *.
  - intros He. by destruct Hc as [[_ ->]|[_ ->]].
Qed.

Lemma switch_other t k u : kinv k -> other t k (set_pxCurrentTCB u k).
Proof.
  intros [[] Hblk []]. split; [|done..]. split; [by split|done|by split].
Qed.
