(* ===== verification/NotifySample.v ===== *)
(** * The notification theorem applied to a running system *)

From S2P Require Import Prelude ListSpec Kernel KernelInv KernelTick KernelResume KernelSched KernelEvent Notify KernelSample.
#[local] Open Scope Z_scope.

(** Task 0x3000 sleeps in a take, is given one unit by an interrupt and one by
    itself later, and takes both. *)
Definition sample_trace : list nev :=
  [TakeBegin 5; GiveFromISR; TakeEnd true; GiveFromTask; TakeBegin 0; TakeEnd false].

Lemma sample_notify_inv : notify_inv 0x3000 (sample, false).
Proof.
  split.
  - exact sample_ok.
  - exists (LReady 2). split; [vm_compute; reflexivity|discriminate].
  - vm_compute. split; [discriminate|reflexivity].
  - intros [Hd _]. exfalso. destruct Hd as [Hd|Hd]; vm_compute in Hd; discriminate.
  - intros Hw. vm_compute in Hw. discriminate.
Qed.

(** The state before each event. *)
Definition after_events (n : nat) : Kernel * bool :=
  default (sample, false) ((fun x => x.1.1) <$> nrun 0x3000 (take n sample_trace) (sample, false)).

Lemma all_allowed_cons t e evs s s1 n r : allowed t e s -> nstep t e s = Some (s1, n, r) ->
  all_allowed t evs s1 -> all_allowed t (e :: evs) s.
Proof. intros Ha E Hr. split; [done|]. intros s' n' r' E'. rewrite E in E'. by injection E' as <- <- <-. Qed.

Lemma sample_allowed : all_allowed 0x3000 sample_trace (sample, false).
Proof.
  apply (all_allowed_cons _ _ _ _ (after_events 1) 0 []); [vm_compute; intuition discriminate|vm_compute; reflexivity|].
  apply (all_allowed_cons _ _ _ _ (after_events 2) 1 []); [vm_compute; intros _ H; by destruct H|vm_compute; reflexivity|].
  apply (all_allowed_cons _ _ _ _ (after_events 3) 0 [(true, 1)]); [vm_compute; by repeat split|vm_compute; reflexivity|].
  apply (all_allowed_cons _ _ _ _ (after_events 4) 1 []); [exact I|vm_compute; reflexivity|].
  apply (all_allowed_cons _ _ _ _ (after_events 5) 0 []); [vm_compute; intuition discriminate|vm_compute; reflexivity|].
  apply (all_allowed_cons _ _ _ _ (after_events 6) 0 [(false, 1)]); [vm_compute; by repeat split|vm_compute; reflexivity|].
  exact I.
Qed.

Lemma notifications_counted_witness : exists s', nrun 0x3000 sample_trace (sample, false) = Some (s', 2, [(true, 1); (false, 1)]) /\
  notify_inv 0x3000 s' /\ ulNotifiedValue (tcb s'.1 0x3000) = 0.
Proof.
  destruct (notifications_counted 0x3000 sample_trace (sample, false) sample_notify_inv sample_allowed) as (s' & n & rs & E & Hi & Hv & _).
  assert (n = 2 /\ rs = [(true, 1); (false, 1)]) as [-> ->].
  { apply (f_equal (fmap (fun x : Kernel * bool * Z * list (bool * Z) => (x.1.2, x.2)))) in E. vm_compute in E. injection E as <- <-. by split. }
  exists s'. split; [exact E|]. split; [exact Hi|]. rewrite Hv. vm_compute. reflexivity.
Defined.
