(* ===== verification/StreamBuffer.v ===== *)
(** * stream_buffer.c: stream and message buffers

    A circular array of bytes with one writer and one reader.  Neither locks
    the array: the writer copies and then moves [xHead], the reader copies and
    then moves [xTail], so the copies and the assignments are separate steps
    here.  [None] is an access outside of an array.  Calls that wait are step
    machines over the notifications of [Notify]. *)

From S2P Require Import Prelude ListSpec Heap4 Allocator Kernel KernelInv KernelTick KernelResume KernelSched KernelEvent Notify.
#[local] Open Scope Z_scope.

Definition sbBYTES_TO_STORE_MESSAGE_LENGTH : Z := 4.
(** [sizeof(StreamBuffer_t)]: seven words and a byte. *)
Definition sizeof_StreamBuffer_t : Z := 32.

(** [sb_bytes] is the array at [pucBuffer]; the flag is sbFLAGS_IS_MESSAGE_BUFFER. *)
Record StreamBuffer_t := mkSB {
  xTail : Z;
  xHead : Z;
  xLength : Z;
  xTriggerLevelBytes : Z;
  xTaskWaitingToReceive : Z;
  xTaskWaitingToSend : Z;
  sb_bytes : list Z;
  is_message_buffer : bool
}.
Definition set_xTail (v : Z) (b : StreamBuffer_t) : StreamBuffer_t := mkSB v (xHead b) (xLength b)
  (xTriggerLevelBytes b) (xTaskWaitingToReceive b) (xTaskWaitingToSend b) (sb_bytes b) (is_message_buffer b).
Definition set_xHead (v : Z) (b : StreamBuffer_t) : StreamBuffer_t := mkSB (xTail b) v (xLength b)
  (xTriggerLevelBytes b) (xTaskWaitingToReceive b) (xTaskWaitingToSend b) (sb_bytes b) (is_message_buffer b).
Definition set_xTriggerLevelBytes (v : Z) (b : StreamBuffer_t) : StreamBuffer_t := mkSB (xTail b) (xHead b) (xLength b)
  v (xTaskWaitingToReceive b) (xTaskWaitingToSend b) (sb_bytes b) (is_message_buffer b).
Definition set_xTaskWaitingToReceive (v : Z) (b : StreamBuffer_t) : StreamBuffer_t := mkSB (xTail b) (xHead b) (xLength b)
  (xTriggerLevelBytes b) v (xTaskWaitingToSend b) (sb_bytes b) (is_message_buffer b).
Definition set_xTaskWaitingToSend (v : Z) (b : StreamBuffer_t) : StreamBuffer_t := mkSB (xTail b) (xHead b) (xLength b)
  (xTriggerLevelBytes b) (xTaskWaitingToReceive b) v (sb_bytes b) (is_message_buffer b).
Definition set_sb_bytes (v : list Z) (b : StreamBuffer_t) : StreamBuffer_t := mkSB (xTail b) (xHead b) (xLength b)
  (xTriggerLevelBytes b) (xTaskWaitingToReceive b) (xTaskWaitingToSend b) v (is_message_buffer b).

(** ** Counting *)

Definition prvBytesInBuffer (b : StreamBuffer_t) : Z :=
  let xCount := u32 (u32 (xLength b + xHead b) - xTail b) in
  if xCount >=? xLength b then u32 (xCount - xLength b) else xCount.
Definition xStreamBufferSpacesAvailable (b : StreamBuffer_t) : Z :=
  let xSpace := u32 (u32 (u32 (xLength b + xTail b) - xHead b) - 1) in
  if xSpace >=? xLength b then u32 (xSpace - xLength b) else xSpace.
Definition xStreamBufferBytesAvailable (b : StreamBuffer_t) : Z := prvBytesInBuffer b.
Definition xStreamBufferIsEmpty (b : StreamBuffer_t) : bool := xHead b =? xTail b.
Definition length_bytes (b : StreamBuffer_t) : Z := if is_message_buffer b then sbBYTES_TO_STORE_MESSAGE_LENGTH else 0.
Definition xStreamBufferIsFull (b : StreamBuffer_t) : bool := xStreamBufferSpacesAvailable b <=? length_bytes b.

(** ** The copies *)

(** The two [memcpy] of prvWriteBytesToBuffer. *)
Definition copy_in (data : list Z) (b : StreamBuffer_t) : option StreamBuffer_t :=
  let xCount := Z.of_nat (length data) in
  let xFirstLength := Z.min (u32 (xLength b - xHead b)) xCount in
  bytes ← memcpy_bytes (sb_bytes b) (xHead b) data 0 xFirstLength;
  bytes ← (if xCount >? xFirstLength then memcpy_bytes bytes 0 data xFirstLength (xCount - xFirstLength) else Some bytes);
  Some (set_sb_bytes bytes b).
(** The assignment of [xHead] that follows. *)
Definition publish_head (xCount : Z) (b : StreamBuffer_t) : StreamBuffer_t :=
  let xNextHead := u32 (xHead b + xCount) in
  set_xHead (if xNextHead >=? xLength b then u32 (xNextHead - xLength b) else xNextHead) b.
Definition prvWriteBytesToBuffer (data : list Z) (b : StreamBuffer_t) : option (StreamBuffer_t * Z) :=
  b ← copy_in data b; Some (publish_head (Z.of_nat (length data)) b, Z.of_nat (length data)).

(** The two [memcpy] of prvReadBytesFromBuffer: the bytes for the reader. *)
Definition copy_out (xCount : Z) (b : StreamBuffer_t) : option (list Z) :=
  let xFirstLength := Z.min (u32 (xLength b - xTail b)) xCount in
  if xTail b + xFirstLength <=? Z.of_nat (length (sb_bytes b)) then
    if xCount - xFirstLength <=? Z.of_nat (length (sb_bytes b)) then
      Some (slice (Z.to_nat (xTail b)) (Z.to_nat xFirstLength) (sb_bytes b) ++
            slice 0 (Z.to_nat (xCount - xFirstLength)) (sb_bytes b))
    else None
  else None.
Definition publish_tail (xCount : Z) (b : StreamBuffer_t) : StreamBuffer_t :=
  let xNextTail := u32 (xTail b + xCount) in
  set_xTail (if xNextTail >=? xLength b then u32 (xNextTail - xLength b) else xNextTail) b.
Definition prvReadBytesFromBuffer (xMaxCount xBytesAvailable : Z) (b : StreamBuffer_t) : option (StreamBuffer_t * list Z) :=
  let xCount := Z.min xBytesAvailable xMaxCount in
  if xCount >? 0 then bs ← copy_out xCount b; Some (publish_tail xCount b, bs) else Some (b, []).

(** ** Messages *)

Definition prvWriteMessageToBuffer (data : list Z) (xSpace xRequiredSpace : Z) (b : StreamBuffer_t)
    : option (StreamBuffer_t * Z) :=
  if xSpace =? 0 then Some (b, 0)
  else if negb (is_message_buffer b) then prvWriteBytesToBuffer (take (Z.to_nat (Z.min (Z.of_nat (length data)) xSpace)) data) b
  else if xSpace >=? xRequiredSpace then
    '(b, _) ← prvWriteBytesToBuffer (le32 (Z.of_nat (length data))) b; prvWriteBytesToBuffer data b
  else Some (b, 0).

(** The caller's array has [xBufferLengthBytes] bytes. *)
Definition prvReadMessageFromBuffer (xBufferLengthBytes xBytesAvailable xBytesToStoreMessageLength : Z) (b : StreamBuffer_t)
    : option (StreamBuffer_t * list Z) :=
  '(b, xNextMessageLength, xBytesAvailable) ←
    (if negb (xBytesToStoreMessageLength =? 0) then
       let xOriginalTail := xTail b in
       '(b, bs) ← prvReadBytesFromBuffer xBytesToStoreMessageLength xBytesAvailable b;
       let xNextMessageLength := le32_of bs in
       let xBytesAvailable := u32 (xBytesAvailable - xBytesToStoreMessageLength) in
       Some (if xNextMessageLength >? xBufferLengthBytes then (set_xTail xOriginalTail b, 0, xBytesAvailable)
             else (b, xNextMessageLength, xBytesAvailable))
     else Some (b, xBufferLengthBytes, xBytesAvailable));
  prvReadBytesFromBuffer xNextMessageLength xBytesAvailable b.

Definition xStreamBufferNextMessageLengthBytes (b : StreamBuffer_t) : option (StreamBuffer_t * Z) :=
  if is_message_buffer b then
    let xBytesAvailable := prvBytesInBuffer b in
    if xBytesAvailable >? sbBYTES_TO_STORE_MESSAGE_LENGTH then
      let xOriginalTail := xTail b in
      '(b, bs) ← prvReadBytesFromBuffer sbBYTES_TO_STORE_MESSAGE_LENGTH xBytesAvailable b;
      Some (set_xTail xOriginalTail b, le32_of bs)
    else Some (b, 0)
  else Some (b, 0).

(** ** Waking the other side

    The buffer and the kernel. *)

Definition SBState : Type := StreamBuffer_t * Kernel.

Definition sbRECEIVE_COMPLETED (s : SBState) : option SBState :=
  let '(b, k) := s in
  let k := vTaskSuspendAll k in
  '(b, k) ← (if negb (xTaskWaitingToSend b =? 0) then
               '(k, _, _) ← xTaskGenericNotify (xTaskWaitingToSend b) 0 eNoAction k; Some (set_xTaskWaitingToSend 0 b, k)
             else Some (b, k));
  '(k, _) ← xTaskResumeAll k; Some (b, k).
Definition sbSEND_COMPLETED (s : SBState) : option SBState :=
  let '(b, k) := s in
  let k := vTaskSuspendAll k in
  '(b, k) ← (if negb (xTaskWaitingToReceive b =? 0) then
               '(k, _, _) ← xTaskGenericNotify (xTaskWaitingToReceive b) 0 eNoAction k; Some (set_xTaskWaitingToReceive 0 b, k)
             else Some (b, k));
  '(k, _) ← xTaskResumeAll k; Some (b, k).

(** From interrupts: whether a task waited, and whether a higher one was woken. *)
Definition xStreamBufferSendCompletedFromISR (s : SBState) : option (SBState * bool * bool) :=
  let '(b, k) := s in
  if negb (xTaskWaitingToReceive b =? 0) then
    '(k, _, _, w) ← xTaskGenericNotifyFromISR (xTaskWaitingToReceive b) 0 eNoAction k;
    Some (set_xTaskWaitingToReceive 0 b, k, true, w)
  else Some (b, k, false, false).
Definition xStreamBufferReceiveCompletedFromISR (s : SBState) : option (SBState * bool * bool) :=
  let '(b, k) := s in
  if negb (xTaskWaitingToSend b =? 0) then
    '(k, _, _, w) ← xTaskGenericNotifyFromISR (xTaskWaitingToSend b) 0 eNoAction k;
    Some (set_xTaskWaitingToSend 0 b, k, true, w)
  else Some (b, k, false, false).

(** ** Sending and receiving from interrupts *)

Definition required_space (data : list Z) (b : StreamBuffer_t) : Z :=
  if is_message_buffer b then u32 (Z.of_nat (length data) + sbBYTES_TO_STORE_MESSAGE_LENGTH) else Z.of_nat (length data).

Definition xStreamBufferSendFromISR (data : list Z) (s : SBState) : option (SBState * Z * bool) :=
  let '(b, k) := s in
  '(b, n) ← prvWriteMessageToBuffer data (xStreamBufferSpacesAvailable b) (required_space data b) b;
  if n >? 0 then
    if prvBytesInBuffer b >=? xTriggerLevelBytes b
    then '(s, _, w) ← xStreamBufferSendCompletedFromISR (b, k); Some (s, n, w)
    else Some (b, k, n, false)
  else Some (b, k, n, false).

Definition xStreamBufferReceiveFromISR (xBufferLengthBytes : Z) (s : SBState) : option (SBState * list Z * bool) :=
  let '(b, k) := s in
  let xBytesAvailable := prvBytesInBuffer b in
  if xBytesAvailable >? length_bytes b then
    '(b, bs) ← prvReadMessageFromBuffer xBufferLengthBytes xBytesAvailable (length_bytes b) b;
    if negb (Z.of_nat (length bs) =? 0)
    then '(s, _, w) ← xStreamBufferReceiveCompletedFromISR (b, k); Some (s, bs, w)
    else Some (b, k, bs, false)
  else Some (b, k, [], false).

(** ** Sending and receiving from tasks *)

Inductive SendPc := SStart | SCheck | SWaitBegin | SWaitEnd | SClear | STimeOut | SWrite.
(** [s_space] is the local variable [xSpace]. *)
Record SendCall := mkSend { s_data : list Z; s_pc : SendPc; s_space : Z; s_ticks : Z; s_timeout : TimeOut_t }.
Definition xStreamBufferSend (data : list Z) (xTicksToWait : Z) : SendCall := mkSend data SStart 0 xTicksToWait (mkTimeOut 0 0).
Definition send_at (p : SendPc) (c : SendCall) : SendCall := mkSend (s_data c) p (s_space c) (s_ticks c) (s_timeout c).
Definition with_space (n : Z) (c : SendCall) : SendCall := mkSend (s_data c) (s_pc c) n (s_ticks c) (s_timeout c).

(** One step of the sending task: the number of bytes sent, or still running. *)
Definition send_step (c : SendCall) (s : SBState) : option (SBState * (Z + SendCall)) :=
  let '(b, k) := s in
  match s_pc c with
  | SStart =>
    Some (s, inr (if negb (s_ticks c =? 0) then mkSend (s_data c) SCheck (s_space c) (s_ticks c) (vTaskSetTimeOutState k)
                  else send_at SWrite c))
  | SCheck =>
    let xSpace := xStreamBufferSpacesAvailable b in
    let c := with_space xSpace c in
    if xSpace <? required_space (s_data c) b then
      let '(k, _) := xTaskNotifyStateClear 0 k in
      Some ((set_xTaskWaitingToSend (xTaskGetCurrentTaskHandle k) b, k), inr (send_at SWaitBegin c))
    else Some (s, inr (send_at SWrite c))
  | SWaitBegin => k ← notify_wait_begin 0 (s_ticks c) k; Some ((b, k), inr (send_at SWaitEnd c))
  | SWaitEnd => let '(k, _, _) := notify_wait_end 0 k in Some ((b, k), inr (send_at SClear c))
  | SClear => Some ((set_xTaskWaitingToSend 0 b, k), inr (send_at STimeOut c))
  | STimeOut =>
    let '(out, o, ticks) := xTaskCheckForTimeOut (s_timeout c) (s_ticks c) k in
    Some (s, inr (mkSend (s_data c) (if (out : bool) then SWrite else SCheck) (s_space c) ticks o))
  | SWrite =>
    let xSpace := if s_space c =? 0 then xStreamBufferSpacesAvailable b else s_space c in
    '(b, n) ← prvWriteMessageToBuffer (s_data c) xSpace (required_space (s_data c) b) b;
    if n >? 0 then
      if prvBytesInBuffer b >=? xTriggerLevelBytes b then s ← sbSEND_COMPLETED (b, k); Some (s, inl n)
      else Some ((b, k), inl n)
    else Some ((b, k), inl n)
  end.

Inductive RecvPc := RStart | RWaitBegin | RWaitEnd | RClear | RRead.
(** [r_avail] is the local variable [xBytesAvailable]. *)
Record RecvCall := mkRecv { r_length : Z; r_pc : RecvPc; r_avail : Z; r_ticks : Z }.
Definition xStreamBufferReceive (xBufferLengthBytes xTicksToWait : Z) : RecvCall := mkRecv xBufferLengthBytes RStart 0 xTicksToWait.
Definition recv_at (p : RecvPc) (n : Z) (c : RecvCall) : RecvCall := mkRecv (r_length c) p n (r_ticks c).

Definition receive_step (c : RecvCall) (s : SBState) : option (SBState * (list Z + RecvCall)) :=
  let '(b, k) := s in
  match r_pc c with
  | RStart =>
    let xBytesAvailable := prvBytesInBuffer b in
    if negb (r_ticks c =? 0) then
      if xBytesAvailable <=? length_bytes b then
        let '(k, _) := xTaskNotifyStateClear 0 k in
        Some ((set_xTaskWaitingToReceive (xTaskGetCurrentTaskHandle k) b, k), inr (recv_at RWaitBegin xBytesAvailable c))
      else Some (s, inr (recv_at RRead xBytesAvailable c))
    else Some (s, inr (recv_at RRead xBytesAvailable c))
  | RWaitBegin => k ← notify_wait_begin 0 (r_ticks c) k; Some ((b, k), inr (recv_at RWaitEnd (r_avail c) c))
  | RWaitEnd => let '(k, _, _) := notify_wait_end 0 k in Some ((b, k), inr (recv_at RClear (r_avail c) c))
  | RClear =>
    let b := set_xTaskWaitingToReceive 0 b in Some ((b, k), inr (recv_at RRead (prvBytesInBuffer b) c))
  | RRead =>
    if r_avail c >? length_bytes b then
      '(b, bs) ← prvReadMessageFromBuffer (r_length c) (r_avail c) (length_bytes b) b;
      if negb (Z.of_nat (length bs) =? 0) then s ← sbRECEIVE_COMPLETED (b, k); Some (s, inl bs)
      else Some ((b, k), inl bs)
    else Some (s, inl [])
  end.

(** ** Creation, reset, trigger level *)

Definition prvInitialiseNewStreamBuffer (bytes : list Z) (xBufferSizeBytes xTrigger : Z) (message : bool) : StreamBuffer_t :=
  mkSB 0 0 xBufferSizeBytes xTrigger 0 0 bytes message.

Definition xStreamBufferReset (b : StreamBuffer_t) : StreamBuffer_t * bool :=
  if xTaskWaitingToReceive b =? 0 then
    if xTaskWaitingToSend b =? 0 then
      (prvInitialiseNewStreamBuffer (sb_bytes b) (xLength b) (xTriggerLevelBytes b) (is_message_buffer b), true)
    else (b, false)
  else (b, false).

Definition xStreamBufferSetTriggerLevel (xTriggerLevel : Z) (b : StreamBuffer_t) : StreamBuffer_t * bool :=
  let xTriggerLevel := if xTriggerLevel =? 0 then 1 else xTriggerLevel in
  if xTriggerLevel <=? xLength b then (set_xTriggerLevelBytes xTriggerLevel b, true) else (b, false).

Section create.
Context {H : Type} `{!Allocator H}.

(** [mem] is what the allocated bytes held before.  NULL is [None]. *)
Definition xStreamBufferGenericCreate (mem : list Z) (xBufferSizeBytes xTrigger : Z) (xIsMessageBuffer : bool) (h : H)
    : option (H * option (Z * StreamBuffer_t)) :=
  let xTrigger := if xTrigger =? 0 then 1 else xTrigger in
  let xBufferSizeBytes := u32 (xBufferSizeBytes + 1) in
  '(h, p) ← malloc (u32 (xBufferSizeBytes + sizeof_StreamBuffer_t)) h;
  Some (h, if negb (p =? 0)
           then Some (p, prvInitialiseNewStreamBuffer (take (Z.to_nat xBufferSizeBytes) mem) xBufferSizeBytes xTrigger xIsMessageBuffer)
           else None).
Definition vStreamBufferDelete (p : Z) (h : H) : option H := free p h.
End create.
