(* ===== verification/StreamSpec.v ===== *)
(** * Stream buffers carry a stream of bytes, message buffers a queue of messages

    The circular array between [xTail] and [xHead] holds a list of bytes.
    First the two sides step by step and interleaved, then the calls as they
    are made by one side at a time. *)

From S2P Require Import Prelude ListSpec Kernel KernelInv KernelResume Notify StreamBuffer.
#[local] Open Scope Z_scope.

(** ** The circular array *)

(** [i] positions after [t], around the end. *)
Definition at_pos (l t i : Z) : Z := if t + i <? l then t + i else t + i - l.
(** How far [p] is after [t]. *)
Definition dist (l t p : Z) : Z := if t <=? p then p - t else p - t + l.

Ltac pos_lia := unfold at_pos, dist in *;
  repeat match goal with
  | H : context [?a <? ?b] |- _ => destruct (Z.ltb_spec a b)
  | |- context [?a <? ?b] => destruct (Z.ltb_spec a b)
  | H : context [?a <=? ?b] |- _ => destruct (Z.leb_spec a b)
  | |- context [?a <=? ?b] => destruct (Z.leb_spec a b)
  end; lia.

Record sb_shape (b : StreamBuffer_t) : Prop := mkShape {
  sh_length : 1 < xLength b < 1073741824 /\ Z.of_nat (length (sb_bytes b)) = xLength b;
  sh_tail : 0 <= xTail b < xLength b;
  sh_head : 0 <= xHead b < xLength b
}.

(** The unread bytes are [xs]. *)
Record sb_rep (b : StreamBuffer_t) (xs : list Z) : Prop := mkRep {
  sr_shape : sb_shape b;
  sr_fits : Z.of_nat (length xs) < xLength b;
  sr_head : xHead b = at_pos (xLength b) (xTail b) (Z.of_nat (length xs));
  sr_bytes : forall i x, xs !! i = Some x -> sb_bytes b !! Z.to_nat (at_pos (xLength b) (xTail b) (Z.of_nat i)) = Some x
}.

Lemma bytes_in_buffer b xs : sb_rep b xs -> prvBytesInBuffer b = Z.of_nat (length xs).
Proof.
  intros [[[Hl _] Ht Hh] Hf Eh _]. unfold prvBytesInBuffer.
  rewrite (u32_small (xLength b + xHead b)), (u32_small (_ - xTail b)) by lia. rewrite Z.geb_leb.
  destruct (Z.leb_spec (xLength b) (xLength b + xHead b - xTail b)); [rewrite u32_small by lia|]; pos_lia.
Qed.

Lemma spaces_available b xs : sb_rep b xs -> xStreamBufferSpacesAvailable b = xLength b - 1 - Z.of_nat (length xs).
Proof.
  intros [[[Hl _] Ht Hh] Hf Eh _]. unfold xStreamBufferSpacesAvailable.
  rewrite (u32_small (xLength b + xTail b)), (u32_small (_ - xHead b)), (u32_small (_ - 1)) by lia. rewrite Z.geb_leb.
  destruct (Z.leb_spec (xLength b) (xLength b + xTail b - xHead b - 1)); [rewrite u32_small by lia|]; pos_lia.
Qed.

(** A fresh buffer. *)
Lemma init_rep bytes l t m : 1 < l < 1073741824 -> Z.of_nat (length bytes) = l -> sb_rep (prvInitialiseNewStreamBuffer bytes l t m) [].
Proof.
  intros Hl Hb. split; [by split; simpl; [|lia|lia]|simpl; lia| |done]. change (0 = at_pos l 0 0). pos_lia.
Qed.

(** *** Copying in *)

Lemma copy_in_ok b data : sb_shape b -> Z.of_nat (length data) < xLength b -> exists bytes,
  copy_in data b = Some (set_sb_bytes bytes b) /\ Z.of_nat (length bytes) = xLength b /\
  forall p, 0 <= p < xLength b -> bytes !! Z.to_nat p =
    if dist (xLength b) (xHead b) p <? Z.of_nat (length data) then data !! Z.to_nat (dist (xLength b) (xHead b) p)
    else sb_bytes b !! Z.to_nat p.
Proof.
  intros [[Hl Hb] Ht Hh] Hd. unfold copy_in. rewrite u32_small by lia.
  set (n := Z.of_nat (length data)) in *. set (m := Z.min (xLength b - xHead b) n).
  assert (0 <= m <= n /\ xHead b + m <= xLength b) as [Hm Hmh] by lia.
  rewrite memcpy_bytes_eq by lia. cbn [mbind option_bind]. set (part1 := slice (Z.to_nat 0) (Z.to_nat m) data).
  assert (length part1 = Z.to_nat m) as H1 by (apply length_slice; lia).
  assert (length (splice (Z.to_nat (xHead b)) part1 (sb_bytes b)) = length (sb_bytes b)) as Hs1 by (apply length_splice; lia).
  rewrite Z.gtb_ltb. destruct (Z.ltb_spec m n) as [Hlt|Hge].
  - rewrite memcpy_bytes_eq by lia. cbn [mbind option_bind]. set (part2 := slice (Z.to_nat m) (Z.to_nat (n - m)) data).
    assert (length part2 = Z.to_nat (n - m)) as H2 by (apply length_slice; lia).
    eexists. split; [reflexivity|]. split; [rewrite length_splice; lia|]. intros p Hp.
    rewrite lookup_splice, lookup_splice by lia. rewrite H1, H2. unfold part1, part2. rewrite !lookup_slice.
    assert (m = xLength b - xHead b) as Em by lia. clearbody m. subst m.
    repeat case_decide; unfold dist; destruct (Z.leb_spec (xHead b) p); repeat match goal with |- context [?a <? ?c] => destruct (Z.ltb_spec a c) end;
      try lia; try done; f_equal; lia.
  - eexists. split; [reflexivity|]. split; [lia|]. intros p Hp. rewrite lookup_splice by lia. rewrite H1.
    unfold part1. rewrite !lookup_slice. assert (m = n) as Em by lia. clearbody m. subst m.
    repeat case_decide; unfold dist; destruct (Z.leb_spec (xHead b) p); repeat match goal with |- context [?a <? ?c] => destruct (Z.ltb_spec a c) end;
      try lia; try done; f_equal; lia.
Qed.

(** *** Copying out *)

Lemma copy_out_ok b n : sb_shape b -> 0 <= n < xLength b -> exists bs,
  copy_out n b = Some bs /\ Z.of_nat (length bs) = n /\
  forall i, (i < length bs)%nat -> bs !! i = sb_bytes b !! Z.to_nat (at_pos (xLength b) (xTail b) (Z.of_nat i)).
Proof.
  intros [[Hl Hb] Ht Hh] Hn. unfold copy_out. rewrite u32_small by lia. set (m := Z.min (xLength b - xTail b) n).
  assert (0 <= m <= n /\ xTail b + m <= xLength b) as [Hm Hmt] by lia. rewrite !(proj2 (Z.leb_le _ _)) by lia.
  assert (length (slice (Z.to_nat (xTail b)) (Z.to_nat m) (sb_bytes b)) = Z.to_nat m) as H1 by (apply length_slice; lia).
  assert (length (slice 0 (Z.to_nat (n - m)) (sb_bytes b)) = Z.to_nat (n - m)) as H2 by (apply length_slice; lia).
  eexists. split; [reflexivity|]. split; [rewrite length_app; lia|]. intros i Hi. rewrite length_app in Hi.
  destruct (decide (i < Z.to_nat m)%nat).
  - rewrite lookup_app_l by lia. rewrite lookup_slice, decide_True by done. f_equal. pos_lia.
  - rewrite lookup_app_r by lia. rewrite H1, lookup_slice, decide_True by lia. f_equal. pos_lia.
Qed.

(** The bytes read are the first ones. *)
Lemma copy_out_rep b xs n : sb_rep b xs -> 0 <= n <= Z.of_nat (length xs) -> copy_out n b = Some (take (Z.to_nat n) xs).
Proof.
  intros [Hsh Hf Eh Hb] Hn. destruct (copy_out_ok b n Hsh) as (bs & -> & Hl & Hi); [lia|]. f_equal.
  apply list_eq. intros i. destruct (decide (i < length bs)%nat) as [Hlt|Hge].
  - rewrite Hi by done. rewrite lookup_take_lt by lia. destruct (lookup_lt_is_Some_2 xs i) as [x Ex]; [lia|].
    rewrite Ex. by apply Hb.
  - rewrite lookup_ge_None_2 by lia. symmetry. apply lookup_ge_None_2. rewrite length_take. lia.
Qed.

(** *** The assignments *)

Lemma publish_head_eq n b : sb_shape b -> 0 <= n < xLength b -> publish_head n b = set_xHead (at_pos (xLength b) (xHead b) n) b.
Proof.
  intros [[Hl _] Ht Hh] Hn. unfold publish_head. rewrite u32_small by lia. rewrite Z.geb_leb. f_equal. unfold at_pos.
  destruct (Z.leb_spec (xLength b) (xHead b + n)), (Z.ltb_spec (xHead b + n) (xLength b)); rewrite ?u32_small by lia; lia.
Qed.
Lemma publish_tail_eq n b : sb_shape b -> 0 <= n < xLength b -> publish_tail n b = set_xTail (at_pos (xLength b) (xTail b) n) b.
Proof.
  intros [[Hl _] Ht Hh] Hn. unfold publish_tail. rewrite u32_small by lia. rewrite Z.geb_leb. f_equal. unfold at_pos.
  destruct (Z.leb_spec (xLength b) (xTail b + n)), (Z.ltb_spec (xTail b + n) (xLength b)); rewrite ?u32_small by lia; lia.
Qed.

(** The reader gives room to the writer. *)
Lemma publish_tail_rep b xs n : sb_rep b xs -> 0 <= n <= Z.of_nat (length xs) -> sb_rep (publish_tail n b) (drop (Z.to_nat n) xs).
Proof.
  intros [Hsh Hf Eh Hb] Hn. rewrite publish_tail_eq by (done || lia). pose proof Hsh as [[Hl Hbl] Ht Hh].
  split; [split; simpl; try done; pos_lia|simpl; rewrite length_drop; lia|simpl; rewrite length_drop; pos_lia|].
  intros i x. rewrite lookup_drop. intros Hx. pose proof (lookup_lt_Some _ _ _ Hx). rewrite <- (Hb _ _ Hx). simpl.
  do 2 f_equal. pos_lia.
Qed.

(** Bytes copied in behind the unread ones, not yet published. *)
Definition staged (b : StreamBuffer_t) (xs data : list Z) : Prop :=
  Z.of_nat (length xs) + Z.of_nat (length data) < xLength b /\
  forall i x, data !! i = Some x -> sb_bytes b !! Z.to_nat (at_pos (xLength b) (xHead b) (Z.of_nat i)) = Some x.

Lemma copy_in_rep b xs data : sb_rep b xs -> Z.of_nat (length xs) + Z.of_nat (length data) < xLength b -> exists b',
  copy_in data b = Some b' /\ sb_rep b' xs /\ staged b' xs data /\ xLength b' = xLength b /\ b' = set_sb_bytes (sb_bytes b') b.
Proof.
  intros [Hsh Hf Eh Hb] Hd. destruct (copy_in_ok b data Hsh) as (bytes & E & Hl & Hi); [lia|]. exists (set_sb_bytes bytes b).
  pose proof Hsh as [[HL Hbl] Ht Hh]. split; [done|]. split; [|split; [split; [done|]|done]].
  - split; [by split|done|done|]. simpl. intros i x Hx. pose proof (lookup_lt_Some _ _ _ Hx).
    rewrite Hi by pos_lia. destruct (Z.ltb_spec (dist (xLength b) (xHead b) (at_pos (xLength b) (xTail b) (Z.of_nat i))) (Z.of_nat (length data)));
      [exfalso; pos_lia|by apply Hb].
  - simpl. intros i x Hx. pose proof (lookup_lt_Some _ _ _ Hx). rewrite Hi by pos_lia.
    assert (dist (xLength b) (xHead b) (at_pos (xLength b) (xHead b) (Z.of_nat i)) = Z.of_nat i) as -> by pos_lia.
    destruct (Z.ltb_spec (Z.of_nat i) (Z.of_nat (length data))); [|lia]. by rewrite Nat2Z.id.
Qed.

Lemma publish_head_rep b xs data : sb_rep b xs -> staged b xs data ->
  sb_rep (publish_head (Z.of_nat (length data)) b) (xs ++ data).
Proof.
  intros [Hsh Hf Eh Hb] [Hd Hs]. rewrite publish_head_eq by (done || lia). pose proof Hsh as [[HL Hbl] Ht Hh].
  split; [split; simpl; try done; pos_lia|simpl; rewrite length_app; lia|simpl; rewrite length_app; pos_lia|].
  simpl. intros i x [Hx|[Hge Hx]]%lookup_app_Some; [by apply Hb|]. pose proof (lookup_lt_Some _ _ _ Hx).
  rewrite <- (Hs _ _ Hx). do 2 f_equal. pos_lia.
Qed.

(** ** Writer and reader step by step *)

(** What the two sides keep in their local variables: the space the writer may
    still use and the bytes it has copied but not published; the bytes the
    reader may still read and how many it has copied but not released. *)
Record Sides := mkSides { sd_b : StreamBuffer_t; sd_space : Z; sd_staged : list Z; sd_avail : Z; sd_taken : list Z }.

Inductive io := WSpace | WCopy (data : list Z) | WPublish | RAvail | RCopy (xMaxCount : Z) | RPublish.

(** In the order of the source: the writer looks at the space, copies within
    it, publishes; the reader looks at the number of bytes, copies, releases. *)
Definition may_io (a : io) (s : Sides) : Prop :=
  match a with
  | WSpace => sd_staged s = []
  | WCopy data => sd_staged s = [] /\ 0 < Z.of_nat (length data) <= sd_space s
  | WPublish => sd_staged s <> []
  | RAvail => sd_taken s = []
  | RCopy m => sd_taken s = [] /\ 0 < m /\ 0 < sd_avail s
  | RPublish => sd_taken s <> []
  end.

(** The state, the bytes published and the bytes the reader got. *)
Definition io_step (a : io) (s : Sides) : option (Sides * list Z * list Z) :=
  let '(mkSides b space st avail tk) := s in
  match a with
  | WSpace => Some (mkSides b (xStreamBufferSpacesAvailable b) st avail tk, [], [])
  | WCopy data => b ← copy_in data b; Some (mkSides b space data avail tk, [], [])
  | WPublish =>
    let n := Z.of_nat (length st) in
    Some (mkSides (publish_head n b) (space - n) [] avail tk, st, [])
  | RAvail => Some (mkSides b space st (prvBytesInBuffer b) tk, [], [])
  | RCopy m => bs ← copy_out (Z.min avail m) b; Some (mkSides b space st avail bs, [], bs)
  | RPublish =>
    let n := Z.of_nat (length tk) in
    Some (mkSides (publish_tail n b) space st (avail - n) [], [], [])
  end.
Fixpoint run_io (acts : list io) (s : Sides) : option (Sides * list Z * list Z) :=
  match acts with
  | [] => Some (s, [], [])
  | a :: acts => '(s, p, g) ← io_step a s; '(s, p', g') ← run_io acts s; Some (s, p ++ p', g ++ g')
  end.
Fixpoint may_run (acts : list io) (s : Sides) : Prop :=
  match acts with
  | [] => True
  | a :: acts => may_io a s /\ forall s' p g, io_step a s = Some (s', p, g) -> may_run acts s'
  end.

(** The unread bytes are [xs], of which the reader has copied the first. *)
Record sides_rep (s : Sides) (xs : list Z) : Prop := mkSidesRep {
  sd_rep : sb_rep (sd_b s) xs;
  sd_room : 0 <= sd_space s /\ Z.of_nat (length xs) + sd_space s < xLength (sd_b s);
  sd_stage : staged (sd_b s) xs (sd_staged s) /\ Z.of_nat (length (sd_staged s)) <= sd_space s;
  sd_read : 0 <= sd_avail s <= Z.of_nat (length xs);
  sd_prefix : sd_taken s = take (length (sd_taken s)) xs /\ Z.of_nat (length (sd_taken s)) <= sd_avail s
}.

Lemma staged_nil b xs : sb_rep b xs -> staged b xs [].
Proof. intros [_ Hf _ _]. split; [simpl; lia|done]. Qed.

Lemma io_step_ok a s xs : sides_rep s xs -> may_io a s ->
  exists s' p g xs', io_step a s = Some (s', p, g) /\ sides_rep s' xs' /\
    drop (length (sd_taken s)) xs ++ p = g ++ drop (length (sd_taken s')) xs'.
Proof.
  destruct s as [b space st avail tk]. intros [Hrep [Hs0 Hroom] [Hst Hsl] Hrd [Htk Htl]] Hm. simpl in *.
  destruct a as [|data| | |m|]; simpl in Hm |- *.
  - subst st. do 4 eexists. split; [reflexivity|]. rewrite app_nil_r. split; [|done].
    rewrite (spaces_available b xs Hrep). split; simpl; try done; [|split; [by apply staged_nil|]]; destruct Hrep; simpl; lia.
  - destruct Hm as [-> Hd]. destruct (copy_in_rep b xs data Hrep) as (b' & -> & Hrep' & Hst' & Hl' & Eb); [lia|].
    do 4 eexists. split; [reflexivity|]. rewrite app_nil_r. split; [|done]. split; simpl; try done; [by rewrite Hl'|]. by split; [|lia].
  - do 4 eexists. split; [reflexivity|]. pose proof (publish_head_rep b xs st Hrep Hst) as Hrep'.
    assert (xLength (publish_head (Z.of_nat (length st)) b) = xLength b) as El by done.
    split; [split; simpl|]; [done| | | | |].
    + rewrite length_app. lia.
    + split; [by apply staged_nil|simpl; lia].
    + rewrite length_app. lia.
    + rewrite take_app_le by lia. done.
    + simpl. rewrite drop_app_le by lia. done.
  - subst tk. do 4 eexists. split; [reflexivity|]. rewrite app_nil_r. split; [|done].
    rewrite (bytes_in_buffer b xs Hrep). split; simpl; try done; [lia|]. split; [done|lia].
  - destruct Hm as (-> & Hm0 & Ha0). rewrite (copy_out_rep b xs) by (done || lia). cbn [mbind option_bind].
    do 4 eexists. split; [reflexivity|]. simpl. rewrite app_nil_r, drop_0.
    assert (length (take (Z.to_nat (avail `min` m)) xs) = Z.to_nat (avail `min` m)) as El by (rewrite length_take; lia).
    split; [split; simpl; try done|].
    + rewrite El. split; [done|lia].
    + rewrite El. by rewrite take_drop.
  - do 3 eexists. exists (drop (length tk) xs). split; [reflexivity|]. rewrite app_nil_r. simpl. rewrite drop_0.
    set (n := length tk) in *. pose proof (publish_tail_rep b xs (Z.of_nat n) Hrep ltac:(lia)) as Hrep'. rewrite Nat2Z.id in Hrep'.
    split; [|done]. split; simpl; [done| | | |].
    + unfold publish_tail, set_xTail. simpl. rewrite length_drop. lia.
    + split; [|done]. destruct Hst as [Hl Hi]. split; [|done]. unfold publish_tail, set_xTail. simpl. rewrite length_drop. lia.
    + rewrite length_drop. lia.
    + split; [done|lia].
Qed.

(** C26: the buffer is a first-in first-out stream without any lock.  However
    the steps of one writer (look at the space, copy in, move the head) and one
    reader (look at the bytes, copy out, move the tail) are interleaved, with
    their views of the other side as old as they may be, no step leaves the
    array, and the bytes the reader gets are exactly the bytes published, in
    order: what was unread at the start followed by what was published since is
    what the reader got followed by what is still unread. *)
Theorem stream_interleavings_fifo acts s xs : sides_rep s xs -> may_run acts s ->
  exists s' published got xs', run_io acts s = Some (s', published, got) /\ sides_rep s' xs' /\
    drop (length (sd_taken s)) xs ++ published = got ++ drop (length (sd_taken s')) xs'.
Proof.
  revert s xs. induction acts as [|a acts IH]; intros s xs Hr Hm.
  { do 4 eexists. split; [reflexivity|]. split; [done|]. by rewrite app_nil_r. }
  destruct Hm as [Ha Hm]. destruct (io_step_ok a s xs Hr Ha) as (s1 & p1 & g1 & xs1 & E1 & Hr1 & H1).
  destruct (IH s1 xs1 Hr1 (Hm _ _ _ E1)) as (s2 & p2 & g2 & xs2 & E2 & Hr2 & H2).
  exists s2, (p1 ++ p2), (g1 ++ g2), xs2. cbn [run_io]. rewrite E1. cbn [mbind option_bind]. rewrite E2. split; [done|]. split; [done|].
  rewrite (assoc_L (++)), H1, <- (assoc_L (++)), H2. by rewrite (assoc_L (++)).
Qed.

(** ** Whole calls *)

(** What the copies leave alone. *)
Definition same_config (b b' : StreamBuffer_t) : Prop :=
  xLength b' = xLength b /\ xTriggerLevelBytes b' = xTriggerLevelBytes b /\ is_message_buffer b' = is_message_buffer b /\
  xTaskWaitingToReceive b' = xTaskWaitingToReceive b /\ xTaskWaitingToSend b' = xTaskWaitingToSend b.

Lemma write_bytes_ok b xs data : sb_rep b xs -> Z.of_nat (length xs) + Z.of_nat (length data) < xLength b ->
  exists b', prvWriteBytesToBuffer data b = Some (b', Z.of_nat (length data)) /\ sb_rep b' (xs ++ data) /\ same_config b b'.
Proof.
  intros Hr Hd. destruct (copy_in_rep b xs data Hr Hd) as (b1 & E & Hr1 & Hs & _ & Eb). unfold prvWriteBytesToBuffer. rewrite E.
  cbn [mbind option_bind]. eexists. split; [reflexivity|]. split; [by apply publish_head_rep|]. by rewrite Eb.
Qed.

Lemma read_bytes_ok b xs m avail : sb_rep b xs -> 0 <= m -> 0 <= avail <= Z.of_nat (length xs) ->
  let n := Z.to_nat (Z.min avail m) in
  exists b', prvReadBytesFromBuffer m avail b = Some (b', take n xs) /\ sb_rep b' (drop n xs) /\ same_config b b' /\
    set_xTail (xTail b) b' = b.
Proof.
  intros Hr Hm Ha n. unfold prvReadBytesFromBuffer. rewrite Z.gtb_ltb. destruct (Z.ltb_spec 0 (avail `min` m)).
  - rewrite (copy_out_rep b xs) by (done || lia). cbn [mbind option_bind]. eexists. split; [reflexivity|].
    split; [apply publish_tail_rep; [done|lia]|]. split; [done|]. by destruct b.
  - exists b. assert (n = 0%nat) as -> by lia. split; [done|]. split; [done|]. split; [done|]. by destruct b.
Qed.

(** ** Message buffers *)

Definition encode (m : list Z) : list Z := le32 (Z.of_nat (length m)) ++ m.
Definition contents (ms : list (list Z)) : list Z := concat (map encode ms).
Definition message_ok (m : list Z) : Prop := 0 < Z.of_nat (length m) < 1073741824.

(** The messages [ms] are in the buffer; no task waits at either side. *)
Record mb_rep (s : SBState) (ms : list (list Z)) : Prop := mkMbRep {
  mb_sb : sb_rep s.1 (contents ms);
  mb_flag : is_message_buffer s.1 = true;
  mb_messages : Forall message_ok ms;
  mb_nobody : xTaskWaitingToReceive s.1 = 0 /\ xTaskWaitingToSend s.1 = 0;
  mb_kinv : kinv s.2;
  mb_kernel : uxSchedulerSuspended s.2 = 0 /\ uxCurrentNumberOfTasks s.2 > 0
}.

Lemma length_encode m : Z.of_nat (length (encode m)) = 4 + Z.of_nat (length m).
Proof. unfold encode. rewrite length_app. simpl length. lia. Qed.
Lemma contents_app a b : contents (a ++ b) = contents a ++ contents b.
Proof. unfold contents. by rewrite map_app, concat_app. Qed.
Lemma contents_one m : contents [m] = encode m.
Proof. unfold contents. cbn [map concat]. by rewrite app_nil_r. Qed.
Lemma contents_cons m ms : contents (m :: ms) = encode m ++ contents ms.
Proof. done. Qed.

(** Suspending and resuming the scheduler changes no more than the time of
    day would. *)
Lemma suspend_resume k : kinv k -> uxSchedulerSuspended k = 0 -> uxCurrentNumberOfTasks k > 0 ->
  exists k' y, xTaskResumeAll (vTaskSuspendAll k) = Some (k', y) /\ kinv k' /\ uxSchedulerSuspended k' = 0 /\
    uxCurrentNumberOfTasks k' > 0.
Proof.
  intros Hk Hs Hn. unfold vTaskSuspendAll. rewrite Hs. change (u32 (0 + 1)) with 1.
  pose proof (kinv_suspended_once k Hk Hs) as Hk1.
  destruct (resume_last _ Hk1) as (k' & y & E & Hk' & Hres & Hs' & _); [done|done|].
  exists k', y. split_and!; [done|done|done|]. destruct (kinv_counts _ Hk') as [[-> _] _ _ _ _]. rewrite (rs_tcbs _ _ Hres).
  destruct (kinv_counts _ Hk) as [[Ht _] _ _ _ _]. change (k_tcbs (set_uxSchedulerSuspended 1 k)) with (k_tcbs k). lia.
Qed.

Lemma write_message_ok b ms m : sb_rep b (contents ms) -> is_message_buffer b = true -> message_ok m ->
  let fits := Z.of_nat (length (contents ms)) + Z.of_nat (length (encode m)) <? xLength b in
  exists b', prvWriteMessageToBuffer m (xStreamBufferSpacesAvailable b) (required_space m b) b =
      Some (b', if fits then Z.of_nat (length m) else 0) /\
    sb_rep b' (contents (if fits then ms ++ [m] else ms)) /\ same_config b b'.
Proof.
  intros Hr Hf Hm fits. pose proof (length_encode m) as Hle. pose proof (sr_fits _ _ Hr) as Hfit.
  unfold prvWriteMessageToBuffer, required_space, message_ok, sbBYTES_TO_STORE_MESSAGE_LENGTH in *. rewrite (spaces_available b _ Hr), Hf, u32_small by lia. cbn [negb].
  subst fits. destruct (Z.ltb_spec (Z.of_nat (length (contents ms)) + Z.of_nat (length (encode m))) (xLength b)) as [Hlt|Hge].
  - destruct (Z.eqb_spec (xLength b - 1 - Z.of_nat (length (contents ms))) 0); [lia|]. rewrite Z.geb_leb, (proj2 (Z.leb_le _ _)) by lia.
    destruct (write_bytes_ok b (contents ms) (le32 (Z.of_nat (length m))) Hr) as (b1 & -> & Hr1 & Hc1); [simpl length; lia|].
    cbn [mbind option_bind]. destruct Hc1 as (C1 & C2 & C3 & C4 & C5).
    destruct (write_bytes_ok b1 _ m Hr1) as (b2 & -> & Hr2 & (D1 & D2 & D3 & D4 & D5)); [rewrite length_app, C1; simpl length; lia|].
    exists b2. split; [done|]. split; [|by split_and!; congruence].
    rewrite contents_app, contents_one. unfold encode. by rewrite (assoc_L (++)).
  - exists b. split; [|by split]. destruct (_ =? 0); [done|]. rewrite Z.geb_leb, (proj2 (Z.leb_gt _ _)) by lia. done.
Qed.

Lemma read_message_ok b m ms n : sb_rep b (contents (m :: ms)) -> message_ok m -> 0 <= n ->
  exists b', prvReadMessageFromBuffer n (Z.of_nat (length (contents (m :: ms)))) 4 b =
      Some (b', if Z.of_nat (length m) <=? n then m else []) /\
    sb_rep b' (contents (if Z.of_nat (length m) <=? n then ms else m :: ms)) /\ same_config b b'.
Proof.
  intros Hr Hm Hn. unfold prvReadMessageFromBuffer, message_ok in *. change (4 =? 0) with false. cbn [negb].
  pose proof Hr as Hr0. rewrite contents_cons in Hr. pose proof (length_encode m) as Hle.
  assert (Z.of_nat (length (contents (m :: ms))) = 4 + Z.of_nat (length m) + Z.of_nat (length (contents ms))) as Hlen
    by (rewrite contents_cons, length_app; lia).
  pose proof (sr_fits _ _ Hr0) as Hfit. pose proof (sh_length _ (sr_shape _ _ Hr0)) as [HL _].
  destruct (read_bytes_ok b _ 4 (Z.of_nat (length (contents (m :: ms)))) Hr) as (b1 & -> & Hr1 & Hc1 & Et); [lia|rewrite length_app; lia|].
  assert (Z.to_nat (Z.of_nat (length (contents (m :: ms))) `min` 4) = 4%nat) as E4 by lia. rewrite E4 in *. clear E4.
  cbn [mbind option_bind].
  assert (take 4 (encode m ++ contents ms) = le32 (Z.of_nat (length m)) /\ drop 4 (encode m ++ contents ms) = m ++ contents ms) as [-> Ed] by done.
  rewrite Ed in Hr1. rewrite le32_of_le32 by lia. rewrite (u32_small (_ - 4)) by lia. rewrite Z.gtb_ltb.
  destruct (Z.ltb_spec n (Z.of_nat (length m))), (Z.leb_spec (Z.of_nat (length m)) n); try lia.
  - rewrite Et. destruct (read_bytes_ok b _ 0 (Z.of_nat (length (contents (m :: ms))) - 4) Hr0) as (b2 & -> & Hr2 & Hc2 & _); [lia|lia|].
    assert (Z.to_nat ((Z.of_nat (length (contents (m :: ms))) - 4) `min` 0) = 0%nat) as E0 by lia. rewrite E0 in *.
    exists b2. by rewrite take_0.
  - destruct (read_bytes_ok b1 _ (Z.of_nat (length m)) (Z.of_nat (length (contents (m :: ms))) - 4) Hr1) as (b2 & -> & Hr2 & Hc2 & _); [lia|rewrite length_app; lia|].
    assert (Z.to_nat ((Z.of_nat (length (contents (m :: ms))) - 4) `min` Z.of_nat (length m)) = length m) as En by lia. rewrite En in *.
    rewrite take_app_length, drop_app_length in *. exists b2. split; [done|]. split; [done|].
    destruct Hc1 as (C1 & C2 & C3 & C4 & C5), Hc2 as (D1 & D2 & D3 & D4 & D5). split_and!; congruence.
Qed.

Lemma next_length_ok b ms : sb_rep b (contents ms) -> is_message_buffer b = true -> Forall message_ok ms ->
  xStreamBufferNextMessageLengthBytes b = Some (b, match ms with [] => 0 | m :: _ => Z.of_nat (length m) end).
Proof.
  intros Hr Hf Hm. unfold xStreamBufferNextMessageLengthBytes, sbBYTES_TO_STORE_MESSAGE_LENGTH. rewrite Hf, (bytes_in_buffer b _ Hr).
  rewrite Z.gtb_ltb. destruct ms as [|m ms]; [done|]. apply Forall_cons in Hm as [Hm _]. unfold message_ok in Hm.
  pose proof (length_encode m) as Hle. pose proof Hr as Hr0. rewrite contents_cons in *. destruct (Z.ltb_spec 4 (Z.of_nat (length (encode m ++ contents ms)))); [|rewrite length_app in *; lia].
  destruct (read_bytes_ok b _ 4 (Z.of_nat (length (encode m ++ contents ms))) Hr) as (b1 & -> & _ & _ & Et); [lia|lia|].
  assert (Z.to_nat (Z.of_nat (length (encode m ++ contents ms)) `min` 4) = 4%nat) as -> by lia.
  cbn [mbind option_bind]. rewrite Et. do 2 f_equal. change (take 4 (encode m ++ contents ms)) with (le32 (Z.of_nat (length m))). apply le32_of_le32. lia.
Qed.

(** The calls that do not wait, of tasks and interrupts. *)
Inductive mb_op := MSend (m : list Z) | MSendFromISR (m : list Z) | MReceive (n : Z) | MReceiveFromISR (n : Z) | MNext | MReset.
Inductive mb_answer := MCount (n : Z) | MBytes (bs : list Z) | MOk (ok : bool).

Definition run_mb_op (op : mb_op) (s : SBState) : option (SBState * mb_answer) :=
  match op with
  | MSend m =>
    '(s, o) ← send_step (xStreamBufferSend m 0) s;
    match o with
    | inr c => '(s, o) ← send_step c s; match o with inl n => Some (s, MCount n) | inr _ => None end
    | inl _ => None
    end
  | MSendFromISR m => '(s, n, _) ← xStreamBufferSendFromISR m s; Some (s, MCount n)
  | MReceive n =>
    '(s, o) ← receive_step (xStreamBufferReceive n 0) s;
    match o with
    | inr c => '(s, o) ← receive_step c s; match o with inl bs => Some (s, MBytes bs) | inr _ => None end
    | inl _ => None
    end
  | MReceiveFromISR n => '(s, bs, _) ← xStreamBufferReceiveFromISR n s; Some (s, MBytes bs)
  | MNext => '(b, n) ← xStreamBufferNextMessageLengthBytes s.1; Some (b, s.2, MCount n)
  | MReset => let '(b, ok) := xStreamBufferReset s.1 in Some (b, s.2, MOk ok)
  end.
Fixpoint run_mb (ops : list mb_op) (s : SBState) : option (SBState * list mb_answer) :=
  match ops with
  | [] => Some (s, [])
  | op :: ops => '(s, a) ← run_mb_op op s; '(s, r) ← run_mb ops s; Some (s, a :: r)
  end.

(** The same on a list of messages in a buffer of [l] bytes: a message takes
    its length and four bytes, and one byte of the array stays free. *)
Definition spec_mb_op (l : Z) (op : mb_op) (ms : list (list Z)) : list (list Z) * mb_answer :=
  match op with
  | MSend m | MSendFromISR m =>
    if Z.of_nat (length (contents ms)) + Z.of_nat (length (encode m)) <? l
    then (ms ++ [m], MCount (Z.of_nat (length m))) else (ms, MCount 0)
  | MReceive n | MReceiveFromISR n =>
    match ms with
    | [] => ([], MBytes [])
    | m :: r => if Z.of_nat (length m) <=? n then (r, MBytes m) else (ms, MBytes [])
    end
  | MNext => (ms, MCount match ms with [] => 0 | m :: _ => Z.of_nat (length m) end)
  | MReset => ([], MOk true)
  end.
Fixpoint spec_mb (l : Z) (ops : list mb_op) (ms : list (list Z)) : list (list Z) * list mb_answer :=
  match ops with
  | [] => (ms, [])
  | op :: ops => let '(ms, a) := spec_mb_op l op ms in let '(ms, r) := spec_mb l ops ms in (ms, a :: r)
  end.
Definition mb_op_ok (op : mb_op) : Prop :=
  match op with MSend m | MSendFromISR m => message_ok m | MReceive n | MReceiveFromISR n => 0 <= n | _ => True end.

(** *** Each call *)

Lemma send_completed_ok b k ms : mb_rep (b, k) ms ->
  exists k', sbSEND_COMPLETED (b, k) = Some (b, k') /\ mb_rep (b, k') ms.
Proof.
  intros [Hr Hf Hm [Hn1 Hn2] Hk [Hs Ht]]. simpl in *. destruct (suspend_resume k Hk Hs Ht) as (k' & y & E & Hk' & Hs' & Ht').
  exists k'. unfold sbSEND_COMPLETED. rewrite Hn1. change (0 =? 0) with true. cbn [negb mbind option_bind]. rewrite E. split; [done|].
  by split.
Qed.
Lemma receive_completed_ok b k ms : mb_rep (b, k) ms ->
  exists k', sbRECEIVE_COMPLETED (b, k) = Some (b, k') /\ mb_rep (b, k') ms.
Proof.
  intros [Hr Hf Hm [Hn1 Hn2] Hk [Hs Ht]]. simpl in *. destruct (suspend_resume k Hk Hs Ht) as (k' & y & E & Hk' & Hs' & Ht').
  exists k'. unfold sbRECEIVE_COMPLETED. rewrite Hn2. change (0 =? 0) with true. cbn [negb mbind option_bind]. rewrite E. split; [done|].
  by split.
Qed.

(** The calls of tasks with no time to wait, without their steps. *)
Lemma run_send_eq m b k : run_mb_op (MSend m) (b, k) =
  '(b, n) ← prvWriteMessageToBuffer m (xStreamBufferSpacesAvailable b) (required_space m b) b;
  s ← (if n >? 0 then if prvBytesInBuffer b >=? xTriggerLevelBytes b then sbSEND_COMPLETED (b, k) else Some (b, k) else Some (b, k));
  Some (s, MCount n).
Proof.
  cbn -[sbSEND_COMPLETED]. destruct (prvWriteMessageToBuffer _ _ _ _) as [[b' n]|]; [|done]. cbn [mbind option_bind].
  destruct (n >? 0); [|done]. destruct (_ >=? _); [|done]. by destruct (sbSEND_COMPLETED (b', k)).
Qed.
Lemma run_receive_eq n b k : run_mb_op (MReceive n) (b, k) =
  let xBytesAvailable := prvBytesInBuffer b in
  if xBytesAvailable >? length_bytes b then
    '(b, bs) ← prvReadMessageFromBuffer n xBytesAvailable (length_bytes b) b;
    s ← (if negb (Z.of_nat (length bs) =? 0) then sbRECEIVE_COMPLETED (b, k) else Some (b, k)); Some (s, MBytes bs)
  else Some ((b, k), MBytes []).
Proof.
  cbn -[sbRECEIVE_COMPLETED]. destruct (_ >? _); [|done]. destruct (prvReadMessageFromBuffer _ _ _ _) as [[b' bs]|]; [|done]. cbn [mbind option_bind].
  destruct (negb _); [|done]. by destruct (sbRECEIVE_COMPLETED (b', k)).
Qed.

(** A call that only changes the bytes. *)
Lemma mb_rep_bytes b b' k ms ms' : mb_rep (b, k) ms -> sb_rep b' (contents ms') -> same_config b b' -> Forall message_ok ms' ->
  mb_rep (b', k) ms' /\ xLength b' = xLength b.
Proof. intros [_ Hf _ [Hn1 Hn2] Hk Ht] Hr (C1 & C2 & C3 & C4 & C5) Hm. split; [|done]. by split; simpl in *; rewrite ?C3, ?C4, ?C5. Qed.

Lemma length_bytes_mb b : is_message_buffer b = true -> length_bytes b = 4.
Proof. unfold length_bytes. by intros ->. Qed.
Lemma receivable m ms : Forall message_ok (m :: ms) -> (Z.of_nat (length (contents (m :: ms))) >? 4) = true /\ message_ok m.
Proof.
  intros [Hm _]%Forall_cons. split; [|done]. unfold message_ok in Hm. rewrite Z.gtb_ltb. apply Z.ltb_lt.
  pose proof (length_encode m). rewrite contents_cons, length_app. lia.
Qed.

Lemma run_mb_op_ok op s ms : mb_rep s ms -> mb_op_ok op ->
  let '(ms', a) := spec_mb_op (xLength s.1) op ms in
  exists s', run_mb_op op s = Some (s', a) /\ mb_rep s' ms' /\ xLength s'.1 = xLength s.1.
Proof.
  destruct s as [b k]. intros Hmb Hop. pose proof Hmb as [Hr Hf Hms [Hn1 Hn2] _ _]. simpl in Hr, Hf, Hn1, Hn2.
  destruct op as [m|m|n|n| |]; simpl in Hop; cbn [run_mb_op spec_mb_op fst snd].
  - fold (run_mb_op (MSend m) (b, k)). rewrite run_send_eq.
    destruct (write_message_ok b ms m Hr Hf Hop) as (b' & -> & Hr' & Hc). cbn [mbind option_bind]. unfold message_ok in Hop.
    destruct (_ <? _) eqn:El; cbn iota in *.
    + destruct (mb_rep_bytes b b' k ms _ Hmb Hr' Hc) as [Hmb' El']; [by apply Forall_app_2; [|constructor]|].
      destruct (send_completed_ok b' k _ Hmb') as (k' & E' & Hmb'').
      rewrite Z.gtb_ltb, (proj2 (Z.ltb_lt _ _)), E' by lia.
      destruct (_ >=? _); cbn [mbind option_bind]; eexists; (split; [reflexivity|done]).
    + destruct (mb_rep_bytes b b' k ms _ Hmb Hr' Hc) as [Hmb' El']; [done|]. eexists. split; [reflexivity|done].
  - unfold xStreamBufferSendFromISR. destruct (write_message_ok b ms m Hr Hf Hop) as (b' & -> & Hr' & Hc).
    cbn [mbind option_bind]. unfold message_ok in Hop.
    destruct (_ <? _) eqn:El; cbn iota in *.
    + destruct (mb_rep_bytes b b' k ms _ Hmb Hr' Hc) as [Hmb' El']; [by apply Forall_app_2; [|constructor]|].
      rewrite Z.gtb_ltb, (proj2 (Z.ltb_lt _ _)) by lia.
      unfold xStreamBufferSendCompletedFromISR. destruct (mb_nobody _ _ Hmb') as [H0 _]. simpl in H0. rewrite H0. change (0 =? 0) with true.
      destruct (_ >=? _); cbn [mbind option_bind negb]; eexists; (split; [reflexivity|done]).
    + destruct (mb_rep_bytes b b' k ms _ Hmb Hr' Hc) as [Hmb' El']; [done|]. eexists. split; [reflexivity|done].
  - fold (run_mb_op (MReceive n) (b, k)). rewrite run_receive_eq. pose proof (length_bytes_mb b Hf) as ->. cbv zeta.
    rewrite (bytes_in_buffer b _ Hr). destruct ms as [|m ms]; [by exists (b, k)|].
    destruct (receivable m ms Hms) as [-> Hm].
    destruct (read_message_ok b m ms n Hr Hm Hop) as (b' & -> & Hr' & Hc). cbn [mbind option_bind].
    destruct (Z.of_nat (length m) <=? n); cbn iota in *.
    + destruct (mb_rep_bytes b b' k _ ms Hmb Hr' Hc) as [Hmb' El']; [by apply Forall_cons in Hms as [_ ?]|].
      destruct (receive_completed_ok b' k _ Hmb') as (k' & E' & Hmb''). rewrite E'. unfold message_ok in Hm.
      destruct (Z.eqb_spec (Z.of_nat (length m)) 0); [lia|]. by eexists.
    + destruct (mb_rep_bytes b b' k _ (m :: ms) Hmb Hr' Hc) as [Hmb' El']; [done|]. by eexists.
  - unfold xStreamBufferReceiveFromISR. pose proof (length_bytes_mb b Hf) as ->.
    rewrite (bytes_in_buffer b _ Hr). destruct ms as [|m ms]; [by exists (b, k)|].
    destruct (receivable m ms Hms) as [-> Hm].
    destruct (read_message_ok b m ms n Hr Hm Hop) as (b' & -> & Hr' & Hc). cbn [mbind option_bind].
    destruct (Z.of_nat (length m) <=? n); cbn iota in *.
    + destruct (mb_rep_bytes b b' k _ ms Hmb Hr' Hc) as [Hmb' El']; [by apply Forall_cons in Hms as [_ ?]|]. unfold message_ok in Hm.
      destruct (Z.eqb_spec (Z.of_nat (length m)) 0); [lia|].
      unfold xStreamBufferReceiveCompletedFromISR. destruct (mb_nobody _ _ Hmb') as [_ H0]. simpl in H0. rewrite H0. by eexists.
    + destruct (mb_rep_bytes b b' k _ (m :: ms) Hmb Hr' Hc) as [Hmb' El']; [done|]. by eexists.
  - rewrite (next_length_ok b ms Hr Hf Hms). by eexists.
  - unfold xStreamBufferReset. rewrite Hn1, Hn2. eexists. split; [reflexivity|]. split; [|done].
    pose proof (sh_length _ (sr_shape _ _ Hr)) as [HL Hb]. pose proof (init_rep _ _ (xTriggerLevelBytes b) (is_message_buffer b) HL Hb).
    by split; simpl; try done; destruct Hmb.
Qed.

(** C27: a message buffer is a bounded queue of messages.  Any sequence of
    calls that do not wait, from tasks and from interrupts (send, receive, the
    length of the next message, reset), returns the answers that a plain list of
    messages gives: a message goes in whole, exactly when its bytes and four
    more fit, comes out whole and in order, and stays when the receiver's array
    is too short for it. *)
Theorem message_programs_refine ops s ms : mb_rep s ms -> Forall mb_op_ok ops ->
  let '(ms', answers) := spec_mb (xLength s.1) ops ms in
  exists s', run_mb ops s = Some (s', answers) /\ mb_rep s' ms'.
Proof.
  revert s ms. induction ops as [|op ops IH]; intros s ms Hs Ho; [by exists s|].
  apply Forall_cons in Ho as [Ho1 Ho]. pose proof (run_mb_op_ok op s ms Hs Ho1) as H1. cbn [spec_mb].
  destruct (spec_mb_op (xLength s.1) op ms) as [ms1 a]. destruct H1 as (s1 & E1 & Hs1 & El).
  pose proof (IH s1 ms1 Hs1 Ho) as H2. rewrite El in H2. destruct (spec_mb (xLength s.1) ops ms1) as [ms2 r].
  destruct H2 as (s2 & E2 & Hs2). exists s2. cbn [run_mb]. rewrite E1. cbn [mbind option_bind]. by rewrite E2.
Qed.

(** ** The trigger level

    xStreamBufferSetTriggerLevel accepts [xLength] itself, but the array holds
    one byte less: no number of unread bytes then reaches the level. *)
Lemma trigger_level_unreachable b xs : sb_rep b xs -> let '(b', ok) := xStreamBufferSetTriggerLevel (xLength b) b in
  ok = true /\ sb_rep b' xs /\ forall ys, sb_rep b' ys -> (prvBytesInBuffer b' >=? xTriggerLevelBytes b') = false.
Proof.
  intros Hr. pose proof (sh_length _ (sr_shape _ _ Hr)) as [HL _]. unfold xStreamBufferSetTriggerLevel.
  destruct (Z.eqb_spec (xLength b) 0); [lia|]. destruct (Z.leb_spec (xLength b) (xLength b)); [|lia].
  split; [done|]. split; [by destruct Hr as [[? ? ?] ? ? ?]; split; [split|..]|]. intros ys Hy. rewrite (bytes_in_buffer _ _ Hy).
  pose proof (sr_fits _ _ Hy) as Hf. simpl in *. rewrite Z.geb_leb. apply Z.leb_gt. lia.
Qed.
