(* ===== verification/StreamSample.v ===== *)
(** * The theorems on stream and message buffers applied to small buffers *)

From S2P Require Import Prelude ListSpec Kernel KernelInv Notify StreamBuffer StreamSpec KernelSample.
#[local] Open Scope Z_scope.

(** Eight bytes, both ends at 6: the first write goes around the end. *)
Definition sample_stream : StreamBuffer_t :=
  set_xHead 6 (set_xTail 6 (prvInitialiseNewStreamBuffer (replicate 8 0) 8 1 false)).
Definition sample_sides : Sides := mkSides sample_stream 0 [] 0 [].

(** The reader takes two bytes while the writer is between its copy and its
    assignment, with a count that is already old. *)
Definition sample_io : list io :=
  [RAvail; WSpace; WCopy [1; 2; 3]; WPublish; RAvail; WSpace; WCopy [4; 5]; RCopy 2; WPublish; RPublish; RAvail; RCopy 10; RPublish].

Lemma sample_sides_ok : sides_rep sample_sides [].
Proof. by split; [split; [split|..]|..]. Qed.

#[local] Instance may_io_dec a s : Decision (may_io a s).
Proof. destruct a; apply _. Defined.
Fixpoint check_run (acts : list io) (s : Sides) : bool :=
  match acts with
  | [] => true
  | a :: acts => bool_decide (may_io a s) && match io_step a s with Some (s', _, _) => check_run acts s' | None => true end
  end.
Lemma check_run_ok acts s : check_run acts s = true -> may_run acts s.
Proof.
  revert s. induction acts as [|a acts IH]; intros s; [done|]. cbn [check_run].
  intros [Ha%bool_decide_eq_true H]%andb_prop. split; [done|]. intros s' p g E. rewrite E in H. by apply IH.
Qed.

Lemma sample_io_ok : may_run sample_io sample_sides.
Proof. apply check_run_ok. vm_compute. reflexivity. Qed.

Lemma stream_interleavings_fifo_witness : exists s' published, run_io sample_io sample_sides = Some (s', published, [1; 2; 3; 4; 5]) /\
  published = [1; 2; 3; 4; 5] /\ sides_rep s' [].
Proof.
  destruct (stream_interleavings_fifo sample_io sample_sides [] sample_sides_ok sample_io_ok) as (s' & p & g & xs' & E & Hr & H).
  vm_compute in E. injection E as <- <- <-. exists (default sample_sides ((fun x => x.1.1) <$> run_io sample_io sample_sides)).
  exists [1; 2; 3; 4; 5]. split; [vm_compute; reflexivity|]. split; [reflexivity|]. simpl in H. rewrite drop_0 in H.
  destruct xs'; [|discriminate]. exact Hr.
Defined.

(** A message buffer of 16 bytes: a message of two bytes, one from an
    interrupt, a receiver that is too short, a third message that does not fit. *)
Definition sample_mb : SBState := (prvInitialiseNewStreamBuffer (replicate 16 0) 16 1 true, sample).
Definition sample_mb_ops : list mb_op :=
  [MSend [1; 2]; MSendFromISR [3]; MReceive 1; MSend [4; 5; 6; 7]; MNext; MReceive 2; MReceiveFromISR 5; MReceive 9; MReset].

Lemma sample_mb_ok : mb_rep sample_mb [].
Proof.
  split.
  - apply (init_rep (replicate 16 0) 16 1 true); [lia|reflexivity].
  - reflexivity.
  - constructor.
  - split; reflexivity.
  - exact sample_ok.
  - vm_compute. by split.
Qed.

Lemma message_programs_refine_witness : exists s', run_mb sample_mb_ops sample_mb =
    Some (s', [MCount 2; MCount 1; MBytes []; MCount 0; MCount 2; MBytes [1; 2]; MBytes [3]; MBytes []; MOk true]) /\
  mb_rep s' [].
Proof.
  pose proof (message_programs_refine sample_mb_ops sample_mb [] sample_mb_ok) as H.
  vm_compute spec_mb in H. apply H. repeat constructor; vm_compute; intuition discriminate.
Defined.
