(* ===== verification/Mem.v ===== *)
(** * mem.c and memp.c: the heap and the pools of lwIP

    The heap is the array [ram] with a header in front of every block; headers
    name their neighbours by their index in [ram].  Every call runs under
    [mem_mutex] and is one step here.  [None] is the read of a header where
    there is none, or fuel that ran out. *)

From S2P Require Import Prelude.
#[local] Open Scope Z_scope.

Definition LWIP_MEM_ALIGN_SIZE (size : Z) : Z := Z.land (u32 (size + 3)) 4294967292.
Definition MEM_SIZE_ALIGNED : Z := 16384.
Definition MIN_SIZE_ALIGNED : Z := 12.
Definition SIZEOF_STRUCT_MEM : Z := 8.

Record mem := mkMem { m_next : Z; m_prev : Z; m_used : bool }.
Definition set_m_next (v : Z) (m : mem) : mem := mkMem v (m_prev m) (m_used m).
Definition set_m_prev (v : Z) (m : mem) : mem := mkMem (m_next m) v (m_used m).
Definition set_m_used (v : bool) (m : mem) : mem := mkMem (m_next m) (m_prev m) v.

(** The headers in [ram] by index, and the index of [lfree]; [ram_end] is
    MEM_SIZE_ALIGNED. *)
Record MemHeap := mkMemHeap { hdrs : gmap Z mem; lfree : Z }.
Definition set_lfree (i : Z) (h : MemHeap) : MemHeap := mkMemHeap (hdrs h) i.
Definition put_mem (i : Z) (m : mem) (h : MemHeap) : MemHeap := mkMemHeap (<[i := m]> (hdrs h)) (lfree h).
(** A header that is part of a free block from here on. *)
Definition drop_mem (i : Z) (h : MemHeap) : MemHeap := mkMemHeap (delete i (hdrs h)) (lfree h).

(** [*ptr_to_mem(i)]. *)
Definition ptr_to_mem (i : Z) (h : MemHeap) : option mem := hdrs h !! i.
(** [ptr_to_mem(i)->prev = v], but for [ram_end]. *)
Definition set_prev_at (i v : Z) (h : MemHeap) : option MemHeap :=
  if negb (i =? MEM_SIZE_ALIGNED) then m ← ptr_to_mem i h; Some (put_mem i (set_m_prev v m) h) else Some h.

Definition mem_init : MemHeap :=
  mkMemHeap (<[0 := mkMem MEM_SIZE_ALIGNED 0 false]> {[MEM_SIZE_ALIGNED := mkMem MEM_SIZE_ALIGNED MEM_SIZE_ALIGNED true]}) 0.

(** *** Freeing *)

Definition plug_next (i : Z) (h : MemHeap) : option MemHeap :=
  m ← ptr_to_mem i h; let n := m_next m in nmem ← ptr_to_mem n h;
  if negb (i =? n) && negb (m_used nmem) && negb (n =? MEM_SIZE_ALIGNED) then
    let h := if lfree h =? n then set_lfree i h else h in
    let h := drop_mem n (put_mem i (set_m_next (m_next nmem) m) h) in
    set_prev_at (m_next nmem) i h
  else Some h.
Definition plug_prev (i : Z) (h : MemHeap) : option MemHeap :=
  m ← ptr_to_mem i h; let p := m_prev m in pmem ← ptr_to_mem p h;
  if negb (p =? i) && negb (m_used pmem) then
    let h := if lfree h =? i then set_lfree p h else h in
    let h := drop_mem i (put_mem p (set_m_next (m_next m) pmem) h) in
    set_prev_at (m_next m) p h
  else Some h.
Definition plug_holes (i : Z) (h : MemHeap) : option MemHeap := h ← plug_next i h; plug_prev i h.

Definition mem_link_valid (i : Z) (h : MemHeap) : option bool :=
  m ← ptr_to_mem i h;
  if (m_next m >? MEM_SIZE_ALIGNED) || (m_prev m >? MEM_SIZE_ALIGNED) then Some false else
  bad ← (if negb (m_prev m =? i) then pmem ← ptr_to_mem (m_prev m) h; Some (negb (m_next pmem =? i)) else Some false);
  if (bad : bool) then Some false else
  bad ← (if negb (m_next m =? MEM_SIZE_ALIGNED) then nmem ← ptr_to_mem (m_next m) h; Some (negb (m_prev nmem =? i)) else Some false);
  Some (negb bad).

(** *** Allocation *)

(** The loop over the blocks from [lfree]: the block to use. *)
Fixpoint mem_search (fuel : nat) (size ptr : Z) (h : MemHeap) : option (option Z) :=
  match fuel with
  | O => None
  | S fuel =>
    if ptr <? u32 (MEM_SIZE_ALIGNED - size) then
      m ← ptr_to_mem ptr h;
      if negb (m_used m) && (u32 (m_next m - (ptr + SIZEOF_STRUCT_MEM)) >=? size) then Some (Some ptr)
      else mem_search fuel size (m_next m) h
    else Some None
  end.
(** The loop that moves [lfree] to the next free block. *)
Fixpoint skip_used (fuel : nat) (cur : Z) (h : MemHeap) : option Z :=
  match fuel with
  | O => None
  | S fuel =>
    m ← ptr_to_mem cur h;
    if m_used m && negb (cur =? MEM_SIZE_ALIGNED) then skip_used fuel (m_next m) h else Some cur
  end.

(** The size of the block for [size_in] bytes, if there can be one. *)
Definition block_size (size_in : Z) : option Z :=
  let size := u16 (LWIP_MEM_ALIGN_SIZE size_in) in
  let size := if size <? MIN_SIZE_ALIGNED then MIN_SIZE_ALIGNED else size in
  if (size >? MEM_SIZE_ALIGNED) || (size <? size_in) then None else Some size.

(** Using the block at [ptr], split when the rest is large enough. *)
Definition use_block (size ptr : Z) (h : MemHeap) : option MemHeap :=
  m ← ptr_to_mem ptr h;
  if u32 (m_next m - (ptr + SIZEOF_STRUCT_MEM)) >=? u32 (size + SIZEOF_STRUCT_MEM + MIN_SIZE_ALIGNED) then
    let ptr2 := u16 (ptr + SIZEOF_STRUCT_MEM + size) in
    let h := put_mem ptr2 (mkMem (m_next m) ptr false) h in
    let h := put_mem ptr (mkMem ptr2 (m_prev m) true) h in
    set_prev_at (m_next m) ptr2 h
  else Some (put_mem ptr (set_m_used true m) h).

Section mem.
(** The address of the array. *)
Context (ram : Z).

Definition mem_malloc (size_in : Z) (h : MemHeap) : option (MemHeap * Z) :=
  if size_in =? 0 then Some (h, 0) else
  match block_size size_in with
  | None => Some (h, 0)
  | Some size =>
    found ← mem_search (S (base.size (hdrs h))) size (lfree h) h;
    match found with
    | None => Some (h, 0)
    | Some ptr =>
      let n := base.size (hdrs h) in
      h ← use_block size ptr h;
      h ← (if ptr =? lfree h then cur ← skip_used (S (S n)) (lfree h) h; Some (set_lfree cur h) else Some h);
      Some (h, ram + ptr + SIZEOF_STRUCT_MEM)
    end
  end.

Definition mem_free (rmem : Z) (h : MemHeap) : option MemHeap :=
  if rmem =? 0 then Some h
  else if negb (Z.land rmem 3 =? 0) then Some h
  else if (u32 (rmem - SIZEOF_STRUCT_MEM) <? ram) || (rmem + MIN_SIZE_ALIGNED >? ram + MEM_SIZE_ALIGNED) then Some h
  else
    let i := u16 (rmem - SIZEOF_STRUCT_MEM - ram) in
    m ← ptr_to_mem i h;
    if negb (m_used m) then Some h
    else
      ok ← mem_link_valid i h;
      if negb ok then Some h
      else
        let h := put_mem i (set_m_used false m) h in
        let h := if i <? lfree h then set_lfree i h else h in
        plug_holes i h.

Definition mem_trim (rmem new_size : Z) (h : MemHeap) : option (MemHeap * Z) :=
  let newsize := u16 (LWIP_MEM_ALIGN_SIZE new_size) in
  let newsize := if newsize <? MIN_SIZE_ALIGNED then MIN_SIZE_ALIGNED else newsize in
  if (newsize >? MEM_SIZE_ALIGNED) || (newsize <? new_size) then Some (h, 0)
  else if (rmem <? ram) || (rmem >=? ram + MEM_SIZE_ALIGNED) then Some (h, rmem)
  else
    let ptr := u16 (rmem - SIZEOF_STRUCT_MEM - ram) in
    m ← ptr_to_mem ptr h;
    let size := u16 (u16 (m_next m - ptr) - SIZEOF_STRUCT_MEM) in
    if newsize >? size then Some (h, 0)
    else if newsize =? size then Some (h, rmem)
    else
      let n := m_next m in mem2 ← ptr_to_mem n h;
      if negb (m_used mem2) then
        let ptr2 := u16 (ptr + SIZEOF_STRUCT_MEM + newsize) in
        let h := if lfree h =? n then set_lfree ptr2 h else h in
        let h := put_mem ptr (set_m_next ptr2 m) (put_mem ptr2 (mkMem (m_next mem2) ptr false) (drop_mem n h)) in
        h ← set_prev_at (m_next mem2) ptr2 h; Some (h, rmem)
      else if u32 (newsize + SIZEOF_STRUCT_MEM + MIN_SIZE_ALIGNED) <=? size then
        let ptr2 := u16 (ptr + SIZEOF_STRUCT_MEM + newsize) in
        let h := if ptr2 <? lfree h then set_lfree ptr2 h else h in
        let h := put_mem ptr (set_m_next ptr2 m) (put_mem ptr2 (mkMem n ptr false) h) in
        h ← set_prev_at n ptr2 h; Some (h, rmem)
      else Some (h, rmem).

(** With the number of bytes at the block that are set to 0. *)
Definition mem_calloc (count size : Z) (h : MemHeap) : option (MemHeap * Z * Z) :=
  let alloc_size := u32 (count * size) in
  if negb (u16 alloc_size =? alloc_size) then Some (h, 0, 0) else
  '(h, p) ← mem_malloc alloc_size h; Some (h, p, if negb (p =? 0) then alloc_size else 0).
End mem.

(** ** Pools

    A pool is an array of [d_num] elements of [d_size] bytes at [d_base]; the
    free ones are linked through their first word. *)

Record memp_desc := mkDesc { d_size : Z; d_num : Z; d_base : Z }.
Record Pool := mkPool { tab : Z; memp_next : gmap Z Z }.

Fixpoint link_elements (n : nat) (size memp : Z) (p : Pool) : Pool :=
  match n with
  | O => p
  | S n => link_elements n size (memp + size) (mkPool memp (<[memp := tab p]> (memp_next p)))
  end.
Definition memp_init_pool (d : memp_desc) : Pool :=
  link_elements (Z.to_nat (d_num d)) (d_size d) (LWIP_MEM_ALIGN_SIZE (d_base d)) (mkPool 0 ∅).

Definition do_memp_malloc_pool (p : Pool) : option (Pool * Z) :=
  let memp := tab p in
  if negb (memp =? 0) then n ← memp_next p !! memp; Some (mkPool n (delete memp (memp_next p)), memp)
  else Some (p, 0).
Definition do_memp_free_pool (m : Z) (p : Pool) : Pool := mkPool m (<[m := tab p]> (memp_next p)).
Definition memp_free (m : Z) (p : Pool) : Pool := if m =? 0 then p else do_memp_free_pool m p.
