(* ===== verification/MemSpec.v ===== *)
(** * The heap of lwIP hands out disjoint blocks and gets them back

    The heap as a sequence of segments from 0 to the end of [ram], each with
    its header; no two free neighbours; [lfree] at the first free one.  Then
    what users see: the blocks they hold. *)

From S2P Require Import Prelude Clients Mem.
#[local] Open Scope Z_scope.

(** ** Segments *)

Record Seg := mkSeg { g_at : Z; g_end : Z; g_used : bool }.
Definition room (s : Seg) : Z := g_end s - g_at s - SIZEOF_STRUCT_MEM.
Definition seg_ok (s : Seg) : Prop := 0 <= g_at s /\ MIN_SIZE_ALIGNED <= room s /\ g_at s mod 4 = 0 /\ g_end s mod 4 = 0.
Definition end_mem : mem := mkMem MEM_SIZE_ALIGNED MEM_SIZE_ALIGNED true.

Fixpoint tiles (a : Z) (ss : list Seg) (e : Z) : Prop :=
  match ss with
  | [] => a = e
  | s :: r => g_at s = a /\ seg_ok s /\ tiles (g_end s) r e
  end.
(** The headers of the segments; [p] is the segment before. *)
Fixpoint linked (hs : gmap Z mem) (p : Z) (ss : list Seg) : Prop :=
  match ss with
  | [] => True
  | s :: r => hs !! g_at s = Some (mkMem (g_end s) p (g_used s)) /\ linked hs (g_at s) r
  end.
Fixpoint no_free_pair (ss : list Seg) : Prop :=
  match ss with
  | s :: ((n :: _) as r) => (g_used s = true \/ g_used n = true) /\ no_free_pair r
  | _ => True
  end.
Fixpoint first_free (ss : list Seg) : Z :=
  match ss with
  | [] => MEM_SIZE_ALIGNED
  | s :: r => if g_used s then first_free r else g_at s
  end.

Record heap_inv (h : MemHeap) (ss : list Seg) : Prop := mkHeapInv {
  hi_tiles : tiles 0 ss MEM_SIZE_ALIGNED;
  hi_linked : linked (hdrs h) 0 ss;
  hi_end : hdrs h !! MEM_SIZE_ALIGNED = Some end_mem;
  hi_pairs : no_free_pair ss;
  hi_lfree : lfree h = first_free ss
}.

Ltac seg_lia := unfold seg_ok, room, MEM_SIZE_ALIGNED, MIN_SIZE_ALIGNED, SIZEOF_STRUCT_MEM in *; simpl in *; lia.

(** *** Positions *)

Fixpoint last_at (p : Z) (l : list Seg) : Z := match l with [] => p | s :: r => last_at (g_at s) r end.

Lemma segs_app a l r e : tiles a (l ++ r) e <-> exists m, tiles a l m /\ tiles m r e.
Proof.
  revert a. induction l as [|s l IH]; intros a; simpl; [naive_solver|]. rewrite IH. naive_solver.
Qed.
Lemma segs_le a ss e : tiles a ss e -> a <= e.
Proof. revert a. induction ss as [|s r IH]; intros a; simpl; [lia|]. intros (<- & Hs & Ht%IH). seg_lia. Qed.
(** Where a segment lies. *)
Lemma segs_in a ss e s : tiles a ss e -> s ∈ ss -> a <= g_at s /\ seg_ok s /\ g_end s <= e.
Proof.
  revert a. induction ss as [|x r IH]; intros a; simpl; [by intros _ ?%elem_of_nil|].
  intros (<- & Hx & Ht) [->|Hs]%elem_of_cons; [pose proof (segs_le _ _ _ Ht); split_and!; [lia|done|lia]|].
  destruct (IH _ Ht Hs) as (? & ? & ?). split_and!; [seg_lia|done|done].
Qed.
Lemma tiles_length a ss e : tiles a ss e -> 20 * Z.of_nat (length ss) <= e - a.
Proof. revert a. induction ss as [|s r IH]; intros a; simpl; [lia|]. intros (<- & Hs & Ht%IH). seg_lia. Qed.

Lemma headers_app hs p l r : linked hs p (l ++ r) <-> linked hs p l /\ linked hs (last_at p l) r.
Proof. revert p. induction l as [|s l IH]; intros p; simpl; [naive_solver|]. rewrite IH. naive_solver. Qed.
(** Headers elsewhere do not matter. *)
Lemma linked_frame hs hs' p ss : (forall s, s ∈ ss -> hs' !! g_at s = hs !! g_at s) -> linked hs p ss -> linked hs' p ss.
Proof.
  revert p. induction ss as [|s r IH]; intros p He; simpl; [done|]. intros [E Hr].
  split; [rewrite He by (by left); done|]. apply IH; [|done]. intros t Ht. apply He. by right.
Qed.

(** The headers tell how many segments there are at most. *)
Lemma linked_size hs a ss : tiles a ss MEM_SIZE_ALIGNED -> linked hs 0 ss -> is_Some (hs !! MEM_SIZE_ALIGNED) -> (length ss < size hs)%nat.
Proof.
  intros Ht Hl He. assert (NoDup (map g_at ss ++ [MEM_SIZE_ALIGNED])) as Hn.
  { clear Hl He. revert a Ht. induction ss as [|s r IH]; intros a; simpl; [intros _; apply NoDup_singleton|].
    intros (<- & Hs & Ht). constructor; [|by eapply IH]. intros [(t & E & Hi)%list_elem_of_fmap|Hi%list_elem_of_singleton]%elem_of_app.
    - destruct (segs_in _ _ _ _ Ht Hi) as (? & ? & ?). seg_lia.
    - pose proof (segs_le _ _ _ Ht). seg_lia. }
  pose proof (length_le_size hs _ Hn) as H. rewrite length_app, length_map in H. simpl in H. apply (Nat.lt_le_trans _ (length ss + 1)); [lia|].
  apply H. intros k [(t & -> & Hi)%list_elem_of_fmap| ->%list_elem_of_singleton]%elem_of_app; [|done].
  clear - Hl Hi. revert Hl. generalize 0. induction ss as [|s r IH]; intros p; simpl; [by apply elem_of_nil in Hi|].
  intros [E Hl]. apply elem_of_cons in Hi as [->|Hi]; [by rewrite E|by apply (IH Hi _ Hl)].
Qed.

(** *** Sizes *)

Lemma align_size n : 0 <= n < 4294967293 -> LWIP_MEM_ALIGN_SIZE n = 4 * ((n + 3) / 4).
Proof.
  intros Hn. unfold LWIP_MEM_ALIGN_SIZE. rewrite u32_small by lia. change 4294967292 with (Z.shiftl (Z.ones 30) 2).
  replace (4 * ((n + 3) / 4)) with (Z.shiftl (Z.shiftr (n + 3) 2) 2) by (rewrite Z.shiftl_mul_pow2, Z.shiftr_div_pow2 by lia; apply Z.mul_comm).
  apply Z.bits_inj'. intros i Hi. rewrite Z.land_spec, !Z.shiftl_spec by lia. destruct (Z.ltb_spec i 2).
  - rewrite !(Z.testbit_neg_r _ (i - 2)) by lia. apply andb_false_r.
  - rewrite Z.testbit_ones, Z.shiftr_spec by lia. replace (i - 2 + 2) with i by lia.
    rewrite (proj2 (Z.leb_le 0 (i - 2))) by lia. destruct (Z.ltb_spec (i - 2) 30); [apply andb_true_r|].
    rewrite andb_false_r. symmetry. destruct (Z.eqb_spec (n + 3) 0); [lia|]. apply Z.bits_above_log2; [lia|].
    apply Z.log2_lt_pow2; [lia|]. apply (Z.lt_le_trans _ (2 ^ 32)); [lia|]. apply Z.pow_le_mono_r; lia.
Qed.

(** The requested size, rounded up. *)
Lemma block_size_ok n : 0 < n < 65536 ->
  match block_size n with
  | Some w => n <= w <= MEM_SIZE_ALIGNED /\ MIN_SIZE_ALIGNED <= w /\ w mod 4 = 0 /\ w <= Z.max MIN_SIZE_ALIGNED (n + 3)
  | None => MEM_SIZE_ALIGNED < n
  end.
Proof.
  intros Hn. unfold block_size, MEM_SIZE_ALIGNED, MIN_SIZE_ALIGNED. rewrite align_size by lia.
  assert (u16 (4 * ((n + 3) / 4)) = if n <=? 65532 then 4 * ((n + 3) / 4) else 0) as ->
    by (unfold u16; destruct (Z.leb_spec n 65532); Z.div_mod_to_equations; lia).
  destruct (Z.leb_spec n 65532); [|rewrite (proj2 (Z.ltb_lt 0 12)), (proj2 (Z.ltb_lt 12 n)) by lia; simpl; lia].
  assert (n <= 4 * ((n + 3) / 4) <= n + 3 /\ (4 * ((n + 3) / 4)) mod 4 = 0) as [Ha Hm] by (Z.div_mod_to_equations; lia).
  set (a := 4 * ((n + 3) / 4)) in *. destruct (Z.ltb_spec a 12).
  - rewrite (proj2 (Z.ltb_ge 12 n)) by lia. split_and!; try lia. done.
  - rewrite (proj2 (Z.ltb_ge a n)), orb_false_r by lia. rewrite Z.gtb_ltb. destruct (Z.ltb_spec 16384 a); [Z.div_mod_to_equations; lia|].
    split_and!; try lia.
Qed.

(** ** Allocation *)

(** First fit. *)
Definition cut (size : Z) (s : Seg) : list Seg :=
  if size + SIZEOF_STRUCT_MEM + MIN_SIZE_ALIGNED <=? room s
  then [mkSeg (g_at s) (g_at s + SIZEOF_STRUCT_MEM + size) true; mkSeg (g_at s + SIZEOF_STRUCT_MEM + size) (g_end s) false]
  else [mkSeg (g_at s) (g_end s) true].
Definition fits (size : Z) (s : Seg) : bool := negb (g_used s) && (size <=? room s).
Fixpoint alloc_seg (size : Z) (ss : list Seg) : option (list Seg * Seg) :=
  match ss with
  | [] => None
  | s :: r => if fits size s then Some (cut size s ++ r, s)
              else match alloc_seg size r with Some (r, x) => Some (s :: r, x) | None => None end
  end.

Lemma alloc_seg_split size ss ss' s : alloc_seg size ss = Some (ss', s) ->
  exists l r, ss = l ++ s :: r /\ ss' = l ++ cut size s ++ r /\ fits size s = true.
Proof.
  revert ss'. induction ss as [|x r IH]; intros ss'; simpl; [done|]. destruct (fits size x) eqn:Ef.
  - intros [= <- <-]. by exists [], r.
  - destruct (alloc_seg size r) as [[r' y]|]; [|done]. intros [= <- <-]. destruct (IH _ eq_refl) as (l & t & -> & -> & Hf).
    by exists (x :: l), t.
Qed.
Lemma alloc_seg_none size ss s : alloc_seg size ss = None -> s ∈ ss -> fits size s = false.
Proof.
  induction ss as [|x r IH]; simpl; [by intros _ ?%elem_of_nil|]. destruct (fits size x) eqn:Ef; [done|].
  destruct (alloc_seg size r) as [[]|]; [done|]. intros _ [->|Hs]%elem_of_cons; [done|by apply IH].
Qed.
Lemma alloc_seg_used size l r : Forall (fun s => g_used s = true) l ->
  alloc_seg size (l ++ r) = match alloc_seg size r with Some (r, x) => Some (l ++ r, x) | None => None end.
Proof.
  induction 1 as [|s l Hs _ IH]; simpl; [by destruct (alloc_seg size r) as [[]|]|]. unfold fits. rewrite Hs, IH. simpl.
  by destruct (alloc_seg size r) as [[]|].
Qed.

Lemma first_free_split a ss : tiles a ss MEM_SIZE_ALIGNED -> exists l r, ss = l ++ r /\
  Forall (fun s => g_used s = true) l /\ tiles a l (first_free ss) /\ tiles (first_free ss) r MEM_SIZE_ALIGNED.
Proof.
  revert a. induction ss as [|s r IH]; intros a; simpl.
  - intros ->. by exists [], [].
  - intros (<- & Hs & Ht). destruct (g_used s) eqn:Eu; [|by exists [], (s :: r)].
    destruct (IH _ Ht) as (l & t & -> & Hl & Ht1 & Ht2). exists (s :: l), t. by split_and!; [|constructor|split_and!|].
Qed.

(** The searching loop finds what first fit does. *)
Lemma mem_search_ok h size ss : 12 <= size <= MEM_SIZE_ALIGNED -> forall fuel a p, (length ss < fuel)%nat ->
  0 <= a -> tiles a ss MEM_SIZE_ALIGNED -> linked (hdrs h) p ss ->
  mem_search fuel size a h = Some (match alloc_seg size ss with Some (_, s) => Some (g_at s) | None => None end).
Proof.
  intros Hs. induction ss as [|s r IH]; intros fuel a p Hf Ha Ht Hl; (destruct fuel as [|fuel]; [simpl in Hf; lia|]); cbn [mem_search];
    rewrite u32_small by seg_lia; simpl in Ht.
  { subst a. by rewrite (proj2 (Z.ltb_ge _ _)) by seg_lia. }
  destruct Ht as (<- & Hok & Ht), Hl as [E Hl]. unfold ptr_to_mem. rewrite E. cbn [mbind option_bind alloc_seg m_used m_next].
  pose proof (segs_le _ _ _ Ht) as Hle. rewrite u32_small by seg_lia. unfold fits.
  assert ((g_end s - (g_at s + SIZEOF_STRUCT_MEM) >=? size) = (size <=? room s)) as -> by (rewrite Z.geb_leb; f_equal; seg_lia).
  destruct (Z.ltb_spec (g_at s) (MEM_SIZE_ALIGNED - size)) as [Hlt|Hge].
  - destruct (negb (g_used s) && (size <=? room s)); [done|]. rewrite (IH fuel (g_end s) (g_at s)); [|simpl in Hf; lia|seg_lia|done|done].
    by destruct (alloc_seg size r) as [[]|].
  - assert (forall t, t ∈ s :: r -> fits size t = false) as Hno.
    { intros t Htt. assert (g_at s <= g_at t /\ g_end t <= MEM_SIZE_ALIGNED) as [? ?].
      { apply elem_of_cons in Htt as [->|Htt]; [lia|]. destruct (segs_in _ _ _ _ Ht Htt) as (? & ? & ?). seg_lia. }
      unfold fits. rewrite (proj2 (Z.leb_gt _ _)) by seg_lia. apply andb_false_r. }
    fold (fits size s). rewrite (Hno s) by (by left).
    destruct (alloc_seg size r) as [[r' x]|] eqn:E'; [|done]. apply alloc_seg_split in E' as (l & t & -> & _ & Hx).
    rewrite Hno in Hx; [done|]. right. apply elem_of_app. right. by left.
Qed.

Lemma skip_used_ok h ss : forall fuel a p, (length ss < fuel)%nat -> tiles a ss MEM_SIZE_ALIGNED -> linked (hdrs h) p ss ->
  hdrs h !! MEM_SIZE_ALIGNED = Some end_mem -> skip_used fuel a h = Some (first_free ss).
Proof.
  induction ss as [|s r IH]; intros fuel a p Hf Ht Hl He; (destruct fuel as [|fuel]; [simpl in Hf; lia|]); cbn [skip_used]; unfold ptr_to_mem.
  { simpl in Ht. subst a. rewrite He. done. }
  destruct Ht as (<- & Hok & Ht), Hl as [E Hl]. rewrite E. cbn [mbind option_bind m_used m_next first_free].
  pose proof (segs_le _ _ _ Ht). destruct (Z.eqb_spec (g_at s) MEM_SIZE_ALIGNED); [seg_lia|].
  destruct (g_used s); [|done]. simpl. apply (IH fuel _ (g_at s)); [simpl in Hf; lia|done..].
Qed.

(** Telling the next block who precedes it. *)
Lemma set_prev_at_ok h b v q r : tiles b r MEM_SIZE_ALIGNED -> linked (hdrs h) q r -> exists h', set_prev_at b v h = Some h' /\
  lfree h' = lfree h /\ linked (hdrs h') v r /\
  (forall i, i < b -> hdrs h' !! i = hdrs h !! i) /\ hdrs h' !! MEM_SIZE_ALIGNED = hdrs h !! MEM_SIZE_ALIGNED.
Proof.
  intros Ht Hl. unfold set_prev_at. destruct r as [|n r]; simpl in Ht.
  { subst b. rewrite Z.eqb_refl. by exists h. }
  destruct Ht as (<- & Hok & Ht), Hl as [E Hl]. pose proof (segs_le _ _ _ Ht). unfold ptr_to_mem.
  destruct (Z.eqb_spec (g_at n) MEM_SIZE_ALIGNED); [seg_lia|]. rewrite E. cbn [negb mbind option_bind].
  eexists. split; [reflexivity|]. split; [done|]. split; [|split; [intros i Hi|]; simpl; apply lookup_insert_ne; seg_lia].
  split; [simpl; by rewrite lookup_insert_eq|]. apply (linked_frame (hdrs h)); [|done]. intros s Hs. simpl.
  destruct (segs_in _ _ _ _ Ht Hs) as (? & ? & ?). apply lookup_insert_ne. seg_lia.
Qed.

(** *** Replacing a segment keeps the order *)

Lemma pairs_app_l l r : no_free_pair (l ++ r) -> no_free_pair l.
Proof. induction l as [|s l IH]; simpl; [done|]. destruct l as [|x l]; [done|]. intros [? ?]. split; [done|by apply IH]. Qed.
Lemma pairs_app_r l r : no_free_pair (l ++ r) -> no_free_pair r.
Proof. induction l as [|s l IH]; simpl; [done|]. destruct (l ++ r) as [|x t] eqn:E; [by destruct l; simplify_eq/=|]. intros [_ ?]. by apply IH. Qed.
(** Neighbours of used segments do not matter. *)
Lemma pairs_join l s r : no_free_pair l -> g_used s = true -> no_free_pair r -> no_free_pair (l ++ s :: r).
Proof.
  induction l as [|x l IH]; intros Hl Hs Hr; simpl.
  - destruct r; [done|]. by split; [left|].
  - destruct l as [|y l]; simpl in *; [by split; [right|apply IH]|]. destruct Hl as [H1 Hl]. split; [done|]. by apply IH.
Qed.

Lemma tiles_cut size s e : seg_ok s -> fits size s = true -> MIN_SIZE_ALIGNED <= size -> size mod 4 = 0 -> g_end s = e ->
  tiles (g_at s) (cut size s) e.
Proof.
  intros Hs Hf Hm H4 <-. unfold fits in Hf. bool_to_prop. unfold cut. destruct (Z.leb_spec (size + SIZEOF_STRUCT_MEM + MIN_SIZE_ALIGNED) (room s)).
  - simpl. split; [done|]. split; [|split; [done|split; [|done]]].
    + unfold seg_ok, room, SIZEOF_STRUCT_MEM, MIN_SIZE_ALIGNED in *. simpl. Z.div_mod_to_equations. lia.
    + unfold seg_ok, room, SIZEOF_STRUCT_MEM, MIN_SIZE_ALIGNED in *. simpl. Z.div_mod_to_equations. lia.
  - simpl. split; [done|]. by split.
Qed.

Lemma first_free_app l r : Forall (fun s => g_used s = true) l -> first_free (l ++ r) = first_free r.
Proof. induction 1 as [|s l Hs _ IH]; simpl; [done|]. by rewrite Hs. Qed.
Lemma first_free_before l s r r' : g_used s = false -> first_free (l ++ s :: r) = first_free (l ++ s :: r').
Proof. intros Hs. induction l as [|x l IH]; simpl; [by rewrite Hs|]. by rewrite IH. Qed.

(** *** use_block *)

Lemma use_block_ok h size l s r : tiles 0 (l ++ s :: r) MEM_SIZE_ALIGNED -> linked (hdrs h) 0 (l ++ s :: r) ->
  fits size s = true -> MIN_SIZE_ALIGNED <= size -> size mod 4 = 0 ->
  exists h', use_block size (g_at s) h = Some h' /\ lfree h' = lfree h /\
    hdrs h' !! MEM_SIZE_ALIGNED = hdrs h !! MEM_SIZE_ALIGNED /\ linked (hdrs h') 0 (l ++ cut size s ++ r).
Proof.
  intros Ht Hl Hf Hm H4. apply segs_app in Ht as (a & Htl & <- & Hs & Htr). apply headers_app in Hl as [Hll [E Hlr]].
  pose proof (segs_le _ _ _ Htl) as Hle. pose proof (segs_le _ _ _ Htr) as Hre. unfold fits in Hf. bool_to_prop.
  assert (forall x, x ∈ l -> g_at x < g_at s) as Hxl by (intros x Hx; destruct (segs_in _ _ _ _ Htl Hx) as (? & ? & ?); seg_lia).
  unfold use_block, ptr_to_mem. rewrite E. cbn [mbind option_bind m_next m_prev].
  rewrite !u32_small by seg_lia. rewrite Z.geb_leb. unfold cut.
  assert ((size + SIZEOF_STRUCT_MEM + MIN_SIZE_ALIGNED <=? g_end s - (g_at s + SIZEOF_STRUCT_MEM)) =
    (size + SIZEOF_STRUCT_MEM + MIN_SIZE_ALIGNED <=? room s)) as -> by (f_equal; seg_lia).
  destruct (Z.leb_spec (size + SIZEOF_STRUCT_MEM + MIN_SIZE_ALIGNED) (room s)).
  - rewrite u16_small by seg_lia. set (p2 := g_at s + SIZEOF_STRUCT_MEM + size).
    set (h2 := put_mem (g_at s) _ _). assert (linked (hdrs h2) (g_at s) r) as Hlr2.
    { apply (linked_frame (hdrs h)); [|done]. intros x Hx. destruct (segs_in _ _ _ _ Htr Hx) as (? & ? & ?). simpl.
      rewrite !lookup_insert_ne by seg_lia. done. }
    destruct (set_prev_at_ok h2 (g_end s) p2 _ r Htr Hlr2) as (h' & -> & Hlf & Hl' & Hlow & Hend).
    exists h'. split; [done|]. split; [done|]. split; [rewrite Hend; simpl; rewrite !lookup_insert_ne by seg_lia; done|].
    apply headers_app. split; [|simpl; split; [|split; [|done]]].
    + apply (linked_frame (hdrs h)); [|done]. intros x Hx. pose proof (Hxl x Hx). rewrite Hlow by seg_lia. simpl.
      rewrite !lookup_insert_ne by seg_lia. done.
    + rewrite Hlow by seg_lia. simpl. apply lookup_insert_eq.
    + rewrite Hlow by seg_lia. simpl. rewrite lookup_insert_ne by seg_lia. apply lookup_insert_eq.
  - eexists. split; [reflexivity|]. split; [done|]. simpl. split; [rewrite lookup_insert_ne by seg_lia; done|].
    apply headers_app. split; [|simpl; split].
    + apply (linked_frame (hdrs h)); [|done]. intros x Hx. pose proof (Hxl x Hx). apply lookup_insert_ne. lia.
    + by rewrite lookup_insert_eq.
    + apply (linked_frame (hdrs h)); [|done]. intros x Hx. destruct (segs_in _ _ _ _ Htr Hx) as (? & ? & ?). apply lookup_insert_ne. seg_lia.
Qed.

(** The call: the segments afterwards and the segment that was used. *)
Definition malloc_seg (n : Z) (ss : list Seg) : option (list Seg * Seg) :=
  if n =? 0 then None else match block_size n with Some w => alloc_seg w ss | None => None end.

Lemma cut_used size s : exists x t, cut size s = x :: t /\ g_used x = true /\ g_at x = g_at s.
Proof. unfold cut. destruct (_ <=? _); by do 2 eexists. Qed.
Lemma cut_free_pair size s r : no_free_pair (s :: r) -> g_used s = false -> no_free_pair (cut size s ++ r).
Proof.
  intros Hp Hs. assert (no_free_pair r) as Hr by (by destruct r; [|destruct Hp]). unfold cut. destruct (_ <=? _); simpl.
  - split; [by left|]. destruct r as [|n r]; [done|]. destruct Hp as [[?|?] _]; [congruence|]. split; [by right|done].
  - destruct r; [done|]. by split; [left|].
Qed.

(** [lfree] when the first free segment was used. *)
Lemma first_free_cut size l s r : g_used s = false -> first_free (l ++ s :: r) <> g_at s ->
  tiles 0 (l ++ s :: r) MEM_SIZE_ALIGNED -> first_free (l ++ cut size s ++ r) = first_free (l ++ s :: r).
Proof.
  intros Hs Hne Ht. assert (exists y, y ∈ l /\ g_used y = false) as (y & Hy & Hyu).
  { destruct (decide (Forall (fun x => g_used x = true) l)) as [Hl|Hl]; [rewrite first_free_app in Hne by done; simpl in Hne; by rewrite Hs in Hne|].
    apply not_Forall_Exists in Hl; [|apply _]. apply Exists_exists in Hl as (y & Hy & Hu). exists y. split; [done|]. by apply not_true_is_false. }
  apply list_elem_of_split in Hy as (l1 & l2 & ->). rewrite <- !(assoc_L (++)). simpl. by apply first_free_before.
Qed.

(** Before the first free segment all are used. *)
Lemma first_free_le a l x r : tiles a (l ++ x :: r) MEM_SIZE_ALIGNED -> g_used x = false -> first_free (l ++ x :: r) <= g_at x.
Proof.
  intros Ht Hx. revert a Ht. induction l as [|y l IH]; intros a Ht; simpl; [by rewrite Hx|].
  destruct Ht as (_ & Hy & Ht). destruct (g_used y); [by apply (IH _ Ht)|].
  destruct (segs_in _ _ _ x Ht) as (? & _); [apply elem_of_app; right; by left|]. seg_lia.
Qed.
Lemma first_free_here l s r : tiles 0 (l ++ s :: r) MEM_SIZE_ALIGNED -> g_at s = first_free (l ++ s :: r) ->
  Forall (fun x => g_used x = true) l.
Proof.
  intros Ht Eq. apply Forall_forall. intros x Hx. destruct (g_used x) eqn:Ex; [done|exfalso].
  apply list_elem_of_split in Hx as (l1 & l2 & ->). rewrite <- (assoc_L (++)) in *. simpl in *.
  pose proof (first_free_le _ _ _ _ Ht Ex). apply segs_app in Ht as (a & _ & <- & Hok & Ht).
  destruct (segs_in _ _ _ s Ht) as (? & _); [apply elem_of_app; right; by left|]. seg_lia.
Qed.

Lemma mem_malloc_ok ram h ss n : heap_inv h ss -> 0 <= n < 65536 -> exists h',
  mem_malloc ram n h = Some (h', match malloc_seg n ss with Some (_, s) => ram + g_at s + SIZEOF_STRUCT_MEM | None => 0 end) /\
  heap_inv h' (match malloc_seg n ss with Some (ss', _) => ss' | None => ss end).
Proof.
  intros Hinv Hn. pose proof Hinv as [Ht Hl He Hp Hlf]. unfold mem_malloc, malloc_seg. destruct (Z.eqb_spec n 0); [by exists h|].
  pose proof (block_size_ok n ltac:(lia)) as Hw. destruct (block_size n) as [w|]; [|by exists h].
  pose proof (linked_size _ _ _ Ht Hl (mk_is_Some _ _ He)) as Hsz.
  destruct (first_free_split 0 ss Ht) as (u & r & Ess & Hu & Htu & Htr). rewrite Hlf.
  assert (linked (hdrs h) (last_at 0 u) r) as Hlr by (rewrite Ess in Hl; by apply headers_app in Hl as [_ ?]).
  rewrite (mem_search_ok h w r ltac:(seg_lia) (S (base.size (hdrs h))) _ _ ltac:(rewrite Ess, length_app in Hsz; simpl in Hsz; lia) (segs_le _ _ _ Htu) Htr Hlr).
  cbn [mbind option_bind]. assert (alloc_seg w ss = match alloc_seg w r with Some (r, x) => Some (u ++ r, x) | None => None end) as Ea
    by (rewrite Ess; by apply alloc_seg_used). rewrite Ea.
  destruct (alloc_seg w r) as [[r' s]|] eqn:Er; [|by exists h]. apply alloc_seg_split in Er as (l & t & Er1 & Er2 & Hfit).
  assert (ss = (u ++ l) ++ s :: t) as Es by (by rewrite Ess, Er1, (assoc_L (++))).
  assert (u ++ r' = (u ++ l) ++ cut w s ++ t) as Es' by (by rewrite Er2, <- (assoc_L (++))). rewrite Es'. set (l0 := u ++ l) in *.
  rewrite Es in Ht, Hl, Hp, Hlf, Hsz. destruct (use_block_ok h w l0 s t Ht Hl Hfit ltac:(lia) ltac:(lia)) as (h1 & -> & Hlf1 & He1 & Hl1).
  cbn [mbind option_bind]. rewrite He in He1. rewrite <- Es in Hlf. rewrite Hlf1, Hlf.
  assert (g_used s = false) as Hus by (unfold fits in Hfit; bool_to_prop; done).
  assert (tiles 0 (l0 ++ cut w s ++ t) MEM_SIZE_ALIGNED) as Ht1.
  { apply segs_app in Ht as (a & Ht0 & <- & Hs & Htt). apply segs_app. exists (g_at s). split; [done|]. apply segs_app. exists (g_end s).
    split; [by apply tiles_cut; try lia|done]. }
  assert (no_free_pair (l0 ++ cut w s ++ t)) as Hp1.
  { pose proof (cut_free_pair w s t (pairs_app_r _ _ Hp) Hus) as Hc. destruct (cut_used w s) as (x & c & Ec & Hxu & _). rewrite Ec in *.
    simpl in *. apply pairs_join; [by eapply pairs_app_l|done|]. by apply (pairs_app_r [x]). }
  destruct (Z.eqb_spec (g_at s) (first_free ss)) as [Eq|Hne].
  - pose proof (first_free_here l0 s t Ht ltac:(by rewrite <- Es)) as Hl0.
    destruct (segs_app 0 l0 (cut w s ++ t) MEM_SIZE_ALIGNED) as [Hsplit _]. destruct (Hsplit Ht1) as (a & Hta & Htb).
    assert (a = g_at s) as -> by (destruct (cut_used w s) as (x & c & Ec & _ & Hx); rewrite Ec in Htb; destruct Htb; congruence).
    apply headers_app in Hl1 as Hl1'. destruct Hl1' as [_ Hl1'].
    rewrite <- Eq, (skip_used_ok h1 (cut w s ++ t) _ _ (last_at 0 l0)); [| |done|done|done].
    2:{ rewrite length_app in Hsz |- *. simpl in Hsz. unfold cut. destruct (_ <=? _); simpl; lia. }
    cbn [mbind option_bind]. eexists. split; [reflexivity|]. split; try done. symmetry. by apply first_free_app.
  - eexists. split; [reflexivity|]. split; try done. rewrite Hlf1, Hlf, Es. symmetry. apply first_free_cut; [done| |done]. by rewrite <- Es.
Qed.

(** ** Freeing *)

(** Two free neighbours become one. *)
Definition glue (s : Seg) (r : list Seg) : list Seg :=
  match r with
  | n :: t => if negb (g_used s) && negb (g_used n) then mkSeg (g_at s) (g_end n) false :: t else s :: r
  | [] => [s]
  end.
Definition unused (s : Seg) : Seg := mkSeg (g_at s) (g_end s) false.
Fixpoint free_seg (i : Z) (ss : list Seg) : list Seg :=
  match ss with
  | [] => []
  | s :: r => if g_at s =? i then glue (unused s) r else glue s (free_seg i r)
  end.

(** The invariant but for free neighbours. *)
Record unplugged (h : MemHeap) (ss : list Seg) : Prop := mkUnplugged {
  un_tiles : tiles 0 ss MEM_SIZE_ALIGNED;
  un_linked : linked (hdrs h) 0 ss;
  un_end : hdrs h !! MEM_SIZE_ALIGNED = Some end_mem;
  un_lfree : lfree h = first_free ss
}.

Lemma first_free_merge l a b r : g_used a = false ->
  first_free (l ++ mkSeg (g_at a) (g_end b) false :: r) = first_free (l ++ a :: b :: r).
Proof. intros Ha. induction l as [|x l IH]; simpl; [by rewrite Ha|]. by rewrite IH. Qed.

Lemma merge_ok h l a b r : unplugged h (l ++ a :: b :: r) -> g_used a = false -> exists h',
  set_prev_at (g_end b) (g_at a) (drop_mem (g_at b) (put_mem (g_at a) (mkMem (g_end b) (last_at 0 l) false) h)) = Some h' /\
  unplugged h' (l ++ mkSeg (g_at a) (g_end b) false :: r).
Proof.
  intros [Ht Hl He Hlf] Ha. apply segs_app in Ht as (x & Htl & <- & Hoka & Eb & Hokb & Htr).
  apply headers_app in Hl as [Hll (Ea & Eb' & Hlr)]. pose proof (segs_le _ _ _ Htr) as Hre. pose proof (segs_le _ _ _ Htl).
  set (h2 := drop_mem _ _). assert (linked (hdrs h2) (g_at b) r) as Hlr2.
  { apply (linked_frame (hdrs h)); [|done]. intros x Hx. destruct (segs_in _ _ _ _ Htr Hx) as (? & ? & ?). simpl.
    rewrite lookup_delete_ne, lookup_insert_ne by seg_lia. done. }
  destruct (set_prev_at_ok h2 (g_end b) (g_at a) _ r Htr Hlr2) as (h' & -> & Hlf' & Hl' & Hlow & Hend).
  exists h'. split; [done|]. split.
  - apply segs_app. exists (g_at a). split; [done|]. simpl. split; [done|]. split; [seg_lia|done].
  - apply headers_app. split; [|simpl; split; [|done]].
    + apply (linked_frame (hdrs h)); [|done]. intros x Hx. destruct (segs_in _ _ _ _ Htl Hx) as (? & ? & ?). rewrite Hlow by seg_lia. simpl.
      rewrite lookup_delete_ne, lookup_insert_ne by seg_lia. done.
    + rewrite Hlow by seg_lia. simpl. rewrite lookup_delete_ne by seg_lia. apply lookup_insert_eq.
  - rewrite Hend. simpl. rewrite lookup_delete_ne, lookup_insert_ne by seg_lia. done.
  - rewrite Hlf'. simpl. by rewrite first_free_merge.
Qed.

Lemma last_at_snoc z l p : last_at z (l ++ [p]) = g_at p.
Proof. revert z. induction l as [|x l IH]; intros z; simpl; [done|apply IH]. Qed.

Lemma plug_next_ok h l s r : unplugged h (l ++ s :: r) -> g_used s = false ->
  exists h', plug_next (g_at s) h = Some h' /\ unplugged h' (l ++ glue s r).
Proof.
  intros Hun Hs. pose proof Hun as [Ht Hl He Hlf]. pose proof (first_free_le _ _ _ _ Ht Hs) as Hff.
  apply segs_app in Ht as (x & Htl & <- & Hok & Htr). apply headers_app in Hl as [Hll [E Hlr]].
  unfold plug_next, ptr_to_mem. rewrite E. cbn [mbind option_bind m_next]. destruct r as [|n r]; simpl in Htr, Hlr.
  { rewrite Htr, He. cbn [mbind option_bind m_used end_mem]. rewrite andb_false_r. simpl. by exists h. }
  destruct Htr as (Egn & Hokn & Htr), Hlr as [En Hlr]. rewrite <- Egn, En. cbn [mbind option_bind m_used m_next].
  pose proof (segs_le _ _ _ Htr). rewrite (proj2 (Z.eqb_neq (g_at s) (g_at n))), (proj2 (Z.eqb_neq (g_at n) MEM_SIZE_ALIGNED)) by seg_lia.
  rewrite Hlf, (proj2 (Z.eqb_neq (first_free _) (g_at n))) by seg_lia. simpl. rewrite Hs. destruct (g_used n) eqn:Eu; simpl; [by exists h|].
  unfold set_m_next. simpl. by apply merge_ok.
Qed.

Lemma plug_prev_ok h l s r : unplugged h (l ++ s :: r) -> g_used s = false ->
  exists h', plug_prev (g_at s) h = Some h' /\
    unplugged h' (match last l with Some p => if g_used p then l ++ s :: r else removelast l ++ mkSeg (g_at p) (g_end s) false :: r | None => s :: r end).
Proof.
  intros Hun Hs. pose proof Hun as [Ht Hl He Hlf]. apply segs_app in Ht as (x & Htl & <- & Hok & Htr).
  apply headers_app in Hl as [Hll [E Hlr]]. unfold plug_prev, ptr_to_mem. rewrite E. cbn [mbind option_bind m_prev m_next].
  destruct l as [|p l _] using rev_ind.
  { simpl in Htl, E |- *. rewrite <- Htl in *. rewrite E. by exists h. }
  clear E. rewrite last_snoc, last_at_snoc, removelast_last. apply segs_app in Htl as (y & Htl & <- & Hokp & Ep). simpl in Ep.
  apply headers_app in Hll as [Hll [E _]]. rewrite E. cbn [mbind option_bind m_used].
  rewrite (proj2 (Z.eqb_neq (g_at p) (g_at s))) by seg_lia. simpl. destruct (g_used p) eqn:Eu; simpl; [by exists h|].
  rewrite <- (assoc_L (++)) in Hun. simpl in Hun. pose proof (first_free_le _ _ _ _ (un_tiles _ _ Hun) Eu) as Hff. rewrite <- (un_lfree _ _ Hun) in Hff.
  rewrite (proj2 (Z.eqb_neq (lfree h) (g_at s))) by seg_lia. unfold set_m_next. simpl. by apply merge_ok.
Qed.

(** What the two gluings make of the list. *)
Definition glued (l : list Seg) (s : Seg) (r : list Seg) : list Seg :=
  match last l with
  | Some p => if g_used p then l ++ s :: r else removelast l ++ mkSeg (g_at p) (g_end s) false :: r
  | None => s :: r
  end.
Definition starts_used_b (r : list Seg) : bool := match r with n :: _ => g_used n | [] => true end.
Definition starts_used (r : list Seg) : Prop := match r with n :: _ => g_used n = true | [] => True end.

Lemma glue_unused s r : g_used s = true -> no_free_pair (s :: r) ->
  exists s1 r1, glue (unused s) r = s1 :: r1 /\ g_at s1 = g_at s /\ g_used s1 = false /\ starts_used r1 /\ no_free_pair r1.
Proof.
  intros Hs Hp. destruct r as [|n t]; simpl; [by exists (unused s), []|]. destruct Hp as [_ Hp]. destruct (g_used n) eqn:En; simpl.
  - by exists (unused s), (n :: t).
  - exists (mkSeg (g_at s) (g_end n) false), t. split_and!; try done; destruct t as [|m t]; try done; destruct Hp as [[?|?] ?]; try done; congruence.
Qed.

Lemma free_seg_glued l s r s1 r1 : (forall x, x ∈ l -> g_at x <> g_at s) -> no_free_pair (l ++ s :: r) ->
  glue (unused s) r = s1 :: r1 -> g_used s1 = false -> free_seg (g_at s) (l ++ s :: r) = glued l s1 r1.
Proof.
  intros Hne Hp E Hs1. induction l as [|x l IH]; simpl; [by rewrite Z.eqb_refl|].
  rewrite (proj2 (Z.eqb_neq _ _)) by (apply Hne; by left). pose proof (pairs_app_r [x] (l ++ s :: r) Hp) as Hp'.
  rewrite IH; [|intros y Hy; apply Hne; by right|done]. destruct l as [|y l].
  { unfold glued. simpl. destruct (g_used x); simpl; [done|]. by rewrite Hs1. }
  unfold glued. change (last (x :: y :: l)) with (last (y :: l)). destruct (last (y :: l)) as [p|] eqn:El; [|by apply last_None in El].
  assert (g_used x = true \/ g_used y = true) as Hxy by (by destruct Hp). destruct (g_used p) eqn:Ep; simpl.
  - by destruct (g_used x), (g_used y), Hxy.
  - destruct l as [|z l]; simpl; [|by destruct (g_used x), (g_used y), Hxy].
    simpl in El. injection El as <-. destruct Hxy as [-> |?]; [done|congruence].
Qed.

Lemma pairs_snoc_used l x r : no_free_pair (l ++ [x]) -> g_used x = true -> no_free_pair r -> no_free_pair (l ++ x :: r).
Proof. intros Hl Hx Hr. apply pairs_join; [by eapply pairs_app_l|done|done]. Qed.
Lemma pairs_cons_free s r : starts_used r -> no_free_pair r -> no_free_pair (s :: r).
Proof. destruct r; simpl; [done|]. by split; [right|]. Qed.
Lemma pairs_last_used l p q : no_free_pair (l ++ [p]) -> last l = Some q -> g_used p = false -> g_used q = true.
Proof.
  intros H E Hp. destruct l as [|x l _] using rev_ind; [done|]. rewrite last_snoc in E. injection E as ->.
  rewrite <- (assoc_L (++)) in H. apply pairs_app_r in H. simpl in H. destruct H as [[?|?] _]; [done|congruence].
Qed.
Lemma pairs_mid l s r : no_free_pair l -> (forall p, last l = Some p -> g_used p = true) -> starts_used r -> no_free_pair r ->
  no_free_pair (l ++ s :: r).
Proof.
  intros Hl Hp Hs Hr. destruct l as [|x l _] using rev_ind; simpl; [by apply pairs_cons_free|].
  rewrite last_snoc in Hp. rewrite <- (assoc_L (++)). simpl. apply pairs_snoc_used; [done|by apply Hp|]. by apply pairs_cons_free.
Qed.
Lemma pairs_glued l s r : no_free_pair l -> starts_used r -> no_free_pair r -> no_free_pair (glued l s r).
Proof.
  intros Hl Hs Hr. unfold glued. destruct l as [|p l _] using rev_ind; simpl; [by apply pairs_cons_free|].
  rewrite last_snoc, removelast_last. destruct (g_used p) eqn:Ep.
  - apply pairs_mid; try done. rewrite last_snoc. by intros ? [= <-].
  - apply pairs_mid; try done; [by eapply pairs_app_l|]. intros q Hq. by eapply pairs_last_used.
Qed.

Lemma mem_link_valid_ok h l s r : unplugged h (l ++ s :: r) -> mem_link_valid (g_at s) h = Some true.
Proof.
  intros [Ht Hl He _]. apply segs_app in Ht as (x & Htl & <- & Hok & Htr). apply headers_app in Hl as [Hll [E Hlr]].
  pose proof (segs_le _ _ _ Htl). pose proof (segs_le _ _ _ Htr). unfold mem_link_valid, ptr_to_mem. rewrite E. cbn [mbind option_bind m_next m_prev].
  assert (0 <= last_at 0 l <= MEM_SIZE_ALIGNED) as Hla.
  { destruct l as [|p l _] using rev_ind; simpl; [seg_lia|]. rewrite last_at_snoc. destruct (segs_in _ _ _ p Htl) as (? & ? & ?); [apply elem_of_app; right; by left|]. seg_lia. }
  rewrite !Z.gtb_ltb, !(proj2 (Z.ltb_ge _ _)) by lia. cbn [orb].
  assert ((if negb (last_at 0 l =? g_at s) then hdrs h !! last_at 0 l ≫= λ pmem, Some (negb (m_next pmem =? g_at s)) else Some false) = Some false) as ->.
  { destruct l as [|p l _] using rev_ind; simpl; [simpl in Htl; by rewrite <- Htl|]. rewrite last_at_snoc.
    apply headers_app in Hll as [_ [Ep _]]. rewrite Ep. apply segs_app in Htl as (y & _ & _ & _ & Ee). simpl in Ee.
    destruct (negb _); [|done]. simpl. by rewrite Ee, Z.eqb_refl. }
  cbn [mbind option_bind]. destruct r as [|n r]; simpl in Htr, Hlr; [by rewrite Htr|]. destruct Htr as (Egn & _ & _), Hlr as [En _].
  rewrite <- Egn, En. destruct (negb _); [|done]. simpl. by rewrite Z.eqb_refl.
Qed.

(** Where lwIP's heap may be. *)
Definition ram_ok (ram : Z) : Prop := 0 < ram /\ ram + 32768 < 4294967296 /\ ram mod 4 = 0.

Lemma first_free_ge a ss : tiles a ss MEM_SIZE_ALIGNED -> a <= first_free ss.
Proof.
  revert a. induction ss as [|s r IH]; intros a; simpl; [lia|]. intros (<- & Hs & Ht%IH). destruct (g_used s); [seg_lia|lia].
Qed.
Lemma first_free_unused l s r : tiles 0 (l ++ s :: r) MEM_SIZE_ALIGNED -> g_used s = true ->
  first_free (l ++ unused s :: r) = if g_at s <? first_free (l ++ s :: r) then g_at s else first_free (l ++ s :: r).
Proof.
  intros Ht Hs. generalize 0, Ht. clear Ht. induction l as [|x l IH]; intros a; simpl.
  - rewrite Hs. intros (_ & Hok & Ht). pose proof (first_free_ge _ _ Ht). rewrite (proj2 (Z.ltb_lt _ _)) by seg_lia. done.
  - intros (_ & Hok & Ht). destruct (g_used x); [by apply (IH (g_end x))|].
    destruct (segs_in _ _ _ s Ht) as (? & _); [apply elem_of_app; right; by left|]. rewrite (proj2 (Z.ltb_ge _ _)) by seg_lia. done.
Qed.

(** The header of a used segment is rewritten. *)
Lemma unplugged_unuse h l s r : heap_inv h (l ++ s :: r) -> g_used s = true ->
  let h1 := put_mem (g_at s) (mkMem (g_end s) (last_at 0 l) false) h in
  unplugged (if g_at s <? lfree h1 then set_lfree (g_at s) h1 else h1) (l ++ unused s :: r).
Proof.
  intros [Ht Hl He _ Hlf] Hs h1. pose proof (first_free_unused l s r Ht Hs) as Hff.
  assert (lfree h1 = first_free (l ++ s :: r)) as -> by done. set (h2 := if g_at s <? _ then _ else _).
  assert (hdrs h2 = <[g_at s := mkMem (g_end s) (last_at 0 l) false]> (hdrs h)) as Eh by (subst h2; by destruct (_ <? _)).
  apply segs_app in Ht as (x & Htl & <- & Hok & Htr). apply headers_app in Hl as [Hll [E Hlr]]. pose proof (segs_le _ _ _ Htr).
  split.
  - apply segs_app. by exists (g_at s).
  - rewrite Eh. apply headers_app. split; [|simpl; split; [apply lookup_insert_eq|]].
    + apply (linked_frame (hdrs h)); [|done]. intros x Hx. destruct (segs_in _ _ _ _ Htl Hx) as (? & ? & ?). apply lookup_insert_ne. seg_lia.
    + apply (linked_frame (hdrs h)); [|done]. intros x Hx. destruct (segs_in _ _ _ _ Htr Hx) as (? & ? & ?). apply lookup_insert_ne. seg_lia.
  - rewrite Eh, lookup_insert_ne by seg_lia. done.
  - rewrite Hff. subst h2. destruct (g_at s <? first_free (l ++ s :: r)); [done|exact Hlf].
Qed.

Lemma land_3 z : Z.land z 3 = z mod 4.
Proof. change 3 with (Z.ones 2). by rewrite Z.land_ones. Qed.

Lemma mem_free_ok ram h l s r : ram_ok ram -> heap_inv h (l ++ s :: r) -> g_used s = true -> exists h',
  mem_free ram (ram + g_at s + SIZEOF_STRUCT_MEM) h = Some h' /\ heap_inv h' (free_seg (g_at s) (l ++ s :: r)).
Proof.
  intros (Hram0 & Hram & Hal) Hinv Hs. pose proof Hinv as [Ht Hl He Hp Hlf].
  destruct (segs_in _ _ _ s Ht) as (Hlo & Hok & Hhi); [apply elem_of_app; right; by left|].
  unfold mem_free. rewrite land_3. rewrite (proj2 (Z.eqb_neq _ 0)) by seg_lia.
  assert ((ram + g_at s + SIZEOF_STRUCT_MEM) mod 4 = 0) as -> by (unfold seg_ok, SIZEOF_STRUCT_MEM in *; Z.div_mod_to_equations; lia).
  replace (ram + g_at s + SIZEOF_STRUCT_MEM - SIZEOF_STRUCT_MEM) with (ram + g_at s) by lia.
  replace (ram + g_at s - ram) with (g_at s) by lia. change (0 =? 0) with true. cbn [negb].
  rewrite u32_small, u16_small, (proj2 (Z.ltb_ge _ _)) by seg_lia. rewrite Z.gtb_ltb, (proj2 (Z.ltb_ge _ _)) by seg_lia. cbn [orb].
  pose proof Hl as Hl'. apply headers_app in Hl' as [_ [E _]]. unfold ptr_to_mem at 1. rewrite E. cbn [mbind option_bind m_used]. rewrite Hs. cbn [negb].
  rewrite (mem_link_valid_ok h l s r) by (by split). cbn [mbind option_bind negb]. unfold set_m_used. cbn [m_next m_prev].
  pose proof (unplugged_unuse h l s r Hinv Hs) as Hun. cbv zeta in Hun. set (h1 := if _ <? _ then _ else _) in *.
  change (g_at s) with (g_at (unused s)) at 1. unfold plug_holes.
  destruct (plug_next_ok h1 l (unused s) r Hun eq_refl) as (h2 & -> & Hun2). cbn [mbind option_bind].
  destruct (glue_unused s r Hs (pairs_app_r _ _ Hp)) as (s1 & r1 & Eg & Ea & Hs1 & Hst & Hr1).
  rewrite Eg in Hun2. rewrite <- Ea in *. destruct (plug_prev_ok h2 l s1 r1 Hun2 Hs1) as (h3 & E3 & [Ht3 Hl3 He3 Hlf3]).
  change (g_at (unused s)) with (g_at s). rewrite <- Ea, E3. exists h3. split; [done|].
  rewrite Ea, (free_seg_glued l s r s1 r1) by (try done; intros x Hx Ex; apply segs_app in Ht as (a & Htl & <- & _); destruct (segs_in _ _ _ _ Htl Hx) as (? & ? & ?); seg_lia).
  split; try done. apply pairs_glued; [by eapply pairs_app_l|done..].
Qed.

(** ** Trimming *)

(** The bytes given back join the free segment behind, or become one. *)
Definition trim_cut (w : Z) (s : Seg) (r : list Seg) : list Seg :=
  let e := g_at s + SIZEOF_STRUCT_MEM + w in
  if w =? room s then s :: r
  else match r with
  | n :: t =>
    if g_used n then if w + SIZEOF_STRUCT_MEM + MIN_SIZE_ALIGNED <=? room s
                     then mkSeg (g_at s) e true :: mkSeg e (g_end s) false :: n :: t else s :: n :: t
    else mkSeg (g_at s) e true :: mkSeg e (g_end n) false :: t
  | [] => if w + SIZEOF_STRUCT_MEM + MIN_SIZE_ALIGNED <=? room s then [mkSeg (g_at s) e true; mkSeg e (g_end s) false] else [s]
  end.

(** The header of [s] is shortened and a free one for [x] is put behind it,
    where [x] ends where [r] starts. *)
Lemma shorten_ok h l s x r q : tiles 0 (l ++ mkSeg (g_at s) (g_at x) true :: x :: r) MEM_SIZE_ALIGNED -> g_used x = false ->
  linked (hdrs h) 0 l -> linked (hdrs h) q r -> hdrs h !! MEM_SIZE_ALIGNED = Some end_mem ->
  exists h', set_prev_at (g_end x) (g_at x) (put_mem (g_at s) (mkMem (g_at x) (last_at 0 l) true)
      (put_mem (g_at x) (mkMem (g_end x) (g_at s) false) h)) = Some h' /\ lfree h' = lfree h /\
    linked (hdrs h') 0 (l ++ mkSeg (g_at s) (g_at x) true :: x :: r) /\ hdrs h' !! MEM_SIZE_ALIGNED = Some end_mem.
Proof.
  intros Ht Hx Hll Hlr He. apply segs_app in Ht as (y & Htl & Ey & Hok & _ & Hokx & Htr). simpl in Ey. subst y. pose proof (segs_le _ _ _ Htr).
  set (h2 := put_mem _ _ _). assert (linked (hdrs h2) q r) as Hlr2.
  { apply (linked_frame (hdrs h)); [|done]. intros y Hy. destruct (segs_in _ _ _ _ Htr Hy) as (? & ? & ?). simpl.
    rewrite !lookup_insert_ne by seg_lia. done. }
  destruct (set_prev_at_ok h2 (g_end x) (g_at x) _ r Htr Hlr2) as (h' & -> & Hlf & Hl' & Hlow & Hend).
  exists h'. split; [done|]. split; [done|]. split; [|rewrite Hend; simpl; rewrite !lookup_insert_ne by seg_lia; done].
  apply headers_app. split; [|simpl; split; [|split; [|done]]].
  - apply (linked_frame (hdrs h)); [|done]. intros y Hy. destruct (segs_in _ _ _ _ Htl Hy) as (? & ? & ?). rewrite Hlow by seg_lia. simpl.
    rewrite !lookup_insert_ne by seg_lia. done.
  - rewrite Hlow by seg_lia. apply lookup_insert_eq.
  - rewrite Hlow by seg_lia. simpl. rewrite lookup_insert_ne by seg_lia. rewrite Hx. apply lookup_insert_eq.
Qed.

(** The first free segment after a used one was shortened. *)
Lemma first_free_shorten l s x r r' : tiles 0 (l ++ s :: r) MEM_SIZE_ALIGNED -> g_used s = true -> g_used x = false ->
  g_at s < g_at x -> (forall b, tiles b r MEM_SIZE_ALIGNED -> b = g_end s -> g_at x <= first_free r) ->
  first_free (l ++ mkSeg (g_at s) (g_at x) true :: x :: r') =
    if first_free (l ++ s :: r) <? g_at x then first_free (l ++ s :: r) else g_at x.
Proof.
  intros Ht Hs Hx Hlt Hr. generalize 0, Ht. clear Ht. induction l as [|y l IH]; intros a; simpl.
  - rewrite Hs, Hx. intros (_ & Hok & Ht). specialize (Hr _ Ht eq_refl). rewrite (proj2 (Z.ltb_ge _ _)) by lia. done.
  - intros (_ & Hok & Ht). destruct (g_used y); [by apply (IH (g_end y))|].
    destruct (segs_in _ _ _ s Ht) as (? & _); [apply elem_of_app; right; by left|]. rewrite (proj2 (Z.ltb_lt _ _)) by seg_lia. done.
Qed.

Lemma first_free_next l s n t : tiles 0 (l ++ s :: n :: t) MEM_SIZE_ALIGNED -> g_used s = true -> g_used n = false ->
  first_free (l ++ s :: n :: t) = g_at n \/ first_free (l ++ s :: n :: t) < g_at s.
Proof.
  intros Ht Hs Hn. generalize 0, Ht. clear Ht. induction l as [|y l IH]; intros a; simpl.
  - rewrite Hs, Hn. by left.
  - intros (_ & Hok & Ht). destruct (g_used y); [by apply (IH (g_end y))|]. right.
    destruct (segs_in _ _ _ s Ht) as (? & _); [apply elem_of_app; right; by left|]. seg_lia.
Qed.

(** The invariant after [shorten_ok]. *)
Lemma shorten_inv h0 h' l s x r : tiles 0 (l ++ mkSeg (g_at s) (g_at x) true :: x :: r) MEM_SIZE_ALIGNED -> no_free_pair l ->
  starts_used r -> no_free_pair r ->
  (lfree h' = lfree h0 /\ linked (hdrs h') 0 (l ++ mkSeg (g_at s) (g_at x) true :: x :: r) /\ hdrs h' !! MEM_SIZE_ALIGNED = Some end_mem) ->
  lfree h0 = first_free (l ++ mkSeg (g_at s) (g_at x) true :: x :: r) ->
  heap_inv h' (l ++ mkSeg (g_at s) (g_at x) true :: x :: r).
Proof.
  intros Ht Hpl Hst Hpr (Hlf & Hl & He) Hff. split; try done; [|by rewrite Hlf]. apply pairs_join; [done|done|]. by apply pairs_cons_free.
Qed.

Lemma trim_split h l s r w : heap_inv h (l ++ s :: r) -> g_used s = true -> starts_used r -> w mod 4 = 0 -> MIN_SIZE_ALIGNED <= w ->
  w + SIZEOF_STRUCT_MEM + MIN_SIZE_ALIGNED <= room s ->
  let p2 := g_at s + SIZEOF_STRUCT_MEM + w in let h1 := if p2 <? lfree h then set_lfree p2 h else h in
  exists h', set_prev_at (g_end s) p2 (put_mem (g_at s) (mkMem p2 (last_at 0 l) true) (put_mem p2 (mkMem (g_end s) (g_at s) false) h1)) = Some h' /\
    heap_inv h' (l ++ mkSeg (g_at s) p2 true :: mkSeg p2 (g_end s) false :: r).
Proof.
  intros [Ht Hl He Hp Hlf] Hs Hst H4 Hw Hr p2 h1. set (x := mkSeg p2 (g_end s) false).
  assert (hdrs h1 = hdrs h) as Eh by (subst h1; by destruct (_ <? _)).
  pose proof Ht as Ht0. apply segs_app in Ht as (a & Htl & <- & Hok & Htr). apply headers_app in Hl as [Hll [E Hlr]].
  assert (tiles 0 (l ++ mkSeg (g_at s) (g_at x) true :: x :: r) MEM_SIZE_ALIGNED) as Ht'.
  { apply segs_app. exists (g_at s). split; [done|]. pose proof Hok as (? & ? & ? & ?). split; [done|].
    split; [|split; [done|split; [|done]]]; (unfold seg_ok, x, p2; simpl; split_and!; [seg_lia|seg_lia| |]; unfold SIZEOF_STRUCT_MEM; Z.div_mod_to_equations; lia). }
  destruct (shorten_ok h1 l s x r (g_at s) Ht' eq_refl ltac:(by rewrite Eh) ltac:(by rewrite Eh) ltac:(by rewrite Eh)) as (h' & E' & Hrest).
  exists h'. split; [exact E'|]. apply (shorten_inv h1 h' l s x r Ht'); [by eapply pairs_app_l|done|by apply pairs_app_r, (pairs_app_r [s]) in Hp|done|].
  rewrite (first_free_shorten l s x r r Ht0 Hs eq_refl); [|seg_lia|intros b Hb ->; pose proof (first_free_ge _ _ Hb); seg_lia].
  subst h1. rewrite Hlf. simpl. destruct (Z.ltb_spec p2 (first_free (l ++ s :: r))), (Z.ltb_spec (first_free (l ++ s :: r)) p2); simpl; lia.
Qed.

Lemma trim_join h l s n t w : heap_inv h (l ++ s :: n :: t) -> g_used s = true -> g_used n = false -> w mod 4 = 0 -> MIN_SIZE_ALIGNED <= w ->
  w < room s ->
  let p2 := g_at s + SIZEOF_STRUCT_MEM + w in let h1 := if lfree h =? g_at n then set_lfree p2 h else h in
  exists h', set_prev_at (g_end n) p2 (put_mem (g_at s) (mkMem p2 (last_at 0 l) true) (put_mem p2 (mkMem (g_end n) (g_at s) false)
      (drop_mem (g_at n) h1))) = Some h' /\
    heap_inv h' (l ++ mkSeg (g_at s) p2 true :: mkSeg p2 (g_end n) false :: t).
Proof.
  intros [Ht Hl He Hp Hlf] Hs Hn H4 Hw Hr p2 h1. set (x := mkSeg p2 (g_end n) false).
  assert (hdrs h1 = hdrs h) as Eh by (subst h1; by destruct (_ =? _)).
  pose proof Ht as Ht0. apply segs_app in Ht as (a & Htl & <- & Hok & Egn & Hokn & Htr). apply headers_app in Hl as [Hll (E & En & Hlr)].
  pose proof (segs_le _ _ _ Htr).
  assert (tiles 0 (l ++ mkSeg (g_at s) (g_at x) true :: x :: t) MEM_SIZE_ALIGNED) as Ht'.
  { apply segs_app. exists (g_at s). split; [done|]. pose proof Hok as (? & ? & ? & ?). pose proof Hokn as (? & ? & ? & ?). split; [done|].
    split; [|split; [done|split; [|done]]]; (unfold seg_ok, x, p2; simpl; split_and!; [seg_lia|seg_lia| |]; unfold SIZEOF_STRUCT_MEM; Z.div_mod_to_equations; lia). }
  assert (forall q ss, linked (hdrs h) q ss -> (forall y, y ∈ ss -> g_at y <> g_at n) -> linked (hdrs (drop_mem (g_at n) h1)) q ss) as Hdrop.
  { intros q ss Hq Hne. apply (linked_frame (hdrs h)); [|done]. intros y Hy. simpl. rewrite Eh. apply lookup_delete_ne. intros Ey. by apply (Hne y Hy). }
  destruct (shorten_ok (drop_mem (g_at n) h1) l s x t (g_at n) Ht' eq_refl) as (h' & E' & Hrest).
  { apply Hdrop; [done|]. intros y Hy. destruct (segs_in _ _ _ _ Htl Hy) as (? & ? & ?). seg_lia. }
  { apply Hdrop; [done|]. intros y Hy. destruct (segs_in _ _ _ _ Htr Hy) as (? & ? & ?). seg_lia. }
  { simpl. rewrite Eh, lookup_delete_ne by seg_lia. done. }
  exists h'. split; [exact E'|]. pose proof (pairs_app_r _ _ Hp) as Hp2. apply (pairs_app_r [s]) in Hp2.
  assert (starts_used t /\ no_free_pair t) as [Hst Hpt] by (destruct t; [done|]; destruct Hp2 as [[?|?] ?]; [congruence|done]).
  apply (shorten_inv (drop_mem (g_at n) h1) h' l s x t Ht'); [by eapply pairs_app_l|done|done|done|].
  rewrite (first_free_shorten l s x (n :: t) t Ht0 Hs eq_refl); [|seg_lia|intros b Hb ->; pose proof (first_free_ge _ _ Hb); seg_lia].
  subst h1. rewrite Hlf. destruct (first_free_next l s n t Ht0 Hs Hn) as [Ef|Ef].
  - rewrite Ef, Z.eqb_refl, (proj2 (Z.ltb_ge _ _)) by seg_lia. done.
  - rewrite (proj2 (Z.eqb_neq _ _)), (proj2 (Z.ltb_lt _ _)) by seg_lia. done.
Qed.

Lemma mem_trim_ok ram h l s r n : ram_ok ram -> heap_inv h (l ++ s :: r) -> g_used s = true -> 0 < n < 65536 -> exists h',
  mem_trim ram (ram + g_at s + SIZEOF_STRUCT_MEM) n h =
    Some (h', match block_size n with Some w => if w <=? room s then ram + g_at s + SIZEOF_STRUCT_MEM else 0 | None => 0 end) /\
  heap_inv h' (l ++ match block_size n with Some w => if w <=? room s then trim_cut w s r else s :: r | None => s :: r end).
Proof.
  intros (Hram0 & Hram & Hal) Hinv Hs Hn. pose proof Hinv as [Ht Hl He Hp Hlf]. pose proof (block_size_ok n Hn) as Hw.
  unfold mem_trim. unfold block_size in *.
  set (w := if u16 (LWIP_MEM_ALIGN_SIZE n) <? MIN_SIZE_ALIGNED then MIN_SIZE_ALIGNED else u16 (LWIP_MEM_ALIGN_SIZE n)) in *.
  destruct ((w >? MEM_SIZE_ALIGNED) || (w <? n)); [by exists h|].
  assert (exists a, tiles 0 l a /\ a = g_at s /\ seg_ok s /\ tiles (g_end s) r MEM_SIZE_ALIGNED) as (a & Htl & -> & Hok & Htr)
    by (apply segs_app in Ht as (a & ? & <- & ? & ?); by exists (g_at s)).
  apply headers_app in Hl as [Hll [E Hlr]]. pose proof (segs_le _ _ _ Htr) as Hhi. pose proof (segs_le _ _ _ Htl) as Hlo.
  rewrite Z.geb_leb, (proj2 (Z.ltb_ge _ _)), (proj2 (Z.leb_gt _ _)) by seg_lia. cbn [orb].
  replace (ram + g_at s + SIZEOF_STRUCT_MEM - SIZEOF_STRUCT_MEM - ram) with (g_at s) by lia.
  rewrite (u16_small (g_at s)) by seg_lia. unfold ptr_to_mem. rewrite E. cbn [mbind option_bind m_next].
  rewrite (u16_small (g_end s - g_at s)) by seg_lia. change (g_end s - g_at s - SIZEOF_STRUCT_MEM) with (room s).
  rewrite (u16_small (room s)) by seg_lia. rewrite Z.gtb_ltb. destruct (Z.ltb_spec (room s) w), (Z.leb_spec w (room s)); try lia; [by exists h|].
  unfold trim_cut. destruct (Z.eqb_spec w (room s)); [by exists h|].
  rewrite (u16_small (g_at s + SIZEOF_STRUCT_MEM + w)), (u32_small (w + _ + _)) by seg_lia. set (p2 := g_at s + SIZEOF_STRUCT_MEM + w).
  pose proof (trim_split h l s r w Hinv Hs) as Hsplit. cbv zeta in Hsplit. fold p2 in Hsplit. destruct r as [|n2 t].
  - simpl in Htr. rewrite Htr in *. rewrite He. cbn [mbind option_bind m_used end_mem negb].
    destruct (Z.leb_spec (w + SIZEOF_STRUCT_MEM + MIN_SIZE_ALIGNED) (room s)); [|by exists h].
    destruct (Hsplit I) as (h' & E' & Hinv'); [lia..|]. unfold set_m_next. cbn [m_prev m_used]. rewrite Hs, E'. by exists h'.
  - destruct Htr as (Egn & Hokn & Htr), Hlr as [En Hlr]. rewrite <- Egn in *. rewrite En. cbn [mbind option_bind m_used m_next].
    destruct (g_used n2) eqn:Eu; cbn [negb].
    + destruct (Z.leb_spec (w + SIZEOF_STRUCT_MEM + MIN_SIZE_ALIGNED) (room s)); [|by exists h].
      destruct (Hsplit Eu) as (h' & E' & Hinv'); [lia..|]. unfold set_m_next. cbn [m_prev m_used]. rewrite Hs, E'. by exists h'.
    + destruct (trim_join h l s n2 t w Hinv Hs Eu) as (h' & E' & Hinv'); [lia..|]. fold p2 in E'. unfold set_m_next. cbn [m_prev m_used].
      rewrite Hs, E'. by exists h'.
Qed.

(** ** What the users of the heap see

    The blocks in use, with the number of bytes each has. *)

Inductive mem_op := MAlloc (n : Z) | MFree (p : Z) | MTrim (p n : Z).

Section users.
Context (ram : Z).

Definition run_mem (op : mem_op) (h : MemHeap) : option (MemHeap * Z) :=
  match op with
  | MAlloc n => mem_malloc ram n h
  | MFree p => h ← mem_free ram p h; Some (h, 0)
  | MTrim p n => mem_trim ram p n h
  end.

(** The least room for [n] bytes. *)
Definition rounded (n : Z) : Z := Z.max MIN_SIZE_ALIGNED (4 * ((n + 3) / 4)).
(** [v] bytes at [p], with a header, clear of the blocks in use. *)
Definition clear_of (bs : gmap Z Z) (p v : Z) : Prop :=
  ram + SIZEOF_STRUCT_MEM <= p /\ p + v <= ram + MEM_SIZE_ALIGNED /\ p mod 4 = 0 /\
  forall q u, bs !! q = Some u -> q + u + SIZEOF_STRUCT_MEM <= p \/ p + v + SIZEOF_STRUCT_MEM <= q.

Inductive spec_mem : mem_op -> gmap Z Z -> gmap Z Z -> Z -> Prop :=
| SAlloc n p v bs : 0 < n -> rounded n <= v < rounded n + 20 -> clear_of bs p v -> spec_mem (MAlloc n) bs (<[p := v]> bs) p
| SNoRoom n bs : n = 0 \/ (forall p, ~ clear_of bs p (rounded n)) -> spec_mem (MAlloc n) bs bs 0
| SFree p v bs : bs !! p = Some v -> spec_mem (MFree p) bs (delete p bs) 0
| STrim p n v v' bs : bs !! p = Some v -> rounded n <= v' <= v -> v' < rounded n + 20 -> spec_mem (MTrim p n) bs (<[p := v']> bs) p
| STrimNot p n v bs : bs !! p = Some v -> v < rounded n -> spec_mem (MTrim p n) bs bs 0.

Definition may_mem (op : mem_op) (bs : gmap Z Z) : Prop :=
  match op with
  | MAlloc n => 0 <= n < 65536
  | MFree p => is_Some (bs !! p)
  | MTrim p n => is_Some (bs !! p) /\ 0 < n < 65536
  end.

(** The blocks are the used segments. *)
Definition block_of (s : Seg) : Z := ram + g_at s + SIZEOF_STRUCT_MEM.
Definition blocks (ss : list Seg) (bs : gmap Z Z) : Prop :=
  forall p v, bs !! p = Some v <-> exists s, s ∈ ss /\ g_used s = true /\ p = block_of s /\ v = room s.
Definition mem_rep (bs : gmap Z Z) (h : MemHeap) : Prop := exists ss, heap_inv h ss /\ blocks ss bs.

(** *** Segments and blocks *)

Lemma segs_inj a ss e s t : tiles a ss e -> s ∈ ss -> t ∈ ss -> g_at s = g_at t -> s = t.
Proof.
  revert a. induction ss as [|x r IH]; intros a; simpl; [by intros _ ?%elem_of_nil|].
  intros (_ & Hx & Ht) [->|Hs]%elem_of_cons [->|Htt]%elem_of_cons E; [done| | |by eapply IH].
  - destruct (segs_in _ _ _ _ Ht Htt) as (? & _). seg_lia.
  - destruct (segs_in _ _ _ _ Ht Hs) as (? & _). seg_lia.
Qed.

(** Two segments do not overlap. *)
Lemma tiles_apart a ss e s t : tiles a ss e -> s ∈ ss -> t ∈ ss -> g_at s <> g_at t -> g_end s <= g_at t \/ g_end t <= g_at s.
Proof.
  revert a. induction ss as [|x r IH]; intros a; simpl; [by intros _ ?%elem_of_nil|].
  intros (_ & Hx & Ht) [->|Hs]%elem_of_cons [->|Htt]%elem_of_cons E; [done| | |by eapply IH].
  - destruct (segs_in _ _ _ _ Ht Htt) as (? & _). by left.
  - destruct (segs_in _ _ _ _ Ht Hs) as (? & _). by right.
Qed.

(** The segment at an address. *)
Lemma tiles_at a ss e z : tiles a ss e -> a <= z < e -> exists l s r, ss = l ++ s :: r /\ g_at s <= z < g_end s.
Proof.
  revert a. induction ss as [|x r IH]; intros a; simpl; [lia|]. intros (<- & Hx & Ht) Hz.
  destruct (decide (z < g_end x)); [exists [], x, r; split; [done|lia]|]. destruct (IH _ Ht) as (l & s & t & -> & Hs); [lia|]. by exists (x :: l), s, t.
Qed.

(** A gap between the blocks lies in one free segment. *)
Lemma gap_fits ss bs p w : tiles 0 ss MEM_SIZE_ALIGNED -> no_free_pair ss -> blocks ss bs -> 0 <= w -> clear_of bs p w ->
  exists s, s ∈ ss /\ g_used s = false /\ w <= room s.
Proof.
  intros Ht Hp Hbs Hw (Hlo & Hhi & _ & Hapart). set (z := p - SIZEOF_STRUCT_MEM - ram).
  assert (forall s, s ∈ ss -> g_at s < z + SIZEOF_STRUCT_MEM + w -> z < g_end s -> g_used s = false) as Hfree.
  { intros s Hs H1 H2. destruct (g_used s) eqn:Eu; [exfalso|done]. assert (bs !! block_of s = Some (room s)) as E by (apply Hbs; by exists s).
    destruct (segs_in _ _ _ _ Ht Hs) as (_ & ? & _). apply Hapart in E as [?|?]; unfold block_of, z in *; seg_lia. }
  destruct (tiles_at _ _ _ z Ht) as (l & s & r & -> & Hs1 & Hs2); [unfold z; seg_lia|].
  assert (s ∈ l ++ s :: r) as Hin by (apply elem_of_app; right; by left).
  exists s. split; [done|]. assert (g_used s = false) as Hu by (apply Hfree; [done|unfold SIZEOF_STRUCT_MEM; lia|lia]). split; [done|].
  destruct (decide (z + SIZEOF_STRUCT_MEM + w <= g_end s)) as [?|Hlt]; [seg_lia|]. exfalso.
  apply pairs_app_r in Hp. apply segs_app in Ht as (a & _ & _ & _ & Ht). destruct r as [|n r]; simpl in Ht; [unfold z in *; seg_lia|].
  destruct Ht as (En & Hokn & _), Hp as [[?|Hn] _]; [congruence|]. rewrite Hfree in Hn; [done| |lia|unfold z in *; seg_lia].
  apply elem_of_app. right. right. by left.
Qed.

(** One used segment comes, changes or goes. *)
Lemma blocks_set ss ss' bs x : g_used x = true ->
  (forall t, g_used t = true -> (t ∈ ss' <-> t = x \/ (t ∈ ss /\ g_at t <> g_at x))) ->
  blocks ss bs -> blocks ss' (<[block_of x := room x]> bs).
Proof.
  intros Hx Hch Hbs p v. rewrite lookup_insert_Some, (Hbs p v). split.
  - intros [[<- <-]|[Hne (t & Ht & Hu & -> & ->)]]; [exists x; by split; [apply Hch; [|left]|]|].
    exists t. split; [apply Hch; [done|right; split; [done|]]|done]. intros E. apply Hne. unfold block_of. by rewrite E.
  - intros (t & Ht & Hu & -> & ->). apply Hch in Ht as [->|[Ht Hne]]; [by left| |done]. right. split; [unfold block_of; lia|by exists t].
Qed.
Lemma blocks_delete ss ss' bs i : (forall t, g_used t = true -> (t ∈ ss' <-> t ∈ ss /\ g_at t <> i)) ->
  blocks ss bs -> blocks ss' (delete (ram + i + SIZEOF_STRUCT_MEM) bs).
Proof.
  intros Hch Hbs p v. rewrite lookup_delete_Some, (Hbs p v). split.
  - intros [Hne (t & Ht & Hu & -> & ->)]. exists t. split; [apply Hch; [done|split; [done|]]|done]. intros E. apply Hne. unfold block_of. by rewrite E.
  - intros (t & Ht & Hu & -> & ->). apply Hch in Ht as [Ht Hne]; [|done]. split; [unfold block_of; lia|by exists t].
Qed.

Lemma glue_members s r t : g_used t = true -> (t ∈ glue s r <-> t ∈ s :: r).
Proof.
  intros Ht. destruct r as [|n r]; simpl; [done|]. destruct (g_used s) eqn:Es, (g_used n) eqn:En; simpl; try done.
  rewrite !elem_of_cons. split; [intros [->|?]; [done|by right; right]|]. intros [->|[->|?]]; [congruence|congruence|by right].
Qed.
Lemma free_seg_members i a ss e t : tiles a ss e -> g_used t = true -> (t ∈ free_seg i ss <-> t ∈ ss /\ g_at t <> i).
Proof.
  intros Ht Hu. revert a Ht. induction ss as [|s r IH]; intros a; simpl; [intros _; split; [by intros ?%elem_of_nil|by intros [?%elem_of_nil _]]|].
  intros (_ & Hs & Ht). destruct (Z.eqb_spec (g_at s) i) as [<-|Hne]; rewrite glue_members, !elem_of_cons by done.
  - split.
    + intros [->|Hr]; [done|]. split; [by right|]. destruct (segs_in _ _ _ _ Ht Hr) as (? & _). seg_lia.
    + intros [[->|?] ?]; [done|by right].
  - rewrite (IH _ Ht). split; [intros [->|[? ?]]|intros [[->|?] ?]]; auto.
Qed.
Lemma cut_members size s t : g_used t = true -> (t ∈ cut size s <->
  t = if size + SIZEOF_STRUCT_MEM + MIN_SIZE_ALIGNED <=? room s then mkSeg (g_at s) (g_at s + SIZEOF_STRUCT_MEM + size) true else mkSeg (g_at s) (g_end s) true).
Proof.
  intros Ht. unfold cut. destruct (_ <=? _); rewrite ?elem_of_cons, elem_of_nil; [|naive_solver]. split; [|naive_solver].
  intros [?|[->|[]]]; done.
Qed.
(** What stays of a trimmed segment. *)
Definition trimmed (w : Z) (s : Seg) (r : list Seg) : Seg :=
  if (w =? room s) || (starts_used_b r && (room s <? w + SIZEOF_STRUCT_MEM + MIN_SIZE_ALIGNED)) then s
  else mkSeg (g_at s) (g_at s + SIZEOF_STRUCT_MEM + w) true.
Lemma trim_cut_members w s r t : g_used t = true -> (t ∈ trim_cut w s r <-> t = trimmed w s r \/ t ∈ r).
Proof.
  intros Ht. unfold trim_cut, trimmed. destruct (w =? room s); [by rewrite elem_of_cons|].
  assert ((room s <? w + SIZEOF_STRUCT_MEM + MIN_SIZE_ALIGNED) = negb (w + SIZEOF_STRUCT_MEM + MIN_SIZE_ALIGNED <=? room s)) as -> by apply Z.ltb_antisym.
  destruct r as [|n r]; simpl; [|destruct (g_used n) eqn:En; simpl]; [destruct (_ <=? _); simpl..|]; rewrite !elem_of_cons, ?elem_of_nil;
    try (generalize (t ∈ r); intros P); intuition (subst; simpl in *; congruence).
Qed.
Lemma trimmed_ok w s r : g_used s = true -> w <= room s -> g_at (trimmed w s r) = g_at s /\ g_used (trimmed w s r) = true /\
  w <= room (trimmed w s r) <= room s /\ room (trimmed w s r) < w + 20.
Proof.
  intros Hu Hw. unfold trimmed. destruct (Z.eqb_spec w (room s)); simpl; [split_and!; try done; lia|].
  destruct (starts_used_b r); simpl; [|split_and!; try done; seg_lia].
  destruct (Z.ltb_spec (room s) (w + SIZEOF_STRUCT_MEM + MIN_SIZE_ALIGNED)); split_and!; try done; seg_lia.
Qed.

Lemma rounded_block n : 0 < n < 65536 -> match block_size n with Some w => w = rounded n | None => MEM_SIZE_ALIGNED < rounded n end.
Proof.
  intros Hn. pose proof (block_size_ok n Hn) as H. unfold rounded, MIN_SIZE_ALIGNED, MEM_SIZE_ALIGNED in *.
  destruct (block_size n) as [w|]; Z.div_mod_to_equations; lia.
Qed.

(** A segment in use is a block that the others are clear of. *)
Lemma segment_clear ss bs s x : ram_ok ram -> tiles 0 ss MEM_SIZE_ALIGNED -> blocks ss bs -> s ∈ ss -> (forall t, t ∈ ss -> g_at t = g_at s -> g_used t = false) ->
  g_at x = g_at s -> g_end x <= g_end s -> clear_of bs (block_of x) (room x).
Proof.
  intros (? & ? & ?) Ht Hbs Hs Hno Ex Hle. destruct (segs_in _ _ _ _ Ht Hs) as (? & Hok & ?). unfold block_of. split_and!.
  - seg_lia.
  - seg_lia.
  - unfold seg_ok, SIZEOF_STRUCT_MEM in *. rewrite Ex. Z.div_mod_to_equations. lia.
  - intros q u (t & Htt & Hu & -> & ->)%Hbs. destruct (decide (g_at t = g_at s)) as [E|E]; [rewrite (Hno t Htt E) in Hu; done|].
    destruct (tiles_apart _ _ _ _ _ Ht Hs Htt ltac:(done)); unfold block_of; seg_lia.
Qed.

Lemma mem_alloc_refines n bs h : ram_ok ram -> mem_rep bs h -> 0 <= n < 65536 -> call_refines run_mem spec_mem mem_rep (MAlloc n) bs h.
Proof.
  intros Hram (ss & Hinv & Hbs) Hm. pose proof (hi_tiles _ _ Hinv) as Ht. unfold call_refines, run_mem.
  destruct (mem_malloc_ok ram h ss n Hinv Hm) as (h' & -> & Hinv'). unfold malloc_seg in *. destruct (Z.eqb_spec n 0) as [->|Hn].
  { exists h', 0, bs. split; [done|]. split; [apply SNoRoom; by left|by exists ss]. }
  pose proof (rounded_block n ltac:(lia)) as Hw. pose proof (block_size_ok n ltac:(lia)) as Hbz. destruct (block_size n) as [w|].
  2:{ exists h', 0, bs. split; [done|]. split; [apply SNoRoom; right; intros p (? & ? & _); seg_lia|by exists ss]. }
  subst w. destruct (alloc_seg (rounded n) ss) as [[ss' s]|] eqn:E.
  2:{ exists h', 0, bs. split; [done|]. split; [apply SNoRoom; right; intros p Hc|by exists ss].
      destruct (gap_fits ss bs p (rounded n) Ht (hi_pairs _ _ Hinv) Hbs ltac:(lia) Hc) as (s & Hs & Hu & Hr).
      pose proof (alloc_seg_none _ _ s E Hs) as Hf. unfold fits in Hf. rewrite Hu, (proj2 (Z.leb_le _ _)) in Hf by done. done. }
  apply alloc_seg_split in E as (l & r & -> & -> & Hf). unfold fits in Hf. bool_to_prop.
  assert (s ∈ l ++ s :: r) as Hin by (apply elem_of_app; right; by left).
  destruct (segs_in _ _ _ _ Ht Hin) as (_ & Hok & _). set (x := if rounded n + SIZEOF_STRUCT_MEM + MIN_SIZE_ALIGNED <=? room s
    then mkSeg (g_at s) (g_at s + SIZEOF_STRUCT_MEM + rounded n) true else mkSeg (g_at s) (g_end s) true).
  assert (g_at x = g_at s /\ g_used x = true /\ g_end x <= g_end s /\ rounded n <= room x < rounded n + 20) as (Ex & Eu & El & Er).
  { subst x. destruct (Z.leb_spec (rounded n + SIZEOF_STRUCT_MEM + MIN_SIZE_ALIGNED) (room s)); split_and!; try done; seg_lia. }
  assert (forall t, t ∈ l ++ s :: r -> g_at t = g_at s -> g_used t = false) as Hno by (intros t Htt Et; by rewrite (segs_inj _ _ _ _ _ Ht Htt Hin Et)).
  exists h', (block_of x), (<[block_of x := room x]> bs). split; [unfold block_of; by rewrite Ex|]. split.
  + constructor; [lia|done|]. by eapply segment_clear.
  + exists (l ++ cut (rounded n) s ++ r). split; [done|]. eapply blocks_set; [done| |exact Hbs]. intros t Hut.
    rewrite !elem_of_app, cut_members, elem_of_cons by done. fold x. split.
    * intros [?|[->|?]]; [right|by left|right]; (split; [naive_solver|]); rewrite Ex; intros Et;
        (rewrite Hno in Hut; [done| |done]); rewrite elem_of_app, elem_of_cons; naive_solver.
    * intros [->|[[?|[->|?]] ?]]; [by right; left|by left|congruence|by right; right].
Qed.
Lemma mem_free_refines p bs h : ram_ok ram -> mem_rep bs h -> is_Some (bs !! p) -> call_refines run_mem spec_mem mem_rep (MFree p) bs h.
Proof.
  intros Hram (ss & Hinv & Hbs) Hm. pose proof (hi_tiles _ _ Hinv) as Ht. unfold call_refines, run_mem.
  destruct Hm as [v Hv]. destruct (proj1 (Hbs p v) Hv) as (s & Hs & Hu & -> & ->). apply list_elem_of_split in Hs as (l & r & ->).
  destruct (mem_free_ok ram h l s r Hram Hinv Hu) as (h' & E & Hinv'). unfold block_of in *. rewrite E. cbn [mbind option_bind].
  exists h', 0. eexists. split; [reflexivity|]. split; [by econstructor|]. exists (free_seg (g_at s) (l ++ s :: r)). split; [done|].
  eapply blocks_delete; [|exact Hbs]. intros t Hut. by eapply free_seg_members.
Qed.
Lemma mem_trim_refines p n bs h : ram_ok ram -> mem_rep bs h -> is_Some (bs !! p) /\ 0 < n < 65536 ->
  call_refines run_mem spec_mem mem_rep (MTrim p n) bs h.
Proof.
  intros Hram (ss & Hinv & Hbs) Hm. pose proof (hi_tiles _ _ Hinv) as Ht. unfold call_refines, run_mem.
  destruct Hm as [[v Hv] Hn]. destruct (proj1 (Hbs p v) Hv) as (s & Hs & Hu & -> & ->). apply list_elem_of_split in Hs as (l & r & ->).
  destruct (mem_trim_ok ram h l s r n Hram Hinv Hu Hn) as (h' & E & Hinv'). pose proof (rounded_block n Hn) as Hw.
  assert (s ∈ l ++ s :: r) as Hin by (apply elem_of_app; right; by left). destruct (segs_in _ _ _ _ Ht Hin) as (Hge & Hok & Hend).
  unfold block_of in *. rewrite E. destruct (block_size n) as [w|].
  2:{ exists h', 0, bs. split; [done|]. split; [eapply STrimNot; [done|seg_lia]|by exists (l ++ s :: r)]. }
  subst w. destruct (Z.leb_spec (rounded n) (room s)) as [Hle|Hgt].
  2:{ exists h', 0, bs. split; [done|]. split; [by econstructor|by exists (l ++ s :: r)]. }
  destruct (trimmed_ok (rounded n) s r Hu Hle) as (Ea & Eu & Hr1 & Hr2). set (x := trimmed (rounded n) s r) in *.
  exists h', (ram + g_at s + SIZEOF_STRUCT_MEM), (<[ram + g_at s + SIZEOF_STRUCT_MEM := room x]> bs).
  split; [done|]. split; [by econstructor|]. exists (l ++ trim_cut (rounded n) s r). split; [done|].
  rewrite <- Ea. eapply blocks_set; [done| |exact Hbs]. intros t Hut. rewrite !elem_of_app, trim_cut_members, elem_of_cons by done. fold x. rewrite Ea.
  assert (forall t, t ∈ l \/ t ∈ r -> g_at t <> g_at s) as Hne.
  { intros y Hy. apply segs_app in Ht as (a & Htl & <- & _ & Htr). destruct Hy as [Hy|Hy].
    - destruct (segs_in _ _ _ _ Htl Hy) as (? & ? & ?). seg_lia.
    - destruct (segs_in _ _ _ _ Htr Hy) as (? & ? & ?). seg_lia. }
  naive_solver.
Qed.

(** C28: lwIP's heap hands out disjoint blocks, and does not lose room.  Any
    client that allocates, gives back and shortens blocks it holds is answered
    without reading a header that is not there; a new block is aligned, large
    enough by less than 20 bytes, inside [ram] and clear of all blocks in use
    and their headers; NULL is answered only when no place between the blocks
    in use is large enough, so freed neighbours have merged and [lfree] hides
    nothing; a shortened block stays where it is. *)
Theorem mem_clients_refine n client past bs h : ram_ok ram -> mem_rep bs h -> behaves spec_mem may_mem n client past bs ->
  exists h' answers bs', run_client run_mem n client past h = Some (h', answers) /\
    spec_runs spec_mem client n past bs answers bs' /\ mem_rep bs' h'.
Proof.
  intros Hram. apply clients_refine. clear - Hram. intros [n|p|p n] bs h.
  - by apply mem_alloc_refines.
  - by apply mem_free_refines.
  - by apply mem_trim_refines.
Qed.
End users.
