(* ===== verification/MemSample.v ===== *)
(** * A client of lwIP's heap *)

From S2P Require Import Prelude Clients Mem MemSpec.
#[local] Open Scope Z_scope.

Definition sample_ram : Z := 0x20004000.

(** Allocates, shortens, allocates behind, gives the first back and asks for
    nearly everything. *)
Definition heap_user (past : list Z) : mem_op :=
  match past with
  | [p] => if p =? 0 then MAlloc 1 else MTrim p 20
  | [p; _] => MAlloc 50
  | [p; _; _] => if p =? 0 then MAlloc 1 else MFree p
  | [_; _; _; _] => MAlloc 16300
  | _ => MAlloc 100
  end.

Lemma mem_init_ok : heap_inv mem_init [mkSeg 0 MEM_SIZE_ALIGNED false].
Proof.
  split; [split; [done|split; [|done]]; vm_compute; intuition discriminate|split; [reflexivity|exact I]|reflexivity|exact I|reflexivity].
Qed.
Lemma mem_init_rep ram : mem_rep ram ∅ mem_init.
Proof.
  exists [mkSeg 0 MEM_SIZE_ALIGNED false]. split; [exact mem_init_ok|]. intros p v. rewrite lookup_empty. split; [done|].
  intros (s & [= ->]%list_elem_of_singleton & Hu & _). done.
Qed.

Lemma spec_mem_keeps ram op bs bs' a p : spec_mem ram op bs bs' a -> op <> MFree p -> is_Some (bs !! p) -> is_Some (bs' !! p).
Proof. intros [] Hne Hp; rewrite ?lookup_insert_is_Some', ?lookup_delete_is_Some; auto. split; [congruence|done]. Qed.
Lemma spec_mem_new ram n bs bs' a : spec_mem ram (MAlloc n) bs bs' a -> a = 0 \/ is_Some (bs' !! a).
Proof. inversion 1; subst; [right; by rewrite lookup_insert_eq|by left]. Qed.

Lemma heap_user_behaves : behaves (spec_mem sample_ram) may_mem 5 heap_user [] ∅.
Proof.
  split; [simpl; lia|]. intros b1 p R1. cbn. apply spec_mem_new in R1 as Hp.
  destruct (Z.eqb_spec p 0) as [->|Hne].
  { split; [simpl; lia|]. intros b2 a2 _. split; [simpl; lia|]. intros b3 a3 _. split; [simpl; lia|]. intros b4 a4 _. split; [simpl; lia|done]. }
  destruct Hp as [?|H1]; [done|]. split; [split; [done|lia]|]. intros b2 a2 R2. pose proof (spec_mem_keeps _ _ _ _ _ p R2 ltac:(done) H1) as H2.
  split; [simpl; lia|]. intros b3 a3 R3. pose proof (spec_mem_keeps _ _ _ _ _ p R3 ltac:(done) H2) as H3.
  split; [exact H3|]. intros b4 a4 R4. split; [simpl; lia|done].
Qed.

Lemma mem_clients_refine_witness : exists h' bs',
  run_client (run_mem sample_ram) 5 heap_user [] mem_init = Some (h', [0x20004008; 0x20004008; 0x20004024; 0; 0]) /\
  mem_rep sample_ram bs' h'.
Proof.
  assert (ram_ok sample_ram) as Hram by (vm_compute; intuition discriminate).
  destruct (mem_clients_refine sample_ram 5 heap_user [] ∅ mem_init Hram (mem_init_rep _) heap_user_behaves) as (h' & as' & bs' & E & _ & Hr).
  exists h', bs'. split; [|exact Hr]. rewrite E. apply (f_equal (option_map snd)) in E. vm_compute in E. injection E as <-. reflexivity.
Defined.
