(* ===== verification/LwipMem.v ===== *)
(** * What packet buffers ask of lwIP's memory

    Blocks of any size from the heap, and elements of the two pools of packet
    buffers.  mem.c and memp.c provide it. *)

From S2P Require Import Prelude Mem MemSpec.
#[local] Open Scope Z_scope.

Inductive Source := STD_HEAP | STD_MEMP_PBUF | STD_MEMP_PBUF_POOL.
#[export] Instance Source_eq_dec : EqDecision Source.
Proof. solve_decision. Defined.

(** Blocks in use: address, where from, number of bytes. *)
Abbreviation Blocks := (gmap Z (Source * Z)).

(** Blocks are above the first 64K of the address space.
    [lm_area]: the arrays that blocks are taken from, with their sizes. *)
Class LwipMem (H : Type) := mkLwipMem {
  lm_malloc : Z -> H -> option (H * Z);
  lm_free : Z -> H -> option H;
  lm_trim : Z -> Z -> H -> option (H * Z);
  lm_pool_malloc : Source -> H -> option (H * Z);
  lm_pool_free : Source -> Z -> H -> option H;
  lm_area : list (Z * Z);
  lm_owns : H -> Blocks -> Prop
}.

(** [v] bytes at [p] that no block in use overlaps. *)
Definition fresh_block (bs : Blocks) (p v : Z) : Prop :=
  0 < p /\ p + v < 4294967296 /\ p mod 4 = 0 /\ forall q s u, bs !! q = Some (s, u) -> q + u <= p \/ p + v <= q.

(** The bytes of an element of the pools (struct pbuf, PBUF_POOL_BUFSIZE). *)
Definition pool_size (s : Source) : Z := match s with STD_MEMP_PBUF_POOL => 16 + 1528 | _ => 16 end.

Class LwipMemOk (H : Type) `{LwipMem H} := {
  lm_inside h bs p s v : lm_owns h bs -> bs !! p = Some (s, v) -> 65536 <= p /\ p + v < 4294967296 /\ p mod 4 = 0 /\ 0 < v < 65536 /\
    exists a n, (a, n) ∈ lm_area /\ a <= p /\ p + v <= a + n;
  lm_apart h bs p s v q t u : lm_owns h bs -> bs !! p = Some (s, v) -> bs !! q = Some (t, u) -> p <> q -> q + u <= p \/ p + v <= q;
  lm_malloc_ok h bs n : lm_owns h bs -> 0 < n < 65536 -> exists h' p, lm_malloc n h = Some (h', p) /\
    ((p = 0 /\ lm_owns h' bs) \/ exists v, n <= v < n + 32 /\ fresh_block bs p v /\ lm_owns h' (<[p := (STD_HEAP, v)]> bs));
  lm_free_ok h bs p v : lm_owns h bs -> bs !! p = Some (STD_HEAP, v) -> exists h', lm_free p h = Some h' /\ lm_owns h' (delete p bs);
  lm_trim_ok h bs p v n : lm_owns h bs -> bs !! p = Some (STD_HEAP, v) -> 12 <= n <= v -> exists h' v', lm_trim p n h = Some (h', p) /\
    n <= v' <= v /\ lm_owns h' (<[p := (STD_HEAP, v')]> bs);
  lm_pool_malloc_ok h bs s : lm_owns h bs -> s <> STD_HEAP -> exists h' p, lm_pool_malloc s h = Some (h', p) /\
    ((p = 0 /\ lm_owns h' bs) \/ (fresh_block bs p (pool_size s) /\ lm_owns h' (<[p := (s, pool_size s)]> bs)));
  lm_pool_free_ok h bs s p v : lm_owns h bs -> s <> STD_HEAP -> bs !! p = Some (s, v) -> exists h', lm_pool_free s p h = Some h' /\ lm_owns h' (delete p bs)
}.

(** ** Pools

    [free] is the free list; the other elements are in use. *)

Definition in_pool (d : memp_desc) (p : Z) : Prop := exists i, 0 <= i < d_num d /\ p = d_base d + i * d_size d.
Fixpoint pool_linked (nx : gmap Z Z) (hd : Z) (free : list Z) : Prop :=
  match free with
  | [] => hd = 0
  | m :: r => hd = m /\ m <> 0 /\ exists n, nx !! m = Some n /\ pool_linked nx n r
  end.
Record pool_rep (d : memp_desc) (pl : Pool) (free : list Z) : Prop := mkPoolRep {
  pl_linked : pool_linked (memp_next pl) (tab pl) free;
  pl_nodup : NoDup free;
  pl_in : forall p, p ∈ free -> in_pool d p
}.

Lemma pool_linked_frame nx nx' hd free : (forall p, p ∈ free -> nx' !! p = nx !! p) -> pool_linked nx hd free -> pool_linked nx' hd free.
Proof.
  revert hd. induction free as [|m r IH]; intros hd He; simpl; [done|]. intros (-> & Hm & n & En & Hr). split; [done|]. split; [done|].
  exists n. rewrite He by (by left). split; [done|]. apply IH; [|done]. intros p Hp. apply He. by right.
Qed.

Lemma pool_malloc_rep d pl free : pool_rep d pl free ->
  exists pl', do_memp_malloc_pool pl = Some (pl', match free with [] => 0 | m :: _ => m end) /\ pool_rep d pl' (tail free) /\
    (forall m r, free = m :: r -> m <> 0).
Proof.
  intros [Hl Hn Hi]. unfold do_memp_malloc_pool. destruct free as [|m r]; simpl in Hl.
  - rewrite Hl. exists pl. split; [by destruct pl; simpl in *; subst|]. by split.
  - destruct Hl as (-> & Hm & n & En & Hr). rewrite (proj2 (Z.eqb_neq _ _)) by done. cbn [negb]. rewrite En. cbn [mbind option_bind].
    eexists. split; [reflexivity|]. apply NoDup_cons in Hn as [Hnr Hn]. split; [split; simpl; [|done|intros p Hp; apply Hi; by right]|by intros ? ? [= <- _]].
    apply (pool_linked_frame (memp_next pl)); [|done]. intros p Hp. apply lookup_delete_ne. by intros ->.
Qed.
Lemma pool_free_rep d pl free p : pool_rep d pl free -> in_pool d p -> p ∉ free -> p <> 0 -> pool_rep d (memp_free p pl) (p :: free).
Proof.
  intros [Hl Hn Hi] Hp Hf Hp0. unfold memp_free, do_memp_free_pool. rewrite (proj2 (Z.eqb_neq _ _)) by done. split; simpl.
  - split; [done|]. split; [done|]. exists (tab pl). split; [apply lookup_insert_eq|]. apply (pool_linked_frame (memp_next pl)); [|done].
    intros q Hq. apply lookup_insert_ne. by intros ->.
  - by constructor.
  - intros q [->|Hq]%elem_of_cons; [done|by apply Hi].
Qed.

(** Initialised, a pool has all its elements free. *)
Lemma link_elements_rep d n k pl free : 0 < d_size d -> 0 < d_base d -> 0 <= k -> k + Z.of_nat n <= d_num d -> pool_rep d pl free ->
  (forall p, p ∈ free <-> exists i, 0 <= i < k /\ p = d_base d + i * d_size d) ->
  exists free', pool_rep d (link_elements n (d_size d) (d_base d + k * d_size d) pl) free' /\
    (forall p, p ∈ free' <-> exists i, 0 <= i < k + Z.of_nat n /\ p = d_base d + i * d_size d).
Proof.
  intros Hs Hb. revert k pl free. induction n as [|n IH]; intros k pl free Hk Hn Hrep Hf; cbn [link_elements].
  { exists free. split; [done|]. by rewrite Z.add_0_r. }
  replace (d_base d + k * d_size d + d_size d) with (d_base d + (k + 1) * d_size d) by lia.
  set (m := d_base d + k * d_size d). assert (m ∉ free) as Hm by (intros (i & Hi & E)%Hf; unfold m in E; nia).
  assert (m <> 0) as Hm0 by (unfold m; nia).
  destruct (IH (k + 1) (mkPool m (<[m := tab pl]> (memp_next pl))) (m :: free)) as (free' & Hrep' & Hf').
  - lia.
  - lia.
  - pose proof (pool_free_rep d pl free m Hrep) as H. unfold memp_free in H. rewrite (proj2 (Z.eqb_neq _ _)) in H by done. apply H; [|done|done].
    exists k. split; [lia|done].
  - intros p. rewrite elem_of_cons, Hf. split.
    + intros [->|(i & Hi & ->)]; [exists k; split; [lia|done]|exists i; split; [lia|done]].
    + intros (i & Hi & ->). destruct (decide (i = k)) as [->|]; [by left|right; exists i; split; [lia|done]].
  - exists free'. split; [done|]. intros p. rewrite Hf'. split; intros (i & Hi & ->); exists i; (split; [lia|done]).
Qed.
Lemma memp_init_rep d : 0 < d_size d -> 0 < d_base d < 4294967293 -> d_base d mod 4 = 0 -> 0 <= d_num d ->
  exists free, pool_rep d (memp_init_pool d) free /\ forall p, p ∈ free <-> in_pool d p.
Proof.
  intros Hs Hb H4 Hn. unfold memp_init_pool. rewrite align_size by lia.
  replace (4 * ((d_base d + 3) / 4)) with (d_base d + 0 * d_size d) by (Z.div_mod_to_equations; lia).
  destruct (link_elements_rep d (Z.to_nat (d_num d)) 0 (mkPool 0 ∅) []) as (free & Hrep & Hf); [done|lia|lia|lia| | |].
  - split; [done|constructor|by intros ? ?%elem_of_nil].
  - intros p. split; [by intros ?%elem_of_nil|intros (i & Hi & _); lia].
  - exists free. split; [done|]. intros p. rewrite Hf, Z.add_0_l, Z2Nat.id by lia. done.
Qed.

(** ** mem.c and memp.c are such a memory *)

Record Memory := mkMemory { my_heap : MemHeap; my_pbufs : Pool; my_pool : Pool }.

Section instance.
Context (ram : Z) (pbufs pool : memp_desc).

Definition pool_of (s : Source) (m : Memory) : Pool := match s with STD_MEMP_PBUF_POOL => my_pool m | _ => my_pbufs m end.
Definition desc_of (s : Source) : memp_desc := match s with STD_MEMP_PBUF_POOL => pool | _ => pbufs end.
Definition set_pool (s : Source) (p : Pool) (m : Memory) : Memory :=
  match s with STD_MEMP_PBUF_POOL => mkMemory (my_heap m) (my_pbufs m) p | _ => mkMemory (my_heap m) p (my_pool m) end.
Definition set_heap (h : MemHeap) (m : Memory) : Memory := mkMemory h (my_pbufs m) (my_pool m).

Record memory_owns (m : Memory) (bs : Blocks) (hb : gmap Z Z) (free : Source -> list Z) : Prop := mkMemoryOwns {
  mo_heap : mem_rep ram hb (my_heap m);
  mo_pools : forall s, s <> STD_HEAP -> pool_rep (desc_of s) (pool_of s m) (free s);
  mo_blocks : forall p s v, (bs !! p = Some (s, v)) <->
    (if decide (s = STD_HEAP) then hb !! p = Some v else in_pool (desc_of s) p /\ (p ∉ free s) /\ v = pool_size s)
}.

Definition region (s : Source) : Z * Z :=
  match s with STD_HEAP => (ram, MEM_SIZE_ALIGNED + 32) | _ => (d_base (desc_of s), d_num (desc_of s) * d_size (desc_of s)) end.

Definition lwip_mem : LwipMem Memory := mkLwipMem Memory
  (fun n m => '(h, p) ← mem_malloc ram n (my_heap m); Some (set_heap h m, p))
  (fun p m => h ← mem_free ram p (my_heap m); Some (set_heap h m))
  (fun p n m => '(h, p) ← mem_trim ram p n (my_heap m); Some (set_heap h m, p))
  (fun s m => '(pl, p) ← do_memp_malloc_pool (pool_of s m); Some (set_pool s pl m, p))
  (fun s p m => Some (set_pool s (memp_free p (pool_of s m)) m))
  [region STD_HEAP; region STD_MEMP_PBUF; region STD_MEMP_PBUF_POOL]
  (fun m bs => exists hb free, memory_owns m bs hb free).

(** The arrays do not overlap; none is at the bottom of the address space. *)
Record memory_layout : Prop := mkMemoryLayout {
  ml_ram : ram_ok ram;
  ml_desc : forall s, s <> STD_HEAP -> 0 < d_base (desc_of s) /\ d_base (desc_of s) mod 4 = 0 /\ d_size (desc_of s) = pool_size s /\
    0 <= d_num (desc_of s) /\ d_base (desc_of s) + d_num (desc_of s) * d_size (desc_of s) < 4294967296;
  ml_high : forall s, 65536 <= (region s).1;
  ml_apart : forall s t, s <> t -> (region s).1 + (region s).2 <= (region t).1 \/ (region t).1 + (region t).2 <= (region s).1
}.
Context (HL : memory_layout).

Lemma mem_rep_inside hb h q u : mem_rep ram hb h -> hb !! q = Some u -> ram + 8 <= q /\ 12 <= u /\ q + u <= ram + MEM_SIZE_ALIGNED /\ q mod 4 = 0 /\ u mod 4 = 0.
Proof using HL.
  intros (ss & Hinv & Hbs) Hq. apply Hbs in Hq as (s & Hs & _ & -> & ->). destruct (segs_in _ _ _ _ (hi_tiles _ _ Hinv) Hs) as (? & Hok & ?).
  destruct HL as [(? & ? & ?) _ _ _]. unfold block_of, seg_ok, room, SIZEOF_STRUCT_MEM, MIN_SIZE_ALIGNED, MEM_SIZE_ALIGNED in *.
  split_and!; try lia; Z.div_mod_to_equations; lia.
Qed.
Lemma pool_size_pos s : 0 < pool_size s. Proof. by destruct s. Qed.
Lemma pool_inside s p : s <> STD_HEAP -> in_pool (desc_of s) p -> d_base (desc_of s) <= p /\ p + pool_size s <= d_base (desc_of s) + d_num (desc_of s) * d_size (desc_of s).
Proof using HL. intros Hs (i & Hi & ->). destruct (ml_desc HL s Hs) as (_ & _ & -> & _). pose proof (pool_size_pos s). nia. Qed.

Lemma block_inside m bs hb free p s v : memory_owns m bs hb free -> bs !! p = Some (s, v) ->
  (region s).1 <= p /\ p + v <= (region s).1 + (region s).2 /\ 0 < v.
Proof using HL.
  intros [Hh Hp Hb] E. apply Hb in E. case_decide as Hs; subst.
  - destruct (mem_rep_inside _ _ _ _ Hh E) as (? & ? & ? & _). simpl. lia.
  - destruct E as (Hin & _ & ->). pose proof (pool_inside s p Hs Hin) as [? ?]. pose proof (pool_size_pos s).
    destruct s; [done|simpl in *; lia..].
Qed.

(** New bytes in the region of [s], apart from its blocks, are apart from all. *)
Lemma fresh_in_region m bs hb free p s v : memory_owns m bs hb free -> 0 < p -> p + v < 4294967296 -> p mod 4 = 0 ->
  (region s).1 <= p -> p + v <= (region s).1 + (region s).2 ->
  (forall q u, bs !! q = Some (s, u) -> q + u <= p \/ p + v <= q) -> fresh_block bs p v.
Proof using HL.
  intros Ho H1 H2 H3 Hlo Hhi Hs. split_and!; try done. intros q t u E. destruct (decide (s = t)) as [<-|Hne]; [by eapply Hs|].
  destruct (block_inside _ _ _ _ _ _ _ Ho E) as (? & ? & _). destruct (ml_apart HL s t Hne); lia.
Qed.

(** Replacing the heap's part. *)
Lemma owns_set_heap m bs hb free h' hb' bs' : memory_owns m bs hb free -> mem_rep ram hb' h' ->
  (forall p s v, bs' !! p = Some (s, v) <-> (if decide (s = STD_HEAP) then hb' !! p = Some v else bs !! p = Some (s, v))) ->
  lm_owns (LwipMem := lwip_mem) (set_heap h' m) bs'.
Proof.
  intros [Hh Hp Hb] Hh' Hb'. exists hb', free. split; [done|intros s Hs; specialize (Hp s Hs); by destruct s|].
  intros p s v. rewrite Hb'. case_decide; [done|]. rewrite (Hb p s v). by rewrite decide_False.
Qed.
(** An address is a block of one kind only. *)
Lemma block_kind m bs hb free p s v : memory_owns m bs hb free -> (region s).1 <= p < (region s).1 + (region s).2 ->
  bs !! p = Some v -> v.1 = s.
Proof using HL.
  intros Ho Hp E. destruct v as [t u]. simpl. destruct (decide (s = t)) as [|Hne]; [done|]. exfalso.
  destruct (block_inside _ _ _ _ _ _ _ Ho E) as (? & ? & ?). destruct (ml_apart HL s t Hne); lia.
Qed.

#[local] Existing Instance lwip_mem.

Lemma heap_insert_owns m bs hb free h' p v : memory_owns m bs hb free -> mem_rep ram (<[p := v]> hb) h' ->
  lm_owns (set_heap h' m) (<[p := (STD_HEAP, v)]> bs).
Proof using HL.
  intros Ho Hh'. apply (owns_set_heap m bs hb free h' _ _ Ho Hh'). intros q s u. rewrite lookup_insert_Some.
  destruct (mem_rep_inside _ _ p v Hh' (lookup_insert_eq _ _ _)) as (Hlo & ? & Hhi & _). case_decide as Hs.
  - subst s. rewrite lookup_insert_Some, (mo_blocks _ _ _ _ Ho q STD_HEAP u). rewrite decide_True by done. naive_solver.
  - split; [naive_solver|]. intros E. right. split; [|done]. intros <-.
    pose proof (block_kind m bs hb free p STD_HEAP (s, u) Ho ltac:(simpl; lia) E). naive_solver.
Qed.

Lemma heap_malloc_ok m bs n : lm_owns m bs -> 0 < n < 65536 -> exists m' p, lm_malloc n m = Some (m', p) /\
  ((p = 0 /\ lm_owns m' bs) \/ exists v, n <= v < n + 32 /\ fresh_block bs p v /\ lm_owns m' (<[p := (STD_HEAP, v)]> bs)).
Proof using HL.
  intros (hb & free & Ho) Hn. destruct (mem_alloc_refines ram n hb _ (ml_ram HL) (mo_heap _ _ _ _ Ho)) as (h' & p & hb' & E & Hs & Hh'); [lia|].
  simpl in E |- *. rewrite E. cbn [mbind option_bind]. exists (set_heap h' m), p. split; [done|]. inversion Hs as [? ? v ? _ Hv Hc|? ? Hno|? ? ? ?|? ? ? ? ? ?|? ? ? ? ?]; subst.
  - right. exists v. pose proof (mem_rep_inside _ _ p v Hh' (lookup_insert_eq _ _ _)) as (? & ? & ? & ? & ?).
    destruct Hc as (Hlo & Hhi & H4 & Hapart). destruct (ml_ram HL) as (? & ? & ?). split; [unfold rounded, MIN_SIZE_ALIGNED in Hv; Z.div_mod_to_equations; lia|].
    split; [|by eapply heap_insert_owns]. unfold MEM_SIZE_ALIGNED, SIZEOF_STRUCT_MEM in *.
    eapply (fresh_in_region m bs hb free p STD_HEAP v Ho); simpl; unfold MEM_SIZE_ALIGNED; try lia.
    intros q u E'. apply (mo_blocks _ _ _ _ Ho) in E'. rewrite decide_True in E' by done. destruct (Hapart q u E'); lia.
  - left. split; [done|]. apply (owns_set_heap m bs hb' free h' _ _ Ho Hh'). intros q s u. case_decide; [|done]. subst.
    rewrite (mo_blocks _ _ _ _ Ho q STD_HEAP u). by rewrite decide_True.
Qed.

Lemma heap_free_ok m bs p v : lm_owns m bs -> bs !! p = Some (STD_HEAP, v) -> exists m', lm_free p m = Some m' /\ lm_owns m' (delete p bs).
Proof using HL.
  intros (hb & free & Ho) E0. pose proof E0 as E. apply (mo_blocks _ _ _ _ Ho) in E. rewrite decide_True in E by done.
  destruct (mem_free_refines ram p hb _ (ml_ram HL) (mo_heap _ _ _ _ Ho)) as (h' & a & hb' & Er & Hs & Hh'); [by eexists|].
  simpl in Er |- *. destruct (mem_free ram p (my_heap m)) as [h1|]; [|done]. cbn [mbind option_bind] in *. injection Er as -> <-.
  exists (set_heap h' m). split; [done|]. inversion Hs; subst. apply (owns_set_heap m bs _ free h' _ _ Ho Hh'). intros q s u. rewrite lookup_delete_Some.
  case_decide as Hk; [subst; rewrite lookup_delete_Some, (mo_blocks _ _ _ _ Ho q STD_HEAP u); by rewrite decide_True|].
  split; [naive_solver|]. intros E'. split; [|done]. intros <-. rewrite E0 in E'. naive_solver.
Qed.

Lemma heap_trim_ok m bs p v n : lm_owns m bs -> bs !! p = Some (STD_HEAP, v) -> 12 <= n <= v -> exists m' v', lm_trim p n m = Some (m', p) /\
  n <= v' <= v /\ lm_owns m' (<[p := (STD_HEAP, v')]> bs).
Proof using HL.
  intros (hb & free & Ho) E Hn. apply (mo_blocks _ _ _ _ Ho) in E. rewrite decide_True in E by done.
  pose proof (mem_rep_inside _ _ p v (mo_heap _ _ _ _ Ho) E) as (? & ? & ? & ? & ?). unfold MEM_SIZE_ALIGNED in *.
  destruct (mem_trim_refines ram p n hb _ (ml_ram HL) (mo_heap _ _ _ _ Ho)) as (h' & a & hb' & Er & Hs & Hh'); [split; [by eexists|lia]|].
  assert (n <= rounded n <= v) as Hr by (unfold rounded, MIN_SIZE_ALIGNED; Z.div_mod_to_equations; lia).
  simpl in Er |- *. rewrite Er. cbn [mbind option_bind]. inversion Hs as [| | |? ? v0 v' ? Hv0 Hv'|? ? v0 ? Hv0 ?]; subst; rewrite E in Hv0; injection Hv0 as <-; [|lia].
  exists (set_heap h' m), v'. split; [done|]. split; [lia|]. by eapply heap_insert_owns.
Qed.

(** The free lists of one pool and the blocks change together. *)
Lemma owns_set_pool m bs hb free s pl fr bs' : memory_owns m bs hb free -> s <> STD_HEAP -> pool_rep (desc_of s) pl fr ->
  (forall p t v, bs' !! p = Some (t, v) <->
    (if decide (t = s) then in_pool (desc_of s) p /\ (p ∉ fr) /\ v = pool_size s else bs !! p = Some (t, v))) ->
  lm_owns (set_pool s pl m) bs'.
Proof.
  intros [Hh Hp Hb] Hs Hpl Hb'. exists hb, (fun t => if decide (t = s) then fr else free t). split.
  - by destruct s.
  - intros t Ht. destruct (decide (t = s)) as [->|]; [by destruct s|]. specialize (Hp t Ht). by destruct s, t.
  - intros p t v. rewrite Hb'. destruct (decide (t = s)) as [->|]; [by rewrite decide_False|]. rewrite (Hb p t v). done.
Qed.

Lemma in_pool_block s q : s <> STD_HEAP -> in_pool (desc_of s) q -> (region s).1 <= q < (region s).1 + (region s).2.
Proof using HL.
  intros Hs Hq. pose proof (pool_inside s q Hs Hq) as [? ?]. pose proof (pool_size_pos s). destruct s; [done|simpl in *; lia..].
Qed.

Lemma pool_malloc_ok m bs s : lm_owns m bs -> s <> STD_HEAP -> exists m' p, lm_pool_malloc s m = Some (m', p) /\
  ((p = 0 /\ lm_owns m' bs) \/ (fresh_block bs p (pool_size s) /\ lm_owns m' (<[p := (s, pool_size s)]> bs))).
Proof using HL.
  intros (hb & free & Ho) Hs. pose proof (mo_pools _ _ _ _ Ho s Hs) as Hp.
  destruct (pool_malloc_rep _ _ _ Hp) as (pl' & E & Hrep & Hne). simpl. rewrite E. cbn [mbind option_bind].
  exists (set_pool s pl' m). eexists. split; [reflexivity|]. destruct Hp as [_ Hnd Hin]. destruct (free s) as [|p r] eqn:Ef; simpl in Hrep.
  { left. split; [done|]. apply (owns_set_pool m bs hb free s pl' [] bs Ho Hs Hrep). intros q t v. case_decide as Ht; [|done]. subst t.
    rewrite (mo_blocks _ _ _ _ Ho q s v), decide_False, Ef by done. done. }
  right. apply NoDup_cons in Hnd as [Hpr Hnd]. assert (in_pool (desc_of s) p) as Hip by (apply Hin; by left).
  pose proof (in_pool_block s p Hs Hip) as Hreg. pose proof (pool_inside s p Hs Hip) as [? ?]. pose proof (pool_size_pos s).
  destruct (ml_desc HL s Hs) as (Hd1 & Hd2 & Hd3 & Hd4 & Hd5). split.
  - apply (fresh_in_region m bs hb free p s (pool_size s) Ho); [lia|lia| |lia| |].
    + destruct Hip as (i & _ & ->). rewrite Hd3. clear - Hd2 Hs. destruct s; [done| |]; unfold pool_size; Z.div_mod_to_equations; lia.
    + destruct s; [done|simpl in *; lia..].
    + intros q u E'. apply (mo_blocks _ _ _ _ Ho) in E'. rewrite decide_False, Ef in E' by done. destruct E' as (Hiq & Hq & ->).
      destruct Hip as (i & _ & ->), Hiq as (j & _ & ->). rewrite Hd3 in *. assert (i <> j) by (intros ->; apply Hq; by left). nia.
  - apply (owns_set_pool m bs hb free s pl' r _ Ho Hs Hrep). intros q t v. rewrite lookup_insert_Some. case_decide as Ht.
    + subst t. rewrite (mo_blocks _ _ _ _ Ho q s v), decide_False, Ef, elem_of_cons by done. split.
      * intros [[-> [= <-]]|[Hqp (? & Hq & ->)]]; [done|]. split_and!; [done|tauto|done].
      * intros (Hiq & Hq & ->). destruct (decide (p = q)) as [->|]; [by left|]. right. split; [done|]. split_and!; [done|naive_solver|done].
    + split; [naive_solver|]. intros E'. right. split; [|done]. intros <-.
      pose proof (block_kind m bs hb free p s (t, v) Ho Hreg E'). naive_solver.
Qed.

Lemma pool_free_ok m bs s p v : lm_owns m bs -> s <> STD_HEAP -> bs !! p = Some (s, v) -> exists m', lm_pool_free s p m = Some m' /\ lm_owns m' (delete p bs).
Proof using HL.
  intros (hb & free & Ho) Hs E. pose proof E as E0. apply (mo_blocks _ _ _ _ Ho) in E0. rewrite decide_False in E0 by done. destruct E0 as (Hip & Hf & ->).
  pose proof (mo_pools _ _ _ _ Ho s Hs) as Hp. destruct (ml_desc HL s Hs) as (Hd1 & _). pose proof (pool_inside s p Hs Hip) as [? ?].
  simpl. eexists. split; [reflexivity|].
  apply (owns_set_pool m bs hb free s _ (p :: free s) _ Ho Hs); [apply pool_free_rep; try done; lia|]. intros q t u. rewrite lookup_delete_Some.
  case_decide as Ht.
  - subst t. rewrite (mo_blocks _ _ _ _ Ho q s u), decide_False, elem_of_cons by done. naive_solver.
  - split; [naive_solver|]. intros E'. split; [|done]. intros <-. rewrite E in E'. naive_solver.
Qed.

Lemma heap_blocks_apart hb h p v q u : mem_rep ram hb h -> hb !! p = Some v -> hb !! q = Some u -> p <> q -> q + u <= p \/ p + v <= q.
Proof.
  intros (ss & Hinv & Hbs) (s & Hs & _ & -> & ->)%Hbs (t & Ht & _ & -> & ->)%Hbs Hne. unfold block_of in *.
  assert (g_at s <> g_at t) as Hat by (intros E; apply Hne; by rewrite E).
  destruct (tiles_apart _ _ _ _ _ (hi_tiles _ _ Hinv) Hs Ht Hat); unfold room, SIZEOF_STRUCT_MEM; lia.
Qed.

Lemma blocks_apart m bs p s v q t u : lm_owns m bs -> bs !! p = Some (s, v) -> bs !! q = Some (t, u) -> p <> q -> q + u <= p \/ p + v <= q.
Proof using HL.
  intros (hb & free & Ho) Ep Eq Hne. destruct (decide (s = t)) as [<-|Hst].
  - apply (mo_blocks _ _ _ _ Ho) in Ep, Eq. case_decide as Hs; [by eapply heap_blocks_apart; [exact (mo_heap _ _ _ _ Ho)|..]|].
    destruct Ep as ((i & _ & ->) & _ & ->), Eq as ((j & _ & ->) & _ & ->). destruct (ml_desc HL s Hs) as (_ & _ & Hd & _). rewrite Hd in *.
    pose proof (pool_size_pos s). assert (i <> j) by (intros ->; done). nia.
  - destruct (block_inside _ _ _ _ _ _ _ Ho Ep) as (? & ? & ?), (block_inside _ _ _ _ _ _ _ Ho Eq) as (? & ? & ?).
    destruct (ml_apart HL s t Hst); lia.
Qed.

Lemma blocks_inside m bs p s v : lm_owns m bs -> bs !! p = Some (s, v) -> 65536 <= p /\ p + v < 4294967296 /\ p mod 4 = 0 /\ 0 < v < 65536 /\
  exists a n, (a, n) ∈ lm_area /\ a <= p /\ p + v <= a + n.
Proof using HL.
  intros (hb & free & Ho) E. destruct (block_inside _ _ _ _ _ _ _ Ho E) as (Hlo & Hhi & Hv).
  assert (0 < p /\ p + v < 4294967296 /\ p mod 4 = 0 /\ v < 65536) as (? & ? & ? & ?).
  { apply (mo_blocks _ _ _ _ Ho) in E. case_decide as Hs.
    - subst. destruct (mem_rep_inside _ _ _ _ (mo_heap _ _ _ _ Ho) E) as (? & ? & ? & ? & ?), (ml_ram HL) as (? & ? & ?). unfold MEM_SIZE_ALIGNED in *. lia.
    - destruct E as (Hip & _ & ->). pose proof (pool_inside s p Hs Hip) as [? ?]. destruct (ml_desc HL s Hs) as (? & Hd2 & Hd3 & ? & ?).
      split; [lia|]. split; [lia|]. split; [|by destruct s]. destruct Hip as (i & _ & ->). rewrite Hd3. clear - Hd2 Hs. destruct s; [done| |]; unfold pool_size; Z.div_mod_to_equations; lia. }
  split_and!; try done; [pose proof (ml_high HL s); lia|]. exists (region s).1, (region s).2. split; [|done]. simpl. destruct s; rewrite !elem_of_cons; auto.
Qed.

Lemma lwip_mem_ok : LwipMemOk Memory.
Proof using HL.
  split.
  - apply blocks_inside.
  - apply blocks_apart.
  - apply heap_malloc_ok.
  - apply heap_free_ok.
  - apply heap_trim_ok.
  - apply pool_malloc_ok.
  - apply pool_free_ok.
Qed.
End instance.
