(* ===== verification/Pbuf.v ===== *)
(** * pbuf.c: packet buffers

    The pbufs by address, the bytes of memory, and lwIP's memory ([LwipMem]).
    A payload is an address in the bytes.  [None] is the access of a pbuf that
    does not exist or of bytes that do not, or fuel that ran out.  Assertions
    of lwIP only print. *)

From S2P Require Import Prelude Bytes LwipErr Mem MemSpec LwipMem.
#[local] Open Scope Z_scope.

(** sizeof(struct pbuf), aligned. *)
Definition SIZEOF_STRUCT_PBUF : Z := 16.
Definition PBUF_POOL_BUFSIZE_ALIGNED : Z := LWIP_MEM_ALIGN_SIZE 1528.

(** pbuf_layer: the room for headers. *)
Definition PBUF_TRANSPORT : Z := 54.
Definition PBUF_IP : Z := 34.
Definition PBUF_LINK : Z := 14.
Definition PBUF_RAW_TX : Z := 0.
Definition PBUF_RAW : Z := 0.
(** pbuf_type. *)
Definition PBUF_RAM : Z := 0x280.
Definition PBUF_ROM : Z := 0x01.
Definition PBUF_REF : Z := 0x41.
Definition PBUF_POOL : Z := 0x182.
Definition PBUF_TYPE_FLAG_STRUCT_DATA_CONTIGUOUS : Z := 0x80.
Definition PBUF_TYPE_ALLOC_SRC_MASK : Z := 0x0F.
Definition PBUF_FLAG_IS_CUSTOM : Z := 0x02.

Record pbuf := mkPbuf {
  next : Z; payload : Z; tot_len : Z; len : Z; type_internal : Z; flags : Z; ref : Z; if_idx : Z
}.
Definition set_next (v : Z) (p : pbuf) : pbuf := mkPbuf v (payload p) (tot_len p) (len p) (type_internal p) (flags p) (ref p) (if_idx p).
Definition set_payload (v : Z) (p : pbuf) : pbuf := mkPbuf (next p) v (tot_len p) (len p) (type_internal p) (flags p) (ref p) (if_idx p).
Definition set_tot_len (v : Z) (p : pbuf) : pbuf := mkPbuf (next p) (payload p) v (len p) (type_internal p) (flags p) (ref p) (if_idx p).
Definition set_len (v : Z) (p : pbuf) : pbuf := mkPbuf (next p) (payload p) (tot_len p) v (type_internal p) (flags p) (ref p) (if_idx p).
Definition set_ref (v : Z) (p : pbuf) : pbuf := mkPbuf (next p) (payload p) (tot_len p) (len p) (type_internal p) (flags p) v (if_idx p).

Definition pbuf_get_allocsrc (p : pbuf) : Z := Z.land (type_internal p) PBUF_TYPE_ALLOC_SRC_MASK.
Definition contiguous (p : pbuf) : bool := negb (Z.land (type_internal p) PBUF_TYPE_FLAG_STRUCT_DATA_CONTIGUOUS =? 0).

(** [free_ooseq_pending]: a call of pbuf_free_ooseq is queued to the stack's thread. *)
Record Store (H : Type) := mkStore { pbufs : gmap Z pbuf; bytes : gmap Z Z; memory : H; free_ooseq_pending : bool }.
Arguments mkStore {H} _ _ _ _.
Arguments pbufs {H} _.
Arguments bytes {H} _.
Arguments memory {H} _.
Arguments free_ooseq_pending {H} _.

Section pbuf.
Context {H : Type} `{!LwipMem H}.
Abbreviation St := (Store H).
(** [custom_free_function] of pbufs that are not allocated here. *)
Context (custom_free_function : Z -> St -> option St).

Definition set_pbufs (v : gmap Z pbuf) (s : St) : St := mkStore v (bytes s) (memory s) (free_ooseq_pending s).
Definition set_bytes (v : gmap Z Z) (s : St) : St := mkStore (pbufs s) v (memory s) (free_ooseq_pending s).
Definition set_memory (v : H) (s : St) : St := mkStore (pbufs s) (bytes s) v (free_ooseq_pending s).
Definition set_pbuf (p : Z) (b : pbuf) (s : St) : St := set_pbufs (<[p := b]> (pbufs s)) s.
Definition get (p : Z) (s : St) : option pbuf := pbufs s !! p.
Definition upd (p : Z) (f : pbuf -> pbuf) (s : St) : option St := b ← get p s; Some (set_pbuf p (f b) s).

(** [MEMCPY] from and to a payload; the bytes have to exist. *)
Definition read_payload (a n : Z) (s : St) : option (list Z) := load_bytes a (Z.to_nat n) (bytes s).
Definition write_payload (a : Z) (bs : list Z) (s : St) : option St :=
  _ ← load_bytes a (length bs) (bytes s); Some (set_bytes (store_bytes a bs (bytes s)) s).

(** ** Freeing *)

(** Where the memory of a pbuf came from, if not from outside. *)
Definition source_of (p : pbuf) : option Source :=
  if pbuf_get_allocsrc p =? 0 then Some STD_HEAP
  else if pbuf_get_allocsrc p =? 1 then Some STD_MEMP_PBUF
  else if pbuf_get_allocsrc p =? 2 then Some STD_MEMP_PBUF_POOL else None.

Definition release (p : Z) (b : pbuf) (s : St) : option St :=
  if negb (Z.land (flags b) PBUF_FLAG_IS_CUSTOM =? 0) then custom_free_function p s
  else
    let s := set_pbufs (delete p (pbufs s)) s in
    match source_of b with
    | Some STD_HEAP => m ← lm_free p (memory s); Some (set_memory m s)
    | Some src => m ← lm_pool_free src p (memory s); Some (set_memory m s)
    | None => Some s
    end.

(** The loop of pbuf_free: the store and the number of pbufs freed. *)
Fixpoint free_chain (fuel : nat) (p count : Z) (s : St) : option (St * Z) :=
  match fuel with
  | O => None
  | S fuel =>
    if p =? 0 then Some (s, count) else
    b ← get p s;
    let r := u8 (ref b - 1) in
    let s := set_pbuf p (set_ref r b) s in
    if r =? 0 then s ← release p b s; free_chain fuel (next b) (u8 (count + 1)) s
    else Some (s, count)
  end.
Definition pbuf_free (p : Z) (s : St) : option (St * Z) := free_chain (S (base.size (pbufs s))) p 0 s.

(** ** Allocating *)

Definition pbuf_init_alloced_pbuf (p pay tlen ln type fl : Z) (s : St) : St :=
  set_pbuf p (mkPbuf 0 pay tlen ln (u8 type) fl 1 0) s.

Definition pbuf_pool_is_empty (s : St) : St := mkStore (pbufs s) (bytes s) (memory s) true.

Definition pbuf_alloc_reference (pay length type : Z) (s : St) : option (St * Z) :=
  '(m, p) ← lm_pool_malloc STD_MEMP_PBUF (memory s);
  let s := set_memory m s in
  Some (if p =? 0 then (s, 0) else (pbuf_init_alloced_pbuf p pay length length type 0 s, p)).

(** The loop for PBUF_POOL: [p] is the first pbuf, [last] the last. *)
Fixpoint alloc_pool (fuel : nat) (p last rem_len offset : Z) (s : St) : option (St * Z) :=
  match fuel with
  | O => None
  | S fuel =>
    '(m, q) ← lm_pool_malloc STD_MEMP_PBUF_POOL (memory s);
    let s := set_memory m s in
    if q =? 0 then
      let s := pbuf_pool_is_empty s in
      if negb (p =? 0) then '(s, _) ← pbuf_free p s; Some (s, 0) else Some (s, 0)
    else
      let qlen := Z.min rem_len (u16 (PBUF_POOL_BUFSIZE_ALIGNED - LWIP_MEM_ALIGN_SIZE offset)) in
      let s := pbuf_init_alloced_pbuf q (LWIP_MEM_ALIGN_SIZE (q + SIZEOF_STRUCT_PBUF + offset)) rem_len qlen PBUF_POOL 0 s in
      s ← (if p =? 0 then Some s else upd last (set_next q) s);
      let p := if p =? 0 then q else p in
      let rem_len := u16 (rem_len - qlen) in
      if rem_len >? 0 then alloc_pool fuel p q rem_len 0 s else Some (s, p)
  end.

Definition alloc_ram (offset length : Z) (s : St) : option (St * Z) :=
  let payload_len := u16 (LWIP_MEM_ALIGN_SIZE offset + LWIP_MEM_ALIGN_SIZE length) in
  let alloc_len := u16 (LWIP_MEM_ALIGN_SIZE SIZEOF_STRUCT_PBUF + payload_len) in
  if (payload_len <? LWIP_MEM_ALIGN_SIZE length) || (alloc_len <? LWIP_MEM_ALIGN_SIZE length) then Some (s, 0) else
  '(m, p) ← lm_malloc alloc_len (memory s);
  let s := set_memory m s in
  Some (if p =? 0 then (s, 0)
        else (pbuf_init_alloced_pbuf p (LWIP_MEM_ALIGN_SIZE (p + SIZEOF_STRUCT_PBUF + offset)) length length PBUF_RAM 0 s, p)).

Definition pbuf_alloc (layer length type : Z) (s : St) : option (St * Z) :=
  if (type =? PBUF_REF) || (type =? PBUF_ROM) then pbuf_alloc_reference 0 length type s
  else if type =? PBUF_POOL then alloc_pool (S (Z.to_nat length)) 0 0 length (u16 layer) s
  else if type =? PBUF_RAM then alloc_ram (u16 layer) length s
  else Some (s, 0).

Definition pbuf_alloced_custom (l length type p payload_mem payload_mem_len : Z) (s : St) : St * Z :=
  if LWIP_MEM_ALIGN_SIZE (u16 l) + length >? payload_mem_len then (s, 0)
  else
    let pay := if negb (payload_mem =? 0) then payload_mem + LWIP_MEM_ALIGN_SIZE (u16 l) else 0 in
    (pbuf_init_alloced_pbuf p pay length length type PBUF_FLAG_IS_CUSTOM s, p).

(** ** Shrinking *)

(** The loop that finds the new last pbuf. *)
Fixpoint realloc_walk (fuel : nat) (q rem_len shrink : Z) (s : St) : option (St * Z * Z) :=
  match fuel with
  | O => None
  | S fuel =>
    b ← get q s;
    if rem_len >? len b then
      realloc_walk fuel (next b) (u16 (rem_len - len b)) shrink (set_pbuf q (set_tot_len (u16 (tot_len b - shrink)) b) s)
    else Some (s, q, rem_len)
  end.
Definition realloc_trim (q rem_len : Z) (s : St) : option (St * Z) :=
  b ← get q s;
  if (pbuf_get_allocsrc b =? 0) && negb (rem_len =? len b) && (Z.land (flags b) PBUF_FLAG_IS_CUSTOM =? 0) then
    '(m, q) ← lm_trim q (u16 (payload b - q + rem_len)) (memory s); Some (set_memory m s, q)
  else Some (s, q).
Definition pbuf_realloc (p new_len : Z) (s : St) : option St :=
  b ← get p s;
  if new_len >=? tot_len b then Some s else
  '(s, q, rem_len) ← realloc_walk (S (base.size (pbufs s))) p new_len (u16 (tot_len b - new_len)) s;
  '(s, q) ← realloc_trim q rem_len s;
  s ← upd q (fun b => set_tot_len rem_len (set_len rem_len b)) s;
  b ← get q s;
  s ← (if negb (next b =? 0) then '(s, _) ← pbuf_free (next b) s; Some s else Some s);
  upd q (set_next 0) s.

(** ** Headers *)

Definition pbuf_add_header_impl (p header_size_increment : Z) (force : bool) (s : St) : option (St * Z) :=
  if (p =? 0) || (header_size_increment >? 0xFFFF) then Some (s, 1)
  else if header_size_increment =? 0 then Some (s, 0)
  else
    b ← get p s;
    let increment_magnitude := u16 header_size_increment in
    if u16 (increment_magnitude + tot_len b) <? increment_magnitude then Some (s, 1)
    else
      let pay := u32 (payload b - header_size_increment) in
      if (if contiguous b then pay <? p + SIZEOF_STRUCT_PBUF else negb force) then Some (s, 1)
      else Some (set_pbuf p (set_tot_len (u16 (tot_len b + increment_magnitude))
                   (set_len (u16 (len b + increment_magnitude)) (set_payload pay b))) s, 0).
Definition pbuf_add_header (p n : Z) (s : St) : option (St * Z) := pbuf_add_header_impl p n false s.
Definition pbuf_add_header_force (p n : Z) (s : St) : option (St * Z) := pbuf_add_header_impl p n true s.

Definition pbuf_remove_header (p header_size_decrement : Z) (s : St) : option (St * Z) :=
  if (p =? 0) || (header_size_decrement >? 0xFFFF) then Some (s, 1)
  else if header_size_decrement =? 0 then Some (s, 0)
  else
    b ← get p s;
    let increment_magnitude := u16 header_size_decrement in
    if negb (increment_magnitude <=? len b) then Some (s, 1)
    else Some (set_pbuf p (set_tot_len (u16 (tot_len b - increment_magnitude))
                 (set_len (u16 (len b - increment_magnitude)) (set_payload (u32 (payload b + header_size_decrement)) b))) s, 0).

Definition pbuf_header_impl (p n : Z) (force : bool) (s : St) : option (St * Z) :=
  if n <? 0 then pbuf_remove_header p (- n) s else pbuf_add_header_impl p n force s.
Definition pbuf_header (p n : Z) (s : St) : option (St * Z) := pbuf_header_impl p n false s.
Definition pbuf_header_force (p n : Z) (s : St) : option (St * Z) := pbuf_header_impl p n true s.

(** The loop of pbuf_free_header. *)
Fixpoint free_header (fuel : nat) (free_left p : Z) (s : St) : option (St * Z) :=
  match fuel with
  | O => None
  | S fuel =>
    if negb (free_left =? 0) && negb (p =? 0) then
      b ← get p s;
      if free_left >=? len b then
        s ← upd p (set_next 0) s;
        '(s, _) ← pbuf_free p s;
        free_header fuel (u16 (free_left - len b)) (next b) s
      else '(s, _) ← pbuf_remove_header p free_left s; Some (s, p)
    else Some (s, p)
  end.
Definition pbuf_free_header (q size : Z) (s : St) : option (St * Z) := free_header (S (base.size (pbufs s))) size q s.

(** ** Chains *)

Fixpoint chain_length (fuel : nat) (p n : Z) (s : St) : option Z :=
  match fuel with
  | O => None
  | S fuel => if p =? 0 then Some n else b ← get p s; chain_length fuel (next b) (u16 (n + 1)) s
  end.
Definition pbuf_clen (p : Z) (s : St) : option Z := chain_length (S (base.size (pbufs s))) p 0 s.

Definition pbuf_ref (p : Z) (s : St) : option St :=
  if negb (p =? 0) then upd p (fun b => set_ref (u8 (ref b + 1)) b) s else Some s.

(** The loop of pbuf_cat: all pbufs of [h] get the bytes of [t] more; the last one. *)
Fixpoint cat_walk (fuel : nat) (p t : Z) (s : St) : option (St * Z) :=
  match fuel with
  | O => None
  | S fuel =>
    b ← get p s;
    if negb (next b =? 0) then
      bt ← get t s; cat_walk fuel (next b) t (set_pbuf p (set_tot_len (u16 (tot_len b + tot_len bt)) b) s)
    else Some (s, p)
  end.
Definition pbuf_cat (h t : Z) (s : St) : option St :=
  if (h =? 0) || (t =? 0) then Some s
  else
    '(s, p) ← cat_walk (S (base.size (pbufs s))) h t s;
    b ← get p s; bt ← get t s;
    Some (set_pbuf p (set_next t (set_tot_len (u16 (tot_len b + tot_len bt)) b)) s).
Definition pbuf_chain (h t : Z) (s : St) : option St := s ← pbuf_cat h t s; pbuf_ref t s.

Definition pbuf_dechain (p : Z) (s : St) : option (St * Z) :=
  b ← get p s;
  let q := next b in
  if negb (q =? 0) then
    s ← upd q (set_tot_len (u16 (tot_len b - len b))) s;
    s ← upd p (fun b => set_tot_len (len b) (set_next 0 b)) s;
    '(s, tail_gone) ← pbuf_free q s;
    Some (s, if tail_gone >? 0 then 0 else q)
  else Some (s, 0).

(** ** Data *)

(** The do-while loop of pbuf_copy. *)
Fixpoint copy_loop (fuel : nat) (p_to p_from offset_to offset_from : Z) (s : St) : option (St * Z) :=
  match fuel with
  | O => None
  | S fuel =>
    t ← get p_to s; f ← get p_from s;
    let n := if u32 (len t - offset_to) >=? u32 (len f - offset_from) then u32 (len f - offset_from) else u32 (len t - offset_to) in
    bs ← read_payload (payload f + offset_from) n s;
    s ← write_payload (payload t + offset_to) bs s;
    let offset_to := u32 (offset_to + n) in let offset_from := u32 (offset_from + n) in
    let '(offset_from, p_from) := if offset_from >=? len f then (0, next f) else (offset_from, p_from) in
    let '(offset_to, p_to, wrapped) := if offset_to =? len t then (0, next t, true) else (offset_to, p_to, false) in
    if (wrapped : bool) && (p_to =? 0) && negb (p_from =? 0) then Some (s, ERR_ARG) else
    bad ← (if negb (p_from =? 0) then f ← get p_from s; Some ((len f =? tot_len f) && negb (next f =? 0)) else Some false);
    if (bad : bool) then Some (s, ERR_VAL) else
    bad ← (if negb (p_to =? 0) then t ← get p_to s; Some ((len t =? tot_len t) && negb (next t =? 0)) else Some false);
    if (bad : bool) then Some (s, ERR_VAL) else
    if negb (p_from =? 0) then copy_loop fuel p_to p_from offset_to offset_from s else Some (s, ERR_OK)
  end.
Definition pbuf_copy (p_to p_from : Z) (s : St) : option (St * Z) :=
  if (p_to =? 0) || (p_from =? 0) then Some (s, ERR_ARG)
  else
    t ← get p_to s; f ← get p_from s;
    if negb (tot_len t >=? tot_len f) then Some (s, ERR_ARG)
    else copy_loop (S (2 * base.size (pbufs s))) p_to p_from 0 0 s.

(** The bytes that pbuf_copy_partial copies out. *)
Fixpoint copy_partial (fuel : nat) (p n offset : Z) (s : St) : option (list Z) :=
  match fuel with
  | O => None
  | S fuel =>
    if negb (n =? 0) && negb (p =? 0) then
      b ← get p s;
      if negb (offset =? 0) && (offset >=? len b) then copy_partial fuel (next b) n (u16 (offset - len b)) s
      else
        let k := Z.min (u16 (len b - offset)) n in
        bs ← read_payload (payload b + offset) k s;
        r ← copy_partial fuel (next b) (u16 (n - k)) 0 s; Some (bs ++ r)
    else Some []
  end.
Definition pbuf_copy_partial (p n offset : Z) (s : St) : option (list Z) :=
  if p =? 0 then Some [] else copy_partial (S (base.size (pbufs s))) p n offset s.

Fixpoint skip (fuel : nat) (q offset_left : Z) (s : St) : option (Z * Z) :=
  match fuel with
  | O => None
  | S fuel =>
    if q =? 0 then Some (q, offset_left) else
    b ← get q s; if len b <=? offset_left then skip fuel (next b) (u16 (offset_left - len b)) s else Some (q, offset_left)
  end.
Definition pbuf_skip (p in_offset : Z) (s : St) : option (Z * Z) := skip (S (base.size (pbufs s))) p in_offset s.

(** The payload's address or the copy into the user's buffer of [bufsize] bytes. *)
Definition pbuf_get_contiguous (p bufsize n offset : Z) (s : St) : option (option (Z + list Z)) :=
  if (p =? 0) || negb (bufsize >=? n) then Some None
  else
    '(q, out_offset) ← pbuf_skip p offset s;
    if negb (q =? 0) then
      b ← get q s;
      if len b >=? out_offset + n then Some (Some (inl (payload b + out_offset)))
      else
        bs ← pbuf_copy_partial q n out_offset s;
        Some (if negb (Z.of_nat (length bs) =? n) then None else Some (inr bs))
    else Some None.

(** The loop of pbuf_take. *)
Fixpoint take_loop (fuel : nat) (p : Z) (data : list Z) (s : St) : option St :=
  match fuel with
  | O => None
  | S fuel =>
    if Z.of_nat (length data) =? 0 then Some s
    else
      b ← get p s;
      let k := Z.to_nat (Z.min (Z.of_nat (length data)) (len b)) in
      s ← write_payload (payload b) (take k data) s; take_loop fuel (next b) (drop k data) s
  end.
Definition pbuf_take (buf : Z) (data : list Z) (s : St) : option (St * Z) :=
  if buf =? 0 then Some (s, ERR_ARG)
  else
    b ← get buf s;
    if negb (tot_len b >=? Z.of_nat (length data)) then Some (s, ERR_MEM)
    else s ← take_loop (S (base.size (pbufs s))) buf data s; Some (s, ERR_OK).

Definition pbuf_take_at (buf : Z) (data : list Z) (offset : Z) (s : St) : option (St * Z) :=
  '(q, target_offset) ← pbuf_skip buf offset s;
  if q =? 0 then Some (s, ERR_MEM)
  else
    b ← get q s;
    if tot_len b >=? target_offset + Z.of_nat (length data) then
      let k := Z.to_nat (u16 (Z.min (len b - target_offset) (Z.of_nat (length data)))) in
      s ← write_payload (payload b + target_offset) (take k data) s;
      if (Z.of_nat (length (drop k data)) >? 0) then pbuf_take (next b) (drop k data) s else Some (s, ERR_OK)
    else Some (s, ERR_MEM).

Definition pbuf_clone (layer type p : Z) (s : St) : option (St * Z) :=
  b ← get p s;
  '(s, q) ← pbuf_alloc layer (tot_len b) type s;
  if q =? 0 then Some (s, 0) else '(s, _) ← pbuf_copy q p s; Some (s, q).
Definition pbuf_coalesce (p layer : Z) (s : St) : option (St * Z) :=
  b ← get p s;
  if next b =? 0 then Some (s, p)
  else
    '(s, q) ← pbuf_clone layer PBUF_RAM p s;
    if q =? 0 then Some (s, p) else '(s, _) ← pbuf_free p s; Some (s, q).

Definition pbuf_try_get_at (p offset : Z) (s : St) : option Z :=
  '(q, q_idx) ← pbuf_skip p offset s;
  if q =? 0 then Some (-1)
  else b ← get q s; if len b >? q_idx then bytes s !! (payload b + q_idx) else Some (-1).
Definition pbuf_get_at (p offset : Z) (s : St) : option Z :=
  r ← pbuf_try_get_at p offset s; Some (if r >=? 0 then u8 r else 0).
Definition pbuf_put_at (p offset data : Z) (s : St) : option St :=
  '(q, q_idx) ← pbuf_skip p offset s;
  if q =? 0 then Some s
  else b ← get q s; if len b >? q_idx then write_payload (payload b + q_idx) [data] s else Some s.

Fixpoint memcmp_loop (q start i : Z) (s2 : list Z) (s : St) : option Z :=
  match s2 with
  | [] => Some 0
  | b :: s2 =>
    a ← pbuf_get_at q (u16 (start + i)) s;
    if negb (a =? b) then Some (u16 (Z.min (i + 1) 0xFFFF)) else memcmp_loop q start (i + 1) s2 s
  end.
Definition pbuf_memcmp (p offset : Z) (s2 : list Z) (s : St) : option Z :=
  b ← get p s;
  if tot_len b <? offset + Z.of_nat (length s2) then Some 0xffff
  else '(q, start) ← pbuf_skip p offset s; memcmp_loop q start 0 s2 s.

Fixpoint memfind_loop (fuel : nat) (p i max_cmp_start : Z) (mem : list Z) (s : St) : option Z :=
  match fuel with
  | O => None
  | S fuel =>
    if i <=? max_cmp_start then
      plus ← pbuf_memcmp p i mem s;
      if plus =? 0 then Some i else memfind_loop fuel p (u16 (i + 1)) max_cmp_start mem s
    else Some 0xFFFF
  end.
Definition pbuf_memfind (p : Z) (mem : list Z) (start_offset : Z) (s : St) : option Z :=
  b ← get p s;
  let max_cmp_start := u16 (tot_len b - Z.of_nat (length mem)) in
  if tot_len b >=? Z.of_nat (length mem) + start_offset
  then memfind_loop (Z.to_nat (max_cmp_start + 2)) p start_offset max_cmp_start mem s else Some 0xFFFF.
(** [substr] is the text before its NUL. *)
Definition pbuf_strstr (p : Z) (substr : list Z) (s : St) : option Z :=
  b ← get p s;
  if (Z.of_nat (length substr) =? 0) || (tot_len b =? 0xFFFF) then Some 0xFFFF
  else if Z.of_nat (length substr) >=? 0xFFFF then Some 0xFFFF
  else pbuf_memfind p substr 0 s.
End pbuf.
