(* ===== verification/PbufGraph.v ===== *)
(** * Chains of packet buffers as a graph

    What clients see of packet buffers: nodes with bytes, a successor and a
    number of references the clients hold.  Chains end and may share tails.  A
    node stays as long as somebody can reach it. *)

From S2P Require Import Prelude.
#[local] Open Scope Z_scope.

(** [n_front]: the bytes before the data, room for headers. *)
Record Node := mkNode { n_front : list Z; n_data : list Z; n_next : Z; n_held : nat }.
Definition with_bytes (f d : list Z) (a : Node) : Node := mkNode f d (n_next a) (n_held a).
Definition with_next (q : Z) (a : Node) : Node := mkNode (n_front a) (n_data a) q (n_held a).
Definition with_held (n : nat) (a : Node) : Node := mkNode (n_front a) (n_data a) (n_next a) n.
Definition hold_node (a : Node) : Node := with_held (S (n_held a)) a.
Definition unhold_node (a : Node) : Node := with_held (n_held a - 1) a.

Abbreviation Graph := (gmap Z Node).

(** The nodes from [p] on; the end is 0. *)
Inductive path (σ : Graph) : Z -> list Z -> Prop :=
| path_nil : path σ 0 []
| path_cons p a l : p <> 0 -> σ !! p = Some a -> path σ (n_next a) l -> path σ p (p :: l).

Definition node_data (σ : Graph) (p : Z) : list Z := match σ !! p with Some a => n_data a | None => [] end.
Definition data (σ : Graph) (l : list Z) : list Z := concat (map (node_data σ) l).

(** How many nodes have [p] as successor. *)
Definition incoming (σ : Graph) (p : Z) : nat := size (filter (fun x => n_next x.2 = p) σ).

(** Reachable from a reference somebody holds. *)
Inductive reach (σ : Graph) : Z -> Prop :=
| reach_held p a : σ !! p = Some a -> (0 < n_held a)%nat -> reach σ p
| reach_next p a q : reach σ p -> σ !! p = Some a -> n_next a = q -> is_Some (σ !! q) -> reach σ q.

(** The chains end, and nothing is kept that nobody refers to. *)
Record graph_ok (σ : Graph) : Prop := mkGraphOk {
  go_path : forall p a, σ !! p = Some a -> exists l, path σ p l;
  go_used : forall p a, σ !! p = Some a -> (0 < incoming σ p + n_held a)%nat
}.

Definition hold (p : Z) (σ : Graph) : Graph := alter hold_node p σ.
Definition unhold (p : Z) (σ : Graph) : Graph := alter unhold_node p σ.
(** What is left of a graph: the nodes that can still be reached. *)
Definition kept (σ σ' : Graph) : Prop := forall p a, σ' !! p = Some a <-> σ !! p = Some a /\ reach σ p.

(** ** Paths *)

Lemma path_det σ p l l' : path σ p l -> path σ p l' -> l = l'.
Proof.
  intros Hp. revert l'. induction Hp as [|p a l Hp E _ IH]; inversion 1; subst; try done. simplify_eq. f_equal. auto.
Qed.
Lemma path_in σ p l q : path σ p l -> q ∈ l -> is_Some (σ !! q) /\ q <> 0.
Proof. induction 1 as [|p a l Hp E _ IH]; [by intros ?%elem_of_nil|]. intros [->|Hq]%elem_of_cons; [by rewrite E|auto]. Qed.
(** The rest of a path from a node on it. *)
Lemma path_suffix σ p l q : path σ p l -> q ∈ l -> exists l1 l2, l = l1 ++ q :: l2 /\ path σ q (q :: l2).
Proof.
  induction 1 as [|p a l Hp E H IH]; [by intros ?%elem_of_nil|]. intros [->|Hq]%elem_of_cons.
  - exists [], l. split; [done|]. by econstructor.
  - destruct (IH Hq) as (l1 & l2 & -> & Hs). by exists (p :: l1), l2.
Qed.
Lemma path_nodup σ p l : path σ p l -> NoDup l.
Proof.
  induction 1 as [|p a l Hp E H IH]; [constructor|]. constructor; [|done]. intros Hin.
  destruct (path_suffix _ _ _ _ H Hin) as (l1 & l2 & -> & Hs). assert (path σ p (p :: l1 ++ p :: l2)) as Hp2 by (by econstructor).
  pose proof (path_det _ _ _ _ Hs Hp2) as Eq. apply (f_equal length) in Eq. rewrite !length_cons, length_app in Eq. simpl in Eq. lia.
Qed.
Lemma path_length σ p l : path σ p l -> (length l <= size σ)%nat.
Proof. intros Hp. apply length_le_size; [by eapply path_nodup|]. intros q Hq. by apply (path_in _ _ _ _ Hp Hq). Qed.
Lemma path_zero σ l : path σ 0 l -> l = [].
Proof. by inversion 1. Qed.
Lemma path_head σ p a l : p <> 0 -> σ !! p = Some a -> path σ p l -> exists r, l = p :: r /\ path σ (n_next a) r.
Proof. intros Hp E. inversion 1; subst; [done|]. simplify_eq. by eexists. Qed.

(** Only successors matter for a path, and only on it. *)
Lemma path_frame σ σ' p l : (forall q, q ∈ l -> n_next <$> σ' !! q = n_next <$> σ !! q) -> path σ p l -> path σ' p l.
Proof.
  intros He Hp. induction Hp as [|p a l Hp E H IH]; [constructor|]. pose proof (He p ltac:(by left)) as Hn. rewrite E in Hn.
  destruct (σ' !! p) as [a'|] eqn:E'; [|done]. simpl in Hn. injection Hn as Hn. econstructor; [done|done|]. rewrite Hn. apply IH.
  intros q Hq. apply He. by right.
Qed.
Lemma data_frame σ σ' l : (forall q, q ∈ l -> n_data <$> σ' !! q = n_data <$> σ !! q) -> data σ' l = data σ l.
Proof.
  intros He. unfold data. f_equal. apply map_ext_in. intros q Hq%list_elem_of_In. specialize (He q Hq). unfold node_data.
  destruct (σ' !! q), (σ !! q); simpl in He; congruence.
Qed.
Lemma data_cons σ p a l : σ !! p = Some a -> data σ (p :: l) = n_data a ++ data σ l.
Proof. intros E. unfold data. simpl. unfold node_data at 1. by rewrite E. Qed.
Lemma data_app σ l r : data σ (l ++ r) = data σ l ++ data σ r.
Proof. unfold data. by rewrite map_app, concat_app. Qed.

(** ** Counting predecessors *)

Definition points (p : Z) (a : Node) : nat := if decide (n_next a = p) then 1 else 0.

Lemma incoming_new σ k a p : σ !! k = None -> incoming (<[k := a]> σ) p = (incoming σ p + points p a)%nat.
Proof.
  intros E. unfold incoming, points. destruct (decide (n_next a = p)) as [Hp|Hp].
  - rewrite map_filter_insert_True by done. rewrite map_size_insert_None; [lia|]. apply map_lookup_filter_None. by left.
  - rewrite map_filter_insert_False by done. rewrite delete_id by done. lia.
Qed.
Lemma incoming_delete σ k a p : σ !! k = Some a -> incoming σ p = (incoming (delete k σ) p + points p a)%nat.
Proof. intros E. rewrite <- (insert_delete_id σ k a) at 1 by done. apply incoming_new, lookup_delete_eq. Qed.
Lemma incoming_insert σ k a b p : σ !! k = Some a -> (incoming (<[k := b]> σ) p + points p a = incoming σ p + points p b)%nat.
Proof.
  intros E. rewrite (incoming_delete σ k a p E). rewrite <- (insert_delete_eq σ k b). rewrite incoming_new by apply lookup_delete_eq. lia.
Qed.
(** Data and references do not count. *)
Lemma incoming_same σ k a b p : σ !! k = Some a -> n_next b = n_next a -> incoming (<[k := b]> σ) p = incoming σ p.
Proof. intros E En. pose proof (incoming_insert σ k a b p E). unfold points in *. rewrite En in *. lia. Qed.
Lemma incoming_zero σ p : incoming σ p = 0%nat <-> forall q a, σ !! q = Some a -> n_next a <> p.
Proof.
  unfold incoming. rewrite map_size_empty_iff. split.
  - intros E q a Eq Hn. assert (filter (fun x => n_next x.2 = p) σ !! q = Some a) as Hf by (by apply map_lookup_filter_Some). by rewrite E in Hf.
  - intros Hq. apply map_empty. intros q. apply map_lookup_filter_None. destruct (σ !! q) as [a|] eqn:E; [right|by left].
    intros ? [= <-]. by apply (Hq q a E).
Qed.
Lemma incoming_pos σ q a : σ !! q = Some a -> (0 < incoming σ (n_next a))%nat.
Proof. intros E. destruct (incoming σ (n_next a)) eqn:Ei; [|lia]. exfalso. by apply (proj1 (incoming_zero _ _) Ei q a E). Qed.
Lemma incoming_one σ p q q' a a' : (incoming σ p <= 1)%nat -> σ !! q = Some a -> σ !! q' = Some a' -> n_next a = p -> n_next a' = p -> q = q'.
Proof.
  intros Hi E E' Hn Hn'. destruct (decide (q = q')) as [|Hne]; [done|exfalso].
  rewrite (incoming_delete σ q a p E) in Hi. rewrite (incoming_delete (delete q σ) q' a' p) in Hi by (by rewrite lookup_delete_ne).
  unfold points in Hi. rewrite !decide_True in Hi by done. lia.
Qed.

(** ** Reachability *)

Lemma reach_down σ x l p : path σ x l -> p ∈ l -> reach σ x -> reach σ p.
Proof.
  induction 1 as [|x a l Hx E Hl IH]; [by intros ?%elem_of_nil|]. intros [->|Hin]%elem_of_cons Hr; [done|]. apply (IH Hin).
  inversion Hl as [|y b l' Hy Ey Hl']; subst; [by apply elem_of_nil in Hin|]. by eapply reach_next.
Qed.

(** Following predecessors from a node leads, in at most as many steps as
    there are nodes, to a node that is held. *)
Lemma graph_reach σ p : σ !! 0 = None -> graph_ok σ -> is_Some (σ !! p) -> reach σ p.
Proof.
  intros H0 [Hpath Hused] Hp.
  assert (forall n x l, path σ x l -> p ∈ l -> (size σ - length l < n)%nat -> reach σ p) as Hind.
  { induction n as [|n IH]; [lia|]. intros x l Hl Hin Hn. inversion Hl as [|? a r Hx E Hr]; subst; [by apply elem_of_nil in Hin|].
    pose proof (Hused x a E) as Hu.
    destruct (decide (0 < n_held a)%nat) as [Hh|Hh]; [apply (reach_down σ x _ p Hl Hin); by eapply reach_held|].
    assert (0 < incoming σ x)%nat as Hi by lia.
    assert (exists y b, σ !! y = Some b /\ n_next b = x) as (y & b & Ey & Eb).
    { destruct (decide (incoming σ x = 0)%nat) as [|Hne]; [lia|]. unfold incoming in Hi.
      destruct (map_choose (filter (fun z => n_next z.2 = x) σ)) as (y & b & Hyb); [intros Ee; rewrite Ee in Hi; rewrite map_size_empty in Hi; lia|].
      apply map_lookup_filter_Some in Hyb as [? ?]. by exists y, b. }
    assert (path σ y (y :: x :: r)) as Hy by (econstructor; [intros ->; congruence|done|by rewrite Eb]).
    apply (IH y _ Hy); [by right|]. pose proof (path_length _ _ _ Hy) as Hlen. rewrite !length_cons in *. lia. }
  destruct Hp as [a E]. destruct (Hpath p a E) as [l Hl]. apply (Hind (S (size σ)) p l Hl); [|lia].
  destruct (path_head σ p a l ltac:(intros ->; congruence) E Hl) as (r & -> & _). by left.
Qed.

(** A part of a graph that has its held nodes and is closed has all that can be reached. *)
Lemma reach_closed (σ σ' : Graph) p : (forall q a, σ !! q = Some a -> (0 < n_held a)%nat -> is_Some (σ' !! q)) ->
  (forall q a, σ' !! q = Some a -> σ !! q = Some a) ->
  (forall q a, σ' !! q = Some a -> n_next a = 0 \/ is_Some (σ' !! n_next a)) -> σ !! 0 = None -> reach σ p -> is_Some (σ' !! p).
Proof.
  intros Hheld Hsub Hcl H0. induction 1 as [p a E Hh|p a q Hr IH E En [b Eq]]; [by eauto|].
  destruct IH as [a' E']. pose proof (Hsub _ _ E') as E2. simplify_eq. destruct (Hcl _ _ E') as [Hz|?]; [|done]. rewrite Hz in Eq. congruence.
Qed.

(** A node without predecessors is only on its own path. *)
Lemma path_avoid σ x l p : path σ x l -> x <> p -> incoming σ p = 0%nat -> p ∉ l.
Proof.
  intros Hl Hx Hi. induction Hl as [|x a l Hx0 E Hl IH]; [by apply not_elem_of_nil|]. apply not_elem_of_cons. split; [done|].
  apply IH. by apply (proj1 (incoming_zero _ _) Hi x a).
Qed.

(** Changing what is neither on the path nor its successors and data. *)
Lemma path_data_frame σ σ' p l : (forall q, q ∈ l -> exists a a', σ !! q = Some a /\ σ' !! q = Some a' /\ n_next a' = n_next a /\ n_data a' = n_data a) ->
  path σ p l -> path σ' p l /\ data σ' l = data σ l.
Proof.
  intros Hf Hp. split.
  - apply (path_frame σ); [|done]. intros q Hq. destruct (Hf q Hq) as (a & a' & -> & -> & En & _). simpl. by rewrite En.
  - apply data_frame. intros q Hq. destruct (Hf q Hq) as (a & a' & -> & -> & _ & Ed). simpl. by rewrite Ed.
Qed.

(** ** Holding and letting go *)

Lemma unhold_hold p σ : unhold p (hold p σ) = σ.
Proof.
  unfold unhold, hold. apply map_eq. intros q. destruct (decide (q = p)) as [->|]; [|by rewrite !lookup_alter_ne].
  rewrite !lookup_alter_eq. destruct (σ !! p) as [[f d q n]|]; [|done]. unfold unhold_node, hold_node, with_held. simpl. by rewrite Nat.sub_0_r.
Qed.
Lemma alter_none {A} (f : A -> A) p (σ : gmap Z A) : σ !! p = None -> alter f p σ = σ.
Proof. intros E. apply map_eq. intros q. destruct (decide (q = p)) as [->|]; [by rewrite lookup_alter_eq, E|by rewrite lookup_alter_ne]. Qed.
Lemma alter_some {A} (f : A -> A) p a (σ : gmap Z A) : σ !! p = Some a -> alter f p σ = <[p := f a]> σ.
Proof.
  intros E. apply map_eq. intros q. destruct (decide (q = p)) as [->|]; [by rewrite lookup_alter_eq, E, lookup_insert_eq|].
  by rewrite lookup_alter_ne, lookup_insert_ne.
Qed.
Definition hold_none := alter_none hold_node.
Definition unhold_none := alter_none unhold_node.
Definition hold_some := alter_some hold_node.
Definition unhold_some := alter_some unhold_node.
Lemma lookup_hold_ne p q σ : q <> p -> hold p σ !! q = σ !! q.
Proof. intros. by apply lookup_alter_ne. Qed.
Lemma lookup_unhold_ne p q σ : q <> p -> unhold p σ !! q = σ !! q.
Proof. intros. by apply lookup_alter_ne. Qed.
Lemma incoming_alter f p q σ : (forall a, n_next (f a) = n_next a) -> incoming (alter f p σ) q = incoming σ q.
Proof. intros Hf. destruct (σ !! p) as [a|] eqn:E; [rewrite (alter_some f p a) by done; by eapply incoming_same|by rewrite alter_none]. Qed.

(** The bytes of the chain from [p] on. *)
Definition total (σ : Graph) (p n : Z) : Prop := exists l, path σ p l /\ n = Z.of_nat (length (data σ l)).
Lemma total_frame σ σ' p n : (forall l q, path σ p l -> q ∈ l -> exists a a', σ !! q = Some a /\ σ' !! q = Some a' /\ n_next a' = n_next a /\ n_data a' = n_data a) ->
  total σ p n -> total σ' p n.
Proof. intros Hf (l & Hl & ->). destruct (path_data_frame σ σ' p l (fun q => Hf l q Hl) Hl) as [Hl' Ed]. exists l. by rewrite Ed. Qed.

Lemma path_from σ p l z r : path σ p (l ++ z :: r) -> path σ z (z :: r).
Proof. revert p. induction l as [|x l IH]; intros p Hp; simpl in Hp; inversion Hp; subst; [done|by eapply IH]. Qed.

(** A function applied along a chain. *)
Fixpoint alters {A} (f : A -> A) (l : list Z) (m : gmap Z A) : gmap Z A := match l with [] => m | p :: l => alters f l (alter f p m) end.
Lemma lookup_alters {A} (f : A -> A) l (m : gmap Z A) q : NoDup l -> alters f l m !! q = if decide (q ∈ l) then f <$> m !! q else m !! q.
Proof.
  revert m. induction l as [|p l IH]; intros m; cbn [alters]; [intros _; by rewrite decide_False by apply not_elem_of_nil|].
  intros [Hp Hn]%NoDup_cons. rewrite IH by done. destruct (decide (q = p)) as [->|Hq].
  - rewrite decide_False by done. rewrite decide_True by (by left). by rewrite lookup_alter_eq.
  - rewrite !lookup_alter_ne by done. destruct (decide (q ∈ l)) as [Hin|Hin]; [rewrite decide_True by (by right)|rewrite decide_False by (by rewrite elem_of_cons; intros [?|?])]; done.
Qed.

(** Nothing leads into [l] from outside. *)
Definition exclusive (σ : Graph) (l : list Z) : Prop := forall x a, σ !! x = Some a -> n_next a ∈ l -> x ∈ l.
Lemma path_exclusive σ l q lq x : exclusive σ l -> path σ q lq -> x ∈ lq -> x ∈ l -> q ∈ l.
Proof.
  intros He Hp. induction Hp as [|q a r Hq E Hr IH]; [by intros ?%elem_of_nil|]. intros [->|Hx]%elem_of_cons Hl; [done|].
  apply (He q a E). by apply IH.
Qed.
Lemma path_app σ p l z a r : path σ p (l ++ z :: r) -> σ !! z = Some a -> path σ (n_next a) r.
Proof.
  revert p. induction l as [|x l IH]; intros p Hp E; simpl in Hp; inversion Hp; subst; [by simplify_eq|by eapply IH].
Qed.

(** A chain with another one after it. *)
Lemma path_join σ z t a q l r : σ !! z = Some a -> z ∉ r -> path σ q (l ++ [z]) -> path σ t r ->
  path (<[z := with_next t a]> σ) q (l ++ z :: r) /\ data (<[z := with_next t a]> σ) (l ++ z :: r) = data σ (l ++ [z]) ++ data σ r.
Proof.
  intros E Hz Hq Ht. set (σ' := <[z := with_next t a]> σ). assert (path σ' t r /\ data σ' r = data σ r) as [Ht' Hd].
  { apply path_data_frame; [|done]. intros x Hx. destruct (path_in _ _ _ _ Ht Hx) as [[c Ec] _]. exists c, c. unfold σ'.
    rewrite lookup_insert_ne by (by intros ->). done. }
  split.
  - clear Hd. revert q Hq. induction l as [|x l IH]; intros q Hq; simpl in *; inversion Hq as [|? c ? Hx Ec Hl]; subst.
    + econstructor; [done|apply lookup_insert_eq|done].
    + destruct (decide (x = z)) as [->|Hne].
      * apply path_nodup in Hq. apply NoDup_cons in Hq as [[]%not_elem_of_app _]. exfalso. set_solver.
      * econstructor; [done|unfold σ'; by rewrite lookup_insert_ne|by apply IH].
  - change (z :: r) with ([z] ++ r). rewrite app_assoc, data_app, Hd. f_equal. apply data_frame. intros x _. unfold σ'.
    destruct (decide (x = z)) as [->|]; [by rewrite lookup_insert_eq, E|by rewrite lookup_insert_ne].
Qed.

Section join.
Context (σ : Graph) (h t z : Z) (a at_ : Node) (l r : list Z).
Context (Hh : path σ h (l ++ [z])) (Ht : path σ t r) (Ez : σ !! z = Some a) (Et : σ !! t = Some at_) (Hat : (0 < n_held at_)%nat).
Context (Hex : exclusive σ (l ++ [z])) (Htl : t ∉ l ++ [z]).
Definition joined : Graph := unhold t (<[z := with_next t a]> σ).

Lemma join_last : n_next a = 0 /\ z <> t /\ (z ∉ l) /\ (z ∉ r) /\ z <> 0.
Proof using All.
  pose proof (path_nodup _ _ _ Hh) as Hnd. split_and!.
  - pose proof (path_app _ _ _ _ _ [] Hh Ez) as Hp. by inversion Hp.
  - intros ->. apply Htl, elem_of_app. right. by left.
  - apply NoDup_app in Hnd as (_ & Hdis & _). intros Hin. apply (Hdis z Hin). by left.
  - intros Hin. apply Htl. eapply path_exclusive; [exact Hex|exact Ht|exact Hin|]. apply elem_of_app. right. by left.
  - apply (path_in _ _ _ z Hh). apply elem_of_app. right. by left.
Qed.
Lemma lookup_joined q : joined !! q = if decide (q = t) then Some (unhold_node at_) else if decide (q = z) then Some (with_next t a) else σ !! q.
Proof using All.
  destruct join_last as (_ & Hzt & _). unfold joined, unhold. destruct (decide (q = t)) as [->|].
  - by rewrite lookup_alter_eq, lookup_insert_ne, Et.
  - rewrite lookup_alter_ne by done. destruct (decide (q = z)) as [->|]; [by rewrite lookup_insert_eq|by rewrite lookup_insert_ne].
Qed.
Lemma joined_some q : is_Some (joined !! q) <-> is_Some (σ !! q).
Proof using All. rewrite lookup_joined. repeat case_decide; subst; rewrite ?Et, ?Ez; by split. Qed.
Lemma joined_node q c' : q <> 0 -> joined !! q = Some c' -> exists c, σ !! q = Some c /\ n_front c' = n_front c /\ n_data c' = n_data c /\
  n_next c' = (if decide (q = z) then t else n_next c) /\ (incoming joined q + n_held c' = incoming σ q + n_held c)%nat.
Proof using All.
  intros Hq0 E. destruct join_last as (Hn & Hzt & _). pose proof (incoming_insert σ z a (with_next t a) q Ez) as Hi. unfold points in Hi. rewrite Hn in Hi.
  rewrite decide_False in Hi by done. simpl in Hi. assert (incoming joined q = incoming (<[z := with_next t a]> σ) q) as -> by (by apply incoming_alter).
  rewrite lookup_joined in E. destruct (decide (q = t)) as [->|].
  - injection E as <-. exists at_. rewrite decide_False by done. split_and!; try done. rewrite decide_True in Hi by done. simpl. lia.
  - rewrite (decide_False (P := t = q)) in Hi by done. destruct (decide (q = z)) as [->|]; [injection E as <-; exists a; split_and!; try done; simpl; lia|].
    exists c'. split_and!; try done. lia.
Qed.
Lemma joined_total q n : total σ q n -> total joined q (n + if decide (q ∈ l ++ [z]) then Z.of_nat (length (data σ r)) else 0).
Proof using All.
  destruct join_last as (Hn & Hzt & Hzl & Hzr & Hz0). intros (lq & Hq & ->). case_decide as Hin.
  - destruct (path_suffix _ _ _ _ Hh Hin) as (l1 & l2 & El & Hs). rewrite (path_det _ _ _ _ Hq Hs).
    destruct (exists_last (l := q :: l2)) as (k & z' & Ek); [done|]. rewrite Ek in El, Hs |- *. rewrite app_assoc in El.
    apply app_inj_tail in El as [_ <-]. destruct (path_join σ z t a q k r Ez Hzr Hs Ht) as [Hp Hd]. exists (k ++ z :: r).
    rewrite <- Nat2Z.inj_add, <- length_app, <- Hd.
    destruct (path_data_frame (<[z := with_next t a]> σ) joined q (k ++ z :: r)) as [Hp' Hd']; [|done|by rewrite Hd'].
    intros x Hx. destruct (path_in _ _ _ _ Hp Hx) as [[c Ec] _]. exists c. unfold joined, unhold. destruct (decide (x = t)) as [->|]; [rewrite lookup_alter_eq, Ec; by eexists|].
    rewrite lookup_alter_ne by done. by exists c.
  - exists lq. destruct (path_data_frame σ joined q lq) as [Hp' Hd']; [|done|rewrite Hd'; split; [done|lia]].
    intros x Hx. destruct (path_in _ _ _ _ Hq Hx) as [[c Ec] _]. exists c. rewrite lookup_joined. destruct (decide (x = t)) as [->|]; [simplify_eq; by eexists|].
    rewrite decide_False; [by exists c|]. intros ->. apply Hin. eapply path_exclusive; [exact Hex|exact Hq|exact Hx|]. apply elem_of_app. right. by left.
Qed.
End join.

(** A chain ends after [z], whose bytes become [d]; the rest is held. *)
Section cut.
Context (σ : Graph) (h z : Z) (a : Node) (l1 l2 d : list Z).
Context (Hh : path σ h (l1 ++ z :: l2)) (Ez : σ !! z = Some a) (Hex : exclusive σ (l1 ++ [z])) (H0 : σ !! 0 = None).
Definition ended : Node := mkNode (n_front a) d 0 (n_held a).
Definition cut : Graph := hold (n_next a) (<[z := ended]> σ).

Lemma cut_next : path σ (n_next a) l2 /\ z <> n_next a /\ (z ∉ l2) /\ z <> 0 /\ (forall x, x ∈ l2 -> x ∉ l1 ++ [z]).
Proof using All.
  pose proof (path_app _ _ _ _ _ _ Hh Ez) as Hp. pose proof (path_nodup _ _ _ Hh) as Hnd. destruct (path_in _ _ _ z Hh) as [_ Hz].
  { apply elem_of_app. right. by left. }
  replace (l1 ++ z :: l2) with ((l1 ++ [z]) ++ l2) in Hnd by (by rewrite <- app_assoc). apply NoDup_app in Hnd as (_ & Hdis & _).
  assert (z ∉ l2) as Hz2 by (apply Hdis, elem_of_app; right; by left). split_and!; try done.
  - intros E. rewrite <- E in Hp. inversion Hp; subst; [done|]. apply Hz2. by left.
  - intros x Hx Hx1. by apply (Hdis x).
Qed.
Lemma lookup_cut q : cut !! q = if decide (q = z) then Some ended else if decide (q = n_next a) then hold_node <$> σ !! q else σ !! q.
Proof using All.
  destruct cut_next as (_ & Hne & _). unfold cut, hold. destruct (decide (q = z)) as [->|Hz].
  - by rewrite lookup_alter_ne, lookup_insert_eq.
  - destruct (decide (q = n_next a)) as [->|]; [by rewrite lookup_alter_eq, lookup_insert_ne|by rewrite lookup_alter_ne, lookup_insert_ne].
Qed.
Lemma cut_some q : is_Some (cut !! q) <-> is_Some (σ !! q).
Proof using All. rewrite lookup_cut. repeat case_decide; subst; rewrite ?fmap_is_Some, ?Ez; by split. Qed.
Lemma cut_node q c' : cut !! q = Some c' -> exists c, σ !! q = Some c /\ n_front c' = n_front c /\ n_data c' = (if decide (q = z) then d else n_data c) /\
  n_next c' = (if decide (q = z) then 0 else n_next c) /\ (incoming cut q + n_held c' = incoming σ q + n_held c)%nat.
Proof using All.
  intros E. destruct cut_next as (Hp & Hne & _). assert (q <> 0) as Hq0 by (intros ->; apply mk_is_Some, cut_some in E; rewrite H0 in E; by destruct E).
  pose proof (incoming_insert σ z a ended q Ez) as Hi. unfold points in Hi.
  rewrite (decide_False (P := n_next ended = q)) in Hi by (simpl; congruence).
  assert (incoming cut q = incoming (<[z := ended]> σ) q) as -> by (by apply incoming_alter).
  rewrite lookup_cut in E. destruct (decide (q = z)) as [->|].
  - injection E as <-. exists a. rewrite decide_False in Hi by done. split_and!; try done. simpl. lia.
  - destruct (decide (q = n_next a)) as [->|].
    + destruct (σ !! n_next a) as [c|]; [|done]. injection E as <-. exists c. rewrite decide_True in Hi by done. split_and!; try done. simpl. lia.
    + exists c'. rewrite decide_False in Hi by done. split_and!; try done. lia.
Qed.
Lemma cut_path_z k q : path σ q (k ++ z :: l2) -> path cut q (k ++ [z]) /\ data cut (k ++ [z]) = data σ k ++ d.
Proof using All.
  destruct cut_next as (_ & _ & _ & Hz & _). revert q. induction k as [|x k IH]; intros q Hq.
  - simpl in *. inversion Hq; subst. split; [econstructor; [done|by rewrite lookup_cut, decide_True|constructor]|].
    rewrite (data_cons _ z ended) by (by rewrite lookup_cut, decide_True). apply app_nil_r.
  - simpl in Hq |- *. inversion Hq as [|? c ? Hx Ec Hl]; subst. destruct (IH _ Hl) as [Hp Hd]. assert (x <> z) as Hxz.
    { intros ->. apply path_nodup in Hq. apply NoDup_cons in Hq as [Hq _]. apply Hq, elem_of_app. right. by left. }
    assert (exists c', cut !! x = Some c' /\ n_next c' = n_next c /\ n_data c' = n_data c) as (c' & Ec' & En & Ed).
    { rewrite lookup_cut, decide_False by done. case_decide; rewrite Ec; by eexists. }
    split; [econstructor; [done|exact Ec'|by rewrite En]|]. rewrite (data_cons _ _ c'), (data_cons _ _ c), Hd, Ed, <- app_assoc; done.
Qed.
Lemma cut_total q n : total σ q n -> total cut q (n - if decide (q ∈ l1 ++ [z]) then Z.of_nat (length (data σ (z :: l2))) - Z.of_nat (length d) else 0).
Proof using All.
  intros (lq & Hq & ->). destruct (decide (q ∈ l1 ++ [z])) as [Hin|Hin].
  - assert (exists k, lq = k ++ z :: l2) as [k ->].
    { apply elem_of_app in Hin as [Hin|Hin%list_elem_of_singleton].
      - apply list_elem_of_split in Hin as (m1 & m2 & E1). exists (q :: m2). apply (path_det _ _ _ _ Hq). apply (path_from _ h m1).
        by rewrite E1, <- app_assoc in Hh.
      - subst q. exists []. apply (path_det _ _ _ _ Hq). by apply (path_from _ h l1). }
    destruct (cut_path_z k q Hq) as [Hp Hd]. exists (k ++ [z]). split; [done|]. rewrite Hd, data_app, !length_app. lia.
  - exists lq. destruct (path_data_frame σ cut q lq) as [Hp' Hd']; [|done|rewrite Hd'; split; [done|lia]].
    intros x Hx. destruct (path_in _ _ _ _ Hq Hx) as [[c Ec] _]. exists c. rewrite lookup_cut. rewrite decide_False.
    + case_decide; rewrite Ec; by eexists.
    + intros ->. apply Hin. eapply path_exclusive; [exact Hex|exact Hq|exact Hx|]. apply elem_of_app. right. by left.
Qed.
End cut.

(** A part of [σ] with all that is held and nothing that cannot be reached. *)
Lemma kept_intro (σ σ' : Graph) : σ !! 0 = None -> graph_ok σ' ->
  (forall q a, σ' !! q = Some a -> σ !! q = Some a) -> (forall q a, σ !! q = Some a -> (0 < n_held a)%nat -> is_Some (σ' !! q)) ->
  kept σ σ'.
Proof.
  intros H0 Hok Hsub Hheld p a.
  assert (σ' !! 0 = None) as H0' by (destruct (σ' !! 0) eqn:E; [apply Hsub in E; congruence|done]). split.
  - intros E. split; [by apply Hsub|]. pose proof (graph_reach σ' p H0' Hok (mk_is_Some _ _ E)) as Hr. clear E. induction Hr as [p b E Hb|p b q Hr IH E En [c Eq]].
    + eapply reach_held; [by apply Hsub|done].
    + eapply reach_next; [done|by apply Hsub|done|]. exists c. by apply Hsub.
  - intros [E Hr]. destruct (reach_closed σ σ' p) as [b E']; try done.
    + intros q b Eq. destruct (go_path _ Hok q b Eq) as [l Hl]. assert (q <> 0) by (intros ->; congruence).
      destruct (path_head _ _ _ _ ltac:(done) Eq Hl) as (r & -> & Hn). inversion Hn; subst; [by left|right; by eexists].
    + pose proof (Hsub _ _ E') as E2. congruence.
Qed.

(** ** Growing *)

(** Chains do not leave the graph. *)
Lemma next_inside σ q a : graph_ok σ -> σ !! 0 = None -> σ !! q = Some a -> n_next a = 0 \/ is_Some (σ !! n_next a).
Proof.
  intros Hok H0 E. destruct (go_path _ Hok q a E) as [l Hl]. assert (q <> 0) by (intros ->; congruence).
  destruct (path_head _ _ _ _ ltac:(done) E Hl) as (r & -> & Hn). inversion Hn; subst; [by left|right; by eexists].
Qed.
Lemma incoming_absent σ p : graph_ok σ -> σ !! 0 = None -> p <> 0 -> σ !! p = None -> incoming σ p = 0%nat.
Proof. intros Hok H0 Hp E. apply incoming_zero. intros q a Eq Hn. destruct (next_inside σ q a Hok H0 Eq) as [|[? ?]]; congruence. Qed.

(** [σ'] has a new chain [l] from [p] with [n] bytes, held at its start, with
    room for [layer] bytes of headers. *)
Record grown (σ σ' : Graph) (p : Z) (l : list Z) (layer n : Z) : Prop := mkGrown {
  gr_path : path σ' p l;
  gr_new : forall q, q ∈ l -> σ !! q = None;
  gr_old : forall q, q ∉ l -> σ' !! q = σ !! q;
  gr_first : exists a, σ' !! p = Some a /\ layer <= Z.of_nat (length (n_front a));
  gr_held : forall q a, q ∈ l -> σ' !! q = Some a -> n_held a = if decide (q = p) then 1%nat else 0%nat;
  gr_total : Z.of_nat (length (data σ' l)) = n
}.
Lemma grown_exclusive σ σ' p l layer n : graph_ok σ -> σ !! 0 = None -> grown σ σ' p l layer n -> exclusive σ' l.
Proof.
  intros Hok H0 [Hp Hnew Hold _ _ _] x a E Hn. destruct (decide (x ∈ l)) as [|Hx]; [done|]. rewrite Hold in E by done.
  destruct (path_in _ _ _ _ Hp Hn) as [_ Hz]. destruct (next_inside σ x a Hok H0 E) as [|[? ?]]; [done|]. by rewrite Hnew in H.
Qed.
Lemma grown_nonzero σ σ' p l layer n : σ !! 0 = None -> grown σ σ' p l layer n -> p <> 0.
Proof.
  intros H0 [Hp _ Hold (a & E & _) _ _] ->. apply path_zero in Hp as ->. rewrite Hold in E by apply not_elem_of_nil. congruence.
Qed.
Lemma grown_head σ σ' p l layer n : grown σ σ' p l layer n -> p <> 0 -> exists a, σ' !! p = Some a /\ (0 < n_held a)%nat.
Proof.
  intros [Hp _ _ (a & E & _) Hh _] Hp0. exists a. split; [done|]. destruct (path_head _ _ _ _ Hp0 E Hp) as (r & -> & _).
  rewrite (Hh p a), decide_True by (done || by left). lia.
Qed.
(** Freed again, it leaves no trace. *)
Lemma grown_freed σ σ' σ'' p l layer n : graph_ok σ -> σ !! 0 = None -> (forall q, is_Some (σ !! q) -> reach σ q) -> grown σ σ' p l layer n ->
  kept (unhold p σ') σ'' -> σ'' = σ.
Proof.
  intros Hok H0 Hall [Hp Hnew Hold (ap & Ep & _) Hheld _] Hk.
  assert (p ∈ l) as Hpl. { destruct (decide (p ∈ l)) as [|Hpl]; [done|exfalso]. assert (p <> 0) as Hp0 by (intros ->; pose proof Ep as E0; rewrite Hold in E0 by done; congruence).
    destruct (path_head _ _ _ _ Hp0 Ep Hp) as (r & -> & _). apply Hpl. by left. }
  assert (forall q, reach (unhold p σ') q -> q ∉ l) as Hout.
  { intros q. induction 1 as [q a E Ha|q a x Hr IH E En [b Ex]].
    - intros Hq. destruct (decide (q = p)) as [->|Hne].
      + rewrite (unhold_some p ap), lookup_insert_eq in E by done. injection E as <-. simpl in Ha. rewrite (Hheld p ap) in Ha by done. rewrite decide_True in Ha by done. lia.
      + rewrite lookup_unhold_ne in E by done. rewrite (Hheld q a) in Ha by done. rewrite decide_False in Ha by done. lia.
    - intros Hx. rewrite lookup_unhold_ne, Hold in E by (done || by intros ->). destruct (path_in _ _ _ _ Hp Hx) as [_ Hx0].
      destruct (next_inside σ q a Hok H0 E) as [Hz|[? Hz]]; rewrite En in Hz; [done|]. by rewrite Hnew in Hz. }
  assert (forall q, q ∉ l -> unhold p σ' !! q = σ !! q) as Heq by (intros q Hq; rewrite lookup_unhold_ne, Hold; [done|done|by intros ->]).
  apply map_eq. intros q. apply option_eq. intros a. rewrite (Hk q a). split.
  - intros [E Hr]. by rewrite <- Heq by (by apply Hout).
  - intros E. assert (q ∉ l) as Hq by (intros Hq; by rewrite Hnew in E). rewrite Heq by done. split; [done|].
    assert (forall y, is_Some (σ !! y) -> y ∉ l) as Hin by (intros y [? Ey] Hy; by rewrite Hnew in Ey).
    pose proof (Hall q (mk_is_Some _ _ E)) as Hr. clear E Hq. induction Hr as [q b E Hb|q b x Hr IH E En [c Ex]].
    + eapply reach_held; [rewrite Heq; [exact E|apply Hin; by eexists]|done].
    + eapply reach_next; [exact IH|rewrite Heq; [exact E|apply Hin; by eexists]|done|]. exists c. rewrite Heq; [done|apply Hin; by eexists].
Qed.

(** One more node at the end of the new chain. *)
Section link.
Context (σ0 σ : Graph) (p z q : Z) (l : list Z) (layer k : Z) (a : Node) (fr d : list Z).
Context (Hok0 : graph_ok σ0) (H00 : σ0 !! 0 = None) (Hg : grown σ0 σ p (l ++ [z]) layer k) (Ez : σ !! z = Some a).
Context (Hq : q <> 0) (Eq : σ !! q = None).
Definition added : Graph := <[q := mkNode fr d 0 1]> σ.

Lemma added_path x r : path σ x r -> path added x r /\ data added r = data σ r.
Proof using Eq Hq.
  intros Hx. apply path_data_frame; [|done]. intros y Hy. destruct (path_in _ _ _ _ Hx Hy) as [[c Ec] _]. exists c, c. unfold added.
  rewrite lookup_insert_ne by (intros ->; congruence). done.
Qed.
Lemma added_chain : path added p (l ++ [z]) /\ path added q [q] /\ added !! z = Some a /\ added !! q = Some (mkNode fr d 0 1) /\
  exclusive added (l ++ [z]) /\ q ∉ l ++ [z].
Proof using All.
  assert (q ∉ l ++ [z]) as Hql by (intros Hin; destruct (path_in _ _ _ _ (gr_path _ _ _ _ _ _ Hg) Hin) as [[? ?] _]; congruence).
  assert (q <> z) as Hqz by (intros ->; congruence). split_and!; try done.
  - apply added_path, (gr_path _ _ _ _ _ _ Hg).
  - econstructor; [done|apply lookup_insert_eq|constructor].
  - unfold added. by rewrite lookup_insert_ne.
  - apply lookup_insert_eq.
  - intros x c Ex Hn. unfold added in Ex. destruct (decide (x = q)) as [->|Hx].
    + rewrite lookup_insert_eq in Ex. injection Ex as <-. simpl in Hn. by destruct (path_in _ _ _ _ (gr_path _ _ _ _ _ _ Hg) Hn) as [_ ?].
    + rewrite lookup_insert_ne in Ex by done. by apply (grown_exclusive _ _ _ _ _ _ Hok0 H00 Hg x c).
Qed.
Lemma grown_link : grown σ0 (joined added q z a) p ((l ++ [z]) ++ [q]) layer (k + Z.of_nat (length d)).
Proof using All.
  destruct added_chain as (Hp & Hpq & Eza & Eqa & Hex & Hql). pose proof Hg as [_ Hnew Hold (ap & Ep & Hap) Hheld Htot].
  assert (z <> q) as Hzq by (intros ->; congruence). assert (p <> 0) as Hp0 by (destruct l; inversion Hp; subst; done).
  assert (p ∈ l ++ [z]) as Hpl by (destruct (path_head _ _ _ _ Hp0 Ep (gr_path _ _ _ _ _ _ Hg)) as (? & -> & _); by left). assert (p <> q) as Hpq' by (intros ->; congruence).
  assert (forall x, joined added q z a !! x = if decide (x = q) then Some (mkNode fr d 0 0) else if decide (x = z) then Some (with_next q a) else σ !! x) as Hlk.
  { intros x. rewrite (lookup_joined added p q z a (mkNode fr d 0 1) l [q]) by (done || (simpl; lia)). case_decide; [done|]. case_decide; [done|]. unfold added. by rewrite lookup_insert_ne. }
  destruct (path_join added z q a p l [q] Eza) as [Hj Hjd]; [by rewrite list_elem_of_singleton|done|done|].
  destruct (path_data_frame (<[z := with_next q a]> added) (joined added q z a) p (l ++ z :: [q])) as [Hj' Hjd']; [|done|].
  { intros x Hx. destruct (path_in _ _ _ _ Hj Hx) as [[c Ec] _]. exists c. unfold joined, unhold. destruct (decide (x = q)) as [->|]; [rewrite lookup_alter_eq, Ec; by eexists|].
    rewrite lookup_alter_ne by done. by exists c. }
  split.
  - by rewrite <- app_assoc.
  - intros x [Hx| ->%list_elem_of_singleton]%elem_of_app; [by apply Hnew|]. by rewrite <- Hold.
  - intros x [Hx Hxq]%not_elem_of_app. rewrite list_elem_of_singleton in Hxq. rewrite Hlk, !decide_False; [by apply Hold| |done]. intros ->. apply Hx, elem_of_app. right. by left.
  - rewrite Hlk, decide_False by done. destruct (decide (p = z)) as [->|]; [exists (with_next q a); simplify_eq; done|by exists ap].
  - intros x c [Hx| ->%list_elem_of_singleton]%elem_of_app; rewrite Hlk.
    + rewrite decide_False by (by intros ->). destruct (decide (x = z)) as [->|]; [intros [= <-]; by apply (Hheld z a)|by apply Hheld].
    + rewrite decide_True by done. intros [= <-]. by rewrite decide_False.
  - rewrite <- app_assoc. simpl. rewrite Hjd', Hjd, length_app. destruct (added_path _ _ (gr_path _ _ _ _ _ _ Hg)) as [_ ->].
    rewrite (data_cons _ q (mkNode fr d 0 1)), app_nil_r by done. simpl. lia.
Qed.
End link.
