(* ===== verification/PbufRep.v ===== *)
(** * The pbufs of pbuf.c represent a graph

    [pb_rep] ties the store of pbuf.c to a graph of [PbufGraph]; freeing keeps
    what can still be reached. *)

From S2P Require Import Prelude Bytes LwipErr Mem MemSpec LwipMem Pbuf PbufGraph.
#[local] Open Scope Z_scope.

Section spec.
Context {H : Type} `{!LwipMem H} {HM : LwipMemOk H}.

(** ** Representation

    [ex p]: bytes that [tot_len] already counts and that are not linked yet;
    [lo]: a pbuf whose [next] is about to be cleared. *)


Record node_rep (ex : Z -> Z) (lo : Z) (σ : Graph) (bs : Blocks) (by_ : gmap Z Z) (p : Z) (a : Node) (b : pbuf) : Prop := mkNodeRep {
  nr_next : p = lo \/ next b = n_next a;
  nr_len : len b = Z.of_nat (length (n_data a));
  nr_tot : total σ p (tot_len b - ex p) /\ 0 <= tot_len b < 65536;
  nr_ref : ref b = Z.of_nat (incoming σ p + n_held a) /\ 0 < ref b < 256;
  nr_kind : flags b = 0 /\ contiguous b = true;
  nr_payload : payload b = p + SIZEOF_STRUCT_PBUF + Z.of_nat (length (n_front a));
  nr_block : exists src v, source_of b = Some src /\ bs !! p = Some (src, v) /\ payload b + len b <= p + v;
  nr_bytes : load_bytes (p + SIZEOF_STRUCT_PBUF) (length (n_front a ++ n_data a)) by_ = Some (n_front a ++ n_data a)
}.

(** [F]: blocks of memory that are not pbufs. *)
Record pb_rep (F : gset Z) (ex : Z -> Z) (lo : Z) (σ : Graph) (s : Store H) (bs : Blocks) : Prop := mkPbRep {
  pr_owns : lm_owns (memory s) bs;
  pr_dom : forall p, is_Some (bs !! p) <-> is_Some (σ !! p) \/ p ∈ F;
  pr_foreign : forall p, p ∈ F -> σ !! p = None;
  pr_node : forall p a, σ !! p = Some a -> exists b, pbufs s !! p = Some b /\ node_rep ex lo σ bs (bytes s) p a b;
  pr_only : forall p, is_Some (pbufs s !! p) -> is_Some (σ !! p);
  pr_mapped : forall a n, (a, n) ∈ lm_area -> mapped a (Z.to_nat n) (bytes s)
}.

Section rep.
Context (F : gset Z) (ex : Z -> Z) (lo : Z) (σ : Graph) (s : Store H) (bs : Blocks) (Hr : pb_rep F ex lo σ s bs).

Lemma rep_block p a : σ !! p = Some a -> exists src v, bs !! p = Some (src, v) /\ 0 < p /\ p + v < 4294967296.
Proof using HM Hr.
  intros E. destruct (proj2 (pr_dom _ _ _ _ _ _ Hr p)) as [[src v] Eb]; [left; by rewrite E|]. exists src, v.
  destruct (lm_inside _ _ _ _ _ (pr_owns _ _ _ _ _ _ Hr) Eb) as (? & ? & _). split; [done|lia].
Qed.
Lemma rep_zero : σ !! 0 = None.
Proof using HM Hr. destruct (σ !! 0) as [a|] eqn:E; [|done]. destruct (rep_block 0 a E) as (? & ? & _ & ? & _). lia. Qed.
Lemma rep_pos p : is_Some (σ !! p) -> p <> 0.
Proof using HM Hr. intros [a E] ->. by rewrite rep_zero in E. Qed.
Lemma rep_graph : graph_ok σ.
Proof using Hr.
  split; intros p a E; destruct (pr_node _ _ _ _ _ _ Hr p a E) as (b & _ & [_ _ [(l & Hl & _) _] [Href Hpos] _ _ _ _]); [by exists l|lia].
Qed.
Lemma rep_path p a : σ !! p = Some a -> exists r, path σ (n_next a) r /\ path σ p (p :: r).
Proof using HM Hr.
  intros E. pose proof (rep_pos p (mk_is_Some _ _ E)) as Hp. destruct (go_path _ rep_graph p a E) as [l Hl].
  destruct (path_head _ _ _ _ Hp E Hl) as (r & -> & Hn). by exists r.
Qed.
(** Everything that exists can be reached. *)
Lemma rep_reach p : is_Some (σ !! p) -> reach σ p.
Proof using HM Hr. apply graph_reach; [exact rep_zero|exact rep_graph]. Qed.
Lemma rep_size : size (pbufs s) = size σ.
Proof using Hr.
  rewrite <- !size_dom. f_equal. apply set_eq. intros p. rewrite !elem_of_dom. split; [by apply (pr_only _ _ _ _ _ _ Hr)|].
  intros [a E]. destruct (pr_node _ _ _ _ _ _ Hr p a E) as (b & -> & _). by eexists.
Qed.
End rep.

(** ** Parts of the representation *)

(** A node keeps representing when its chain, its number of references, its
    bytes and its block stay. *)
Lemma node_rep_frame ex ex' lo σ σ' bs bs' m m' p a a' b : node_rep ex lo σ bs m p a b ->
  n_front a' = n_front a -> n_data a' = n_data a -> n_next a' = n_next a -> ex' p = ex p ->
  (forall n, total σ p n -> total σ' p n) -> (incoming σ' p + n_held a' = incoming σ p + n_held a)%nat -> bs' !! p = bs !! p ->
  (forall v, bs !! p = Some v -> load_bytes (p + SIZEOF_STRUCT_PBUF) (length (n_front a ++ n_data a)) m' = load_bytes (p + SIZEOF_STRUCT_PBUF) (length (n_front a ++ n_data a)) m) ->
  node_rep ex' lo σ' bs' m' p a' b.
Proof.
  intros [H1 H2 [H3 H3'] H4 H5 H6 H7 H8] Ef Ed En Ex Ht Hi Eb Hm. split; rewrite ?Ef, ?Ed, ?En, ?Hi, ?Eb, ?Ex; try done.
  - split; [by apply Ht|done].
  - destruct H7 as (src & v & _ & E & _). by rewrite (Hm _ E).
Qed.

(** Nodes change, none comes or goes. *)
Lemma rep_change F ex lo σ s bs ex' lo' σ' s' bs' : pb_rep F ex lo σ s bs ->
  (forall q, is_Some (σ' !! q) <-> is_Some (σ !! q)) -> (forall q, is_Some (pbufs s' !! q) <-> is_Some (pbufs s !! q)) ->
  (forall q, is_Some (bs' !! q) <-> is_Some (bs !! q)) -> lm_owns (memory s') bs' ->
  (forall a n, (a, n) ∈ lm_area -> mapped a (Z.to_nat n) (bytes s) -> mapped a (Z.to_nat n) (bytes s')) ->
  (forall q a, σ' !! q = Some a -> exists b, pbufs s' !! q = Some b /\ node_rep ex' lo' σ' bs' (bytes s') q a b) ->
  pb_rep F ex' lo' σ' s' bs'.
Proof.
  intros [Ho Hd Hf Hn Hon Hm] H1 H2 H3 H4 H5 H6. split; try done.
  - intros q. by rewrite H3, Hd, H1.
  - intros q Hq%Hf. apply eq_None_not_Some. rewrite H1, Hq. by intros [? ?].
  - intros q. rewrite H1, H2. apply Hon.
  - intros a n Ha. by apply H5, Hm.
Qed.
Lemma insert_is_Some {A} (m : gmap Z A) p (a a' : A) q : m !! p = Some a -> is_Some (<[p := a']> m !! q) <-> is_Some (m !! q).
Proof. intros E. rewrite lookup_insert_is_Some'. split; [intros [->|?]; [by eexists|done]|by right]. Qed.

(** The loose end is tied. *)
Lemma rep_tied F ex z σ s bs a b : pb_rep F ex z σ s bs -> σ !! z = Some a -> n_next a = 0 -> pbufs s !! z = Some b ->
  pb_rep F ex 0 σ (set_pbuf z (set_next 0 b) s) bs.
Proof using HM.
  intros Hr E Hn Eb. pose proof (rep_zero _ _ _ _ _ _ Hr) as H0. eapply rep_change; try done; [intros q; by eapply insert_is_Some|by apply (pr_owns _ _ _ _ _ _ Hr)|].
  intros q c Ec. simpl. destruct (pr_node _ _ _ _ _ _ Hr q c Ec) as (b' & Eb' & [H1 H2 H3 H4 H5 H6 H7 H8]). destruct (decide (q = z)) as [->|Hq].
  - rewrite lookup_insert_eq. simplify_eq. eexists. split; [done|]. split; try done. by right.
  - rewrite lookup_insert_ne by done. exists b'. split; [done|]. split; try done. right. by destruct H1.
Qed.
Lemma rep_kept F ex lo σ s bs : pb_rep F ex lo σ s bs -> kept σ σ.
Proof using HM. intros Hr p a. split; [|by intros [? _]]. intros E. split; [done|]. eapply rep_reach; [exact Hr|by eexists]. Qed.

(** Another number of references to [p]. *)
Lemma rep_refs F ex lo σ s bs p a b k : pb_rep F ex lo σ s bs -> σ !! p = Some a -> pbufs s !! p = Some b -> 0 < Z.of_nat (incoming σ p + k) < 256 ->
  pb_rep F ex lo (<[p := with_held k a]> σ) (set_pbuf p (set_ref (Z.of_nat (incoming σ p + k)) b) s) bs.
Proof.
  intros Hr E Eb Hk. eapply rep_change; try done; [intros q; by eapply insert_is_Some|intros q; by eapply insert_is_Some|by apply (pr_owns _ _ _ _ _ _ Hr)|].
  assert (forall x n, total σ x n -> total (<[p := with_held k a]> σ) x n) as Ht.
  { intros x n. apply total_frame. intros l q Hl Hq. destruct (path_in _ _ _ _ Hl Hq) as [[c Ec] _]. exists c.
    destruct (decide (q = p)) as [->|]; [rewrite lookup_insert_eq; simplify_eq; by eexists|rewrite lookup_insert_ne by done; by eexists]. }
  intros q c. simpl. destruct (decide (q = p)) as [->|Hq].
  - rewrite !lookup_insert_eq. intros [= <-]. eexists. split; [done|]. destruct (pr_node _ _ _ _ _ _ Hr p a E) as (b' & Eb' & [H1 H2 [H3 H3'] H4 H5 H6 H7 H8]). simplify_eq.
    split; try done; simpl.
    + split; [by apply Ht|done].
    + by rewrite (incoming_same _ _ a).
  - rewrite !lookup_insert_ne by done. intros Ec. destruct (pr_node _ _ _ _ _ _ Hr q c Ec) as (b' & Eb' & Hrep). exists b'. split; [done|].
    eapply node_rep_frame; try done; [intros n; by apply Ht|]. by rewrite (incoming_same _ _ a).
Qed.

(** The last reference to [p] goes: its reference to the rest of the chain
    is left over. *)
Lemma rep_release F ex lo σ s bs p a b m : pb_rep F ex lo σ s bs -> σ !! p = Some a -> pbufs s !! p = Some b -> (0 < n_held a)%nat -> ref b = 1 ->
  lm_owns m (delete p bs) ->
  pb_rep F ex lo (hold (n_next a) (delete p σ)) (set_memory m (set_pbufs (delete p (pbufs s)) s)) (delete p bs).
Proof using HM.
  intros Hr E Eb Hh Hr1 Ho. pose proof (rep_zero _ _ _ _ _ _ Hr) as H0. pose proof Hr as [_ Hd Hf Hn Hon Hm].
  destruct (Hn p a E) as (b' & Eb' & [_ _ _ [Href _] _ _ _ _]). simplify_eq. assert (incoming σ p = 0 /\ n_held a = 1)%nat as [Hi Hh1] by lia.
  set (σ' := hold (n_next a) (delete p σ)).
  assert (forall q c', σ' !! q = Some c' -> q <> p /\ exists c, σ !! q = Some c /\ n_front c' = n_front c /\ n_data c' = n_data c /\ n_next c' = n_next c /\
    (incoming σ' q + n_held c' = incoming σ q + n_held c)%nat) as Hinv.
  { intros q c' Ec. unfold σ', hold in Ec |- *. rewrite incoming_alter by done. assert (q <> p) as Hq.
    { intros ->. apply mk_is_Some, lookup_alter_is_Some in Ec. by apply lookup_delete_is_Some in Ec as [? _]. }
    split; [done|]. pose proof (incoming_delete σ p a q E) as Hdel. unfold points in Hdel. destruct (decide (n_next a = q)) as [Hq'|Hq'].
    - subst q. rewrite lookup_alter_eq, lookup_delete_ne in Ec by done. destruct (σ !! n_next a) as [c|] eqn:Ec2; [|done]. injection Ec as <-. exists c.
      split_and!; try done. simpl. lia.
    - rewrite lookup_alter_ne, lookup_delete_ne in Ec by done. exists c'. split_and!; try done. lia. }
  assert (forall q c, q <> p -> σ !! q = Some c -> is_Some (σ' !! q)) as Hkeep.
  { intros q c Hq Ec. unfold σ', hold. apply lookup_alter_is_Some. rewrite lookup_delete_ne by done. by eexists. }
  assert (forall q n, q <> p -> total σ q n -> total σ' q n) as Ht.
  { intros q n Hq. apply total_frame. intros l x Hl Hx. assert (x <> p) as Hxp by (intros ->; by apply (path_avoid _ _ _ _ Hl Hq Hi)).
    destruct (path_in _ _ _ _ Hl Hx) as [[c Ec] _]. destruct (Hkeep x c Hxp Ec) as [c' Ec']. destruct (Hinv x c' Ec') as (_ & c2 & ? & ? & ? & ? & _).
    exists c, c'. simplify_eq. by split_and!. }
  split; try done; simpl.
  - intros q. rewrite lookup_delete_is_Some, Hd. split.
    + intros [Hq [[c Ec]|HF]]; [left; by eapply Hkeep|by right].
    + intros [[c Ec]|HF]; [destruct (Hinv q c Ec) as (? & c2 & ? & _); split; [done|left; by eexists]|]. split; [|by right]. intros <-. by rewrite Hf in E.
  - intros q HF. destruct (σ' !! q) as [c|] eqn:Ec; [|done]. destruct (Hinv q c Ec) as (_ & c2 & Ec2 & _). by rewrite Hf in Ec2.
  - intros q c' Ec. destruct (Hinv q c' Ec) as (Hq & c & Ec2 & ? & ? & ? & ?). rewrite lookup_delete_ne by done.
    destruct (Hn q c Ec2) as (b' & Eb2 & Hrep). exists b'. split; [done|]. eapply node_rep_frame; try done; [intros n; by apply Ht|by rewrite lookup_delete_ne].
  - intros q. rewrite lookup_delete_is_Some. intros [Hq [b' Eb2]]. destruct (Hon q) as [c Ec]; [by eexists|]. by eapply Hkeep.
Qed.

(** Only the nodes' own excess counts; other parts of the store do not. *)
Lemma rep_same F ex ex' lo σ s s' bs : pb_rep F ex lo σ s bs -> (forall p, is_Some (σ !! p) -> ex' p = ex p) ->
  pbufs s' = pbufs s -> bytes s' = bytes s -> lm_owns (memory s') bs -> pb_rep F ex' lo σ s' bs.
Proof.
  intros Hr Hex Hp Hb Ho. eapply rep_change; try done; [by rewrite Hp|by rewrite Hb|].
  intros q a E. rewrite Hp, Hb. destruct (pr_node _ _ _ _ _ _ Hr q a E) as (b & Eb & Hrep). exists b. split; [done|].
  eapply node_rep_frame; try done. apply Hex. by eexists.
Qed.

(** A new pbuf on a block that was free. *)
Lemma rep_alloc F ex lo σ s bs q src v f b m : pb_rep F ex lo σ s bs -> fresh_block bs q v -> lm_owns m (<[q := (src, v)]> bs) ->
  next b = 0 -> 0 <= f -> payload b = q + SIZEOF_STRUCT_PBUF + f -> 0 <= len b -> payload b + len b <= q + v -> ref b = 1 -> flags b = 0 -> contiguous b = true ->
  source_of b = Some src -> tot_len b - ex q = len b -> 0 <= tot_len b < 65536 ->
  exists fr d, Z.of_nat (length fr) = f /\ Z.of_nat (length d) = len b /\ σ !! q = None /\ (q ∉ F) /\
    pb_rep F ex lo (<[q := mkNode fr d 0 1]> σ) (set_pbuf q b (set_memory m s)) (<[q := (src, v)]> bs).
Proof using HM.
  intros Hr (Hq0 & Hqv & _ & Hap) Ho Hn Hf Hpay Hl Hle Href Hfl Hcont Hsrc Htot Htl. pose proof (rep_zero _ _ _ _ _ _ Hr) as H0. pose proof (rep_graph _ _ _ _ _ _ Hr) as Hok.
  destruct (lm_inside _ _ q src v Ho (lookup_insert_eq _ _ _)) as (_ & _ & _ & Hv & ar & n & Har & Hlo & Hhi).
  assert (bs !! q = None) as Hbq.
  { destruct (bs !! q) as [[t u]|] eqn:E; [|done]. destruct (lm_inside _ _ _ _ _ (pr_owns _ _ _ _ _ _ Hr) E) as (_ & _ & _ & ? & _). destruct (Hap q t u E); lia. }
  assert (σ !! q = None /\ (q ∉ F)) as [Hσq HFq].
  { split; [apply eq_None_not_Some; intros Hs|intros Hs]; (destruct (proj2 (pr_dom _ _ _ _ _ _ Hr q)) as [? ?]; [auto|congruence]). }
  unfold SIZEOF_STRUCT_PBUF in *. destruct (load_bytes_mapped (q + 16) (Z.to_nat f + Z.to_nat (len b)) (bytes s)) as [x Ex].
  { eapply mapped_sub; [by apply (pr_mapped _ _ _ _ _ _ Hr ar n)|lia|lia]. }
  pose proof (length_load _ _ _ _ Ex) as Hx. exists (take (Z.to_nat f) x), (drop (Z.to_nat f) x). rewrite length_take, length_drop. split_and!; [lia|lia|done|done|].
  set (a := mkNode (take (Z.to_nat f) x) (drop (Z.to_nat f) x) 0 1).
  assert (forall p n, total σ p n -> total (<[q := a]> σ) p n) as Ht.
  { intros p k. apply total_frame. intros l y Hy Hin. destruct (path_in _ _ _ _ Hy Hin) as [[c Ec] _]. exists c, c. rewrite lookup_insert_ne by (intros ->; congruence). done. }
  assert (forall p, is_Some (σ !! p) \/ p = q -> incoming (<[q := a]> σ) p = incoming σ p) as Hin.
  { intros p Hp. rewrite incoming_new by done. unfold points. rewrite decide_False; [lia|]. simpl. intros <-. destruct Hp as [[? Hp]|]; [congruence|lia]. }
  split.
  - done.
  - intros p. destruct (decide (p = q)) as [->|]; [rewrite !lookup_insert_eq; naive_solver|rewrite !lookup_insert_ne by done; apply (pr_dom _ _ _ _ _ _ Hr)].
  - intros p Hp. rewrite lookup_insert_ne by (by intros ->). by apply (pr_foreign _ _ _ _ _ _ Hr).
  - intros p c. simpl. destruct (decide (p = q)) as [->|Hpq].
    + rewrite !lookup_insert_eq. intros [= <-]. exists b. split; [done|]. split; simpl; rewrite ?length_take, ?length_drop; try done; try (by right); try lia.
      * split; [|done]. exists [q]. split; [econstructor; [lia|apply lookup_insert_eq|constructor]|]. rewrite (data_cons _ q a) by apply lookup_insert_eq. rewrite length_app. simpl. rewrite length_drop. lia.
      * rewrite Hin by auto. rewrite (incoming_absent σ q) by (done || lia). lia.
      * unfold SIZEOF_STRUCT_PBUF. lia.
      * exists src, v. rewrite lookup_insert_eq. done.
      * unfold SIZEOF_STRUCT_PBUF. by rewrite take_drop, Hx.
    + rewrite !lookup_insert_ne by done. intros Ec. destruct (pr_node _ _ _ _ _ _ Hr p c Ec) as (b' & Eb' & Hrep). exists b'. split; [done|].
      eapply node_rep_frame; try done; [intros k; by apply Ht|rewrite Hin; [done|left; by eexists]|by rewrite lookup_insert_ne].
  - intros p. simpl. destruct (decide (p = q)) as [->|]; [rewrite !lookup_insert_eq; by eexists|rewrite !lookup_insert_ne by done; apply (pr_only _ _ _ _ _ _ Hr)].
  - apply (pr_mapped _ _ _ _ _ _ Hr).
Qed.

(** ** Freeing *)

Section calls.
Context (custom_free_function : Z -> Store H -> option (Store H)).

Lemma release_ok p b src v s bs : flags b = 0 -> source_of b = Some src -> lm_owns (memory s) bs -> bs !! p = Some (src, v) ->
  exists m, release custom_free_function p b s = Some (set_memory m (set_pbufs (delete p (pbufs s)) s)) /\ lm_owns m (delete p bs).
Proof using HM.
  intros Ef Es Ho Eb. unfold release. rewrite Ef. cbn [Z.land Z.eqb negb]. rewrite Es. destruct src.
  - destruct (lm_free_ok _ _ _ _ Ho Eb) as (m & Em & Hm). simpl. rewrite Em. by exists m.
  - destruct (lm_pool_free_ok _ _ STD_MEMP_PBUF _ _ Ho ltac:(done) Eb) as (m & Em & Hm). simpl. rewrite Em. by exists m.
  - destruct (lm_pool_free_ok _ _ STD_MEMP_PBUF_POOL _ _ Ho ltac:(done) Eb) as (m & Em & Hm). simpl. rewrite Em. by exists m.
Qed.

(** pbuf_free takes a reference and everything that only it could reach. *)
Lemma free_chain_ok fuel l p n F ex lo σ s bs : pb_rep F ex lo σ s bs -> path σ p l -> (length l < fuel)%nat -> lo ∉ l ->
  (forall a, σ !! p = Some a -> (0 < n_held a)%nat) -> 0 <= n < 256 ->
  exists s' σ' bs', free_chain custom_free_function fuel p n s = Some (s', u8 (n + Z.of_nat (size σ) - Z.of_nat (size σ'))) /\
    pb_rep F ex lo σ' s' bs' /\ bytes s' = bytes s /\ (size σ' <= size σ)%nat /\ graph_ok σ' /\
    (forall q a, σ' !! q = Some a -> unhold p σ !! q = Some a) /\
    (forall q a, unhold p σ !! q = Some a -> (0 < n_held a)%nat -> is_Some (σ' !! q)) /\
    (size σ <= size σ' + length l)%nat /\ (forall q, q ∉ l -> σ' !! q = σ !! q) /\ (p = 0 \/ (σ' !! p = None /\ (size σ' < size σ)%nat) \/ (is_Some (σ' !! p) /\ size σ' = size σ)).
Proof using HM.
  revert l p n σ s bs. induction fuel as [|fuel IH]; [lia|]. intros l p n σ s bs Hr Hl Hlen Hlo Hheld Hn. cbn [free_chain].
  pose proof (rep_zero _ _ _ _ _ _ Hr) as H0. inversion Hl as [|? a r Hp E Hlr]; subst l.
  { subst p. cbn [Z.eqb]. exists s, σ, bs. rewrite unhold_none by done. replace (n + _ - _) with n by lia. rewrite u8_small by done.
    split_and!; try done; [by apply (rep_graph _ _ _ _ _ _ Hr)|simpl; lia|by left]. }
  subst. specialize (Hheld a E). rewrite (proj2 (Z.eqb_neq _ _)) by done.
  destruct (pr_node _ _ _ _ _ _ Hr p a E) as (b & Eb & Hrep). pose proof Hrep as [[->|Hnext] _ _ [Href Hpos] [Hfl _] _ (src & v & Es & Ebs & _) _]; [by destruct Hlo; left|].
  unfold get. rewrite Eb. cbn [mbind option_bind]. rewrite u8_small by lia. case_tests.
  - rewrite Hnext. assert (ref b = 1) as Hr1 by lia.
    destruct (release_ok p b src v (set_pbuf p (set_ref (ref b - 1) b) s) bs Hfl Es (pr_owns _ _ _ _ _ _ Hr) Ebs) as (m & -> & Hm).
    cbn [mbind option_bind]. replace (set_memory m _) with (set_memory m (set_pbufs (delete p (pbufs s)) s)) by (unfold set_memory, set_pbuf, set_pbufs; simpl; by rewrite delete_insert_eq).
    assert (r = [] \/ is_Some (σ !! n_next a)) as Hnx by (inversion Hlr; subst; [by left|right; by eexists]).
    set (σ1 := hold (n_next a) (delete p σ)).
    assert (p ∉ r) as Hpr by (apply path_nodup in Hl; by apply NoDup_cons in Hl as [? _]).
    assert (path σ1 (n_next a) r) as Hl1.
    { apply (path_frame σ); [|done]. intros q Hq. assert (q <> p) by (by intros ->). unfold σ1, hold.
      destruct (decide (q = n_next a)) as [->|]; [rewrite lookup_alter_eq|rewrite lookup_alter_ne by done]; rewrite lookup_delete_ne by done; [by destruct (σ !! n_next a)|done]. }
    destruct (IH r (n_next a) (u8 (n + 1)) σ1 _ (delete p bs) (rep_release _ _ _ _ _ _ _ _ _ m Hr E Eb Hheld Hr1 Hm) Hl1) as (s' & σ' & bs' & -> & Hr' & Hby & Hsz & Hok & Hsub & Hkeep & Hszl & Hoff & _).
    + simpl in Hlen; lia.
    + intros Hin. apply Hlo. by right.
    + intros c. unfold σ1, hold. rewrite lookup_alter_eq. destruct (delete p σ !! n_next a); [|done]. intros [= <-]. simpl. lia.
    + apply u8_range.
    + assert (size σ1 = size (delete p σ)) as Hs1.
      { unfold σ1, hold. rewrite <- !size_dom. by rewrite dom_alter_L. }
      assert (size σ = S (size (delete p σ))) as Hs2.
      { rewrite map_size_delete, E. assert (size σ <> 0%nat); [|lia]. intros Ez%map_size_empty_inv. by rewrite Ez, lookup_empty in E. }
      exists s', σ', bs'. rewrite Hs1 in *. split; [do 2 f_equal; unfold u8; Z.div_mod_to_equations; lia|]. unfold σ1 in Hsub, Hkeep. rewrite unhold_hold in Hsub, Hkeep.
      split_and!; try done; [lia| | |simpl; lia| |].
      * intros q c Ec. apply Hsub in Ec. apply lookup_delete_Some in Ec as [? ?]. by rewrite lookup_unhold_ne.
      * intros q c Ec Hc. apply (Hkeep q c); [|done]. apply lookup_delete_Some. destruct (decide (p = q)) as [<-|].
        { rewrite (unhold_some p a), lookup_insert_eq in Ec by done. injection Ec as <-. simpl in Hc. lia. }
        split; [done|]. by rewrite lookup_unhold_ne in Ec.
      * intros q [Hqp Hqr]%not_elem_of_cons. rewrite (Hoff q Hqr). unfold σ1, hold. destruct (decide (q = n_next a)) as [Hqn|]; [|by rewrite lookup_alter_ne, lookup_delete_ne].
        destruct Hnx as [->|[c Ec]]; [|by destruct Hqr; subst q; destruct (path_head _ _ _ _ ltac:(intros Hz; rewrite Hz in Ec; congruence) Ec Hlr) as (? & -> & _); left].
        assert (n_next a = 0) as Hz by (by inversion Hlr). assert (σ !! q = None) as Hq0 by (by rewrite Hqn, Hz). rewrite Hq0.
        apply eq_None_not_Some. rewrite lookup_alter_is_Some, lookup_delete_is_Some, Hq0. by intros [_ [? ?]].
      * right. left. split; [|lia]. destruct (σ' !! p) as [c|] eqn:Ec; [|done]. apply Hsub in Ec. by rewrite lookup_delete_eq in Ec.
  - pose proof (rep_refs _ _ _ _ _ _ p a b (n_held a - 1) Hr E Eb ltac:(lia)) as Hr'. rewrite <- (unhold_some p a) in Hr' by done.
    replace (Z.of_nat (incoming σ p + (n_held a - 1))) with (ref b - 1) in Hr' by lia.
    assert (size (unhold p σ) = size σ) as Hs by (unfold unhold; rewrite <- !size_dom; by rewrite dom_alter_L).
    exists (set_pbuf p (set_ref (ref b - 1) b) s), (unhold p σ), bs. rewrite Hs. replace (n + _ - _) with n by lia. rewrite u8_small by done.
    split_and!; try done; [by apply (rep_graph _ _ _ _ _ _ Hr')|simpl; lia| |].
    + intros q [Hqp _]%not_elem_of_cons. by apply lookup_unhold_ne.
    + right. right. split; [|done]. unfold unhold. rewrite lookup_alter_is_Some. by eexists.
Qed.
Lemma pbuf_free_ok p F ex lo σ s bs : pb_rep F ex lo σ s bs -> (exists a, σ !! p = Some a /\ (0 < n_held a)%nat) ->
  (forall l, path σ p l -> lo ∉ l) ->
  exists s' σ' bs', pbuf_free custom_free_function p s = Some (s', u8 (Z.of_nat (size σ) - Z.of_nat (size σ'))) /\
    pb_rep F ex lo σ' s' bs' /\ bytes s' = bytes s /\ kept (unhold p σ) σ' /\ (size σ' <= size σ)%nat /\
    (forall l, path σ p l -> (size σ <= size σ' + length l)%nat /\ forall q, q ∉ l -> σ' !! q = σ !! q) /\ ((σ' !! p = None /\ (size σ' < size σ)%nat) \/ (is_Some (σ' !! p) /\ size σ' = size σ)).
Proof using HM.
  intros Hr (a & E & Ha) Hlo. pose proof (rep_zero _ _ _ _ _ _ Hr) as H0. destruct (go_path _ (rep_graph _ _ _ _ _ _ Hr) p a E) as [l Hl].
  pose proof (path_length _ _ _ Hl) as Hlen.
  destruct (free_chain_ok (S (size (pbufs s))) l p 0 F ex lo σ s bs Hr Hl) as (s' & σ' & bs' & E' & Hr' & Hb & Hsz & Hok & Hsub & Hkeep & Hszl & Hoff & Hp).
  - rewrite (rep_size _ _ _ _ _ _ Hr). lia.
  - by apply Hlo.
  - intros a' Ea. by simplify_eq.
  - done.
  - exists s', σ', bs'. split; [exact E'|]. split_and!; try done; [| |by destruct Hp as [->|]; [congruence|]].
    + apply kept_intro; try done. apply eq_None_not_Some. unfold unhold. rewrite lookup_alter_is_Some, H0. by intros [? ?].
    + intros l' Hl'. by rewrite (path_det _ _ _ _ Hl' Hl).
Qed.
End calls.
End spec.
