(* ===== verification/PbufSpec.v ===== *)
(** * What packet buffers promise

    The calls of pbuf.c on a graph of [PbufGraph], for pbufs of the heap and
    of the pool. *)

From S2P Require Import Prelude Bytes Clients LwipErr Mem MemSpec LwipMem Pbuf PbufGraph PbufRep.
#[local] Open Scope Z_scope.

Inductive PbufCall :=
| PAlloc (layer length type : Z) | PRef (p : Z) | PFree (p : Z)
| PCat (h t : Z) | PChain (h t : Z) | PDechain (p : Z) | PRealloc (p new_len : Z)
| PRemoveHeader (p n : Z) | PAddHeader (p n : Z)
| PTake (p : Z) (bs : list Z) | PCopyPartial (p n offset : Z).

Inductive PbufAns := ADone | APbuf (p : Z) | ACount (n : Z) | AErr (e : Z) | ABytes (bs : list Z).

(** ** The rules *)

Definition held (σ : Graph) (p : Z) : Prop := exists a, σ !! p = Some a /\ (0 < n_held a)%nat.
Definition references (σ : Graph) (p : Z) : nat := (incoming σ p + match σ !! p with Some a => n_held a | None => 0 end)%nat.
Definition total_of (σ : Graph) (l : list Z) : Z := Z.of_nat (length (data σ l)).
(** The chain [l] can be followed by that of [t]. *)
Definition joinable (σ : Graph) (h t : Z) : Prop :=
  held σ t /\ exists l r, path σ h l /\ h ∈ l /\ exclusive σ l /\ (t ∉ l) /\ path σ t r /\ total_of σ l + total_of σ r < 65536.
(** [n] bytes of the chain end in [z], after [l1]. *)
Definition cut_at (σ : Graph) (p n : Z) (l1 : list Z) (z : Z) (l2 : list Z) : Prop :=
  path σ p (l1 ++ z :: l2) /\ (l1 = [] \/ total_of σ l1 < n) /\ n <= total_of σ (l1 ++ [z]).

Definition pbuf_may (c : PbufCall) (σ : Graph) : Prop :=
  match c with
  | PAlloc layer n type => 0 <= layer <= 1024 /\ 0 <= n < 65536 /\ (type = PBUF_RAM \/ type = PBUF_POOL)
  | PRef p => is_Some (σ !! p) /\ (references σ p < 255)%nat
  | PFree p => held σ p
  | PCat h t => joinable σ h t
  | PChain h t => joinable σ h t /\ (references σ t < 255)%nat
  | PDechain p => is_Some (σ !! p) /\ incoming σ p = 0%nat /\ forall l, path σ p l -> (length l <= 256)%nat
  | PRealloc p n => is_Some (σ !! p) /\ 0 <= n < 65536 /\ forall l1 z l2, cut_at σ p n l1 z l2 -> exclusive σ (l1 ++ [z])
  | PRemoveHeader p n | PAddHeader p n => is_Some (σ !! p) /\ incoming σ p = 0%nat /\ 0 <= n
  | PTake p bs => is_Some (σ !! p) /\ Z.of_nat (length bs) < 65536
  | PCopyPartial p n offset => is_Some (σ !! p) /\ 0 <= n < 65536 /\ 0 <= offset < 65536
  end.

(** The bytes of a chain from the front replaced. *)
Definition overwritten (l : list Z) (bs : list Z) (σ σ' : Graph) : Prop :=
  data σ' l = bs ++ drop (length bs) (data σ l) /\
  forall q, match σ !! q, σ' !! q with
    | Some a, Some a' => n_front a' = n_front a /\ n_next a' = n_next a /\ n_held a' = n_held a /\ length (n_data a') = length (n_data a) /\ (q ∉ l -> a' = a)
    | None, None => True
    | _, _ => False
    end.

Inductive pbuf_spec : PbufCall -> Graph -> Graph -> PbufAns -> Prop :=
| SAlloc layer n type (σ σ' : Graph) p l : grown σ σ' p l layer n -> (type = PBUF_RAM \/ n <= PBUF_POOL_BUFSIZE_ALIGNED - LWIP_MEM_ALIGN_SIZE layer -> l = [p]) ->
    pbuf_spec (PAlloc layer n type) σ σ' (APbuf p)
| SAllocFails layer n type σ : pbuf_spec (PAlloc layer n type) σ σ (APbuf 0)
| SRef p σ : pbuf_spec (PRef p) σ (hold p σ) ADone
| SFree p (σ σ' : Graph) : kept (unhold p σ) σ' -> pbuf_spec (PFree p) σ σ' (ACount (u8 (Z.of_nat (size σ) - Z.of_nat (size σ'))))
| SCat h t l z a σ : path σ h (l ++ [z]) -> σ !! z = Some a -> pbuf_spec (PCat h t) σ (unhold t (<[z := with_next t a]> σ)) ADone
| SChain h t l z a σ : path σ h (l ++ [z]) -> σ !! z = Some a -> pbuf_spec (PChain h t) σ (<[z := with_next t a]> σ) ADone
| SDechainAlone p a σ : σ !! p = Some a -> n_next a = 0 -> pbuf_spec (PDechain p) σ σ (APbuf 0)
| SDechain p a (σ σ' : Graph) : σ !! p = Some a -> n_next a <> 0 -> kept (<[p := with_next 0 a]> σ) σ' ->
    pbuf_spec (PDechain p) σ σ' (APbuf (if decide (is_Some (σ' !! n_next a)) then n_next a else 0))
| SReallocLonger p n l σ : path σ p l -> total_of σ l <= n -> pbuf_spec (PRealloc p n) σ σ ADone
| SRealloc p n l1 z l2 a (σ σ' : Graph) : total_of σ (l1 ++ z :: l2) > n -> cut_at σ p n l1 z l2 -> σ !! z = Some a ->
    kept (<[z := mkNode (n_front a) (take (Z.to_nat (n - total_of σ l1)) (n_data a)) 0 (n_held a)]> σ) σ' -> pbuf_spec (PRealloc p n) σ σ' ADone
| SRemoveHeader p n a σ : σ !! p = Some a -> n <= Z.of_nat (length (n_data a)) ->
    pbuf_spec (PRemoveHeader p n) σ (<[p := with_bytes (n_front a ++ take (Z.to_nat n) (n_data a)) (drop (Z.to_nat n) (n_data a)) a]> σ) (AErr 0)
| SRemoveHeaderFails p n a σ : σ !! p = Some a -> Z.of_nat (length (n_data a)) < n -> pbuf_spec (PRemoveHeader p n) σ σ (AErr 1)
| SAddHeader p n a l k σ : σ !! p = Some a -> path σ p l -> Z.of_nat (length (n_front a)) = k + n -> 0 <= k -> total_of σ l + n < 65536 ->
    pbuf_spec (PAddHeader p n) σ (<[p := with_bytes (take (Z.to_nat k) (n_front a)) (drop (Z.to_nat k) (n_front a) ++ n_data a) a]> σ) (AErr 0)
| SAddHeaderFails p n a l σ : σ !! p = Some a -> path σ p l -> Z.of_nat (length (n_front a)) < n \/ 65536 <= total_of σ l + n ->
    pbuf_spec (PAddHeader p n) σ σ (AErr 1)
| STake p bs l (σ σ' : Graph) : path σ p l -> Z.of_nat (length bs) <= total_of σ l -> overwritten l bs σ σ' -> pbuf_spec (PTake p bs) σ σ' (AErr ERR_OK)
| STakeFails p bs l σ : path σ p l -> total_of σ l < Z.of_nat (length bs) -> pbuf_spec (PTake p bs) σ σ (AErr ERR_MEM)
| SCopyPartial p n offset l σ : path σ p l -> pbuf_spec (PCopyPartial p n offset) σ σ (ABytes (take (Z.to_nat n) (drop (Z.to_nat offset) (data σ l)))).

Section chains.
Context {H : Type} `{!LwipMem H} {HM : LwipMemOk H} (F : gset Z).

(** ** Joining chains *)

Lemma cat_walk_ok fuel h l z t T σ (s : Store H) : (forall q a, σ !! q = Some a -> next <$> pbufs s !! q = Some (n_next a)) ->
  path σ h (l ++ [z]) -> t ∉ l -> tot_len <$> pbufs s !! t = Some T -> (length l < fuel)%nat ->
  cat_walk fuel h t s = Some (set_pbufs (alters (fun b => set_tot_len (u16 (tot_len b + T)) b) l (pbufs s)) s, z).
Proof.
  revert h l s. induction fuel as [|fuel IH]; intros h l s Hlk Hp Ht HT Hlen; [lia|]. cbn [cat_walk].
  destruct l as [|x l]; inversion Hp as [|? a r Hx E Hr]; subst.
  - assert (n_next a = 0) as H0 by (by inversion Hr). pose proof (Hlk z a E) as Hz. unfold get. destruct (pbufs s !! z) as [b|] eqn:Eb; [|done]. injection Hz as Hz.
    cbn [mbind option_bind]. rewrite Hz, H0. by destruct s.
  - pose proof (Hlk x a E) as Hz. unfold get. destruct (pbufs s !! x) as [b|] eqn:Eb; [|done]. injection Hz as Hz.
    destruct (pbufs s !! t) as [bt|] eqn:Et; [|done]. injection HT as HT. apply not_elem_of_cons in Ht as [Htx Ht].
    assert (n_next a <> 0) as Hn by (inversion Hr; [by destruct l|done]).
    cbn [mbind option_bind]. rewrite Hz, (proj2 (Z.eqb_neq _ _)) by done. cbn [negb]. rewrite (IH _ l); try done.
    + simpl. rewrite (alter_some _ x b) by done. by rewrite HT.
    + intros q c Ec. simpl. destruct (decide (q = x)) as [->|]; [rewrite lookup_insert_eq; simplify_eq; simpl; by rewrite Hz|rewrite lookup_insert_ne by done; by apply Hlk].
    + simpl. rewrite lookup_insert_ne by done. by rewrite Et, <- HT.
    + simpl in Hlen. lia.
Qed.

Lemma cat_ok h t σ s bs : pb_rep F (fun _ => 0) 0 σ s bs -> joinable σ h t -> exists s' l z a, pbuf_cat h t s = Some s' /\
  path σ h (l ++ [z]) /\ σ !! z = Some a /\ z <> t /\ pb_rep F (fun _ => 0) 0 (joined σ t z a) s' bs.
Proof using HM.
  intros Hr ((at_ & Et & Hat) & l0 & r & Hh & Hh0 & Hex & Htl & Htr & Htot). pose proof (rep_zero _ _ _ _ _ _ Hr) as H0.
  destruct (path_in _ _ _ _ Hh Hh0) as [_ Hnz]. pose proof (rep_pos _ _ _ _ _ _ Hr t ltac:(by eexists)) as Htz.
  destruct (exists_last (l := l0)) as (l & z & ->); [by intros ->; apply elem_of_nil in Hh0|].
  destruct (path_in _ _ _ z Hh ltac:(apply elem_of_app; right; by left)) as [[a Ea] Hz].
  destruct (join_last σ h t z a at_ l r Hh Htr Ea Et Hat Hex Htl) as (Hna & Hzt & Hzl & Hzr & _).
  pose proof (joined_some σ h t z a at_ l r Hh Htr Ea Et Hat Hex Htl) as Hsome.
  pose proof (joined_node σ h t z a at_ l r Hh Htr Ea Et Hat Hex Htl) as Hnode.
  pose proof (joined_total σ h t z a at_ l r Hh Htr Ea Et Hat Hex Htl) as Htotal.
  assert (forall q b, σ !! q = Some b -> next <$> pbufs s !! q = Some (n_next b)) as Hlk.
  { intros q b Eq. destruct (pr_node _ _ _ _ _ _ Hr q b Eq) as (c & -> & [[->|Hn] _ _ _ _ _ _ _]); [congruence|]. simpl. by rewrite Hn. }
  destruct (pr_node _ _ _ _ _ _ Hr t at_ Et) as (bt & Ebt & Hrept). pose proof Hrept as [_ _ [(r' & Hr' & HT) _] _ _ _ _ _].
  rewrite (path_det _ _ _ _ Hr' Htr), Z.sub_0_r in HT. clear r' Hr'.
  destruct (pr_node _ _ _ _ _ _ Hr z a Ea) as (bz & Ebz & _).
  pose proof (path_nodup _ _ _ Hh) as Hnd. assert (NoDup l) as Hndl by (by apply NoDup_app in Hnd as (? & _)).
  assert (t ∉ l) as Htl1 by (intros ?; apply Htl, elem_of_app; by left).
  set (f := fun b => set_tot_len (u16 (tot_len b + tot_len bt)) b). set (m := alters f l (pbufs s)).
  assert (m !! z = Some bz) as Emz by (unfold m; rewrite lookup_alters, decide_False by done; done).
  assert (m !! t = Some bt) as Emt by (unfold m; rewrite lookup_alters, decide_False by done; done).
  exists (set_pbuf z (set_next t (f bz)) (set_pbufs m s)), l, z, a. split_and!; try done.
  { unfold pbuf_cat. rewrite !(proj2 (Z.eqb_neq _ _)) by done. cbn [orb].
    rewrite (cat_walk_ok _ h l z t (tot_len bt) σ s Hlk Hh Htl1); [|by rewrite Ebt|pose proof (path_length _ _ _ Hh) as Hl; rewrite length_app in Hl; rewrite (rep_size _ _ _ _ _ _ Hr); simpl in Hl; lia].
    cbn [mbind option_bind]. unfold get. fold f m. simpl. rewrite Emz, Emt. done. }
  assert (forall q, (<[z := set_next t (f bz)]> m) !! q = if decide (q = z) then Some (set_next t (f bz)) else if decide (q ∈ l) then f <$> pbufs s !! q else pbufs s !! q) as Hm.
  { intros q. destruct (decide (q = z)) as [->|]; [by rewrite lookup_insert_eq|]. rewrite lookup_insert_ne by done. unfold m. by rewrite lookup_alters. }
  eapply rep_change; try done.
  - intros q. simpl. rewrite Hm. case_decide; [subst; rewrite Ebz; by split|]. case_decide; [|done]. by rewrite fmap_is_Some.
  - apply (pr_owns _ _ _ _ _ _ Hr).
  - intros q c' Ec. assert (q <> 0) as Hq0 by (intros ->; apply mk_is_Some, Hsome in Ec; rewrite H0 in Ec; by destruct Ec).
    destruct (Hnode q c' Hq0 Ec) as (c & Eqc & Ef & Ed & En & Ei). simpl. rewrite Hm.
    destruct (pr_node _ _ _ _ _ _ Hr q c Eqc) as (b & Eb & [[->|H1] H2 [H3 H3'] H4 H5 H6 H7 H8]); [done|].
    rewrite Z.sub_0_r in H3. pose proof (Htotal _ _ H3) as H3t.
    set (extra := if decide (q ∈ l ++ [z]) then Z.of_nat (length (data σ r)) else 0) in H3t.
    assert (0 <= tot_len b + extra < 65536) as Hlt.
    { unfold extra. destruct (decide (q ∈ l ++ [z])) as [Hin|_]; [|by rewrite Z.add_0_r]. destruct H3 as (lq & Hq & ->). destruct (path_suffix _ _ _ _ Hh Hin) as (l1 & l2 & El & Hs).
      rewrite (path_det _ _ _ _ Hq Hs). unfold total_of in Htot. rewrite El, data_app, length_app in Htot. lia. }
    assert (exists b', (if decide (q = z) then Some (set_next t (f bz)) else if decide (q ∈ l) then f <$> pbufs s !! q else pbufs s !! q) = Some b' /\
      next b' = n_next c' /\ b' = set_next (next b') (set_tot_len (tot_len b + extra) b)) as (b' & -> & Hn' & Hb').
    { unfold extra in *. destruct (decide (q = z)) as [->|Hqz].
      - simplify_eq. eexists. split; [done|]. simpl. split; [done|]. rewrite decide_True in * by (apply elem_of_app; right; by left). unfold f. rewrite HT, u16_small by lia. done.
      - destruct (decide (q ∈ l)) as [Hin|Hin].
        + rewrite Eb. eexists. split; [done|]. simpl. split; [congruence|]. rewrite decide_True in * by (apply elem_of_app; by left). unfold f. rewrite HT, u16_small by lia. done.
        + rewrite Eb. eexists. split; [done|]. split; [congruence|]. rewrite decide_False by (rewrite elem_of_app, elem_of_cons, elem_of_nil; tauto). rewrite Z.add_0_r. by destruct b. }
    exists b'. split; [done|]. rewrite Hb'. split; simpl; rewrite ?Ef, ?Ed; try done.
    + by right.
    + by rewrite Z.sub_0_r.
    + by rewrite Ei.
Qed.

(** *** Cutting chains *)

(** Where [n] bytes of a chain end. *)
Lemma cut_exists (σ : Graph) l : forall n, l <> [] -> n <= total_of σ l -> exists l1 z l2, l = l1 ++ z :: l2 /\ (l1 = [] \/ total_of σ l1 < n) /\ n <= total_of σ (l1 ++ [z]).
Proof.
  unfold total_of. induction l as [|x l IH]; intros n Hl Hn; [done|]. change (x :: l) with ([x] ++ l) in Hn. rewrite data_app, length_app in Hn.
  destruct (decide (n <= Z.of_nat (length (data σ [x])))) as [Hle|Hgt].
  - exists [], x, l. split; [done|]. split; [by left|done].
  - destruct (IH (n - Z.of_nat (length (data σ [x])))) as (l1 & z & l2 & -> & H1 & H2); [intros ->; simpl in Hn; lia|lia|].
    exists (x :: l1), z, l2. split; [done|]. change ((x :: l1) ++ [z]) with ([x] ++ (l1 ++ [z])). change (x :: l1) with ([x] ++ l1).
    rewrite !(data_app _ [x]), !length_app. split; [|lia]. right. destruct H1 as [->|H1]; simpl; lia.
Qed.

Lemma realloc_walk_ok fuel h l1 z l2 n shrink σ (s : Store H) :
  (forall q a, σ !! q = Some a -> exists b, pbufs s !! q = Some b /\ next b = n_next a /\ len b = Z.of_nat (length (n_data a))) ->
  cut_at σ h n l1 z l2 -> 0 <= n < 65536 -> (length l1 < fuel)%nat ->
  realloc_walk fuel h n shrink s = Some (set_pbufs (alters (fun b => set_tot_len (u16 (tot_len b - shrink)) b) l1 (pbufs s)) s, z, n - total_of σ l1).
Proof.
  revert h l1 n s. induction fuel as [|fuel IH]; intros h l1 n s Hlk (Hp & Hn1 & Hn2) Hn Hlen; [lia|]. cbn [realloc_walk].
  unfold total_of in *. destruct l1 as [|x l1]; inversion Hp as [|? a r Hx E Hrest]; subst.
  - destruct (Hlk z a E) as (b & Eb & _ & Hl). unfold get. rewrite Eb. cbn [mbind option_bind]. simpl in Hn2. rewrite (data_cons _ z a), app_nil_r in Hn2 by done.
    rewrite Z.gtb_ltb, (proj2 (Z.ltb_ge _ _)) by lia. rewrite Z.sub_0_r. by destruct s.
  - destruct (Hlk x a E) as (b & Eb & Hnx & Hl). unfold get. rewrite Eb. cbn [mbind option_bind]. destruct Hn1 as [|Hn1]; [done|].
    change ((x :: l1) ++ [z]) with ([x] ++ (l1 ++ [z])) in Hn2. change (x :: l1) with ([x] ++ l1) in Hn1 |- *. rewrite (data_app _ [x]), length_app in Hn1, Hn2 |- *.
    rewrite (data_cons _ x a), app_nil_r in Hn1, Hn2 |- * by done. rewrite Z.gtb_ltb, (proj2 (Z.ltb_lt _ _)) by lia. rewrite u16_small by lia. rewrite Hnx.
    rewrite (IH _ l1); [| |split; [exact Hrest|unfold total_of; split; [right; lia|lia]]|lia|simpl in Hlen; lia].
    + simpl. rewrite (alter_some _ x b) by done. f_equal. f_equal. unfold total_of. lia.
    + intros q c Ec. simpl. destruct (decide (q = x)) as [->|]; [rewrite lookup_insert_eq; simplify_eq; by eexists|rewrite lookup_insert_ne by done; by apply Hlk].
Qed.

Lemma cut_rep lo h z a l1 l2 k σ s bs s' bs' : pb_rep F (fun _ => 0) 0 σ s bs ->
  path σ h (l1 ++ z :: l2) -> σ !! z = Some a -> exclusive σ (l1 ++ [z]) ->
  (forall q, is_Some (pbufs s' !! q) <-> is_Some (pbufs s !! q)) -> bytes s' = bytes s -> lm_owns (memory s') bs' ->
  let d := take k (n_data a) in
  (forall q, q <> z -> bs' !! q = bs !! q) ->
  (forall q b, pbufs s !! q = Some b -> exists b', pbufs s' !! q = Some b' /\ (q = lo \/ next b' = if decide (q = z) then 0 else next b) /\
    b' = set_next (next b') (set_len (if decide (q = z) then Z.of_nat (length d) else len b)
      (set_tot_len (tot_len b - if decide (q ∈ l1 ++ [z]) then Z.of_nat (length (data σ (z :: l2))) - Z.of_nat (length d) else 0) b))) ->
  (forall b src v, pbufs s !! z = Some b -> source_of b = Some src -> bs !! z = Some (src, v) -> exists v', bs' !! z = Some (src, v') /\ payload b + Z.of_nat (length d) <= z + v') ->
  pb_rep F (fun _ => 0) lo (cut σ z a d) s' bs'.
Proof using HM.
  intros Hr Hh Ea Hex Hdom Hby Ho d Hbs Hpb Hz. pose proof (rep_zero _ _ _ _ _ _ Hr) as H0.
  pose proof (cut_some σ h z a l1 l2 d Hh Ea Hex H0) as Hsome. pose proof (cut_node σ h z a l1 l2 d Hh Ea Hex H0) as Hnode.
  pose proof (cut_total σ h z a l1 l2 d Hh Ea Hex H0) as Htotal.
  destruct (pr_node _ _ _ _ _ _ Hr z a Ea) as (bz & Ebz & [_ _ _ _ _ _ (srcz & vz & Esz & Ebsz & _) _]).
  destruct (Hz _ _ _ Ebz Esz Ebsz) as (v' & Ev' & _).
  eapply rep_change; try done.
  - intros q. destruct (decide (q = z)) as [->|]; [rewrite Ev', Ebsz; by split|by rewrite Hbs].
  - intros ? ? _. by rewrite Hby.
  - intros q c' Ec'. destruct (Hnode q c' Ec') as (c & Ec & Ef & Ed & En & Ei). rewrite Hby.
    destruct (pr_node _ _ _ _ _ _ Hr q c Ec) as (b & Eb & [[->|H1] H2 [H3 H3'] H4 H5 H6 H7 H8]); [congruence|].
    destruct (Hpb q b Eb) as (b' & Eb' & Hn & Hb'). exists b'. split; [done|]. rewrite Z.sub_0_r in H3. pose proof (Htotal _ _ H3) as H3t.
    set (extra := if decide (q ∈ l1 ++ [z]) then Z.of_nat (length (data σ (z :: l2))) - Z.of_nat (length d) else 0) in *.
    assert (0 <= tot_len b - extra < 65536) as Hlt.
    { destruct H3t as (lq & _ & Et). unfold extra in *. destruct (decide (q ∈ l1 ++ [z])); [|lia]. rewrite Et. split; [lia|]. rewrite <- Et.
      unfold d. rewrite (data_cons _ z a), length_app, length_take by done. lia. }
    assert (len b' = Z.of_nat (length (n_data c')) /\ payload b' = payload b /\ type_internal b' = type_internal b) as (Hlen & Hpay & Htype).
    { rewrite Hb', Ed. simpl. split; [|done]. case_decide; [done|]. by rewrite H2. }
    split; rewrite ?Ef, ?Ei, ?Hpay; try done.
    + destruct Hn as [->|Hn]; [by left|right]. rewrite Hn, En, H1. done.
    + rewrite Hb'. simpl. rewrite Z.sub_0_r. by split.
    + by rewrite Hb'.
    + rewrite Hb'. done.
    + destruct H7 as (src & v & Es & Ebs & Hle). destruct (decide (q = z)) as [->|Hqz].
      * destruct (Hz _ _ _ Eb Es Ebs) as (v2 & Ev2 & Hle2). exists src, v2. unfold source_of, pbuf_get_allocsrc in *. rewrite Htype. split; [done|]. split; [done|].
        by rewrite Hlen, Ed.
      * exists src, v. unfold source_of, pbuf_get_allocsrc in *. rewrite Htype, Hbs by done. split; [done|]. split; [done|]. rewrite Hlen, Ed, <- H2. done.
    + rewrite Ed. case_decide; [|done]. subst q. assert (c = a) as -> by congruence. rewrite <- (take_drop k (n_data a)), app_assoc in H8.
      apply load_bytes_split in H8 as [? _]. done.
Qed.

(** The new last pbuf, trimmed; the rest of the chain is still linked. *)
Lemma trim_ok h z a l1 l2 n σ s bs : pb_rep F (fun _ => 0) 0 σ s bs -> cut_at σ h n l1 z l2 -> σ !! z = Some a -> exclusive σ (l1 ++ [z]) ->
  0 <= n < 65536 -> n < total_of σ (l1 ++ z :: l2) ->
  exists b bz s1 s2 bs', get h s = Some b /\ tot_len b = total_of σ (l1 ++ z :: l2) /\ get z s2 = Some bz /\ next bz = n_next a /\
    realloc_walk (S (size (pbufs s))) h n (u16 (tot_len b - n)) s = Some (s1, z, n - total_of σ l1) /\
    realloc_trim z (n - total_of σ l1) s1 = Some (s2, z) /\
    pb_rep F (fun _ => 0) z (cut σ z a (take (Z.to_nat (n - total_of σ l1)) (n_data a))) (set_pbuf z (set_tot_len (n - total_of σ l1) (set_len (n - total_of σ l1) bz)) s2) bs'.
Proof using HM.
  intros Hr Hcut Ea Hex Hn Hlt. pose proof Hcut as (Hh & Hn1 & Hn2). pose proof (rep_zero _ _ _ _ _ _ Hr) as H0.
  assert (is_Some (σ !! h)) as [ah Eh] by (apply (path_in _ _ _ h Hh); destruct l1; inversion Hh; subst; by left).
  destruct (pr_node _ _ _ _ _ _ Hr h ah Eh) as (b & Eb & [_ _ [(lh & Hlh & Htoth) Htb] _ _ _ _ _]).
  rewrite (path_det _ _ _ _ Hlh Hh), Z.sub_0_r in Htoth. clear lh Hlh.
  destruct (pr_node _ _ _ _ _ _ Hr z a Ea) as (bz & Ebz & [Hnz Hlz _ _ [Hfl _] Hpz (src & v & Es & Ebs & Hle) _]). destruct Hnz as [->|Hnz]; [congruence|].
  set (k := n - total_of σ l1). assert (0 <= k <= len bz) as Hk.
  { unfold k. unfold total_of in *. rewrite data_app, length_app, (data_cons _ z a), app_nil_r in Hn2 by done. destruct Hn1 as [->|]; simpl in *; lia. }
  unfold total_of in Hlt. rewrite data_app, length_app in Hlt.
  set (shrink := u16 (tot_len b - n)). set (m := alters (fun b => set_tot_len (u16 (tot_len b - shrink)) b) l1 (pbufs s)).
  assert (shrink = Z.of_nat (length (data σ (z :: l2))) - k) as Hsh.
  { unfold shrink, k, total_of in *. rewrite data_app, length_app in Htoth. rewrite u16_small by lia. lia. }
  assert (0 <= shrink) as Hsh0 by apply u16_range. pose proof (path_nodup _ _ _ Hh) as Hnd. apply NoDup_app in Hnd as (Hnd1 & Hdis & _). assert (z ∉ l1) as Hzl1 by (intros Hin; apply (Hdis z Hin); by left).
  assert (m !! z = Some bz) as Emz by (unfold m; by rewrite lookup_alters, decide_False).
  destruct (lm_inside _ _ _ _ _ (pr_owns _ _ _ _ _ _ Hr) Ebs) as (Hz0 & Hzv & _ & Hv & _). unfold SIZEOF_STRUCT_PBUF in *.
  assert (exists m' bs', realloc_trim z k (set_pbufs m s) = Some (set_memory m' (set_pbufs m s), z) /\ lm_owns m' bs' /\ (forall q, q <> z -> bs' !! q = bs !! q) /\
    exists v', bs' !! z = Some (src, v') /\ payload bz + k <= z + v') as (m' & bs' & Etrim & Ho' & Hbs' & v' & Ev' & Hv').
  { pose proof (pr_owns _ _ _ _ _ _ Hr) as Ho. unfold realloc_trim, get. simpl. rewrite Emz. cbn [mbind option_bind]. unfold source_of in Es. rewrite Hfl, andb_true_r.
    destruct (pbuf_get_allocsrc bz =? 0) eqn:Esrc; [|exists (memory s), bs; split; [by destruct s|]; split_and!; try done; exists v; split; [done|lia]].
    injection Es as <-. destruct (Z.eqb_spec k (len bz)); cbn [negb andb]; [exists (memory s), bs; split; [by destruct s|]; split_and!; try done; exists v; split; [done|lia]|].
    destruct (lm_trim_ok _ _ _ _ (payload bz - z + k) Ho Ebs) as (m' & v' & Et & Hv' & Ho'); [lia|]. rewrite u16_small by lia. rewrite Et. cbn [mbind option_bind].
    exists m', (<[z := (STD_HEAP, v')]> bs). split_and!; try done; [intros q Hq; by rewrite lookup_insert_ne|]. exists v'. rewrite lookup_insert_eq. split; [done|lia]. }
  exists b, bz, (set_pbufs m s), (set_memory m' (set_pbufs m s)), bs'. split_and!; try done.
  { apply (realloc_walk_ok _ h l1 z l2 n shrink σ s); [|done|done|].
    - intros q c Ec. destruct (pr_node _ _ _ _ _ _ Hr q c Ec) as (b' & ? & [[->|?] ? _ _ _ _ _ _]); [congruence|]. by exists b'.
    - pose proof (path_length _ _ _ Hh) as Hl. rewrite length_app in Hl. rewrite (rep_size _ _ _ _ _ _ Hr). lia. }
  assert (length (take (Z.to_nat k) (n_data a)) = Z.to_nat k) as Hlk by (rewrite length_take; lia).
  apply (cut_rep z h z a l1 l2 (Z.to_nat k) σ s bs); try done.
  - intros q. simpl. rewrite insert_is_Some by done. unfold m. rewrite lookup_alters by done. case_decide; [by rewrite fmap_is_Some|done].
  - intros q c Ec. rewrite Hlk, Z2Nat.id by lia. simpl. destruct (decide (q = z)) as [->|Hq].
    + rewrite lookup_insert_eq. eexists. split; [done|]. split; [by left|]. assert (c = bz) as -> by congruence. rewrite decide_True by (apply elem_of_app; right; by left).
      destruct (pr_node _ _ _ _ _ _ Hr z a Ea) as (b' & Eb' & [_ _ [(lz & Hlz' & Htz) _] _ _ _ _ _]). assert (b' = bz) as -> by congruence. rewrite Z.sub_0_r in Htz.
      rewrite (path_det _ _ _ _ Hlz' (path_from _ _ _ _ _ Hh)) in Htz. unfold set_next, set_len, set_tot_len. simpl. f_equal. lia.
    + rewrite lookup_insert_ne by done. unfold m. rewrite lookup_alters by done. destruct (decide (q ∈ l1)) as [Hin|Hin].
      * rewrite Ec. eexists. split; [done|]. split; [by right|]. rewrite decide_True by (apply elem_of_app; by left).
        assert (0 <= tot_len c - shrink < 65536) as Hts.
        { destruct (path_in _ _ _ q Hh) as [[cq Ecq] _]; [apply elem_of_app; by left|]. destruct (pr_node _ _ _ _ _ _ Hr q cq Ecq) as (b' & Eb' & [_ _ [(lq & Hlq & Htq) ?] _ _ _ _ _]).
          assert (b' = c) as -> by congruence. apply list_elem_of_split in Hin as (k1 & k2 & E1). rewrite E1, <- app_assoc in Hh. simpl in Hh. rewrite (path_det _ _ _ _ Hlq (path_from _ _ _ _ _ Hh)) in Htq.
          change (q :: k2 ++ z :: l2) with ((q :: k2) ++ (z :: l2)) in Htq. cbv beta in Htq. rewrite data_app, length_app in Htq. lia. }
        rewrite u16_small by done. rewrite Hsh. destruct c; done.
      * exists c. split; [done|]. split; [by right|]. rewrite decide_False by (rewrite elem_of_app, list_elem_of_singleton; tauto). rewrite Z.sub_0_r. by destruct c.
  - intros c src' v2 Ec Es' Ev2. exists v'. rewrite Hlk, Z2Nat.id by lia. assert (c = bz) as -> by congruence. by simplify_eq.
Qed.

(** *** Headers and data *)

(** The boundary between headers and data of [p] moves. *)
Lemma rep_boundary p a b f d σ s bs : pb_rep F (fun _ => 0) 0 σ s bs -> σ !! p = Some a -> pbufs s !! p = Some b -> incoming σ p = 0%nat ->
  f ++ d = n_front a ++ n_data a -> 0 <= tot_len b + (Z.of_nat (length d) - len b) < 65536 ->
  pb_rep F (fun _ => 0) 0 (<[p := with_bytes f d a]> σ) (set_pbuf p (set_tot_len (tot_len b + (Z.of_nat (length d) - len b)) (set_len (Z.of_nat (length d))
    (set_payload (p + SIZEOF_STRUCT_PBUF + Z.of_nat (length f)) b))) s) bs.
Proof using HM.
  intros Hr E Eb Hi Hfd Htb. eapply rep_change; try done; [intros q; by eapply insert_is_Some|intros q; by eapply insert_is_Some|apply (pr_owns _ _ _ _ _ _ Hr)|].
  intros q c. simpl. pose proof (fun q => incoming_same σ p a (with_bytes f d a) q E eq_refl) as Hin.
  destruct (decide (q = p)) as [->|Hq].
  - rewrite !lookup_insert_eq. intros [= <-]. eexists. split; [done|]. destruct (pr_node _ _ _ _ _ _ Hr p a E) as (b' & Eb' & [H1 H2 [(l & Hl & H3) H3'] H4 H5 H6 (src & v & H7 & H7' & H7'') H8]). simplify_eq.
    pose proof (f_equal length Hfd) as Hlen. rewrite !length_app in Hlen. split; try done; simpl.
    + split; [|done]. pose proof (path_head _ _ _ _ (rep_pos _ _ _ _ _ _ Hr p ltac:(by eexists)) E Hl) as (r & -> & _).
      rewrite (data_cons _ _ a), length_app in H3 by done. exists (p :: r). assert (p ∉ r) as Hpr by (apply path_nodup in Hl; by apply NoDup_cons in Hl as [? _]). split.
      * apply (path_frame σ); [|done]. intros x _. destruct (decide (x = p)) as [->|]; [by rewrite lookup_insert_eq, E|by rewrite lookup_insert_ne].
      * rewrite (data_cons _ _ (with_bytes f d a)), length_app by apply lookup_insert_eq. rewrite (data_frame σ _ r); [simpl; lia|].
        intros x Hx. rewrite lookup_insert_ne; [done|]. by intros ->.
    + by rewrite Hin.
    + exists src, v. split; [done|]. split; [done|]. unfold SIZEOF_STRUCT_PBUF in *. lia.
    + by rewrite Hfd.
  - rewrite !lookup_insert_ne by done. intros Ec. destruct (pr_node _ _ _ _ _ _ Hr q c Ec) as (b' & Eb' & Hrep). exists b'. split; [done|].
    eapply node_rep_frame; try done; [|by rewrite Hin]. intros n. apply total_frame. intros l x Hl Hx.
    assert (x <> p) by (intros ->; by apply (path_avoid _ _ _ _ Hl Hq Hi)). destruct (path_in _ _ _ _ Hl Hx) as [[e Ee] _]. exists e, e. by rewrite lookup_insert_ne.
Qed.

(** The first bytes of [p] are written. *)
Lemma rep_write p a b x σ s bs : pb_rep F (fun _ => 0) 0 σ s bs -> σ !! p = Some a -> pbufs s !! p = Some b -> (length x <= length (n_data a))%nat ->
  exists s', write_payload (payload b) x s = Some s' /\ pbufs s' = pbufs s /\
    pb_rep F (fun _ => 0) 0 (<[p := with_bytes (n_front a) (x ++ drop (length x) (n_data a)) a]> σ) s' bs.
Proof using HM.
  intros Hr E Eb Hx. destruct (pr_node _ _ _ _ _ _ Hr p a E) as (b' & Eb' & [H1 H2 [H3 H3'] H4 H5 H6 (src & v & H7 & H7' & H7'') H8]). simplify_eq.
  pose proof H8 as H8'. rewrite load_bytes_split in H8'. destruct H8' as [Hfront Hdata]. rewrite <- H6 in Hdata.
  rewrite <- (take_drop (length x) (n_data a)) in Hdata. rewrite load_bytes_split in Hdata. destruct Hdata as [Hd1 Hd2]. rewrite length_take, Nat.min_l in Hd1, Hd2 by lia.
  unfold write_payload. rewrite Hd1. cbn [mbind option_bind]. eexists. split; [done|]. split; [done|].
  assert (forall y c, σ !! y = Some c -> n_next <$> <[p:=with_bytes (n_front a) (x ++ drop (length x) (n_data a)) a]> σ !! y = n_next <$> σ !! y) as Hnx.
  { intros y c Ey. destruct (decide (y = p)) as [->|]; [by rewrite lookup_insert_eq, E|by rewrite lookup_insert_ne]. }
  assert (length (x ++ drop (length x) (n_data a)) = length (n_data a)) as Hlen by (rewrite length_app, length_drop; lia).
  eapply rep_change; try done; [intros q; by eapply insert_is_Some|apply (pr_owns _ _ _ _ _ _ Hr)|intros ? ? _; by apply mapped_store|].
  assert (forall q n, total σ q n -> total (<[p:=with_bytes (n_front a) (x ++ drop (length x) (n_data a)) a]> σ) q n) as Ht.
  { intros q n (l & Hl & ->). exists l. split; [apply (path_frame σ); [|done]; intros y Hy; destruct (path_in _ _ _ _ Hl Hy) as [[c Ec] _]; by apply (Hnx y c)|].
    f_equal. clear Hl. induction l as [|y l IH]; [done|]. change (y :: l) with ([y] ++ l). rewrite !data_app, !length_app, IH. f_equal. unfold data. simpl. unfold node_data.
    destruct (decide (y = p)) as [->|]; [rewrite lookup_insert_eq, E; simpl; by rewrite !app_nil_r, Hlen|by rewrite lookup_insert_ne]. }
  pose proof (fun q => incoming_same σ p a (with_bytes (n_front a) (x ++ drop (length x) (n_data a)) a) q E eq_refl) as Hin.
  intros q c. simpl. destruct (decide (q = p)) as [->|Hq].
  - rewrite lookup_insert_eq. intros [= <-]. exists b. split; [done|]. split; simpl; rewrite ?Hlen, ?Hin; try done.
    + split; [by apply Ht|done].
    + by exists src, v.
    + unfold SIZEOF_STRUCT_PBUF in *. rewrite load_bytes_split. split; [rewrite load_store_apart by lia; done|]. rewrite <- H6. rewrite load_bytes_split. split; [apply load_store_same|].
      rewrite load_store_apart by lia. done.
  - rewrite lookup_insert_ne by done. intros Ec. destruct (pr_node _ _ _ _ _ _ Hr q c Ec) as (b' & Eb' & Hrep). exists b'. split; [done|].
    pose proof Hrep as [_ K2 _ _ _ K6 (src' & v' & _ & K7 & K7') _]. pose proof (lm_apart _ _ _ _ _ _ _ _ (pr_owns _ _ _ _ _ _ Hr) H7' K7 (not_eq_sym Hq)) as Hap.
    eapply node_rep_frame; try done; [intros n; apply Ht|by rewrite Hin|]. intros _ _. unfold SIZEOF_STRUCT_PBUF in *. rewrite length_app. apply load_store_apart. lia.
Qed.

(** *** Allocating *)

(** One element of the pool. *)
Lemma pool_new ex σ s bs rem off : pb_rep F ex 0 σ s bs -> 0 <= rem < 65536 -> 0 <= off <= 1024 ->
  exists m q, lm_pool_malloc STD_MEMP_PBUF_POOL (memory s) = Some (m, q) /\
    ((q = 0 /\ lm_owns m bs) \/
     exists qlen fr d bs', q <> 0 /\ Z.min rem (u16 (PBUF_POOL_BUFSIZE_ALIGNED - LWIP_MEM_ALIGN_SIZE off)) = qlen /\ 0 <= qlen <= rem /\ (0 < rem -> 0 < qlen) /\
       off <= Z.of_nat (length fr) /\ Z.of_nat (length d) = qlen /\ σ !! q = None /\
       pb_rep F (fun x => if decide (x = q) then rem - qlen else ex x) 0 (<[q := mkNode fr d 0 1]> σ)
         (pbuf_init_alloced_pbuf q (LWIP_MEM_ALIGN_SIZE (q + SIZEOF_STRUCT_PBUF + off)) rem qlen PBUF_POOL 0 (set_memory m s)) bs').
Proof using HM.
  intros Hr Hrem Hoff. destruct (lm_pool_malloc_ok _ _ STD_MEMP_PBUF_POOL (pr_owns _ _ _ _ _ _ Hr) ltac:(done)) as (m & q & E & Hm). exists m, q. split; [done|].
  destruct Hm as [[-> Ho]|[Hfr Ho]]; [by left|right]. change (pool_size STD_MEMP_PBUF_POOL) with 1544 in *.
  assert (LWIP_MEM_ALIGN_SIZE off = 4 * ((off + 3) / 4)) as Hal by (apply align_size; lia). assert (off <= LWIP_MEM_ALIGN_SIZE off <= 1024) as Hal2 by (rewrite Hal; Z.div_mod_to_equations; lia).
  change PBUF_POOL_BUFSIZE_ALIGNED with 1528. rewrite u16_small by lia. set (qlen := Z.min rem (1528 - LWIP_MEM_ALIGN_SIZE off)).
  pose proof Hfr as (Hq0 & Hqv & Hq4 & _). assert (LWIP_MEM_ALIGN_SIZE (q + SIZEOF_STRUCT_PBUF + off) = q + 16 + LWIP_MEM_ALIGN_SIZE off) as Hpay.
  { unfold SIZEOF_STRUCT_PBUF. rewrite align_size by lia. rewrite Hal. Z.div_mod_to_equations. lia. }
  assert (σ !! q = None) as Hq.
  { destruct (σ !! q) as [c|] eqn:Ec; [|done]. destruct (rep_block _ _ _ _ _ _ Hr q c Ec) as (src & v & Eb & _). destruct (lm_inside _ _ _ _ _ (pr_owns _ _ _ _ _ _ Hr) Eb) as (_ & _ & _ & ? & _).
    destruct Hfr as (_ & _ & _ & Hap). destruct (Hap q src v Eb); lia. }
  assert (pb_rep F (fun x => if decide (x = q) then rem - qlen else ex x) 0 σ s bs) as Hr1.
  { eapply rep_same; try done; [|apply (pr_owns _ _ _ _ _ _ Hr)]. intros p [? Ep]. rewrite decide_False; [done|]. intros ->. congruence. }
  destruct (rep_alloc F _ 0 σ s bs q STD_MEMP_PBUF_POOL 1544 (LWIP_MEM_ALIGN_SIZE off) (mkPbuf 0 (LWIP_MEM_ALIGN_SIZE (q + SIZEOF_STRUCT_PBUF + off)) rem qlen (u8 PBUF_POOL) 0 1 0) m Hr1 Hfr Ho)
    as (fr & d & Hf & Hd & _ & _ & Hr2); simpl; try done; rewrite ?decide_True by done; unfold SIZEOF_STRUCT_PBUF in *; try (unfold qlen; lia).
  exists qlen, fr, d, (<[q := (STD_MEMP_PBUF_POOL, 1544)]> bs). split_and!; try done; [lia|unfold qlen; lia|unfold qlen; lia|unfold qlen; lia|lia].
Qed.

(** It is linked to the chain that is built. *)
Lemma pool_link σ0 σ p l z q a fr d layer k rem s bs : graph_ok σ0 -> σ0 !! 0 = None -> grown σ0 σ p (l ++ [z]) layer k -> σ !! z = Some a ->
  q <> 0 -> σ !! q = None ->
  pb_rep F (fun x => if decide (x = q) then rem else if decide (x ∈ l ++ [z]) then rem + Z.of_nat (length d) else 0) 0 (added σ q fr d) s bs ->
  exists s', upd z (set_next q) s = Some s' /\ memory s' = memory s /\
    pb_rep F (fun x => if decide (x ∈ (l ++ [z]) ++ [q]) then rem else 0) 0 (joined (added σ q fr d) q z a) s' bs.
Proof using HM.
  intros Hok0 H00 Hg Ez Hq Eq Hr. destruct (added_chain σ0 σ p z q l layer k a fr d Hok0 H00 Hg Ez Hq Eq) as (Hp & Hpq & Eza & Eqa & Hex & Hql).
  pose proof (rep_zero _ _ _ _ _ _ Hr) as H0.
  assert (0 < n_held (mkNode fr d 0 1))%nat as Hh1 by (simpl; lia).
  pose proof (joined_some _ p q z a _ l [q] Hp Hpq Eza Eqa Hh1 Hex Hql) as Hsome. pose proof (joined_node _ p q z a _ l [q] Hp Hpq Eza Eqa Hh1 Hex Hql) as Hnode.
  pose proof (joined_total _ p q z a _ l [q] Hp Hpq Eza Eqa Hh1 Hex Hql) as Htotal.
  rewrite (data_cons _ q (mkNode fr d 0 1)), app_nil_r in Htotal by done. simpl in Htotal.
  destruct (pr_node _ _ _ _ _ _ Hr z a Eza) as (bz & Ebz & _). unfold upd, get. rewrite Ebz. cbn [mbind option_bind]. eexists. split; [done|]. split; [done|].
  eapply rep_change; try done; [intros x; by eapply insert_is_Some|apply (pr_owns _ _ _ _ _ _ Hr)|].
  intros x c' Ec. assert (x <> 0) as Hx0 by (intros ->; apply mk_is_Some, Hsome in Ec; rewrite H0 in Ec; by destruct Ec).
  destruct (Hnode x c' Hx0 Ec) as (c & Ecx & Ef & Ed & En & Ei). destruct (pr_node _ _ _ _ _ _ Hr x c Ecx) as (b & Eb & [[->|H1] H2 [H3 H3'] H4 H5 H6 H7 H8]); [done|].
  apply Htotal in H3. simpl. assert (exists b', <[z := set_next q bz]> (pbufs s) !! x = Some b' /\ next b' = n_next c' /\ b' = set_next (next b') b) as (b' & Eb' & Hn' & Hb').
  { rewrite En. destruct (decide (x = z)) as [->|]; [rewrite lookup_insert_eq; simplify_eq; by eexists|rewrite lookup_insert_ne by done]. exists b. split; [done|]. split; [done|]. by destruct b. }
  exists b'. split; [done|]. rewrite Hb'. split; simpl; rewrite ?Ef, ?Ed, ?Ei; try done.
  - by right.
  - split; [|done]. match goal with |- total _ _ ?n => match type of H3 with total _ _ ?m => replace n with m; [done|] end end.
    destruct (decide (x ∈ l ++ [z])) as [Hin|Hin].
    + rewrite (decide_False (P := x = q)) by (by intros ->). rewrite decide_True by (apply elem_of_app; by left). lia.
    + destruct (decide (x = q)) as [->|Hxq]; [rewrite decide_True by (apply elem_of_app; right; by left); lia|].
      rewrite decide_False by (rewrite elem_of_app, list_elem_of_singleton; tauto). lia.
Qed.
End chains.

(** ** The calls *)

Section calls.
Context {H : Type} `{!LwipMem H} {HM : LwipMemOk H}.
Context (custom_free_function : Z -> Store H -> option (Store H)).

Definition run_pbuf (c : PbufCall) (s : Store H) : option (Store H * PbufAns) :=
  match c with
  | PAlloc layer n type => '(s, p) ← pbuf_alloc custom_free_function layer n type s; Some (s, APbuf p)
  | PRef p => s ← pbuf_ref p s; Some (s, ADone)
  | PFree p => '(s, n) ← pbuf_free custom_free_function p s; Some (s, ACount n)
  | PCat h t => s ← pbuf_cat h t s; Some (s, ADone)
  | PChain h t => s ← pbuf_chain h t s; Some (s, ADone)
  | PDechain p => '(s, q) ← pbuf_dechain custom_free_function p s; Some (s, APbuf q)
  | PRealloc p n => s ← pbuf_realloc custom_free_function p n s; Some (s, ADone)
  | PRemoveHeader p n => '(s, e) ← pbuf_remove_header p n s; Some (s, AErr e)
  | PAddHeader p n => '(s, e) ← pbuf_add_header p n s; Some (s, AErr e)
  | PTake p bs => '(s, e) ← pbuf_take p bs s; Some (s, AErr e)
  | PCopyPartial p n offset => bs ← pbuf_copy_partial p n offset s; Some (s, ABytes bs)
  end.

Definition represents (F : gset Z) (σ : Graph) (s : Store H) : Prop := exists bs, pb_rep F (fun _ => 0) 0 σ s bs.
Abbreviation refines F c σ s := (call_refines run_pbuf pbuf_spec (represents F) c σ s).

Context (F : gset Z).

Lemma ref_refines p σ s : represents F σ s -> pbuf_may (PRef p) σ -> refines F (PRef p) σ s.
Proof using HM.
  intros [bs Hr] [[a E] Hn]. destruct (pr_node _ _ _ _ _ _ Hr p a E) as (b & Eb & [_ _ _ [Href Hpos] _ _ _ _]).
  pose proof (rep_pos _ _ _ _ _ _ Hr p (mk_is_Some _ _ E)) as Hp. unfold references in Hn. rewrite E in Hn.
  pose proof (rep_refs _ _ _ _ _ _ p a b (S (n_held a)) Hr E Eb ltac:(lia)) as Hr'. rewrite <- (hold_some p a) in Hr' by done.
  do 3 eexists. split; [|split; [by apply SRef|by exists bs]]. simpl. unfold pbuf_ref, upd, get. rewrite (proj2 (Z.eqb_neq _ _)) by done.
  cbn [negb]. rewrite Eb. cbn [mbind option_bind]. rewrite u8_small by lia. do 4 f_equal. f_equal. lia.
Qed.

Lemma pbuf_free_refines p σ s : represents F σ s -> pbuf_may (PFree p) σ -> refines F (PFree p) σ s.
Proof using HM.
  intros [bs Hr] Hh. pose proof (rep_zero _ _ _ _ _ _ Hr) as H0.
  destruct (pbuf_free_ok custom_free_function p _ _ _ _ _ _ Hr Hh) as (s' & σ' & bs' & E & Hr' & _ & Hk & _).
  { intros l Hl Hin. destruct (path_in _ _ _ _ Hl Hin) as [[? ?] _]. congruence. }
  do 3 eexists. split; [|split; [by apply SFree|by exists bs']]. simpl. by rewrite E.
Qed.

Lemma cat_refines h t σ s : represents F σ s -> pbuf_may (PCat h t) σ -> refines F (PCat h t) σ s.
Proof using HM.
  intros [bs Hr] Hj. destruct (cat_ok F h t σ s bs Hr Hj) as (s' & l & z & a & E & Hp & Ea & _ & Hr').
  do 3 eexists. split; [|split; [by eapply SCat|by exists bs]]. simpl. by rewrite E.
Qed.

Lemma chain_refines h t σ s : represents F σ s -> pbuf_may (PChain h t) σ -> refines F (PChain h t) σ s.
Proof using HM.
  intros [bs Hr] [Hj Hn]. pose proof Hj as ((at_ & Et & Hat) & l0 & r & _ & _ & _ & _ & Htr & _).
  destruct (cat_ok F h t σ s bs Hr Hj) as (s1 & l & z & a & E & Hp & Ea & Hzt & Hr1).
  pose proof (rep_pos _ _ _ _ _ _ Hr t ltac:(by eexists)) as Ht0.
  assert (hold t (joined σ t z a) = <[z := with_next t a]> σ) as Hj'.
  { unfold joined, hold, unhold. apply map_eq. intros q. destruct (decide (q = t)) as [->|]; [|by rewrite !lookup_alter_ne].
    rewrite !lookup_alter_eq, lookup_insert_ne, Et by done. simpl. destruct at_ as [? ? ? k]. unfold hold_node, unhold_node, with_held. simpl in *. do 2 f_equal. lia. }
  destruct (ref_refines t (joined σ t z a) s1) as (s' & ans & σ' & E' & Hs & Hr'); [by exists bs|split|].
  - unfold joined, unhold. rewrite lookup_alter_is_Some, lookup_insert_ne by done. by eexists.
  - unfold references in *. rewrite Et in Hn. assert (incoming (joined σ t z a) t = incoming (<[z := with_next t a]> σ) t) as -> by (by apply incoming_alter). unfold joined, unhold. rewrite lookup_alter_eq, lookup_insert_ne, Et by done.
    pose proof (incoming_insert σ z a (with_next t a) t Ea) as Hi. unfold points in Hi. simpl in *. rewrite (decide_True (P := t = t)) in Hi by done. lia.
  - inversion Hs; subst. rewrite Hj' in *. do 3 eexists. split; [|split; [by eapply SChain|done]]. simpl in E' |- *. unfold pbuf_chain. rewrite E. cbn [mbind option_bind].
    destruct (pbuf_ref t s1) as [s2|]; [|done]. by injection E' as <-.
Qed.

Lemma dechain_refines p σ s : represents F σ s -> pbuf_may (PDechain p) σ -> refines F (PDechain p) σ s.
Proof using HM.
  intros [bs Hr] ([a E] & Hi & Hlen). pose proof (rep_zero _ _ _ _ _ _ Hr) as H0. destruct (pr_node _ _ _ _ _ _ Hr p a E) as (b & Eb & Hrep).
  pose proof Hrep as [[->|Hn] Hl [(lp & Hlp & Htot) Htl] _ _ _ (src & v & Es & Ebs & Hle) _]; [congruence|].
  pose proof (rep_pos _ _ _ _ _ _ Hr p ltac:(by eexists)) as Hp0. destruct (path_head _ _ _ _ Hp0 E Hlp) as (l2 & -> & Hl2).
  rewrite (data_cons _ _ a), length_app in Htot by done.
  destruct (decide (n_next a = 0)) as [Hz|Hz].
  { do 3 eexists. split; [|split; [by eapply SDechainAlone|by exists bs]]. simpl. unfold pbuf_dechain, get. rewrite Eb. cbn [mbind option_bind]. by rewrite Hn, Hz. }
  set (q := n_next a) in *. inversion Hl2 as [|? aq l3 _ Eq Hl3]; subst; [done|].
  destruct (pr_node _ _ _ _ _ _ Hr q aq Eq) as (bq & Ebq & [_ _ [(lq & Hlq & Hq) _] _ _ _ _ _]). rewrite <- (path_det _ _ _ _ Hl2 Hlq) in Hq.
  assert (p <> q) as Hpq by (intros Heq; apply path_nodup in Hlp; apply NoDup_cons in Hlp as [Hlp _]; apply Hlp; rewrite Heq; by left).
  assert (tot_len bq = tot_len b - len b) as Htq by lia.
  set (s1 := set_pbuf p (set_tot_len (len b) (set_next 0 b)) (set_pbuf q (set_tot_len (u16 (tot_len b - len b)) bq) s)).
  assert (pb_rep F (fun _ => 0) 0 (cut σ p a (take (length (n_data a)) (n_data a))) s1 bs) as Hr1.
  { apply (cut_rep F 0 p p a [] (q :: l3) _ σ s bs); try done.
    - intros x c Ec Hx%list_elem_of_singleton. exfalso. by apply (proj1 (incoming_zero _ _) Hi x c).
    - intros x. simpl. rewrite (insert_is_Some _ _ b) by (by rewrite lookup_insert_ne). by eapply insert_is_Some.
    - apply (pr_owns _ _ _ _ _ _ Hr).
    - intros x c Ec. simpl. destruct (decide (x = p)) as [->|Hxp].
      + rewrite lookup_insert_eq. eexists. split; [done|]. simplify_eq. split; [by right|]. rewrite decide_True by (by left). simpl. rewrite firstn_all.
        unfold set_next, set_len, set_tot_len. simpl. rewrite <- Hl. f_equal. rewrite (data_cons _ _ a), length_app by done. lia.
      + rewrite lookup_insert_ne by done. rewrite decide_False by (by rewrite list_elem_of_singleton). destruct (decide (x = q)) as [->|].
        * rewrite lookup_insert_eq. eexists. split; [done|]. assert (c = bq) as -> by congruence. split; [by right|]. rewrite u16_small, Htq by lia. simpl. unfold set_next, set_len, set_tot_len. simpl. f_equal. lia.
        * rewrite lookup_insert_ne by done. exists c. split; [done|]. split; [by right|]. rewrite Z.sub_0_r. by destruct c.
    - intros c src' v' Ec Es' Ev'. rewrite firstn_all. exists v'. simplify_eq. by rewrite <- Hl. }
  rewrite firstn_all in Hr1. assert (unhold q (cut σ p a (n_data a)) = <[p := with_next 0 a]> σ) as Hu by apply unhold_hold.
  assert (held (cut σ p a (n_data a)) q) as Hheld.
  { unfold cut, hold. fold q. exists (hold_node aq). rewrite lookup_alter_eq, lookup_insert_ne, Eq by done. simpl. split; [done|]. lia. }
  pose proof (rep_zero _ _ _ _ _ _ Hr1) as H01.
  destruct (pbuf_free_ok custom_free_function q _ _ _ _ _ _ Hr1 Hheld) as (s' & σ' & bs' & Ef & Hr' & _ & Hk & Hsz & Hszl & Hgone).
  { intros l Hll Hin. destruct (path_in _ _ _ _ Hll Hin) as [[? ?] _]. congruence. }
  rewrite Hu in Hk. assert (size (cut σ p a (n_data a)) <= size σ' + length (q :: l3))%nat as Hcount.
  { apply Hszl. unfold cut, hold. apply (path_frame σ); [|done]. intros x Hx. assert (x <> p) by (intros ->; apply path_nodup in Hlp; by apply NoDup_cons in Hlp as [? _]).
    destruct (decide (x = n_next a)) as [->|]; [rewrite lookup_alter_eq|rewrite lookup_alter_ne by done]; rewrite lookup_insert_ne by done; [by destruct (σ !! n_next a)|done]. }
  specialize (Hlen _ Hlp). simpl in Hlen, Hcount.
  do 3 eexists. split; [|split; [by eapply SDechain|by exists bs']]. simpl. unfold pbuf_dechain, upd, get. rewrite Eb. cbn [mbind option_bind].
  rewrite Hn. fold q. rewrite (proj2 (Z.eqb_neq _ _)) by done. cbn [negb]. rewrite Ebq. cbn [mbind option_bind pbufs set_pbuf set_pbufs].
  rewrite lookup_insert_ne, Eb by done. cbn [mbind option_bind]. fold s1. unfold set_pbuf, set_pbufs in Ef |- *. cbn [pbufs bytes memory free_ooseq_pending] in *. rewrite Ef. cbn [mbind option_bind]. fold q.
  destruct Hgone as [[Hgone ?]|[Hgone Heq]].
  - rewrite u8_small by lia. rewrite (proj2 (Z.gtb_lt _ _)) by lia. rewrite decide_False by (rewrite Hgone; by intros [? ?]). done.
  - rewrite Heq, Z.sub_diag. rewrite decide_True by done. done.
Qed.

(** The end of pbuf_realloc: the rest is freed, then unlinked. *)
Lemma drop_rest z a d h l1 l2 σ s bs b : σ !! 0 = None -> path σ h (l1 ++ z :: l2) -> σ !! z = Some a -> exclusive σ (l1 ++ [z]) ->
  pb_rep F (fun _ => 0) z (cut σ z a d) s bs -> get z s = Some b -> next b = n_next a ->
  exists s' σ', (s ← (if negb (next b =? 0) then '(s, _) ← pbuf_free custom_free_function (next b) s; Some s else Some s); upd z (set_next 0) s) = Some s' /\
    kept (<[z := ended a d]> σ) σ' /\ represents F σ' s'.
Proof using HM.
  intros H0 Hh Ea Hex Hr Eb Hn. rewrite Hn. destruct (cut_next σ h z a l1 l2 d Hh Ea Hex H0) as (Hp & Hne & Hz2 & Hz & _).
  assert (cut σ z a d !! z = Some (ended a d)) as Ez by (by rewrite (lookup_cut σ h z a l1 l2 d Hh Ea Hex H0), decide_True).
  destruct (Z.eqb_spec (n_next a) 0) as [Hn0|Hn0]; cbn [negb].
  { assert (cut σ z a d = <[z := ended a d]> σ) as Hc by (unfold cut; apply hold_none; by rewrite Hn0, lookup_insert_ne).
    exists (set_pbuf z (set_next 0 b) s), (<[z := ended a d]> σ). rewrite Hc in *. split; [cbn [mbind option_bind]; unfold upd; by rewrite Eb|]. split; [by eapply rep_kept|].
    exists bs. by eapply rep_tied. }
  assert (path (cut σ z a d) (n_next a) l2) as Hp'.
  { apply (path_frame σ); [|done]. intros x Hx. rewrite (lookup_cut σ h z a l1 l2 d Hh Ea Hex H0) by done. rewrite decide_False by (by intros ->). case_decide; [|done]. by destruct (σ !! x). }
  destruct (pbuf_free_ok custom_free_function (n_next a) F _ z _ s bs Hr) as (s' & σ' & bs' & Ef & Hr' & _ & Hk & _ & Hoff & _).
  - inversion Hp as [|? c ? _ Ec]; [congruence|]. exists (hold_node c). rewrite (lookup_cut σ h z a l1 l2 d Hh Ea Hex H0), decide_False, decide_True, Ec by done. split; [done|]. simpl. lia.
  - intros l Hl. by rewrite (path_det _ _ _ _ Hl Hp').
  - destruct (Hoff l2 Hp') as [_ Hoffz]. rewrite <- (Hoffz z Hz2) in Ez. unfold cut in Hk. rewrite unhold_hold in Hk.
    destruct (pr_node _ _ _ _ _ _ Hr' z _ Ez) as (b' & Eb' & _). rewrite Ef. cbn [mbind option_bind]. unfold upd, get. rewrite Eb'. cbn [mbind option_bind].
    eexists _, σ'. split; [done|]. split; [done|]. exists bs'. by eapply rep_tied.
Qed.

Lemma realloc_refines p n σ s : represents F σ s -> pbuf_may (PRealloc p n) σ -> refines F (PRealloc p n) σ s.
Proof using HM.
  intros [bs Hr] ([ap Ep] & Hn & Hex). pose proof (rep_zero _ _ _ _ _ _ Hr) as H0.
  destruct (pr_node _ _ _ _ _ _ Hr p ap Ep) as (b & Eb & [_ _ [(l & Hl & Htot) Htl] _ _ _ _ _]). rewrite Z.sub_0_r in Htot.
  destruct (Z.geb_spec n (tot_len b)) as [Hge|Hlt].
  { do 3 eexists. split; [|split; [eapply SReallocLonger; [exact Hl|]|by exists bs]]; [|unfold total_of; lia]. simpl. unfold pbuf_realloc, get. rewrite Eb. cbn [mbind option_bind].
    rewrite (proj2 (Z.geb_le _ _)) by lia. done. }
  destruct (cut_exists σ l n) as (l1 & z & l2 & -> & Hc1 & Hc2).
  { intros ->. inversion Hl. subst. congruence. }
  { unfold total_of. lia. }
  assert (cut_at σ p n l1 z l2) as Hcut by (by split).
  destruct (path_in _ _ _ z Hl) as [[a Ea] _]; [apply elem_of_app; right; by left|].
  destruct (trim_ok F p z a l1 l2 n σ s bs Hr Hcut Ea (Hex _ _ _ Hcut) Hn) as (b' & bz & s1 & s2 & bs' & Eb' & _ & Ebz & Hnz & Ew & Et & Hr'); [unfold total_of; lia|].
  unfold get in Eb'. rewrite Eb in Eb'. injection Eb' as <-.
  set (b2 := set_tot_len (n - total_of σ l1) (set_len (n - total_of σ l1) bz)) in *.
  destruct (drop_rest z a _ p l1 l2 σ _ bs' b2 H0 Hl Ea (Hex _ _ _ Hcut) Hr') as (s' & σ' & Ed & Hk & Hrep).
  - unfold get. simpl. by rewrite lookup_insert_eq.
  - done.
  - do 3 eexists. split; [|split; [eapply SRealloc; [|exact Hcut|exact Ea|exact Hk]|exact Hrep]]; [|unfold total_of; lia].
    simpl. unfold pbuf_realloc, get. rewrite Eb. cbn [mbind option_bind]. rewrite Z.geb_leb, (proj2 (Z.leb_gt _ _)) by lia. rewrite Ew. cbn [mbind option_bind].
    rewrite Et. cbn [mbind option_bind]. unfold upd, get in Ebz, Ed |- *. rewrite Ebz. cbn [mbind option_bind pbufs set_pbuf set_pbufs] in Ed |- *.
    rewrite lookup_insert_eq. fold b2. cbn [mbind option_bind] in Ed |- *.
    match type of Ed with ?x = _ => change (y ← x; Some (y, ADone)) with (match x with Some y => Some (y, ADone) | None => None end) end.
    by rewrite Ed.
Qed.

Lemma remove_header_refines p n σ s : represents F σ s -> pbuf_may (PRemoveHeader p n) σ -> refines F (PRemoveHeader p n) σ s.
Proof using HM.
  intros [bs Hr] ([a E] & Hi & Hn). destruct (pr_node _ _ _ _ _ _ Hr p a E) as (b & Eb & [_ Hl [(l & Hlp & Htot) Htl] _ _ Hpay (src & v & _ & Ebs & Hle) _]).
  pose proof (rep_pos _ _ _ _ _ _ Hr p ltac:(by eexists)) as Hp0. destruct (path_head _ _ _ _ Hp0 E Hlp) as (r & -> & _). cbv beta in Htot.
  rewrite (data_cons _ _ a), length_app in Htot by done. destruct (lm_inside _ _ _ _ _ (pr_owns _ _ _ _ _ _ Hr) Ebs) as (? & ? & _).
  destruct (decide (n <= Z.of_nat (length (n_data a)))) as [Hle'|Hgt].
  - pose proof (rep_boundary F p a b (n_front a ++ take (Z.to_nat n) (n_data a)) (drop (Z.to_nat n) (n_data a)) σ s bs Hr E Eb Hi) as Hr'.
    rewrite <- app_assoc, take_drop, length_drop, length_app, length_take in Hr'. specialize (Hr' eq_refl ltac:(lia)).
    do 3 eexists. split; [|split; [by apply SRemoveHeader|by exists bs]]. simpl. unfold pbuf_remove_header, get. rewrite (proj2 (Z.eqb_neq _ _)) by done.
    unfold SIZEOF_STRUCT_PBUF in *. rewrite Z.gtb_ltb, (proj2 (Z.ltb_ge _ _)) by lia. cbn [orb]. destruct (Z.eqb_spec n 0) as [->|Hn0].
    + do 2 f_equal. unfold set_pbuf, set_pbufs. destruct s as [pb by_ m o]. simpl in *. rewrite insert_id; [done|]. rewrite Eb. f_equal. destruct b. unfold set_tot_len, set_len, set_payload. simpl in *. f_equal; lia.
    + rewrite Eb. cbn [mbind option_bind]. rewrite (u16_small n) by lia. rewrite (proj2 (Z.leb_le _ _)) by lia. cbn [negb]. rewrite !u16_small, u32_small by lia.
      replace (Z.of_nat (length (n_data a) - Z.to_nat n)) with (len b - n) by lia. replace (tot_len b + (len b - n - len b)) with (tot_len b - n) by lia.
      replace (p + 16 + Z.of_nat (length (n_front a) + Z.to_nat n `min` length (n_data a))) with (payload b + n) by lia. done.
  - do 3 eexists. split; [|split; [eapply SRemoveHeaderFails; [exact E|lia]|by exists bs]]. simpl. unfold pbuf_remove_header, get. rewrite (proj2 (Z.eqb_neq _ _)) by done. cbn [orb].
    destruct (Z.gtb_spec n 0xFFFF); [done|]. rewrite (proj2 (Z.eqb_neq _ _)) by lia. rewrite Eb. cbn [mbind option_bind]. rewrite u16_small by lia.
    rewrite (proj2 (Z.leb_gt _ _)) by lia. done.
Qed.

Lemma add_header_refines p n σ s : represents F σ s -> pbuf_may (PAddHeader p n) σ -> refines F (PAddHeader p n) σ s.
Proof using HM.
  intros [bs Hr] ([a E] & Hi & Hn). destruct (pr_node _ _ _ _ _ _ Hr p a E) as (b & Eb & [_ Hl [(l & Hlp & Htot) Htl] _ [_ Hcont] Hpay (src & v & _ & Ebs & Hle) _]).
  pose proof (rep_pos _ _ _ _ _ _ Hr p ltac:(by eexists)) as Hp0. destruct (lm_inside _ _ _ _ _ (pr_owns _ _ _ _ _ _ Hr) Ebs) as (? & ? & _ & ? & _).
  cbv beta in Htot. unfold SIZEOF_STRUCT_PBUF in *.
  destruct (decide (Z.of_nat (length (n_front a)) < n \/ 65536 <= total_of σ l + n)) as [Hbad|Hok].
  - do 3 eexists. split; [|split; [eapply SAddHeaderFails; [exact E|exact Hlp|exact Hbad]|by exists bs]]. simpl. unfold pbuf_add_header, pbuf_add_header_impl, get.
    rewrite (proj2 (Z.eqb_neq _ _)) by done. cbn [orb]. destruct (Z.gtb_spec n 0xFFFF); [done|]. unfold total_of in Hbad. rewrite (proj2 (Z.eqb_neq _ _)) by lia. rewrite Eb. cbn [mbind option_bind].
    rewrite (u16_small n) by lia. destruct (Z.ltb_spec (u16 (n + tot_len b)) n) as [|Hov]; [done|].
    assert (n + tot_len b < 65536) by (unfold u16 in Hov; Z.div_mod_to_equations; lia). rewrite Hcont. unfold SIZEOF_STRUCT_PBUF. rewrite (proj2 (Z.ltb_lt _ _)); [done|].
    destruct Hbad as [Hbad|]; [|lia]. rewrite Hpay, u32_small by lia. lia.
  - unfold total_of in Hok. set (k := Z.of_nat (length (n_front a)) - n). assert (Z.of_nat (length (take (Z.to_nat k) (n_front a))) = k) as Hk1 by (rewrite length_take; lia).
    assert (Z.of_nat (length (drop (Z.to_nat k) (n_front a) ++ n_data a)) = len b + n) as Hk2 by (rewrite length_app, length_drop; lia).
    pose proof (rep_boundary F p a b (take (Z.to_nat k) (n_front a)) (drop (Z.to_nat k) (n_front a) ++ n_data a) σ s bs Hr E Eb Hi) as Hr'.
    rewrite app_assoc, take_drop, Hk1, Hk2 in Hr'. specialize (Hr' eq_refl ltac:(lia)). unfold SIZEOF_STRUCT_PBUF in Hr'.
    do 3 eexists. split; [|split; [eapply (SAddHeader p n a l k); [exact E|exact Hlp|lia|lia|unfold total_of; lia]|by exists bs]].
    simpl. unfold pbuf_add_header, pbuf_add_header_impl, get. rewrite (proj2 (Z.eqb_neq _ _)) by done. cbn [orb].
    rewrite Z.gtb_ltb, (proj2 (Z.ltb_ge _ _)) by lia.
    replace (tot_len b + (len b + n - len b)) with (tot_len b + n) by lia. replace (p + 16 + k) with (payload b - n) by lia.
    destruct (Z.eqb_spec n 0) as [->|Hn0].
    + rewrite !Z.add_0_r, Z.sub_0_r. do 2 f_equal. unfold set_pbuf, set_pbufs. destruct s as [pb by_ m o]. simpl in *. rewrite insert_id; [done|]. rewrite Eb. f_equal. by destruct b.
    + rewrite Eb. cbn [mbind option_bind]. rewrite (u16_small n) by lia. rewrite (proj2 (Z.ltb_ge _ _)) by (rewrite u16_small; lia). rewrite Hcont. unfold SIZEOF_STRUCT_PBUF.
      rewrite !u32_small by lia. rewrite (proj2 (Z.ltb_ge _ _)) by lia. rewrite !u16_small by lia. done.
Qed.

(** Writing along a chain. *)
Lemma overwritten_nil l σ : overwritten l [] σ σ.
Proof. split; [done|]. intros q. by destruct (σ !! q). Qed.
Lemma take_loop_ok fuel p l x σ s bs : pb_rep F (fun _ => 0) 0 σ s bs -> path σ p l -> Z.of_nat (length x) <= total_of σ l -> (length l < fuel)%nat ->
  exists s' σ', take_loop fuel p x s = Some s' /\ overwritten l x σ σ' /\ pb_rep F (fun _ => 0) 0 σ' s' bs.
Proof using HM.
  revert p l x σ s. induction fuel as [|fuel IH]; intros p l x σ s Hr Hl Hx Hlen; [lia|]. cbn [take_loop].
  destruct (Z.eqb_spec (Z.of_nat (length x)) 0) as [Hx0|Hx0].
  { destruct x; [|done]. exists s, σ. split; [done|]. split; [by apply overwritten_nil|done]. }
  unfold total_of in Hx. pose proof (rep_zero _ _ _ _ _ _ Hr) as H0. inversion Hl as [|? a r Hp E Hlr]; subst; [simpl in Hx; lia|].
  rewrite (data_cons _ _ a), length_app in Hx by done. destruct (pr_node _ _ _ _ _ _ Hr p a E) as (b & Eb & Hrep). pose proof Hrep as [[->|Hnx] Hlb _ _ _ _ _ _]; [congruence|].
  unfold get. rewrite Eb. cbn [mbind option_bind]. set (k := Z.to_nat (Z.min (Z.of_nat (length x)) (len b))).
  assert (length (take k x) = k) as Hk by (rewrite length_take; unfold k; lia).
  destruct (rep_write F p a b (take k x) σ s bs Hr E Eb) as (s1 & -> & Hpb & Hr1); [unfold k in *; lia|]. rewrite Hk in Hr1. cbn [mbind option_bind]. rewrite Hnx.
  set (a1 := with_bytes (n_front a) (take k x ++ drop k (n_data a)) a) in *. set (σ1 := <[p := a1]> σ) in *.
  assert (p ∉ r) as Hpr by (apply path_nodup in Hl; by apply NoDup_cons in Hl as [? _]).
  assert (path σ1 (n_next a) r /\ data σ1 r = data σ r) as [Hlr1 Hd1].
  { apply path_data_frame; [|done]. intros y Hy. destruct (path_in _ _ _ _ Hlr Hy) as [[c Ec] _]. exists c, c. unfold σ1. rewrite lookup_insert_ne by (by intros ->). done. }
  destruct (IH (n_next a) r (drop k x) σ1 s1 Hr1 Hlr1) as (s' & σ' & -> & [Hov1 Hov2] & Hr').
  - unfold total_of. rewrite Hd1, length_drop. unfold k. lia.
  - simpl in Hlen. lia.
  - exists s', σ'. split; [done|]. split; [|done]. assert (forall q, match σ !! q, σ1 !! q with
      | Some c, Some c' => n_front c' = n_front c /\ n_next c' = n_next c /\ n_held c' = n_held c /\ length (n_data c') = length (n_data c) /\ (q <> p -> c' = c)
      | None, None => True | _, _ => False end) as Hstep.
    { intros q. unfold σ1. destruct (decide (q = p)) as [->|Hq]; [rewrite lookup_insert_eq, E|rewrite lookup_insert_ne by done; by destruct (σ !! q)].
      split_and!; try done. unfold a1. simpl. rewrite length_app, length_drop, Hk. unfold k. lia. }
    split.
    + pose proof (Hov2 p) as Hp'. unfold σ1 at 1 in Hp'. rewrite lookup_insert_eq in Hp'. destruct (σ' !! p) as [a'|] eqn:Ea'; [|done]. destruct Hp' as (_ & _ & _ & _ & Ha'). rewrite (Ha' Hpr) in Ea'.
      rewrite (data_cons _ p a1 r Ea'), Hov1, Hd1, (data_cons _ p a) by done. simpl. rewrite length_drop.
      destruct (decide (length x <= length (n_data a))%nat) as [Hle|Hgt].
      * assert (k = length x) as -> by (unfold k; lia). rewrite firstn_all, drop_all, Nat.sub_diag, drop_app_le by lia. by rewrite <- app_assoc.
      * assert (k = length (n_data a)) as Hkd by (unfold k; lia). rewrite (drop_ge (n_data a)) by lia. rewrite app_nil_r, app_assoc, take_drop, drop_app_ge by lia. by rewrite Hkd.
    + intros q. specialize (Hstep q). specialize (Hov2 q). destruct (σ !! q) as [c|], (σ1 !! q) as [c1|], (σ' !! q) as [c'|]; try done.
      destruct Hstep as (? & ? & ? & ? & Hs1), Hov2 as (? & ? & ? & ? & Hs2). split_and!; try congruence. intros [Hqp Hqr]%not_elem_of_cons. rewrite Hs2, Hs1; done.
Qed.
Lemma take_refines p x σ s : represents F σ s -> pbuf_may (PTake p x) σ -> refines F (PTake p x) σ s.
Proof using HM.
  intros [bs Hr] ([a E] & Hx). destruct (pr_node _ _ _ _ _ _ Hr p a E) as (b & Eb & [_ _ [(l & Hl & Htot) _] _ _ _ _ _]). cbv beta in Htot.
  pose proof (rep_pos _ _ _ _ _ _ Hr p ltac:(by eexists)) as Hp0. simpl. unfold call_refines. simpl. unfold pbuf_take, get. rewrite (proj2 (Z.eqb_neq _ _)) by done. rewrite Eb. cbn [mbind option_bind].
  destruct (Z.geb_spec (tot_len b) (Z.of_nat (length x))) as [Hle|Hgt]; cbn [negb].
  - destruct (take_loop_ok (S (size (pbufs s))) p l x σ s bs Hr Hl) as (s' & σ' & -> & Hov & Hr').
    + unfold total_of. lia.
    + pose proof (path_length _ _ _ Hl). rewrite (rep_size _ _ _ _ _ _ Hr). lia.
    + cbn [mbind option_bind]. do 3 eexists. split; [done|]. split; [eapply STake; [exact Hl|unfold total_of; lia|exact Hov]|by exists bs].
  - cbn [mbind option_bind]. do 3 eexists. split; [done|]. split; [eapply STakeFails; [exact Hl|unfold total_of; lia]|by exists bs].
Qed.

(** Reading along a chain. *)
Lemma read_ok p a b i k σ s bs : pb_rep F (fun _ => 0) 0 σ s bs -> σ !! p = Some a -> pbufs s !! p = Some b -> 0 <= i -> 0 <= k -> i + k <= len b ->
  read_payload (payload b + i) k s = Some (take (Z.to_nat k) (drop (Z.to_nat i) (n_data a))).
Proof using HM.
  intros Hr E Eb Hi Hk Hik. destruct (pr_node _ _ _ _ _ _ Hr p a E) as (b' & Eb' & [_ H2 _ _ _ H6 _ H8]). simplify_eq.
  rewrite load_bytes_split in H8. destruct H8 as [_ H8]. rewrite <- H6 in H8. rewrite <- (take_drop (Z.to_nat i) (n_data a)) in H8. rewrite load_bytes_split in H8. destruct H8 as [_ H8].
  rewrite <- (take_drop (Z.to_nat k) (drop (Z.to_nat i) (n_data a))) in H8. rewrite load_bytes_split in H8. destruct H8 as [H8 _].
  rewrite !length_take, length_drop in H8. rewrite !Nat.min_l, Z2Nat.id in H8 by lia. exact H8.
Qed.
Lemma copy_partial_ok fuel p l n i σ s bs : pb_rep F (fun _ => 0) 0 σ s bs -> path σ p l -> (length l < fuel)%nat -> 0 <= n < 65536 -> 0 <= i < 65536 ->
  copy_partial fuel p n i s = Some (take (Z.to_nat n) (drop (Z.to_nat i) (data σ l))).
Proof using HM.
  revert p l n i. induction fuel as [|fuel IH]; intros p l n i Hr Hl Hlen Hn Hi; [lia|]. cbn [copy_partial]. pose proof (rep_zero _ _ _ _ _ _ Hr) as H0.
  destruct (Z.eqb_spec n 0) as [->|Hn0]; [done|]. inversion Hl as [|? a r Hp E Hlr]; subst.
  { cbn [Z.eqb negb andb]. unfold data. simpl. by rewrite drop_nil, take_nil. }
  rewrite (proj2 (Z.eqb_neq _ _)) by done. cbn [negb andb]. destruct (pr_node _ _ _ _ _ _ Hr p a E) as (b & Eb & [[->|Hnx] Hlb [(l' & Hl' & Ht) Htb] _ _ _ _ _]); [congruence|].
  rewrite (path_det _ _ _ _ Hl' Hl) in Ht. rewrite (data_cons _ _ a), length_app in Ht by done. cbv beta in Ht.
  unfold get. rewrite Eb. cbn [mbind option_bind]. rewrite (data_cons _ _ a) by done. rewrite Hnx. simpl in Hlen.
  destruct (negb (i =? 0) && (i >=? len b)) eqn:Esk; rewrite Z.geb_leb in Esk; bool_to_prop.
  - rewrite u16_small by lia. rewrite (IH _ r) by (done || lia). rewrite drop_app_ge by lia. do 3 f_equal. lia.
  - assert (i <= len b) as Hib by (apply andb_false_iff in Esk as [?|?]; bool_to_prop; lia). rewrite (u16_small (len b - i)) by lia. set (k := Z.min (len b - i) n).
    rewrite (read_ok p a b i k σ s bs Hr E Eb) by (unfold k; lia). cbn [mbind option_bind]. rewrite u16_small by (unfold k; lia). rewrite (IH _ r) by (done || unfold k; lia).
    cbn [mbind option_bind]. f_equal. rewrite (drop_app_le (n_data a)), take_app, length_drop by lia. f_equal; [|f_equal; unfold k; lia].
    destruct (decide (n <= len b - i)); [f_equal; unfold k; lia|]. rewrite !take_ge; [done|rewrite length_drop; unfold k; lia..].
Qed.
Lemma copy_partial_refines p n i σ s : represents F σ s -> pbuf_may (PCopyPartial p n i) σ -> refines F (PCopyPartial p n i) σ s.
Proof using HM.
  intros [bs Hr] ([a E] & Hn & Hi). destruct (go_path _ (rep_graph _ _ _ _ _ _ Hr) p a E) as [l Hl].
  do 3 eexists. split; [|split; [by eapply SCopyPartial|by exists bs]]. simpl. unfold pbuf_copy_partial.
  rewrite (proj2 (Z.eqb_neq _ _)) by (eapply rep_pos; [exact Hr|by eexists]). rewrite (copy_partial_ok _ p l n i σ s bs); try done.
  pose proof (path_length _ _ _ Hl). rewrite (rep_size _ _ _ _ _ _ Hr). lia.
Qed.

(** *** Allocating *)

Lemma grown_rep σ0 σ p l layer k n s bs : pb_rep F (fun x => if decide (x ∈ l) then 0 else 0) 0 σ s bs -> grown σ0 σ p l layer k -> k = n ->
  exists σ' l', grown σ0 σ' p l' layer n /\ represents F σ' s.
Proof using HM. intros Hr Hg ->. exists σ, l. split; [done|]. exists bs. eapply rep_same; try done; [|apply (pr_owns _ _ _ _ _ _ Hr)]. intros x _. cbv beta. by destruct (decide _). Qed.

Lemma alloc_pool_ok fuel σ0 σ s bs p l z rem layer n : graph_ok σ0 -> σ0 !! 0 = None -> (forall q, is_Some (σ0 !! q) -> reach σ0 q) ->
  pb_rep F (fun x => if decide (x ∈ l ++ [z]) then rem else 0) 0 σ s bs -> grown σ0 σ p (l ++ [z]) layer (n - rem) -> 0 < rem < 65536 -> (Z.to_nat rem < fuel)%nat ->
  exists s' r, alloc_pool custom_free_function fuel p z rem 0 s = Some (s', r) /\
    ((r = 0 /\ represents F σ0 s') \/ (r = p /\ exists σ' l', grown σ0 σ' p l' layer n /\ represents F σ' s')).
Proof using HM.
  intros Hok0 H00 Hall0. revert σ s bs l z rem. induction fuel as [|fuel IH]; intros σ s bs l z rem Hr Hg Hrem Hfuel; [lia|]. cbn [alloc_pool].
  assert (p <> 0) as Hp0 by (pose proof (gr_path _ _ _ _ _ _ Hg) as Hgp; inversion Hgp; [by destruct l|done]).
  destruct (pool_new F _ σ s bs rem 0 Hr ltac:(lia) ltac:(lia)) as (m & q & -> & [[-> Ho]|(qlen & fr & d & bs' & Hq & -> & Hql & Hql0 & Hfr & Hd & Eq & Hr1)]); cbn [mbind option_bind].
  - rewrite (proj2 (Z.eqb_neq p 0)) by done. cbn [negb Z.eqb]. set (s1 := pbuf_pool_is_empty (set_memory m s)).
    assert (pb_rep F (fun x => if decide (x ∈ l ++ [z]) then rem else 0) 0 σ s1 bs) as Hr1 by (by eapply rep_same).
    destruct (gr_first _ _ _ _ _ _ Hg) as (ap & Ep & _). pose proof (rep_zero _ _ _ _ _ _ Hr) as Hz0.
    destruct (pbuf_free_ok custom_free_function p F _ 0 σ s1 bs Hr1) as (s' & σ' & bs' & Ef & Hr' & _ & Hk & _).
    + exists ap. split; [done|]. rewrite (gr_held _ _ _ _ _ _ Hg p ap), decide_True; [lia|done| |done].
      destruct (path_head _ _ _ _ Hp0 Ep (gr_path _ _ _ _ _ _ Hg)) as (? & -> & _). by left.
    + intros l' Hl' Hin. destruct (path_in _ _ _ _ Hl' Hin) as [[? ?] _]. congruence.
    + rewrite (grown_freed σ0 σ σ' p _ _ _ Hok0 H00 Hall0 Hg Hk) in Hr'. rewrite Ef. cbn [mbind option_bind]. exists s', 0. split; [done|]. left. split; [done|].
      exists bs'. eapply rep_same; try done; [|apply (pr_owns _ _ _ _ _ _ Hr')]. intros x [c Ex]. case_decide as Hx; [|done]. by rewrite (gr_new _ _ _ _ _ _ Hg) in Ex.
  - rewrite (proj2 (Z.eqb_neq q 0)) by done. rewrite (proj2 (Z.eqb_neq p 0)) by done. rewrite u16_small by lia.
    destruct (path_in _ _ _ z (gr_path _ _ _ _ _ _ Hg)) as [[a Ez] _]; [apply elem_of_app; right; by left|].
    set (s1 := pbuf_init_alloced_pbuf _ _ _ _ _ _ _) in *. destruct (pool_link F σ0 σ p l z q a fr d layer (n - rem) (rem - qlen) s1 bs' Hok0 H00 Hg Ez Hq Eq) as (s2 & -> & _ & Hr2).
    { eapply rep_same; [exact Hr1| |done|done|apply (pr_owns _ _ _ _ _ _ Hr1)]. intros x _. cbv beta. destruct (decide (x = q)); [done|]. destruct (decide (x ∈ l ++ [z])); [lia|done]. }
    cbn [mbind option_bind]. pose proof (grown_link σ0 σ p z q l layer (n - rem) a fr d Hok0 H00 Hg Ez Hq Eq) as Hg2.
    destruct (Z.gtb_spec (rem - qlen) 0) as [Hmore|Hdone].
    + apply (IH _ _ _ _ _ _ Hr2); [|lia|lia]. by replace (n - (rem - qlen)) with (n - rem + Z.of_nat (length d)) by lia.
    + exists s2, p. split; [done|]. right. split; [done|]. replace (rem - qlen) with 0 in Hr2 by lia. eapply grown_rep; [exact Hr2|exact Hg2|lia].
Qed.

Lemma alloc_refines layer n type σ s : represents F σ s -> pbuf_may (PAlloc layer n type) σ -> refines F (PAlloc layer n type) σ s.
Proof using HM.
  intros [bs Hr] (Hlay & Hn & Htype). pose proof (rep_zero _ _ _ _ _ _ Hr) as H0. pose proof (rep_graph _ _ _ _ _ _ Hr) as Hok.
  assert (exists s' r, pbuf_alloc custom_free_function layer n type s = Some (s', r) /\
    ((r = 0 /\ represents F σ s') \/ (exists σ' l', (grown σ σ' r l' layer n /\ represents F σ' s') /\ (type = PBUF_RAM \/ n <= PBUF_POOL_BUFSIZE_ALIGNED - LWIP_MEM_ALIGN_SIZE layer -> l' = [r])))) as (s' & r & E & Hs').
  { unfold pbuf_alloc. rewrite (u16_small layer) by lia. destruct Htype as [->| ->]; cbn [Z.eqb orb PBUF_REF PBUF_ROM PBUF_POOL PBUF_RAM Pos.eqb].
    - unfold alloc_ram. assert (LWIP_MEM_ALIGN_SIZE layer = 4 * ((layer + 3) / 4)) as Ha1 by (apply align_size; lia).
      assert (LWIP_MEM_ALIGN_SIZE n = 4 * ((n + 3) / 4)) as Ha2 by (apply align_size; lia).
      set (al := LWIP_MEM_ALIGN_SIZE layer) in *. set (an := LWIP_MEM_ALIGN_SIZE n) in *. change (LWIP_MEM_ALIGN_SIZE SIZEOF_STRUCT_PBUF) with 16.
      assert (layer <= al <= 1024 /\ n <= an <= 65536) as [Hal Han] by (rewrite Ha1, Ha2; Z.div_mod_to_equations; lia). assert (al mod 4 = 0) as Hal4 by (rewrite Ha1; Z.div_mod_to_equations; lia).
      clearbody al an. destruct ((u16 (al + an) <? an) || (u16 (16 + u16 (al + an)) <? an)) eqn:Eov; [exists s, 0; split; [done|]; left; split; [done|]; by exists bs|].
      bool_to_prop. assert (al + an < 65536) as Hsum by (unfold u16 in *; Z.div_mod_to_equations; lia). rewrite (u16_small (al + an)) in * by lia.
      assert (16 + (al + an) < 65536) as Hsum2 by (unfold u16 in *; Z.div_mod_to_equations; lia). rewrite u16_small in * by lia.
      destruct (lm_malloc_ok _ _ (16 + (al + an)) (pr_owns _ _ _ _ _ _ Hr)) as (m & q & -> & [[-> Ho]|(v & Hv & Hfr & Ho)]); [lia| |]; cbn [mbind option_bind].
      + exists (set_memory m s), 0. split; [done|]. left. split; [done|]. exists bs. by eapply rep_same.
      + pose proof Hfr as (Hq0 & Hqv & Hq4 & _). rewrite (proj2 (Z.eqb_neq q 0)) by lia. do 2 eexists. split; [done|]. right.
        assert (LWIP_MEM_ALIGN_SIZE (q + SIZEOF_STRUCT_PBUF + layer) = q + 16 + al) as Hpay by (unfold SIZEOF_STRUCT_PBUF; rewrite align_size by (Z.div_mod_to_equations; lia); rewrite Ha1; Z.div_mod_to_equations; lia).
        destruct (rep_alloc F _ 0 σ s bs q STD_HEAP v al (mkPbuf 0 (LWIP_MEM_ALIGN_SIZE (q + SIZEOF_STRUCT_PBUF + layer)) n n (u8 PBUF_RAM) 0 1 0) m Hr Hfr Ho)
          as (fr & d & Hf & Hd & Eq & _ & Hr2); simpl; try done; unfold SIZEOF_STRUCT_PBUF in *; try lia.
        exists (<[q := mkNode fr d 0 1]> σ), [q]. split; [|done]. split; [|by eexists]. split.
        * econstructor; [lia|apply lookup_insert_eq|constructor].
        * intros x ->%list_elem_of_singleton. done.
        * intros x Hx%not_elem_of_cons. by rewrite lookup_insert_ne by (intros ->; by destruct Hx).
        * eexists. split; [apply lookup_insert_eq|]. simpl. lia.
        * intros x c ->%list_elem_of_singleton. rewrite lookup_insert_eq, decide_True by done. by intros [= <-].
        * rewrite (data_cons _ q (mkNode fr d 0 1)), app_nil_r by apply lookup_insert_eq. done.
    - cbn [alloc_pool].
      destruct (pool_new F _ σ s bs n layer Hr ltac:(lia) ltac:(lia)) as (m & q & -> & [[-> Ho]|(qlen & fr & d & bs' & Hq & Emin & Hql & Hql0 & Hfr & Hd & Eq & Hr1)]); cbn [mbind option_bind].
      { cbn [Z.eqb negb]. exists (pbuf_pool_is_empty (set_memory m s)), 0. split; [done|]. left. split; [done|]. exists bs. by eapply rep_same. }
      rewrite (proj2 (Z.eqb_neq q 0)) by done. rewrite Emin. cbn [Z.eqb mbind option_bind]. set (s1 := pbuf_init_alloced_pbuf _ _ _ _ _ _ _) in *. rewrite u16_small by lia.
      assert (grown σ (<[q := mkNode fr d 0 1]> σ) q ([] ++ [q]) layer (n - (n - qlen))) as Hg.
      { split.
        - econstructor; [lia|apply lookup_insert_eq|constructor].
        - intros x ->%list_elem_of_singleton. done.
        - intros x Hx%not_elem_of_cons. by rewrite lookup_insert_ne by (intros ->; by destruct Hx).
        - eexists. split; [apply lookup_insert_eq|]. simpl. lia.
        - intros x c ->%list_elem_of_singleton. rewrite lookup_insert_eq, decide_True by done. by intros [= <-].
        - simpl. rewrite (data_cons _ q (mkNode fr d 0 1)), app_nil_r by apply lookup_insert_eq. simpl. lia. }
      assert (pb_rep F (fun x => if decide (x ∈ [] ++ [q]) then n - qlen else 0) 0 (<[q := mkNode fr d 0 1]> σ) s1 bs') as Hr2.
      { eapply rep_same; [exact Hr1| |done|done|apply (pr_owns _ _ _ _ _ _ Hr1)]. intros x _. simpl. destruct (decide (x = q)) as [->|]; [by rewrite decide_True by (by left)|].
        rewrite decide_False; [done|]. by rewrite list_elem_of_singleton. }
      destruct (Z.gtb_spec (n - qlen) 0) as [Hmore|Hdone].
      + destruct (alloc_pool_ok (Z.to_nat n) σ (<[q := mkNode fr d 0 1]> σ) s1 bs' q [] q (n - qlen) layer n Hok H0) as (s' & r & -> & Hres); try done; [|lia|lia|].
        { intros x Hx. eapply rep_reach; [exact Hr|done]. }
        exists s', r. split; [done|]. destruct Hres as [?|[-> (σ' & l' & Hres)]]; [by left|right]. exists σ', l'. split; [done|]. intros [?|Hle]; [done|].
        exfalso. rewrite u16_small in Emin by (assert (0 <= LWIP_MEM_ALIGN_SIZE layer) by (apply Z.land_nonneg; right; done); change PBUF_POOL_BUFSIZE_ALIGNED with 1528 in *; lia). lia.
      + exists s1, q. split; [done|]. right. replace (n - qlen) with 0 in Hr2 by lia. exists (<[q := mkNode fr d 0 1]> σ), [q]. split; [|done].
        split; [by replace n with (n - (n - qlen)) at 1 by lia|]. exists bs'. eapply rep_same; [exact Hr2| |done|done|apply (pr_owns _ _ _ _ _ _ Hr2)].
        intros x _. cbv beta. by destruct (decide _). }
  destruct Hs' as [[-> Hs']|(σ' & l' & [Hg Hs'] & Hl')]; do 3 eexists; (split; [simpl; by rewrite E|split; [|exact Hs']]); by econstructor.
Qed.

(** *** The calls for code above *)

Lemma represents_zero σ s : represents F σ s -> σ !! 0 = None.
Proof using HM. intros [bs Hr]. by eapply rep_zero. Qed.
Lemma represents_graph σ s : represents F σ s -> graph_ok σ.
Proof using HM. intros [bs Hr]. by eapply rep_graph. Qed.
Lemma alloc_call layer n type σ s : represents F σ s -> pbuf_may (PAlloc layer n type) σ -> exists s' p, pbuf_alloc custom_free_function layer n type s = Some (s', p) /\
  ((p = 0 /\ represents F σ s') \/ (p <> 0 /\ exists σ' l, grown σ σ' p l layer n /\
     (type = PBUF_RAM \/ n <= PBUF_POOL_BUFSIZE_ALIGNED - LWIP_MEM_ALIGN_SIZE layer -> l = [p]) /\ represents F σ' s')).
Proof using HM.
  intros Hr Hm. pose proof (represents_zero _ _ Hr) as H0. destruct (alloc_refines layer n type σ s Hr Hm) as (s' & a & σ' & E & Hs & Hr'). simpl in E.
  destruct (pbuf_alloc custom_free_function layer n type s) as [[s1 p]|]; [|done]. injection E as -> <-. exists s', p. split; [done|].
  inversion Hs; subst; [right|by left]. split; [by eapply grown_nonzero|]. eauto.
Qed.
Lemma take_call p bs l σ s : represents F σ s -> path σ p l -> p <> 0 -> Z.of_nat (length bs) <= total_of σ l -> Z.of_nat (length bs) < 65536 ->
  exists s' σ', pbuf_take p bs s = Some (s', ERR_OK) /\ overwritten l bs σ σ' /\ represents F σ' s'.
Proof using HM custom_free_function.
  intros Hr Hl Hp Hle Hbs. destruct (take_refines p bs σ s Hr) as (s' & a & σ' & E & Hs & Hr').
  { split; [|done]. inversion Hl; [done|by eexists]. }
  simpl in E. destruct (pbuf_take p bs s) as [[s1 e]|]; [|done]. injection E as -> <-. exists s', σ'.
  inversion Hs as [| | | | | | | | | | | | | |? ? l' ? ? Hl'|? ? l' ? Hl' ?|]; subst; rewrite (path_det _ _ _ _ Hl Hl') in *; [done|lia].
Qed.
Lemma free_call p σ s : represents F σ s -> held σ p -> exists s' n σ', pbuf_free custom_free_function p s = Some (s', n) /\ kept (unhold p σ) σ' /\ represents F σ' s'.
Proof using HM.
  intros Hr Hp. destruct (pbuf_free_refines p σ s Hr Hp) as (s' & a & σ' & E & Hs & Hr'). simpl in E.
  destruct (pbuf_free custom_free_function p s) as [[s1 n]|]; [|done]. injection E as -> <-. exists s', n, σ'. split; [done|]. split; [by inversion Hs|done].
Qed.

(** C29: packet buffers behave as chains of bytes that live as long as they
    can be reached.  Any client that allocates, refers to, frees, joins, cuts,
    shortens, writes and reads pbufs, and adds and removes headers, is answered
    without touching a pbuf or a byte that is not there; new chains have the
    bytes and the room for headers asked for, and nothing is kept of one that
    could not be completed; freeing and cutting release exactly what no held
    reference leads to, whatever is shared; [tot_len], [len] and [ref] stay the
    bytes of the chain, of the pbuf and the number of references. *)
Theorem pbuf_clients_refine n client past σ s : represents F σ s -> behaves pbuf_spec pbuf_may n client past σ ->
  exists s' answers σ', run_client run_pbuf n client past s = Some (s', answers) /\ spec_runs pbuf_spec client n past σ answers σ' /\ represents F σ' s'.
Proof using HM.
  apply clients_refine. clear - HM. intros [layer n type|p|p|h t|h t|p|p n|p n|p n|p bs|p n i] σ s.
  - apply alloc_refines.
  - apply ref_refines.
  - apply pbuf_free_refines.
  - apply cat_refines.
  - apply chain_refines.
  - apply dechain_refines.
  - apply realloc_refines.
  - apply remove_header_refines.
  - apply add_header_refines.
  - apply take_refines.
  - apply copy_partial_refines.
Qed.
End calls.
