(* ===== verification/PbufSample.v ===== *)
(** * A client of packet buffers *)

From S2P Require Import Prelude Bytes Clients LwipErr Mem MemSpec MemSample LwipMem Pbuf PbufGraph PbufRep PbufSpec.
#[local] Open Scope Z_scope.

(** The arrays of lwIP's heap and of the two pools, with the numbers of
    elements of lwipopts.h and opt.h. *)
Definition sample_pbufs : memp_desc := mkDesc 16 16 0x2000C000.
Definition sample_pool : memp_desc := mkDesc 1544 8 0x2000D000.

Lemma sample_layout : memory_layout sample_ram sample_pbufs sample_pool.
Proof.
  split.
  - vm_compute. intuition discriminate.
  - intros [| |] Hs; [done| |]; vm_compute; intuition discriminate.
  - intros [| |]; vm_compute; discriminate.
  - intros [| |] [| |] Hne; try done; vm_compute; (left; discriminate) || (right; discriminate).
Qed.

#[local] Instance sample_lwip : LwipMem Memory := lwip_mem sample_ram sample_pbufs sample_pool.
#[local] Instance sample_lwip_ok : LwipMemOk Memory := lwip_mem_ok sample_ram sample_pbufs sample_pool sample_layout.

Definition sample_memory : Memory := mkMemory mem_init (memp_init_pool sample_pbufs) (memp_init_pool sample_pool).
Definition zeros (m : gmap Z Z) (area : Z * Z) : gmap Z Z := store_bytes area.1 (replicate (Z.to_nat area.2) 0) m.
Definition sample_store : Store Memory := mkStore ∅ (foldl zeros ∅ lm_area) sample_memory false.

Lemma sample_owns : lm_owns sample_memory ∅.
Proof.
  destruct (memp_init_rep sample_pbufs) as (fb & Hb & Hfb); [done|done|done|done|]. destruct (memp_init_rep sample_pool) as (fp & Hp & Hfp); [done|done|done|done|].
  exists ∅, (fun s => match s with STD_MEMP_PBUF_POOL => fp | _ => fb end). split.
  - apply mem_init_rep.
  - intros [| |] Hs; [done|exact Hb|exact Hp].
  - intros p s v. rewrite lookup_empty. split; [done|]. destruct s.
    + by rewrite decide_True, lookup_empty.
    + rewrite decide_False by done. intros (Hin%Hfb & Hout & _). done.
    + rewrite decide_False by done. intros (Hin%Hfp & Hout & _). done.
Qed.
Lemma zeros_mapped areas m a n : (a, n) ∈ areas \/ mapped a (Z.to_nat n) m -> mapped a (Z.to_nat n) (foldl zeros m areas).
Proof.
  revert m. induction areas as [|[b k] areas IH]; intros m; cbn [foldl]; [intros [?%elem_of_nil|]; done|].
  intros [[[= -> ->]|Hin]%elem_of_cons|Hm]; apply IH; [right|by left|right; by apply mapped_store].
  intros x Hx. unfold zeros. rewrite lookup_store_bytes, length_replicate. cbn [fst snd]. rewrite decide_True by done. apply lookup_lt_is_Some. rewrite length_replicate. lia.
Qed.
Lemma sample_represents : represents ∅ ∅ sample_store.
Proof.
  exists ∅. split.
  - exact sample_owns.
  - intros p. rewrite !lookup_empty. split; [by intros [? ?]|]. intros [[? ?]|]; [done|set_solver].
  - done.
  - done.
  - intros p. rewrite lookup_empty. by intros [? ?].
  - intros a n Ha. apply zeros_mapped. by left.
Qed.

(** A chain of two pbufs is written over their boundary, read there and freed. *)
Definition pbuf_user (past : list PbufAns) : PbufCall :=
  match past with
  | APbuf p :: rest => if p =? 0 then PAlloc PBUF_RAW 0 PBUF_RAM else
    match rest with
    | [] => PTake p (replicate 1472 1 ++ [7; 8; 9])
    | [_] => PCopyPartial p 4 1471
    | _ => PFree p
    end
  | _ => PAlloc PBUF_TRANSPORT 2000 PBUF_POOL
  end.

Lemma pbuf_user_behaves : behaves pbuf_spec pbuf_may 4 pbuf_user [] ∅.
Proof.
  assert (forall layer type σ, 0 <= layer <= 1024 -> type = PBUF_RAM -> pbuf_may (PAlloc layer 0 type) σ) as Hidle by (intros ? ? ? ? ->; split; [done|split; [done|by left]]).
  split; [split; [done|split; [done|by right]]|]. intros σ1 a1 S1. cbn [app]. assert (exists p, a1 = APbuf p /\ (p = 0 \/ held σ1 p)) as (p & -> & Hp).
  { inversion S1; subst; [|exists 0; auto]. eexists. split; [reflexivity|]. match goal with |- ?p = 0 \/ _ => destruct (decide (p = 0)); [by left|right] end. by eapply grown_head. }
  cbn [behaves app pbuf_user]. destruct (Z.eqb_spec p 0) as [->|Hp0].
  { split; [by apply Hidle|]. intros. split; [by apply Hidle|]. intros. split; [by apply Hidle|]. done. }
  destruct Hp as [|Hp]; [done|]. pose proof Hp as (a & E & Ha). split; [split; [by eexists|rewrite length_app, length_replicate; done]|].
  intros σ2 a2 S2. assert (held σ2 p) as Hp2.
  { inversion S2; subst; [|done]. match goal with Hx : overwritten _ _ _ _ |- _ => pose proof (proj2 Hx p) as Hov end. rewrite E in Hov. destruct (σ2 !! p) as [a'|] eqn:E'; [|done].
    exists a'. split; [done|]. destruct Hov as (_ & _ & -> & _). done. }
  split; [split; [destruct Hp2 as (? & ? & _); by eexists|done]|]. intros σ3 a3 S3. assert (σ3 = σ2) as -> by (by inversion S3). split; [exact Hp2|done].
Qed.

Lemma pbuf_clients_refine_witness : exists s' σ',
  run_client (run_pbuf (fun _ _ => None)) 4 pbuf_user [] sample_store = Some (s', [APbuf 0x2000FA38; AErr 0; ABytes [1; 7; 8; 9]; ACount 2]) /\ represents ∅ σ' s'.
Proof.
  destruct (pbuf_clients_refine (fun _ _ => None) ∅ 4 pbuf_user [] ∅ sample_store sample_represents pbuf_user_behaves) as (s' & as' & σ' & E & _ & Hr).
  exists s', σ'. split; [|exact Hr]. rewrite E. apply (f_equal (option_map snd)) in E. vm_compute in E. injection E as <-. reflexivity.
Defined.
