(* ===== verification/Ethernet.v ===== *)
(** * ethernetif.c: the network interface of lwIP over the Ethernet DMA

    The buffers of the receive DMA, the copy of a received frame into packet
    buffers, polling and sending.  The HAL is outside: what it received is a
    list of frames, each a list of fragments in buffers of the DMA; sending is
    an argument.  Messages of [eth_log] are left out. *)

From S2P Require Import Prelude Bytes LwipErr LwipMem Pbuf.
#[local] Open Scope Z_scope.

(** [RxBufInUse], the bytes of [RxBuf], the counters, and lwIP's packet buffers. *)
Record EthIf (H : Type) := mkEthIf {
  RxBuf : list (list Z); RxBufInUse : list bool; ethernetif_rx_count : Z; ethernetif_rx_drop : Z; lwip : Store H
}.
Arguments mkEthIf {H} _ _ _ _ _.
Arguments RxBuf {H} _.
Arguments RxBufInUse {H} _.
Arguments ethernetif_rx_count {H} _.
Arguments ethernetif_rx_drop {H} _.
Arguments lwip {H} _.

(** What one call of HAL_ETH_ReadData finds: the fragments of a frame, each
    with the index of its buffer and the bytes that the DMA wrote there; and
    how many descriptors the HAL then asks new buffers for. *)
Record RxFrame := mkRxFrame { fr_fragments : list (nat * list Z); fr_refill : nat }.

Section ethernetif.
Context {H : Type} `{!LwipMem H}.
Context (custom_free_function : Z -> Store H -> option (Store H)).
(** [netif->input]. *)
Context (input : Z -> Store H -> option (Store H * Z)).
(** HAL_ETH_Transmit: the chained buffers, the length of the frame. *)
Context (HAL_ETH_Transmit : list (Z * Z) -> Z -> Store H -> bool).
Abbreviation Eth := (EthIf H).

Definition set_inuse (v : list bool) (e : Eth) : Eth := mkEthIf (RxBuf e) v (ethernetif_rx_count e) (ethernetif_rx_drop e) (lwip e).
Definition set_lwip (v : Store H) (e : Eth) : Eth := mkEthIf (RxBuf e) (RxBufInUse e) (ethernetif_rx_count e) (ethernetif_rx_drop e) v.
Definition set_rxbuf (v : list (list Z)) (e : Eth) : Eth := mkEthIf v (RxBufInUse e) (ethernetif_rx_count e) (ethernetif_rx_drop e) (lwip e).
Definition count_rx (e : Eth) : Eth := mkEthIf (RxBuf e) (RxBufInUse e) (u32 (ethernetif_rx_count e + 1)) (ethernetif_rx_drop e) (lwip e).
Definition count_drop (e : Eth) : Eth := mkEthIf (RxBuf e) (RxBufInUse e) (ethernetif_rx_count e) (u32 (ethernetif_rx_drop e + 1)) (lwip e).

(** The loop over the buffers: the first that is not in use. *)
Fixpoint rx_find (i : nat) (inuse : list bool) : option nat :=
  match inuse with [] => None | b :: r => if negb b then Some i else rx_find (S i) r end.
Definition HAL_ETH_RxAllocateCallback (e : Eth) : Eth * option nat :=
  match rx_find 0 (RxBufInUse e) with
  | Some i => (set_inuse (<[i := true]> (RxBufInUse e)) e, Some i)
  | None => (e, None)
  end.

Definition HAL_ETH_RxLinkCallback (pStart pEnd : Z) (buff : nat) (length : Z) (e : Eth) : option (Eth * Z * Z) :=
  '(s, p) ← pbuf_alloc custom_free_function PBUF_RAW length PBUF_POOL (lwip e);
  let e := set_inuse (<[buff := false]> (RxBufInUse e)) (set_lwip s e) in
  if p =? 0 then Some (e, pStart, pEnd)
  else
    area ← RxBuf e !! buff;
    if (base.length area <? Z.to_nat length)%nat then None else
    '(s, _) ← pbuf_take p (take (Z.to_nat length) area) s;
    s ← upd p (set_next 0) s;
    if pStart =? 0 then Some (set_lwip s e, p, p)
    else s ← pbuf_chain pStart p s; Some (set_lwip s e, pStart, p).

Definition HAL_ETH_TxFreeCallback (buff : Z) (s : Store H) : option (Store H) :=
  '(s, _) ← pbuf_free custom_free_function buff s; Some s.

(** *** HAL_ETH_ReadData

    As far as it matters here: the fragments are in their buffers and linked
    one after the other; then the descriptors get new buffers. *)

Definition dma_write (i : nat) (bs : list Z) (e : Eth) : Eth :=
  set_rxbuf (alter (fun area => bs ++ drop (length bs) area) i (RxBuf e)) e.
Fixpoint link_fragments (fs : list (nat * list Z)) (pStart pEnd : Z) (e : Eth) : option (Eth * Z) :=
  match fs with
  | [] => Some (e, pStart)
  | (i, bs) :: fs => '(e, pStart, pEnd) ← HAL_ETH_RxLinkCallback pStart pEnd i (Z.of_nat (length bs)) (dma_write i bs e); link_fragments fs pStart pEnd e
  end.
Fixpoint refill (n : nat) (e : Eth) : Eth := match n with O => e | S n => refill n (HAL_ETH_RxAllocateCallback e).1 end.
Definition HAL_ETH_ReadData (f : RxFrame) (e : Eth) : option (Eth * Z) :=
  '(e, p) ← link_fragments (fr_fragments f) 0 0 e; Some (refill (fr_refill f) e, p).

(** ethernetif_poll: the answers of [netif->input]. *)
Fixpoint ethernetif_poll (frames : list RxFrame) (e : Eth) : option (Eth * list Z) :=
  match frames with
  | [] => Some (e, [])
  | f :: frames =>
    '(e, p) ← HAL_ETH_ReadData f e;
    if p =? 0 then Some (e, [])
    else
      let e := count_rx e in
      '(s, err) ← input p (lwip e);
      e ← (if negb (err =? ERR_OK) then '(s, _) ← pbuf_free custom_free_function p s; Some (count_drop (set_lwip s e)) else Some (set_lwip s e));
      '(e, errs) ← ethernetif_poll frames e; Some (e, err :: errs)
  end.

(** *** Sending *)

(** The loop that fills [txbuf]. *)
Fixpoint tx_buffers (n : nat) (q : Z) (s : Store H) : option (list (Z * Z)) :=
  match n with
  | O => Some []
  | S n => if q =? 0 then Some [] else b ← get q s; r ← tx_buffers n (next b) s; Some ((payload b, len b) :: r)
  end.
Definition low_level_output (p : Z) (s : Store H) : option Z :=
  b ← get p s;
  txbuf ← tx_buffers 5 p s;
  Some (if HAL_ETH_Transmit txbuf (tot_len b) s then ERR_OK else ERR_IF).

(** ethernetif_init sets these fields of the netif. *)
Record NetifInit := mkNetifInit { ni_name : list Z; ni_mtu : Z; ni_flags : Z; ni_hwaddr : list Z }.
Definition ethernetif_init (MACAddr : list Z) : NetifInit * Z :=
  (mkNetifInit [0x73; 0x74] 1500 (Z.lor 0x02 0x08) (take 6 MACAddr), ERR_OK).
End ethernetif.
