(* ===== verification/EthernetSpec.v ===== *)
(** * What the network interface promises: frames in, frames out *)

From S2P Require Import Prelude Bytes Clients LwipErr Mem LwipMem Pbuf PbufGraph PbufRep PbufSpec Ethernet.
#[local] Open Scope Z_scope.

(** Overwriting a new chain with as many bytes as it has. *)
Lemma grown_overwritten σ σ1 σ2 p l layer bs : grown σ σ1 p l layer (Z.of_nat (length bs)) -> overwritten l bs σ1 σ2 ->
  grown σ σ2 p l layer (Z.of_nat (length bs)) /\ data σ2 l = bs.
Proof.
  intros [Hp Hn Ho (a & E & Ha) Hh Ht] [Hd Hsame]. assert (data σ2 l = bs) as Hbs by (rewrite Hd, drop_ge by lia; apply app_nil_r).
  split; [|done]. split; try done.
  - apply (path_frame σ1); [|done]. intros q _. specialize (Hsame q). destruct (σ1 !! q), (σ2 !! q); try done. simpl. by destruct Hsame as (_ & -> & _).
  - intros q Hq. rewrite <- Ho by done. specialize (Hsame q). destruct (σ1 !! q), (σ2 !! q); try done. f_equal. by apply Hsame.
  - specialize (Hsame p). rewrite E in Hsame. destruct (σ2 !! p) as [a'|]; [|done]. exists a'. split; [done|]. by destruct Hsame as (-> & _).
  - intros q c Hq Ec. specialize (Hsame q). rewrite Ec in Hsame. destruct (σ1 !! q) as [c1|] eqn:Ec1; [|done]. destruct Hsame as (_ & _ & -> & _). by apply Hh.
  - by rewrite Hbs.
Qed.
Section spec.
Context {H : Type} `{!LwipMem H} {HM : LwipMemOk H}.
Context (custom_free_function : Z -> Store H -> option (Store H)) (F : gset Z).
Context (input : Z -> Store H -> option (Store H * Z)).
Abbreviation Eth := (EthIf H).

(** ** Receiving *)

Definition ETH_MAX_PACKET_SIZE : nat := 1528.

(** The buffers in use after a frame in buffer [i]: it goes back, one is handed out. *)
Definition next_inuse (i : nat) (l : list bool) : list bool :=
  match rx_find 0 (<[i := false]> l) with Some j => <[j := true]> (<[i := false]> l) | None => <[i := false]> l end.
(** Frames in one buffer of the DMA each, which then gets one new buffer. *)
Fixpoint frames_ok (inuse : list bool) (frames : list RxFrame) : Prop :=
  match frames with
  | [] => True
  | f :: frames => exists i bs, f = mkRxFrame [(i, bs)] 1 /\ inuse !! i = Some true /\ (0 < length bs <= ETH_MAX_PACKET_SIZE)%nat /\ frames_ok (next_inuse i inuse) frames
  end.
Definition frame_bytes (f : RxFrame) : list Z := concat (map snd (fr_fragments f)).
Definition in_use (l : list bool) : nat := length (filter (fun b => b = true) l).

(** What [netif->input] does with a chain that it gets. *)
Context (input_rel : Z -> Graph -> Graph -> Z -> Prop).

(** Each frame becomes a pbuf of its own with exactly its bytes, held once; a
    frame that is refused is freed again; without a pbuf polling stops. *)
Inductive poll_spec : Graph -> list (list Z) -> Graph -> list Z -> Prop :=
| PollDone σ : poll_spec σ [] σ []
| PollNoPbuf σ bs frames : poll_spec σ (bs :: frames) σ []
| PollPassed σ σ1 σ2 σ' p bs frames errs : grown σ σ1 p [p] 0 (Z.of_nat (length bs)) -> data σ1 [p] = bs ->
    input_rel p σ1 σ2 ERR_OK -> poll_spec σ2 frames σ' errs -> poll_spec σ (bs :: frames) σ' (ERR_OK :: errs)
| PollRefused σ σ1 σ' p bs frames e errs : grown σ σ1 p [p] 0 (Z.of_nat (length bs)) -> data σ1 [p] = bs ->
    input_rel p σ1 σ1 e -> e <> ERR_OK -> poll_spec σ frames σ' errs -> poll_spec σ (bs :: frames) σ' (e :: errs).

Context (Hinput : forall p σ s, represents F σ s -> held σ p -> exists s' e σ', input p s = Some (s', e) /\ represents F σ' s' /\
  input_rel p σ σ' e /\ (e <> ERR_OK -> σ' = σ)).

Lemma rx_find_some k l j : rx_find k l = Some j -> exists i, j = (k + i)%nat /\ l !! i = Some false.
Proof.
  revert k. induction l as [|b l IH]; intros k; simpl; [done|]. destruct b; simpl; [|intros [= <-]; exists 0%nat; by rewrite Nat.add_0_r].
  intros (i & -> & Hi)%IH. exists (S i). split; [lia|done].
Qed.
Lemma rx_find_none k l i : rx_find k l = None -> l !! i <> Some false.
Proof. revert k i. induction l as [|b l IH]; intros k i; simpl; [done|]. destruct b; simpl; [|done]. intros E. destruct i as [|i]; [done|]. simpl. by eapply IH. Qed.
Lemma in_use_insert i (b c : bool) l : l !! i = Some b -> (in_use (<[i := c]> l) + (if b then 1 else 0) = in_use l + (if c then 1 else 0))%nat.
Proof.
  unfold in_use. revert i. induction l as [|d l IH]; intros [|i]; simpl; try done.
  - intros [= ->]. rewrite !filter_cons. destruct b, c; simpl; lia.
  - intros E%IH. rewrite !filter_cons. destruct d; simpl; lia.
Qed.
Lemma next_inuse_same i l : l !! i = Some true -> in_use (next_inuse i l) = in_use l /\ exists j, rx_find 0 (<[i := false]> l) = Some j.
Proof.
  intros E. pose proof (in_use_insert i true false l E) as H1. assert (<[i := false]> l !! i = Some false) as E1 by (apply list_lookup_insert_eq; by eapply lookup_lt_Some).
  unfold next_inuse. destruct (rx_find 0 (<[i := false]> l)) as [j|] eqn:Ej; [|by destruct (rx_find_none _ _ _ Ej E1)].
  apply rx_find_some in Ej as (j' & -> & Ej). pose proof (in_use_insert j' false true _ Ej) as H2. split; [simpl in *; lia|by eexists].
Qed.

(** The areas of the buffers have the same size. *)
Definition areas_ok (e : Eth) : Prop := length (RxBufInUse e) = length (RxBuf e) /\ forall i area, RxBuf e !! i = Some area -> length area = ETH_MAX_PACKET_SIZE.

Lemma dma_write_ok i bs e : areas_ok e -> (length bs <= ETH_MAX_PACKET_SIZE)%nat -> is_Some (RxBuf e !! i) -> areas_ok (dma_write i bs e) /\
  exists area, RxBuf (dma_write i bs e) !! i = Some area /\ take (length bs) area = bs /\ length area = ETH_MAX_PACKET_SIZE.
Proof.
  intros [Hal Har] Hbs [a0 Ea]. pose proof (Har _ _ Ea) as Hl. assert (RxBuf (dma_write i bs e) !! i = Some (bs ++ drop (length bs) a0)) as Ei.
  { simpl. by rewrite list_lookup_alter_eq, Ea. }
  assert (length (bs ++ drop (length bs) a0) = ETH_MAX_PACKET_SIZE) as Hl' by (rewrite length_app, length_drop; lia).
  split; [split; [simpl; by rewrite length_alter|]|].
  - intros j area. destruct (decide (i = j)) as [<-|]; [rewrite Ei; by intros [= <-]|]. simpl. rewrite list_lookup_alter_ne by done. apply Har.
  - eexists. split; [exact Ei|]. split; [by rewrite take_app_length|done].
Qed.

(** A frame in one buffer becomes a pbuf of its own, or there is none. *)
Lemma link_ok i bs σ e : represents F σ (lwip e) -> areas_ok e -> is_Some (RxBuf e !! i) -> (0 < length bs <= ETH_MAX_PACKET_SIZE)%nat ->
  exists s p, link_fragments custom_free_function [(i, bs)] 0 0 e = Some (set_lwip s (set_inuse (<[i := false]> (RxBufInUse e)) (dma_write i bs e)), p) /\
    ((p = 0 /\ represents F σ s) \/ (p <> 0 /\ exists σ1, grown σ σ1 p [p] 0 (Z.of_nat (length bs)) /\ data σ1 [p] = bs /\ represents F σ1 s)).
Proof using HM.
  intros Hr Ha Hi Hbs. destruct (dma_write_ok i bs e Ha ltac:(lia) Hi) as (_ & area & Earea & Etake & Hlen). unfold ETH_MAX_PACKET_SIZE in *.
  destruct (alloc_call custom_free_function F PBUF_RAW (Z.of_nat (length bs)) PBUF_POOL σ (lwip e) Hr) as (s & p & E & Hres); [split; [done|split; [lia|by right]]|].
  cbn [link_fragments]. unfold HAL_ETH_RxLinkCallback. cbn [lwip dma_write set_rxbuf]. rewrite E. cbn [mbind option_bind].
  destruct Hres as [[-> Hr']|(Hp & σ1 & l & Hg & Hl & Hr')]; [exists s, 0; split; [done|by left]|].
  rewrite Hl in Hg by (right; unfold PBUF_RAW; change (PBUF_POOL_BUFSIZE_ALIGNED - LWIP_MEM_ALIGN_SIZE 0) with 1528; lia). clear l Hl.
  rewrite (proj2 (Z.eqb_neq p 0)) by done. cbn [RxBuf set_inuse set_lwip]. unfold dma_write in Earea |- *. cbn [RxBuf set_rxbuf] in Earea |- *. rewrite Earea. cbn [mbind option_bind].
  rewrite (proj2 (Nat.ltb_ge _ _)) by lia. rewrite Nat2Z.id, Etake.
  destruct (take_call custom_free_function F p bs [p] σ1 s Hr' (gr_path _ _ _ _ _ _ Hg) Hp) as (s2 & σ2 & -> & Hov & Hr2); [unfold total_of; rewrite (gr_total _ _ _ _ _ _ Hg); lia|lia|].
  destruct (grown_overwritten _ _ _ _ _ _ _ Hg Hov) as [Hg2 Hd]. cbn [mbind option_bind]. destruct Hr2 as [bs2 Hr2].
  destruct (gr_first _ _ _ _ _ _ Hg2) as (a & Ea & _). destruct (pr_node _ _ _ _ _ _ Hr2 p a Ea) as (b & Eb & [[Hz|Hn] _ _ _ _ _ _ _]); [done|].
  assert (upd p (set_next 0) s2 = Some s2) as ->.
  { pose proof (path_app _ _ [] p a [] (gr_path _ _ _ _ _ _ Hg2) Ea) as Hnil. assert (n_next a = 0) as Hna by (by inversion Hnil). unfold upd, get. rewrite Eb. cbn [mbind option_bind].
    f_equal. unfold set_pbuf, set_pbufs. rewrite insert_id; [by destruct s2|]. rewrite Eb, <- Hna, <- Hn. by destruct b. }
  cbn [mbind option_bind Z.eqb]. exists s2, p. split; [done|]. right. split; [done|]. exists σ2. split; [done|]. split; [done|by exists bs2].
Qed.

Lemma frame_ok i bs e f : areas_ok e -> f = mkRxFrame [(i, bs)] 1 -> RxBufInUse e !! i = Some true -> (0 < length bs <= ETH_MAX_PACKET_SIZE)%nat -> forall σ, represents F σ (lwip e) ->
  exists s p, HAL_ETH_ReadData custom_free_function f e = Some (set_lwip s (set_inuse (next_inuse i (RxBufInUse e)) (dma_write i bs e)), p) /\
    ((p = 0 /\ represents F σ s) \/ (p <> 0 /\ exists σ1, grown σ σ1 p [p] 0 (Z.of_nat (length bs)) /\ data σ1 [p] = bs /\ represents F σ1 s)).
Proof using HM.
  intros Ha -> Hi Hbs σ Hr. destruct (link_ok i bs σ e Hr Ha) as (s & p & E & Hres); [|done|].
  { apply lookup_lt_is_Some. rewrite <- (proj1 Ha). by eapply lookup_lt_Some. }
  exists s, p. split; [|done]. unfold HAL_ETH_ReadData. cbn [fr_fragments fr_refill]. rewrite E. cbn [mbind option_bind refill]. unfold HAL_ETH_RxAllocateCallback, next_inuse.
  cbn [RxBufInUse set_lwip set_inuse]. by destruct (rx_find 0 (<[i := false]> (RxBufInUse e))).
Qed.
Lemma areas_next i bs s e : areas_ok e -> RxBufInUse e !! i = Some true -> (0 < length bs <= ETH_MAX_PACKET_SIZE)%nat -> areas_ok (set_lwip s (set_inuse (next_inuse i (RxBufInUse e)) (dma_write i bs e))).
Proof.
  intros Ha Hi Hbs. destruct (dma_write_ok i bs e Ha ltac:(lia)) as [[Hl Hd] _].
  { apply lookup_lt_is_Some. rewrite <- (proj1 Ha). by eapply lookup_lt_Some. }
  split; [|exact Hd]. cbn [RxBufInUse RxBuf set_lwip set_inuse] in *. rewrite <- Hl. unfold next_inuse. simpl. by destruct (rx_find 0 _); rewrite ?length_insert.
Qed.

(** C30: received frames reach the stack unchanged, and polling loses neither
    pbufs nor buffers of the DMA.  For all frames in one buffer each, polling
    ends; every frame up to the first for which there is no pbuf is passed on
    in order as one pbuf that holds exactly its bytes, with one reference that
    goes to the stack; a refused frame is freed and counted; afterwards as many
    buffers as before are in use by the DMA, so the next ones are not missing. *)
Theorem ethernetif_poll_delivers frames σ e : represents F σ (lwip e) -> areas_ok e -> frames_ok (RxBufInUse e) frames ->
  0 <= ethernetif_rx_count e < 4294967296 -> 0 <= ethernetif_rx_drop e < 4294967296 ->
  exists e' errs σ', ethernetif_poll custom_free_function input frames e = Some (e', errs) /\ poll_spec σ (map frame_bytes frames) σ' errs /\
    represents F σ' (lwip e') /\ areas_ok e' /\ in_use (RxBufInUse e') = in_use (RxBufInUse e) /\
    ethernetif_rx_count e' = u32 (ethernetif_rx_count e + Z.of_nat (length errs)) /\
    ethernetif_rx_drop e' = u32 (ethernetif_rx_drop e + Z.of_nat (length (filter (fun r => r <> ERR_OK) errs))).
Proof using HM Hinput.
  revert σ e. induction frames as [|f frames IH]; intros σ e Hr Ha Hf Hc Hd.
  { exists e, [], σ. split; [done|]. split; [constructor|]. rewrite !Z.add_0_r, !u32_small by done. done. }
  destruct Hf as (i & bs & Ef & Hi & Hbs & Hf). destruct (next_inuse_same i _ Hi) as [Hsame _]. cbn [ethernetif_poll map].
  assert (frame_bytes f = bs) as -> by (rewrite Ef; unfold frame_bytes; simpl; apply app_nil_r).
  destruct (frame_ok i bs e f Ha Ef Hi Hbs σ Hr) as (s & p & -> & Hres). cbn [mbind option_bind].
  destruct Hres as [[-> Hr1]|(Hp & σ1 & Hg & Hdata & Hr1)].
  { cbn [Z.eqb]. do 2 eexists. exists σ. split; [reflexivity|]. split; [constructor|]. rewrite !Z.add_0_r, !u32_small by done. split; [done|]. split; [by apply areas_next|done]. }
  rewrite (proj2 (Z.eqb_neq p 0)) by done. cbn [lwip count_rx set_lwip].
  destruct (Hinput p σ1 s Hr1 (grown_head _ _ _ _ _ _ Hg Hp)) as (s2 & err & σ2 & -> & Hr2 & Hrel & Hbad). cbn [mbind option_bind].
  pose proof (areas_next i bs s e Ha Hi Hbs) as Ha1. destruct (Z.eqb_spec err ERR_OK) as [->|Herr]; cbn [negb].
  - cbn [mbind option_bind]. match goal with |- context [ethernetif_poll _ _ frames ?e1] => destruct (IH σ2 e1) as (e' & errs & σ' & -> & Hps & Hr' & Ha' & Hu & Hc' & Hd'); [done|exact Ha1|exact Hf|apply u32_range|done|] end.
    exists e', (ERR_OK :: errs), σ'. split; [done|]. split; [by eapply PollPassed|]. split; [done|]. split; [done|]. cbn [RxBufInUse set_lwip count_rx set_inuse] in Hu. split; [congruence|].
    simpl in Hc', Hd'. rewrite Hc', Hd'. split; [|done]. rewrite length_cons. unfold u32. Z.div_mod_to_equations. lia.
  - specialize (Hbad Herr) as ->. destruct (free_call custom_free_function F p σ1 s2 Hr2 (grown_head _ _ _ _ _ _ Hg Hp)) as (s3 & n & σ3 & -> & Hk & Hr3).
    pose proof (represents_zero F _ _ Hr) as H0. pose proof (represents_graph F _ _ Hr) as Hok.
    rewrite (grown_freed σ σ1 σ3 p _ _ _ Hok H0 (fun q => graph_reach σ q H0 Hok) Hg Hk) in Hr3. cbn [mbind option_bind].
    match goal with |- context [ethernetif_poll _ _ frames ?e1] => destruct (IH σ e1) as (e' & errs & σ' & -> & Hps & Hr' & Ha' & Hu & Hc' & Hd'); [done|exact Ha1|exact Hf|apply u32_range|apply u32_range|] end.
    exists e', (err :: errs), σ'. split; [done|]. split; [by eapply PollRefused|]. split; [done|]. split; [done|]. cbn [RxBufInUse set_lwip count_rx count_drop set_inuse] in Hu. split; [congruence|].
    simpl in Hc', Hd'. rewrite Hc', Hd'. rewrite filter_cons_True by done. rewrite !length_cons. unfold u32. Z.div_mod_to_equations. split; lia.
Qed.
End spec.

(** ** Sending *)

Section transmit.
Context {H : Type} `{!LwipMem H} {HM : LwipMemOk H} (F : gset Z).
Context (HAL_ETH_Transmit : list (Z * Z) -> Z -> Store H -> bool).

(** The bytes that the chained buffers hold. *)
Fixpoint buffers_bytes (bufs : list (Z * Z)) (s : Store H) : option (list Z) :=
  match bufs with
  | [] => Some []
  | (a, n) :: bufs => x ← read_payload a n s; y ← buffers_bytes bufs s; Some (x ++ y)
  end.

Lemma tx_buffers_ok n p l σ s bs : pb_rep F (fun _ => 0) 0 σ s bs -> path σ p l ->
  exists bufs, tx_buffers n p s = Some bufs /\ length bufs = Nat.min n (length l) /\ buffers_bytes bufs s = Some (data σ (take n l)).
Proof using HM.
  intros Hr. revert p l. induction n as [|n IH]; intros p l Hl; [by exists []|]. cbn [tx_buffers]. pose proof (rep_zero _ _ _ _ _ _ Hr) as H0.
  inversion Hl as [|? a r Hp E Hlr]; subst; [by exists []|]. rewrite (proj2 (Z.eqb_neq p 0)) by done.
  destruct (pr_node _ _ _ _ _ _ Hr p a E) as (b & Eb & [[->|Hnx] Hlen _ _ _ _ _ _]); [congruence|]. unfold get. rewrite Eb. cbn [mbind option_bind]. rewrite Hnx.
  destruct (IH (n_next a) r Hlr) as (bufs & -> & Hn & Hd). cbn [mbind option_bind]. eexists. split; [done|]. split; [simpl; by rewrite Hn|].
  cbn [buffers_bytes]. pose proof (PbufSpec.read_ok F p a b 0 (len b) σ s bs Hr E Eb ltac:(lia) ltac:(lia) ltac:(lia)) as Hread. rewrite Z.add_0_r in Hread.
  rewrite Hread, Hd. cbn [mbind option_bind take]. rewrite (data_cons _ p a) by done. do 2 f_equal. rewrite Hlen, Nat2Z.id. cbn [Z.to_nat drop]. apply firstn_all.
Qed.

(** C31: a frame is sent as the bytes of its pbufs.  The HAL is called once,
    with the length of the whole chain and with the bytes of its pbufs in
    order: all of them when the chain has at most five pbufs, otherwise those of
    the first five only, fewer than the length announces; an error of the HAL
    is reported as ERR_IF. *)
Theorem low_level_output_sends p l σ s : represents F σ s -> path σ p l -> l <> [] -> exists bufs,
  low_level_output HAL_ETH_Transmit p s = Some (if HAL_ETH_Transmit bufs (Z.of_nat (length (data σ l))) s then ERR_OK else ERR_IF) /\
  (length bufs <= 5)%nat /\ buffers_bytes bufs s = Some (data σ (take 5 l)) /\ ((length l <= 5)%nat -> buffers_bytes bufs s = Some (data σ l)).
Proof using HM.
  intros [bs Hr] Hl Hne. destruct (tx_buffers_ok 5 p l σ s bs Hr Hl) as (bufs & E & Hn & Hb). exists bufs.
  split; [|split; [lia|split; [done|intros Hle; by rewrite take_ge in Hb by done]]].
  inversion Hl as [|? a r Hp Ea Hlr]; subst; [done|]. destruct (pr_node _ _ _ _ _ _ Hr p a Ea) as (b & Eb & [_ _ [(l' & Hl' & Htot) _] _ _ _ _ _]).
  rewrite (path_det _ _ _ _ Hl' Hl), Z.sub_0_r in Htot. unfold low_level_output, get. rewrite Eb, E. cbn [mbind option_bind]. by rewrite Htot.
Qed.
End transmit.
