(* ===== verification/EthernetSample.v ===== *)
(** * Frames on sample states *)

From S2P Require Import Prelude LwipErr Mem MemSample LwipMem Pbuf PbufGraph PbufRep PbufSpec PbufSample Ethernet EthernetSpec.
#[local] Open Scope Z_scope.

#[local] Existing Instances sample_lwip sample_lwip_ok.

(** A stack that takes one frame and refuses the others. *)
Definition sample_input (p : Z) (s : Store Memory) : option (Store Memory * Z) := Some (s, if p =? 0x2000FA38 then ERR_OK else ERR_MEM).
Definition sample_eth : EthIf Memory := mkEthIf (replicate 4 (replicate 1528 0)) [true; true; true; false] 7 0 sample_store.
Definition sample_frames : list RxFrame := [mkRxFrame [(2%nat, [1; 2; 3])] 1; mkRxFrame [(0%nat, [4; 5])] 1].

Lemma ethernetif_poll_delivers_witness : exists e' σ',
  ethernetif_poll (fun _ _ => None) sample_input sample_frames sample_eth = Some (e', [ERR_OK; ERR_MEM]) /\ represents ∅ σ' (lwip e') /\
  ethernetif_rx_count e' = 9 /\ ethernetif_rx_drop e' = 1 /\ in_use (RxBufInUse e') = 3%nat.
Proof.
  destruct (ethernetif_poll_delivers (fun _ _ => None) ∅ sample_input (fun _ σ σ' _ => σ' = σ)) with (σ := (∅ : Graph)) (e := sample_eth) (frames := sample_frames)
    as (e' & errs & σ' & E & _ & Hr & _ & Hu & Hc & Hd).
  - intros p σ s Hr _. do 2 eexists. exists σ. by split_and!.
  - exact sample_represents.
  - split; [done|]. intros i area. simpl. intros [-> _]%(lookup_replicate_1 4 (replicate 1528 0)). apply length_replicate.
  - cbn [frames_ok sample_frames sample_eth RxBufInUse]. exists 2%nat, [1; 2; 3]. split; [done|]. split; [done|]. split; [unfold ETH_MAX_PACKET_SIZE; simpl; lia|].
    exists 0%nat, [4; 5]. split; [done|]. split; [done|]. split; [unfold ETH_MAX_PACKET_SIZE; simpl; lia|done].
  - done.
  - done.
  - assert (errs = [ERR_OK; ERR_MEM]) as -> by (apply (f_equal (option_map snd)) in E; vm_compute in E; by injection E as <-).
    exists e', σ'. split; [exact E|]. split; [exact Hr|]. rewrite Hc, Hd, Hu. split_and!; vm_compute; reflexivity.
Defined.

(** A pbuf of the heap with 60 bytes is sent. *)
Definition sample_alloc : option (Store Memory * Z) := pbuf_alloc (fun _ _ => None) PBUF_LINK 60 PBUF_RAM sample_store.
Lemma sample_alloc_at : option_map snd sample_alloc = Some 0x20004008.
Proof. vm_compute. reflexivity. Qed.

Lemma low_level_output_sends_witness : exists s bufs x, sample_alloc = Some (s, 0x20004008) /\
  low_level_output (fun bufs n _ => n =? 60) 0x20004008 s = Some ERR_OK /\ buffers_bytes bufs s = Some x /\ length x = 60%nat.
Proof.
  destruct (alloc_call (fun _ _ => None) ∅ PBUF_LINK 60 PBUF_RAM ∅ sample_store sample_represents) as (s & p & E & Hres); [split; [done|split; [done|by left]]|].
  change (sample_alloc = Some (s, p)) in E. pose proof sample_alloc_at as Hp. rewrite E in Hp. injection Hp as ->.
  destruct Hres as [[? _]|(Hp & σ & l & Hg & Hl & Hr)]; [discriminate|]. rewrite (Hl (or_introl eq_refl)) in Hg.
  destruct (low_level_output_sends ∅ (fun bufs n _ => n =? 60) 0x20004008 [0x20004008] σ s Hr (gr_path _ _ _ _ _ _ Hg)) as (bufs & Eo & _ & _ & Hbufs); [done|].
  specialize (Hbufs (le_S _ _ (le_S _ _ (le_S _ _ (le_S _ _ (le_n _)))))). pose proof (gr_total _ _ _ _ _ _ Hg) as Ht. rewrite Ht in Eo.
  exists s, bufs, (data σ [0x20004008]). split; [exact E|]. split; [exact Eo|]. split; [exact Hbufs|lia].
Defined.

(** A frame in two fragments: [pbuf_chain] takes a reference of its own to the
    second pbuf, so when the stack frees the frame one pbuf is left over. *)
Definition two_fragments : option (nat * Z) :=
  '(e, p) ← link_fragments (fun _ _ => None) [(0%nat, [1; 2]); (1%nat, [3])] 0 0 sample_eth;
  '(s, n) ← pbuf_free (fun _ _ => None) p (lwip e); Some (size (pbufs s), n).
Example two_fragments_leak : two_fragments = Some (1%nat, 1).
Proof. vm_compute. reflexivity. Qed.
