(* ===== verification/DhcpMsg.v ===== *)
(** * DHCP messages (prot/dhcp.h, dhcp.c)

    The header and the options of the messages of the client, and the parser of
    the options of a reply.  A received message is the list of the payloads of
    its pbufs.  IPv4 addresses are numbers in host order; 32-bit fields stand in
    a message in network order. *)

From S2P Require Import Prelude LwipErr.
#[local] Open Scope Z_scope.

(** Offsets and lengths. *)
Definition DHCP_CHADDR_LEN : Z := 16.
Definition DHCP_SNAME_OFS : Z := 44.
Definition DHCP_SNAME_LEN : Z := 64.
Definition DHCP_FILE_OFS : Z := 108.
Definition DHCP_FILE_LEN : Z := 128.
Definition DHCP_MSG_LEN : Z := 236.
Definition DHCP_OPTIONS_OFS : Z := DHCP_MSG_LEN + 4.
Definition DHCP_OPTIONS_LEN : Z := 68.
Definition DHCP_MIN_OPTIONS_LEN : Z := 68.
Definition DHCP_MAGIC_COOKIE : Z := 0x63825363.
(** Op codes and message types. *)
Definition DHCP_BOOTREQUEST : Z := 1.
Definition DHCP_BOOTREPLY : Z := 2.
Definition DHCP_DISCOVER : Z := 1.
Definition DHCP_OFFER : Z := 2.
Definition DHCP_REQUEST : Z := 3.
Definition DHCP_DECLINE : Z := 4.
Definition DHCP_ACK : Z := 5.
Definition DHCP_NAK : Z := 6.
Definition DHCP_RELEASE : Z := 7.
Definition DHCP_INFORM : Z := 8.
(** Options. *)
Definition DHCP_OPTION_PAD : Z := 0.
Definition DHCP_OPTION_SUBNET_MASK : Z := 1.
Definition DHCP_OPTION_ROUTER : Z := 3.
Definition DHCP_OPTION_HOSTNAME : Z := 12.
Definition DHCP_OPTION_BROADCAST : Z := 28.
Definition DHCP_OPTION_END : Z := 255.
Definition DHCP_OPTION_REQUESTED_IP : Z := 50.
Definition DHCP_OPTION_LEASE_TIME : Z := 51.
Definition DHCP_OPTION_OVERLOAD : Z := 52.
Definition DHCP_OPTION_MESSAGE_TYPE : Z := 53.
Definition DHCP_OPTION_SERVER_ID : Z := 54.
Definition DHCP_OPTION_PARAMETER_REQUEST_LIST : Z := 55.
Definition DHCP_OPTION_MAX_MSG_SIZE : Z := 57.
Definition DHCP_OPTION_T1 : Z := 58.
Definition DHCP_OPTION_T2 : Z := 59.
Definition DHCP_OVERLOAD_FILE : Z := 1.
Definition DHCP_OVERLOAD_SNAME : Z := 2.
Definition DHCP_OVERLOAD_SNAME_FILE : Z := 3.

(** Numbers in network order. *)
Definition be16 (v : Z) : list Z := [v / 256 mod 256; v mod 256].
Definition be32 (v : Z) : list Z := [v / 16777216 mod 256; v / 65536 mod 256; v / 256 mod 256; v mod 256].
Definition be_of (bs : list Z) : Z := fold_left (fun a b => a * 256 + b) bs 0.

(** ** Writing *)

(** struct dhcp_msg; fields that stay zero are left out. *)
Record Msg := mkMsg {
  m_op : Z; m_htype : Z; m_hlen : Z; m_xid : Z; m_ciaddr : Z; m_chaddr : list Z; m_cookie : Z; m_options : list Z
}.
Definition zeros (n : Z) : list Z := replicate (Z.to_nat n) 0.
Definition msg_bytes (m : Msg) : list Z :=
  [m_op m; m_htype m; m_hlen m; 0] ++ be32 (m_xid m) ++ be16 0 ++ be16 0 ++ be32 (m_ciaddr m) ++ be32 0 ++ be32 0 ++ be32 0 ++
  m_chaddr m ++ zeros DHCP_SNAME_LEN ++ zeros DHCP_FILE_LEN ++ be32 (m_cookie m) ++ m_options m.

(** The options with the number of bytes written so far. *)
Abbreviation Opts := (list Z * Z)%type.
Definition put_option (v : Z) (o : Opts) : option Opts :=
  if o.2 <? Z.of_nat (length o.1) then Some (<[Z.to_nat o.2 := v]> o.1, u16 (o.2 + 1)) else None.
Definition dhcp_option (option_type option_len : Z) (o : Opts) : option Opts := o ← put_option option_type o; put_option option_len o.
Definition dhcp_option_byte (value : Z) (o : Opts) : option Opts := put_option value o.
Definition dhcp_option_short (value : Z) (o : Opts) : option Opts :=
  o ← put_option (Z.shiftr (Z.land value 0xff00) 8) o; put_option (Z.land value 0x00ff) o.
Definition dhcp_option_long (value : Z) (o : Opts) : option Opts :=
  o ← put_option (Z.shiftr (Z.land value 0xff000000) 24) o; o ← put_option (Z.shiftr (Z.land value 0x00ff0000) 16) o;
  o ← put_option (Z.shiftr (Z.land value 0x0000ff00) 8) o; put_option (Z.land value 0x000000ff) o.
Fixpoint put_all (bs : list Z) (o : Opts) : option Opts := match bs with [] => Some o | b :: bs => o ← dhcp_option_byte b o; put_all bs o end.
Definition dhcp_option_hostname (hostname : list Z) (o : Opts) : option Opts :=
  if (0 <? Z.of_nat (length hostname)) then
    let available := u32 (DHCP_OPTIONS_LEN - o.2 - 3) in
    let len := Z.min (Z.of_nat (length hostname)) available in
    o ← dhcp_option DHCP_OPTION_HOSTNAME (u8 len) o; put_all (take (Z.to_nat len) hostname) o
  else Some o.
(** The loop that pads. *)
Fixpoint pad_options (fuel : nat) (o : Opts) : option Opts :=
  match fuel with
  | O => None
  | S fuel =>
    if ((o.2 <? DHCP_MIN_OPTIONS_LEN) || negb (Z.land o.2 3 =? 0)) && (o.2 <? DHCP_OPTIONS_LEN) then o ← put_option 0 o; pad_options fuel o else Some o
  end.
(** The bytes of the message after the trailer, cut to what was written. *)
Definition dhcp_option_trailer (m : Msg) (o : Opts) : option (list Z) :=
  o ← put_option DHCP_OPTION_END o; o ← pad_options 69 o;
  Some (take (Z.to_nat (DHCP_OPTIONS_OFS + o.2)) (msg_bytes (mkMsg (m_op m) (m_htype m) (m_hlen m) (m_xid m) (m_ciaddr m) (m_chaddr m) (m_cookie m) o.1))).

(** ** Reading *)

(** Which options a reply had, with their values: dhcp_rx_options_val where
    dhcp_rx_options_given is set. *)
Inductive OptIdx := IDX_OVERLOAD | IDX_MSG_TYPE | IDX_SERVER_ID | IDX_LEASE_TIME | IDX_T1 | IDX_T2 | IDX_SUBNET_MASK | IDX_ROUTER.
#[export] Instance OptIdx_eq_dec : EqDecision OptIdx.
Proof. solve_decision. Defined.
Abbreviation RxOptions := (OptIdx -> option Z).
Definition set_option (i : OptIdx) (v : option Z) (given : RxOptions) : RxOptions := fun j => if decide (j = i) then v else given j.

(** What the switch does with an option of [len] bytes: an error, or the number
    of bytes to decode and where to.  [idx] is [options_idx]. *)
Definition option_action (op len idx : Z) : option (Z * OptIdx) + Z :=
  if op =? DHCP_OPTION_PAD then inl None
  else if op =? DHCP_OPTION_SUBNET_MASK then if len =? 4 then inl (Some (len, IDX_SUBNET_MASK)) else inr ERR_VAL
  else if op =? DHCP_OPTION_ROUTER then if len >=? 4 then inl (Some (4, IDX_ROUTER)) else inr ERR_VAL
  else if op =? DHCP_OPTION_LEASE_TIME then if len =? 4 then inl (Some (len, IDX_LEASE_TIME)) else inr ERR_VAL
  else if op =? DHCP_OPTION_OVERLOAD then if len =? 1 then if idx =? DHCP_OPTIONS_OFS then inl (Some (len, IDX_OVERLOAD)) else inr ERR_VAL else inr ERR_VAL
  else if op =? DHCP_OPTION_MESSAGE_TYPE then if len =? 1 then inl (Some (len, IDX_MSG_TYPE)) else inr ERR_VAL
  else if op =? DHCP_OPTION_SERVER_ID then if len =? 4 then inl (Some (len, IDX_SERVER_ID)) else inr ERR_VAL
  else if op =? DHCP_OPTION_T1 then if len =? 4 then inl (Some (len, IDX_T1)) else inr ERR_VAL
  else if op =? DHCP_OPTION_T2 then if len =? 4 then inl (Some (len, IDX_T2)) else inr ERR_VAL
  else inl None.

(** pbuf_copy_partial from the pbufs [q] on. *)
Definition copy_value (q : list (list Z)) (n offset : Z) : list Z := take (Z.to_nat n) (drop (Z.to_nat offset) (concat q)).

(** Decoding the value of an option, 1 or 4 bytes long. *)
Definition decode_value (q : list (list Z)) (decode_len val_offset : Z) (i : OptIdx) (given : RxOptions) : RxOptions + Z :=
  match given i with
  | Some _ => inl given
  | None =>
    let bs := copy_value q (Z.min decode_len 4) val_offset in
    if negb (Z.of_nat (length bs) =? Z.min decode_len 4) then inr ERR_BUF else inl (set_option i (Some (be_of bs)) given)
  end.

(** The loop over the options: [q] are the pbufs from the current one on. *)
Fixpoint parse_options (fuel : nat) (q : list (list Z)) (offset offset_max idx : Z) (given : RxOptions) : option (RxOptions + Z) :=
  match fuel with
  | O => None
  | S fuel =>
    match q with
    | [] => Some (inl given)
    | c :: rest =>
      if negb (offset <? offset_max) then Some (inl given) else
      op ← c !! Z.to_nat offset;
      if op =? DHCP_OPTION_END then Some (inl given) else
      let val_offset := u16 (offset + 2) in
      if val_offset <? offset then Some (inr ERR_BUF) else
      len ← (if offset + 1 <? Z.of_nat (length c) then c !! Z.to_nat (offset + 1) else match rest with [] => Some 0 | d :: _ => d !! 0%nat end);
      let len := if op =? DHCP_OPTION_PAD then 0 else len in
      match option_action op len idx with
      | inr e => Some (inr e)
      | inl act =>
        if negb (op =? DHCP_OPTION_PAD) && (offset + len + 2 >? 0xFFFF) then Some (inr ERR_BUF) else
        let offset := if op =? DHCP_OPTION_PAD then u16 (offset + 1) else u16 (offset + len + 2) in
        match (match act with Some (decode_len, i) => decode_value q decode_len val_offset i given | None => inl given end) with
        | inr e => Some (inr e)
        | inl given =>
          if offset >=? Z.of_nat (length c) then
            let offset := u16 (offset - Z.of_nat (length c)) in
            let offset_max := u16 (offset_max - Z.of_nat (length c)) in
            if offset <? offset_max then match rest with [] => Some (inr ERR_VAL) | _ => parse_options fuel rest offset offset_max idx given end
            else Some (inr ERR_BUF)
          else parse_options fuel q offset offset_max idx given
        end
      end
    end
  end.

(** The loop at [again] that finds the pbuf with the options. *)
Fixpoint skip_to (q : list (list Z)) (idx idx_max : Z) : list (list Z) * Z * Z :=
  match q with
  | [] => ([], idx, idx_max)
  | c :: r => if idx >=? Z.of_nat (length c) then skip_to r (u16 (idx - Z.of_nat (length c))) (u16 (idx_max - Z.of_nat (length c))) else (q, idx, idx_max)
  end.
(** One pass from [again]; [None] is an access outside of a pbuf or fuel. *)
Definition parse_pass (fuel : nat) (p : list (list Z)) (idx idx_max : Z) (given : RxOptions) : option (RxOptions + Z) :=
  let '(q, idx, idx_max) := skip_to p idx idx_max in
  match q with [] => Some (inr ERR_BUF) | _ => parse_options fuel q idx idx_max idx given end.

(** The passes: the options, then the fields that the options overload. *)
Fixpoint parse_passes (passes fuel : nat) (p : list (list Z)) (idx idx_max : Z) (parse_file parse_sname : bool) (given : RxOptions) : option (RxOptions + Z) :=
  match passes with
  | O => None
  | S passes =>
    r ← parse_pass fuel p idx idx_max given;
    match r with
    | inr e => Some (inr e)
    | inl given =>
      let overload := given IDX_OVERLOAD in
      let given := match overload with Some _ => set_option IDX_OVERLOAD None given | None => given end in
      let has v := match overload with Some o => o =? v | None => false end in
      let parse_file := parse_file || has DHCP_OVERLOAD_FILE || has DHCP_OVERLOAD_SNAME_FILE in
      let parse_sname := parse_sname || has DHCP_OVERLOAD_SNAME || has DHCP_OVERLOAD_SNAME_FILE in
      if parse_file then parse_passes passes fuel p DHCP_FILE_OFS (DHCP_FILE_OFS + DHCP_FILE_LEN) false parse_sname given
      else if parse_sname then parse_passes passes fuel p DHCP_SNAME_OFS (DHCP_SNAME_OFS + DHCP_SNAME_LEN) false false given
      else Some (inl given)
    end
  end.
Definition dhcp_parse_reply (p : list (list Z)) : option (RxOptions + Z) :=
  match p with
  | [] => None
  | c :: _ =>
    if Z.of_nat (length c) <? DHCP_SNAME_OFS then Some (inr ERR_BUF)
    else let tot_len := Z.of_nat (length (concat p)) in
         parse_passes 4 (S (Z.to_nat tot_len)) p DHCP_OPTIONS_OFS tot_len false false (fun _ => None)
  end.
