(* ===== verification/DhcpMsgSpec.v ===== *)
(** * What the writers of options write and what the parser reads *)

From S2P Require Import Prelude LwipErr DhcpMsg.
#[local] Open Scope Z_scope.

(** ** Writing *)

(** [o] has written [bs] into the 68 bytes of the options. *)
Definition written (bs : list Z) (o : Opts) : Prop :=
  o.2 = Z.of_nat (length bs) /\ length o.1 = 68%nat /\ exists rest, o.1 = bs ++ rest.

Lemma written_nil : written [] (zeros DHCP_OPTIONS_LEN, 0).
Proof. split; [done|]. split; [done|]. by eexists. Qed.

(** [f] writes [ws] behind what is there, when there is room. *)
Definition writes (f : Opts -> option Opts) (ws : list Z) : Prop :=
  forall bs o, written bs o -> (length bs + length ws <= 68)%nat -> exists o', f o = Some o' /\ written (bs ++ ws) o'.

Lemma put_option_writes v : writes (put_option v) [v].
Proof.
  intros bs [l n] (Hn & Hl & rest & Hr) Hroom. cbn in *. subst n l. unfold put_option. cbn [fst snd].
  rewrite Hl, (proj2 (Z.ltb_lt _ _)) by lia. eexists. split; [done|].
  destruct rest as [|x rest]; [rewrite length_app in Hl; cbn in Hl; lia|].
  assert (<[Z.to_nat (Z.of_nat (length bs)) := v]> (bs ++ x :: rest) = (bs ++ [v]) ++ rest) as E.
  { rewrite Nat2Z.id. replace (length bs) with (length bs + 0)%nat by lia. rewrite insert_app_r. cbn. by rewrite <- app_assoc. }
  rewrite E. split; [|split; [|by eexists]]; cbn [fst snd].
  - rewrite length_app. cbn [length]. unfold u16. rewrite Z.mod_small; lia.
  - rewrite <- E, length_insert. done.
Qed.

Lemma writes_then f g a b : writes f a -> writes g b -> writes (fun o => f o ≫= g) (a ++ b).
Proof.
  intros Hf Hg bs o Ho Hroom. rewrite length_app in Hroom. destruct (Hf bs o Ho) as (o1 & E1 & W1); [lia|].
  destruct (Hg _ o1 W1) as (o2 & E2 & W2); [rewrite length_app; lia|]. exists o2. cbn. rewrite E1. cbn. split; [done|]. by rewrite app_assoc.
Qed.

Lemma writes_none : writes Some [].
Proof. intros bs o Ho _. exists o. by rewrite app_nil_r. Qed.

Lemma put_all_writes ws : writes (put_all ws) ws.
Proof. induction ws as [|w ws IH]; [apply writes_none|]. apply (writes_then (put_option w) (put_all ws) [w] ws); [apply put_option_writes|exact IH]. Qed.

Lemma dhcp_option_writes t l : writes (dhcp_option t l) [t; l].
Proof. apply (writes_then (put_option t) (put_option l) [t] [l]); apply put_option_writes. Qed.

Lemma byte_at v k m : 0 <= k -> m = Z.shiftl 255 k -> Z.shiftr (Z.land v m) k = Z.shiftr v k mod 256.
Proof.
  intros Hk ->. rewrite Z.shiftr_land, Z.shiftr_shiftl_l, Z.sub_diag, Z.shiftl_0_r by lia. apply (Z.land_ones _ 8). lia.
Qed.

Lemma low_byte v : Z.land v 255 = v mod 256.
Proof. apply (Z.land_ones v 8). lia. Qed.

Lemma dhcp_option_short_writes v : writes (dhcp_option_short v) (be16 v).
Proof.
  intros bs o Ho Hroom. unfold dhcp_option_short. rewrite (byte_at v 8 0xff00) by done.
  change 0x00ff with 255. rewrite low_byte, Z.shiftr_div_pow2 by lia.
  apply (writes_then (put_option _) (put_option _) [_] [_] (put_option_writes _) (put_option_writes _) bs o Ho Hroom).
Qed.

Lemma dhcp_option_long_writes v : writes (dhcp_option_long v) (be32 v).
Proof.
  intros bs o Ho Hroom. unfold dhcp_option_long.
  rewrite (byte_at v 24 0xff000000), (byte_at v 16 0x00ff0000), (byte_at v 8 0x0000ff00) by done.
  change 0x000000ff with 255. rewrite low_byte, !Z.shiftr_div_pow2 by lia.
  exact (writes_then (put_option _) _ [_] _ (put_option_writes _) (writes_then (put_option _) _ [_] _ (put_option_writes _)
    (writes_then (put_option _) _ [_] [_] (put_option_writes _) (put_option_writes _))) bs o Ho Hroom).
Qed.

(** The name is cut to what is left, with a byte for the end mark. *)
Definition hostname_bytes (name : list Z) (used : nat) : list Z :=
  let len := Nat.min (length name) (65 - used) in
  match name with [] => [] | _ => [DHCP_OPTION_HOSTNAME; Z.of_nat len] ++ take len name end.

Lemma hostname_room name used : (used <= 65)%nat -> (used + length (hostname_bytes name used) <= 67)%nat.
Proof. intros Hu. unfold hostname_bytes. destruct name as [|x name]; cbn [length]; [lia|]. rewrite length_app, length_take. cbn [length]. lia. Qed.

Lemma dhcp_option_hostname_writes name bs o :
  written bs o -> (length bs <= 65)%nat ->
  exists o', dhcp_option_hostname name o = Some o' /\ written (bs ++ hostname_bytes name (length bs)) o'.
Proof.
  intros Ho Hb. pose proof (hostname_room name (length bs) Hb) as Hroom.
  destruct name as [|x name]; [exists o; by rewrite app_nil_r|].
  unfold dhcp_option_hostname. rewrite (proj2 (Z.ltb_lt 0 _)) by (cbn [length]; lia). cbv zeta.
  set (len := Nat.min (length (x :: name)) (65 - length bs)).
  assert (Z.min (Z.of_nat (length (x :: name))) (u32 (DHCP_OPTIONS_LEN - o.2 - 3)) = Z.of_nat len) as ->.
  { destruct Ho as [-> _]. unfold DHCP_OPTIONS_LEN. rewrite u32_small by lia. lia. }
  assert (u8 (Z.of_nat len) = Z.of_nat len) as -> by (apply u8_small; lia). rewrite Nat2Z.id.
  apply (writes_then (dhcp_option _ _) (put_all _) _ _ (dhcp_option_writes _ _) (put_all_writes (take len (x :: name))) bs o Ho).
  unfold hostname_bytes in Hroom. fold len in Hroom. lia.
Qed.

Lemma pad_options_step n o :
  pad_options (S n) o = if ((o.2 <? DHCP_MIN_OPTIONS_LEN) || negb (Z.land o.2 3 =? 0)) && (o.2 <? DHCP_OPTIONS_LEN)
                        then put_option 0 o ≫= pad_options n else Some o.
Proof. done. Qed.

Lemma pad_options_writes k bs o :
  written bs o -> (length bs + k = 68)%nat -> exists o', pad_options (S k) o = Some o' /\ written (bs ++ replicate k 0) o'.
Proof.
  revert bs o. induction k as [|k IH]; intros bs o Ho Hk; pose proof Ho as [Hn Hl]; rewrite pad_options_step.
  - assert (o.2 = 68) as -> by lia. exists o. rewrite app_nil_r. done.
  - rewrite (proj2 (Z.ltb_lt o.2 DHCP_MIN_OPTIONS_LEN)), (proj2 (Z.ltb_lt o.2 DHCP_OPTIONS_LEN)) by (unfold DHCP_MIN_OPTIONS_LEN, DHCP_OPTIONS_LEN; lia).
    cbn [orb andb]. destruct (put_option_writes 0 bs o Ho) as (o1 & -> & W1); [cbn; lia|].
    destruct (IH _ o1 W1) as (o2 & E2 & W2); [rewrite length_app; cbn; lia|]. exists o2. cbn [mbind option_bind]. rewrite E2. split; [done|].
    by rewrite <- app_assoc in W2.
Qed.

Lemma pad_options_fuel a b o r : (a <= b)%nat -> pad_options a o = Some r -> pad_options b o = Some r.
Proof.
  revert b o. induction a as [|a IH]; intros [|b] o Hab; try (cbn; done || lia). rewrite !pad_options_step. case_match; [|done].
  destruct (put_option 0 o) as [o'|]; cbn [mbind option_bind]; [|done]. apply IH. lia.
Qed.

(** The message that goes out: header, options, end mark, padding. *)
Definition header (m : Msg) : list Z :=
  [m_op m; m_htype m; m_hlen m; 0] ++ be32 (m_xid m) ++ be16 0 ++ be16 0 ++ be32 (m_ciaddr m) ++ be32 0 ++ be32 0 ++ be32 0 ++ m_chaddr m.
Definition message (m : Msg) (options : list Z) : list Z :=
  header m ++ zeros DHCP_SNAME_LEN ++ zeros DHCP_FILE_LEN ++ be32 (m_cookie m) ++ options ++ DHCP_OPTION_END :: replicate (67 - length options) 0.

Lemma dhcp_option_trailer_message m bs o :
  written bs o -> (length bs <= 67)%nat -> length (m_chaddr m) = 16%nat -> dhcp_option_trailer m o = Some (message m bs).
Proof.
  intros Ho Hb Hc. unfold dhcp_option_trailer. destruct (put_option_writes DHCP_OPTION_END bs o Ho) as (o1 & E1 & W1); [cbn; lia|].
  rewrite E1. cbn [mbind option_bind].
  destruct (pad_options_writes (67 - length bs) _ _ W1) as (o2 & E2 & Hn2 & Hl2 & rest & Hr2); [rewrite length_app; cbn; lia|].
  apply (pad_options_fuel _ 69) in E2; [|lia].
  rewrite E2. cbn [mbind option_bind]. f_equal. unfold msg_bytes. cbn [m_op m_htype m_hlen m_xid m_ciaddr m_chaddr m_cookie m_options].
  assert (length ((bs ++ [DHCP_OPTION_END]) ++ replicate (67 - length bs) 0) = 68%nat) as Hlen
    by (rewrite !length_app, length_replicate; cbn; lia).
  assert (rest = []) as ->. { rewrite Hr2, length_app, Hlen in Hl2. by destruct rest; [|cbn in Hl2; lia]. }
  rewrite take_ge.
  - rewrite Hr2, app_nil_r. unfold message, header. rewrite <- !app_assoc. cbn [app]. repeat (f_equal; []). f_equal.
  - rewrite !length_app, Hl2, Hc, Hn2, Hlen. vm_compute. lia.
Qed.

(** ** Reading a message that is in one pbuf *)

Definition bytes (c : list Z) : Prop := Forall (fun b => 0 <= b < 256) c.

Lemma bytes_at c k b : bytes c -> c !! k = Some b -> 0 <= b < 256.
Proof. exact (Forall_lookup_1 (fun b => 0 <= b < 256) c k b). Qed.

(** One turn of the loop on a message in one pbuf. *)
Lemma parse_options_step fuel c offset offset_max idx given op :
  offset < offset_max -> c !! Z.to_nat offset = Some op -> op <> DHCP_OPTION_END -> 0 <= offset < 65534 ->
  parse_options (S fuel) [c] offset offset_max idx given =
    (len ← (if offset + 1 <? Z.of_nat (length c) then c !! Z.to_nat (offset + 1) else Some 0);
     let len := if op =? DHCP_OPTION_PAD then 0 else len in
     match option_action op len idx with
     | inr e => Some (inr e)
     | inl act =>
       if negb (op =? DHCP_OPTION_PAD) && (offset + len + 2 >? 0xFFFF) then Some (inr ERR_BUF) else
       let offset' := if op =? DHCP_OPTION_PAD then u16 (offset + 1) else u16 (offset + len + 2) in
       match (match act with Some (decode_len, i) => decode_value [c] decode_len (offset + 2) i given | None => inl given end) with
       | inr e => Some (inr e)
       | inl given =>
         if offset' >=? Z.of_nat (length c) then
           if u16 (offset' - Z.of_nat (length c)) <? u16 (offset_max - Z.of_nat (length c)) then Some (inr ERR_VAL) else Some (inr ERR_BUF)
         else parse_options fuel [c] offset' offset_max idx given
       end
     end).
Proof.
  intros Hmax Hop Hend Hoff. cbn [parse_options]. rewrite (proj2 (Z.ltb_lt _ _) Hmax), Hop. cbn [negb mbind option_bind].
  rewrite (proj2 (Z.eqb_neq _ _) Hend). cbv zeta. rewrite (u16_small (offset + 2)) by lia.
  rewrite (proj2 (Z.ltb_ge (offset + 2) offset)) by lia. done.
Qed.

Lemma parse_options_safe c : bytes c -> Z.of_nat (length c) < 65535 -> forall fuel offset offset_max idx given,
  0 <= offset < Z.of_nat (length c) -> Z.of_nat (length c) - offset < Z.of_nat fuel ->
  is_Some (parse_options fuel [c] offset offset_max idx given).
Proof.
  intros Hc Hlen. induction fuel as [|fuel IH]; intros offset offset_max idx given Hoff Hfuel; [lia|].
  destruct (decide (offset < offset_max)) as [Hmax|Hmax].
  2: { cbn [parse_options]. rewrite (proj2 (Z.ltb_ge _ _)) by lia. by eexists. }
  destruct (lookup_lt_is_Some_2 c (Z.to_nat offset)) as [op Hop]; [lia|].
  destruct (decide (op = DHCP_OPTION_END)) as [->|Hend].
  { cbn [parse_options]. rewrite (proj2 (Z.ltb_lt _ _) Hmax), Hop. by eexists. }
  rewrite (parse_options_step fuel c offset offset_max idx given op) by (done || lia).
  assert (exists len, (if offset + 1 <? Z.of_nat (length c) then c !! Z.to_nat (offset + 1) else Some 0) = Some len /\ 0 <= len < 256) as (len & -> & Hl).
  { case_match eqn:Hb; [|exists 0; split; [done|lia]]. bool_to_prop. destruct (lookup_lt_is_Some_2 c (Z.to_nat (offset + 1))) as [len Hk]; [lia|].
    exists len. split; [done|]. by eapply bytes_at. }
  cbn [mbind option_bind]. cbv zeta. destruct (option_action _ _ _) as [act|]; [|by eexists].
  destruct (negb _ && _) eqn:Hover; [by eexists|]. destruct (match act with Some _ => _ | None => _ end) as [given'|]; [|by eexists].
  match goal with |- is_Some (if ?o >=? _ then _ else _) => set (offset' := o) end.
  destruct (offset' >=? Z.of_nat (length c)) eqn:Hin; [destruct (_ <? _); by eexists|]. rewrite Z.geb_leb, Z.leb_gt in Hin.
  assert (offset < offset').
  { subst offset'. destruct (op =? DHCP_OPTION_PAD); cbn [negb andb] in Hover |- *; [rewrite u16_small; lia|].
    rewrite Z.gtb_ltb, Z.ltb_ge in Hover. rewrite u16_small; lia. }
  apply IH; lia.
Qed.

Lemma skip_to_single c idx idx_max : idx < Z.of_nat (length c) -> skip_to [c] idx idx_max = ([c], idx, idx_max).
Proof. intros H. cbn [skip_to]. by rewrite Z.geb_leb, (proj2 (Z.leb_gt _ _) H). Qed.

Lemma parse_pass_safe c idx idx_max given fuel :
  bytes c -> Z.of_nat (length c) < 65535 -> 0 <= idx -> Z.of_nat (length c) < Z.of_nat fuel ->
  is_Some (parse_pass fuel [c] idx idx_max given).
Proof.
  intros Hc Hl Hi Hf. unfold parse_pass. destruct (decide (idx < Z.of_nat (length c))).
  - rewrite skip_to_single by done. apply parse_options_safe; (done || lia).
  - cbn [skip_to]. rewrite Z.geb_leb, (proj2 (Z.leb_le _ _)) by lia. by eexists.
Qed.

(** Every pass that a message can ask for ends: the overload option counts in
    the options only, and each area is read once. *)
Lemma parse_passes_step passes fuel p idx idx_max pf ps given given1 :
  parse_pass fuel p idx idx_max given = Some (inl given1) ->
  parse_passes (S passes) fuel p idx idx_max pf ps given =
    let has v := match given1 IDX_OVERLOAD with Some o => o =? v | None => false end in
    let given := match given1 IDX_OVERLOAD with Some _ => set_option IDX_OVERLOAD None given1 | None => given1 end in
    let pf := pf || has DHCP_OVERLOAD_FILE || has DHCP_OVERLOAD_SNAME_FILE in
    let ps := ps || has DHCP_OVERLOAD_SNAME || has DHCP_OVERLOAD_SNAME_FILE in
    if pf then parse_passes passes fuel p DHCP_FILE_OFS (DHCP_FILE_OFS + DHCP_FILE_LEN) false ps given
    else if ps then parse_passes passes fuel p DHCP_SNAME_OFS (DHCP_SNAME_OFS + DHCP_SNAME_LEN) false false given
    else Some (inl given).
Proof. intros E. cbn [parse_passes]. by rewrite E. Qed.

(** ** Options as a list *)
Inductive Item := Pad | Opt (t : Z) (v : list Z).
Definition encode_item (it : Item) : list Z := match it with Pad => [DHCP_OPTION_PAD] | Opt t v => t :: Z.of_nat (length v) :: v end.
Definition encode (items : list Item) : list Z := items ≫= encode_item.

Definition code (i : OptIdx) : Z :=
  match i with
  | IDX_OVERLOAD => DHCP_OPTION_OVERLOAD | IDX_MSG_TYPE => DHCP_OPTION_MESSAGE_TYPE | IDX_SERVER_ID => DHCP_OPTION_SERVER_ID
  | IDX_LEASE_TIME => DHCP_OPTION_LEASE_TIME | IDX_T1 => DHCP_OPTION_T1 | IDX_T2 => DHCP_OPTION_T2
  | IDX_SUBNET_MASK => DHCP_OPTION_SUBNET_MASK | IDX_ROUTER => DHCP_OPTION_ROUTER
  end.
(** The length that RFC 2132 gives the options that the client reads. *)
Definition len_ok (i : OptIdx) (n : nat) : Prop :=
  match i with IDX_ROUTER => (4 <= n)%nat | IDX_OVERLOAD | IDX_MSG_TYPE => n = 1%nat | _ => n = 4%nat end.
Definition item_ok (overload_ok : bool) (it : Item) : Prop :=
  match it with
  | Pad => True
  | Opt t v =>
    0 < t < 255 /\ (length v <= 255)%nat /\
    forall i, t = code i -> len_ok i (length v) /\ (i = IDX_OVERLOAD -> overload_ok = true)
  end.

(** The value of the first option of a kind; of several routers the first. *)
Fixpoint option_value (i : OptIdx) (items : list Item) : option Z :=
  match items with
  | [] => None
  | Opt t v :: items => if decide (t = code i) then Some (be_of (take 4 v)) else option_value i items
  | Pad :: items => option_value i items
  end.

(** What an item adds to what was given. *)
Definition absorb (given : RxOptions) (it : Item) : RxOptions := fun i => match given i with Some v => Some v | None => option_value i [it] end.

Lemma absorb_items items given i :
  fold_left absorb items given i = match given i with Some v => Some v | None => option_value i items end.
Proof.
  revert given. induction items as [|it items IH]; intros given; cbn [fold_left]; [cbn; by destruct (given i)|].
  rewrite IH. unfold absorb at 1. destruct (given i); [done|]. destruct it as [|t v]; cbn [option_value]; [done|].
  destruct (decide (t = code i)); done.
Qed.

Definition same_options (g h : RxOptions) : Prop := forall i, g i = h i.
#[export] Instance same_options_equiv : Equivalence same_options.
Proof. split; [by intros g i|intros g h E i; by rewrite E|intros g h k E1 E2 i; by rewrite E1, E2]. Qed.

(** How the switch decides on a well-formed option. *)
Lemma option_action_known i n idx :
  len_ok i n -> (i = IDX_OVERLOAD -> idx = DHCP_OPTIONS_OFS) ->
  option_action (code i) (Z.of_nat n) idx = inl (Some (Z.min (Z.of_nat n) 4, i)) /\ (1 <= n)%nat.
Proof.
  intros Hn Hidx. destruct i; cbn in Hn; try subst n; try (split; [reflexivity|lia]).
  - rewrite Hidx by done. split; [reflexivity|lia].
  - split; [|lia]. unfold option_action. cbn. rewrite Z.geb_leb, (proj2 (Z.leb_le _ _)) by lia. repeat f_equal. lia.
Qed.

Lemma option_action_other t n idx : (forall i, t <> code i) -> option_action t n idx = inl None.
Proof.
  intros H. unfold option_action.
  rewrite (proj2 (Z.eqb_neq t DHCP_OPTION_SUBNET_MASK) (H IDX_SUBNET_MASK)), (proj2 (Z.eqb_neq t DHCP_OPTION_ROUTER) (H IDX_ROUTER)), (proj2 (Z.eqb_neq t DHCP_OPTION_LEASE_TIME) (H IDX_LEASE_TIME)), (proj2 (Z.eqb_neq t DHCP_OPTION_OVERLOAD) (H IDX_OVERLOAD)), (proj2 (Z.eqb_neq t DHCP_OPTION_MESSAGE_TYPE) (H IDX_MSG_TYPE)), (proj2 (Z.eqb_neq t DHCP_OPTION_SERVER_ID) (H IDX_SERVER_ID)), (proj2 (Z.eqb_neq t DHCP_OPTION_T1) (H IDX_T1)), (proj2 (Z.eqb_neq t DHCP_OPTION_T2) (H IDX_T2)).
  by case_match.
Qed.

Lemma code_dec t : (exists i, t = code i) \/ (forall i, t <> code i).
Proof.
  destruct (decide (Exists (fun i => t = code i) [IDX_OVERLOAD; IDX_MSG_TYPE; IDX_SERVER_ID; IDX_LEASE_TIME; IDX_T1; IDX_T2; IDX_SUBNET_MASK; IDX_ROUTER])) as [H|H].
  - left. apply Exists_exists in H as (i & _ & Hi). by exists i.
  - right. intros i Hi. apply H, Exists_exists. exists i. split; [|done]. destruct i; repeat constructor.
Qed.

Lemma code_inj i j : code i = code j -> i = j.
Proof. by destruct i, j. Qed.

Lemma decode_value_item c pre v rest n i given :
  c = pre ++ v ++ rest -> n = Z.min (Z.of_nat (length v)) 4 ->
  exists given', decode_value [c] n (Z.of_nat (length pre)) i given = inl given' /\
    forall j, given' j = match given j with Some x => Some x | None => if decide (j = i) then Some (be_of (take 4 v)) else None end.
Proof.
  intros -> ->. unfold decode_value. destruct (given i) as [x|] eqn:Hi.
  - exists given. split; [done|]. intros j. destruct (given j) eqn:Hj; [done|]. destruct (decide (j = i)) as [->|]; [congruence|done].
  - unfold copy_value. cbn [concat]. rewrite app_nil_r, Nat2Z.id, drop_app_length, Z.min_l by lia.
    replace (Z.to_nat (Z.min (Z.of_nat (length v)) 4)) with (Nat.min (length v) 4) by lia.
    assert (take (Nat.min (length v) 4) (v ++ rest) = take 4 v) as ->.
    { destruct (decide (length v <= 4)%nat); [rewrite Nat.min_l, take_app_length, take_ge by lia; done|rewrite Nat.min_r, take_app_le by lia; done]. }
    rewrite length_take, (proj2 (Z.eqb_eq _ _)) by lia. cbn [negb]. eexists. split; [done|]. intros j. unfold set_option.
    destruct (decide (j = i)) as [->|]; [by rewrite Hi|by destruct (given j)].
Qed.

(** One item is read: it adds what it says and the loop goes on behind it. *)
Lemma parse_item ov it c pre rest given fuel idx offset_max :
  item_ok ov it -> (ov = true -> idx = DHCP_OPTIONS_OFS) -> c = pre ++ encode_item it ++ rest -> rest <> [] -> Z.of_nat (length c) < 65535 ->
  Z.of_nat (length pre) < offset_max ->
  exists given', same_options given' (absorb given it) /\
    parse_options (S fuel) [c] (Z.of_nat (length pre)) offset_max idx given =
    parse_options fuel [c] (Z.of_nat (length (pre ++ encode_item it))) offset_max idx given'.
Proof.
  intros Hit Hov Hc Hrest Hlen Hmax. assert (0 < length rest)%nat as Hr by (destruct rest; [done|cbn; lia]).
  assert (c !! length pre = head (encode_item it)) as Hop.
  { subst c. rewrite lookup_app_r, Nat.sub_diag by lia. by destruct it. }
  assert (length c = length pre + length (encode_item it) + length rest)%nat as Hlc by (subst c; rewrite !length_app; lia).
  destruct it as [|t v]; cbn [encode_item head] in *.
  - rewrite (parse_options_step fuel c _ _ _ _ DHCP_OPTION_PAD) by (done || lia || (by rewrite Nat2Z.id)).
    assert (exists len, (if Z.of_nat (length pre) + 1 <? Z.of_nat (length c) then c !! Z.to_nat (Z.of_nat (length pre) + 1) else Some 0) = Some len) as (len & ->).
    { case_match; [|by eexists]. bool_to_prop. apply lookup_lt_is_Some_2. lia. }
    cbn [mbind option_bind Z.eqb DHCP_OPTION_PAD option_action negb andb]. cbv zeta. cbn [length] in *.
    rewrite length_app, u16_small, Z.geb_leb, (proj2 (Z.leb_gt _ _)) by (cbn [length]; lia). exists given.
    split; [intros i; unfold absorb; by destruct (given i)|]. f_equal. cbn [length]. lia.
  - destruct Hit as (Ht & Hv & Hkind).
    rewrite (parse_options_step fuel c _ _ _ _ t) by (lia || (by rewrite Nat2Z.id) || (unfold DHCP_OPTION_END; lia)).
    cbn [length] in Hlc. rewrite (proj2 (Z.ltb_lt _ _)) by lia.
    assert (c !! Z.to_nat (Z.of_nat (length pre) + 1) = Some (Z.of_nat (length v))) as ->.
    { subst c. replace (Z.to_nat _) with (length pre + 1)%nat by lia. by rewrite lookup_app_r, Nat.add_comm, Nat.add_sub by lia. }
    cbn [mbind option_bind]. cbv zeta. rewrite (proj2 (Z.eqb_neq t DHCP_OPTION_PAD)) by (unfold DHCP_OPTION_PAD; lia). cbn [negb andb].
    assert (exists act given', option_action t (Z.of_nat (length v)) idx = inl act /\
      (match act with Some (decode_len, i) => decode_value [c] decode_len (Z.of_nat (length pre) + 2) i given | None => inl given end) = inl given' /\
      same_options given' (absorb given (Opt t v))) as (act & given' & -> & -> & Hsame).
    { destruct (code_dec t) as [[i ->]|Hno].
      - destruct (Hkind i eq_refl) as [Hl Ho]. destruct (option_action_known i (length v) idx Hl) as [-> _]; [auto|].
        destruct (decode_value_item c (pre ++ [code i; Z.of_nat (length v)]) v rest (Z.min (Z.of_nat (length v)) 4) i given)
          as (given' & Hd & Hg);
          [by rewrite Hc, <- app_assoc|reflexivity|].
        rewrite length_app in Hd. cbn [length] in Hd. replace (Z.of_nat (length pre + 2)) with (Z.of_nat (length pre) + 2) in Hd by lia.
        exists (Some (Z.min (Z.of_nat (length v)) 4, i)), given'. split; [done|]. split; [done|]. intros j. rewrite Hg. unfold absorb. cbn [option_value].
        destruct (given j); [done|]. destruct (decide (j = i)) as [->|Hj]; [by rewrite decide_True|].
        rewrite decide_False; [done|]. intros E%code_inj. congruence.
      - rewrite option_action_other by done. exists None, given. split; [done|]. split; [done|]. intros j. unfold absorb. cbn [option_value].
        destruct (given j); [done|]. by rewrite decide_False by apply Hno. }
    rewrite Z.gtb_ltb.
    rewrite (proj2 (Z.ltb_ge _ _)) by lia. rewrite u16_small, Z.geb_leb, (proj2 (Z.leb_gt _ _)) by lia.
    exists given'. split; [done|]. f_equal. rewrite length_app. cbn [length]. lia.
Qed.

#[export] Instance absorb_proper it : Proper (same_options ==> same_options) (fun g => absorb g it).
Proof. intros g h E i. unfold absorb. by rewrite E. Qed.

Lemma parse_items ov items : Forall (item_ok ov) items -> forall c pre tail given fuel idx offset_max,
  (ov = true -> idx = DHCP_OPTIONS_OFS) -> c = pre ++ encode items ++ DHCP_OPTION_END :: tail -> Z.of_nat (length c) < 65535 ->
  Z.of_nat (length pre) + Z.of_nat (length (encode items)) < offset_max -> (length items < fuel)%nat ->
  exists g, parse_options fuel [c] (Z.of_nat (length pre)) offset_max idx given = Some (inl g) /\ same_options g (fold_left absorb items given).
Proof.
  induction 1 as [|it items Hit _ IH]; intros c pre tail given [|fuel] idx offset_max Hov Hc Hlen Hmax Hfuel; cbn [length] in Hfuel; try lia.
  - cbn [parse_options]. rewrite (proj2 (Z.ltb_lt _ _)) by lia.
    assert (c !! Z.to_nat (Z.of_nat (length pre)) = Some DHCP_OPTION_END) as ->
      by (rewrite Nat2Z.id, Hc; by apply list_lookup_middle).
    by exists given.
  - change (encode (it :: items)) with (encode_item it ++ encode items) in *. rewrite length_app in Hmax.
    assert (0 < length (encode_item it))%nat by (destruct it; cbn; lia).
    destruct (parse_item ov it c pre (encode items ++ DHCP_OPTION_END :: tail) given fuel idx offset_max) as (given' & Hsame & ->);
      [done..|by rewrite <- app_assoc in Hc|by intros [_ [=]]%app_eq_nil|done|lia|].
    destruct (IH c (pre ++ encode_item it) tail given' fuel idx offset_max) as (g & Hg & Hgs);
      [done|by rewrite Hc, <- !app_assoc|done|rewrite length_app; lia|lia|].
    exists g. split; [done|]. intros i. rewrite Hgs, absorb_items, Hsame. cbn [fold_left]. by rewrite absorb_items.
Qed.

Lemma option_value_app i a b : option_value i (a ++ b) = match option_value i a with Some v => Some v | None => option_value i b end.
Proof. induction a as [|[|t v] a IH]; cbn; [done..|]. by destruct (decide (t = code i)). Qed.

Lemma no_overload items : Forall (item_ok false) items -> option_value IDX_OVERLOAD items = None.
Proof.
  induction 1 as [|[|t v] items Hit _ IH]; cbn [option_value]; [done..|]. destruct (decide (t = code IDX_OVERLOAD)) as [->|]; [|done].
  destruct Hit as (_ & _ & Hk). destruct (Hk IDX_OVERLOAD) as [_ H]; [done|]. by specialize (H eq_refl).
Qed.

Lemma encode_length items : (length items <= length (encode items))%nat.
Proof.
  induction items as [|it items IH]; [done|]. change (encode (it :: items)) with (encode_item it ++ encode items). rewrite length_app.
  destruct it; cbn [encode_item length]; lia.
Qed.

(** One pass over an area of the message that holds [items]. *)
Lemma parse_pass_items ov items c pre tail given idx_max :
  Forall (item_ok ov) items -> (ov = true -> Z.of_nat (length pre) = DHCP_OPTIONS_OFS) ->
  c = pre ++ encode items ++ DHCP_OPTION_END :: tail -> Z.of_nat (length c) < 65535 ->
  Z.of_nat (length pre) + Z.of_nat (length (encode items)) < idx_max ->
  exists g, parse_pass (S (Z.to_nat (Z.of_nat (length (concat [c]))))) [c] (Z.of_nat (length pre)) idx_max given = Some (inl g) /\
    forall i, g i = match given i with Some v => Some v | None => option_value i items end.
Proof.
  intros Hi Hov Hc Hl Hm. unfold parse_pass. pose proof (encode_length items) as Hlen.
  assert (length c = length pre + length (encode items) + S (length tail))%nat as Hlc by (rewrite Hc, !length_app; cbn; lia).
  cbn [concat]. rewrite app_nil_r, Nat2Z.id, skip_to_single by lia.
  destruct (parse_items ov items Hi c pre tail given (S (length c)) (Z.of_nat (length pre)) idx_max) as (g & Hg & Hs); [done..|lia|].
  exists g. split; [exact Hg|]. intros i. by rewrite Hs, absorb_items.
Qed.

(** The areas that the overload option adds. *)
Definition overload_in (ks : list Z) (o : list Item) : bool := match option_value IDX_OVERLOAD o with Some v => bool_decide (v ∈ ks) | None => false end.
Definition file_too (o : list Item) : bool := overload_in [DHCP_OVERLOAD_FILE; DHCP_OVERLOAD_SNAME_FILE] o.
Definition sname_too (o : list Item) : bool := overload_in [DHCP_OVERLOAD_SNAME; DHCP_OVERLOAD_SNAME_FILE] o.
(** The area [bs] holds [items] and an end mark. *)
Definition holds (bs : list Z) (items : list Item) : Prop :=
  Forall (item_ok false) items /\ exists tail, bs = encode items ++ DHCP_OPTION_END :: tail.

Section reply.
Context (head sname file cookie tail : list Z) (o f s : list Item).
Let c := head ++ sname ++ file ++ cookie ++ encode o ++ DHCP_OPTION_END :: tail.
Context (Hhead : length head = 44%nat) (Hsname : length sname = 64%nat) (Hfile : length file = 128%nat) (Hcookie : length cookie = 4%nat).
Context (Hlen : Z.of_nat (length c) < 65535).
Let fuel := S (Z.to_nat (Z.of_nat (length (concat [c])))).

Lemma file_pass given :
  holds file f ->
  exists g, parse_pass fuel [c] DHCP_FILE_OFS (DHCP_FILE_OFS + DHCP_FILE_LEN) given = Some (inl g) /\
    forall i, g i = match given i with Some v => Some v | None => option_value i f end.
Proof using Hhead Hsname Hfile Hcookie Hlen.
  intros [Hi [t Ht]]. assert (length (head ++ sname) = 108%nat) as Hp by (rewrite length_app; lia).
  change DHCP_FILE_OFS with (Z.of_nat 108). rewrite <- Hp. assert (length (encode f) < 128)%nat by (rewrite Ht, length_app in Hfile; cbn in Hfile; lia).
  apply (parse_pass_items false f c _ (t ++ cookie ++ encode o ++ DHCP_OPTION_END :: tail)); [done..| |done|rewrite Hp; unfold DHCP_FILE_LEN; lia].
  unfold c. rewrite Ht, <- !app_assoc. done.
Qed.

Lemma sname_pass given :
  holds sname s ->
  exists g, parse_pass fuel [c] DHCP_SNAME_OFS (DHCP_SNAME_OFS + DHCP_SNAME_LEN) given = Some (inl g) /\
    forall i, g i = match given i with Some v => Some v | None => option_value i s end.
Proof using Hhead Hsname Hfile Hcookie Hlen.
  intros [Hi [t Ht]]. change DHCP_SNAME_OFS with (Z.of_nat 44). rewrite <- Hhead.
  assert (length (encode s) < 64)%nat by (rewrite Ht, length_app in Hsname; cbn in Hsname; lia).
  apply (parse_pass_items false s c _ (t ++ file ++ cookie ++ encode o ++ DHCP_OPTION_END :: tail)); [done..| |done|rewrite Hhead; unfold DHCP_SNAME_LEN; lia].
  unfold c. rewrite Ht, <- !app_assoc. done.
Qed.

Lemma options_pass :
  Forall (item_ok true) o ->
  exists g, parse_pass fuel [c] DHCP_OPTIONS_OFS (Z.of_nat (length c)) (fun _ => None) = Some (inl g) /\ forall i, g i = option_value i o.
Proof using Hhead Hsname Hfile Hcookie Hlen.
  intros Hi. assert (length (head ++ sname ++ file ++ cookie) = 240%nat) as Hp by (rewrite !length_app; lia).
  change DHCP_OPTIONS_OFS with (Z.of_nat 240). rewrite <- Hp.
  apply (parse_pass_items true o c _ tail); [done|by rewrite Hp|unfold c; by rewrite <- !app_assoc|done|].
  unfold c. rewrite !length_app. cbn [length]. lia.
Qed.

Lemma sname_passes n given :
  holds sname s -> given IDX_OVERLOAD = None ->
  exists g, parse_passes (S n) fuel [c] DHCP_SNAME_OFS (DHCP_SNAME_OFS + DHCP_SNAME_LEN) false false given = Some (inl g) /\
    forall i, g i = match given i with Some v => Some v | None => option_value i s end.
Proof using Hhead Hsname Hfile Hcookie Hlen.
  intros Hs Hov. destruct (sname_pass given Hs) as (g & Hg & Hi). rewrite (parse_passes_step _ _ _ _ _ _ _ _ _ Hg). cbv zeta.
  rewrite (Hi IDX_OVERLOAD), Hov, (no_overload s) by apply Hs. by exists g.
Qed.

Lemma file_passes n ps given :
  holds file f -> (ps = true -> holds sname s) -> given IDX_OVERLOAD = None ->
  exists g, parse_passes (S (S n)) fuel [c] DHCP_FILE_OFS (DHCP_FILE_OFS + DHCP_FILE_LEN) false ps given = Some (inl g) /\
    forall i, g i = match given i with Some v => Some v | None => option_value i (f ++ if ps then s else []) end.
Proof using Hhead Hsname Hfile Hcookie Hlen.
  intros Hf Hs Hov. destruct (file_pass given Hf) as (g & Hg & Hi). rewrite (parse_passes_step _ _ _ _ _ _ _ _ _ Hg). cbv zeta.
  rewrite (Hi IDX_OVERLOAD), Hov, (no_overload f) by apply Hf. rewrite !orb_false_r. cbn [orb]. destruct ps.
  - destruct (sname_passes n g) as (g2 & Hg2 & Hi2); [auto|by rewrite (Hi IDX_OVERLOAD), Hov, (no_overload f) by apply Hf|].
    exists g2. split; [exact Hg2|]. intros i. rewrite Hi2, Hi, option_value_app. by destruct (given i).
  - exists g. split; [done|]. intros i. by rewrite Hi, app_nil_r.
Qed.
End reply.

Lemma overload_tests o :
  file_too o = (match option_value IDX_OVERLOAD o with Some v => v =? DHCP_OVERLOAD_FILE | None => false end ||
                match option_value IDX_OVERLOAD o with Some v => v =? DHCP_OVERLOAD_SNAME_FILE | None => false end) /\
  sname_too o = (match option_value IDX_OVERLOAD o with Some v => v =? DHCP_OVERLOAD_SNAME | None => false end ||
                 match option_value IDX_OVERLOAD o with Some v => v =? DHCP_OVERLOAD_SNAME_FILE | None => false end).
Proof.
  unfold file_too, sname_too, overload_in. destruct (option_value IDX_OVERLOAD o) as [v|]; [|done].
  split; apply eq_true_iff_eq; rewrite bool_decide_eq_true, orb_true_iff, !Z.eqb_eq, elem_of_cons, list_elem_of_singleton; done.
Qed.

(** ** Any message in one pbuf is read without an access outside of it *)

Lemma option_action_overload op len idx n : option_action op len idx = inl (Some (n, IDX_OVERLOAD)) -> idx = DHCP_OPTIONS_OFS.
Proof. unfold option_action. repeat case_match; try discriminate. by bool_to_prop. Qed.

Lemma decode_value_other q n ofs i given g j : decode_value q n ofs i given = inl g -> j <> i -> g j = given j.
Proof. unfold decode_value, set_option. repeat case_match; intros [= <-] Hj; try done; by rewrite decide_False. Qed.

Lemma parse_options_overload idx : idx <> DHCP_OPTIONS_OFS -> forall fuel q offset offset_max given g,
  given IDX_OVERLOAD = None -> parse_options fuel q offset offset_max idx given = Some (inl g) -> g IDX_OVERLOAD = None.
Proof.
  intros Hidx. induction fuel as [|fuel IH]; intros q offset offset_max given g Hov; [done|]. cbn [parse_options].
  destruct q as [|c rest]; [by intros [= <-]|]. case_match; [by intros [= <-]|].
  destruct (c !! Z.to_nat offset) as [op|]; [|done]. cbn [mbind option_bind]. case_match; [by intros [= <-]|]. cbv zeta. case_match; [done|].
  match goal with |- (x ← ?e; _) = _ -> _ => destruct e as [len|]; [|done] end. cbn [mbind option_bind].
  destruct (option_action _ _ _) as [act|] eqn:Hact; [|done]. destruct (negb _ && _); [done|].
  destruct (match act with Some _ => _ | None => _ end) as [given1|] eqn:Hd; [|done].
  assert (given1 IDX_OVERLOAD = None).
  { destruct act as [[n i]|]; [|by injection Hd as <-]. rewrite (decode_value_other _ _ _ _ _ _ IDX_OVERLOAD Hd); [done|].
    intros <-. by apply option_action_overload in Hact. }
  repeat case_match; try done; by apply IH.
Qed.

Lemma parse_pass_overload fuel c idx idx_max given g :
  idx <> DHCP_OPTIONS_OFS -> given IDX_OVERLOAD = None -> parse_pass fuel [c] idx idx_max given = Some (inl g) -> g IDX_OVERLOAD = None.
Proof.
  intros Hn Hov. unfold parse_pass. destruct (decide (idx < Z.of_nat (length c))).
  - rewrite skip_to_single by lia. by apply parse_options_overload.
  - cbn [skip_to]. by rewrite Z.geb_leb, (proj2 (Z.leb_le _ _)) by lia.
Qed.

Lemma dhcp_parse_reply_total c : bytes c -> Z.of_nat (length c) < 65535 -> is_Some (dhcp_parse_reply [c]).
Proof.
  intros Hc Hl. unfold dhcp_parse_reply. case_match eqn:Hmin; [by eexists|]. cbv zeta. cbn [concat]. rewrite app_nil_r, Nat2Z.id.
  set (fuel := S (length c)).
  assert (forall idx max given, 0 <= idx -> is_Some (parse_pass fuel [c] idx max given)) as Hpass by (intros; apply parse_pass_safe; (done || lia)).
  assert (forall n given, given IDX_OVERLOAD = None -> is_Some (parse_passes (S n) fuel [c] DHCP_SNAME_OFS (DHCP_SNAME_OFS + DHCP_SNAME_LEN) false false given)) as Hs.
  { intros n given Hov. destruct (Hpass DHCP_SNAME_OFS (DHCP_SNAME_OFS + DHCP_SNAME_LEN) given) as [[g|e] Hg]; [done| |cbn [parse_passes]; rewrite Hg; by eexists].
    rewrite (parse_passes_step _ _ _ _ _ _ _ _ _ Hg). cbv zeta.
    rewrite (parse_pass_overload fuel c DHCP_SNAME_OFS (DHCP_SNAME_OFS + DHCP_SNAME_LEN) given g) by done. by eexists. }
  assert (forall n ps given, given IDX_OVERLOAD = None -> is_Some (parse_passes (S (S n)) fuel [c] DHCP_FILE_OFS (DHCP_FILE_OFS + DHCP_FILE_LEN) false ps given)) as Hf.
  { intros n ps given Hov. destruct (Hpass DHCP_FILE_OFS (DHCP_FILE_OFS + DHCP_FILE_LEN) given) as [[g|e] Hg]; [done| |cbn [parse_passes]; rewrite Hg; by eexists].
    rewrite (parse_passes_step _ _ _ _ _ _ _ _ _ Hg). cbv zeta.
    pose proof (parse_pass_overload fuel c DHCP_FILE_OFS (DHCP_FILE_OFS + DHCP_FILE_LEN) given g) as Hno. rewrite Hno by done.
    cbn [orb]. rewrite !orb_false_r. destruct ps; [apply Hs; by apply Hno|by eexists]. }
  destruct (Hpass DHCP_OPTIONS_OFS (Z.of_nat (length c)) (fun _ => None)) as [[g|e] Hg]; [done| |cbn [parse_passes]; rewrite Hg; by eexists].
  rewrite (parse_passes_step _ _ _ _ _ _ _ _ _ Hg). cbv zeta.
  assert (match g IDX_OVERLOAD with Some _ => set_option IDX_OVERLOAD None g | None => g end IDX_OVERLOAD = None) as Hno by (by case_match).
  cbn [orb]. destruct (_ || _); [by apply Hf|]. destruct (_ || _); [by apply (Hs 2%nat)|by eexists].
Qed.

(** C32: the options of a reply in one pbuf are read back.  Whatever
    well-formed options a server encodes in the options, and in the file and
    server name fields when the overload option says so, dhcp_parse_reply ends
    with exactly the first value of each kind that the client knows, in the
    order options, file, name; unknown options and padding are skipped. *)
Theorem dhcp_parse_reply_options head sname file cookie tail o f s :
  length head = 44%nat -> length sname = 64%nat -> length file = 128%nat -> length cookie = 4%nat ->
  Forall (item_ok true) o -> (file_too o = true -> holds file f) -> (sname_too o = true -> holds sname s) ->
  Z.of_nat (length (head ++ sname ++ file ++ cookie ++ encode o ++ DHCP_OPTION_END :: tail)) < 65535 ->
  exists g, dhcp_parse_reply [head ++ sname ++ file ++ cookie ++ encode o ++ DHCP_OPTION_END :: tail] = Some (inl g) /\
    forall i, g i = if decide (i = IDX_OVERLOAD) then None
                    else option_value i (o ++ (if file_too o then f else []) ++ (if sname_too o then s else [])).
Proof.
  intros Hhead Hsname Hfile Hcookie Ho Hf Hs Hlen. set (c := head ++ _) in *.
  destruct (options_pass head sname file cookie tail o Hhead Hsname Hfile Hcookie Hlen Ho) as (g & Hg & Hgo). fold c in Hg.
  unfold dhcp_parse_reply. rewrite (proj2 (Z.ltb_ge (Z.of_nat (length c)) DHCP_SNAME_OFS))
    by (unfold c; rewrite !length_app; unfold DHCP_SNAME_OFS; lia).
  replace (Z.of_nat (length c)) with (Z.of_nat (length (concat [c]))) in Hg by (cbn [concat]; by rewrite app_nil_r).
  cbv zeta. rewrite (parse_passes_step _ _ _ _ _ _ _ _ _ Hg). cbv zeta. rewrite Hgo.
  set (g' := match option_value IDX_OVERLOAD o with Some _ => _ | None => g end).
  assert (forall i, g' i = if decide (i = IDX_OVERLOAD) then None else option_value i o) as Hg'.
  { intros i. unfold g'. destruct (option_value IDX_OVERLOAD o) eqn:Hov; [unfold set_option; by destruct (decide (i = _)); rewrite ?Hgo|].
    destruct (decide (i = _)) as [->|]; [by rewrite Hgo|by rewrite Hgo]. }
  cbn [orb]. rewrite <- (proj1 (overload_tests o)), <- (proj2 (overload_tests o)).
  destruct (file_too o) eqn:Hft; [|destruct (sname_too o) eqn:Hst].
  - destruct (file_passes head sname file cookie tail o f s Hhead Hsname Hfile Hcookie Hlen 1 (sname_too o) g') as (r & Hr & Hri); [auto..|by rewrite Hg'|].
    exists r. split; [exact Hr|]. intros i. rewrite Hri, Hg', (option_value_app i o).
    destruct (decide (i = IDX_OVERLOAD)) as [->|]; [|done]. rewrite option_value_app, (no_overload f) by apply Hf, eq_refl.
    destruct (sname_too o); [by apply no_overload, Hs|done].
  - destruct (sname_passes head sname file cookie tail o s Hhead Hsname Hfile Hcookie Hlen 2 g') as (r & Hr & Hri); [auto|by rewrite Hg'|].
    exists r. split; [exact Hr|]. intros i. rewrite Hri, Hg', (option_value_app i o).
    destruct (decide (i = IDX_OVERLOAD)) as [->|]; [by apply no_overload, Hs|done].
  - exists g'. split; [done|]. intros i. by rewrite app_nil_r, Hg'.
Qed.
