(* ===== verification/Netif.v ===== *)
(** * Addresses and flags of a network interface (netif.c)

    The part of [struct netif] that the DHCP client and the application touch.
    IPv4 addresses are numbers in host order.  What the functions tell to other
    layers (the address change to TCP, UDP and raw, gratuitous ARP, the clean-up
    of the ARP table) is recorded in order in [events]; the configuration has no
    callbacks. *)

From S2P Require Import Prelude.
#[local] Open Scope Z_scope.

Definition NETIF_FLAG_UP : Z := 0x01.
Definition NETIF_FLAG_BROADCAST : Z := 0x02.
Definition NETIF_FLAG_LINK_UP : Z := 0x04.
Definition NETIF_FLAG_ETHARP : Z := 0x08.

(** What the interface tells to other layers; an address change comes with the
    network mask and the gateway that hold at that moment. *)
Inductive NetEvent :=
| EvAddrChanged (old_addr new_addr netmask gw : Z)
| EvGratuitousArp (ip : Z)
| EvArpCleanup.

Record Netif := mkNetif {
  ip_addr : Z; netmask : Z; gw : Z; mtu : Z; hwaddr : list Z; hostname : option (list Z); flags : Z; events : list NetEvent
}.

Definition set_ip (v : Z) (n : Netif) : Netif := mkNetif v (netmask n) (gw n) (mtu n) (hwaddr n) (hostname n) (flags n) (events n).
Definition set_mask (v : Z) (n : Netif) : Netif := mkNetif (ip_addr n) v (gw n) (mtu n) (hwaddr n) (hostname n) (flags n) (events n).
Definition set_gateway (v : Z) (n : Netif) : Netif := mkNetif (ip_addr n) (netmask n) v (mtu n) (hwaddr n) (hostname n) (flags n) (events n).
Definition set_flags (v : Z) (n : Netif) : Netif := mkNetif (ip_addr n) (netmask n) (gw n) (mtu n) (hwaddr n) (hostname n) v (events n).
Definition tell (e : NetEvent) (n : Netif) : Netif :=
  mkNetif (ip_addr n) (netmask n) (gw n) (mtu n) (hwaddr n) (hostname n) (flags n) (events n ++ [e]).

Definition has_flag (f : Z) (n : Netif) : bool := negb (Z.land (flags n) f =? 0).
Definition netif_is_up (n : Netif) : bool := has_flag NETIF_FLAG_UP n.
Definition netif_is_link_up (n : Netif) : bool := has_flag NETIF_FLAG_LINK_UP n.

Definition netif_issue_reports (n : Netif) : Netif :=
  if negb (has_flag NETIF_FLAG_LINK_UP n) || negb (has_flag NETIF_FLAG_UP n) then n
  else if negb (ip_addr n =? 0) && has_flag NETIF_FLAG_ETHARP n then tell (EvGratuitousArp (ip_addr n)) n else n.

(** The booleans say whether the value changed. *)
Definition netif_do_set_ipaddr (ipaddr : Z) (n : Netif) : Netif * bool :=
  if negb (ipaddr =? ip_addr n) then
    let n := tell (EvAddrChanged (ip_addr n) ipaddr (netmask n) (gw n)) n in (netif_issue_reports (set_ip ipaddr n), true)
  else (n, false).
Definition netif_do_set_netmask (v : Z) (n : Netif) : Netif * bool := if negb (v =? netmask n) then (set_mask v n, true) else (n, false).
Definition netif_do_set_gw (v : Z) (n : Netif) : Netif * bool := if negb (v =? gw n) then (set_gateway v n, true) else (n, false).

(** A null pointer stands for the address 0.0.0.0. *)
Definition or_any (p : option Z) : Z := default 0 p.
Definition netif_set_ipaddr (ipaddr : option Z) (n : Netif) : Netif := (netif_do_set_ipaddr (or_any ipaddr) n).1.
Definition netif_set_netmask (v : option Z) (n : Netif) : Netif := (netif_do_set_netmask (or_any v) n).1.
Definition netif_set_gw (v : option Z) (n : Netif) : Netif := (netif_do_set_gw (or_any v) n).1.
Definition netif_set_addr (ipaddr netmask gw : option Z) (n : Netif) : Netif :=
  let ipaddr := or_any ipaddr in
  let remove := ipaddr =? 0 in
  let n := if remove then (netif_do_set_ipaddr ipaddr n).1 else n in
  let n := (netif_do_set_netmask (or_any netmask) n).1 in
  let n := (netif_do_set_gw (or_any gw) n).1 in
  if negb remove then (netif_do_set_ipaddr ipaddr n).1 else n.

Definition netif_set_up (n : Netif) : Netif :=
  if negb (netif_is_up n) then netif_issue_reports (set_flags (Z.lor (flags n) NETIF_FLAG_UP) n) else n.
Definition clear_flag (f : Z) (n : Netif) : Netif := set_flags (Z.land (flags n) (Z.land (Z.lnot f) 255)) n.
Definition netif_set_down (n : Netif) : Netif :=
  if netif_is_up n then
    let n := clear_flag NETIF_FLAG_UP n in if has_flag NETIF_FLAG_ETHARP n then tell EvArpCleanup n else n
  else n.
Definition netif_set_link_down (n : Netif) : Netif := if netif_is_link_up n then clear_flag NETIF_FLAG_LINK_UP n else n.

(** ** What the calls do *)

(** Everything but the addresses and the events is kept. *)
Definition same_port (n n' : Netif) : Prop :=
  mtu n' = mtu n /\ hwaddr n' = hwaddr n /\ hostname n' = hostname n /\ flags n' = flags n.

#[export] Instance same_port_preorder : PreOrder same_port.
Proof. split; [by intros n|]. intros a b c (?&?&?&?) (?&?&?&?). repeat split; congruence. Qed.

Lemma netif_issue_reports_keeps n :
  same_port n (netif_issue_reports n) /\ ip_addr (netif_issue_reports n) = ip_addr n /\ netmask (netif_issue_reports n) = netmask n /\
  gw (netif_issue_reports n) = gw n.
Proof. unfold netif_issue_reports. by repeat case_match. Qed.

Lemma netif_do_set_ipaddr_sets v n :
  let n' := (netif_do_set_ipaddr v n).1 in same_port n n' /\ ip_addr n' = v /\ netmask n' = netmask n /\ gw n' = gw n.
Proof.
  cbv zeta. unfold netif_do_set_ipaddr. case_match eqn:Hv; cbn [fst].
  - match goal with |- context [netif_issue_reports ?m] => destruct (netif_issue_reports_keeps m) as (Hp & -> & -> & ->) end.
    split; [|done]. etrans; [|exact Hp]. done.
  - apply negb_false_iff, Z.eqb_eq in Hv. by rewrite <- Hv.
Qed.

Lemma netif_do_set_netmask_sets v n :
  let n' := (netif_do_set_netmask v n).1 in same_port n n' /\ ip_addr n' = ip_addr n /\ netmask n' = v /\ gw n' = gw n.
Proof. cbv zeta. unfold netif_do_set_netmask. case_match eqn:Hv; cbn; [done|]. bool_to_prop. by subst. Qed.

Lemma netif_do_set_gw_sets v n :
  let n' := (netif_do_set_gw v n).1 in same_port n n' /\ ip_addr n' = ip_addr n /\ netmask n' = netmask n /\ gw n' = v.
Proof. cbv zeta. unfold netif_do_set_gw. case_match eqn:Hv; cbn; [done|]. bool_to_prop. by subst. Qed.

(** netif_set_addr sets the three addresses and nothing else. *)
Lemma netif_set_addr_sets ip nm g n :
  let n' := netif_set_addr ip nm g n in same_port n n' /\ ip_addr n' = or_any ip /\ netmask n' = or_any nm /\ gw n' = or_any g.
Proof.
  cbv zeta. unfold netif_set_addr. set (n1 := if or_any ip =? 0 then _ else _).
  assert (same_port n n1 /\ ((or_any ip =? 0) = true -> ip_addr n1 = or_any ip)) as [P1 I1].
  { subst n1. case_match; [|split; [done|discriminate]]. destruct (netif_do_set_ipaddr_sets (or_any ip) n) as (?&?&_). done. }
  destruct (netif_do_set_netmask_sets (or_any nm) n1) as (P2 & I2 & M2 & _). set (n2 := (netif_do_set_netmask _ n1).1) in *.
  destruct (netif_do_set_gw_sets (or_any g) n2) as (P3 & I3 & M3 & G3). set (n3 := (netif_do_set_gw _ n2).1) in *.
  assert (same_port n n3) as P by (etrans; [exact P1|etrans; [exact P2|exact P3]]).
  destruct (or_any ip =? 0) eqn:Hz; cbn [negb].
  - rewrite I3, I2, M3, G3. auto.
  - destruct (netif_do_set_ipaddr_sets (or_any ip) n3) as (P4 & -> & -> & ->). rewrite M3, G3. split; [by etrans|done].
Qed.

Lemma netif_do_set_ipaddr_told v n :
  ip_addr n <> v ->
  exists evs, events (netif_do_set_ipaddr v n).1 = events n ++ EvAddrChanged (ip_addr n) v (netmask n) (gw n) :: evs.
Proof.
  intros Hv. unfold netif_do_set_ipaddr. rewrite (proj2 (Z.eqb_neq v (ip_addr n))) by congruence. cbn [negb fst].
  unfold netif_issue_reports. repeat case_match; cbn [events tell set_ip]; try (exists []; done).
  eexists [_]. by rewrite <- app_assoc.
Qed.
