(* ===== verification/Dhcp.v ===== *)
(** * The DHCP client (dhcp.h, dhcp.c)

    The client of the one interface of the firmware.  The list of interfaces has
    that interface only, so the loops of the timers run once.  What the client
    asks of other parts is answered by [env]: whether memory for a message, a
    [struct dhcp] or a UDP control block is there, what UDP returns for a
    datagram, and the numbers of rand() (the firmware defines LWIP_RAND, so a new
    transaction id is drawn and not counted up).  [None] is a write outside of the options of a message. *)

From S2P Require Import Prelude LwipErr Netif DhcpMsg.
#[local] Open Scope Z_scope.

Definition DHCP_COARSE_TIMER_SECS : Z := 60.
Definition DHCP_FINE_TIMER_MSECS : Z := 500.
Definition DHCP_MAX_MSG_LEN_MIN_REQUIRED : Z := 576.
Definition DHCP_MIN_REPLY_LEN : Z := 44.
Definition REBOOT_TRIES : Z := 2.
Definition INFINITE : Z := 0xffffffff.

Inductive dhcp_state_enum_t :=
| DHCP_STATE_OFF | DHCP_STATE_REQUESTING | DHCP_STATE_INIT | DHCP_STATE_REBOOTING | DHCP_STATE_REBINDING | DHCP_STATE_RENEWING
| DHCP_STATE_SELECTING | DHCP_STATE_INFORMING | DHCP_STATE_CHECKING | DHCP_STATE_PERMANENT | DHCP_STATE_BOUND | DHCP_STATE_RELEASING
| DHCP_STATE_BACKING_OFF.
#[export] Instance dhcp_state_eq_dec : EqDecision dhcp_state_enum_t.
Proof. solve_decision. Defined.

(** [struct dhcp] in three parts: the ticks, the offer, the rest. *)
Record Timers := mkTimers {
  t1_timeout : Z; t2_timeout : Z; t1_renew_time : Z; t2_rebind_time : Z; lease_used : Z; t0_timeout : Z
}.
Record Offer := mkOffer {
  server_ip_addr : Z; offered_ip_addr : Z; offered_sn_mask : Z; offered_gw_addr : Z; subnet_mask_given : bool;
  offered_t0_lease : Z; offered_t1_renew : Z; offered_t2_rebind : Z
}.
Record dhcp := mkDhcp {
  xid : Z; pcb_allocated : bool; state : dhcp_state_enum_t; tries : Z; request_timeout : Z; timers : Timers; offer : Offer
}.
Definition no_timers : Timers := mkTimers 0 0 0 0 0 0.
Definition no_offer : Offer := mkOffer 0 0 0 0 false 0 0 0.
(** memset of the structure. *)
Definition no_dhcp : dhcp := mkDhcp 0 false DHCP_STATE_OFF 0 0 no_timers no_offer.

Definition set_xid (v : Z) (d : dhcp) : dhcp := mkDhcp v (pcb_allocated d) (state d) (tries d) (request_timeout d) (timers d) (offer d).
Definition set_pcb_allocated (v : bool) (d : dhcp) : dhcp := mkDhcp (xid d) v (state d) (tries d) (request_timeout d) (timers d) (offer d).
Definition set_tries (v : Z) (d : dhcp) : dhcp := mkDhcp (xid d) (pcb_allocated d) (state d) v (request_timeout d) (timers d) (offer d).
Definition set_request_timeout (v : Z) (d : dhcp) : dhcp := mkDhcp (xid d) (pcb_allocated d) (state d) (tries d) v (timers d) (offer d).
Definition set_timers (f : Timers -> Timers) (d : dhcp) : dhcp :=
  mkDhcp (xid d) (pcb_allocated d) (state d) (tries d) (request_timeout d) (f (timers d)) (offer d).
Definition set_offer (f : Offer -> Offer) (d : dhcp) : dhcp :=
  mkDhcp (xid d) (pcb_allocated d) (state d) (tries d) (request_timeout d) (timers d) (f (offer d)).
Definition set_offered_ip (v : Z) (o : Offer) : Offer :=
  mkOffer (server_ip_addr o) v (offered_sn_mask o) (offered_gw_addr o) (subnet_mask_given o) (offered_t0_lease o) (offered_t1_renew o) (offered_t2_rebind o).
Definition set_server_ip (v : Z) (o : Offer) : Offer :=
  mkOffer v (offered_ip_addr o) (offered_sn_mask o) (offered_gw_addr o) (subnet_mask_given o) (offered_t0_lease o) (offered_t1_renew o) (offered_t2_rebind o).
Definition set_lease_used (v : Z) (t : Timers) : Timers := mkTimers (t1_timeout t) (t2_timeout t) (t1_renew_time t) (t2_rebind_time t) v (t0_timeout t).
Definition set_t1_renew_time (v : Z) (t : Timers) : Timers := mkTimers (t1_timeout t) (t2_timeout t) v (t2_rebind_time t) (lease_used t) (t0_timeout t).
Definition set_t2_rebind_time (v : Z) (t : Timers) : Timers := mkTimers (t1_timeout t) (t2_timeout t) (t1_renew_time t) v (lease_used t) (t0_timeout t).
Definition set_t0 (v : Z) (t : Timers) : Timers := mkTimers (t1_timeout t) (t2_timeout t) (t1_renew_time t) (t2_rebind_time t) (lease_used t) v.
Definition set_t1 (v : Z) (t : Timers) : Timers := mkTimers v (t2_timeout t) v (t2_rebind_time t) (lease_used t) (t0_timeout t).
Definition set_t2 (v : Z) (t : Timers) : Timers := mkTimers (t1_timeout t) v (t1_renew_time t) v (lease_used t) (t0_timeout t).
Definition set_t1_timeout (v : Z) (t : Timers) : Timers := mkTimers v (t2_timeout t) (t1_renew_time t) (t2_rebind_time t) (lease_used t) (t0_timeout t).

(** A change of state starts a new count of tries and stops the timer. *)
Definition dhcp_set_state (new_state : dhcp_state_enum_t) (d : dhcp) : dhcp :=
  if decide (new_state = state d) then d else mkDhcp (xid d) (pcb_allocated d) new_state 0 0 (timers d) (offer d).

(** ** The client and what it asks for *)

(** What goes out: a datagram to the server port of [dst], or an ARP query. *)
Inductive Out := SendTo (dst : Z) (payload : list Z) | EtharpQuery (ip : Z).
Definition IP_ADDR_BROADCAST : Z := 0xffffffff.

(** [c_xid] is the static variable of dhcp_create_msg; [c_asked] counts the
    questions to [env]. *)
Record Client := mkClient {
  c_netif : Netif; c_dhcp : option dhcp; c_xid : Z; dhcp_pcb_refcount : Z; dhcp_pcb : bool; c_out : list Out; c_asked : nat
}.
Definition c_state (c : Client) : dhcp_state_enum_t := from_option state DHCP_STATE_OFF (c_dhcp c).

(** The answers: memory for a message or a structure, the result of UDP, and the
    number rand() returns. *)
Record Env := mkEnv { has_memory : nat -> bool; udp_result : nat -> Z; rand : nat -> Z }.

(** *** The monad of the client *)
Definition M (A : Type) : Type := Client -> option (A * Client).
Definition ret {A} (a : A) : M A := fun c => Some (a, c).
Definition bind {A B} (m : M A) (k : A -> M B) : M B := fun c => match m c with Some (a, c) => k a c | None => None end.
Notation "'let*' x ':=' m 'in' k" := (bind m (fun x => k)) (at level 10, x pattern, m at level 100, k at level 200) : fw_scope.
Notation "m ';;' k" := (bind m (fun _ => k)) (at level 100, right associativity) : fw_scope.
#[local] Open Scope fw_scope.

Definition set_dhcp (v : option dhcp) (c : Client) : Client :=
  mkClient (c_netif c) v (c_xid c) (dhcp_pcb_refcount c) (dhcp_pcb c) (c_out c) (c_asked c).
Definition set_netif (v : Netif) (c : Client) : Client :=
  mkClient v (c_dhcp c) (c_xid c) (dhcp_pcb_refcount c) (dhcp_pcb c) (c_out c) (c_asked c).
Definition set_pcb (n : Z) (pcb : bool) (c : Client) : Client :=
  mkClient (c_netif c) (c_dhcp c) (c_xid c) n pcb (c_out c) (c_asked c).
Definition set_c_xid (v : Z) (c : Client) : Client :=
  mkClient (c_netif c) (c_dhcp c) v (dhcp_pcb_refcount c) (dhcp_pcb c) (c_out c) (c_asked c).
Definition put_out (o : Out) (c : Client) : Client :=
  mkClient (c_netif c) (c_dhcp c) (c_xid c) (dhcp_pcb_refcount c) (dhcp_pcb c) (c_out c ++ [o]) (c_asked c).
Definition next_question (c : Client) : Client :=
  mkClient (c_netif c) (c_dhcp c) (c_xid c) (dhcp_pcb_refcount c) (dhcp_pcb c) (c_out c) (S (c_asked c)).

(** Reading and writing; [the_dhcp] dereferences netif_dhcp_data. *)
Definition gets {A} (f : Client -> A) : M A := fun c => Some (f c, c).
Definition modify (f : Client -> Client) : M unit := fun c => Some (tt, f c).
Definition the_dhcp : M dhcp := fun c => d ← c_dhcp c; Some (d, c).
Definition upd (f : dhcp -> dhcp) : M unit := fun c => d ← c_dhcp c; Some (tt, set_dhcp (Some (f d)) c).
Definition upd_netif (f : Netif -> Netif) : M unit := modify (fun c => set_netif (f (c_netif c)) c).
Definition out (o : Out) : M unit := modify (put_out o).
Definition when (b : bool) (m : M unit) : M unit := if b then m else ret tt.

Section client.
Context (env : Env).

Definition ask : M bool := let* n := gets c_asked in modify next_question ;; ret (has_memory env n).
Definition ask_udp : M Z := let* n := gets c_asked in modify next_question ;; ret (udp_result env n).
(** port/arch/cc.h: [((u32_t)rand())]. *)
Definition LWIP_RAND : M Z := let* n := gets c_asked in modify next_question ;; ret (u32 (rand env n)).
Definition lift {A} (o : option A) : M A := fun c => a ← o; Some (a, c).

(** ** The control block of UDP *)
Definition dhcp_inc_pcb_refcount : M Z :=
  let* n := gets dhcp_pcb_refcount in
  let* ok := (if n =? 0 then ask else ret true) in
  if negb ok then ret ERR_MEM else
  when (n =? 0) (modify (fun c => set_pcb (dhcp_pcb_refcount c) true c)) ;;
  modify (fun c => set_pcb (u8 (dhcp_pcb_refcount c + 1)) (dhcp_pcb c) c) ;; ret ERR_OK.
Definition dhcp_dec_pcb_refcount : M unit :=
  modify (fun c => set_pcb (u8 (dhcp_pcb_refcount c - 1)) (dhcp_pcb c) c) ;;
  let* n := gets dhcp_pcb_refcount in when (n =? 0) (modify (set_pcb n false)).

(** ** Messages *)

(** A request answers an offer with its transaction; a first try of any other
    message draws a new one, which the tries after it use again. *)
Definition transaction (message_type : Z) (d : dhcp) : M dhcp :=
  if negb (message_type =? DHCP_REQUEST) || bool_decide (state d = DHCP_STATE_REBOOTING) then
    when (tries d =? 0) (let* x := LWIP_RAND in modify (set_c_xid x)) ;; let* x := gets c_xid in ret (set_xid x d)
  else ret d.
Definition msg_header (message_type : Z) (d : dhcp) (n : Netif) : Msg :=
  let renewing := bool_decide (state d = DHCP_STATE_RENEWING) || bool_decide (state d = DHCP_STATE_REBINDING) in
  let ciaddr := if (message_type =? DHCP_INFORM) || (message_type =? DHCP_DECLINE) || (message_type =? DHCP_RELEASE) ||
                   ((message_type =? DHCP_REQUEST) && renewing) then ip_addr n else 0 in
  let chaddr := take 6 (hwaddr n) ++ zeros (DHCP_CHADDR_LEN - 6) in
  mkMsg DHCP_BOOTREQUEST 1 (Z.of_nat (length (hwaddr n))) (xid d) ciaddr chaddr DHCP_MAGIC_COOKIE (zeros DHCP_OPTIONS_LEN).
Definition dhcp_create_msg (message_type : Z) (d : dhcp) : M (dhcp * option (Msg * Opts)) :=
  let* ok := ask in
  if negb ok then ret (d, None) else
  let* d := transaction message_type d in
  let* n := gets c_netif in
  let m := msg_header message_type d n in
  let* o := lift (o ← dhcp_option DHCP_OPTION_MESSAGE_TYPE 1 (m_options m, 0); dhcp_option_byte message_type o) in
  ret (d, Some (m, o)).
(** A message of the client of the interface. *)
Definition create_msg (message_type : Z) : M (option (Msg * Opts)) :=
  let* d := the_dhcp in let* r := dhcp_create_msg message_type d in upd (fun _ => r.1) ;; ret r.2.

(** The groups of options that several messages have. *)
Definition dhcp_discover_request_options : list Z := [DHCP_OPTION_SUBNET_MASK; DHCP_OPTION_ROUTER; DHCP_OPTION_BROADCAST].
Definition option_request_list (o : Opts) : option Opts :=
  o ← dhcp_option DHCP_OPTION_PARAMETER_REQUEST_LIST 3 o; put_all dhcp_discover_request_options o.
Definition option_max_msg_size (v : Z) (o : Opts) : option Opts := o ← dhcp_option DHCP_OPTION_MAX_MSG_SIZE 2 o; dhcp_option_short v o.
Definition option_address (op v : Z) (o : Opts) : option Opts := o ← dhcp_option op 4 o; dhcp_option_long v o.
Definition option_hostname (n : Netif) (o : Opts) : option Opts := dhcp_option_hostname (default [] (hostname n)) o.

(** The message with its options goes to [dst]; the result of UDP, or ERR_MEM
    when there was no message. *)
Definition send (dst : Z) (p : option (Msg * Opts)) (options : Opts -> option Opts) : M Z :=
  match p with
  | None => ret ERR_MEM
  | Some (m, o) =>
    let* o := lift (options o) in let* payload := lift (dhcp_option_trailer m o) in out (SendTo dst payload) ;; ask_udp
  end.

Definition count_try (d : dhcp) : dhcp := if tries d <? 255 then set_tries (tries d + 1) d else d.
Definition ticks (msecs : Z) : Z := u16 ((msecs + DHCP_FINE_TIMER_MSECS - 1) / DHCP_FINE_TIMER_MSECS).
(** The end of the functions that send: count the try, start the timer. *)
Definition retry_in (msecs : Z -> Z) : M unit := upd count_try ;; upd (fun d => set_request_timeout (ticks (u16 (msecs (tries d)))) d).

Definition dhcp_discover : M Z :=
  upd (set_offer (set_offered_ip 0)) ;; upd (dhcp_set_state DHCP_STATE_SELECTING) ;;
  let* p := create_msg DHCP_DISCOVER in
  let* n := gets c_netif in
  send IP_ADDR_BROADCAST p (fun o => o ← option_max_msg_size (mtu n) o; option_request_list o) ;;
  retry_in (fun tries => (if tries <? 6 then Z.shiftl 1 tries else 60) * 1000) ;; ret ERR_OK.

Definition dhcp_select : M Z :=
  upd (dhcp_set_state DHCP_STATE_REQUESTING) ;;
  let* p := create_msg DHCP_REQUEST in
  let* n := gets c_netif in
  let* d := the_dhcp in
  let* result := send IP_ADDR_BROADCAST p (fun o =>
    o ← option_max_msg_size (mtu n) o; o ← option_address DHCP_OPTION_REQUESTED_IP (offered_ip_addr (offer d)) o;
    o ← option_address DHCP_OPTION_SERVER_ID (server_ip_addr (offer d)) o; o ← option_request_list o; option_hostname n o) in
  retry_in (fun tries => (if tries <? 6 then Z.shiftl 1 tries else 60) * 1000) ;; ret result.

Definition dhcp_renew : M Z :=
  upd (dhcp_set_state DHCP_STATE_RENEWING) ;;
  let* p := create_msg DHCP_REQUEST in
  let* n := gets c_netif in
  let* d := the_dhcp in
  let* result := send (server_ip_addr (offer d)) p (fun o => o ← option_max_msg_size (mtu n) o; o ← option_request_list o; option_hostname n o) in
  retry_in (fun tries => if tries <? 10 then tries * 2000 else 20 * 1000) ;; ret result.

Definition dhcp_rebind : M Z :=
  upd (dhcp_set_state DHCP_STATE_REBINDING) ;;
  let* p := create_msg DHCP_REQUEST in
  let* n := gets c_netif in
  let* result := send IP_ADDR_BROADCAST p (fun o => o ← option_max_msg_size (mtu n) o; o ← option_request_list o; option_hostname n o) in
  retry_in (fun tries => if tries <? 10 then tries * 1000 else 10 * 1000) ;; ret result.

Definition dhcp_reboot : M Z :=
  upd (dhcp_set_state DHCP_STATE_REBOOTING) ;;
  let* p := create_msg DHCP_REQUEST in
  let* n := gets c_netif in
  let* d := the_dhcp in
  let* result := send IP_ADDR_BROADCAST p (fun o =>
    o ← option_max_msg_size DHCP_MAX_MSG_LEN_MIN_REQUIRED o; o ← option_address DHCP_OPTION_REQUESTED_IP (offered_ip_addr (offer d)) o;
    o ← option_request_list o; option_hostname n o) in
  retry_in (fun tries => if tries <? 10 then tries * 1000 else 10 * 1000) ;; ret result.

Definition dhcp_decline : M Z :=
  upd (dhcp_set_state DHCP_STATE_BACKING_OFF) ;;
  let* p := create_msg DHCP_DECLINE in
  let* d := the_dhcp in
  let* result := send IP_ADDR_BROADCAST p (option_address DHCP_OPTION_REQUESTED_IP (offered_ip_addr (offer d))) in
  retry_in (fun _ => 10 * 1000) ;; ret result.

Definition dhcp_check : M unit :=
  upd (dhcp_set_state DHCP_STATE_CHECKING) ;;
  let* d := the_dhcp in out (EtharpQuery (offered_ip_addr (offer d))) ;;
  retry_in (fun _ => 500).

(** ** Binding *)

(** A time in seconds as a number of minutes, at least one. *)
Definition minutes (secs : Z) : Z :=
  let timeout := u32 (secs + DHCP_COARSE_TIMER_SECS / 2) / DHCP_COARSE_TIMER_SECS in
  let timeout := if timeout >? 0xffff then 0xffff else timeout in
  if u16 timeout =? 0 then 1 else u16 timeout.
Definition bind_timers (o : Offer) (t : Timers) : Timers :=
  let t := set_lease_used 0 t in
  let t := if negb (offered_t0_lease o =? INFINITE) then set_t0 (minutes (offered_t0_lease o)) t else t in
  let t := if negb (offered_t1_renew o =? INFINITE) then set_t1 (minutes (offered_t1_renew o)) t else t in
  let t := if negb (offered_t2_rebind o =? INFINITE) then set_t2 (minutes (offered_t2_rebind o)) t else t in
  if (t1_timeout t >=? t2_timeout t) && (t2_timeout t >? 0) then set_t1_timeout 0 t else t.
Definition bind_mask (o : Offer) : Z :=
  if subnet_mask_given o then offered_sn_mask o
  else let first_octet := Z.shiftr (offered_ip_addr o) 24 in
       if first_octet <=? 127 then 0xff000000 else if first_octet >=? 192 then 0xffffff00 else 0xffff0000.
Definition bind_gw (o : Offer) : Z :=
  if offered_gw_addr o =? 0 then Z.lor (Z.land (offered_ip_addr o) (bind_mask o)) 1 else offered_gw_addr o.
Definition dhcp_bind : M unit :=
  upd (fun d => set_timers (bind_timers (offer d)) d) ;;
  upd (dhcp_set_state DHCP_STATE_BOUND) ;;
  let* d := the_dhcp in
  upd_netif (netif_set_addr (Some (offered_ip_addr (offer d))) (Some (bind_mask (offer d))) (Some (bind_gw (offer d)))).

(** ** Starting and stopping *)

(** Whether the state is one in which the address came from DHCP. *)
Definition supplied (s : dhcp_state_enum_t) : bool :=
  bool_decide (s = DHCP_STATE_BOUND) || bool_decide (s = DHCP_STATE_RENEWING) || bool_decide (s = DHCP_STATE_REBINDING).
Definition dhcp_supplied_address (c : Client) : bool := match c_dhcp c with Some d => supplied (state d) | None => false end.

Definition dhcp_release_and_stop : M unit :=
  let* cur := gets c_dhcp in
  match cur with
  | None => ret tt
  | Some d0 =>
    if bool_decide (state d0 = DHCP_STATE_OFF) then ret tt else
    let server := server_ip_addr (offer d0) in
    upd (set_offer (fun o => mkOffer 0 0 0 0 (subnet_mask_given o) 0 0 0)) ;;
    upd (set_timers (fun t => mkTimers (t1_timeout t) (t2_timeout t) 0 0 0 0)) ;;
    let* given := gets dhcp_supplied_address in
    when given (let* p := create_msg DHCP_RELEASE in send server p (option_address DHCP_OPTION_SERVER_ID server) ;; ret tt) ;;
    upd_netif (netif_set_addr (Some 0) (Some 0) (Some 0)) ;;
    upd (dhcp_set_state DHCP_STATE_OFF) ;;
    let* d := the_dhcp in
    when (pcb_allocated d) (dhcp_dec_pcb_refcount ;; upd (set_pcb_allocated false))
  end.
Definition dhcp_release : M Z := dhcp_release_and_stop ;; ret ERR_OK.
Definition dhcp_stop : M unit := dhcp_release_and_stop.

Definition dhcp_start : M Z :=
  let* n := gets c_netif in
  if negb (netif_is_up n) then ret ERR_ARG else
  let* cur := gets c_dhcp in
  if mtu n <? DHCP_MAX_MSG_LEN_MIN_REQUIRED then ret ERR_MEM else
  let* ok := (match cur with None => ask | Some d => when (pcb_allocated d) dhcp_dec_pcb_refcount ;; ret true end) in
  if negb ok then ret ERR_MEM else
  modify (set_dhcp (Some no_dhcp)) ;;
  let* result := dhcp_inc_pcb_refcount in
  if negb (result =? ERR_OK) then ret ERR_MEM else
  upd (set_pcb_allocated true) ;;
  if negb (netif_is_link_up n) then upd (dhcp_set_state DHCP_STATE_INIT) ;; ret ERR_OK else
  let* result := dhcp_discover in
  if negb (result =? ERR_OK) then dhcp_release_and_stop ;; ret ERR_MEM else ret result.

(** The message is sent with a client of its own. *)
Definition dhcp_inform : M unit :=
  let* result := dhcp_inc_pcb_refcount in
  if negb (result =? ERR_OK) then ret tt else
  let* r := dhcp_create_msg DHCP_INFORM (dhcp_set_state DHCP_STATE_INFORMING no_dhcp) in
  let* n := gets c_netif in
  send IP_ADDR_BROADCAST r.2 (option_max_msg_size (mtu n)) ;; dhcp_dec_pcb_refcount.

Definition dhcp_set_struct : M unit := modify (set_dhcp (Some no_dhcp)).
Definition dhcp_cleanup : M unit := modify (set_dhcp None).

(** ** Timers *)

Definition restart : M unit := dhcp_release_and_stop ;; dhcp_start ;; ret tt.

Definition dhcp_timeout : M unit :=
  let* d := the_dhcp in
  match state d with
  | DHCP_STATE_BACKING_OFF | DHCP_STATE_SELECTING => dhcp_discover ;; ret tt
  | DHCP_STATE_REQUESTING => if tries d <=? 5 then dhcp_select ;; ret tt else restart
  | DHCP_STATE_CHECKING => if tries d <=? 1 then dhcp_check else dhcp_bind
  | DHCP_STATE_REBOOTING => if tries d <? REBOOT_TRIES then dhcp_reboot ;; ret tt else dhcp_discover ;; ret tt
  | _ => ret tt
  end.

Definition dhcp_fine_tmr : M unit :=
  let* cur := gets c_dhcp in
  match cur with
  | None => ret tt
  | Some d =>
    if request_timeout d >? 1 then upd (set_request_timeout (request_timeout d - 1))
    else if request_timeout d =? 1 then upd (set_request_timeout (request_timeout d - 1)) ;; dhcp_timeout
    else ret tt
  end.

(** Half of the time that is left when it is a minute or more (int division). *)
Definition half_left (timeout lease_used old : Z) : Z :=
  let half := Z.quot (timeout - lease_used) 2 in
  if half >=? (60 + DHCP_COARSE_TIMER_SECS / 2) / DHCP_COARSE_TIMER_SECS then u16 half else old.

Definition dhcp_t1_timeout : M unit :=
  let* d := the_dhcp in
  match state d with
  | DHCP_STATE_REQUESTING | DHCP_STATE_BOUND | DHCP_STATE_RENEWING =>
    dhcp_renew ;; upd (set_timers (fun t => set_t1_renew_time (half_left (t2_timeout t) (lease_used t) (t1_renew_time t)) t))
  | _ => ret tt
  end.
Definition dhcp_t2_timeout : M unit :=
  let* d := the_dhcp in
  match state d with
  | DHCP_STATE_REQUESTING | DHCP_STATE_BOUND | DHCP_STATE_RENEWING | DHCP_STATE_REBINDING =>
    dhcp_rebind ;; upd (set_timers (fun t => set_t2_rebind_time (half_left (t0_timeout t) (lease_used t) (t2_rebind_time t)) t))
  | _ => ret tt
  end.

(** The counters change when they are tested. *)
Definition dhcp_coarse_tmr : M unit :=
  let* cur := gets c_dhcp in
  match cur with
  | None => ret tt
  | Some d =>
    if bool_decide (state d = DHCP_STATE_OFF) then ret tt else
    let t := timers d in
    let used := u16 (lease_used t + 1) in
    when (negb (t0_timeout t =? 0)) (upd (set_timers (set_lease_used used))) ;;
    if negb (t0_timeout t =? 0) && (used =? t0_timeout t) then restart else
    when (negb (t2_rebind_time t =? 0)) (upd (set_timers (set_t2_rebind_time (u16 (t2_rebind_time t - 1))))) ;;
    if t2_rebind_time t =? 1 then dhcp_t2_timeout else
    when (negb (t1_renew_time t =? 0)) (upd (set_timers (set_t1_renew_time (u16 (t1_renew_time t - 1))))) ;;
    if t1_renew_time t =? 1 then dhcp_t1_timeout else ret tt
  end.

(** ** Replies *)

(** [yiaddr] is the address of the message. *)
Definition ack_offer (g : RxOptions) (yiaddr : Z) (o : Offer) : Offer :=
  let t0 := default (offered_t0_lease o) (g IDX_LEASE_TIME) in
  let t1 := default (t0 / 2) (g IDX_T1) in
  let t2 := default (u32 (t0 * 7) / 8) (g IDX_T2) in
  mkOffer (server_ip_addr o) yiaddr (default 0 (g IDX_SUBNET_MASK)) (default 0 (g IDX_ROUTER)) (bool_decide (is_Some (g IDX_SUBNET_MASK))) t0 t1 t2.
Definition dhcp_handle_ack (g : RxOptions) (yiaddr : Z) : M unit := upd (set_offer (ack_offer g yiaddr)).

Definition dhcp_handle_nak : M unit :=
  upd (dhcp_set_state DHCP_STATE_BACKING_OFF) ;; upd_netif (netif_set_addr (Some 0) (Some 0) (Some 0)) ;; dhcp_discover ;; ret tt.

Definition dhcp_handle_offer (g : RxOptions) (yiaddr : Z) : M unit :=
  match g IDX_SERVER_ID with
  | None => ret tt
  | Some server =>
    upd (set_request_timeout 0) ;; upd (set_offer (set_server_ip server)) ;; upd (set_offer (set_offered_ip yiaddr)) ;; dhcp_select ;; ret tt
  end.

Definition field (c : list Z) (ofs len : nat) : list Z := take len (drop ofs c).

(** What the type of a message does in each state. *)
Definition dhcp_dispatch (g : RxOptions) (yiaddr msg_type : Z) : M unit :=
  let* d := the_dhcp in
  if msg_type =? DHCP_ACK then
    match state d with
    | DHCP_STATE_REQUESTING =>
      dhcp_handle_ack g yiaddr ;; let* n := gets c_netif in if has_flag NETIF_FLAG_ETHARP n then dhcp_check else dhcp_bind
    | DHCP_STATE_REBOOTING | DHCP_STATE_REBINDING | DHCP_STATE_RENEWING => dhcp_handle_ack g yiaddr ;; dhcp_bind
    | _ => ret tt
    end
  else match state d with
       | DHCP_STATE_REBOOTING | DHCP_STATE_REQUESTING | DHCP_STATE_REBINDING | DHCP_STATE_RENEWING =>
         when (msg_type =? DHCP_NAK) dhcp_handle_nak
       | DHCP_STATE_SELECTING => when (msg_type =? DHCP_OFFER) (dhcp_handle_offer g yiaddr)
       | _ => ret tt
       end.

(** The messages that are for this client: long enough, a reply, for its
    hardware address and its transaction. *)
Definition for_us (n : Netif) (d : dhcp) (c : list Z) : bool :=
  let k := Nat.min (length (hwaddr n)) 6 in
  negb (Z.of_nat (length c) <? DHCP_MIN_REPLY_LEN) && bool_decide (field c 0 1 = [DHCP_BOOTREPLY]) &&
  bool_decide (field c 28 k = take k (hwaddr n)) && (be_of (field c 4 4) =? xid d).

(** The message is the list of the payloads of its pbufs, freed at the end. *)
Definition dhcp_recv (p : list (list Z)) : M unit :=
  let* cur := gets c_dhcp in
  match cur with
  | None => ret tt
  | Some d =>
    if negb (pcb_allocated d) then ret tt else
    let* n := gets c_netif in
    let* first := lift (head p) in
    if negb (for_us n d first) then ret tt else
    let* r := lift (dhcp_parse_reply p) in
    match r with
    | inr _ => ret tt
    | inl g =>
      match g IDX_MSG_TYPE with
      | None => ret tt
      | Some t => dhcp_dispatch g (be_of (field first 16 4)) (u8 t)
      end
    end
  end.

(** ** The network *)

Definition dhcp_network_changed : M unit :=
  let* cur := gets c_dhcp in
  match cur with
  | None => ret tt
  | Some d =>
    match state d with
    | DHCP_STATE_REBINDING | DHCP_STATE_RENEWING | DHCP_STATE_BOUND | DHCP_STATE_REBOOTING => upd (set_tries 0) ;; dhcp_reboot ;; ret tt
    | DHCP_STATE_OFF => ret tt
    | _ => upd (set_tries 0) ;; dhcp_discover ;; ret tt
    end
  end.
Definition dhcp_arp_reply (addr : Z) : M unit :=
  let* cur := gets c_dhcp in
  match cur with
  | None => ret tt
  | Some d =>
    when (bool_decide (state d = DHCP_STATE_CHECKING) && (addr =? offered_ip_addr (offer d))) (dhcp_decline ;; ret tt)
  end.

(** netif_set_link_up of netif.c, which tells the client. *)
Definition netif_set_link_up : M unit :=
  let* n := gets c_netif in
  when (negb (netif_is_link_up n))
    (upd_netif (fun n => set_flags (Z.lor (flags n) NETIF_FLAG_LINK_UP) n) ;; dhcp_network_changed ;; upd_netif netif_issue_reports).
End client.
