(* ===== verification/DhcpWp.v ===== *)
(** * Reasoning about the calls of the DHCP client

    [wp m Q c]: the call [m] from [c] ends without a write outside of a message,
    with a result and a client that satisfy [Q]. *)

From S2P Require Import Prelude LwipErr Netif DhcpMsg DhcpMsgSpec Dhcp.
#[local] Open Scope Z_scope.

Definition wp {A} (m : M A) (Q : A -> Client -> Prop) (c : Client) : Prop :=
  match m c with Some (a, c') => Q a c' | None => False end.

Lemma wp_mono {A} (m : M A) (Q R : A -> Client -> Prop) c : wp m Q c -> (forall a c', Q a c' -> R a c') -> wp m R c.
Proof. unfold wp. destruct (m c) as [[a c']|]; auto. Qed.
Lemma wp_ret {A} (a : A) Q c : Q a c -> wp (ret a) Q c.
Proof. done. Qed.
Lemma wp_bind {A B} (m : M A) (k : A -> M B) Q c : wp m (fun a => wp (k a) Q) c -> wp (bind m k) Q c.
Proof. unfold wp, bind. by destruct (m c) as [[a c']|]. Qed.
Lemma wp_gets {A} (f : Client -> A) Q c : Q (f c) c -> wp (gets f) Q c.
Proof. done. Qed.
Lemma wp_modify f Q c : Q tt (f c) -> wp (modify f) Q c.
Proof. done. Qed.
Lemma wp_upd_netif f Q c : Q tt (set_netif (f (c_netif c)) c) -> wp (upd_netif f) Q c.
Proof. done. Qed.
Lemma wp_out o Q c : Q tt (put_out o c) -> wp (out o) Q c.
Proof. done. Qed.
Lemma wp_the_dhcp d Q c : c_dhcp c = Some d -> Q d c -> wp the_dhcp Q c.
Proof. intros H. unfold wp, the_dhcp. by rewrite H. Qed.
Lemma wp_upd d f Q c : c_dhcp c = Some d -> Q tt (set_dhcp (Some (f d)) c) -> wp (upd f) Q c.
Proof. intros H. unfold wp, upd. by rewrite H. Qed.
Lemma wp_when b m Q c : (b = true -> wp m Q c) -> (b = false -> Q tt c) -> wp (when b m) Q c.
Proof. destruct b; cbn; auto. Qed.
Lemma wp_ask env Q c : Q (has_memory env (c_asked c)) (next_question c) -> wp (ask env) Q c.
Proof. done. Qed.
Lemma wp_ask_udp env Q c : Q (udp_result env (c_asked c)) (next_question c) -> wp (ask_udp env) Q c.
Proof. done. Qed.
Lemma wp_LWIP_RAND env Q c : Q (u32 (rand env (c_asked c))) (next_question c) -> wp (LWIP_RAND env) Q c.
Proof. done. Qed.
Lemma wp_lift {A} (o : option A) a Q c : o = Some a -> Q a c -> wp (lift o) Q c.
Proof. by intros ->. Qed.

(** One step of a straight-line program. *)
Ltac wp_step :=
  lazymatch goal with
  | |- wp (bind _ _) _ _ => apply wp_bind
  | |- wp (ret _) _ _ => apply wp_ret
  | |- wp (gets _) _ _ => apply wp_gets
  | |- wp (modify _) _ _ => apply wp_modify
  | |- wp (upd_netif _) _ _ => apply wp_upd_netif
  | |- wp (out _) _ _ => apply wp_out
  | |- wp the_dhcp _ _ => eapply wp_the_dhcp; [cbn; eassumption || reflexivity|]
  | |- wp (upd _) _ _ => eapply wp_upd; [cbn; eassumption || reflexivity|]
  | |- wp (ask _) _ _ => apply wp_ask
  | |- wp (ask_udp _) _ _ => apply wp_ask_udp
  | |- wp (LWIP_RAND _) _ _ => apply wp_LWIP_RAND
  end.
Ltac wp_steps := repeat wp_step.

(** ** Messages *)

(** A message as the client sends it: its type, then well-formed options. *)
Definition client_message (p : list Z) : Prop :=
  exists m t items, p = message m (encode (Opt DHCP_OPTION_MESSAGE_TYPE [t] :: items)) /\ length (m_chaddr m) = 16%nat /\
    Forall (item_ok false) items /\ (length (encode items) <= 64)%nat.
Definition out_ok (o : Out) : Prop := match o with SendTo _ p => client_message p | EtharpQuery _ => True end.

(** What a call leaves alone: the interface and the UDP control block; the
    client of the interface becomes [d'], and what goes out is well-formed. *)
Record quiet (c c' : Client) (d' : dhcp) : Prop := {
  q_netif : c_netif c' = c_netif c; q_count : dhcp_pcb_refcount c' = dhcp_pcb_refcount c; q_pcb : dhcp_pcb c' = dhcp_pcb c;
  q_dhcp : c_dhcp c' = Some d'; q_out : exists outs, c_out c' = c_out c ++ outs /\ Forall out_ok outs
}.
Lemma quiet_refl c d : c_dhcp c = Some d -> quiet c c d.
Proof. intros H. split; try done. exists []. by rewrite app_nil_r. Qed.
Lemma quiet_trans c1 c2 c3 d2 d3 : quiet c1 c2 d2 -> quiet c2 c3 d3 -> quiet c1 c3 d3.
Proof.
  intros [N1 R1 P1 D1 (o1 & O1 & F1)] [N2 R2 P2 D2 (o2 & O2 & F2)]. split; try congruence. exists (o1 ++ o2).
  rewrite O2, O1, app_assoc. split; [done|]. by apply Forall_app.
Qed.
Lemma quiet_set c c' d d' : quiet c c' d -> quiet c (set_dhcp (Some d') c') d'.
Proof. by intros [N R P D O]. Qed.

Definition netif_ok (n : Netif) : Prop := length (hwaddr n) = 6%nat.

(** The functions that add options, behind the message type. *)
Definition options_ok (f : Opts -> option Opts) : Prop :=
  forall bs o, length bs = 3%nat -> written bs o ->
    exists items o', f o = Some o' /\ written (bs ++ encode items) o' /\ Forall (item_ok false) items /\ (length (encode items) <= 64)%nat.

(** [f] adds the items, in the room that is left. *)
Definition adds (f : Opts -> option Opts) (items : list Item) : Prop := writes f (encode items) /\ Forall (item_ok false) items.

Lemma adds_then f g a b : adds f a -> adds g b -> adds (fun o => f o ≫= g) (a ++ b).
Proof.
  intros [Hf Fa] [Hg Fb]. split; [|by apply Forall_app]. unfold encode. rewrite bind_app. by apply writes_then.
Qed.

Lemma item_ok_other t v : 0 < t < 255 -> (length v <= 255)%nat -> (forall i, t <> code i) -> item_ok false (Opt t v).
Proof. intros Ht Hv Hn. split; [done|]. split; [done|]. intros i Hi. by destruct (Hn i). Qed.

Lemma option_max_msg_size_adds v : adds (option_max_msg_size v) [Opt DHCP_OPTION_MAX_MSG_SIZE (be16 v)].
Proof.
  split; [apply (writes_then _ _ _ _ (dhcp_option_writes _ _) (dhcp_option_short_writes v))|].
  apply Forall_singleton, item_ok_other; [done|cbn; lia|]. by intros [].
Qed.
Lemma option_request_list_adds : adds option_request_list [Opt DHCP_OPTION_PARAMETER_REQUEST_LIST dhcp_discover_request_options].
Proof.
  split; [apply (writes_then _ _ _ _ (dhcp_option_writes _ _) (put_all_writes _))|].
  apply Forall_singleton, item_ok_other; [done|cbn; lia|]. by intros [].
Qed.
Lemma option_requested_ip_adds v : adds (option_address DHCP_OPTION_REQUESTED_IP v) [Opt DHCP_OPTION_REQUESTED_IP (be32 v)].
Proof.
  split; [apply (writes_then _ _ _ _ (dhcp_option_writes _ _) (dhcp_option_long_writes v))|].
  apply Forall_singleton, item_ok_other; [done|cbn; lia|]. by intros [].
Qed.
Lemma option_server_id_adds v : adds (option_address DHCP_OPTION_SERVER_ID v) [Opt DHCP_OPTION_SERVER_ID (be32 v)].
Proof.
  split; [apply (writes_then _ _ _ _ (dhcp_option_writes _ _) (dhcp_option_long_writes v))|].
  apply Forall_singleton. split; [done|]. split; [cbn; lia|]. by intros [].
Qed.

Lemma adds_options_ok f items : adds f items -> (length (encode items) <= 64)%nat -> options_ok f.
Proof.
  intros [Hw Hi] Hl bs o Hb Ho. destruct (Hw bs o Ho) as (o' & E & W); [lia|]. by exists items, o'.
Qed.

(** The host name takes what is left. *)
Lemma hostname_item name used :
  (used <= 65)%nat -> exists items, hostname_bytes name used = encode items /\ Forall (item_ok false) items.
Proof.
  intros Hu. unfold hostname_bytes. destruct name as [|x name]; [by exists []|]. set (name' := x :: name) in *.
  exists [Opt DHCP_OPTION_HOSTNAME (take (Nat.min (length name') (65 - used)) name')]. split.
  - cbn [encode mbind list_bind encode_item app]. rewrite length_take, app_nil_r. f_equal. f_equal. lia.
  - apply Forall_singleton, item_ok_other; [done|rewrite length_take; lia|]. by intros [].
Qed.
Lemma hostname_options_ok f n items :
  adds f items -> (length (encode items) <= 62)%nat -> options_ok (fun o => f o ≫= option_hostname n).
Proof.
  intros [Hw Hi] Hl bs o Hb Ho. destruct (Hw bs o Ho) as (o1 & E1 & W1); [lia|]. rewrite E1. cbn [mbind option_bind].
  assert (length (bs ++ encode items) <= 65)%nat as Hroom by (rewrite length_app; lia).
  destruct (dhcp_option_hostname_writes (default [] (hostname n)) _ o1 W1 Hroom) as (o2 & E2 & W2).
  destruct (hostname_item (default [] (hostname n)) _ Hroom) as (name & En & Hn).
  pose proof (hostname_room (default [] (hostname n)) _ Hroom) as Hfits. rewrite En, length_app in Hfits.
  exists (items ++ name), o2. rewrite En in W2. split; [exact E2|]. unfold encode. rewrite bind_app.
  split; [by rewrite app_assoc|]. split; [by apply Forall_app|]. rewrite length_app. unfold encode in *. lia.
Qed.

Section client.
Context (env : Env).

(** A message whose options have the message type so far. *)
Definition typed (p : option (Msg * Opts)) : Prop :=
  match p with None => True | Some (m, o) => length (m_chaddr m) = 16%nat /\ exists t, written (encode [Opt DHCP_OPTION_MESSAGE_TYPE [t]]) o end.

Lemma wp_transaction t d c Q :
  (forall x c', c_netif c' = c_netif c -> dhcp_pcb_refcount c' = dhcp_pcb_refcount c -> dhcp_pcb c' = dhcp_pcb c ->
     c_dhcp c' = c_dhcp c -> c_out c' = c_out c -> Q (set_xid x d) c') -> wp (transaction env t d) Q c.
Proof.
  intros HQ. unfold transaction. destruct (_ || _).
  - wp_steps. apply wp_when; intros _; wp_steps; by apply HQ.
  - wp_steps. pose proof (HQ (xid d) c) as H. replace (set_xid (xid d) d) with d in H by (by destruct d). by apply H.
Qed.

Lemma wp_dhcp_create_msg t d c Q :
  netif_ok (c_netif c) ->
  (forall x p c', typed p -> c_netif c' = c_netif c -> dhcp_pcb_refcount c' = dhcp_pcb_refcount c -> dhcp_pcb c' = dhcp_pcb c ->
     c_dhcp c' = c_dhcp c -> c_out c' = c_out c -> Q (set_xid x d, p) c') ->
  wp (dhcp_create_msg env t d) Q c.
Proof.
  intros Hn HQ. unfold dhcp_create_msg. wp_steps. destruct (negb _).
  { wp_steps. pose proof (HQ (xid d) None (next_question c)) as H. replace (set_xid (xid d) d) with d in H by (by destruct d). by apply H. }
  wp_steps. apply wp_transaction. intros x c' N R P D O. wp_step. wp_step. cbv zeta. wp_step.
  destruct (writes_then _ _ _ _ (dhcp_option_writes DHCP_OPTION_MESSAGE_TYPE 1) (put_option_writes t) [] (zeros DHCP_OPTIONS_LEN, 0) written_nil) as (o & E & W);
    [cbn; lia|]. eapply wp_lift; [exact E|]. wp_step. apply HQ; [|done..]. split; [|by exists t].
  unfold msg_header. cbn [m_chaddr]. unfold netif_ok in Hn. rewrite length_app, length_take. rewrite N. cbn [c_netif next_question]. by rewrite Hn.
Qed.

Lemma wp_create_msg t d c Q :
  c_dhcp c = Some d -> netif_ok (c_netif c) ->
  (forall x p c', typed p -> quiet c c' (set_xid x d) -> Q p c') ->
  wp (create_msg env t) Q c.
Proof.
  intros Hd Hn HQ. unfold create_msg. wp_steps. apply wp_dhcp_create_msg; [done|]. intros x p c' Hp N R P D O.
  wp_step. eapply wp_upd; [by rewrite D|]. wp_steps. apply HQ with x; [done|].
  split; try done. exists []. by rewrite app_nil_r.
Qed.

Lemma wp_send_raw dst p f c Q :
  typed p -> options_ok f ->
  (forall r c', c_netif c' = c_netif c -> dhcp_pcb_refcount c' = dhcp_pcb_refcount c -> dhcp_pcb c' = dhcp_pcb c ->
     c_dhcp c' = c_dhcp c -> (exists outs, c_out c' = c_out c ++ outs /\ Forall out_ok outs) -> Q r c') ->
  wp (send env dst p f) Q c.
Proof.
  intros Hp Hf HQ. unfold send. destruct p as [[m o]|]; [|apply HQ; try done; exists []; by rewrite app_nil_r]. destruct Hp as [Hm [t Ho]].
  destruct (Hf (encode [Opt DHCP_OPTION_MESSAGE_TYPE [t]]) o eq_refl Ho) as (items & o' & E & W & Hi & Hl). wp_step. eapply wp_lift; [exact E|]. wp_step.
  set (all := Opt DHCP_OPTION_MESSAGE_TYPE [t] :: items) in *.
  assert (length (encode all) <= 67)%nat by (change (encode all) with ([DHCP_OPTION_MESSAGE_TYPE; 1; t] ++ encode items); rewrite length_app; cbn; lia).
  eapply wp_lift; [by apply (dhcp_option_trailer_message m (encode all))|]. wp_steps. apply HQ; try done.
  eexists [_]. split; [done|]. apply Forall_singleton. by exists m, t, items.
Qed.

Lemma wp_send dst p f d c Q :
  c_dhcp c = Some d -> typed p -> options_ok f ->
  (forall r c', quiet c c' d -> Q r c') -> wp (send env dst p f) Q c.
Proof. intros Hd Hp Hf HQ. apply wp_send_raw; [done..|]. intros r c' N R P D O. apply HQ. by split; rewrite ?D. Qed.

(** Where a client is after a message: in state [s], with a running timer. *)
Record moved (s : dhcp_state_enum_t) (f : Offer -> Offer) (d d' : dhcp) : Prop := {
  m_state : state d' = s; m_alloc : pcb_allocated d' = pcb_allocated d; m_timers : timers d' = timers d; m_offer : offer d' = f (offer d);
  m_timeout : 0 < request_timeout d' < 65536; m_tries : 0 < tries d' <= 255
}.

Lemma count_try_tries d : 0 <= tries d <= 255 -> 0 < tries (count_try d) <= 255.
Proof. intros H. unfold count_try. case_match; cbn [tries set_tries]; bool_to_prop; lia. Qed.

Lemma wp_retry_in msecs d c Q :
  c_dhcp c = Some d -> 0 <= tries d <= 255 -> (forall t, 0 < t <= 255 -> 500 <= msecs t < 65536) ->
  (forall d', moved (state d) (fun o => o) d d' -> Q tt (set_dhcp (Some d') (set_dhcp (Some (count_try d)) c))) -> wp (retry_in msecs) Q c.
Proof.
  intros Hd Ht Hm HQ. unfold retry_in. wp_steps. apply HQ. specialize (Hm _ (count_try_tries d Ht)).
  unfold ticks, DHCP_FINE_TIMER_MSECS. cbn [set_request_timeout request_timeout]. unfold count_try in *.
  split; try (case_match; done).
  - cbn [set_request_timeout request_timeout]. rewrite (u16_small (msecs _)) by lia.
    set (k := msecs _) in *. unfold u16. rewrite Z.mod_small; [|split; [apply Z.div_pos; lia|apply Z.div_lt_upper_bound; lia]].
    split; [apply Z.div_str_pos; lia|apply Z.div_lt_upper_bound; lia].
  - by apply count_try_tries.
Qed.
End client.
