(* ===== verification/DhcpSpec.v ===== *)
(** * The DHCP client: what each call does, and the invariant *)

From S2P Require Import Prelude LwipErr Netif DhcpMsg DhcpMsgSpec Dhcp DhcpWp.
#[local] Open Scope Z_scope.

Section client.
Context (env : Env).

Lemma dhcp_set_state_fields s d :
  state (dhcp_set_state s d) = s /\ pcb_allocated (dhcp_set_state s d) = pcb_allocated d /\ timers (dhcp_set_state s d) = timers d /\
  offer (dhcp_set_state s d) = offer d /\ (0 <= tries d <= 255 -> 0 <= tries (dhcp_set_state s d) <= 255).
Proof. unfold dhcp_set_state. destruct (decide _) as [->|]; cbn [state pcb_allocated timers offer tries]; repeat split; lia. Qed.

(** What a function that changes the state and then sends does. *)
Definition moves {A} (s : dhcp_state_enum_t) (f : Offer -> Offer) (m : M A) : Prop :=
  forall c d Q, c_dhcp c = Some d -> netif_ok (c_netif c) -> 0 <= tries d <= 255 ->
    (forall r c' d', quiet c c' d' -> moved s f d d' -> Q r c') -> wp m Q c.

Lemma moved_after s f d x d' :
  moved s (fun o => o) (set_xid x (dhcp_set_state s (set_offer f d))) d' -> moved s f d d'.
Proof.
  destruct (dhcp_set_state_fields s (set_offer f d)) as (S1 & S2 & S3 & S4 & _). intros [A B C D E F].
  split; try done; [by rewrite B|by rewrite C|by rewrite D].
Qed.

Lemma moved_stays s d x d' : moved s (fun o => o) (set_xid x (dhcp_set_state s d)) d' -> moved s (fun o => o) d d'.
Proof.
  destruct (dhcp_set_state_fields s d) as (S1 & S2 & S3 & S4 & _). intros [A B C D E F].
  split; try done; [by rewrite B|by rewrite C|by rewrite D].
Qed.

(** The options of each kind of message fit. *)
Lemma discover_options v : options_ok (fun o => o ← option_max_msg_size v o; option_request_list o).
Proof.
  eapply adds_options_ok; [apply adds_then; [apply option_max_msg_size_adds|apply option_request_list_adds]|]. cbn. lia.
Qed.
Lemma renew_options v n : options_ok (fun o => o ← option_max_msg_size v o; o ← option_request_list o; option_hostname n o).
Proof.
  pose proof (hostname_options_ok _ n _ (adds_then _ _ _ _ (option_max_msg_size_adds v) option_request_list_adds)) as H.
  intros bs o Hb Ho. destruct (H ltac:(cbn; lia) bs o Hb Ho) as (items & o' & E & W). exists items, o'. split; [|exact W].
  rewrite <- E. by destruct (option_max_msg_size v o).
Qed.
Lemma select_options v ip srv n : options_ok (fun o =>
  o ← option_max_msg_size v o; o ← option_address DHCP_OPTION_REQUESTED_IP ip o;
  o ← option_address DHCP_OPTION_SERVER_ID srv o; o ← option_request_list o; option_hostname n o).
Proof.
  pose proof (hostname_options_ok _ n _ (adds_then _ _ _ _ (option_max_msg_size_adds v)
    (adds_then _ _ _ _ (option_requested_ip_adds ip) (adds_then _ _ _ _ (option_server_id_adds srv) option_request_list_adds)))) as H.
  intros bs o Hb Ho. destruct (H ltac:(cbn; lia) bs o Hb Ho) as (items & o' & E & W). exists items, o'. split; [|exact W].
  rewrite <- E. destruct (option_max_msg_size v o); cbn [mbind option_bind]; [|done].
  destruct (option_address DHCP_OPTION_REQUESTED_IP ip _); cbn [mbind option_bind]; [|done].
  by destruct (option_address DHCP_OPTION_SERVER_ID srv _).
Qed.
Lemma reboot_options v ip n : options_ok (fun o =>
  o ← option_max_msg_size v o; o ← option_address DHCP_OPTION_REQUESTED_IP ip o; o ← option_request_list o; option_hostname n o).
Proof.
  pose proof (hostname_options_ok _ n _ (adds_then _ _ _ _ (option_max_msg_size_adds v)
    (adds_then _ _ _ _ (option_requested_ip_adds ip) option_request_list_adds))) as H.
  intros bs o Hb Ho. destruct (H ltac:(cbn; lia) bs o Hb Ho) as (items & o' & E & W). exists items, o'. split; [|exact W].
  rewrite <- E. destruct (option_max_msg_size v o); cbn [mbind option_bind]; [|done].
  by destruct (option_address DHCP_OPTION_REQUESTED_IP ip _).
Qed.
Lemma requested_ip_options ip : options_ok (option_address DHCP_OPTION_REQUESTED_IP ip).
Proof. eapply adds_options_ok; [apply option_requested_ip_adds|]. cbn. lia. Qed.
Lemma server_id_options srv : options_ok (option_address DHCP_OPTION_SERVER_ID srv).
Proof. eapply adds_options_ok; [apply option_server_id_adds|]. cbn. lia. Qed.
Lemma max_msg_size_options v : options_ok (option_max_msg_size v).
Proof. eapply adds_options_ok; [apply option_max_msg_size_adds|]. cbn. lia. Qed.

(** A function that sends: the new state, the message, the timer. *)
Ltac sender options :=
  intros c d Q Hd Hn Ht HQ;
  wp_steps;
  eapply wp_create_msg; [reflexivity|done|]; intros x p c2 Hp Q2; pose proof (q_dhcp _ _ _ Q2) as D2;
  wp_steps; eapply wp_send; [exact D2|exact Hp|apply options|]; intros r c3 Q3; pose proof (q_dhcp _ _ _ Q3) as D3;
  wp_steps; eapply wp_retry_in; [exact D3|apply dhcp_set_state_fields; exact Ht| |]; cycle 1;
  [ intros d' Hmoved; wp_steps; eapply HQ; cycle 1;
    [ (eapply moved_stays || eapply moved_after); cbn [state set_xid] in Hmoved; rewrite (proj1 (dhcp_set_state_fields _ _)) in Hmoved; exact Hmoved
    | eapply quiet_set, quiet_set, quiet_trans; [|exact Q3]; eapply quiet_trans; [|exact Q2];
      split; try done; exists []; by rewrite app_nil_r ]
  | intros k Hk; try (case_match; bool_to_prop); try lia ].

Lemma shift_bound k : 0 < k < 6 -> 2 <= Z.shiftl 1 k <= 32.
Proof. intros H. assert (k = 1 \/ k = 2 \/ k = 3 \/ k = 4 \/ k = 5) as [->|[->|[->|[->| ->]]]] by lia; done. Qed.

Lemma dhcp_discover_moves : moves DHCP_STATE_SELECTING (set_offered_ip 0) (dhcp_discover env).
Proof. unfold dhcp_discover. sender discover_options. pose proof (shift_bound k). lia. Qed.
Lemma dhcp_select_moves : moves DHCP_STATE_REQUESTING (fun o => o) (dhcp_select env).
Proof. unfold dhcp_select. sender select_options. pose proof (shift_bound k). lia. Qed.
Lemma dhcp_renew_moves : moves DHCP_STATE_RENEWING (fun o => o) (dhcp_renew env).
Proof. unfold dhcp_renew. sender renew_options. Qed.
Lemma dhcp_rebind_moves : moves DHCP_STATE_REBINDING (fun o => o) (dhcp_rebind env).
Proof. unfold dhcp_rebind. sender renew_options. Qed.
Lemma dhcp_reboot_moves : moves DHCP_STATE_REBOOTING (fun o => o) (dhcp_reboot env).
Proof. unfold dhcp_reboot. sender reboot_options. Qed.
Lemma dhcp_decline_moves : moves DHCP_STATE_BACKING_OFF (fun o => o) (dhcp_decline env).
Proof. unfold dhcp_decline. sender requested_ip_options. Qed.
Lemma dhcp_check_moves : moves DHCP_STATE_CHECKING (fun o => o) dhcp_check.
Proof.
  intros c d Q Hd Hn Ht HQ. unfold dhcp_check. wp_steps.
  eapply wp_retry_in; [reflexivity|apply dhcp_set_state_fields; exact Ht|intros; lia|].
  intros d' Hm. eapply HQ.
  - eapply quiet_set, quiet_set. split; try reflexivity. eexists [_]. split; [reflexivity|by apply Forall_singleton].
  - rewrite (proj1 (dhcp_set_state_fields _ _)) in Hm. destruct (dhcp_set_state_fields DHCP_STATE_CHECKING d) as (_ & P & T & O & _).
    destruct Hm as [M1 M2 M3 M4 M5 M6]. split; try done; congruence.
Qed.
End client.

(** ** The invariant *)

(** The states that are left by the fine timer. *)
Definition waits (s : dhcp_state_enum_t) : bool :=
  match s with
  | DHCP_STATE_SELECTING | DHCP_STATE_REQUESTING | DHCP_STATE_CHECKING | DHCP_STATE_REBOOTING | DHCP_STATE_BACKING_OFF => true
  | _ => false
  end.
(** The states that the client of an interface takes. *)
Definition used_state (s : dhcp_state_enum_t) : bool :=
  match s with DHCP_STATE_INFORMING | DHCP_STATE_PERMANENT | DHCP_STATE_RELEASING => false | _ => true end.
Definition lease_ok (t : Timers) : Prop := 0 <= t0_timeout t < 65536 /\ (t0_timeout t <> 0 -> 0 <= lease_used t < t0_timeout t).

Record dhcp_ok (n : Netif) (d : dhcp) : Prop := {
  ok_used : used_state (state d) = true;
  ok_pcb : pcb_allocated d = negb (bool_decide (state d = DHCP_STATE_OFF));
  ok_tries : 0 <= tries d <= 255;
  ok_timer : 0 <= request_timeout d < 65536;
  ok_waits : waits (state d) = true -> 0 < request_timeout d;
  ok_bound : state d = DHCP_STATE_BOUND -> ip_addr n = offered_ip_addr (offer d);
  ok_lease : lease_ok (timers d)
}.
(** The UDP control block is there as long as the client is not off. *)
Definition pcb_ok (allocated : bool) (c : Client) : Prop := dhcp_pcb_refcount c = (if allocated then 1 else 0) /\ dhcp_pcb c = allocated.
Record client_ok (c : Client) : Prop := {
  c_netif_ok : netif_ok (c_netif c);
  c_out_ok : Forall out_ok (c_out c);
  c_dhcp_ok : match c_dhcp c with None => pcb_ok false c | Some d => dhcp_ok (c_netif c) d /\ pcb_ok (pcb_allocated d) c end
}.

(** A client that is not off, between two operations of a handler. *)
Record running (c : Client) (d : dhcp) : Prop := {
  r_dhcp : c_dhcp c = Some d; r_netif : netif_ok (c_netif c); r_out : Forall out_ok (c_out c); r_alloc : pcb_allocated d = true;
  r_pcb : pcb_ok true c; r_tries : 0 <= tries d <= 255; r_timer : 0 <= request_timeout d < 65536
}.

Lemma client_ok_running c d : client_ok c -> c_dhcp c = Some d -> state d <> DHCP_STATE_OFF -> running c d /\ dhcp_ok (c_netif c) d.
Proof.
  intros [Hn Ho Hd] E Hs. rewrite E in Hd. destruct Hd as [Hd Hp]. assert (pcb_allocated d = true) as Ha.
  { rewrite (ok_pcb _ _ Hd). by rewrite bool_decide_false. }
  rewrite Ha in Hp. split; [|done]. split; try done; apply Hd.
Qed.

(** What the rest of the world sees of the client. *)
Record View := mkView { v_state : dhcp_state_enum_t; v_ip : Z; v_offered : Z; v_t0 : Z; v_used : Z; v_timer : Z; v_xid : Z }.
Definition view_of (n : Netif) (d : dhcp) : View :=
  mkView (state d) (ip_addr n) (offered_ip_addr (offer d)) (t0_timeout (timers d)) (lease_used (timers d)) (request_timeout d) (xid d).
Definition view (c : Client) : View := view_of (c_netif c) (default no_dhcp (c_dhcp c)).

Lemma view_dhcp c d : c_dhcp c = Some d -> view c = view_of (c_netif c) d.
Proof. intros H. unfold view. by rewrite H. Qed.

Section handlers.
Context (env : Env).

(** After a message: the new state with a running timer, the rest as it was. *)
Lemma wp_moves {A} s f (m : M A) c d (Q : A -> Client -> Prop) :
  moves s f m -> running c d -> lease_ok (timers d) -> used_state s = true -> s <> DHCP_STATE_OFF -> s <> DHCP_STATE_BOUND ->
  (forall r c' d', running c' d' -> client_ok c' -> c_netif c' = c_netif c -> moved s f d d' -> Q r c') -> wp m Q c.
Proof.
  intros Hm [Hd Hn Ho Ha Hp Ht Hrt] Hl Hu Hoff Hb HQ. apply (Hm c d); [done..|].
  intros r c' d' [QN QR QP QD (outs & QO & QF)] Hmv. pose proof Hmv as [M1 M2 M3 M4 M5 M6].
  assert (Forall out_ok (c_out c')) by (rewrite QO; by apply Forall_app).
  assert (pcb_ok true c') by (destruct Hp; split; congruence).
  apply (HQ r c' d'); [split; try done; [by rewrite QN|by rewrite M2|lia|lia]| |done|done].
  split; [by rewrite QN|done|]. rewrite QD, M2, Ha. split; [|done]. split; try done; try lia; try congruence.
  rewrite M2, Ha, M1. by rewrite bool_decide_false.
Qed.

(** Binding: the address of the offer, a lease that has just begun. *)
Lemma minutes_range s : 0 < minutes s < 65536.
Proof. unfold minutes. cbv zeta. case_match; [lia|]. case_match; bool_to_prop; wrap_lia. Qed.

Lemma bind_timers_lease o t : lease_ok t -> lease_ok (bind_timers o t) /\ lease_used (bind_timers o t) = 0 /\
  t0_timeout (bind_timers o t) = (if offered_t0_lease o =? INFINITE then t0_timeout t else minutes (offered_t0_lease o)).
Proof.
  intros [H1 H2]. pose proof (minutes_range (offered_t0_lease o)). unfold bind_timers. cbv zeta.
  destruct (offered_t0_lease o =? INFINITE); cbn [negb]; repeat case_match; (split; [split|split]); cbn [lease_used t0_timeout set_t1_timeout set_t0 set_t1 set_t2 set_lease_used]; try done; lia.
Qed.

Lemma wp_bind_address c d (Q : unit -> Client -> Prop) :
  running c d -> lease_ok (timers d) ->
  (forall c' d', running c' d' -> client_ok c' -> same_port (c_netif c) (c_netif c') -> xid d' = xid d ->
     view c' = mkView DHCP_STATE_BOUND (offered_ip_addr (offer d)) (offered_ip_addr (offer d))
                 (if offered_t0_lease (offer d) =? INFINITE then t0_timeout (timers d) else minutes (offered_t0_lease (offer d))) 0
                 (request_timeout d') (xid d) -> Q tt c') ->
  wp dhcp_bind Q c.
Proof.
  intros [Hd Hn Ho Ha Hp Ht Hrt] Hl HQ. unfold dhcp_bind. wp_steps.
  set (d1 := set_timers _ d). destruct (dhcp_set_state_fields DHCP_STATE_BOUND d1) as (S1 & S2 & S3 & S4 & S5).
  destruct (bind_timers_lease (offer d) (timers d) Hl) as (L1 & L2 & L3). set (d2 := dhcp_set_state DHCP_STATE_BOUND d1) in *.
  assert (0 <= request_timeout d2 < 65536) as Hrt2 by (unfold d2, dhcp_set_state; destruct (decide _); cbn; lia).
  assert (xid d2 = xid d) as Hx by (unfold d2, dhcp_set_state; by destruct (decide _)).
  destruct (netif_set_addr_sets (Some (offered_ip_addr (offer d2))) (Some (bind_mask (offer d2))) (Some (bind_gw (offer d2))) (c_netif c)) as (P & I & _).
  set (n' := netif_set_addr _ _ _ _) in *. cbn [or_any default from_option id] in I.
  assert (netif_ok n') as Hn' by (unfold netif_ok; by rewrite (proj1 (proj2 P))). apply (HQ _ d2).
  - split; try done; [by rewrite S2|by apply S5].
  - split; [exact Hn'|done|]. cbn. rewrite S2. cbn. rewrite Ha. split; [|done].
    split; rewrite ?S1, ?S2, ?S3; try done; by apply S5.
  - done.
  - done.
  - rewrite (view_dhcp _ d2) by done. unfold view_of. cbn [c_netif set_netif]. rewrite I, S1, S3, S4, Hx. cbn [timers set_timers d1 offer].
    by rewrite L2, L3.
Qed.
(** Giving up the address: a release goes out when the address was from DHCP. *)
Definition stopped (c : Client) : Prop :=
  client_ok c /\ exists d, c_dhcp c = Some d /\ exists x, view c = mkView DHCP_STATE_OFF 0 0 0 0 0 x.

Lemma wp_release given c d srv :
  c_dhcp c = Some d -> netif_ok (c_netif c) ->
  wp (when given (let* p := create_msg env DHCP_RELEASE in send env srv p (option_address DHCP_OPTION_SERVER_ID srv) ;; ret tt)%fw)
     (fun _ c' => exists x, quiet c c' (set_xid x d)) c.
Proof.
  intros Hd Hn. apply wp_when; intros _.
  - wp_steps. eapply wp_create_msg; [exact Hd|done|]. intros x p c1 Hp Q1. wp_steps.
    eapply wp_send; [apply Q1|exact Hp|apply server_id_options|]. intros r c2 Q2. wp_steps. exists x. by eapply quiet_trans.
  - exists (xid d). replace (set_xid (xid d) d) with d by (by destruct d). by apply quiet_refl.
Qed.

Lemma wp_release_and_stop c d :
  running c d -> state d <> DHCP_STATE_OFF -> wp (dhcp_release_and_stop env) (fun _ c' => stopped c' /\ same_port (c_netif c) (c_netif c')) c.
Proof.
  intros [Hd Hn Ho Ha Hp Ht Hrt] Hs. unfold dhcp_release_and_stop. wp_step. wp_step. rewrite Hd, bool_decide_false by done. cbv zeta.
  wp_steps. cbv beta. eapply wp_mono; [eapply wp_release; [done|done]|]. intros _ c2 (x & Q2). pose proof (q_dhcp _ _ _ Q2) as D2.
  wp_steps. set (d2 := set_xid x _) in *. destruct (dhcp_set_state_fields DHCP_STATE_OFF d2) as (S1 & S2 & S3 & S4 & S5).
  destruct (netif_set_addr_sets (Some 0) (Some 0) (Some 0) (c_netif c2)) as (P & I & _). cbn [or_any default from_option id] in I.
  set (n' := netif_set_addr _ _ _ _) in *. pose proof (q_netif _ _ _ Q2) as N2. cbn [c_netif set_dhcp] in N2. rewrite N2 in P.
  assert (netif_ok n') as Hn' by (unfold netif_ok; by rewrite (proj1 (proj2 P))). clearbody n'.
  assert (Forall out_ok (c_out c2)) as Ho2 by (destruct (q_out _ _ _ Q2) as (outs & -> & F); by apply Forall_app).
  assert (pcb_allocated (dhcp_set_state DHCP_STATE_OFF d2) = true) as Ha2 by (by rewrite S2).
  assert (dhcp_set_state DHCP_STATE_OFF d2 = mkDhcp (xid d2) true DHCP_STATE_OFF 0 0 (timers d2) (offer d2)) as Ed
    by (unfold dhcp_set_state; rewrite decide_False by (cbn; congruence); cbn; by rewrite Ha).
  rewrite Ha2. cbn [when]. unfold dhcp_dec_pcb_refcount. wp_steps. cbn [dhcp_pcb_refcount set_pcb set_dhcp set_netif dhcp_pcb].
  rewrite (q_count _ _ _ Q2). cbn [dhcp_pcb_refcount set_dhcp]. destruct Hp as [-> _]. cbn [Z.sub Z.eqb u8 Z.modulo].
  change (u8 (1 - 1) =? 0) with true. cbn [when]. wp_steps. rewrite Ed. split; [|done].
  split; [|eexists; split; [done|]; exists (xid d2); unfold view, view_of; cbn; by rewrite I].
  split; [exact Hn'|exact Ho2|]. cbn. split; [|split; done]. split; cbn; try done; lia.
Qed.
(** Starting anew: off when there was no memory, waiting for the link, or
    selecting with a running timer. *)
Definition fresh (ip : Z) (v : View) : Prop :=
  exists s timer x, s ∈ [DHCP_STATE_OFF; DHCP_STATE_INIT; DHCP_STATE_SELECTING] /\ (waits s = true -> 0 < timer) /\ v = mkView s ip 0 0 0 timer x.

Lemma bind_result {A B} (m : M A) (k : A -> M B) c r c' : bind m k c = Some (r, c') -> exists a c1, m c = Some (a, c1) /\ k a c1 = Some (r, c').
Proof. unfold bind. destruct (m c) as [[a c1]|]; [|done]. by exists a, c1. Qed.

Lemma dhcp_discover_result c r c' : dhcp_discover env c = Some (r, c') -> r = ERR_OK.
Proof. unfold dhcp_discover. do 6 (intros (? & ? & _ & H)%bind_result; revert H). by intros [= <- _]. Qed.

Lemma wp_and {A} (m : M A) Q (P : A -> Prop) c : wp m Q c -> (forall r c', m c = Some (r, c') -> P r) -> wp m (fun r c' => Q r c' /\ P r) c.
Proof. unfold wp. destruct (m c) as [[r c']|]; eauto. Qed.

(** The end of dhcp_start, with a clear structure. *)
Lemma wp_fresh c Q :
  netif_ok (c_netif c) -> Forall out_ok (c_out c) -> c_dhcp c = Some no_dhcp -> pcb_ok true c ->
  (forall r c', client_ok c' -> c_netif c' = c_netif c -> fresh (ip_addr (c_netif c)) (view c') -> Q r c') ->
  wp (upd (set_pcb_allocated true) ;;
      if negb (netif_is_link_up (c_netif c)) then upd (dhcp_set_state DHCP_STATE_INIT) ;; ret ERR_OK else
      let* result := dhcp_discover env in
      if negb (result =? ERR_OK) then dhcp_release_and_stop env ;; ret ERR_MEM else ret result)%fw Q c.
Proof.
  intros Hn Ho Hd Hp HQ. wp_steps. set (d := set_pcb_allocated true no_dhcp). set (c1 := set_dhcp (Some d) c).
  assert (running c1 d) as Hr by (split; try done; cbn; lia).
  destruct (negb (netif_is_link_up _)).
  - wp_steps. apply HQ; [|done|].
    + split; [done|done|]. split; [|done]. split; cbn; try done; lia.
    + exists DHCP_STATE_INIT, 0, 0. repeat split; [set_solver|done].
  - wp_steps. eapply wp_mono.
    + apply wp_and with (P := fun r => r = ERR_OK); [|apply dhcp_discover_result].
      apply (wp_moves _ _ _ c1 d (fun _ c' => client_ok c' /\ c_netif c' = c_netif c /\ fresh (ip_addr (c_netif c)) (view c'))
               (dhcp_discover_moves env) Hr); [split; cbn; lia|done..|].
      intros _ c' d' Hr' Hok N [M1 M2 M3 M4 M5 M6]. split; [done|]. split; [done|].
      exists DHCP_STATE_SELECTING, (request_timeout d'), (xid d'). split; [set_solver|]. split; [lia|].
      rewrite (view_dhcp c' d') by apply Hr'. unfold view_of. by rewrite M1, M3, M4, N.
    + intros r c' ((Hok & N & F) & ->). cbn [negb Z.eqb ERR_OK]. wp_steps. by apply HQ.
Qed.

Lemma wp_dhcp_inc_pcb_refcount c (Q : Z -> Client -> Prop) :
  pcb_ok false c ->
  (forall c', c' = set_pcb 1 true (next_question c) -> Q ERR_OK c') -> Q ERR_MEM (next_question c) -> wp (dhcp_inc_pcb_refcount env) Q c.
Proof.
  intros [Hr Hp] Hok Hno. unfold dhcp_inc_pcb_refcount. wp_steps. rewrite Hr. cbn [Z.eqb]. wp_steps. destruct (has_memory _ _); cbn [negb].
  - wp_steps. cbn [when]. wp_steps. cbn [dhcp_pcb_refcount set_pcb next_question dhcp_pcb]. rewrite Hr. by apply Hok.
  - wp_steps. done.
Qed.

Lemma wp_dhcp_start c (Q : Z -> Client -> Prop) :
  client_ok c ->
  (forall r c', client_ok c' -> c_netif c' = c_netif c -> view c' = view c \/ fresh (ip_addr (c_netif c)) (view c') -> Q r c') ->
  wp (dhcp_start env) Q c.
Proof.
  intros Hc HQ. pose proof Hc as [Hn Ho Hd]. unfold dhcp_start. wp_step. wp_step. destruct (negb (netif_is_up _)); [wp_steps; apply HQ; auto|].
  wp_step. wp_step. destruct (mtu _ <? _); [wp_steps; apply HQ; auto|].
  assert (forall c1, c_netif c1 = c_netif c -> c_out c1 = c_out c -> pcb_ok false c1 -> wp (modify (set_dhcp (Some no_dhcp)) ;;
    let* result := dhcp_inc_pcb_refcount env in
    if negb (result =? ERR_OK) then ret ERR_MEM else
    upd (set_pcb_allocated true) ;;
    if negb (netif_is_link_up (c_netif c)) then upd (dhcp_set_state DHCP_STATE_INIT) ;; ret ERR_OK else
    let* result := dhcp_discover env in
    if negb (result =? ERR_OK) then dhcp_release_and_stop env ;; ret ERR_MEM else ret result)%fw Q c1) as Hend.
  { intros c1 N1 O1 P1. wp_steps. apply wp_dhcp_inc_pcb_refcount; [done| |].
    - intros c2 ->. cbn [negb Z.eqb ERR_OK]. rewrite <- N1.
      apply (wp_fresh (set_pcb 1 true (next_question (set_dhcp (Some no_dhcp) c1)))); [by rewrite <- N1 in Hn|by rewrite <- O1 in Ho|done..|].
      intros r c' Hok N F. cbn in N, F. apply HQ; [done|by rewrite N, N1|right; by rewrite <- N1].
    - cbn [negb Z.eqb ERR_OK ERR_MEM]. wp_steps. apply HQ; [|done|right].
      + split; cbn; [by rewrite N1|by rewrite O1|]. split; [|done]. split; cbn; try done; lia.
      + exists DHCP_STATE_OFF, 0, 0. split; [set_solver|]. split; [done|]. cbn. by rewrite <- N1. }
  destruct (c_dhcp c) as [d|] eqn:Ed.
  - destruct Hd as [Hd Hp]. wp_step. wp_step. unfold dhcp_dec_pcb_refcount. destruct (pcb_allocated d); cbn [when].
    + wp_steps. cbn. destruct Hp as [-> _]. change (u8 (1 - 1) =? 0) with true. cbn [when]. wp_steps. cbn [negb]. by apply Hend.
    + wp_steps. cbn [negb]. by apply Hend.
  - wp_steps. destruct (has_memory _ _); cbn [negb]; [by apply Hend|].
    wp_steps. apply HQ; [split; [done..|cbn; by rewrite Ed]|done|by left].
Qed.

Lemma wp_restart c d Q :
  running c d -> state d <> DHCP_STATE_OFF ->
  (forall c', client_ok c' -> fresh 0 (view c') -> Q tt c') -> wp (restart env) Q c.
Proof.
  intros Hr Hs HQ. unfold restart. wp_step. eapply wp_mono; [by eapply wp_release_and_stop|]. intros _ c1 [[Hok (d1 & E1 & x & V1)] P1].
  wp_steps. apply wp_dhcp_start; [done|]. intros r c2 Hok2 N2 HV. wp_steps. apply HQ; [done|].
  assert (ip_addr (c_netif c1) = 0) as I1 by (unfold view, view_of in V1; congruence). rewrite I1 in HV.
  destruct HV as [HV|HV]; [|done]. rewrite HV, V1. exists DHCP_STATE_OFF, 0, x. split; [set_solver|]. done.
Qed.
End handlers.
