(* ===== verification/DhcpRefine.v ===== *)
(** * The DHCP client refines its state diagram

    The events that reach the client, what they may do to what the rest of the
    world sees of it, and the proof that every handler does that. *)

From S2P Require Import Prelude LwipErr Netif DhcpMsg DhcpMsgSpec Dhcp DhcpWp DhcpSpec.
#[local] Open Scope Z_scope.

(** ** Events *)
Inductive Event :=
| Start | Stop | Fine | Coarse | Recv (p : list Z) | ArpReply (addr : Z) | LinkUp | LinkDown | SetUp | SetDown | Inform.

Definition handle (env : Env) (e : Event) : M unit :=
  match e with
  | Start => bind (dhcp_start env) (fun _ => ret tt)
  | Stop => dhcp_stop env
  | Fine => dhcp_fine_tmr env
  | Coarse => dhcp_coarse_tmr env
  | Recv p => dhcp_recv env [p]
  | ArpReply a => dhcp_arp_reply env a
  | LinkUp => netif_set_link_up env
  | LinkDown => upd_netif netif_set_link_down
  | SetUp => upd_netif netif_set_up
  | SetDown => upd_netif netif_set_down
  | Inform => dhcp_inform env
  end.
(** A message is in one pbuf, as the interface delivers its frames. *)
Definition event_ok (e : Event) : Prop := match e with Recv p => bytes p /\ Z.of_nat (length p) < 65535 | _ => True end.

(** ** The state diagram *)

(** The type and the address of a reply. *)
Definition reply (p : list Z) : option (Z * Z) :=
  match dhcp_parse_reply [p] with Some (inl g) => t ← g IDX_MSG_TYPE; Some (u8 t, be_of (field p 16 4)) | _ => None end.

(** The messages that timers, ARP and the link make the client send. *)
Definition edge (e : Event) (s s' : dhcp_state_enum_t) : bool :=
  match e, s, s' with
  | Fine, (DHCP_STATE_BACKING_OFF | DHCP_STATE_SELECTING | DHCP_STATE_REBOOTING), DHCP_STATE_SELECTING
  | Fine, DHCP_STATE_REQUESTING, DHCP_STATE_REQUESTING
  | Fine, DHCP_STATE_CHECKING, DHCP_STATE_CHECKING
  | Fine, DHCP_STATE_REBOOTING, DHCP_STATE_REBOOTING
  | Coarse, (DHCP_STATE_REQUESTING | DHCP_STATE_BOUND | DHCP_STATE_RENEWING), DHCP_STATE_RENEWING
  | Coarse, (DHCP_STATE_REQUESTING | DHCP_STATE_BOUND | DHCP_STATE_RENEWING | DHCP_STATE_REBINDING), DHCP_STATE_REBINDING
  | ArpReply _, DHCP_STATE_CHECKING, DHCP_STATE_BACKING_OFF
  | LinkUp, (DHCP_STATE_REBINDING | DHCP_STATE_RENEWING | DHCP_STATE_BOUND | DHCP_STATE_REBOOTING), DHCP_STATE_REBOOTING
  | LinkUp, (DHCP_STATE_INIT | DHCP_STATE_SELECTING | DHCP_STATE_REQUESTING | DHCP_STATE_CHECKING | DHCP_STATE_BACKING_OFF), DHCP_STATE_SELECTING
    => true
  | _, _, _ => false
  end.
(** The states in which a reply counts. *)
Definition acks (s : dhcp_state_enum_t) : bool :=
  match s with DHCP_STATE_REQUESTING | DHCP_STATE_REBOOTING | DHCP_STATE_REBINDING | DHCP_STATE_RENEWING => true | _ => false end.

(** The minutes of the lease that have passed. *)
Definition used_after (e : Event) (v : View) : Z :=
  match e with
  | Coarse => if negb (v_t0 v =? 0) && negb (bool_decide (v_state v = DHCP_STATE_OFF)) then v_used v + 1 else v_used v
  | _ => v_used v
  end.
(** The lease goes on. *)
Definition same_lease (e : Event) (v v' : View) : Prop := v_t0 v' = v_t0 v /\ v_used v' = used_after e v.

Inductive spec_step : Event -> View -> View -> Prop :=
| SIdle e v v' : v_state v' = v_state v -> v_ip v' = v_ip v -> v_offered v' = v_offered v -> same_lease e v v' -> spec_step e v v'
| SSend e v v' :
    edge e (v_state v) (v_state v') = true -> v_ip v' = v_ip v -> same_lease e v v' -> 0 < v_timer v' ->
    v_offered v' = (if decide (v_state v' = DHCP_STATE_SELECTING) then 0 else v_offered v) -> spec_step e v v'
| SOffer p y v v' :
    reply p = Some (DHCP_OFFER, y) -> be_of (field p 4 4) = v_xid v -> v_state v = DHCP_STATE_SELECTING ->
    v_state v' = DHCP_STATE_REQUESTING -> v_offered v' = y -> v_ip v' = v_ip v -> same_lease (Recv p) v v' -> 0 < v_timer v' -> spec_step (Recv p) v v'
| SCheck p y v v' :
    reply p = Some (DHCP_ACK, y) -> be_of (field p 4 4) = v_xid v -> v_state v = DHCP_STATE_REQUESTING ->
    v_state v' = DHCP_STATE_CHECKING -> v_offered v' = y -> v_ip v' = v_ip v -> same_lease (Recv p) v v' -> 0 < v_timer v' -> spec_step (Recv p) v v'
| SBind p y v v' :
    reply p = Some (DHCP_ACK, y) -> be_of (field p 4 4) = v_xid v -> acks (v_state v) = true ->
    v_state v' = DHCP_STATE_BOUND -> v_offered v' = y -> v_ip v' = y -> v_used v' = 0 -> spec_step (Recv p) v v'
| SNak p y v v' :
    reply p = Some (DHCP_NAK, y) -> be_of (field p 4 4) = v_xid v -> acks (v_state v) = true ->
    v_state v' = DHCP_STATE_SELECTING -> v_ip v' = 0 -> same_lease (Recv p) v v' -> 0 < v_timer v' -> spec_step (Recv p) v v'
| SUnused v v' :
    v_state v = DHCP_STATE_CHECKING -> v_state v' = DHCP_STATE_BOUND -> v_offered v' = v_offered v -> v_ip v' = v_offered v -> v_used v' = 0 ->
    spec_step Fine v v'
| SAgain v v' : v_state v = DHCP_STATE_REQUESTING -> fresh 0 v' -> spec_step Fine v v'
| SExpire v v' : v_state v <> DHCP_STATE_OFF -> v_t0 v <> 0 -> v_used v + 1 = v_t0 v -> fresh 0 v' -> spec_step Coarse v v'
| SStart v v' : fresh (v_ip v) v' -> spec_step Start v v'
| SStop v v' x : v' = mkView DHCP_STATE_OFF 0 0 0 0 0 x -> spec_step Stop v v'.

Section handlers.
Context (env : Env).

(** What a handler owes. *)
Definition steps (e : Event) (c c' : Client) : Prop := client_ok c' /\ spec_step e (view c) (view c').
#[local] Notation "'handles' e c" := (fun _ c' => steps e c c') (at level 10, e at level 9, c at level 9).

Lemma idle_step e c c' :
  client_ok c' -> c_dhcp c' = c_dhcp c -> ip_addr (c_netif c') = ip_addr (c_netif c) -> e <> Coarse -> steps e c c'.
Proof.
  intros Hok Hd Hi He. split; [done|]. unfold view, view_of. rewrite Hd, Hi. by apply SIdle; [..|split; [|destruct e]].
Qed.

(** Sending from [c1], which differs from [c] in tries, timers and the lease
    that [e] has used. *)
Lemma send_step {A} e s f (m : M A) c c1 d d1 :
  moves s f m -> running c1 d1 -> lease_ok (timers d1) -> c_dhcp c = Some d -> ip_addr (c_netif c1) = ip_addr (c_netif c) ->
  edge e (state d) s = true ->
  t0_timeout (timers d1) = t0_timeout (timers d) -> lease_used (timers d1) = used_after e (view_of (c_netif c) d) ->
  (forall o, offered_ip_addr (f o) = if decide (s = DHCP_STATE_SELECTING) then 0 else offered_ip_addr o) -> offer d1 = offer d ->
  wp m (fun _ c' => steps e c c' /\ is_Some (c_dhcp c')) c1.
Proof.
  intros Hm Hr Hl Hd N Hedge Ht0 Hused Hf Ho.
  assert (used_state s = true /\ s <> DHCP_STATE_OFF /\ s <> DHCP_STATE_BOUND) as (Hu & Hoff & Hb)
    by (destruct e, (state d), s; cbn in Hedge; try discriminate Hedge; done).
  apply (wp_moves s f m c1 d1); [done..|]. intros r c' d' Hr' Hok N' [M1 M2 M3 M4 M5 M6].
  split; [split; [done|]|rewrite (r_dhcp _ _ Hr'); by eexists].
  rewrite (view_dhcp c d Hd), (view_dhcp c' d') by apply Hr'. unfold view_of. rewrite N', N, M1, M3, M4, Ho, Hf, Ht0, Hused.
  apply SSend; cbn; try done; lia.
Qed.
Lemma same_step e c : client_ok c -> e <> Coarse -> steps e c c.
Proof. intros. by apply idle_step. Qed.

(** A client whose timers alone changed. *)
Lemma timer_step e c d d' :
  client_ok c -> c_dhcp c = Some d -> state d' = state d -> pcb_allocated d' = pcb_allocated d -> tries d' = tries d -> offer d' = offer d ->
  0 <= request_timeout d' < 65536 -> (waits (state d) = true -> 0 < request_timeout d') -> lease_ok (timers d') ->
  t0_timeout (timers d') = t0_timeout (timers d) -> lease_used (timers d') = used_after e (view_of (c_netif c) d) ->
  steps e c (set_dhcp (Some d') c).
Proof.
  intros Hok Hd S P T O R W L T0 U. pose proof Hok as [Hn Ho Hc]. rewrite Hd in Hc. destruct Hc as [Hc Hp]. split.
  - split; [done|done|]. cbn. rewrite P. split; [|done]. destruct Hc as [A B C D E F G].
    split; rewrite ?S, ?P, ?T, ?O; done.
  - rewrite (view_dhcp c d Hd), (view_dhcp (set_dhcp (Some d') c) d') by done. unfold view_of. cbn [c_netif set_dhcp].
    apply SIdle; cbn; try congruence. split; [exact T0|exact U].
Qed.

(** The client while its timer goes off. *)
Lemma running_set c d d' :
  running c d -> pcb_allocated d' = pcb_allocated d -> 0 <= tries d' <= 255 -> 0 <= request_timeout d' < 65536 -> running (set_dhcp (Some d') c) d'.
Proof. intros [Hd Hn Ho Ha Hp Ht Hr] P T R. split; try done. congruence. Qed.

Lemma unused_step c c1 c' d d' (Hd : c_dhcp c = Some d) :
  state d = DHCP_STATE_CHECKING -> client_ok c' -> c_dhcp c' = Some d' ->
  view c' = mkView DHCP_STATE_BOUND (offered_ip_addr (offer d)) (offered_ip_addr (offer d)) c1 0 (request_timeout d') (xid d) -> steps Fine c c'.
Proof.
  intros Hs Hok Hd' HV. split; [done|]. rewrite HV, (view_dhcp c d Hd). by apply SUnused.
Qed.

Lemma dhcp_fine_tmr_handles c : client_ok c -> wp (dhcp_fine_tmr env) (handles Fine c) c.
Proof.
  intros Hok. unfold dhcp_fine_tmr. wp_step. wp_step. destruct (c_dhcp c) as [d|] eqn:Hd; [|wp_step; by apply same_step].
  pose proof Hok as [Hn Ho Hc]. rewrite Hd in Hc. destruct Hc as [Hc Hp]. pose proof Hc as [K1 K2 K3 K4 K5 K6 K7].
  destruct (request_timeout d >? 1) eqn:Hgt; [|destruct (request_timeout d =? 1) eqn:Heq].
  - wp_steps. bool_to_prop. rewrite Z.gtb_ltb, Z.ltb_lt in Hgt. apply (timer_step _ c d); try done; cbn; lia.
  - bool_to_prop. wp_steps. set (d1 := set_request_timeout _ d). set (c1 := set_dhcp (Some d1) c).
    unfold dhcp_timeout. wp_steps.
    destruct (decide (state d = DHCP_STATE_OFF)) as [Hoff|Hoff].
    { cbn [state d1 set_request_timeout]. rewrite Hoff. wp_step. apply (timer_step _ c d); try done; cbn; first [lia|by rewrite Hoff]. }
    destruct (client_ok_running c d Hok Hd Hoff) as [Hr _].
    assert (running c1 d1) as Hr1 by (apply (running_set c d); cbn; (done || lia)).
    change (state d1) with (state d). destruct (state d) eqn:Hs; try (wp_step; apply (timer_step _ c d); try done; cbn; first [lia|by rewrite Hs]).
    + destruct (tries d1 <=? 5).
      * wp_steps. eapply wp_mono; [apply (send_step Fine _ _ _ c c1 d d1 (dhcp_select_moves env)); rewrite ?Hs; done|]. intros r c' [H _]. by wp_steps.
      * apply (wp_restart env c1 d1); [done|cbn; congruence|]. intros c' Hok' Hf. split; [done|].
        rewrite (view_dhcp c d Hd). by apply SAgain.
    + destruct (tries d1 <? REBOOT_TRIES); wp_steps.
      * eapply wp_mono; [apply (send_step Fine _ _ _ c c1 d d1 (dhcp_reboot_moves env)); rewrite ?Hs; done|]. intros r c' [H _]. by wp_steps.
      * eapply wp_mono; [apply (send_step Fine _ _ _ c c1 d d1 (dhcp_discover_moves env)); rewrite ?Hs; done|]. intros r c' [H _]. by wp_steps.
    + wp_steps. eapply wp_mono; [apply (send_step Fine _ _ _ c c1 d d1 (dhcp_discover_moves env)); rewrite ?Hs; done|]. intros r c' [H _]. by wp_steps.
    + destruct (tries d1 <=? 1).
      * eapply wp_mono; [apply (send_step Fine _ _ _ c c1 d d1 dhcp_check_moves); rewrite ?Hs; done|]. by intros r c' [H _].
      * apply (wp_bind_address c1 d1); [done|done|]. intros c' d' Hr' Hok' _ _ HV.
        eapply (unused_step c _ c' d d' Hd Hs Hok'); [apply Hr'|exact HV].
    + wp_steps. eapply wp_mono; [apply (send_step Fine _ _ _ c c1 d d1 (dhcp_discover_moves env)); rewrite ?Hs; done|]. intros r c' [H _]. by wp_steps.
  - wp_step. by apply same_step.
Qed.
(** Setting the renewal and rebinding counters does not show. *)
Lemma retime_step e c c' d' g :
  steps e c c' -> c_dhcp c' = Some d' -> (forall t, t0_timeout (g t) = t0_timeout t /\ lease_used (g t) = lease_used t) ->
  steps e c (set_dhcp (Some (set_timers g d')) c').
Proof.
  intros [[Hn Ho Hc] Hstep] Hd Hg. rewrite Hd in Hc. destruct Hc as [[A B C D E F G] Hp]. destruct (Hg (timers d')) as [G1 G2]. split.
  - split; [done|done|]. cbn. split; [|done]. split; try done. unfold lease_ok in *. cbn. by rewrite G1, G2.
  - rewrite (view_dhcp c' d' Hd) in Hstep. rewrite (view_dhcp (set_dhcp (Some (set_timers g d')) c') (set_timers g d')) by done. unfold view_of in *. cbn in *.
    by rewrite G1, G2.
Qed.

Lemma wp_send_retime {A} e c c1 (m : M A) g :
  wp m (fun _ c' => steps e c c' /\ is_Some (c_dhcp c')) c1 ->
  (forall t, t0_timeout (g t) = t0_timeout t /\ lease_used (g t) = lease_used t) ->
  wp (bind m (fun _ => upd (set_timers g))) (handles e c) c1.
Proof.
  intros Hm Hg. apply wp_bind. eapply wp_mono; [exact Hm|]. intros a c' [H [d' Hd']]. eapply wp_upd; [exact Hd'|]. by apply retime_step.
Qed.

(** The client while a minute of the lease is counted. *)
Record counted (c c1 : Client) (d d1 : dhcp) : Prop := {
  n_running : running c1 d1; n_netif : c_netif c1 = c_netif c; n_state : state d1 = state d; n_offer : offer d1 = offer d;
  n_t0 : t0_timeout (timers d1) = t0_timeout (timers d); n_used : lease_used (timers d1) = used_after Coarse (view_of (c_netif c) d);
  n_lease : lease_ok (timers d1); n_timer : request_timeout d1 = request_timeout d; n_on : state d <> DHCP_STATE_OFF
}.

Lemma counted_step c c1 d d1 : client_ok c -> c_dhcp c = Some d -> counted c c1 d d1 -> steps Coarse c c1.
Proof.
  intros Hok Hd [Hr N S O T0 U L T Hon]. pose proof Hok as [_ _ Hc]. rewrite Hd in Hc. destruct Hc as [[A B C D E F G] _].
  destruct Hr as [Hd1 Hn1 Ho1 Ha1 Hp1 Ht1 Hr1]. split.
  - split; [done|done|]. rewrite Hd1, Ha1. split; [|done]. split; rewrite ?S, ?T, ?O, ?N; try done.
    rewrite Ha1. by rewrite bool_decide_false.
  - rewrite (view_dhcp c d Hd), (view_dhcp c1 d1 Hd1). unfold view_of. rewrite N.
    apply SIdle; cbn; try congruence. split; [exact T0|exact U].
Qed.

Lemma retime_counted c c1 d d1 g :
  counted c c1 d d1 -> (forall t, t0_timeout (g t) = t0_timeout t /\ lease_used (g t) = lease_used t) ->
  counted c (set_dhcp (Some (set_timers g d1)) c1) d (set_timers g d1).
Proof.
  intros [Hr N S O T0 U L T Hon] Hg. destruct (Hg (timers d1)) as [G1 G2]. split; try done.
  - by apply (running_set c1 d1); [..|apply Hr|apply Hr].
  - cbn. congruence.
  - cbn [set_timers timers]. congruence.
  - unfold lease_ok in *. cbn. by rewrite G1, G2.
Qed.

Lemma counted_send {A} s f (m : M A) c c1 d d1 :
  moves s f m -> counted c c1 d d1 -> c_dhcp c = Some d -> edge Coarse (state d) s = true ->
  (forall o, offered_ip_addr (f o) = if decide (s = DHCP_STATE_SELECTING) then 0 else offered_ip_addr o) ->
  wp m (fun _ c' => steps Coarse c c' /\ is_Some (c_dhcp c')) c1.
Proof. intros Hm [Hr N S O T0 U L T Hon] Hd He Hf. apply (send_step Coarse s f m c c1 d d1); try done. by rewrite N. Qed.

(** The counters of renewal and rebinding, after the minute is counted. *)
Lemma dhcp_t2_timeout_handles c c1 d d1 :
  client_ok c -> c_dhcp c = Some d -> counted c c1 d d1 -> wp (dhcp_t2_timeout env) (handles Coarse c) c1.
Proof.
  intros Hok Hd Hn. pose proof (counted_step c c1 d d1 Hok Hd Hn) as Hidle. unfold dhcp_t2_timeout. wp_step.
  eapply wp_the_dhcp; [apply Hn|]. pose proof (n_state _ _ _ _ Hn) as Hs.
  destruct (state d1) eqn:Hs1; try (by wp_step); (apply wp_send_retime; [|done]);
    (eapply counted_send; [apply dhcp_rebind_moves|done|done| |done]); by rewrite <- Hs.
Qed.

Lemma dhcp_t1_timeout_handles c c1 d d1 :
  client_ok c -> c_dhcp c = Some d -> counted c c1 d d1 -> wp (dhcp_t1_timeout env) (handles Coarse c) c1.
Proof.
  intros Hok Hd Hn. pose proof (counted_step c c1 d d1 Hok Hd Hn) as Hidle. unfold dhcp_t1_timeout. wp_step.
  eapply wp_the_dhcp; [apply Hn|]. pose proof (n_state _ _ _ _ Hn) as Hs.
  destruct (state d1) eqn:Hs1; try (by wp_step); (apply wp_send_retime; [|done]);
    (eapply counted_send; [apply dhcp_renew_moves|done|done| |done]); by rewrite <- Hs.
Qed.

Lemma dhcp_coarse_tail c d c1 d1 t2 t1 :
  client_ok c -> c_dhcp c = Some d -> counted c c1 d d1 ->
  wp (when (negb (t2 =? 0)) (upd (set_timers (set_t2_rebind_time (u16 (t2 - 1))))) ;;
      if t2 =? 1 then dhcp_t2_timeout env else
      when (negb (t1 =? 0)) (upd (set_timers (set_t1_renew_time (u16 (t1 - 1))))) ;;
      if t1 =? 1 then dhcp_t1_timeout env else ret tt)%fw (handles Coarse c) c1.
Proof.
  intros Hok Hd Hn. wp_step.
  assert (forall c2 d2, counted c c2 d d2 -> wp (if t2 =? 1 then dhcp_t2_timeout env else
      when (negb (t1 =? 0)) (upd (set_timers (set_t1_renew_time (u16 (t1 - 1))))) ;;
      if t1 =? 1 then dhcp_t1_timeout env else ret tt)%fw (handles Coarse c) c2) as Hrest.
  { intros c2 d2 Hn2. destruct (t2 =? 1); [by eapply dhcp_t2_timeout_handles|]. wp_step.
    assert (forall c3 d3, counted c c3 d d3 -> wp (if t1 =? 1 then dhcp_t1_timeout env else ret tt) (handles Coarse c) c3) as Hlast.
    { intros c3 d3 Hn3. destruct (t1 =? 1); [by eapply dhcp_t1_timeout_handles|]. wp_step. by eapply counted_step. }
    apply wp_when; intros _; [|by eapply Hlast]. eapply wp_upd; [apply Hn2|]. by eapply Hlast, retime_counted. }
  apply wp_when; intros _; [|by eapply Hrest]. eapply wp_upd; [apply Hn|]. by eapply Hrest, retime_counted.
Qed.

Lemma dhcp_coarse_tmr_handles c : client_ok c -> wp (dhcp_coarse_tmr env) (handles Coarse c) c.
Proof.
  intros Hok. unfold dhcp_coarse_tmr. wp_step. wp_step. destruct (c_dhcp c) as [d|] eqn:Hd.
  2: { wp_step. split; [done|]. unfold view. rewrite Hd. by apply SIdle. }
  destruct (decide (state d = DHCP_STATE_OFF)) as [Hoff|Hoff].
  { rewrite bool_decide_true by done. wp_step. split; [done|]. rewrite (view_dhcp c d Hd). apply SIdle; try done. split; [done|].
    unfold view_of, used_after. cbn. by rewrite Hoff, andb_false_r. }
  rewrite bool_decide_false by done. cbv zeta. destruct (client_ok_running c d Hok Hd Hoff) as [Hr Hc]. destruct (ok_lease _ _ Hc) as [Hl1 Hl2].
  destruct (t0_timeout (timers d) =? 0) eqn:Ht0; cbn [negb when andb].
  - wp_step. wp_step. apply (dhcp_coarse_tail c d c d); [done..|]. bool_to_prop. split; try done.
    unfold view_of, used_after. cbn. by rewrite Ht0.
  - bool_to_prop. specialize (Hl2 Ht0). assert (u16 (lease_used (timers d) + 1) = lease_used (timers d) + 1) as -> by (apply u16_small; lia).
    wp_step. wp_step. set (d1 := set_timers _ d). set (c1 := set_dhcp (Some d1) c).
    assert (running c1 d1) as Hr1 by (apply (running_set c d); [done|done|apply Hr|apply Hr]).
    destruct (Z.eqb_spec (lease_used (timers d) + 1) (t0_timeout (timers d))) as [Hexp|Hexp].
    + apply (wp_restart env c1 d1); [done|done|]. intros c' Hok' Hf. split; [done|]. rewrite (view_dhcp c d Hd). by apply SExpire.
    + apply (dhcp_coarse_tail c d c1 d1); [done..|]. split; try done; [|split; cbn; lia].
      unfold view_of, used_after. cbn. by rewrite (proj2 (Z.eqb_neq _ _) Ht0), bool_decide_false.
Qed.

(** A reply that binds the client. *)
Lemma bind_step p y c c1 d d1 :
  client_ok c -> c_dhcp c = Some d -> reply p = Some (DHCP_ACK, y) -> be_of (field p 4 4) = xid d -> acks (state d) = true ->
  running c1 d1 -> lease_ok (timers d1) -> offered_ip_addr (offer d1) = y -> wp dhcp_bind (handles (Recv p) c) c1.
Proof.
  intros Hok Hd Hp Hx Ha Hr1 Hl Ho. apply (wp_bind_address c1 d1); [done|done|]. intros c' d' Hr' Hok' _ _ HV. split; [done|].
  rewrite HV, (view_dhcp c d Hd), Ho. by apply (SBind p y).
Qed.

(** A reply that makes the client send. *)
Lemma reply_step {A} p c c1 d1 s f (m : M A) :
  moves s f m -> running c1 d1 -> lease_ok (timers d1) -> used_state s = true -> s <> DHCP_STATE_OFF -> s <> DHCP_STATE_BOUND ->
  (forall c' d', client_ok c' -> running c' d' -> c_netif c' = c_netif c1 -> moved s f d1 d' ->
     spec_step (Recv p) (view c) (view c')) ->
  wp m (handles (Recv p) c) c1.
Proof. intros Hm Hr Hl Hu Hoff Hb Hstep. apply (wp_moves s f m c1 d1); [done..|]. intros r c' d' Hr' Hok N Hmv. split; [done|]. by eapply Hstep. Qed.

Lemma dhcp_dispatch_handles p g c d t y :
  client_ok c -> c_dhcp c = Some d -> state d <> DHCP_STATE_OFF -> reply p = Some (t, y) -> be_of (field p 4 4) = xid d ->
  wp (dhcp_dispatch env g y t) (handles (Recv p) c) c.
Proof.
  intros Hok Hd Hoff Hrep Hx. destruct (client_ok_running c d Hok Hd Hoff) as [Hr Hc]. pose proof (ok_lease _ _ Hc) as Hl.
  pose proof (ok_tries _ _ Hc) as Htr. pose proof (ok_timer _ _ Hc) as Htm.
  assert (steps (Recv p) c c) as Hidle by (by apply same_step).
  unfold dhcp_dispatch. wp_step. wp_step. destruct (Z.eqb_spec t DHCP_ACK) as [->|Hnack].
  - set (d1 := set_offer (ack_offer g y) d). set (c1 := set_dhcp (Some d1) c).
    assert (running c1 d1) as Hr1 by (by apply (running_set c d)).
    destruct (state d) eqn:Hs; try (by wp_step); unfold dhcp_handle_ack; wp_steps;
      try (eapply (bind_step p y c c1 d d1); try done; by rewrite Hs).
    destruct (has_flag _ _); [|eapply (bind_step p y c c1 d d1); try done; by rewrite Hs].
    apply (reply_step p c c1 d1 _ _ _ dhcp_check_moves); try done. intros c' d' _ Hr' N [M1 M2 M3 M4 M5 M6].
    rewrite (view_dhcp c d Hd), (view_dhcp c' d') by apply Hr'. apply (SCheck p y); cbn; rewrite ?N, ?M1, ?M3, ?M4; try done; [|lia]. split; cbn; by rewrite M3.
  - assert (state d = DHCP_STATE_REQUESTING \/ state d = DHCP_STATE_REBOOTING \/ state d = DHCP_STATE_REBINDING \/ state d = DHCP_STATE_RENEWING ->
      t = DHCP_NAK -> wp (dhcp_handle_nak env) (handles (Recv p) c) c) as Hnak.
    { intros Hs ->. unfold dhcp_handle_nak. wp_steps. set (d1 := dhcp_set_state DHCP_STATE_BACKING_OFF d).
      destruct (dhcp_set_state_fields DHCP_STATE_BACKING_OFF d) as (S1 & S2 & S3 & S4 & S5). fold d1 in S1, S2, S3, S4, S5.
      destruct (netif_set_addr_sets (Some 0) (Some 0) (Some 0) (c_netif c)) as (P & I & _). cbn [or_any default from_option id] in I.
      set (n' := netif_set_addr _ _ _ _) in *. assert (netif_ok n') as Hn' by (unfold netif_ok; rewrite (proj1 (proj2 P)); apply Hr). clearbody n'.
      eapply wp_mono; [apply (reply_step p c _ d1 _ _ _ (dhcp_discover_moves env))|intros r c' H; by wp_steps]; try done.
      - split; try done; [apply Hr|by rewrite S2; apply Hr|apply Hr|by apply S5|].
        unfold d1, dhcp_set_state. destruct (decide _); cbn; lia.
      - by rewrite S3.
      - intros c' d' _ Hr' N [M1 M2 M3 M4 M5 M6]. rewrite (view_dhcp c d Hd), (view_dhcp c' d') by apply Hr'.
        apply (SNak p y); cbn; rewrite ?N, ?M1, ?M3, ?S3; try done; [| |lia]; [by destruct Hs as [->|[->|[->| ->]]]|]. split; cbn; by rewrite M3, S3. }
    assert (state d = DHCP_STATE_SELECTING -> t = DHCP_OFFER -> wp (dhcp_handle_offer env g y) (handles (Recv p) c) c) as Hoffer.
    { intros Hs ->. unfold dhcp_handle_offer. destruct (g IDX_SERVER_ID) as [srv|]; [|by wp_step]. wp_steps.
      set (d1 := set_offer (set_offered_ip y) _). set (c1 := set_dhcp (Some d1) _).
      assert (running c1 d1) as Hr1 by (split; try done; apply Hr).
      eapply wp_mono; [apply (reply_step p c c1 d1 _ _ _ (dhcp_select_moves env))|intros r c' H; by wp_steps]; try done.
      intros c' d' _ Hr' N [M1 M2 M3 M4 M5 M6]. rewrite (view_dhcp c d Hd), (view_dhcp c' d') by apply Hr'.
      apply (SOffer p y); cbn; rewrite ?N, ?M1, ?M3, ?M4; try done; [|lia]. split; cbn; by rewrite M3. }
    destruct (state d) eqn:Hs; try (by wp_step); apply wp_when; intros Ht; try exact Hidle; bool_to_prop; auto.
Qed.

Lemma dhcp_recv_handles p c : client_ok c -> event_ok (Recv p) -> wp (dhcp_recv env [p]) (handles (Recv p) c) c.
Proof.
  intros Hok [Hb Hl]. assert (steps (Recv p) c c) as Hidle by (by apply same_step). unfold dhcp_recv. wp_step. wp_step.
  destruct (c_dhcp c) as [d|] eqn:Hd; [|by wp_step]. destruct (pcb_allocated d) eqn:Ha; cbn [negb]; [|by wp_step].
  wp_steps. eapply wp_lift; [reflexivity|]. destruct (for_us _ d p) eqn:Hus; cbn [negb]; [|by wp_step].
  destruct (dhcp_parse_reply_total p Hb Hl) as [r Hparse]. wp_step. eapply wp_lift; [exact Hparse|]. destruct r as [g|e]; [|by wp_step].
  destruct (g IDX_MSG_TYPE) as [t|] eqn:Ht; [|by wp_step]. apply (dhcp_dispatch_handles p g c d); [done..| | |].
  - intros Hoff. destruct Hok as [_ _ Hc]. rewrite Hd in Hc. destruct Hc as [Hc _]. rewrite (ok_pcb _ _ Hc), Hoff in Ha. by rewrite bool_decide_true in Ha.
  - unfold reply. rewrite Hparse. cbn. by rewrite Ht.
  - unfold for_us in Hus. by bool_to_prop.
Qed.

(** A change of the interface that keeps its address. *)
Lemma netif_step e c c' n' :
  steps e c c' -> same_port (c_netif c') n' \/ hwaddr n' = hwaddr (c_netif c') -> ip_addr n' = ip_addr (c_netif c') -> steps e c (set_netif n' c').
Proof.
  intros [[Hn Ho Hc] Hstep] Hp Hi. assert (hwaddr n' = hwaddr (c_netif c')) as Hh by (destruct Hp as [(_ & H & _)|H]; done). split.
  - split; [unfold netif_ok; cbn; by rewrite Hh|done|]. cbn. destruct (c_dhcp c') as [d'|]; [|done]. destruct Hc as [[A B C D E F G] Hpcb].
    split; [|done]. split; try done. by rewrite Hi.
  - unfold view, view_of in *. cbn. by rewrite Hi.
Qed.

Lemma dhcp_arp_reply_handles a c : client_ok c -> wp (dhcp_arp_reply env a) (handles (ArpReply a) c) c.
Proof.
  intros Hok. assert (steps (ArpReply a) c c) as Hidle by (by apply same_step). unfold dhcp_arp_reply. wp_step. wp_step.
  destruct (c_dhcp c) as [d|] eqn:Hd; [|by wp_step]. apply wp_when; intros Ht; [|exact Hidle]. bool_to_prop.
  assert (state d <> DHCP_STATE_OFF) as Hoff by congruence. destruct (client_ok_running c d Hok Hd Hoff) as [Hr Hc]. wp_steps.
  eapply wp_mono; [apply (send_step (ArpReply a) _ _ _ c c d d (dhcp_decline_moves env)); try done; [apply Hc|]|intros r c' [H' _]; by wp_steps].
  by match goal with H : state d = _ |- _ => rewrite H end.
Qed.

Lemma dhcp_network_changed_handles c c1 :
  client_ok c -> c_dhcp c1 = c_dhcp c -> ip_addr (c_netif c1) = ip_addr (c_netif c) -> client_ok c1 ->
  wp (dhcp_network_changed env) (handles LinkUp c) c1.
Proof.
  intros Hok Hd1 Hi Hok1. unfold dhcp_network_changed. wp_step. wp_step. rewrite Hd1.
  assert (steps LinkUp c c1) as Hidle by (by apply idle_step).
  destruct (c_dhcp c) as [d|] eqn:Hd; [|by wp_step]. destruct (decide (state d = DHCP_STATE_OFF)) as [Hoff|Hoff]; [by rewrite Hoff; wp_step|].
  destruct (client_ok_running c1 d Hok1 Hd1 Hoff) as [Hr Hc]. set (d1 := set_tries 0 d). set (c2 := set_dhcp (Some d1) c1).
  assert (running c2 d1) as Hr1 by (apply (running_set c1 d); [done|done|cbn; lia|apply Hc]).
  assert (lease_ok (timers d1)) as Hl by apply Hc.
  pose proof (ok_used _ _ Hc) as Hu.
  destruct (state d) eqn:Hs; try discriminate Hu; try done; wp_steps;
    (eapply wp_mono;
      [ first [ apply (send_step LinkUp _ _ _ c c2 d d1 (dhcp_reboot_moves env)); rewrite ?Hs; done
              | apply (send_step LinkUp _ _ _ c c2 d d1 (dhcp_discover_moves env)); rewrite ?Hs; done ]
      | intros r c' [H' _]; by wp_steps ]).
Qed.

Lemma netif_set_link_up_handles c : client_ok c -> wp (netif_set_link_up env) (handles LinkUp c) c.
Proof.
  intros Hok. assert (steps LinkUp c c) as Hidle by (by apply same_step). unfold netif_set_link_up. wp_step. wp_step.
  apply wp_when; intros _; [|exact Hidle]. wp_step. wp_step. set (c1 := set_netif _ c). wp_step.
  assert (steps LinkUp c c1) as [Hok1 _] by (by apply netif_step; [|right|]).
  eapply wp_mono; [by apply dhcp_network_changed_handles|]. intros [] c' H. wp_step.
  destruct (netif_issue_reports_keeps (c_netif c')) as (P & I & _). by apply netif_step; [|left|].
Qed.

(** An INFORM message borrows the control block. *)
Lemma dhcp_inform_handles c : client_ok c -> wp (dhcp_inform env) (handles Inform c) c.
Proof.
  intros Hok. pose proof Hok as [Hn Ho Hc]. unfold dhcp_inform. wp_step.
  set (alloc := from_option pcb_allocated false (c_dhcp c)).
  assert (pcb_ok alloc c) as Hp by (unfold alloc; destruct (c_dhcp c); [apply Hc|done]).
  assert (forall c1, c_netif c1 = c_netif c -> c_dhcp c1 = c_dhcp c -> Forall out_ok (c_out c1) -> pcb_ok alloc c1 -> steps Inform c c1) as Hend.
  { intros c1 N D O P. apply idle_step; [|done|by rewrite N|done]. split; [by rewrite N|done|]. rewrite D. unfold alloc in P.
    destruct (c_dhcp c) as [d|]; [|done]. rewrite N. split; [apply Hc|exact P]. }
  assert (forall c1 d', c_netif c1 = c_netif c -> c_dhcp c1 = c_dhcp c -> c_out c1 = c_out c ->
    dhcp_pcb_refcount c1 = (if alloc then 2 else 1) -> dhcp_pcb c1 = true ->
    wp (let* r := dhcp_create_msg env DHCP_INFORM d' in let* n := gets c_netif in
        send env IP_ADDR_BROADCAST r.2 (option_max_msg_size (mtu n)) ;; dhcp_dec_pcb_refcount)%fw (handles Inform c) c1) as Hsend.
  { intros c1 d' N D O R P. wp_step. apply wp_dhcp_create_msg; [by rewrite N|]. intros x p c2 Hp2 N2 R2 P2 D2 O2. wp_steps.
    apply wp_send_raw; [exact Hp2|apply max_msg_size_options|]. intros r c3 N3 R3 P3 D3 (outs & O3 & F3).
    unfold dhcp_dec_pcb_refcount. wp_steps. cbn [dhcp_pcb_refcount set_pcb dhcp_pcb].
    assert (Forall out_ok (c_out c3)) by (rewrite O3, O2, O; by apply Forall_app).
    rewrite R3, R2, R. destruct alloc; cbn [u8 Z.sub]; (apply wp_when; intros Ht; [|]); try done;
      apply Hend; cbn; try congruence; split; cbn; (congruence || reflexivity). }
  destruct alloc eqn:Ha; destruct Hp as [Hr Hpcb].
  - unfold dhcp_inc_pcb_refcount. wp_steps. rewrite Hr. cbn [Z.eqb]. wp_steps. cbn [negb when]. wp_steps. cbn [negb Z.eqb ERR_OK].
    apply Hsend; try done; cbn; by rewrite Hr.
  - apply wp_dhcp_inc_pcb_refcount; [by split| |].
    + intros c' ->. cbn [negb Z.eqb ERR_OK]. by apply Hsend.
    + cbn [negb Z.eqb ERR_OK ERR_MEM]. wp_step. by apply Hend.
Qed.

(** ** The refinement *)

Lemma handle_steps e c : client_ok c -> event_ok e -> wp (handle env e) (handles e c) c.
Proof.
  intros Hok He. destruct e; cbn [handle].
  - wp_step. apply wp_dhcp_start; [done|]. intros r c' Hok' N HV. wp_step. split; [done|]. destruct HV as [HV|HV]; [|by apply SStart].
    rewrite HV. by apply SIdle.
  - unfold dhcp_stop. destruct (c_dhcp c) as [d|] eqn:Hd.
    2: { unfold dhcp_release_and_stop. wp_steps. rewrite Hd. wp_step. by apply same_step. }
    destruct (decide (state d = DHCP_STATE_OFF)) as [Hoff|Hoff].
    { unfold dhcp_release_and_stop. wp_steps. rewrite Hd, bool_decide_true by done. wp_step. by apply same_step. }
    destruct (client_ok_running c d Hok Hd Hoff) as [Hr _]. eapply wp_mono; [by eapply wp_release_and_stop|].
    intros [] c' [[Hok' (d' & Hd' & x & HV)] _]. split; [done|]. by eapply SStop.
  - by apply dhcp_fine_tmr_handles.
  - by apply dhcp_coarse_tmr_handles.
  - by apply dhcp_recv_handles.
  - by apply dhcp_arp_reply_handles.
  - by apply netif_set_link_up_handles.
  - apply wp_upd_netif, netif_step; [by apply same_step|right; unfold netif_set_link_down; by case_match|unfold netif_set_link_down; by case_match].
  - apply wp_upd_netif. unfold netif_set_up. destruct (negb _); [|by apply netif_step; [apply same_step|right|]].
    set (n := set_flags _ _). destruct (netif_issue_reports_keeps n) as ((_ & P & _) & I & _).
    apply netif_step; [by apply same_step|right; by rewrite P|by rewrite I].
  - apply wp_upd_netif, netif_step; [by apply same_step|right; unfold netif_set_down, clear_flag; by repeat case_match|].
    unfold netif_set_down, clear_flag. by repeat case_match.
  - by apply dhcp_inform_handles.
Qed.
End handlers.

(** C33: the DHCP client refines its state diagram.  From a state that keeps the
    invariant every event (start, stop, the two timers, any reply in one pbuf,
    an ARP reply, the link, INFORM) is handled to the end, whatever memory there
    is: nothing is written or read outside of a message; the invariant holds
    again (states that wait have a running timer, a bound client has the offered
    address, the UDP control block is there exactly while the client is not
    off, a finite lease has time left, all messages sent are well-formed); and
    what the rest of the world sees makes a step of the diagram [spec_step]. *)
Theorem dhcp_refines env e c :
  client_ok c -> event_ok e ->
  exists c', handle env e c = Some (tt, c') /\ client_ok c' /\ spec_step e (view c) (view c').
Proof.
  intros Hok He. pose proof (handle_steps env e c Hok He) as H. unfold wp in H.
  destruct (handle env e c) as [[[] c']|]; [|done]. by exists c'.
Qed.

(** ** Runs *)
Fixpoint run (env : Env) (es : list Event) : M unit :=
  match es with [] => ret tt | e :: es => bind (handle env e) (fun _ => run env es) end.

Lemma run_app env es1 es2 : forall c, run env (es1 ++ es2) c = bind (run env es1) (fun _ => run env es2) c.
Proof.
  induction es1 as [|e es1 IH]; intros c; [done|]. cbn. unfold bind in *. destruct (handle env e c) as [[_ c1]|]; [|done]. apply IH.
Qed.

(** A property of what is seen that every step keeps holds after a run. *)
Lemma run_invariant env (P : list Event -> View -> Prop) :
  (forall es e c c', client_ok c -> client_ok c' -> P es (view c) -> event_ok e -> spec_step e (view c) (view c') -> P (es ++ [e]) (view c')) ->
  forall es2 es1 c, client_ok c -> Forall event_ok es2 -> P es1 (view c) ->
    exists c', run env es2 c = Some (tt, c') /\ client_ok c' /\ P (es1 ++ es2) (view c').
Proof.
  intros Hstep. induction es2 as [|e es2 IH]; intros es1 c Hok He HP; inversion He; subst.
  - exists c. rewrite app_nil_r. done.
  - pose proof (handle_steps env e c Hok ltac:(done)) as H. unfold wp in H. cbn [run]. unfold bind.
    destruct (handle env e c) as [[[] c1]|]; [|done]. destruct H as [Hok1 Hs].
    destruct (IH (es1 ++ [e]) c1) as (c' & Hrun & Hok' & HP'); [done|done|by apply (Hstep es1 e c)|]. exists c'. by rewrite <- app_assoc in HP'.
Qed.

(** *** The lease *)
#[export] Instance event_coarse_dec (e : Event) : Decision (e = Coarse).
Proof. destruct e; (by left) || (by right). Defined.
Definition coarse_ticks (es : list Event) : Z := Z.of_nat (length (filter (fun e => e = Coarse) es)).
(** No server acknowledges a lease and nobody starts the client. *)
Definition no_ack (e : Event) : Prop :=
  match e with Recv p => forall y, reply p <> Some (DHCP_ACK, y) | Start => False | _ => True end.

(** The address is gone, or [k] minutes of the lease of [T] have passed. *)
Definition gone (v : View) : Prop := v_ip v = 0 /\ v_state v <> DHCP_STATE_CHECKING /\ v_state v <> DHCP_STATE_BOUND.
Definition held (T k : Z) (v : View) : Prop :=
  v_t0 v = T /\ T <> 0 /\ v_used v = k /\ v_state v <> DHCP_STATE_OFF /\ v_state v <> DHCP_STATE_CHECKING.

Lemma fresh_gone v : fresh 0 v -> gone v.
Proof.
  intros (s & tm & x & Hs & _ & ->). split; [done|]. rewrite !elem_of_cons, elem_of_nil in Hs. cbn. by destruct Hs as [->|[->|[->|[]]]].
Qed.

Lemma edge_gone e s s' : edge e s s' = true -> s <> DHCP_STATE_CHECKING -> s' <> DHCP_STATE_CHECKING /\ s' <> DHCP_STATE_BOUND.
Proof. destruct e, s, s'; cbn; done. Qed.
Lemma edge_on e s s' : edge e s s' = true -> s' <> DHCP_STATE_OFF.
Proof. destruct e, s, s'; cbn; done. Qed.

Lemma gone_step e v v' : spec_step e v v' -> no_ack e -> gone v -> gone v'.
Proof.
  intros Hs Hn (Hip & Hc & Hb). destruct Hs; cbn in Hn; try (exfalso; by eapply Hn); try (by apply fresh_gone); try done.
  - split_and!; congruence.
  - destruct (edge_gone e (v_state v) (v_state v')); [done..|]. split; [congruence|done].
  - split_and!; congruence.
  - split_and!; congruence.
  - by subst.
Qed.

Lemma held_step e T k v v' :
  spec_step e v v' -> no_ack e -> held T k v -> gone v' \/ held T (k + (if decide (e = Coarse) then 1 else 0)) v'.
Proof.
  intros Hs Hn (HT & HT0 & Hk & Hoff & Hc). assert (forall e, used_after e v = k + (if decide (e = Coarse) then 1 else 0)) as Hu.
  { intros e'. destruct (decide (e' = Coarse)) as [->|He'].
    - unfold used_after. rewrite (proj2 (Z.eqb_neq (v_t0 v) 0)), bool_decide_false by (done || lia). cbn. lia.
    - destruct e'; cbn; done || lia. }
  destruct Hs; cbn in Hn; try (exfalso; by eapply Hn); try (left; by apply fresh_gone); try done;
    try match goal with H : same_lease _ _ _ |- _ => destruct H as [L1 L2]; rewrite Hu in L2 end.
  - right. split_and!; congruence.
  - right. destruct (edge_gone e (v_state v) (v_state v')); [done..|]. split_and!; try congruence. by eapply edge_on.
  - right. split_and!; congruence.
  - left. split_and!; congruence.
  - left. by subst.
Qed.

Lemma coarse_ticks_snoc l e : coarse_ticks (l ++ [e]) = coarse_ticks l + (if decide (e = Coarse) then 1 else 0).
Proof. unfold coarse_ticks. rewrite filter_app, length_app. cbn. destruct (decide (e = Coarse)); cbn; lia. Qed.

Lemma client_ok_lease c : client_ok c -> v_t0 (view c) <> 0 -> v_used (view c) < v_t0 (view c).
Proof.
  intros [_ _ Hc] H. unfold view in *. destruct (c_dhcp c) as [d|]; [|done]. destruct Hc as [Hc _]. cbn in *.
  by apply (ok_lease _ _ Hc).
Qed.

(** C34: a lease ends.  A client that is neither off nor still checking its
    address, and whose lease has T - U minutes left, gives the address up within
    that many ticks of the coarse timer: after any sequence of events with so
    many ticks in which no server acknowledges a lease again and nobody starts
    the client again (whatever else happens: lost or refused requests, other
    replies, ARP, link changes, stop, no memory) the interface has no address.
    [DhcpSample.start_forgets_lease] shows that dhcp_start has to be left out. *)
Theorem lease_expires env es c d :
  client_ok c -> c_dhcp c = Some d -> t0_timeout (timers d) <> 0 -> state d <> DHCP_STATE_OFF -> state d <> DHCP_STATE_CHECKING ->
  Forall event_ok es -> Forall no_ack es -> t0_timeout (timers d) - lease_used (timers d) <= coarse_ticks es ->
  exists c', run env es c = Some (tt, c') /\ client_ok c' /\ ip_addr (c_netif c') = 0.
Proof.
  intros Hok Hd HT Hoff Hc He Hn Hticks. set (T := t0_timeout (timers d)) in *. set (U := lease_used (timers d)) in *.
  set (P := fun (l : list Event) (v : View) => Forall no_ack l -> gone v \/ held T (U + coarse_ticks l) v).
  destruct (run_invariant env P) with (es2 := es) (es1 := @nil Event) (c := c) as (c' & Hrun & Hok' & HP); try done.
  - intros l e c1 c1' _ _ HP _ Hs HF. apply Forall_app in HF as [HF He2]. rewrite Forall_singleton in He2.
    destruct (HP HF) as [Hg|Hh]; [left; by eapply gone_step|]. destruct (held_step e T _ _ _ Hs He2 Hh) as [Hg|Hh']; [by left|right].
    by rewrite coarse_ticks_snoc, Z.add_assoc.
  - intros _. right. rewrite (view_dhcp c d Hd). unfold coarse_ticks. cbn. rewrite Z.add_0_r. done.
  - exists c'. split; [done|]. split; [done|]. destruct (HP Hn) as [[Hip _]|(HT' & _ & Hu & _)]; [done|].
    pose proof (client_ok_lease c' Hok') as Hl. rewrite HT', Hu in Hl. cbn [app] in Hl. specialize (Hl HT). lia.
Qed.

(** *** Where the address comes from *)
Definition acked (es : list Event) (a : Z) : Prop := exists p, Recv p ∈ es /\ reply p = Some (DHCP_ACK, a).

Lemma acked_more es e a : acked es a -> acked (es ++ [e]) a.
Proof. intros (p & Hp & Hr). exists p. split; [|done]. apply elem_of_app. by left. Qed.
Lemma acked_last es p a : reply p = Some (DHCP_ACK, a) -> acked (es ++ [Recv p]) a.
Proof. intros Hr. exists p. split; [|done]. apply elem_of_app. right. by apply list_elem_of_singleton. Qed.

Definition sourced (es : list Event) (v : View) : Prop :=
  (v_ip v <> 0 -> acked es (v_ip v)) /\ (v_state v = DHCP_STATE_CHECKING -> acked es (v_offered v)).

Lemma edge_checking e s : edge e s DHCP_STATE_CHECKING = true -> s = DHCP_STATE_CHECKING.
Proof. destruct e, s; cbn; done. Qed.

Lemma fresh_sourced es ip v : fresh ip v -> (ip <> 0 -> acked es ip) -> sourced es v.
Proof.
  intros (s & tm & x & Hs & _ & ->) Hip. split; [exact Hip|]. cbn. intros ->. rewrite !elem_of_cons, elem_of_nil in Hs. by destruct Hs as [|[|[|[]]]].
Qed.

Lemma sourced_step es e v v' : spec_step e v v' -> sourced es v -> sourced (es ++ [e]) v'.
Proof.
  intros Hs [Hip Hch].
  assert (forall w, v_ip w = v_ip v -> v_ip w <> 0 -> acked (es ++ [e]) (v_ip w)) as Hsame by (intros w -> ?; by apply acked_more, Hip).
  destruct Hs; try (eapply fresh_sourced; [eassumption|]; intros; (done || by apply acked_more, Hip)); split; auto; intros Hx; try congruence.
  - match goal with H : v_offered _ = v_offered v |- _ => rewrite H end. apply acked_more, Hch. congruence.
  - rewrite Hx in *. match goal with H : edge _ _ _ = true |- _ => apply edge_checking in H as He end.
    match goal with H : v_offered _ = _ |- _ => rewrite H, decide_False by done end. by apply acked_more, Hch.
  - match goal with H : v_offered _ = _ |- _ => rewrite H end. by apply acked_last.
  - match goal with H : v_ip _ = _ |- _ => rewrite H end. by apply acked_last.
  - match goal with H : v_ip _ = _ |- _ => rewrite H end. by apply acked_more, Hch.
  - by subst.
  - by subst.
Qed.

(** C35: no address without a server.  Starting from an interface without an
    address and a client that is not there yet, after any events: an address of
    the interface is one that a reply of the type ACK among the received ones
    carried. *)
Theorem address_acknowledged env es c :
  client_ok c -> c_dhcp c = None -> ip_addr (c_netif c) = 0 -> Forall event_ok es ->
  exists c', run env es c = Some (tt, c') /\ client_ok c' /\ (ip_addr (c_netif c') <> 0 -> acked es (ip_addr (c_netif c'))).
Proof.
  intros Hok Hd Hip He. destruct (run_invariant env sourced) with (es2 := es) (es1 := @nil Event) (c := c) as (c' & Hrun & Hok' & [HP _]); try done.
  - intros l e c1 c1' _ _ HP _ Hs. by eapply sourced_step.
  - unfold view. rewrite Hd. by split.
  - exists c'. split; [done|]. split; [done|]. exact HP.
Qed.
