(* ===== verification/DhcpSample.v ===== *)
(** * The DHCP client on concrete messages *)

From S2P Require Import Prelude LwipErr Netif DhcpMsg DhcpMsgSpec Dhcp DhcpWp DhcpSpec DhcpRefine.
#[local] Open Scope Z_scope.

Definition sample_netif : Netif := mkNetif 0 0 0 1500 [2; 0; 0; 0; 0; 1] (Some [115; 116; 109; 51; 50]) 15 [].
Definition sample_client : Client := mkClient sample_netif None 0 0 false [] 0.
Definition plenty : Env := mkEnv (fun _ => true) (fun _ => ERR_OK) (fun n => 0xABCD0000 + Z.of_nat n).

(** A reply of a server at 192.168.2.1. *)
Definition server_head (xid yiaddr : Z) : list Z :=
  [2; 1; 6; 0] ++ be32 xid ++ zeros 8 ++ be32 yiaddr ++ zeros 8 ++ [2; 0; 0; 0; 0; 1] ++ zeros 10.
Definition server_message (xid yiaddr : Z) (o : list Item) : list Z :=
  server_head xid yiaddr ++ zeros 64 ++ zeros 128 ++ be32 DHCP_MAGIC_COOKIE ++ encode o ++ DHCP_OPTION_END :: [].
Definition sample_server : Z := 0xC0A80201.
Definition sample_address : Z := 0xC0A80264.
Definition offer_options : list Item := [Opt 53 [2]; Opt 54 (be32 sample_server); Opt 51 (be32 120)].
Definition ack_options (lease : Z) : list Item :=
  [Opt 53 [5]; Opt 54 (be32 sample_server); Pad; Opt 51 (be32 lease); Opt 58 (be32 60); Opt 1 (be32 0xFFFFFF00); Opt 3 (be32 sample_server)].
Definition offer_message : list Z := server_message 0xABCD0003 sample_address offer_options.
Definition ack_message (xid lease : Z) : list Z := server_message xid sample_address (ack_options lease).

(** An overloaded reply: the file field has the mask, the name the router. *)
Definition overload_options : list Item := [Opt 53 [5]; Opt 52 [3]].
Definition overload_file : list Item := [Opt 1 (be32 0xFFFFFF00)].
Definition overload_sname : list Item := [Pad; Opt 3 (be32 sample_server)].
Definition filled (n : nat) (items : list Item) : list Z :=
  encode items ++ DHCP_OPTION_END :: replicate (n - length (encode items) - 1) 0.

(** Deciding that options are well-formed. *)
Definition len_okb (i : OptIdx) (n : nat) : bool :=
  match i with IDX_ROUTER => (4 <=? n)%nat | IDX_OVERLOAD | IDX_MSG_TYPE => (n =? 1)%nat | _ => (n =? 4)%nat end.
Definition item_okb (b : bool) (it : Item) : bool :=
  match it with
  | Pad => true
  | Opt t v =>
    (0 <? t) && (t <? 255) && (length v <=? 255)%nat &&
    forallb (fun i => negb (t =? code i) || (len_okb i (length v) && (negb (bool_decide (i = IDX_OVERLOAD)) || b)))
      [IDX_OVERLOAD; IDX_MSG_TYPE; IDX_SERVER_ID; IDX_LEASE_TIME; IDX_T1; IDX_T2; IDX_SUBNET_MASK; IDX_ROUTER]
  end.

Lemma items_okb b items : forallb (item_okb b) items = true -> Forall (item_ok b) items.
Proof.
  intros H. apply Forall_forall. intros it Hit. rewrite forallb_forall in H. specialize (H it ltac:(by apply list_elem_of_In)).
  destruct it as [|t v]; [done|]. cbn [item_okb] in H. apply andb_true_iff in H as [H Hall]. bool_to_prop.
  split; [lia|]. split; [by apply Nat.leb_le|]. intros i ->. rewrite forallb_forall in Hall.
  specialize (Hall i ltac:(destruct i; cbn; tauto)). rewrite Z.eqb_refl in Hall. cbn [negb orb] in Hall. apply andb_true_iff in Hall as [Hl Ho].
  split; [destruct i; cbn [len_okb len_ok] in *; by (apply Nat.eqb_eq in Hl || apply Nat.leb_le in Hl)|]. intros ->. by rewrite bool_decide_true in Ho.
Qed.

Lemma dhcp_parse_reply_options_witness :
  exists g, dhcp_parse_reply [server_head 1 2 ++ filled 64 overload_sname ++ filled 128 overload_file ++ be32 DHCP_MAGIC_COOKIE ++
                              encode overload_options ++ DHCP_OPTION_END :: [0]] = Some (inl g) /\
    forall i, g i = if decide (i = IDX_OVERLOAD) then None
                    else option_value i (overload_options ++ (if file_too overload_options then overload_file else []) ++
                                         (if sname_too overload_options then overload_sname else [])).
Proof.
  apply dhcp_parse_reply_options; try reflexivity.
  - by apply items_okb.
  - intros _. split; [by apply items_okb|]. by eexists.
  - intros _. split; [by apply items_okb|]. by eexists.
Defined.

(** The values that this reply gives. *)
Example overloaded_reply :
  match dhcp_parse_reply [server_head 1 2 ++ filled 64 overload_sname ++ filled 128 overload_file ++ be32 DHCP_MAGIC_COOKIE ++
                          encode overload_options ++ DHCP_OPTION_END :: [0]] with
  | Some (inl g) => map g [IDX_MSG_TYPE; IDX_SUBNET_MASK; IDX_ROUTER; IDX_LEASE_TIME; IDX_OVERLOAD] = [Some 5; Some 0xFFFFFF00; Some sample_server; None; None]
  | _ => False
  end.
Proof. vm_compute. reflexivity. Qed.

(** A reply in three fragments makes the parser read outside of the second: the
    host name of 200 bytes ends beyond it, and the loop goes on one pbuf only. *)
Example fragments_read_outside :
  dhcp_parse_reply [server_head 1 2 ++ zeros 64 ++ zeros 128 ++ be32 DHCP_MAGIC_COOKIE ++ [12; 200] ++ zeros 6; zeros 8; zeros 300] = None.
Proof. vm_compute. reflexivity. Qed.

(** ** A lease *)
Lemma sample_client_ok : client_ok sample_client.
Proof. split; [done|by apply Forall_nil|done]. Qed.

Definition bind_events (lease : Z) : list Event := [Start; Recv offer_message; Recv (ack_message 0xABCD0003 lease); Fine; Fine].

Lemma message_ok p : forallb (fun b => (0 <=? b) && (b <? 256)) p = true -> (Z.of_nat (length p) <? 65535) = true -> event_ok (Recv p).
Proof.
  intros H Hl. split; [|by apply Z.ltb_lt]. apply Forall_forall. intros b Hb. rewrite forallb_forall in H.
  specialize (H b ltac:(by apply list_elem_of_In)). bool_to_prop. lia.
Qed.

Lemma bind_events_ok lease : lease = 120 \/ lease = 600 -> Forall event_ok (bind_events lease).
Proof. intros [-> | ->]; repeat apply Forall_cons_2; try done; by apply message_ok. Qed.

(** Bound to the address of the offer, with the mask and the router. *)
Example bound :
  match run plenty (bind_events 120) sample_client with
  | Some (_, c) => view c = mkView DHCP_STATE_BOUND sample_address sample_address 2 0 0 0xABCD0003 /\
                   netmask (c_netif c) = 0xFFFFFF00 /\ gw (c_netif c) = sample_server /\ length (c_out c) = 4%nat
  | None => False
  end.
Proof. vm_compute. repeat split; reflexivity. Qed.

Definition after (es : list Event) (c : Client) : Client := match run plenty es c with Some (_, c') => c' | None => c end.

Lemma after_ok es c : client_ok c -> Forall event_ok es -> client_ok (after es c).
Proof.
  intros Hok He. destruct (run_invariant plenty (fun _ _ => True)) with (es2 := es) (es1 := @nil Event) (c := c) as (c' & Hrun & Hok' & _); try done.
  unfold after. by rewrite Hrun.
Qed.

Definition bound_client : Client := after (bind_events 120) sample_client.
Lemma bound_client_ok : client_ok bound_client.
Proof. apply after_ok; [apply sample_client_ok|]. apply bind_events_ok. by left. Qed.

Lemma dhcp_refines_witness :
  client_ok sample_client /\ event_ok (Recv (ack_message 0xABCD0003 120)) /\
  exists c', handle plenty (Recv (ack_message 0xABCD0003 120)) sample_client = Some (tt, c') /\ client_ok c' /\
    spec_step (Recv (ack_message 0xABCD0003 120)) (view sample_client) (view c').
Proof.
  assert (event_ok (Recv (ack_message 0xABCD0003 120))) as He by (by apply message_ok).
  split; [exact sample_client_ok|]. split; [exact He|]. exact (dhcp_refines plenty _ sample_client sample_client_ok He).
Defined.

Lemma bound_client_dhcp :
  exists d, c_dhcp bound_client = Some d /\ t0_timeout (timers d) = 2 /\ lease_used (timers d) = 0 /\ state d = DHCP_STATE_BOUND.
Proof. vm_compute. eexists. repeat split. Qed.

Lemma lease_expires_witness :
  exists c', run plenty [Coarse; Fine; Coarse] bound_client = Some (tt, c') /\ client_ok c' /\ ip_addr (c_netif c') = 0.
Proof.
  destruct bound_client_dhcp as (d & Hd & HT & HU & HS).
  apply (lease_expires plenty [Coarse; Fine; Coarse] bound_client d bound_client_ok Hd).
  - rewrite HT. discriminate.
  - rewrite HS. discriminate.
  - rewrite HS. discriminate.
  - repeat apply Forall_cons_2; try exact I. apply Forall_nil_2.
  - repeat apply Forall_cons_2; try exact I. apply Forall_nil_2.
  - rewrite HT, HU. vm_compute. discriminate.
Defined.

Lemma address_acknowledged_witness :
  exists c', run plenty (bind_events 120) sample_client = Some (tt, c') /\ client_ok c' /\
    (ip_addr (c_netif c') <> 0 -> acked (bind_events 120) (ip_addr (c_netif c'))).
Proof. apply address_acknowledged; [exact sample_client_ok|reflexivity|reflexivity|]. apply bind_events_ok. by left. Defined.

(** ** What the code also does *)

(** A client that is told NAK while it renews selects again with the counters of
    the old lease still running.  When one goes off while it waits for the
    acknowledgement of the next offer, it is in the state RENEWING: it says that
    its address is from DHCP, and has none. *)
Definition nak_message : list Z := server_message 0xABCD0003 0 [Opt 53 [6]].
Definition second_offer : list Z := server_message 0xABCD000A sample_address offer_options.
Definition renew_events : list Event :=
  bind_events 600 ++ [Coarse; Recv nak_message; Coarse; Coarse; Coarse; Recv second_offer; Coarse].
Lemma renewing_without_address :
  let c := after renew_events sample_client in dhcp_supplied_address c = true /\ ip_addr (c_netif c) = 0.
Proof. vm_compute. split; reflexivity. Qed.

(** dhcp_start of a client that holds a lease clears the counters of the lease
    but not the address of the interface: it keeps the address for ever. *)
Lemma start_forgets_lease :
  let c := after (bind_events 120 ++ Start :: replicate 100 Coarse) sample_client in
  ip_addr (c_netif c) = sample_address /\ v_t0 (view c) = 0 /\ c_state c = DHCP_STATE_SELECTING.
Proof. vm_compute. repeat split. Qed.

(** A lease without end that renews a finite one keeps the counter of the old
    lease; a lease of nearly 2^32 seconds is one minute long. *)
Lemma infinite_lease_expires : forall o t, offered_t0_lease o = INFINITE -> t0_timeout (bind_timers o t) = t0_timeout t.
Proof. intros o t H. unfold bind_timers. rewrite H. cbn. by repeat case_match. Qed.
Lemma long_lease_wraps : minutes 0xFFFFFFF0 = 1.
Proof. reflexivity. Qed.
