(* ===== verification/Network.v ===== *)
(** * Network start-up and the tasks that look after it (Network.cpp)

    The DHCP task polls the client every 200 ms; between two polls the tcpip
    thread handles any events.  The task calls lwIP without its core lock: in
    the model its calls are steps of their own. *)

From S2P Require Import Prelude LwipErr Netif DhcpMsg DhcpMsgSpec Dhcp DhcpWp DhcpSpec DhcpRefine.
#[local] Open Scope Z_scope.
#[local] Open Scope fw_scope.

(** [s_dhcp_up], the tries of the task, and what Network_PrintInfo printed. *)
Record Task := mkTask { t_client : Client; s_dhcp_up : bool; t_tries : Z; t_log : list (Z * Z * Z) }.
Definition set_client (c : Client) (t : Task) : Task := mkTask c (s_dhcp_up t) (t_tries t) (t_log t).

Definition IP4_ADDR (a b c d : Z) : Z := a * 16777216 + b * 65536 + c * 256 + d.
Definition static_ip : Z := IP4_ADDR 192 168 2 2.
Definition static_nm : Z := IP4_ADDR 255 255 255 0.
Definition static_gw : Z := IP4_ADDR 192 168 2 1.

Definition Network_PrintInfo (t : Task) : Task :=
  let n := c_netif (t_client t) in mkTask (t_client t) (s_dhcp_up t) (t_tries t) (t_log t ++ [(ip_addr n, netmask n, gw n)]).
Definition Network_IsUp (t : Task) : bool := s_dhcp_up t.

(** The start of the task, when the link is up. *)
Definition dhcpTask_start (env : Env) : M unit := netif_set_link_up env ;; upd_netif netif_set_up ;; let* _ := dhcp_start env in ret tt.
(** Waiting for the link: [answers] of ETH_IsLinkUp, 200 ms apart. *)
Fixpoint wait_link (answers : list bool) : option nat :=
  match answers with [] => None | up :: answers => if up then Some 0%nat else S <$> wait_link answers end.

(** One turn of the loop of the task. *)
Definition dhcpTask_poll (env : Env) (t : Task) : option Task :=
  if dhcp_supplied_address (t_client t) then
    if negb (s_dhcp_up t) then Some (Network_PrintInfo (mkTask (t_client t) true (t_tries t) (t_log t))) else Some t
  else
    let tries := u32 (t_tries t + 1) in
    if tries >? 50 then
      '(_, c) ← dhcp_stop env (t_client t);
      let c := set_netif (netif_set_addr (Some static_ip) (Some static_nm) (Some static_gw) (c_netif c)) c in
      Some (Network_PrintInfo (mkTask c true 0 (t_log t)))
    else Some (mkTask (t_client t) false tries (t_log t)).

(** The polling task: the log line comes every 400 polls. *)
Definition ethPollTask_tick (log_tick : Z) : Z * bool :=
  let log_tick := u32 (log_tick + 1) in if log_tick >=? 400 then (0, true) else (log_tick, false).

(** ** The task and the tcpip thread *)

(** A round: events, then a poll.  The result says what the polls saw. *)
Definition round (env : Env) (es : list Event) (t : Task) : option (Task * bool) :=
  '(_, c) ← run env es (t_client t);
  let t := set_client c t in
  t' ← dhcpTask_poll env t; Some (t', dhcp_supplied_address c).
Fixpoint rounds (env : Env) (ess : list (list Event)) (t : Task) : option (Task * list bool) :=
  match ess with
  | [] => Some (t, [])
  | es :: ess => '(t, b) ← round env es t; '(t, bs) ← rounds env ess t; Some (t, b :: bs)
  end.

(** Starting and stopping is the task's own. *)
Definition others (e : Event) : Prop := event_ok e /\ e <> Start /\ e <> Stop.
(** The polls that saw no address from DHCP. *)
Definition misses (bs : list bool) : Z := Z.of_nat (length (filter (fun b => b = false) bs)).

(** After the fall-back: the static address, and the client is off. *)
Definition fallen_back (c : Client) : Prop := ip_addr (c_netif c) = static_ip /\ v_state (view c) = DHCP_STATE_OFF.

Lemma off_step e v v' : spec_step e v v' -> e <> Start -> e <> Stop -> v_state v = DHCP_STATE_OFF -> v_state v' = DHCP_STATE_OFF /\ v_ip v' = v_ip v.
Proof.
  intros Hs H1 H2 Hoff. destruct Hs; try done; try (split; congruence); try congruence;
    try match goal with H : edge e _ _ = true |- _ => rewrite Hoff in H; by destruct e, (v_state v') end;
    try match goal with H : acks _ = true |- _ => by rewrite Hoff in H end.
Qed.

Lemma run_others env es c : client_ok c -> Forall others es ->
  exists c', run env es c = Some (tt, c') /\ client_ok c' /\ (fallen_back c -> fallen_back c').
Proof.
  intros Hok He. set (P := fun (l : list Event) (v : View) => Forall others l -> fallen_back c -> v_ip v = static_ip /\ v_state v = DHCP_STATE_OFF).
  destruct (run_invariant env P) with (es2 := es) (es1 := @nil Event) (c := c) as (c' & Hrun & Hok' & HP); try done.
  - intros l e c1 c1' _ _ HP _ Hs HF Hfb. apply Forall_app in HF as [HF He2]. rewrite Forall_singleton in He2. destruct He2 as (_ & Hns & Hnt).
    destruct (HP HF Hfb) as [Hip Hoff]. destruct (off_step e _ _ Hs Hns Hnt Hoff) as [Hoff' Hip']. split; [by rewrite Hip'|done].
  - eapply Forall_impl; [exact He|]. by intros e [].
  - intros _ [Hip Hoff]. by split.
  - exists c'. split; [done|]. split; [done|]. intros Hfb. destruct (HP He Hfb) as [Hip Hoff]. by split.
Qed.

(** *** The task's invariant after the polls [bs] *)
Record task_ok (bs : list bool) (t : Task) : Prop := {
  k_client : client_ok (t_client t);
  k_tries : t_tries t = misses bs mod 51;
  k_up : s_dhcp_up t = match last bs with Some true => true | Some false => misses bs mod 51 =? 0 | None => false end;
  k_static : 51 <= misses bs -> fallen_back (t_client t)
}.

Lemma misses_snoc bs b : misses (bs ++ [b]) = misses bs + (if b : bool then 0 else 1).
Proof. unfold misses. rewrite filter_app, length_app.
  destruct b; [rewrite filter_cons_False by done|rewrite filter_cons_True by done]; rewrite filter_nil; cbn [length]; lia. Qed.

Lemma dhcp_stop_off env c : client_ok c -> wp (dhcp_stop env) (fun _ c' => client_ok c' /\ v_state (view c') = DHCP_STATE_OFF) c.
Proof.
  intros Hok. unfold dhcp_stop. destruct (c_dhcp c) as [d|] eqn:Hd.
  2: { unfold dhcp_release_and_stop. wp_steps. rewrite Hd. wp_step. unfold view. by rewrite Hd. }
  destruct (decide (state d = DHCP_STATE_OFF)) as [Hoff|Hoff].
  { unfold dhcp_release_and_stop. wp_steps. rewrite Hd, bool_decide_true by done. wp_step. unfold view. by rewrite Hd. }
  destruct (client_ok_running c d Hok Hd Hoff) as [Hr _]. eapply wp_mono; [by eapply wp_release_and_stop|].
  intros [] c' [[Hok' (d' & _ & x & ->)] _]. done.
Qed.

Lemma static_address c n' :
  client_ok c -> v_state (view c) = DHCP_STATE_OFF -> n' = netif_set_addr (Some static_ip) (Some static_nm) (Some static_gw) (c_netif c) ->
  client_ok (set_netif n' c) /\ fallen_back (set_netif n' c).
Proof.
  intros [Hn Ho Hc] Hoff ->. destruct (netif_set_addr_sets (Some static_ip) (Some static_nm) (Some static_gw) (c_netif c)) as ((P1 & P2 & P3 & P4) & I & _).
  set (n' := netif_set_addr _ _ _ _) in *. clearbody n'. cbn [or_any default from_option id] in I. split; [|split; [exact I|exact Hoff]].
  split; [unfold netif_ok; cbn; by rewrite P2|done|]. cbn. unfold view in Hoff. destruct (c_dhcp c) as [d|]; [|done].
  destruct Hc as [[A B C D E F G] Hp]. split; [|done]. cbn in Hoff. split; try done. congruence.
Qed.

Lemma fallen_back_not_supplied c : v_state (view c) = DHCP_STATE_OFF -> dhcp_supplied_address c = false.
Proof. unfold view, dhcp_supplied_address. destruct (c_dhcp c) as [d|]; [|done]. cbn. by intros ->. Qed.

Lemma poll_ok env bs t c :
  task_ok bs t -> client_ok c -> (51 <= misses bs -> fallen_back c) ->
  exists t', dhcpTask_poll env (set_client c t) = Some t' /\ task_ok (bs ++ [dhcp_supplied_address c]) t'.
Proof.
  intros [_ Kt Ku _] Hok Hfb. unfold dhcpTask_poll. cbn [t_client s_dhcp_up t_tries t_log set_client].
  destruct (dhcp_supplied_address c) eqn:Hs.
  - assert (misses (bs ++ [true]) = misses bs) as Hm by (rewrite misses_snoc; lia).
    assert (forall log, task_ok (bs ++ [true]) (mkTask c true (t_tries t) log)) as Hup.
    { intros log. split; cbn; rewrite ?Hm, ?last_snoc; try done. }
    destruct (s_dhcp_up t) eqn:Hu; cbn [negb]; eexists; (split; [reflexivity|]); [|apply Hup].
    unfold set_client. rewrite Hu. apply Hup.
  - assert (misses (bs ++ [false]) = misses bs + 1) as Hm by (rewrite misses_snoc; lia).
    assert (0 <= misses bs) by (unfold misses; lia). rewrite u32_small by (rewrite Kt; Z.div_mod_to_equations; lia).
    destruct (t_tries t + 1 >? 50) eqn:Hgt; rewrite Z.gtb_ltb in Hgt; bool_to_prop.
    + pose proof (dhcp_stop_off env c Hok) as Hstop. unfold wp in Hstop. destruct (dhcp_stop env c) as [[[] c1]|]; [|done].
      destruct Hstop as [Hok1 Hoff1]. cbn [mbind option_bind]. eexists. split; [reflexivity|].
      destruct (static_address c1 _ Hok1 Hoff1 eq_refl) as [Hok2 Hfb2].
      assert ((misses bs + 1) mod 51 = 0) as Hz by (rewrite Kt in Hgt; Z.div_mod_to_equations; lia).
      split; cbn [t_client t_tries s_dhcp_up Network_PrintInfo]; rewrite ?Hm, ?last_snoc, ?Hz; try done.
    + eexists. split; [reflexivity|].
      assert ((misses bs + 1) mod 51 = t_tries t + 1) as Hz by (rewrite Kt in *; Z.div_mod_to_equations; lia).
      split; cbn [t_client t_tries s_dhcp_up]; rewrite ?Hm, ?last_snoc, ?Hz; try done.
      * symmetry. apply Z.eqb_neq. rewrite Kt. Z.div_mod_to_equations. lia.
      * intros Hge. apply Hfb. rewrite Kt in Hz. Z.div_mod_to_equations. lia.
Qed.

Lemma rounds_ok env ess : forall bs t, task_ok bs t -> Forall (Forall others) ess ->
  exists t' bs', rounds env ess t = Some (t', bs') /\ length bs' = length ess /\ task_ok (bs ++ bs') t'.
Proof.
  induction ess as [|es ess IH]; intros bs t Ht Hes; inversion Hes; subst.
  - exists t, []. by rewrite app_nil_r.
  - destruct (run_others env es (t_client t)) as (c & Hrun & Hok & Hkeep); [apply Ht|done|].
    destruct (poll_ok env bs t c Ht Hok) as (t1 & Hpoll & Ht1); [intros; by apply Hkeep, Ht|].
    destruct (IH _ t1 Ht1) as (t' & bs' & Hr & Hl & Ht'); [done|]. exists t', (dhcp_supplied_address c :: bs').
    cbn [rounds]. unfold round. rewrite Hrun. cbn [mbind option_bind]. rewrite Hpoll. cbn [mbind option_bind]. rewrite Hr.
    split; [done|]. split; [cbn; by rewrite Hl|]. by rewrite <- app_assoc in Ht'.
Qed.


(** ** A board without a server *)
Definition quiet_netif : Netif := mkNetif 0 0 0 1500 [2; 0; 0; 0; 0; 1] (Some [115; 116; 109; 51; 50]) 15 [].
Definition quiet_client : Client := mkClient quiet_netif None 0 0 false [] 0.
Definition quiet_env : Env := mkEnv (fun _ => true) (fun _ => ERR_OK) (fun _ => 4).
(** The task has started the client; its timer runs once between two polls. *)
Definition started (env : Env) (c : Client) : Client := match dhcpTask_start env c with Some (_, c') => c' | None => c end.
Definition started_client : Client := started quiet_env quiet_client.

Lemma dhcpTask_start_ok env c : client_ok c -> wp (dhcpTask_start env) (fun _ c' => client_ok c') c.
Proof.
  intros Hok. unfold dhcpTask_start. wp_step. eapply wp_mono; [exact (handle_steps env LinkUp c Hok I)|]. intros _ c1 [Hok1 _].
  wp_step. eapply wp_mono; [exact (handle_steps env SetUp c1 Hok1 I)|]. intros _ c2 [Hok2 _].
  eapply wp_mono; [exact (handle_steps env Start c2 Hok2 I)|]. by intros _ c3 [Hok3 _].
Qed.

Lemma quiet_client_ok : client_ok quiet_client.
Proof. split; [done|by apply Forall_nil|done]. Qed.

Lemma dhcp_started_ok env c : client_ok c -> client_ok (started env c).
Proof.
  intros Hok. pose proof (dhcpTask_start_ok env c Hok) as H. unfold wp in H. unfold started. by destruct (dhcpTask_start env c) as [[u c']|].
Qed.
Lemma started_client_ok : client_ok started_client.
Proof. exact (dhcp_started_ok quiet_env quiet_client quiet_client_ok). Qed.


(** The interface is announced once, and the network is up at one poll only. *)
Example up_once :
  map (fun n => match rounds quiet_env (replicate n [Fine]) (mkTask started_client false 0 []) with
                | Some (t, _) => (Network_IsUp t, t_log t) | None => (false, []) end) [50%nat; 51%nat; 52%nat] =
  [(false, []); (true, [(static_ip, static_nm, static_gw)]); (false, [(static_ip, static_nm, static_gw)])].
Proof. vm_compute. reflexivity. Qed.
