(* ===== verification/TcpServer.v ===== *)
(** * The TCP echo server (TcpServer.cpp) and the netbufs it reads (netbuf.c)

    The tasks of the server talk to lwIP through its sequential API and never
    end, so they are interaction trees: each call of the API is an event that
    the environment answers. *)

From S2P Require Import Prelude LwipErr.
From ITree Require Import ITree ITreeFacts Events.State Events.StateFacts.
#[local] Open Scope Z_scope.

#[local] Notation "'let*' x ':=' t 'in' k" := (ITree.bind t (fun x => k)) (at level 10, x pattern, t at level 100, k at level 200).
#[local] Notation "t ';;' k" := (ITree.bind t (fun _ => k)) (at level 100, right associativity).
#[local] Infix "≈" := (eutt eq) (at level 70).

(** ** netbuf.c *)

(** A netbuf: its address, the payloads of the pbufs before the current one,
    of the current one ([ptr]) and of those behind it.  A netbuf that is
    received has at least one pbuf. *)
Record netbuf := mkNetbuf { nb_addr : nat; nb_before : list (list Z); nb_cur : list Z; nb_after : list (list Z) }.

Definition netbuf_data (buf : netbuf) : list Z := nb_cur buf.
Definition netbuf_next (buf : netbuf) : netbuf * Z :=
  match nb_after buf with
  | [] => (buf, -1)
  | d :: after => (mkNetbuf (nb_addr buf) (nb_before buf ++ [nb_cur buf]) d after, match after with [] => 1 | _ => 0 end)
  end.
Definition netbuf_first (buf : netbuf) : netbuf :=
  match nb_before buf with
  | [] => buf
  | d :: before => mkNetbuf (nb_addr buf) [] d (before ++ nb_cur buf :: nb_after buf)
  end.
(** All payloads, from the first pbuf. *)
Definition netbuf_chain_data (buf : netbuf) : list (list Z) := nb_before buf ++ nb_cur buf :: nb_after buf.

(** ** The calls *)
Definition conn := nat.
Variant netE : Type -> Type :=
| NetconnNew : netE (option conn)
| NetconnBind (c : conn) (port : Z) : netE Z
| NetconnListen (c : conn) : netE unit
| NetconnAccept (c : conn) : netE (Z * conn)
| NetconnPeer (c : conn) : netE unit
| NetconnRecv (c : conn) : netE (Z * netbuf)
| NetconnWrite (c : conn) (data : list Z) : netE Z
| NetbufDelete (b : nat) : netE unit
| NetconnClose (c : conn) : netE unit
| NetconnDelete (c : conn) : netE unit
| TaskDelay (ms : Z) : netE unit
| TaskDelete : netE unit.

Definition TCP_SERVER_PORT : Z := 7.

(** ** The server; what it prints is left out. *)

(** The inner loop: write the parts of one netbuf; the last result. *)
Definition echo_part (c : conn) (buf : netbuf) : itree netE (netbuf + Z) :=
  let* err := ITree.trigger (NetconnWrite c (netbuf_data buf)) in
  if negb (err =? ERR_OK) then Ret (inr err)
  else let (buf, r) := netbuf_next buf in if r >=? 0 then Ret (inl buf) else Ret (inr err).
Definition echo_netbuf (c : conn) (buf : netbuf) : itree netE Z := ITree.iter (echo_part c) buf.

(** The outer loop: one netbuf after the other; the error that ends it. *)
Definition echo_next (c : conn) (_ : unit) : itree netE (unit + Z) :=
  let* r := ITree.trigger (NetconnRecv c) in
  let (err, buf) := r : Z * netbuf in
  if negb (err =? ERR_OK) then Ret (inr err)
  else
    let* err := echo_netbuf c buf in
    ITree.trigger (NetbufDelete (nb_addr buf)) ;;
    if negb (err =? ERR_OK) then Ret (inr err) else Ret (inl tt).
Definition handle_connection (c : conn) : itree netE unit :=
  ITree.trigger (NetconnPeer c) ;;
  ITree.iter (echo_next c) tt ;;
  ITree.trigger (NetconnClose c) ;;
  ITree.trigger (NetconnDelete c).

Definition accept_next (listen_conn : conn) (_ : unit) : itree netE (unit + unit) :=
  let* r := ITree.trigger (NetconnAccept listen_conn) in
  let (err, client_conn) := r : Z * conn in
  (if err =? ERR_OK then handle_connection client_conn else ITree.trigger (TaskDelay 100)) ;;
  Ret (inl tt).
Definition tcp_server_task : itree netE unit :=
  ITree.trigger (TaskDelay 2000) ;;
  let* o := ITree.trigger NetconnNew in
  match o with
  | None => ITree.trigger TaskDelete
  | Some listen_conn =>
    let* err := ITree.trigger (NetconnBind listen_conn TCP_SERVER_PORT) in
    if negb (err =? ERR_OK) then ITree.trigger (NetconnDelete listen_conn) ;; ITree.trigger TaskDelete
    else ITree.trigger (NetconnListen listen_conn) ;; ITree.iter (accept_next listen_conn) tt
  end.

(** ** An environment *)

(** What a peer sends, in netbufs of one or more parts, before the connection
    ends with [end_err]; what lwIP answers to the writes; and what was done. *)
Record World := mkWorld {
  incoming : list (list Z * list (list Z)); end_err : Z; write_result : nat -> Z; writes : nat; written : list Z;
  netbufs : list nat; next_addr : nat; deleted : list nat; closed_conns : list conn; deleted_conns : list conn
}.
Definition recv (w : World) : World * (Z * netbuf) :=
  match incoming w with
  | [] => (w, (end_err w, mkNetbuf 0 [] [] []))
  | (d, ds) :: rest =>
    (mkWorld rest (end_err w) (write_result w) (writes w) (written w) (next_addr w :: netbufs w) (S (next_addr w)) (deleted w) (closed_conns w) (deleted_conns w),
     (ERR_OK, mkNetbuf (next_addr w) [] d ds))
  end.
Definition write (data : list Z) (w : World) : World * Z :=
  let r := write_result w (writes w) in
  (mkWorld (incoming w) (end_err w) (write_result w) (S (writes w)) (if r =? ERR_OK then written w ++ data else written w)
     (netbufs w) (next_addr w) (deleted w) (closed_conns w) (deleted_conns w), r).
Definition delete_buf (b : nat) (w : World) : World :=
  mkWorld (incoming w) (end_err w) (write_result w) (writes w) (written w) (filter (fun x => x <> b) (netbufs w)) (next_addr w) (b :: deleted w)
    (closed_conns w) (deleted_conns w).
Definition close_conn (c : conn) (w : World) : World :=
  mkWorld (incoming w) (end_err w) (write_result w) (writes w) (written w) (netbufs w) (next_addr w) (deleted w) (c :: closed_conns w) (deleted_conns w).
Definition delete_conn (c : conn) (w : World) : World :=
  mkWorld (incoming w) (end_err w) (write_result w) (writes w) (written w) (netbufs w) (next_addr w) (deleted w) (closed_conns w) (c :: deleted_conns w).

Definition answer : netE ~> Monads.stateT World (itree void1) :=
  fun _ e w =>
    match e with
    | NetconnRecv c => Ret (recv w)
    | NetconnWrite c data => Ret (write data w)
    | NetbufDelete b => Ret (delete_buf b w, tt)
    | NetconnClose c => Ret (close_conn c w, tt)
    | NetconnDelete c => Ret (delete_conn c w, tt)
    | NetconnPeer c => Ret (w, tt)
    | NetconnListen c => Ret (w, tt)
    | NetconnNew => Ret (w, Some 0%nat)
    | NetconnBind c port => Ret (w, ERR_OK)
    | NetconnAccept c => Ret (w, (ERR_OK, 1%nat))
    | TaskDelay ms => Ret (w, tt)
    | TaskDelete => Ret (w, tt)
    end.
