(* ===== verification/TcpServerSpec.v ===== *)
(** * What the echo server does to a connection *)

From S2P Require Import Prelude LwipErr TcpServer.
From ITree Require Import ITree ITreeFacts Events.State Events.StateFacts.
#[local] Open Scope Z_scope.
#[local] Infix "≈" := (eutt eq) (at level 70).

(** ** The loops as functions on the environment *)
Fixpoint echo_parts (d : list Z) (ds : list (list Z)) (w : World) : World * Z :=
  let (w, r) := write d w in
  if negb (r =? ERR_OK) then (w, r) else match ds with [] => (w, r) | d :: ds => echo_parts d ds w end.

Lemma interp_call {X R} (e : netE X) (k : X -> itree netE R) w :
  interp_state answer (ITree.bind (ITree.trigger e) k) w ≈ ITree.bind (answer X e w) (fun p => interp_state answer (k (snd p)) (fst p)).
Proof. rewrite interp_state_bind, interp_state_trigger. reflexivity. Qed.

Lemma interp_call_ret {X R} (e : netE X) (k : X -> itree netE R) w w' x :
  answer X e w = Ret (w', x) -> interp_state answer (ITree.bind (ITree.trigger e) k) w ≈ interp_state answer (k x) w'.
Proof. intros H. rewrite interp_call, H, bind_ret_l. reflexivity. Qed.

Lemma echo_part_run c buf w :
  interp_state answer (echo_part c buf) w ≈
  let (w', r) := write (nb_cur buf) w in
  Ret (w', if negb (r =? ERR_OK) then inr r else match nb_after buf with [] => inr r | _ => inl (netbuf_next buf).1 end).
Proof.
  unfold echo_part. rewrite (interp_call_ret _ _ w (write (nb_cur buf) w).1 (write (nb_cur buf) w).2) by (cbn [answer]; unfold netbuf_data; by destruct (write (nb_cur buf) w)).
  destruct (write (nb_cur buf) w) as [w' r]. cbn [fst snd]. destruct (negb (r =? ERR_OK)); [rewrite interp_state_ret; reflexivity|].
  unfold netbuf_next. destruct (nb_after buf) as [|d after]; [|destruct after]; cbn; rewrite interp_state_ret; reflexivity.
Qed.

Lemma echo_netbuf_run c buf w : interp_state answer (echo_netbuf c buf) w ≈ Ret (echo_parts (nb_cur buf) (nb_after buf) w).
Proof.
  destruct buf as [b before d ds]. cbn [nb_cur nb_after]. revert before d w. induction ds as [|d' ds IH]; intros before d w; unfold echo_netbuf;
    rewrite unfold_iter, interp_state_bind, echo_part_run; cbn [nb_cur nb_after echo_parts]; destruct (write d w) as [w1 r];
    rewrite bind_ret_l; cbn [fst snd]; destruct (negb (r =? ERR_OK)); try (rewrite interp_state_ret; reflexivity).
  rewrite interp_state_tau, tau_eutt. apply IH.
Qed.

(** All the netbufs; the error that ends the loop. *)
Fixpoint echo_all (msgs : list (list Z * list (list Z))) (w : World) : World * Z :=
  match msgs with
  | [] => let '(w, (err, _)) := recv w in (w, err)
  | _ :: msgs =>
    let '(w, (_, buf)) := recv w in
    let (w, err) := echo_parts (nb_cur buf) (nb_after buf) w in
    let w := delete_buf (nb_addr buf) w in
    if negb (err =? ERR_OK) then (w, err) else echo_all msgs w
  end.

Lemma echo_next_run c w :
  interp_state answer (echo_next c tt) w ≈
  match incoming w with
  | [] => Ret (w, if negb (end_err w =? ERR_OK) then inr (end_err w) else inl tt)
  | _ :: _ =>
    let '(w, (_, buf)) := recv w in
    let (w, err) := echo_parts (nb_cur buf) (nb_after buf) w in
    Ret (delete_buf (nb_addr buf) w, if negb (err =? ERR_OK) then inr err else inl tt)
  end \/ end_err w = ERR_OK.
Proof.
  destruct (decide (end_err w = ERR_OK)) as [|He]; [by right|left]. unfold echo_next.
  rewrite (interp_call_ret _ _ w (recv w).1 (recv w).2) by (cbn [answer]; by destruct (recv w)).
  unfold recv. destruct (incoming w) as [|[d ds] rest]; cbn [fst snd].
  - rewrite (proj2 (Z.eqb_neq _ _)) by done. cbn [negb]. rewrite interp_state_ret. reflexivity.
  - cbn [negb Z.eqb ERR_OK nb_cur nb_after nb_addr]. rewrite interp_state_bind, echo_netbuf_run. cbn [nb_cur nb_after].
    destruct (echo_parts d ds _) as [w1 err]. rewrite bind_ret_l. cbn [fst snd].
    rewrite (interp_call_ret _ _ w1 (delete_buf (next_addr w) w1) tt) by done.
    destruct (negb (err =? ERR_OK)); rewrite interp_state_ret; reflexivity.
Qed.

Lemma echo_parts_keeps d ds : forall w, let w' := (echo_parts d ds w).1 in
  incoming w' = incoming w /\ end_err w' = end_err w /\ write_result w' = write_result w /\ netbufs w' = netbufs w /\ next_addr w' = next_addr w /\
  deleted w' = deleted w /\ closed_conns w' = closed_conns w /\ deleted_conns w' = deleted_conns w.
Proof.
  revert d. induction ds as [|d' ds IH]; intros d w; cbn [echo_parts]; unfold write; destruct (negb _); cbn [fst];
    [done..|]. specialize (IH d' (write d w).1). cbn in IH. exact IH.
Qed.

Lemma echo_loop_run c : forall w, end_err w <> ERR_OK ->
  interp_state answer (ITree.iter (echo_next c) tt) w ≈ Ret (echo_all (incoming w) w).
Proof.
  intros w. remember (incoming w) as msgs eqn:Hm. revert w Hm. induction msgs as [|[d ds] msgs IH]; intros w Hm He;
    rewrite unfold_iter, interp_state_bind; destruct (echo_next_run c w) as [E|]; try done; rewrite E, <- Hm; cbn [echo_all]; unfold recv; rewrite <- Hm.
  - rewrite (proj2 (Z.eqb_neq _ _)) by done. cbn [negb]. rewrite bind_ret_l. cbn [fst snd]. rewrite interp_state_ret. reflexivity.
  - cbn [nb_cur nb_after nb_addr]. set (w0 := mkWorld _ _ _ _ _ _ _ _ _ _).
    pose proof (echo_parts_keeps d ds w0) as (K1 & K2 & _). destruct (echo_parts d ds w0) as [w1 err]. cbn [fst] in K1, K2. rewrite bind_ret_l. cbn [fst snd].
    destruct (negb (err =? ERR_OK)); [rewrite interp_state_ret; reflexivity|].
    rewrite interp_state_tau, tau_eutt. apply IH; cbn; [by rewrite K1|by rewrite K2].
Qed.

(** ** What was echoed *)

(** The parts that arrive, in order, and how many of them lwIP takes from the
    write [k] on before it refuses one. *)
Definition parts (msgs : list (list Z * list (list Z))) : list (list Z) := msgs ≫= fun m => m.1 :: m.2.
Fixpoint taken (n : nat) (result : nat -> Z) (k : nat) : nat :=
  match n with O => O | S n => if result k =? ERR_OK then S (taken n result (S k)) else O end.

Lemma taken_app n m result k :
  taken (n + m) result k = (if (taken n result k =? n)%nat then n + taken m result (k + n) else taken n result k)%nat.
Proof.
  revert k. induction n as [|n IH]; intros k; [cbn; by rewrite Nat.add_0_r|]. cbn [Nat.add taken]. destruct (result k =? ERR_OK); [|done].
  rewrite IH. cbn [Nat.eqb]. replace (k + S n)%nat with (S k + n)%nat by lia. by destruct (_ =? _)%nat.
Qed.
Lemma taken_le n result k : (taken n result k <= n)%nat.
Proof. revert k. induction n as [|n IH]; intros k; cbn; [lia|]. specialize (IH (S k)). destruct (_ =? _); lia. Qed.

Lemma echo_parts_echoes d ds : forall w, let n := taken (S (length ds)) (write_result w) (writes w) in
  let '(w', r) := echo_parts d ds w in
  written w' = written w ++ concat (take n (d :: ds)) /\
  (r = ERR_OK <-> n = S (length ds)) /\ (r = ERR_OK -> writes w' = (writes w + S (length ds))%nat).
Proof.
  revert d. induction ds as [|d' ds IH]; intros d w; cbn [echo_parts length]; cbn zeta; unfold write; cbn [taken].
  - destruct (Z.eqb_spec (write_result w (writes w)) ERR_OK) as [E|E]; cbn [negb taken writes written]; split_and!; try done; try lia.
    all: cbn; by rewrite ?app_nil_r.
  - destruct (Z.eqb_spec (write_result w (writes w)) ERR_OK) as [E|E]; cbn [negb].
    2: { cbn. rewrite app_nil_r. split_and!; try done; lia. }
    specialize (IH d' (write d w).1). unfold write in IH. rewrite (proj2 (Z.eqb_eq _ _) E) in IH. cbn [fst write_result writes written] in IH.
    cbn zeta in IH. destruct (echo_parts d' ds _) as [w' r]. destruct IH as (I1 & I2 & I3). cbn [taken] in *. split_and!.
    + rewrite I1, <- app_assoc. done.
    + rewrite I2. lia.
    + intros Hr. rewrite (I3 Hr). lia.
Qed.

Lemma concat_take_app (l m : list (list Z)) n : concat (take (length l + n) (l ++ m)) = concat l ++ concat (take n m).
Proof. by rewrite take_app_add, concat_app. Qed.

(** The netbufs an environment has handed out are older than the next one. *)
Definition netbufs_ok (w : World) : Prop := forall b, In b (netbufs w) -> (b < next_addr w)%nat.

Lemma delete_newest b l : (forall x, In x l -> (x < b)%nat) -> filter (fun x => x <> b) (b :: l) = l.
Proof.
  intros H. rewrite filter_cons_False by naive_solver. induction l as [|x l IH]; [done|].
  rewrite filter_cons_True by (specialize (H x (or_introl eq_refl)); lia). f_equal. apply IH. intros y Hy. apply H. by right.
Qed.

(** The netbufs received by [n] calls, the last one first. *)
Definition addresses (a n : nat) : list nat := rev (seq a n).

Lemma echo_all_echoes msgs : forall w, incoming w = msgs -> end_err w <> ERR_OK -> netbufs_ok w ->
  let n := taken (length (parts msgs)) (write_result w) (writes w) in
  let (w', r) := echo_all msgs w in
  written w' = written w ++ concat (take n (parts msgs)) /\ netbufs w' = netbufs w /\
  (exists k, incoming w' = drop k msgs /\ deleted w' = addresses (next_addr w) k ++ deleted w) /\
  (n = length (parts msgs) -> incoming w' = []) /\
  closed_conns w' = closed_conns w /\ deleted_conns w' = deleted_conns w /\ r <> ERR_OK.
Proof.
  induction msgs as [|[d ds] msgs IH]; intros w Hm He Hok; cbn zeta; cbn [echo_all]; unfold recv; rewrite Hm.
  - cbn. rewrite app_nil_r. split_and!; try done. by exists 0%nat.
  - cbn [nb_cur nb_after nb_addr]. set (w0 := mkWorld _ _ _ _ _ _ _ _ _ _).
    pose proof (echo_parts_keeps d ds w0) as (K1 & K2 & K3 & K4 & K5 & K6 & K7 & K8). pose proof (echo_parts_echoes d ds w0) as P. cbn zeta in P.
    destruct (echo_parts d ds w0) as [w1 err]. cbn [fst] in *. subst w0. cbn [incoming end_err write_result writes written netbufs next_addr deleted closed_conns deleted_conns] in *.
    destruct P as (P1 & P2 & P3). assert (Hd : filter (fun x => x <> next_addr w) (netbufs w1) = netbufs w) by (rewrite K4; by apply delete_newest).
    change (parts ((d, ds) :: msgs)) with ((d :: ds) ++ parts msgs). rewrite length_app, taken_app. cbn [length].
    set (t := taken (S (length ds)) (write_result w) (writes w)) in *. destruct (Z.eqb_spec err ERR_OK) as [E|E]; cbn [negb].
    + rewrite (proj1 P2 E), Nat.eqb_refl. specialize (IH (delete_buf (next_addr w) w1)). cbn in IH.
      destruct (echo_all msgs (delete_buf (next_addr w) w1)) as [w' r].
      destruct IH as (I1 & I2 & (k & I3 & I4) & I8 & I5 & I6 & I7); [done|by rewrite K2|unfold netbufs_ok; cbn; rewrite Hd, K5; intros b Hb; specialize (Hok b Hb); lia|].
      rewrite I1, P1, K3, (P3 E), (proj1 P2 E), (take_ge (d :: ds)) by (cbn; lia). change (S (length ds)) with (length (d :: ds)).
      rewrite concat_take_app, <- app_assoc. split_and!; try congruence.
      2: { intros Hn. apply I8. rewrite K3, (P3 E). cbn [length] in *. lia. }
      exists (S k). split; [done|]. rewrite I4, K5, K6. unfold addresses. cbn. by rewrite <- app_assoc.
    + destruct (Nat.eqb_spec t (S (length ds))) as [T|T]; [by apply P2 in T|]. cbn [incoming end_err write_result writes written netbufs next_addr deleted closed_conns deleted_conns delete_buf]. rewrite P1, Hd, K1, K6, K7, K8.
      pose proof (taken_le (S (length ds)) (write_result w) (writes w)) as Ht. fold t in Ht. rewrite take_app_le by (cbn [length]; lia).
      split_and!; try done; [by exists 1%nat|]. intros Hn. rewrite Hn in Ht. cbn [length] in *. lia.
Qed.

(** ** The property *)
Definition closes_once (c : conn) (w w' : World) : Prop := closed_conns w' = c :: closed_conns w /\ deleted_conns w' = c :: deleted_conns w.

(** C37: a connection is echoed to its end.  Whatever the peer sends, in
    netbufs of any number of parts, and whatever lwIP answers to the writes, the
    handler returns; what it has written is every part, in order, up to the
    first write that lwIP refuses, and all of it if it refuses none; every netbuf
    it has received is deleted, once, and no other; if no write was refused nothing is left to
    receive; and the connection is closed
    once and deleted once. *)
Theorem handle_connection_echoes c w (He : end_err w <> ERR_OK) (Hok : netbufs_ok w) :
  let n := taken (length (parts (incoming w))) (write_result w) (writes w) in
  exists w', interp_state answer (handle_connection c) w ≈ Ret (w', tt) /\
    written w' = written w ++ concat (take n (parts (incoming w))) /\
    netbufs w' = netbufs w /\
    (exists k, incoming w' = drop k (incoming w) /\ deleted w' = addresses (next_addr w) k ++ deleted w) /\
    (n = length (parts (incoming w)) -> incoming w' = []) /\
    closes_once c w w'.
Proof.
  cbn zeta. pose proof (echo_all_echoes (incoming w) w eq_refl He Hok) as E. cbn zeta in E. destruct (echo_all (incoming w) w) as [w1 r] eqn:Ew.
  destruct E as (E1 & E2 & E3 & E6 & E4 & E5 & _). exists (delete_conn c (close_conn c w1)). split.
  - unfold handle_connection. rewrite (interp_call_ret _ _ w w tt) by done. rewrite interp_state_bind, echo_loop_run by done. rewrite Ew, bind_ret_l. cbn [fst snd].
    rewrite (interp_call_ret _ _ w1 (close_conn c w1) tt) by done. rewrite interp_state_trigger. reflexivity.
  - unfold closes_once. cbn. rewrite E4, E5. by split_and!.
Qed.

(** Two netbufs, the first of two parts; lwIP refuses the third write. *)
Definition sample_world : World :=
  mkWorld [([1; 2], [[3]]); ([4], [[5]]); ([6], [])] (-15) (fun k => if (k =? 3)%nat then -11 else ERR_OK) 0 [] [] 7 [] [] [].

Lemma handle_connection_echoes_witness :
  exists w', interp_state answer (handle_connection 1%nat) sample_world ≈ Ret (w', tt) /\ written w' = [1; 2; 3; 4] /\ netbufs w' = [] /\
    closes_once 1%nat sample_world w'.
Proof.
  destruct (handle_connection_echoes 1%nat sample_world) as (w' & H1 & H2 & H3 & _ & _ & H4); [done|intros b []|].
  exists w'. split; [exact H1|]. split; [rewrite H2; vm_compute; reflexivity|]. by split.
Defined.
