(* ===== verification/InetChksum.v ===== *)
(** * inet_chksum.c: the Internet checksum

    The configuration compiles version 2 of lwip_standard_chksum, IPv4 only,
    little endian; lwIP computes all checksums, none is left to the hardware. *)

From S2P Require Import Prelude Bytes LwipErr Mem MemSpec LwipMem Pbuf.
#[local] Open Scope Z_scope.

(** The macros of inet_chksum.h and def.h. *)
Definition FOLD_U32T (u : Z) : Z := u32 (Z.shiftr u 16 + Z.land u 0xffff).
Definition SWAP_BYTES_IN_WORD (w : Z) : Z := Z.lor (Z.shiftl (Z.land w 0xff) 8) (Z.shiftr (Z.land w 0xff00) 8).
Definition PP_HTONS (x : Z) : Z := u16 (Z.lor (Z.shiftl (Z.land x 0xff) 8) (Z.shiftr (Z.land x 0xff00) 8)).
Definition lwip_htons (n : Z) : Z := PP_HTONS n.

(** ** lwip_standard_chksum *)

(** [while (len > 1)]: the sum of the words and the bytes that are left. *)
Fixpoint sum_words (ps : list Z) (sum : Z) : Z * list Z :=
  match ps with
  | lo :: hi :: ps => sum_words ps (u32 (sum + (lo + 256 * hi)))
  | _ => (sum, ps)
  end.

(** [dataptr]: the address; [bs]: the [len] bytes there.  [t] has the first byte
    of an odd buffer as its high byte and the left-over byte as its low one. *)
Definition lwip_standard_chksum (dataptr : Z) (bs : list Z) : Z :=
  let odd := negb (Z.land dataptr 1 =? 0) in
  let (t, pb) := match odd, bs with true, b :: bs => (256 * b, bs) | _, _ => (0, bs) end in
  let (sum, ps) := sum_words pb 0 in
  let t := match ps with b :: _ => Z.lor (Z.land t 0xff00) b | [] => t end in
  let sum := FOLD_U32T (FOLD_U32T (u32 (sum + t))) in
  u16 (if odd then SWAP_BYTES_IN_WORD sum else sum).

Definition inet_chksum (dataptr : Z) (bs : list Z) : Z := u16 (Z.lnot (lwip_standard_chksum dataptr bs)).

(** ** Chains of pbufs *)
Section chains.
Context {H : Type}.
Abbreviation St := (Store H).

(** The loop of inet_chksum_pbuf and inet_cksum_pseudo_base: [acc] and [swapped]. *)
Fixpoint chksum_loop (fuel : nat) (q acc : Z) (swapped : bool) (s : St) : option (Z * bool) :=
  match fuel with
  | O => None
  | S fuel =>
    if q =? 0 then Some (acc, swapped) else
    b ← get q s;
    bs ← read_payload (payload b) (len b) s;
    let acc := FOLD_U32T (u32 (acc + lwip_standard_chksum (payload b) bs)) in
    if negb (len b mod 2 =? 0) then chksum_loop fuel (next b) (SWAP_BYTES_IN_WORD acc) (negb swapped) s
    else chksum_loop fuel (next b) acc swapped s
  end.
Definition unswap (r : Z * bool) : Z := if r.2 then SWAP_BYTES_IN_WORD r.1 else r.1.

Definition inet_chksum_pbuf (p : Z) (s : St) : option Z :=
  r ← chksum_loop (S (base.size (pbufs s))) p 0 false s; Some (u16 (Z.lnot (Z.land (unswap r) 0xffff))).

(** What follows the loops: protocol, length, two folds, the complement. *)
Definition pseudo_finish (acc proto proto_len : Z) : Z :=
  let acc := u32 (acc + lwip_htons proto) in
  let acc := u32 (acc + lwip_htons proto_len) in
  u16 (Z.lnot (Z.land (FOLD_U32T (FOLD_U32T acc)) 0xffff)).

Definition inet_cksum_pseudo_base (p proto proto_len acc : Z) (s : St) : option Z :=
  r ← chksum_loop (S (base.size (pbufs s))) p acc false s; Some (pseudo_finish (unswap r) proto proto_len).

(** The addresses, in network byte order, folded to 16 bits. *)
Definition fold_addresses (src dest : Z) : Z :=
  let acc := Z.land src 0xffff in
  let acc := u32 (acc + Z.land (Z.shiftr src 16) 0xffff) in
  let acc := u32 (acc + Z.land dest 0xffff) in
  let acc := u32 (acc + Z.land (Z.shiftr dest 16) 0xffff) in
  FOLD_U32T (FOLD_U32T acc).

Definition inet_chksum_pseudo (p proto proto_len src dest : Z) (s : St) : option Z :=
  inet_cksum_pseudo_base p proto proto_len (fold_addresses src dest) s.
Definition ip_chksum_pseudo (p proto proto_len src dest : Z) (s : St) : option Z := inet_chksum_pseudo p proto proto_len src dest s.

(** Only the first [chksum_len] bytes of the chain; the assertion in the loop only prints. *)
Fixpoint partial_loop (fuel : nat) (q chksum_len acc : Z) (swapped : bool) (s : St) : option (Z * bool) :=
  match fuel with
  | O => None
  | S fuel =>
    if (q =? 0) || negb (chksum_len >? 0) then Some (acc, swapped) else
    b ← get q s;
    let chklen := if len b >? chksum_len then chksum_len else len b in
    bs ← read_payload (payload b) chklen s;
    let acc := u32 (acc + lwip_standard_chksum (payload b) bs) in
    let chksum_len := u16 (chksum_len - chklen) in
    let acc := FOLD_U32T acc in
    if negb (len b mod 2 =? 0) then partial_loop fuel (next b) chksum_len (SWAP_BYTES_IN_WORD acc) (negb swapped) s
    else partial_loop fuel (next b) chksum_len acc swapped s
  end.
Definition inet_cksum_pseudo_partial_base (p proto proto_len chksum_len acc : Z) (s : St) : option Z :=
  r ← partial_loop (S (base.size (pbufs s))) p chksum_len acc false s; Some (pseudo_finish (unswap r) proto proto_len).
Definition inet_chksum_pseudo_partial (p proto proto_len chksum_len src dest : Z) (s : St) : option Z :=
  inet_cksum_pseudo_partial_base p proto proto_len chksum_len (fold_addresses src dest) s.
Definition ip_chksum_pseudo_partial (p proto proto_len chksum_len src dest : Z) (s : St) : option Z :=
  inet_chksum_pseudo_partial p proto proto_len chksum_len src dest s.
End chains.
