(* ===== verification/InetChksumSpec.v ===== *)
(** * The Internet checksum is that of RFC 1071 *)

From S2P Require Import Prelude Bytes LwipErr Mem MemSpec LwipMem Pbuf PbufGraph PbufRep PbufSpec InetChksum.
#[local] Open Scope Z_scope.

(** ** RFC 1071 *)

(** One's complement addition of 16-bit numbers: the carry is added again. *)
Definition add1c (x y : Z) : Z := if x + y >? 65535 then x + y - 65535 else x + y.
(** The words of a message, the first byte the high one, an odd byte padded with zero. *)
Fixpoint be_words (bs : list Z) : list Z :=
  match bs with
  | [] => []
  | [a] => [256 * a]
  | a :: b :: bs => (256 * a + b) :: be_words bs
  end.
Definition internet_sum (bs : list Z) : Z := fold_left add1c (be_words bs) 0.
Definition internet_checksum (bs : list Z) : Z := 65535 - internet_sum bs.

(** The pseudo header of UDP and TCP over IPv4; the addresses are as they stand in memory. *)
Definition pseudo_header (src dest proto n : Z) : list Z := le32 src ++ le32 dest ++ [0; proto; n / 256; n mod 256].

Definition byte (b : Z) : Prop := 0 <= b < 256.

(** ** Numbers modulo 65535, zero kept apart *)

(** The one's complement number of 16 bits with the value [n]. *)
Definition oc (n : Z) : Z := if n =? 0 then 0 else (n - 1) mod 65535 + 1.

Lemma oc_unique n r : 0 <= n -> 0 <= r <= 65535 -> (r - n) mod 65535 = 0 -> (r = 0 <-> n = 0) -> oc n = r.
Proof. unfold oc. intros. destruct (Z.eqb_spec n 0); [lia|]. Z.div_mod_to_equations. lia. Qed.
Lemma oc_spec n : 0 <= n -> 0 <= oc n <= 65535 /\ (oc n - n) mod 65535 = 0 /\ (oc n = 0 <-> n = 0).
Proof. unfold oc. intros. destruct (Z.eqb_spec n 0); Z.div_mod_to_equations; lia. Qed.
Lemma oc_small n : 0 <= n <= 65535 -> oc n = n.
Proof. intros. apply oc_unique; try lia. by rewrite Z.sub_diag. Qed.
Lemma oc_add n m : 0 <= n -> 0 <= m -> oc (oc n + m) = oc (n + m).
Proof.
  intros Hn Hm. pose proof (oc_spec n Hn). pose proof (oc_spec (n + m) ltac:(lia)). apply oc_unique; try lia.
  Z.div_mod_to_equations. lia.
Qed.
Lemma oc_mul k n : 0 <= k -> 0 <= n -> oc (k * oc n) = oc (k * n).
Proof.
  intros Hk Hn. pose proof (oc_spec n Hn) as (H1 & H2 & H3). pose proof (oc_spec (k * n) ltac:(nia)) as (K1 & K2 & K3). apply oc_unique; try nia.
  apply Z.mod_divide in H2, K2; [|lia..]. destruct H2 as [x Hx], K2 as [y Hy]. apply Z.mod_divide; [lia|]. exists (y - k * x). nia.
Qed.
Lemma oc_shift a b : 0 <= a -> 0 <= b -> oc (a + 65536 * b) = oc (a + b).
Proof. intros. pose proof (oc_spec (a + b) ltac:(lia)). apply oc_unique; try lia. Z.div_mod_to_equations. lia. Qed.

Lemma fold_eq u : 0 <= u < 4294967296 -> FOLD_U32T u = u / 65536 + u mod 65536.
Proof. intros. unfold FOLD_U32T. rewrite Z.shiftr_div_pow2 by lia. change 0xffff with (Z.ones 16). rewrite Z.land_ones by lia. wrap_lia. Qed.
Lemma fold_once u : 0 <= u <= 131070 -> FOLD_U32T u = oc u.
Proof. intros. rewrite fold_eq by lia. symmetry. apply oc_unique; Z.div_mod_to_equations; lia. Qed.
Lemma fold_twice u : 0 <= u < 4294967296 -> FOLD_U32T (FOLD_U32T u) = oc u.
Proof.
  intros Hu. rewrite (fold_eq u Hu). rewrite fold_once by (Z.div_mod_to_equations; lia).
  rewrite (Z.div_mod u 65536) at 3 by lia. rewrite (Z.add_comm (65536 * _)), oc_shift by (Z.div_mod_to_equations; lia). f_equal. lia.
Qed.
Lemma lor_high h l : 0 <= h -> 0 <= l < 256 -> Z.lor (256 * h) l = 256 * h + l.
Proof.
  intros Hh Hl. assert (Z.land (256 * h) l = 0) as E.
  { apply Z.bits_inj'. intros i Hi. rewrite Z.land_spec, Z.bits_0. destruct (decide (i < 8)).
    - rewrite Z.mul_comm. change 256 with (2 ^ 8). by rewrite Z.mul_pow2_bits_low by lia.
    - replace l with (l mod 2 ^ 8) by (apply Z.mod_small; lia). rewrite Z.mod_pow2_bits_high by lia. apply andb_false_r. }
  by rewrite <- Z.lxor_lor, <- Z.add_nocarry_lxor.
Qed.
Lemma land_high b : 0 <= b < 256 -> Z.land (256 * b) 0xff00 = 256 * b.
Proof.
  intros. rewrite Z.mul_comm. change 256 with (2 ^ 8). rewrite <- Z.shiftl_mul_pow2 by lia. change 0xff00 with (Z.shiftl (Z.ones 8) 8).
  rewrite <- Z.shiftl_land, Z.land_ones by lia. by rewrite Z.mod_small by lia.
Qed.
Lemma swap_eq w : 0 <= w <= 65535 -> SWAP_BYTES_IN_WORD w = 256 * (w mod 256) + w / 256.
Proof.
  intros. unfold SWAP_BYTES_IN_WORD. change 0xff with (Z.ones 8). rewrite Z.land_ones by lia. rewrite Z.shiftl_mul_pow2 by lia.
  assert (Z.shiftr (Z.land w 0xff00) 8 = w / 256) as ->.
  { rewrite Z.shiftr_land. change (Z.shiftr 0xff00 8) with (Z.ones 8). rewrite Z.land_ones, Z.shiftr_div_pow2 by lia. change (2 ^ 8) with 256. Z.div_mod_to_equations. lia. }
  change (2 ^ 8) with 256. rewrite (Z.mul_comm _ 256), lor_high by (Z.div_mod_to_equations; lia). done.
Qed.
Lemma swap_oc w : 0 <= w <= 65535 -> SWAP_BYTES_IN_WORD w = oc (256 * w).
Proof. intros. rewrite swap_eq by done. symmetry. apply oc_unique; Z.div_mod_to_equations; lia. Qed.

(** ** Bytes as one number

    65536 is 1 modulo 65535, so the words of a message sum up to the number
    whose digits are its bytes. *)
Fixpoint num (bs : list Z) : Z := match bs with [] => 0 | b :: bs => b + 256 * num bs end.
Definition shift (n : nat) : Z := if Nat.even n then 1 else 256.

Lemma num_nonneg bs : Forall byte bs -> 0 <= num bs.
Proof. unfold byte. induction 1; cbn; lia. Qed.
Lemma shift_pos n : 0 < shift n.
Proof. unfold shift. destruct (Nat.even n); lia. Qed.
Lemma shift_S n x : 0 <= x -> oc (shift (S n) * x) = oc (256 * (shift n * x)).
Proof.
  intros. unfold shift. rewrite Nat.even_succ, <- Nat.negb_even. destruct (Nat.even n); cbn [negb]; [f_equal; lia|].
  replace (256 * (256 * x)) with (0 + 65536 * x) by lia. rewrite oc_shift by lia. f_equal. lia.
Qed.
Lemma shift_twice n x : 0 <= x -> oc (shift n * (shift n * x)) = oc x.
Proof.
  intros. unfold shift. destruct (Nat.even n); [f_equal; lia|]. replace (256 * (256 * x)) with (0 + 65536 * x) by lia. rewrite oc_shift by lia. f_equal.
Qed.
Lemma shift_add n m x : 0 <= x -> oc (shift (n + m) * x) = oc (shift m * (shift n * x)).
Proof.
  intros. unfold shift. rewrite Nat.even_add. destruct (Nat.even n), (Nat.even m); cbn [eqb]; try (f_equal; lia).
  replace (256 * (256 * x)) with (0 + 65536 * x) by lia. rewrite oc_shift by lia. f_equal. lia.
Qed.

Lemma oc_cong_add a a' b : 0 <= a -> 0 <= a' -> 0 <= b -> oc a = oc a' -> oc (b + a) = oc (b + a').
Proof. intros. rewrite !(Z.add_comm b), <- (oc_add a b), <- (oc_add a' b) by done. by f_equal; f_equal. Qed.
Lemma oc_cong_mul k a a' : 0 <= k -> 0 <= a -> 0 <= a' -> oc a = oc a' -> oc (k * a) = oc (k * a').
Proof. intros. rewrite <- (oc_mul k a), <- (oc_mul k a') by done. by do 2 f_equal. Qed.

Lemma num_app x y : Forall byte x -> Forall byte y -> oc (num (x ++ y)) = oc (num x + shift (length x) * num y).
Proof.
  intros Hx Hy. pose proof (num_nonneg y Hy). induction Hx as [|b x Hb Hx IH]; [cbn [app num length]; unfold shift; cbn; f_equal; lia|].
  cbn [app num length]. pose proof (num_nonneg x Hx). pose proof (num_nonneg (x ++ y) (Forall_app_2 _ _ _ Hx Hy)). pose proof (shift_pos (length x)). pose proof (shift_pos (S (length x))). unfold byte in Hb.
  rewrite (oc_cong_add _ (256 * (num x + shift (length x) * num y)) b); try nia; [|by apply oc_cong_mul; try nia].
  replace (b + 256 * (num x + _)) with (b + 256 * num x + 256 * (shift (length x) * num y)) by lia. apply oc_cong_add; try nia.
  symmetry. by apply shift_S.
Qed.

(** The words in network order sum up to the number times 256. *)
Lemma be_words_sum bs : Forall byte bs -> Forall (fun w => 0 <= w <= 65535) (be_words bs) /\ 0 <= foldr Z.add 0 (be_words bs) /\ oc (foldr Z.add 0 (be_words bs)) = oc (256 * num bs).
Proof.
  unfold byte. remember (length bs) as n eqn:Hn. revert bs Hn. induction n as [n IH] using lt_wf_ind. intros bs -> Hbs. destruct bs as [|a [|b bs]]; cbn [be_words num foldr].
  - by split_and!.
  - apply Forall_cons in Hbs as [Ha _]. split; [constructor; [lia|done]|]. split; [lia|]. f_equal. lia.
  - apply Forall_cons in Hbs as [Ha [Hb Hbs]%Forall_cons]. destruct (IH (length bs) ltac:(cbn; lia) bs eq_refl Hbs) as (I1 & I2 & I3).
    pose proof (num_nonneg bs Hbs). split; [constructor; [lia|done]|]. split; [lia|].
    rewrite (oc_cong_add _ (256 * num bs)) by (done || lia).
    replace (256 * (a + 256 * (b + 256 * num bs))) with (256 * a + 65536 * (b + 256 * num bs)) by lia. rewrite oc_shift by lia. f_equal. lia.
Qed.
Lemma add1c_oc x y : 0 <= x <= 65535 -> 0 <= y <= 65535 -> add1c x y = oc (x + y).
Proof.
  intros. unfold add1c. symmetry. destruct (Z.gtb_spec (x + y) 65535); apply oc_unique; try lia; [replace (x + y - 65535 - (x + y)) with ((-1) * 65535) by lia; apply Z.mod_mul; lia|by rewrite Z.sub_diag].
Qed.
Lemma fold_add1c ws a : Forall (fun w => 0 <= w <= 65535) ws -> 0 <= a <= 65535 -> fold_left add1c ws a = oc (a + foldr Z.add 0 ws) /\ 0 <= foldr Z.add 0 ws.
Proof.
  intros Hws. revert a. induction Hws as [|w ws Hw _ IH]; intros a Ha; cbn [fold_left foldr]; [rewrite Z.add_0_r, oc_small by done; lia|].
  rewrite add1c_oc by done. pose proof (oc_spec (a + w) ltac:(lia)) as [Hr _]. destruct (IH _ Hr) as [E Hp]. split; [|lia].
  rewrite E, oc_add by lia. f_equal. lia.
Qed.
Lemma internet_sum_num bs : Forall byte bs -> internet_sum bs = oc (256 * num bs).
Proof. intros Hbs. destruct (be_words_sum bs Hbs) as (H1 & H2 & H3). unfold internet_sum. destruct (fold_add1c _ 0 H1 ltac:(lia)) as [-> _]. exact H3. Qed.

(** ** lwip_standard_chksum *)
Lemma sum_words_ok ps : forall sum, Forall byte ps -> 0 <= sum -> sum + 32768 * Z.of_nat (length ps) < 4294967296 -> exists r tl,
  sum_words ps sum = (r, tl) /\ (tl = [] \/ exists b, tl = [b] /\ byte b) /\ sum <= r <= sum + 32768 * Z.of_nat (length ps) /\
  oc (r + num tl) = oc (sum + num ps).
Proof.
  remember (length ps) as n eqn:Hn. revert ps Hn. induction n as [n IH] using lt_wf_ind. intros ps -> sum Hps Hs Hb. destruct ps as [|lo [|hi ps]]; cbn [sum_words].
  - exists sum, []. split_and!; try done; [by left|lia..].
  - apply Forall_cons in Hps as [Hlo _]. exists sum, [lo]. split_and!; try done; [right; by exists lo|lia..].
  - apply Forall_cons in Hps as [Hlo [Hhi Hps]%Forall_cons]. cbn [length] in *. unfold byte in Hlo, Hhi.
    rewrite u32_small by lia. destruct (IH (length ps) ltac:(lia) ps eq_refl (sum + (lo + 256 * hi)) Hps ltac:(lia) ltac:(lia)) as (r & tl & E & Ht & Hr & Ho).
    exists r, tl. split; [done|]. split; [done|]. split; [lia|]. rewrite Ho. pose proof (num_nonneg ps Hps). cbn [num].
    replace (sum + (lo + 256 * (hi + 256 * num ps))) with (sum + (lo + 256 * hi) + 65536 * num ps) by lia. symmetry. apply oc_shift; lia.
Qed.

Lemma standard_chksum_ok a bs : Forall byte bs -> Z.of_nat (length bs) < 65536 -> lwip_standard_chksum a bs = oc (num bs).
Proof.
  intros Hbs Hlen. unfold lwip_standard_chksum.
  assert (forall h tl t, tl = [] \/ (exists b, tl = [b] /\ byte b) -> 0 <= h < 256 -> t = 256 * h ->
    match tl with b :: _ => Z.lor (Z.land t 0xff00) b | [] => t end = 256 * h + num tl) as Ht.
  { intros h tl t Htl Hh ->. destruct Htl as [->|(b & -> & Hb)]; cbn [num]; [lia|]. unfold byte in Hb. rewrite land_high, lor_high by lia. lia. }
  assert (forall h tl, tl = [] \/ (exists b, tl = [b] /\ byte b) -> 0 <= h < 256 -> 0 <= 256 * h + num tl <= 65535) as Hr.
  { intros h tl [->|(b & -> & Hb)]; cbn [num]; unfold byte in *; lia. }
  destruct (negb (Z.land a 1 =? 0)) eqn:Eodd; [destruct bs as [|b0 bs]; [reflexivity|]|].
  - apply Forall_cons in Hbs as [Hb0 Hbs]. unfold byte in Hb0. destruct (sum_words_ok bs 0 Hbs ltac:(lia) ltac:(cbn [length] in Hlen; lia)) as (r & tl & -> & Htl & Hrr & Ho).
    rewrite (Ht b0 tl) by done. specialize (Hr b0 tl Htl Hb0). cbn [length] in Hlen.
    rewrite u32_small, fold_twice by lia. pose proof (num_nonneg bs Hbs). assert (0 <= num tl) by (destruct Htl as [->|(b & -> & Hb)]; cbn; unfold byte in *; lia).
    pose proof (oc_spec (r + (256 * b0 + num tl)) ltac:(lia)) as [Hrange _]. rewrite swap_oc by done.
    rewrite u16_small, oc_mul by (try (pose proof (oc_spec (256 * oc (r + (256 * b0 + num tl))) ltac:(lia))); lia).
    replace (r + (256 * b0 + num tl)) with (256 * b0 + (r + num tl)) by lia.
    rewrite (oc_cong_mul 256 _ (256 * b0 + num bs)) by (try lia; apply oc_cong_add; lia || done).
    cbn [num]. replace (256 * (256 * b0 + num bs)) with (256 * num bs + 65536 * b0) by lia. rewrite oc_shift by lia. f_equal. lia.
  - assert (match bs with b :: bs' => (0, bs) | [] => (0, bs) end = (0, bs)) as Em by by destruct bs.
    destruct (sum_words_ok bs 0 Hbs ltac:(lia) ltac:(lia)) as (r & tl & E & Htl & Hrr & Ho). rewrite E.
    rewrite (Ht 0 tl) by done. specialize (Hr 0 tl Htl ltac:(lia)).
    rewrite u32_small, fold_twice by lia. replace (r + (256 * 0 + num tl)) with (r + num tl) by lia. rewrite Ho.
    pose proof (num_nonneg bs Hbs). pose proof (oc_spec (0 + num bs) ltac:(lia)). by rewrite u16_small by lia.
Qed.

(** ** Chains *)
Lemma not16 v : 0 <= v <= 65535 -> u16 (Z.lnot (Z.land v 0xffff)) = 65535 - v.
Proof. intros. change (Z.land v 0xffff) with (Z.land v (Z.ones 16)). rewrite Z.land_ones, Z.mod_small by lia. unfold Z.lnot, u16. Z.div_mod_to_equations. lia. Qed.
Lemma htons_swap v : 0 <= v <= 65535 -> lwip_htons v = SWAP_BYTES_IN_WORD v.
Proof. intros. unfold lwip_htons, PP_HTONS. fold (SWAP_BYTES_IN_WORD v). apply u16_small. rewrite swap_eq by done. Z.div_mod_to_equations. lia. Qed.
(** The complement of a sum, in network order, is the checksum. *)
Definition complement (bs : list Z) : Z := 65535 - oc (num bs).
Lemma complement_range bs : Forall byte bs -> 0 <= complement bs <= 65535.
Proof. intros Hbs. pose proof (oc_spec (num bs) (num_nonneg bs Hbs)). unfold complement. lia. Qed.
Lemma htons_complement bs : Forall byte bs -> lwip_htons (complement bs) = internet_checksum bs.
Proof.
  intros Hbs. pose proof (complement_range bs Hbs). rewrite htons_swap by done. unfold complement in *. pose proof (num_nonneg bs Hbs).
  unfold internet_checksum. rewrite internet_sum_num, <- oc_mul, <- swap_oc by (done || lia). rewrite !swap_eq by lia. Z.div_mod_to_equations. lia.
Qed.

Lemma loop_step k n y a : 0 <= n -> Forall byte y -> Z.of_nat (length y) < 65536 ->
  FOLD_U32T (u32 (oc (shift k * n) + lwip_standard_chksum a y)) = oc (shift k * (n + shift k * num y)).
Proof.
  intros Hn Hy Hl. pose proof (num_nonneg y Hy). pose proof (shift_pos k). rewrite standard_chksum_ok by done.
  pose proof (oc_spec (shift k * n) ltac:(nia)) as [R1 _]. pose proof (oc_spec (num y) ltac:(lia)) as [R2 _].
  rewrite u32_small, fold_once, oc_add by (nia || lia). rewrite Z.mul_add_distr_l. apply oc_cong_add; try nia.
  rewrite shift_twice by lia. apply oc_small. lia.
Qed.
Lemma swap_step k m n : 0 <= n ->
  (if negb (Z.of_nat m mod 2 =? 0) then SWAP_BYTES_IN_WORD (oc (shift k * n)) else oc (shift k * n)) = oc (shift (k + m) * n) /\
  (if negb (Z.of_nat m mod 2 =? 0) then negb (Nat.odd k) else Nat.odd k) = Nat.odd (k + m).
Proof.
  intros Hn. pose proof (shift_pos k). pose proof (oc_spec (shift k * n) ltac:(nia)) as [R _]. rewrite shift_add, Nat.odd_add by done.
  assert ((Z.of_nat m mod 2 =? 0) = Nat.even m) as ->.
  { destruct (Nat.even m) eqn:E; [apply Nat.even_spec in E as [x ->]; apply Z.eqb_eq|apply Z.eqb_neq; assert (Nat.odd m = true) as [x ->]%Nat.odd_spec by (by rewrite <- Nat.negb_even, E)]; Z.div_mod_to_equations; lia. }
  rewrite <- (Nat.negb_even m). assert (shift m = if Nat.even m then 1 else 256) as -> by done. destruct (Nat.even m); cbn [negb].
  - split; [f_equal; lia|by rewrite xorb_false_r].
  - split; [by rewrite swap_oc, oc_mul by (nia || lia)|by rewrite xorb_true_r].
Qed.
Lemma unswap_ok k n : 0 <= n -> unswap (oc (shift k * n), Nat.odd k) = oc n.
Proof.
  intros Hn. pose proof (shift_pos k). pose proof (oc_spec (shift k * n) ltac:(nia)) as [R _]. unfold unswap, shift in *. cbn [fst snd].
  rewrite <- Nat.negb_even. destruct (Nat.even k); cbn [negb]; [f_equal; lia|]. rewrite swap_oc, oc_mul by lia.
  replace (256 * (256 * n)) with (0 + 65536 * n) by lia. rewrite oc_shift by lia. f_equal.
Qed.

Lemma num_chain n k y z : 0 <= n -> Forall byte y -> Forall byte z ->
  oc (n + shift k * num y + shift (k + length y) * num z) = oc (n + shift k * num (y ++ z)).
Proof.
  intros Hn Hy Hz. pose proof (num_nonneg y Hy). pose proof (num_nonneg z Hz). pose proof (num_nonneg (y ++ z) (Forall_app_2 _ _ _ Hy Hz)).
  pose proof (shift_pos k). pose proof (shift_pos (length y)). pose proof (shift_pos (k + length y)).
  rewrite (oc_cong_add (shift k * num (y ++ z)) (shift k * (num y + shift (length y) * num z)) n) by (try nia; apply oc_cong_mul; try nia; by apply num_app).
  replace (n + shift k * (num y + shift (length y) * num z)) with (n + shift k * num y + shift k * (shift (length y) * num z)) by lia.
  apply oc_cong_add; try nia. rewrite Nat.add_comm. by apply shift_add.
Qed.

(** ** The pseudo header *)
Lemma le32_bytes v : 0 <= v < 4294967296 -> Forall byte (le32 v) /\ num (le32 v) = v.
Proof. intros. unfold le32, byte. split; [repeat constructor; Z.div_mod_to_equations; lia|]. cbn [num]. Z.div_mod_to_equations. lia. Qed.
Lemma oc_halves v n : 0 <= v -> 0 <= n -> oc (n + (v mod 65536 + v / 65536)) = oc (n + v).
Proof.
  intros. assert (0 <= v / 65536 /\ 0 <= v mod 65536 /\ v = v mod 65536 + 65536 * (v / 65536)) as (H1 & H2 & H3) by (Z.div_mod_to_equations; lia).
  rewrite H3 at 3. symmetry. apply oc_cong_add; try lia. by apply oc_shift.
Qed.
Lemma fold_addresses_ok src dest : 0 <= src < 4294967296 -> 0 <= dest < 4294967296 -> fold_addresses src dest = oc (src + dest).
Proof.
  intros Hs Hd. unfold fold_addresses. change 0xffff with (Z.ones 16). rewrite !Z.land_ones, !Z.shiftr_div_pow2 by lia. change (2 ^ 16) with 65536.
  assert (forall v, 0 <= v < 4294967296 -> 0 <= v / 65536 < 65536 /\ 0 <= v mod 65536 < 65536) as Hh by (intros; Z.div_mod_to_equations; lia).
  pose proof (Hh src Hs). pose proof (Hh dest Hd). rewrite !(Z.mod_small (_ / 65536)) by lia.
  rewrite (u32_small (src mod 65536 + src / 65536)), (u32_small (_ + dest mod 65536)), u32_small, fold_twice by lia.
  rewrite <- Z.add_assoc, oc_halves by lia. rewrite Z.add_comm, oc_halves by lia. f_equal. lia.
Qed.
Lemma pseudo_header_num src dest proto n bs : 0 <= src < 4294967296 -> 0 <= dest < 4294967296 -> 0 <= proto < 256 -> 0 <= n < 65536 -> Forall byte bs ->
  Forall byte (pseudo_header src dest proto n ++ bs) /\
  oc (num (pseudo_header src dest proto n ++ bs)) = oc (src + dest + num bs + lwip_htons proto + lwip_htons n).
Proof.
  intros Hs Hd Hp Hn Hbs. destruct (le32_bytes src Hs) as [Bs Ns], (le32_bytes dest Hd) as [Bd Nd]. pose proof (num_nonneg bs Hbs).
  rewrite !htons_swap, !swap_eq by lia. rewrite (Z.mod_small proto), (Z.div_small proto) by lia.
  assert (0 <= n / 256 < 256 /\ 0 <= n mod 256 < 256) as [Hn1 Hn2] by (Z.div_mod_to_equations; lia).
  unfold pseudo_header. rewrite <- !app_assoc. set (r := [0; proto; n / 256; n mod 256] ++ bs).
  assert (Forall byte r) as Br by (unfold r, byte; repeat constructor; try lia; done). pose proof (num_nonneg r Br).
  assert (Forall byte (le32 dest ++ r)) as Bdr by (by apply Forall_app_2). pose proof (num_nonneg _ Bdr). split; [by apply Forall_app_2|].
  rewrite num_app, Ns by done. change (shift (length (le32 src))) with 1. rewrite Z.mul_1_l.
  rewrite (oc_cong_add _ (num (le32 dest) + num r) src) by (try lia; rewrite num_app by done; change (shift (length (le32 dest))) with 1; by rewrite Z.mul_1_l). rewrite Nd.
  unfold r. cbn [app num]. replace (src + (dest + (0 + 256 * (proto + 256 * (n / 256 + 256 * (n mod 256 + 256 * num bs))))))
    with (src + dest + 256 * proto + 65536 * (n / 256 + 256 * (n mod 256) + 65536 * num bs)) by lia. rewrite oc_shift by lia.
  replace (src + dest + 256 * proto + (n / 256 + 256 * (n mod 256) + 65536 * num bs)) with (src + dest + 256 * proto + (n / 256 + 256 * (n mod 256)) + 65536 * num bs) by lia.
  rewrite oc_shift by lia. f_equal. lia.
Qed.
Lemma pseudo_finish_ok a proto n : 0 <= a -> 0 <= proto < 256 -> 0 <= n < 65536 -> pseudo_finish (oc a) proto n = 65535 - oc (a + lwip_htons proto + lwip_htons n).
Proof.
  intros Ha Hp Hn. pose proof (oc_spec a Ha) as [Ra _]. unfold pseudo_finish. assert (forall v, 0 <= v < 65536 -> 0 <= lwip_htons v < 65536) as Hh.
  { intros v Hv. rewrite htons_swap, swap_eq by lia. Z.div_mod_to_equations. lia. }
  pose proof (Hh proto ltac:(lia)). pose proof (Hh n Hn). rewrite (u32_small (oc a + _)), u32_small, fold_twice by lia. rewrite <- Z.add_assoc, oc_add, Z.add_assoc by lia.
  apply not16. pose proof (oc_spec (a + lwip_htons proto + lwip_htons n) ltac:(lia)). lia.
Qed.

Section chains.
Context {H : Type} `{!LwipMem H} {HM : LwipMemOk H} (F : gset Z).

Lemma read_node p a b k σ s bs : pb_rep F (fun _ => 0) 0 σ s bs -> σ !! p = Some a -> pbufs s !! p = Some b -> 0 <= k <= len b ->
  read_payload (payload b) k s = Some (take (Z.to_nat k) (n_data a)).
Proof using HM. intros Hr E Eb Hk. pose proof (PbufSpec.read_ok F p a b 0 k σ s bs Hr E Eb ltac:(lia) ltac:(lia) ltac:(lia)) as R. by rewrite Z.add_0_r in R. Qed.

(** Both loops: from the sum [n] of [k] bytes to that of the first [m] bytes of the chain as well. *)
Lemma partial_loop_ok fuel p l m k n σ s bs : pb_rep F (fun _ => 0) 0 σ s bs -> path σ p l -> (length l < fuel)%nat -> Forall byte (data σ l) -> 0 <= n -> 0 <= m < 65536 ->
  exists r, partial_loop fuel p m (oc (shift k * n)) (Nat.odd k) s = Some r /\ unswap r = oc (n + shift k * num (take (Z.to_nat m) (data σ l))).
Proof using HM.
  intros Hr. revert p l m k n. induction fuel as [|fuel IH]; intros p l m k n Hl Hf Hd Hn Hm; [lia|]. cbn [partial_loop]. pose proof (rep_zero _ _ _ _ _ _ Hr) as H0.
  pose proof (shift_pos k). inversion Hl as [|? a r Hp E Hlr]; subst.
  { eexists. split; [done|]. rewrite unswap_ok by done. unfold data. cbn [map concat]. rewrite take_nil. cbn [num]. by rewrite Z.mul_0_r, Z.add_0_r. }
  rewrite (proj2 (Z.eqb_neq p 0)) by done. destruct (Z.gtb_spec m 0) as [Hm0|Hm0]; cbn [orb negb].
  2: { eexists. split; [done|]. rewrite unswap_ok by done. replace m with 0 by lia. cbn [Z.to_nat take num]. by rewrite Z.mul_0_r, Z.add_0_r. }
  destruct (pr_node _ _ _ _ _ _ Hr p a E) as (b & Eb & [[->|Hnx] Hlen [_ Htot] _ _ _ _ _]); [congruence|].
  unfold get. rewrite Eb. cbn [mbind option_bind]. rewrite (data_cons _ _ a) in * by done. apply Forall_app in Hd as [Hda Hdr]. simpl in Hf.
  set (chk := if len b >? m then m else len b). assert (chk = Z.min m (len b)) as Hchk by (unfold chk; destruct (Z.gtb_spec (len b) m); lia).
  rewrite (read_node p a b chk σ s bs Hr E Eb) by lia. cbn [mbind option_bind].

  set (y := take (Z.to_nat chk) (n_data a)). assert (Forall byte y) as Hy by (by apply Forall_take).
  assert (Z.of_nat (length y) = chk) as Hyl by (unfold y; rewrite length_take; lia).
  rewrite loop_step by (done || lia). pose proof (num_nonneg y Hy). set (n' := n + shift k * num y). assert (0 <= n') by (unfold n'; nia).
  destruct (swap_step k (length (n_data a)) n') as [E1 E2]; [done|]. rewrite <- Hlen in E1, E2. rewrite Hnx, u16_small by lia.
  destruct (IH (n_next a) r (m - chk) (k + length (n_data a))%nat n') as (res & Eres & Hres); try done; try lia.
  exists res. split.
  { rewrite <- Eres, <- E1, <- E2. by destruct (negb (len b mod 2 =? 0)). }
  rewrite Hres, take_app. unfold n'. pose proof (Forall_take byte (Z.to_nat (m - chk)) _ Hdr) as Hz. pose proof (num_nonneg _ Hz).
  destruct (decide (m <= len b)) as [Hle|Hle].
  - replace (m - chk) with 0 by lia. replace (Z.to_nat m - length (n_data a))%nat with 0%nat by lia. replace (Z.to_nat m) with (Z.to_nat chk) by (f_equal; lia).
    fold y. rewrite !take_0. cbn [num Z.to_nat]. rewrite app_nil_r. f_equal. lia.
  - replace (Z.to_nat m - length (n_data a))%nat with (Z.to_nat (m - chk)) by lia. assert (y = n_data a) as Ey by (unfold y; rewrite take_ge; [done|lia]).
    rewrite (take_ge (n_data a)), <- Ey by lia. by apply num_chain.
Qed.

Lemma chksum_loop_ok fuel p l k n σ s bs : pb_rep F (fun _ => 0) 0 σ s bs -> path σ p l -> (length l < fuel)%nat -> Forall byte (data σ l) -> 0 <= n ->
  exists r, chksum_loop fuel p (oc (shift k * n)) (Nat.odd k) s = Some r /\ unswap r = oc (n + shift k * num (data σ l)).
Proof using HM.
  intros Hr. revert p l k n. induction fuel as [|fuel IH]; intros p l k n Hl Hf Hd Hn; [lia|]. cbn [chksum_loop]. pose proof (rep_zero _ _ _ _ _ _ Hr) as H0.
  inversion Hl as [|? a r Hp E Hlr]; subst.
  { eexists. split; [done|]. rewrite unswap_ok by done. cbn [data map concat num]. by rewrite Z.mul_0_r, Z.add_0_r. }
  rewrite (proj2 (Z.eqb_neq p 0)) by done.
  destruct (pr_node _ _ _ _ _ _ Hr p a E) as (b & Eb & [[->|Hnx] Hlen [(l' & Hl' & Ht) Htb] _ _ _ _ _]); [congruence|].
  rewrite (path_det _ _ _ _ Hl' Hl) in Ht. unfold get. rewrite Eb. cbn [mbind option_bind]. rewrite (data_cons _ _ a) in * by done. rewrite length_app in Ht.
  apply Forall_app in Hd as [Hda Hdr]. simpl in Hf. rewrite (read_node p a b (len b) σ s bs Hr E Eb) by lia. rewrite take_ge by lia. cbn [mbind option_bind].
  rewrite loop_step by (done || lia). pose proof (num_nonneg _ Hda). pose proof (shift_pos k). set (n' := n + shift k * num (n_data a)). assert (0 <= n') by (unfold n'; nia).
  destruct (swap_step k (length (n_data a)) n') as [E1 E2]; [done|]. rewrite <- Hlen in E1, E2. rewrite Hnx.
  destruct (IH (n_next a) r (k + length (n_data a))%nat n') as (res & Eres & Hres); try done; try lia.
  exists res. split; [rewrite <- Eres, <- E1, <- E2; by destruct (negb (len b mod 2 =? 0))|]. rewrite Hres. by apply num_chain.
Qed.

(** The values that the functions return, as the processor reads them. *)
Section value.
Context (p : Z) (l : list Z) (σ : Graph) (s : Store H) (Hr : represents F σ s) (Hl : path σ p l) (Hd : Forall byte (data σ l)).

Lemma chksum_pbuf_value : inet_chksum_pbuf p s = Some (complement (data σ l)).
Proof using HM F Hr Hl Hd.
  destruct Hr as [bs Hb]. pose proof (path_length _ _ _ Hl). pose proof (num_nonneg _ Hd). pose proof (oc_spec _ (num_nonneg _ Hd)).
  destruct (chksum_loop_ok (S (base.size (pbufs s))) p l 0 0 σ s bs Hb Hl) as (r & E & Hu); try done; [rewrite (rep_size _ _ _ _ _ _ Hb); lia|].
  unfold inet_chksum_pbuf. change 0 with (oc (shift 0 * 0)) at 1. change false with (Nat.odd 0). rewrite E. cbn [mbind option_bind]. rewrite Hu. change (shift 0) with 1.
  rewrite Z.add_0_l, Z.mul_1_l, not16 by lia. done.
Qed.

Context (src dest proto n : Z) (Hs : 0 <= src < 4294967296) (Hdest : 0 <= dest < 4294967296) (Hp : 0 <= proto < 256) (Hn : 0 <= n < 65536).

Lemma chksum_pseudo_value : ip_chksum_pseudo p proto n src dest s = Some (complement (pseudo_header src dest proto n ++ data σ l)).
Proof using HM F Hr Hl Hd Hs Hdest Hp Hn.
  destruct Hr as [bs Hb]. pose proof (path_length _ _ _ Hl). pose proof (num_nonneg _ Hd).
  destruct (chksum_loop_ok (S (base.size (pbufs s))) p l 0 (src + dest) σ s bs Hb Hl) as (r & E & Hu); try done; [rewrite (rep_size _ _ _ _ _ _ Hb); lia|lia|].
  change (shift 0) with 1 in *. rewrite !Z.mul_1_l in *. change (Nat.odd 0) with false in E.
  unfold ip_chksum_pseudo, inet_chksum_pseudo, inet_cksum_pseudo_base. rewrite fold_addresses_ok by done. rewrite E. cbn [mbind option_bind].
  rewrite Hu, pseudo_finish_ok by lia. unfold complement. by rewrite (proj2 (pseudo_header_num src dest proto n _ Hs Hdest Hp Hn Hd)).
Qed.

Lemma chksum_partial_value m : 0 <= m < 65536 ->
  ip_chksum_pseudo_partial p proto n m src dest s = Some (complement (pseudo_header src dest proto n ++ take (Z.to_nat m) (data σ l))).
Proof using HM F Hr Hl Hd Hs Hdest Hp Hn.
  intros Hm. destruct Hr as [bs Hb]. pose proof (path_length _ _ _ Hl). pose proof (Forall_take byte (Z.to_nat m) _ Hd) as Ht. pose proof (num_nonneg _ Ht).
  destruct (partial_loop_ok (S (base.size (pbufs s))) p l m 0 (src + dest) σ s bs Hb Hl) as (r & E & Hu); try done; [rewrite (rep_size _ _ _ _ _ _ Hb); lia|lia|].
  change (shift 0) with 1 in *. rewrite !Z.mul_1_l in *. change (Nat.odd 0) with false in E.
  unfold ip_chksum_pseudo_partial, inet_chksum_pseudo_partial, inet_cksum_pseudo_partial_base. rewrite fold_addresses_ok by done. rewrite E. cbn [mbind option_bind].
  rewrite Hu, pseudo_finish_ok by lia. unfold complement. by rewrite (proj2 (pseudo_header_num src dest proto n _ Hs Hdest Hp Hn Ht)).
Qed.
End value.

Lemma complements_sum t w : 0 < t -> 0 <= w < 65536 -> let c := 65535 - oc t in let r := 65535 - oc (t + w) in
  (w = c -> r = 0) /\ (r = 0 -> w = c \/ (w = 0 /\ c = 65535) \/ (w = 65535 /\ c = 0)).
Proof.
  intros Ht Hw. cbn zeta. destruct (oc_spec t ltac:(lia)) as (A1 & A2 & A3). destruct (oc_spec (t + w) ltac:(lia)) as (B1 & B2 & B3).
  split; intros; Z.div_mod_to_equations; lia.
Qed.

(** C38: the checksums are those of RFC 1071.  Whatever the addresses of the
    buffers and however the bytes are divided over the pbufs of a chain, what
    the functions return is, in network order, the one's complement of the one's
    complement sum of the big-endian words of the data, of its first [m] bytes,
    and of the pseudo header with the data. *)
Theorem checksum_is_rfc1071 p l σ s src dest proto n m a bs : represents F σ s -> path σ p l -> Forall byte (data σ l) ->
  0 <= src < 4294967296 -> 0 <= dest < 4294967296 -> 0 <= proto < 256 -> 0 <= n < 65536 -> 0 <= m < 65536 -> Forall byte bs -> Z.of_nat (length bs) < 65536 ->
  lwip_htons (inet_chksum a bs) = internet_checksum bs /\
  lwip_htons <$> inet_chksum_pbuf p s = Some (internet_checksum (data σ l)) /\
  lwip_htons <$> ip_chksum_pseudo p proto n src dest s = Some (internet_checksum (pseudo_header src dest proto n ++ data σ l)) /\
  lwip_htons <$> ip_chksum_pseudo_partial p proto n m src dest s = Some (internet_checksum (pseudo_header src dest proto n ++ take (Z.to_nat m) (data σ l))).
Proof using HM.
  intros Hr Hl Hd Hs Hdest Hp Hn Hm Hbs Hlen. pose proof (Forall_take byte (Z.to_nat m) _ Hd) as Ht. split.
  { rewrite <- htons_complement by done. f_equal. unfold inet_chksum, complement. rewrite standard_chksum_ok by done.
    pose proof (oc_spec _ (num_nonneg _ Hbs)). unfold Z.lnot, u16. Z.div_mod_to_equations. lia. }
  rewrite (chksum_pbuf_value p l σ s), (chksum_pseudo_value p l σ s), (chksum_partial_value p l σ s) by done. cbn [fmap option_fmap option_map].
  rewrite !htons_complement; try done; by apply pseudo_header_num.
Qed.

(** C39: the checksum protects a segment.  A sender computes the checksum over
    the segment with zero in its checksum field; the receiver's computation over
    any segment that has [w] in this field, in whatever pbufs it arrives, gives
    zero for the sender's checksum, and for no other [w] than the same number in
    one's complement (0 and 65535). *)
Theorem checksum_verifies p l σ s p' l' σ' s' src dest proto n x y w : represents F σ s -> path σ p l -> represents F σ' s' -> path σ' p' l' ->
  0 <= src < 4294967296 -> 0 <= dest < 4294967296 -> 0 < proto < 256 -> 0 <= n < 65536 -> Forall byte x -> Forall byte y -> 0 <= w < 65536 -> Nat.even (length x) = true ->
  data σ l = x ++ [0; 0] ++ y -> data σ' l' = x ++ [w mod 256; w / 256] ++ y ->
  exists c r, ip_chksum_pseudo p proto n src dest s = Some c /\ ip_chksum_pseudo p' proto n src dest s' = Some r /\
    (w = c -> r = 0) /\ (r = 0 -> w = c \/ (w = 0 /\ c = 65535) \/ (w = 65535 /\ c = 0)).
Proof using HM.
  intros Hr Hl Hr' Hl' Hs Hdest Hp Hn Hx Hy Hw Hev Ed Ed'.
  assert (byte (w mod 256) /\ byte (w / 256) /\ byte 0) as (Hw1 & Hw2 & Hb0) by (unfold byte; Z.div_mod_to_equations; lia).
  assert (forall v, 0 <= v < 65536 -> Forall byte (x ++ [v mod 256; v / 256] ++ y) /\ oc (num (x ++ [v mod 256; v / 256] ++ y)) = oc (num x + num y + v)) as Hsum.
  { intros v Hv. assert (Forall byte ([v mod 256; v / 256] ++ y)) as Hb by (repeat constructor; unfold byte; try (Z.div_mod_to_equations; lia); done).
    split; [by apply Forall_app_2|]. rewrite num_app by done. unfold shift. rewrite Hev, Z.mul_1_l. cbn [app num]. pose proof (num_nonneg x Hx). pose proof (num_nonneg y Hy).
    replace (num x + (v mod 256 + 256 * (v / 256 + 256 * num y))) with (num x + v + 65536 * num y) by (Z.div_mod_to_equations; lia). rewrite oc_shift by lia. f_equal. lia. }
  destruct (Hsum 0 ltac:(lia)) as [B0 S0]. destruct (Hsum w Hw) as [Bw Sw]. change [0 mod 256; 0 / 256] with [0; 0] in B0, S0. rewrite <- Ed in B0, S0. rewrite <- Ed' in Bw, Sw.
  do 2 eexists. split; [apply (chksum_pseudo_value p l σ s); done || lia|]. split; [apply (chksum_pseudo_value p' l' σ' s'); done || lia|].
  destruct (pseudo_header_num src dest proto n (data σ l)) as [_ E0]; try done; [lia|]. destruct (pseudo_header_num src dest proto n (data σ' l')) as [_ Ew]; try done; [lia|].
  unfold complement. rewrite E0, Ew. clear E0 Ew. pose proof (num_nonneg x Hx). pose proof (num_nonneg y Hy).
  pose proof (num_nonneg _ B0). pose proof (num_nonneg _ Bw).
  assert (0 < lwip_htons proto) by (rewrite htons_swap, swap_eq by lia; Z.div_mod_to_equations; lia).
  assert (0 <= lwip_htons n) by (rewrite htons_swap, swap_eq by lia; Z.div_mod_to_equations; lia).
  set (k := src + dest + lwip_htons proto + lwip_htons n).
  assert (forall d, 0 <= d -> src + dest + d + lwip_htons proto + lwip_htons n = k + d) as Hk by (intros; unfold k; lia). rewrite !Hk by done.
  rewrite (oc_cong_add _ (num x + num y + 0) k), (oc_cong_add (num (data σ' l')) (num x + num y + w) k) by (done || lia).
  set (t := k + (num x + num y)). assert (0 < t) by (unfold t, k; lia). replace (k + (num x + num y + 0)) with t by lia. replace (k + (num x + num y + w)) with (t + w) by lia.
  apply complements_sum; lia.
Qed.
End chains.
