(* ===== verification/InetChksumSample.v ===== *)
(** * Checksums of sample segments *)

From S2P Require Import Prelude LwipErr Mem MemSample LwipMem Pbuf PbufGraph PbufRep PbufSpec PbufSample Ethernet EthernetSpec InetChksum InetChksumSpec.
#[local] Open Scope Z_scope.

#[local] Existing Instances sample_lwip sample_lwip_ok.

Lemma sample_alloc6_at : option_map snd (pbuf_alloc (fun _ _ => None) PBUF_IP 6 PBUF_RAM sample_store) = Some 0x20004008.
Proof. vm_compute. reflexivity. Qed.

(** Any six bytes in a pbuf of the heap. *)
Lemma segment_in_pbuf bs : length bs = 6%nat -> exists σ s, represents ∅ σ s /\ path σ 0x20004008 [0x20004008] /\ data σ [0x20004008] = bs.
Proof.
  intros Hbs. destruct (alloc_call (fun _ _ => None) ∅ PBUF_IP 6 PBUF_RAM ∅ sample_store sample_represents) as (s & p & E & Hres); [split; [done|split; [done|by left]]|].
  pose proof sample_alloc6_at as Hp. rewrite E in Hp. injection Hp as ->.
  destruct Hres as [[? _]|(Hp & σ & l & Hg & Hl & Hr)]; [discriminate|]. rewrite (Hl (or_introl eq_refl)) in Hg.
  replace 6 with (Z.of_nat (length bs)) in Hg by (rewrite Hbs; done).
  destruct (take_call (fun _ _ => None) ∅ 0x20004008 bs [0x20004008] σ s Hr (gr_path _ _ _ _ _ _ Hg)) as (s' & σ' & _ & Hov & Hr').
  - done.
  - unfold total_of. rewrite (gr_total _ _ _ _ _ _ Hg). lia.
  - rewrite Hbs. lia.
  - destruct (grown_overwritten _ _ _ _ _ _ _ Hg Hov) as [Hg' Hd]. exists σ', s'. split; [done|]. split; [|done]. exact (gr_path _ _ _ _ _ _ Hg').
Qed.

(** 192.168.1.10 and 192.168.1.1 as they stand in memory. *)
Definition sample_src : Z := 0x0A01A8C0.
Definition sample_dest : Z := 0x0101A8C0.
Definition sample_segment : list Z := [1; 2; 0; 0; 5; 6].
(** The checksum of [sample_segment] as the processor reads it. *)
Definition sample_checksum : Z := 0x8476.

Lemma checksum_is_rfc1071_witness : exists s : Store Memory, lwip_htons <$> inet_chksum_pbuf 0x20004008 s = Some 0xF9F7 /\
  lwip_htons <$> ip_chksum_pseudo 0x20004008 17 6 sample_src sample_dest s = Some 0x7684 /\ lwip_htons (inet_chksum 0x20000001 sample_segment) = 0xF9F7.
Proof.
  destruct (segment_in_pbuf sample_segment eq_refl) as (σ & s & Hr & Hl & Hd). exists s.
  destruct (checksum_is_rfc1071 ∅ 0x20004008 [0x20004008] σ s sample_src sample_dest 17 6 0 0x20000001 sample_segment) as (E1 & E2 & E3 & _);
    try done; try (unfold sample_src, sample_dest; lia); try (rewrite Hd); try (repeat constructor; lia).
  rewrite E1, E2, E3, Hd. split_and!; vm_compute; reflexivity.
Defined.

(** The segment with its checksum in place is accepted. *)
Lemma checksum_verifies_witness : exists s s' : Store Memory, ip_chksum_pseudo 0x20004008 17 6 sample_src sample_dest s = Some sample_checksum /\
  ip_chksum_pseudo 0x20004008 17 6 sample_src sample_dest s' = Some 0.
Proof.
  destruct (segment_in_pbuf sample_segment eq_refl) as (σ & s & Hr & Hl & Hd). destruct (segment_in_pbuf [1; 2; 0x76; 0x84; 5; 6] eq_refl) as (σ' & s' & Hr' & Hl' & Hd').
  exists s, s'. assert (ip_chksum_pseudo 0x20004008 17 6 sample_src sample_dest s = Some sample_checksum) as Ec.
  { rewrite (chksum_pseudo_value ∅ 0x20004008 [0x20004008] σ s); try done; try (unfold sample_src, sample_dest; lia); rewrite Hd; [vm_compute; reflexivity|repeat constructor; lia]. }
  destruct (checksum_verifies ∅ 0x20004008 [0x20004008] σ s 0x20004008 [0x20004008] σ' s' sample_src sample_dest 17 6 [1; 2] [5; 6] sample_checksum) as (c & r & E1 & E2 & E3 & _);
    try done; try (unfold sample_src, sample_dest, sample_checksum; lia); try (repeat constructor; lia).
  split; [exact Ec|]. rewrite E2. f_equal. apply E3. rewrite Ec in E1. by injection E1.
Defined.
