(* ===== verification/Timeouts.v ===== *)
(** * timeouts.c: the timeouts of lwIP

    The list of pending timeouts is a Rocq list, each element with the time
    when it is due, a 32-bit number of milliseconds that wraps, and with what
    is called then.  The clock of the board counts without bound; sys_now() is
    its low 32 bits. *)

From S2P Require Import Prelude.
#[local] Open Scope Z_scope.

(** [MEMP_NUM_SYS_TIMEOUT]: one each for TCP, reassembly and ARP, two for DHCP.
    The pool serves this list alone, so it is empty when all of it is linked. *)
Definition MEMP_NUM_SYS_TIMEOUT : nat := 5.
Definition LWIP_MAX_TIMEOUT : Z := 0x7fffffff.
Definition TIME_LESS_THAN (t compare_to : Z) : bool := u32 (t - compare_to) >? LWIP_MAX_TIMEOUT.
Definition SYS_TIMEOUTS_SLEEPTIME_INFINITE : Z := 0xFFFFFFFF.

(** The handler of a timeout with its argument. *)
Inductive callback :=
| lwip_cyclic (i : nat)
| tcpip_tcp
| handler (h arg : Z).
#[export] Instance callback_eq_dec : EqDecision callback.
Proof. solve_decision. Defined.

(** lwip_cyclic_timers: the intervals of tcp_tmr, ip_reass_tmr, etharp_tmr,
    dhcp_coarse_tmr and dhcp_fine_tmr. *)
Definition TCP_TMR_INTERVAL : Z := 250.
Definition lwip_cyclic_timers : list Z := [TCP_TMR_INTERVAL; 1000; 1000; 60000; 500].
Definition interval_ms (i : nat) : Z := default 0 (lwip_cyclic_timers !! i).

Record sys_timeo := mkTimeo { time : Z; h : callback }.

(** [tcp_pcbs]: there are active or time-wait connections; [fired]: what was
    called and when, the last one first. *)
Record State := mkState {
  timeouts : list sys_timeo; current_timeout_due_time : Z; tcpip_tcp_timer_active : bool; tcp_pcbs : bool;
  clock : Z; fired : list (callback * Z)
}.
Definition set_timeouts (l : list sys_timeo) (s : State) : State :=
  mkState l (current_timeout_due_time s) (tcpip_tcp_timer_active s) (tcp_pcbs s) (clock s) (fired s).
Definition set_tcp_active (b : bool) (s : State) : State :=
  mkState (timeouts s) (current_timeout_due_time s) b (tcp_pcbs s) (clock s) (fired s).
Definition set_tcp_pcbs (b : bool) (s : State) : State :=
  mkState (timeouts s) (current_timeout_due_time s) (tcpip_tcp_timer_active s) b (clock s) (fired s).
Definition elapse (ms : Z) (s : State) : State :=
  mkState (timeouts s) (current_timeout_due_time s) (tcpip_tcp_timer_active s) (tcp_pcbs s) (clock s + ms) (fired s).
Definition now_ms (s : State) : Z := u32 (clock s).

(** The loop that finds the place after the first timeout. *)
Fixpoint link_after (timeout : sys_timeo) (l : list sys_timeo) : list sys_timeo :=
  match l with
  | [] => []
  | t :: next =>
    match next with
    | [] => [t; timeout]
    | n :: _ => if TIME_LESS_THAN (time timeout) (time n) then t :: timeout :: next else t :: link_after timeout next
    end
  end.
Definition sys_timeout_abs (abs_time : Z) (cb : callback) (s : State) : State :=
  if (MEMP_NUM_SYS_TIMEOUT <=? length (timeouts s))%nat then s
  else
    let timeout := mkTimeo abs_time cb in
    set_timeouts
      match timeouts s with
      | [] => [timeout]
      | next_timeout :: _ =>
        if TIME_LESS_THAN (time timeout) (time next_timeout) then timeout :: timeouts s else link_after timeout (timeouts s)
      end s.
Definition sys_timeout (msecs : Z) (cb : callback) (s : State) : State := sys_timeout_abs (u32 (now_ms s + msecs)) cb s.

Fixpoint unlink_first (cb : callback) (l : list sys_timeo) : list sys_timeo :=
  match l with
  | [] => []
  | t :: next => if decide (h t = cb) then next else t :: unlink_first cb next
  end.
Definition sys_untimeout (cb : callback) (s : State) : State := set_timeouts (unlink_first cb (timeouts s)) s.

Definition tcp_timer_needed (s : State) : State :=
  if negb (tcpip_tcp_timer_active s) && tcp_pcbs s then sys_timeout TCP_TMR_INTERVAL tcpip_tcp (set_tcp_active true s) else s.

(** ** What handlers and the rest of the stack do *)
Inductive TimeoutCall :=
| CTimeout (msecs : Z) (cb : callback)
| CUntimeout (cb : callback)
| CTcpPcbs (b : bool)
| CTcpTimerNeeded
| CElapse (ms : Z).
Definition call (c : TimeoutCall) (s : State) : State :=
  match c with
  | CTimeout msecs cb => sys_timeout msecs cb s
  | CUntimeout cb => sys_untimeout cb s
  | CTcpPcbs b => set_tcp_pcbs b s
  | CTcpTimerNeeded => tcp_timer_needed s
  | CElapse ms => elapse ms s
  end.
Definition calls (cs : list TimeoutCall) (s : State) : State := foldl (fun s c => call c s) s cs.

Section handlers.
(** The calls that the handler makes that is called as the [n]-th one. *)
Context (handler_calls : nat -> list TimeoutCall).
Definition run_handler (s : State) : State := calls (handler_calls (length (fired s) - 1)) s.

Definition lwip_cyclic_timer (i : nat) (s : State) : State :=
  let s := run_handler s in
  let now := now_ms s in
  let next_timeout_time := u32 (current_timeout_due_time s + interval_ms i) in
  if TIME_LESS_THAN next_timeout_time now then sys_timeout_abs (u32 (now + interval_ms i)) (lwip_cyclic i) s
  else sys_timeout_abs next_timeout_time (lwip_cyclic i) s.
Definition tcpip_tcp_timer (s : State) : State :=
  let s := run_handler s in
  if tcp_pcbs s then sys_timeout TCP_TMR_INTERVAL tcpip_tcp s else set_tcp_active false s.
Definition call_handler (cb : callback) (s : State) : State :=
  match cb with
  | lwip_cyclic i => lwip_cyclic_timer i s
  | tcpip_tcp => tcpip_tcp_timer s
  | handler _ _ => run_handler s
  end.

(** The loop of sys_check_timeouts; [None] when the fuel runs out. *)
Fixpoint check_loop (fuel : nat) (now : Z) (s : State) : option State :=
  match fuel with
  | O => None
  | S fuel =>
    match timeouts s with
    | [] => Some s
    | tmptimeout :: next =>
      if TIME_LESS_THAN now (time tmptimeout) then Some s
      else
        let s := mkState next (time tmptimeout) (tcpip_tcp_timer_active s) (tcp_pcbs s) (clock s) ((h tmptimeout, clock s) :: fired s) in
        check_loop fuel now (call_handler (h tmptimeout) s)
    end
  end.
(** Each timeout can go off twice in a call, see [TimeoutsSpec]. *)
Definition check_fuel : nat := 2 * MEMP_NUM_SYS_TIMEOUT + 1.
Definition sys_check_timeouts (s : State) : option State := check_loop check_fuel (now_ms s) s.
End handlers.

Definition sys_timeouts_init (s : State) : State :=
  foldl (fun s i => sys_timeout (interval_ms i) (lwip_cyclic i) s) s (seq 1 (length lwip_cyclic_timers - 1)).

Definition sys_restart_timeouts (s : State) : State :=
  match timeouts s with
  | [] => s
  | t :: _ => let base := time t in set_timeouts (map (fun t => mkTimeo (u32 (u32 (time t - base) + now_ms s)) (h t)) (timeouts s)) s
  end.

Definition sys_timeouts_sleeptime (s : State) : Z :=
  match timeouts s with
  | [] => SYS_TIMEOUTS_SLEEPTIME_INFINITE
  | t :: _ => if TIME_LESS_THAN (time t) (now_ms s) then 0 else u32 (time t - now_ms s)
  end.

(** After start-up. *)
Definition started (now : Z) : State := sys_timeouts_init (mkState [] 0 false false now []).
