(* ===== verification/TimeoutsSpec.v ===== *)
(** * The timeouts of lwIP keep time

    A reference on a clock that does not wrap: the pending timeouts sorted by
    the time when they are due.  A run is late when a timeout is overdue by more
    than 2^30 ms, or a handler takes that long; otherwise timeouts.c does what
    the reference does. *)

From S2P Require Import Prelude Timeouts.
#[local] Open Scope Z_scope.

(** ** The reference *)

(** [a_due]: when the timeout was due that was called last; [a_fired]: what was
    called, when it was, and when it was due. *)
Record AState := mkA {
  a_pending : list (Z * callback); a_due : Z; a_tcp : bool; a_pcbs : bool; a_clock : Z; a_fired : list (callback * Z * Z)
}.
Definition LATE : Z := 0x40000000.

Fixpoint insert_due (e : Z * callback) (l : list (Z * callback)) : list (Z * callback) :=
  match l with [] => [e] | x :: l => if e.1 <? x.1 then e :: x :: l else x :: insert_due e l end.
Fixpoint remove_first (cb : callback) (l : list (Z * callback)) : list (Z * callback) :=
  match l with [] => [] | x :: l => if decide (x.2 = cb) then l else x :: remove_first cb l end.

Definition a_set_pending (l : list (Z * callback)) (a : AState) : AState := mkA l (a_due a) (a_tcp a) (a_pcbs a) (a_clock a) (a_fired a).
Definition a_set_tcp (b : bool) (a : AState) : AState := mkA (a_pending a) (a_due a) b (a_pcbs a) (a_clock a) (a_fired a).
Definition a_set_pcbs (b : bool) (a : AState) : AState := mkA (a_pending a) (a_due a) (a_tcp a) b (a_clock a) (a_fired a).
(** The pool has room for five timeouts. *)
Definition a_add (due : Z) (cb : callback) (a : AState) : AState :=
  if (MEMP_NUM_SYS_TIMEOUT <=? length (a_pending a))%nat then a else a_set_pending (insert_due (due, cb) (a_pending a)) a.
Definition a_timeout (ms : Z) (cb : callback) (a : AState) : AState := a_add (a_clock a + ms) cb a.
Definition a_needed (a : AState) : AState := if negb (a_tcp a) && a_pcbs a then a_timeout TCP_TMR_INTERVAL tcpip_tcp (a_set_tcp true a) else a.
Definition a_elapse (ms : Z) (a : AState) : option AState :=
  if forallb (fun e => a_clock a + ms - LATE <=? e.1) (a_pending a) then Some (mkA (a_pending a) (a_due a) (a_tcp a) (a_pcbs a) (a_clock a + ms) (a_fired a))
  else None.
Definition a_call (c : TimeoutCall) (a : AState) : option AState :=
  match c with
  | CTimeout ms cb => Some (a_timeout ms cb a)
  | CUntimeout cb => Some (a_set_pending (remove_first cb (a_pending a)) a)
  | CTcpPcbs b => Some (a_set_pcbs b a)
  | CTcpTimerNeeded => Some (a_needed a)
  | CElapse ms => a_elapse ms a
  end.
Fixpoint a_calls (cs : list TimeoutCall) (a : AState) : option AState :=
  match cs with [] => Some a | c :: cs => a ← a_call c a; a_calls cs a end.

Section handlers.
Context (handler_calls : nat -> list TimeoutCall).
Definition a_handler (cb : callback) (a : AState) : option AState :=
  a ← a_calls (handler_calls (length (a_fired a) - 1)) a;
  match cb with
  | handler _ _ => Some a
  | tcpip_tcp => Some (if a_pcbs a then a_timeout TCP_TMR_INTERVAL tcpip_tcp a else a_set_tcp false a)
  | lwip_cyclic i =>
    if a_clock a - a_due a >? LATE then None
    else
      let next := a_due a + interval_ms i in
      Some (if next <? a_clock a then a_timeout (interval_ms i) (lwip_cyclic i) a else a_add next (lwip_cyclic i) a)
  end.
Definition a_fire (due : Z) (cb : callback) (next : list (Z * callback)) (a : AState) : AState :=
  mkA next due (a_tcp a) (a_pcbs a) (a_clock a) ((cb, a_clock a, due) :: a_fired a).
(** TimeoutCall what was due at the time [t0], the earliest first. *)
Fixpoint a_check (fuel : nat) (t0 : Z) (a : AState) : option AState :=
  match fuel with
  | O => Some a
  | S fuel =>
    if a_clock a - t0 >? LATE then None else
    match a_pending a with
    | [] => Some a
    | (due, cb) :: next => if t0 <? due then Some a else a ← a_handler cb (a_fire due cb next a); a_check fuel t0 a
    end
  end.

Inductive Step := SCall (c : TimeoutCall) | SCheck | SRestart.
Definition step (x : Step) (s : State) : option State :=
  match x with
  | SCall c => Some (call c s)
  | SCheck => sys_check_timeouts handler_calls s
  | SRestart => Some (sys_restart_timeouts s)
  end.
Definition a_restart (a : AState) : option AState :=
  match a_pending a with
  | [] => Some a
  | e :: _ =>
    if forallb (fun x => x.1 - e.1 <? LATE) (a_pending a) then Some (a_set_pending (map (fun x => (x.1 - e.1 + a_clock a, x.2)) (a_pending a)) a)
    else None
  end.
Definition a_step (x : Step) (a : AState) : option AState :=
  match x with
  | SCall c => a_call c a
  | SCheck => a_check check_fuel (a_clock a) a
  | SRestart => a_restart a
  end.
Fixpoint run {A} (f : Step -> A -> option A) (xs : list Step) (a : A) : option A :=
  match xs with [] => Some a | x :: xs => a ← f x a; run f xs a end.
End handlers.

Definition a_started (now : Z) : AState :=
  foldl (fun a i => a_timeout (interval_ms i) (lwip_cyclic i) a) (mkA [] 0 false false now []) (seq 1 (length lwip_cyclic_timers - 1)).

(** ** Valid calls, and the invariant *)
Definition cb_ok (cb : callback) : Prop := match cb with lwip_cyclic i => (i < length lwip_cyclic_timers)%nat | _ => True end.
(** lwIP asks for at most a quarter of the range; a timeout of zero would go off in the same check again. *)
Definition call_ok (c : TimeoutCall) : Prop :=
  match c with CTimeout ms cb => 1 <= ms < LATE /\ cb_ok cb | CElapse ms => 0 <= ms | _ => True end.
Definition step_ok (x : Step) : Prop := match x with SCall c => call_ok c | _ => True end.

Definition near (c d : Z) : Prop := c - LATE <= d < c + LATE.
Definition due_sorted : list (Z * callback) -> Prop := StronglySorted (fun x y => x.1 <= y.1).
Record a_ok (a : AState) : Prop := mkAOk {
  ok_sorted : due_sorted (a_pending a);
  ok_near : Forall (fun e => near (a_clock a) e.1 /\ cb_ok e.2) (a_pending a);
  ok_length : (length (a_pending a) <= MEMP_NUM_SYS_TIMEOUT)%nat;
  ok_due : a_due a <= a_clock a;
  ok_early : Forall (fun f => f.2 <= f.1.2) (a_fired a)
}.

Definition conc (e : Z * callback) : sys_timeo := mkTimeo (u32 e.1) e.2.
Definition represents (a : AState) (s : State) : Prop :=
  s = mkState (map conc (a_pending a)) (u32 (a_due a)) (a_tcp a) (a_pcbs a) (a_clock a) (map fst (a_fired a)).

(** ** The comparison *)
Lemma time_less_than x y : -0x80000000 < x - y < 0x80000000 -> TIME_LESS_THAN (u32 x) (u32 y) = (x <? y).
Proof.
  intros H. unfold TIME_LESS_THAN, LWIP_MAX_TIMEOUT. rewrite Z.gtb_ltb. destruct (Z.ltb_spec x y); [apply Z.ltb_lt|apply Z.ltb_ge]; wrap_lia.
Qed.
Lemma near_less c x y : near c x -> near c y -> TIME_LESS_THAN (u32 x) (u32 y) = (x <? y).
Proof. unfold near, LATE. intros. apply time_less_than. lia. Qed.

Lemma link_after_ok c e x l : near c e.1 -> Forall (fun x => near c x.1 /\ cb_ok x.2) (x :: l) ->
  link_after (conc e) (map conc (x :: l)) = map conc (x :: insert_due e l).
Proof.
  intros He. revert x. induction l as [|y l IH]; intros x Hl; [done|]. apply Forall_cons in Hl as [_ Hl]. pose proof Hl as [[Hy _] _]%Forall_cons.
  change (link_after (conc e) (map conc (x :: y :: l)))
    with (if TIME_LESS_THAN (u32 e.1) (u32 y.1) then conc x :: conc e :: map conc (y :: l) else conc x :: link_after (conc e) (map conc (y :: l))).
  rewrite (near_less c) by done. cbn [insert_due]. destruct (e.1 <? y.1); [done|]. rewrite IH by done. done.
Qed.
Lemma add_ok a s due cb : a_ok a -> represents a s -> near (a_clock a) due -> represents (a_add due cb a) (sys_timeout_abs (u32 due) cb s).
Proof.
  intros Hok -> Hd. unfold sys_timeout_abs, a_add. cbn [timeouts]. rewrite length_map. destruct (_ <=? _)%nat; [done|]. unfold represents, set_timeouts. cbn. f_equal.
  pose proof (ok_near _ Hok) as Hn. destruct (a_pending a) as [|x l]; [done|]. pose proof Hn as [[Hx _] _]%Forall_cons. cbn [map time conc]. change (time (conc x)) with (u32 x.1).
  rewrite (near_less (a_clock a)) by done. cbn [insert_due fst]. destruct (due <? x.1); [done|]. change (mkTimeo (u32 due) cb) with (conc (due, cb)).
  change (conc x :: map conc l) with (map conc (x :: l)). by apply (link_after_ok (a_clock a)).
Qed.

(** ** The reference keeps the invariant *)

(** How often what is pending can go off in a check that started at [t0]. *)
Definition rounds (t0 : Z) (e : Z * callback) : nat := if e.1 <? t0 then 2 else if e.1 =? t0 then 1 else 0.
Fixpoint weight (t0 : Z) (l : list (Z * callback)) : nat := match l with [] => 0 | e :: l => rounds t0 e + weight t0 l end.

Lemma insert_due_perm e l : insert_due e l ≡ₚ e :: l.
Proof. induction l as [|x l IH]; cbn; [done|]. destruct (_ <? _); [done|]. rewrite IH. apply Permutation_swap. Qed.
Lemma insert_due_sorted e l : due_sorted l -> due_sorted (insert_due e l).
Proof.
  unfold due_sorted. induction 1 as [|x l Hs IH Hx]; cbn; [repeat constructor|]. destruct (Z.ltb_spec e.1 x.1).
  - constructor; [by constructor|]. constructor; [lia|]. eapply Forall_impl; [exact Hx|]. cbn. lia.
  - constructor; [done|]. rewrite insert_due_perm. constructor; [lia|done].
Qed.
Lemma weight_insert t0 e l : weight t0 (insert_due e l) = (rounds t0 e + weight t0 l)%nat.
Proof. induction l as [|x l IH]; cbn; [done|]. destruct (_ <? _); cbn; [done|]. rewrite IH. lia. Qed.
Lemma remove_first_sub cb l : remove_first cb l `sublist_of` l /\ (forall t0, (weight t0 (remove_first cb l) <= weight t0 l)%nat).
Proof.
  induction l as [|x l [IH1 IH2]]; cbn; [done|]. destruct (decide _).
  - split; [by constructor|]. intros t0. lia.
  - split; [by constructor|]. intros t0. specialize (IH2 t0). cbn. lia.
Qed.
Lemma Forall_sub {A} (P : A -> Prop) l k : l `sublist_of` k -> Forall P k -> Forall P l.
Proof. induction 1 as [|x l k _ IH|x l k _ IH]; [done|..]; intros [? ?]%Forall_cons; [constructor; auto|auto]. Qed.
Lemma forallb_Forall {A} (f : A -> bool) l : forallb f l = true -> Forall (fun x => f x = true) l.
Proof. induction l as [|x l IH]; cbn; [done|]. intros [? ?]%andb_true_iff. constructor; auto. Qed.
Lemma sorted_sub l k : l `sublist_of` k -> due_sorted k -> due_sorted l.
Proof.
  unfold due_sorted. induction 1 as [|x l k Hl IH|x l k Hl IH]; [done|..]; intros Hk; apply StronglySorted_inv in Hk as [Hk Hx]; [|by apply IH].
  constructor; [by apply IH|]. by eapply Forall_sub.
Qed.
Lemma unlink_first_ok cb l : unlink_first cb (map conc l) = map conc (remove_first cb l).
Proof. induction l as [|x l IH]; cbn; [done|]. destruct (decide _); [done|]. cbn. by rewrite IH. Qed.

Lemma set_pending_ok a l : a_ok a -> due_sorted l -> Forall (fun e => near (a_clock a) e.1 /\ cb_ok e.2) l -> (length l <= MEMP_NUM_SYS_TIMEOUT)%nat -> a_ok (a_set_pending l a).
Proof. intros [A1 A2 A3 A4 A5] H1 H2 H3. by constructor. Qed.
Lemma a_add_ok due cb a : a_ok a -> near (a_clock a) due -> cb_ok cb -> a_ok (a_add due cb a) /\ forall t0, (weight t0 (a_pending (a_add due cb a)) <= rounds t0 (due, cb) + weight t0 (a_pending a))%nat.
Proof.
  intros Hok Hd Hcb. unfold a_add. destruct (Nat.leb_spec MEMP_NUM_SYS_TIMEOUT (length (a_pending a))); [split; [done|lia]|]. split.
  - apply set_pending_ok; [done|apply insert_due_sorted, Hok|..]; rewrite insert_due_perm; [constructor; [done|apply Hok]|cbn; lia].
  - intros t0. cbn [a_pending a_set_pending]. by rewrite weight_insert.
Qed.

Definition later (t0 : Z) (a a' : AState) : Prop :=
  a_clock a <= a_clock a' /\ a_due a' = a_due a /\ a_fired a' = a_fired a /\ (weight t0 (a_pending a') <= weight t0 (a_pending a))%nat.
Lemma later_trans t0 a b c : later t0 a b -> later t0 b c -> later t0 a c.
Proof. intros (H1 & H2 & H3 & H4) (K1 & K2 & K3 & K4). split_and!; try congruence; lia. Qed.

(** The outcome of a part of a run: late, or both do the same. *)
Definition same_or_late (t0 : Z) (a : AState) (o : option AState) (s' : State) : Prop :=
  o = None \/ exists a', o = Some a' /\ a_ok a' /\ represents a' s' /\ later t0 a a'.
Lemma same_intro t0 a a' s' : a_ok a' -> represents a' s' -> later t0 a a' -> same_or_late t0 a (Some a') s'.
Proof. right. by exists a'. Qed.

Ltac rep_eq := unfold represents in *; subst; reflexivity.
Lemma clock_eq a s : represents a s -> clock s = a_clock a /\ tcp_pcbs s = a_pcbs a /\ tcpip_tcp_timer_active s = a_tcp a /\ length (fired s) = length (a_fired a) /\ current_timeout_due_time s = u32 (a_due a).
Proof. intros ->. cbn. by rewrite length_map. Qed.

Lemma timeout_sim t0 ms cb a s : a_ok a -> represents a s -> t0 <= a_clock a -> 1 <= ms < LATE -> cb_ok cb ->
  a_ok (a_timeout ms cb a) /\ represents (a_timeout ms cb a) (sys_timeout ms cb s) /\ later t0 a (a_timeout ms cb a).
Proof.
  intros Hok Hr Ht Hms Hcb. unfold a_timeout. assert (near (a_clock a) (a_clock a + ms)) as Hn by (unfold near; lia).
  destruct (a_add_ok (a_clock a + ms) cb a Hok Hn Hcb) as [Hok' Hw]. split; [done|]. split.
  - unfold sys_timeout, now_ms. destruct (clock_eq a s Hr) as (-> & _). replace (u32 (u32 (a_clock a) + ms)) with (u32 (a_clock a + ms)) by wrap_lia. by apply add_ok.
  - specialize (Hw t0). unfold rounds in Hw. cbn [fst] in Hw. rewrite (proj2 (Z.ltb_ge _ _)), (proj2 (Z.eqb_neq _ _)) in Hw by lia.
    unfold later, a_add in *. destruct (_ <=? _)%nat; cbn in *; split_and!; done || lia.
Qed.

Lemma call_sim t0 c a s : a_ok a -> represents a s -> t0 <= a_clock a -> call_ok c -> same_or_late t0 a (a_call c a) (call c s).
Proof.
  intros Hok Hr Ht Hc. pose proof (clock_eq a s Hr) as (Ec & Ep & Ea & _). destruct c as [ms cb|cb|b| |ms]; cbn [a_call call].
  - destruct Hc as [Hms Hcb]. destruct (timeout_sim t0 ms cb a s Hok Hr Ht Hms Hcb) as (H1 & H2 & H3). by apply same_intro.
  - destruct (remove_first_sub cb (a_pending a)) as [Hs Hw]. apply same_intro.
    + apply set_pending_ok; [done|by eapply sorted_sub, Hok|eapply Forall_sub; [done|apply Hok]|]. etrans; [by apply sublist_length|apply Hok].
    + unfold represents in *. subst s. unfold sys_untimeout, set_timeouts. cbn. by rewrite unlink_first_ok.
    + by split_and!.
  - apply same_intro; [by destruct Hok; constructor|by rep_eq|]. by split_and!.
  - unfold tcp_timer_needed, a_needed. rewrite Ep, Ea. destruct (negb (a_tcp a) && a_pcbs a).
    + destruct (timeout_sim t0 TCP_TMR_INTERVAL tcpip_tcp (a_set_tcp true a) (set_tcp_active true s)) as (H1 & H2 & H3); try done; [by destruct Hok; constructor|by rep_eq|].
      by apply same_intro.
    + apply same_intro; [done|done|by split_and!].
  - unfold a_elapse. destruct (forallb _ _) eqn:E; [|by left]. apply forallb_Forall in E. simpl in Hc. apply same_intro.
    + destruct Hok as [A1 A2 A3 A4 A5]. constructor; cbn; try done; [|lia]. rewrite Forall_forall in *. intros e He.
      specialize (A2 e He). specialize (E e He). destruct A2 as [A2 ?]. split; [|done]. unfold near in *. apply Z.leb_le in E. lia.
    + by rep_eq.
    + split_and!; cbn; done || lia.
Qed.

Lemma calls_sim t0 cs a s : a_ok a -> represents a s -> t0 <= a_clock a -> Forall call_ok cs -> same_or_late t0 a (a_calls cs a) (calls cs s).
Proof.
  intros Hok Hr Ht Hcs. revert a s Hok Hr Ht. induction Hcs as [|c cs Hc _ IH]; intros a s Hok Hr Ht; cbn [a_calls].
  { apply same_intro; [done|done|by split_and!]. }
  destruct (call_sim t0 c a s Hok Hr Ht Hc) as [->|(a1 & -> & Hok1 & Hr1 & Hl1)]; [by left|]. cbn [mbind option_bind].
  destruct (IH a1 (call c s) Hok1 Hr1 ltac:(destruct Hl1; lia)) as [->|(a' & -> & Hok' & Hr' & Hl')]; [by left|]. apply same_intro; [done|done|]. by eapply later_trans.
Qed.

(** ** Handlers and checks *)
Lemma interval_ok i : (i < length lwip_cyclic_timers)%nat -> 1 <= interval_ms i < 65536.
Proof. intros Hi. do 5 (destruct i as [|i]; [vm_compute; split; congruence|]). simpl in Hi. lia. Qed.

Section runs.
Context (handler_calls : nat -> list TimeoutCall) (Hcalls : forall n, Forall call_ok (handler_calls n)).

Lemma fire_ok a due cb next : a_ok a -> a_pending a = (due, cb) :: next -> due <= a_clock a -> a_ok (a_fire due cb next a) /\ near (a_clock a) due /\ cb_ok cb.
Proof.
  intros [A1 A2 A3 A4 A5] E Hd. rewrite E in *. apply StronglySorted_inv in A1 as [A1 _]. apply Forall_cons in A2 as [[? ?] A2]. simpl in A3.
  split; [|done]. constructor; cbn; try done; [lia|]. by constructor.
Qed.

Lemma cyclic_sim t0 due i a s : a_ok a -> represents a s -> t0 <= a_clock a -> a_due a = due -> due <= t0 -> cb_ok (lwip_cyclic i) ->
  let next := due + interval_ms i in
  a_clock a - due <= LATE ->
  let a' := if next <? a_clock a then a_timeout (interval_ms i) (lwip_cyclic i) a else a_add next (lwip_cyclic i) a in
  let s' := if TIME_LESS_THAN (u32 (u32 due + interval_ms i)) (now_ms s) then sys_timeout_abs (u32 (now_ms s + interval_ms i)) (lwip_cyclic i) s
            else sys_timeout_abs (u32 (u32 due + interval_ms i)) (lwip_cyclic i) s in
  a_ok a' /\ represents a' s' /\ a_clock a <= a_clock a' /\ (weight t0 (a_pending a') < rounds t0 (due, lwip_cyclic i) + weight t0 (a_pending a))%nat.
Proof.
  intros Hok Hr Ht Ed Hd Hi. cbn zeta. intros Hl. pose proof (interval_ok i Hi) as Hiv. set (m := interval_ms i) in *. unfold LATE in *.
  unfold now_ms. destruct (clock_eq a s Hr) as (-> & _). replace (u32 (u32 due + m)) with (u32 (due + m)) by wrap_lia. rewrite time_less_than by lia.
  assert (1 <= rounds t0 (due, lwip_cyclic i))%nat as Hrd by (unfold rounds; cbn; destruct (Z.ltb_spec due t0); [lia|]; destruct (Z.eqb_spec due t0); lia).
  destruct (Z.ltb_spec (due + m) (a_clock a)) as [Hlt|Hge].
  - destruct (timeout_sim t0 m (lwip_cyclic i) a s Hok Hr Ht ltac:(unfold LATE; lia) Hi) as (H1 & H2 & H3 & _ & _ & H4). split; [done|]. split; [|split; lia].
    unfold sys_timeout, now_ms in H2. by destruct (clock_eq a s Hr) as (<- & _).
  - assert (near (a_clock a) (due + m)) as Hn by (unfold near, LATE; lia). destruct (a_add_ok (due + m) (lwip_cyclic i) a Hok Hn Hi) as [H1 H2].
    split; [done|]. split; [by apply add_ok|]. split; [unfold a_add; by destruct (_ <=? _)%nat|]. specialize (H2 t0).
    enough (rounds t0 ((due + m)%Z, lwip_cyclic i) < rounds t0 (due, lwip_cyclic i))%nat by lia. unfold rounds in *. cbn [fst] in *.
    destruct (Z.ltb_spec (due + m) t0); [lia|]. destruct (Z.eqb_spec (due + m) t0); [|lia]. rewrite (proj2 (Z.ltb_lt due t0)) by lia. lia.
Qed.

Lemma handler_sim t0 due cb next a s : a_ok a -> represents a s -> a_pending a = (due, cb) :: next -> due <= t0 <= a_clock a ->
  let s1 := mkState (map conc next) (u32 due) (tcpip_tcp_timer_active s) (tcp_pcbs s) (clock s) ((cb, clock s) :: fired s) in
  a_handler handler_calls cb (a_fire due cb next a) = None \/
  exists a', a_handler handler_calls cb (a_fire due cb next a) = Some a' /\ a_ok a' /\ represents a' (call_handler handler_calls cb s1) /\
    a_clock a <= a_clock a' /\ (weight t0 (a_pending a') < weight t0 (a_pending a))%nat.
Proof using Hcalls.
  intros Hok Hr E [Hd Ht]. cbn zeta. destruct (fire_ok a due cb next Hok E ltac:(lia)) as (Hok1 & Hn & Hcb). set (a1 := a_fire due cb next a) in *.
  set (s1 := mkState _ _ _ _ _ _). assert (represents a1 s1) as Hr1 by (by unfold represents in *; subst s).
  unfold a_handler.
  assert (1 <= rounds t0 (due, cb))%nat as Hrd by (unfold rounds; cbn; destruct (Z.ltb_spec due t0); [lia|]; destruct (Z.eqb_spec due t0); lia).
  destruct (calls_sim t0 (handler_calls (length (a_fired a1) - 1)) a1 s1 Hok1 Hr1 ltac:(cbn; lia) (Hcalls _)) as [->|(a2 & -> & Hok2 & Hr2 & Hc & Hdu & Hf & Hw)]; [by left|].
  replace (length (a_fired a1)) with (length (fired s1)) in Hr2 by (by apply clock_eq). fold (run_handler handler_calls s1) in Hr2. cbn in Hc, Hw, Hdu. cbn [mbind option_bind].
  rewrite E. cbn [weight]. destruct cb as [i| |hd arg]; cbn [call_handler].
  - destruct (Z.gtb_spec (a_clock a2 - a_due a2) LATE); [by left|]. right. eexists. split; [done|]. rewrite Hdu in *. unfold lwip_cyclic_timer.
    pose proof (clock_eq _ _ Hr2) as (_ & _ & _ & _ & ->). rewrite Hdu.
    destruct (cyclic_sim t0 due i a2 (run_handler handler_calls s1)) as (H1 & H2 & H3 & H4); try done; [lia|]. split; [exact H1|]. split; [exact H2|]. split; lia.
  - right. eexists. split; [done|]. unfold tcpip_tcp_timer. pose proof (clock_eq _ _ Hr2) as (_ & -> & _). destruct (a_pcbs a2).
    + destruct (timeout_sim t0 TCP_TMR_INTERVAL tcpip_tcp a2 _ Hok2 Hr2) as (H1 & H2 & H3 & _ & _ & H4); try done; [lia|]. split; [done|]. split; [done|]. split; lia.
    + split; [by destruct Hok2; constructor|]. split; [unfold represents in Hr2; rewrite Hr2; done|]. cbn. split; lia.
  - right. exists a2. split; [done|]. split; [done|]. split; [done|]. split; lia.
Qed.

Lemma check_sim fuel t0 a s : a_ok a -> represents a s -> t0 <= a_clock a -> (weight t0 (a_pending a) < fuel)%nat ->
  a_check handler_calls fuel t0 a = None \/
  exists a' s', a_check handler_calls fuel t0 a = Some a' /\ check_loop handler_calls fuel (u32 t0) s = Some s' /\ a_ok a' /\ represents a' s' /\
    a_clock a <= a_clock a' /\ Forall (fun e => t0 < e.1) (a_pending a').
Proof using Hcalls.
  revert a s. induction fuel as [|fuel IH]; intros a s Hok Hr Ht Hw; [lia|]. cbn [a_check check_loop].
  destruct (Z.gtb_spec (a_clock a - t0) LATE) as [|Hlate]; [by left|]. assert (timeouts s = map conc (a_pending a)) as -> by (unfold represents in Hr; by subst s).
  destruct (a_pending a) as [|[due cb] next] eqn:E; cbn [map].
  { right. exists a, s. rewrite E. split_and!; done || lia. }
  pose proof (ok_near _ Hok) as Hn. rewrite E in Hn. apply Forall_cons in Hn as [[Hn _] _]. unfold near in Hn. cbn [fst] in Hn. cbn [time conc h fst snd].
  unfold LATE in *. rewrite time_less_than by lia. destruct (Z.ltb_spec t0 due) as [Hlt|Hge].
  - right. exists a, s. split_and!; try done. rewrite E. pose proof (ok_sorted _ Hok) as Hs. rewrite E in Hs. apply StronglySorted_inv in Hs as [_ Hs].
    constructor; [done|]. eapply Forall_impl; [exact Hs|]. cbn. lia.
  - destruct (handler_sim t0 due cb next a s Hok Hr E ltac:(lia)) as [->|(a1 & -> & Hok1 & Hr1 & Hc1 & Hw1)]; [by left|]. cbn [mbind option_bind].
    rewrite E in Hw1. destruct (IH a1 _ Hok1 Hr1 ltac:(lia) ltac:(lia)) as [->|(a' & s' & -> & E' & H1 & H2 & H3 & H4)]; [by left|]. right. exists a', s'.
    split; [done|]. split; [exact E'|]. split; [done|]. split; [done|]. split; [lia|done].
Qed.

Lemma weight_bound t0 l : (weight t0 l <= 2 * length l)%nat.
Proof. induction l as [|e l IH]; cbn [weight length]; [lia|]. unfold rounds. destruct (_ <? _); [lia|]. destruct (_ =? _); lia. Qed.

Lemma restart_map d c l : map (fun t => mkTimeo (u32 (u32 (time t - u32 d) + u32 c)) (h t)) (map conc l) = map conc (map (fun x => (x.1 - d + c, x.2)) l).
Proof. rewrite !map_map. apply map_ext. intros [x cb]. unfold conc. cbn. f_equal. wrap_lia. Qed.
Lemma restart_sim a s : a_ok a -> represents a s -> a_restart a = None \/ exists a', a_restart a = Some a' /\ a_ok a' /\ represents a' (sys_restart_timeouts s).
Proof.
  intros Hok Hr. unfold a_restart. destruct (a_pending a) as [|[d cb] l] eqn:E.
  { right. exists a. split; [done|]. split; [done|]. unfold represents in *. subst s. unfold sys_restart_timeouts. cbn. by rewrite E. }
  destruct (forallb _ _) eqn:Ef; [|by left]. apply forallb_Forall in Ef. right. eexists. split; [done|]. cbn [fst] in *.
  pose proof (ok_sorted _ Hok) as Hs. pose proof (ok_near _ Hok) as Hn. pose proof (ok_length _ Hok) as Hlen. rewrite E in Hs, Hn, Hlen.
  assert (Forall (fun x => d <= x.1) ((d, cb) :: l)) as Hge by (constructor; [cbn; lia|]; apply StronglySorted_inv in Hs as [_ Hs]; exact Hs).
  split.
  - apply set_pending_ok; [done| | |by rewrite length_map].
    + clear -Hs. unfold due_sorted in *. induction Hs as [|x m Hm IH Hx]; cbn; [constructor|]. constructor; [done|]. apply Forall_map. eapply Forall_impl; [exact Hx|]. cbn. lia.
    + apply Forall_map. rewrite !Forall_forall in *. intros x Hx. specialize (Ef x Hx). specialize (Hn x Hx). specialize (Hge x Hx). apply Z.ltb_lt in Ef. cbn in *.
      split; [unfold near; unfold LATE in *; lia|by apply Hn].
  - unfold represents in *. subst s. unfold sys_restart_timeouts, set_timeouts. cbn [timeouts now_ms clock]. rewrite E. cbn [map]. cbn -[map]. f_equal.
    exact (restart_map d (a_clock a) ((d, cb) :: l)).
Qed.

Lemma step_sim x a s : a_ok a -> represents a s -> step_ok x ->
  a_step handler_calls x a = None \/ exists a' s', a_step handler_calls x a = Some a' /\ step handler_calls x s = Some s' /\ a_ok a' /\ represents a' s'.
Proof using Hcalls.
  intros Hok Hr Hx. destruct x as [c| |]; cbn [a_step step].
  - destruct (call_sim (a_clock a) c a s Hok Hr ltac:(lia) Hx) as [->|(a' & -> & H1 & H2 & _)]; [by left|]. right. by exists a', (call c s).
  - unfold sys_check_timeouts, now_ms. destruct (clock_eq a s Hr) as (-> & _).
    destruct (check_sim check_fuel (a_clock a) a s Hok Hr ltac:(lia)) as [->|(a' & s' & -> & -> & H1 & H2 & _)]; [|by left|right; by exists a', s'].
    pose proof (weight_bound (a_clock a) (a_pending a)). pose proof (ok_length _ Hok). unfold check_fuel. lia.
  - destruct (restart_sim a s Hok Hr) as [->|(a' & -> & H1 & H2)]; [by left|]. right. by exists a', (sys_restart_timeouts s).
Qed.
Lemma run_sim xs a s : a_ok a -> represents a s -> Forall step_ok xs ->
  run (a_step handler_calls) xs a = None \/
  exists a' s', run (a_step handler_calls) xs a = Some a' /\ run (step handler_calls) xs s = Some s' /\ a_ok a' /\ represents a' s'.
Proof using Hcalls.
  intros Hok Hr Hxs. revert a s Hok Hr. induction Hxs as [|x xs Hx _ IH]; intros a s Hok Hr; cbn [run]; [right; by exists a, s|].
  destruct (step_sim x a s Hok Hr Hx) as [->|(a1 & s1 & -> & -> & H1 & H2)]; [by left|]. exact (IH a1 s1 H1 H2).
Qed.

Lemma started_sim now : 0 <= now -> a_ok (a_started now) /\ represents (a_started now) (started now).
Proof.
  intros Hnow. unfold a_started, started, sys_timeouts_init. set (a0 := mkA _ _ _ _ _ _). set (s0 := mkState _ _ _ _ _ _).
  assert (a_ok a0 /\ represents a0 s0) as [Hok Hr] by (split; [by repeat constructor|done]).
  assert (Forall (fun i => i < length lwip_cyclic_timers)%nat (seq 1 (length lwip_cyclic_timers - 1))) as Hi by (repeat constructor).
  clearbody a0 s0. revert a0 s0 Hok Hr. induction Hi as [|i l Hi _ IH]; intros a s Hok Hr; cbn [foldl]; [done|].
  pose proof (interval_ok i Hi). destruct (timeout_sim (a_clock a) (interval_ms i) (lwip_cyclic i) a s Hok Hr ltac:(lia)) as (H1 & H2 & _); [unfold LATE; lia|done|].
  by apply IH.
Qed.

Lemma sleeptime_ok a s : a_ok a -> represents a s ->
  sys_timeouts_sleeptime s = match a_pending a with [] => SYS_TIMEOUTS_SLEEPTIME_INFINITE | e :: _ => Z.max 0 (e.1 - a_clock a) end.
Proof.
  intros Hok Hr. unfold represents in Hr. subst s. unfold sys_timeouts_sleeptime, now_ms. cbn [timeouts clock]. pose proof (ok_near _ Hok) as Hn.
  destruct (a_pending a) as [|[d cb] l]; cbn; [done|]. apply Forall_cons in Hn as [[Hn _] _]. unfold near, LATE in Hn. cbn in Hn. rewrite time_less_than by lia.
  destruct (Z.ltb_spec d (a_clock a)); [lia|]. rewrite Z.max_r by lia. wrap_lia.
Qed.

Lemma steps_app {A} (f : Step -> A -> option A) xs ys a : run f (xs ++ ys) a = a ← run f xs a; run f ys a.
Proof. revert a. induction xs as [|x xs IH]; intros a; cbn; [done|]. destruct (f x a); cbn; [apply IH|done]. Qed.

(** C40: timeouts go off in time.  Whatever the stack and the handlers do with
    timeouts of at least one and less than 2^30 milliseconds (a handler that asks
    for 0 ms is called again by the same check, see [zero_in_same_check]), from
    start-up on and over any number of wraps of the clock: as long as the run is
    not late, timeouts.c does what the reference on an unbounded clock
    does, each check within its fuel; nothing is called before it is due; a check
    leaves nothing that was due when it started; what is pending is sorted and
    fits the pool; and the time to sleep is that to the first timeout. *)
Theorem timeouts_go_off_in_time now steps : 0 <= now -> Forall step_ok steps ->
  run (a_step handler_calls) steps (a_started now) = None \/
  exists a s, run (a_step handler_calls) steps (a_started now) = Some a /\ run (step handler_calls) steps (started now) = Some s /\ represents a s /\
    due_sorted (a_pending a) /\ (length (timeouts s) <= MEMP_NUM_SYS_TIMEOUT)%nat /\
    Forall (fun f => f.2 <= f.1.2) (a_fired a) /\
    (forall steps' a', steps = steps' ++ [SCheck] -> run (a_step handler_calls) steps' (a_started now) = Some a' -> Forall (fun e => a_clock a' < e.1) (a_pending a)) /\
    sys_timeouts_sleeptime s = match a_pending a with [] => SYS_TIMEOUTS_SLEEPTIME_INFINITE | e :: _ => Z.max 0 (e.1 - a_clock a) end.
Proof using Hcalls.
  intros Hnow Hsteps. destruct (started_sim now Hnow) as [Hok0 Hr0]. destruct (run_sim steps _ _ Hok0 Hr0 Hsteps) as [|(a & s & Ea & Es & Hok & Hr)]; [by left|].
  right. exists a, s. split; [done|]. split; [done|]. split; [done|]. split; [apply Hok|]. split.
  { unfold represents in Hr. subst s. cbn. rewrite length_map. apply Hok. }
  split; [apply Hok|]. split; [|by apply sleeptime_ok]. intros steps' a' -> Ea'. apply Forall_app in Hsteps as [Hs' _].
  destruct (run_sim steps' _ _ Hok0 Hr0 Hs') as [|(a1 & s1 & Ea1 & _ & Hok1 & Hr1)]; [congruence|]. assert (a1 = a') as -> by congruence.
  rewrite steps_app, Ea' in Ea. cbn [mbind option_bind run a_step] in Ea. pose proof (weight_bound (a_clock a') (a_pending a')). pose proof (ok_length _ Hok1).
  destruct (check_sim check_fuel (a_clock a') a' s1 Hok1 Hr1 ltac:(lia)) as [E|(a2 & s2 & E & _ & _ & _ & _ & Hf)]; [unfold check_fuel; lia|..]; rewrite E in Ea; cbn [mbind option_bind] in Ea; [done|].
  injection Ea as <-. done.
Qed.
End runs.

(** A board that has been up for almost 2^32 ms: the first handler (dhcp_fine_tmr)
    takes 3 ms, the clock wraps, and a connection starts the timer of TCP. *)
Definition sample_handlers (n : nat) : list TimeoutCall := match n with O => [CElapse 3] | 2%nat => [CTcpPcbs true; CTcpTimerNeeded] | _ => [] end.
Definition sample_steps : list Step := [SCall (CElapse 510); SCheck; SCall (CElapse 500); SCheck].

Lemma timeouts_go_off_in_time_witness : exists a s, run (a_step sample_handlers) sample_steps (a_started 4294966600) = Some a /\
  run (step sample_handlers) sample_steps (started 4294966600) = Some s /\ represents a s /\
  fired s = [(lwip_cyclic 4, 4294967613); (lwip_cyclic 2, 4294967613); (lwip_cyclic 1, 4294967613); (lwip_cyclic 4, 4294967110)] /\
  sys_timeouts_sleeptime s = 250.
Proof.
  destruct (timeouts_go_off_in_time sample_handlers) with (now := 4294966600) (steps := sample_steps) as [E|(a & s & Ea & Es & Hr & _ & _ & _ & _ & Hs)].
  - intros n. destruct n as [|[|[|n]]]; cbn; [apply Forall_cons; split; [simpl; lia|apply Forall_nil_2]|apply Forall_nil_2| |apply Forall_nil_2].
    apply Forall_cons. split; [exact I|]. apply Forall_cons. split; [exact I|apply Forall_nil_2].
  - lia.
  - repeat constructor; simpl; lia.
  - vm_compute in E. discriminate.
  - exists a, s. split; [exact Ea|]. split; [exact Es|]. split; [exact Hr|]. vm_compute in Es. injection Es as <-. split; vm_compute; reflexivity.
Defined.

(** A timeout of 0 ms that a handler asks for goes off in the same check. *)
Example zero_in_same_check : option_map fired (sys_check_timeouts (fun n => match n with O => [CTimeout 0 (handler 7 7)] | _ => [] end) (mkState [mkTimeo 0 (handler 1 1)] 0 false false 0 []))
  = Some [(handler 7 7, 0); (handler 1 1, 0)].
Proof. vm_compute. reflexivity. Qed.
