(* ===== verification/Etharp.v ===== *)
(** * The ARP cache (etharp.c)

    For the one interface of the firmware, so that the [netif] of an entry is it.  Packets are pbufs by address; what
    is done with them and the ARP packets that go out are recorded in order in
    [log].  What other parts answer comes from [env]: memory for an ARP packet,
    whether a packet must be copied to be kept (PBUF_NEEDS_COPY), the copy, and
    the result of sending a frame.  IPv4 addresses are numbers in host order. *)

From S2P Require Import Prelude LwipErr Netif.
#[local] Open Scope Z_scope.

Definition ARP_TABLE_SIZE : nat := 10.
Definition ARP_MAXAGE : Z := 300.
Definition ARP_AGE_REREQUEST_USED_UNICAST : Z := ARP_MAXAGE - 30.
Definition ARP_AGE_REREQUEST_USED_BROADCAST : Z := ARP_MAXAGE - 15.
Definition ARP_MAXPENDING : Z := 5.
Definition ETHARP_FLAG_TRY_HARD : Z := 1.
Definition ETHARP_FLAG_FIND_ONLY : Z := 2.
Definition ARP_REQUEST : Z := 1.
Definition ARP_REPLY : Z := 2.
Definition ETHTYPE_IP : Z := 0x0800.
Definition LWIP_IANA_HWTYPE_ETHERNET : Z := 1.
Definition ETH_HWADDR_LEN : Z := 6.
Abbreviation eth_addr := (list Z).
Definition ethbroadcast : eth_addr := [0xff; 0xff; 0xff; 0xff; 0xff; 0xff].
Definition ethzero : eth_addr := [0; 0; 0; 0; 0; 0].

Inductive etharp_state :=
| ETHARP_STATE_EMPTY | ETHARP_STATE_PENDING | ETHARP_STATE_STABLE | ETHARP_STATE_STABLE_REREQUESTING_1 | ETHARP_STATE_STABLE_REREQUESTING_2.
#[export] Instance etharp_state_eq_dec : EqDecision etharp_state.
Proof. solve_decision. Defined.
(** [state >= ETHARP_STATE_STABLE]. *)
Definition is_stable (s : etharp_state) : bool := match s with ETHARP_STATE_EMPTY | ETHARP_STATE_PENDING => false | _ => true end.

(** [q]: the pbuf that waits for the address, 0 for none. *)
Record etharp_entry := mkEntry { q : Z; ipaddr : Z; ethaddr : eth_addr; ctime : Z; state : etharp_state }.
Definition set_q (v : Z) (e : etharp_entry) : etharp_entry := mkEntry v (ipaddr e) (ethaddr e) (ctime e) (state e).
Definition set_ipaddr (v : Z) (e : etharp_entry) : etharp_entry := mkEntry (q e) v (ethaddr e) (ctime e) (state e).
Definition set_ethaddr (v : eth_addr) (e : etharp_entry) : etharp_entry := mkEntry (q e) (ipaddr e) v (ctime e) (state e).
Definition set_ctime (v : Z) (e : etharp_entry) : etharp_entry := mkEntry (q e) (ipaddr e) (ethaddr e) v (state e).
Definition set_state (v : etharp_state) (e : etharp_entry) : etharp_entry := mkEntry (q e) (ipaddr e) (ethaddr e) (ctime e) v.
Definition no_entry : etharp_entry := mkEntry 0 0 ethzero 0 ETHARP_STATE_EMPTY.

Inductive Effect :=
| ArpOut (dst : eth_addr) (opcode : Z) (shwaddr : eth_addr) (sipaddr : Z) (dhwaddr : eth_addr) (dipaddr : Z)
| Frame (p : Z) (dst : eth_addr)
| PbufRef (p : Z) | PbufClone (p copy : Z) | PbufFree (p : Z)
| DhcpArpReply (ip : Z).
Record Arp := mkArp { arp_table : list etharp_entry; etharp_cached_entry : nat; log : list Effect; asked : nat }.
Record Env := mkEnv { has_memory : nat -> bool; needs_copy : Z -> bool; clone : nat -> Z; link_result : nat -> Z }.

Definition entry (i : nat) (a : Arp) : etharp_entry := default no_entry (arp_table a !! i).
Definition set_entry (i : nat) (f : etharp_entry -> etharp_entry) (a : Arp) : Arp :=
  mkArp (<[i := f (entry i a)]> (arp_table a)) (etharp_cached_entry a) (log a) (asked a).
Definition ETHARP_SET_ADDRHINT (i : nat) (a : Arp) : Arp := mkArp (arp_table a) i (log a) (asked a).
Definition effect (x : Effect) (a : Arp) : Arp := mkArp (arp_table a) (etharp_cached_entry a) (log a ++ [x]) (asked a).
Definition answered (a : Arp) : Arp := mkArp (arp_table a) (etharp_cached_entry a) (log a) (S (asked a)).

(** ** Addresses *)
Definition ip4_addr_isany (ip : Z) : bool := ip =? 0.
Definition ip4_addr_ismulticast (ip : Z) : bool := Z.land ip 0xf0000000 =? 0xe0000000.
Definition ip4_addr_islinklocal (ip : Z) : bool := Z.land ip 0xffff0000 =? 0xa9fe0000.
Definition ip4_addr_netcmp (a b mask : Z) : bool := Z.land a mask =? Z.land b mask.
Definition ip4_addr_isbroadcast (addr : Z) (n : Netif) : bool :=
  if (u32 (Z.lnot addr) =? 0) || (addr =? 0) then true
  else if negb (has_flag NETIF_FLAG_BROADCAST n) then false
  else if addr =? ip_addr n then false
  else ip4_addr_netcmp addr (ip_addr n) (netmask n) && (Z.land addr (u32 (Z.lnot (netmask n))) =? Z.land 0xffffffff (u32 (Z.lnot (netmask n)))).
Definition mcastaddr (ip : Z) : eth_addr := [0x01; 0x00; 0x5e; Z.land (u8 (Z.shiftr ip 16)) 0x7f; u8 (Z.shiftr ip 8); u8 ip].

Section arp.
Context (env : Env).

(** The frame that is handed over, with the result: that of [netif->linkoutput],
    or ERR_BUF when there is no room for the header. *)
Definition ethernet_output (p : Z) (dst : eth_addr) (a : Arp) : Arp * Z := (answered (effect (Frame p dst) a), link_result env (asked a)).

(** The ARP packet is sent and freed; the result of sending is ignored. *)
Definition etharp_raw (ethdst_addr hwsrc_addr : eth_addr) (ipsrc_addr : Z) (hwdst_addr : eth_addr) (ipdst_addr opcode : Z) (a : Arp) : Arp * Z :=
  if has_memory env (asked a) then (answered (effect (ArpOut ethdst_addr opcode hwsrc_addr ipsrc_addr hwdst_addr ipdst_addr) a), ERR_OK)
  else (answered a, ERR_MEM).
Definition etharp_request_dst (n : Netif) (ip : Z) (hw_dst_addr : eth_addr) (a : Arp) : Arp * Z :=
  etharp_raw hw_dst_addr (hwaddr n) (ip_addr n) ethzero ip ARP_REQUEST a.
Definition etharp_request (n : Netif) (ip : Z) (a : Arp) : Arp * Z := etharp_request_dst n ip ethbroadcast a.

Definition etharp_free_entry (i : nat) (a : Arp) : Arp :=
  let a := if negb (q (entry i a) =? 0) then set_entry i (set_q 0) (effect (PbufFree (q (entry i a))) a) else a in
  set_entry i (set_state ETHARP_STATE_EMPTY) a.

(** The body of the loop of etharp_tmr. *)
Definition tmr_entry (n : Netif) (a : Arp) (i : nat) : Arp :=
  if decide (state (entry i a) = ETHARP_STATE_EMPTY) then a
  else
    let a := set_entry i (fun e => set_ctime (u16 (ctime e + 1)) e) a in
    let e := entry i a in
    if (ctime e >=? ARP_MAXAGE) || (bool_decide (state e = ETHARP_STATE_PENDING) && (ctime e >=? ARP_MAXPENDING)) then etharp_free_entry i a
    else
      match state e with
      | ETHARP_STATE_STABLE_REREQUESTING_1 => set_entry i (set_state ETHARP_STATE_STABLE_REREQUESTING_2) a
      | ETHARP_STATE_STABLE_REREQUESTING_2 => set_entry i (set_state ETHARP_STATE_STABLE) a
      | ETHARP_STATE_PENDING => (etharp_request n (ipaddr e) a).1
      | _ => a
      end.
Definition etharp_tmr (n : Netif) (a : Arp) : Arp := foldl (tmr_entry n) a (seq 0 ARP_TABLE_SIZE).

(** ** etharp_find_entry *)

(** The candidates of the sweep; ARP_TABLE_SIZE stands for none. *)
Record Candidates := mkCandidates {
  old_pending : nat; old_stable : nat; empty : nat; old_queue : nat; age_queue : Z; age_pending : Z; age_stable : Z
}.
Definition no_candidates : Candidates := mkCandidates ARP_TABLE_SIZE ARP_TABLE_SIZE ARP_TABLE_SIZE ARP_TABLE_SIZE 0 0 0.
Definition candidate (i : nat) (e : etharp_entry) (c : Candidates) : Candidates :=
  if decide (state e = ETHARP_STATE_PENDING) then
    if negb (q e =? 0) then
      if ctime e >=? age_queue c then mkCandidates (old_pending c) (old_stable c) (empty c) i (ctime e) (age_pending c) (age_stable c) else c
    else
      if ctime e >=? age_pending c then mkCandidates i (old_stable c) (empty c) (old_queue c) (age_queue c) (ctime e) (age_stable c) else c
  else if ctime e >=? age_stable c then mkCandidates (old_pending c) i (empty c) (old_queue c) (age_queue c) (age_pending c) (ctime e) else c.
Fixpoint sweep (ip : Z) (l : list etharp_entry) (i : nat) (c : Candidates) : nat + Candidates :=
  match l with
  | [] => inr c
  | e :: l =>
    if decide (state e = ETHARP_STATE_EMPTY) then
      sweep ip l (S i) (if (empty c =? ARP_TABLE_SIZE)%nat
                        then mkCandidates (old_pending c) (old_stable c) i (old_queue c) (age_queue c) (age_pending c) (age_stable c) else c)
    else if ip =? ipaddr e then inl i
    else sweep ip l (S i) (candidate i e c)
  end.
(** The index or an error. *)
Definition etharp_find_entry (ip flags : Z) (a : Arp) : Arp * (nat + Z) :=
  match sweep ip (arp_table a) 0 no_candidates with
  | inl i => (a, inl i)
  | inr c =>
    if negb (Z.land flags ETHARP_FLAG_FIND_ONLY =? 0) || ((empty c =? ARP_TABLE_SIZE)%nat && (Z.land flags ETHARP_FLAG_TRY_HARD =? 0)) then (a, inr ERR_MEM)
    else
      let i := if (empty c <? ARP_TABLE_SIZE)%nat then empty c
               else if (old_stable c <? ARP_TABLE_SIZE)%nat then old_stable c
               else if (old_pending c <? ARP_TABLE_SIZE)%nat then old_pending c else old_queue c in
      if (i <? ARP_TABLE_SIZE)%nat then
        let a := if (empty c <? ARP_TABLE_SIZE)%nat then a else etharp_free_entry i a in
        (set_entry i (fun e => set_ctime 0 (set_ipaddr ip e)) a, inl i)
      else (a, inr ERR_MEM)
  end.

(** ** Updates and input *)
Definition etharp_update_arp_entry (n : Netif) (ip : Z) (mac : eth_addr) (flags : Z) (a : Arp) : Arp * Z :=
  if ip4_addr_isany ip || ip4_addr_isbroadcast ip n || ip4_addr_ismulticast ip then (a, ERR_ARG)
  else
    match etharp_find_entry ip flags a with
    | (a, inr err) => (a, err)
    | (a, inl i) =>
      let a := set_entry i (fun e => set_ctime 0 (set_ethaddr mac (set_state ETHARP_STATE_STABLE e))) a in
      let p := q (entry i a) in
      if negb (p =? 0) then
        let a := set_entry i (set_q 0) a in
        let (a, _) := ethernet_output p mac a in
        (effect (PbufFree p) a, ERR_OK)
      else (a, ERR_OK)
    end.

Record etharp_hdr := mkHdr { hwtype : Z; proto : Z; hwlen : Z; protolen : Z; opcode : Z; shwaddr : eth_addr; sipaddr : Z; dipaddr : Z }.

(** [p]: the pbuf with the packet. *)
Definition etharp_input (n : Netif) (p : Z) (hdr : etharp_hdr) (a : Arp) : Arp :=
  if negb (hwtype hdr =? LWIP_IANA_HWTYPE_ETHERNET) || negb (hwlen hdr =? ETH_HWADDR_LEN) || negb (protolen hdr =? 4) || negb (proto hdr =? ETHTYPE_IP) then
    effect (PbufFree p) a
  else
    let for_us := if ip4_addr_isany (ip_addr n) then false else dipaddr hdr =? ip_addr n in
    let (a, _) := etharp_update_arp_entry n (sipaddr hdr) (shwaddr hdr) (if for_us then ETHARP_FLAG_TRY_HARD else ETHARP_FLAG_FIND_ONLY) a in
    let a :=
      if opcode hdr =? ARP_REQUEST then
        if for_us then (etharp_raw (shwaddr hdr) (hwaddr n) (ip_addr n) (shwaddr hdr) (sipaddr hdr) ARP_REPLY a).1 else a
      else if opcode hdr =? ARP_REPLY then effect (DhcpArpReply (sipaddr hdr)) a
      else a in
    effect (PbufFree p) a.

(** ** Output *)
Definition etharp_output_to_arp_index (n : Netif) (p : Z) (i : nat) (a : Arp) : Arp * Z :=
  let e := entry i a in
  let rerequest (r : Arp * Z) := let (a, err) := r in if err =? ERR_OK then set_entry i (set_state ETHARP_STATE_STABLE_REREQUESTING_1) a else a in
  let a :=
    if decide (state e = ETHARP_STATE_STABLE) then
      if ctime e >=? ARP_AGE_REREQUEST_USED_BROADCAST then rerequest (etharp_request n (ipaddr e) a)
      else if ctime e >=? ARP_AGE_REREQUEST_USED_UNICAST then rerequest (etharp_request_dst n (ipaddr e) (ethaddr e) a)
      else a
    else a in
  ethernet_output p (ethaddr (entry i a)) a.

(** The pbuf to keep for the packet [p], 0 when it could not be copied. *)
Definition keep_packet (p : Z) (a : Arp) : Arp * Z :=
  if needs_copy env p then
    let copy := clone env (asked a) in
    (answered (if copy =? 0 then a else effect (PbufClone p copy) a), copy)
  else (effect (PbufRef p) a, p).

Definition etharp_query (n : Netif) (ip p : Z) (a : Arp) : Arp * Z :=
  if ip4_addr_isbroadcast ip n || ip4_addr_ismulticast ip || ip4_addr_isany ip then (a, ERR_ARG)
  else
    match etharp_find_entry ip ETHARP_FLAG_TRY_HARD a with
    | (a, inr err) => (a, err)
    | (a, inl i) =>
      let is_new_entry := bool_decide (state (entry i a) = ETHARP_STATE_EMPTY) in
      let a := if is_new_entry then set_entry i (set_state ETHARP_STATE_PENDING) a else a in
      let (a, result) := if is_new_entry || (p =? 0) then etharp_request n ip a else (a, ERR_MEM) in
      if p =? 0 then (a, result)
      else if is_stable (state (entry i a)) then ethernet_output p (ethaddr (entry i a)) (ETHARP_SET_ADDRHINT i a)
      else
        let (a, kept) := keep_packet p a in
        if kept =? 0 then (a, ERR_MEM)
        else
          let a := if negb (q (entry i a) =? 0) then effect (PbufFree (q (entry i a))) a else a in
          (set_entry i (set_q kept) a, ERR_OK)
    end.

(** The loop of etharp_output for a stable entry. *)
Fixpoint find_stable (ip : Z) (l : list etharp_entry) (i : nat) : option nat :=
  match l with
  | [] => None
  | e :: l => if is_stable (state e) && (ip =? ipaddr e) then Some i else find_stable ip l (S i)
  end.
(** The address that is looked up for a unicast destination; [None]: no route. *)
Definition next_hop (n : Netif) (ip : Z) : option Z :=
  if negb (ip4_addr_netcmp ip (ip_addr n) (netmask n)) && negb (ip4_addr_islinklocal ip) then
    if negb (ip4_addr_isany (gw n)) then Some (gw n) else None
  else Some ip.
Definition etharp_output (n : Netif) (p ip : Z) (a : Arp) : Arp * Z :=
  if ip4_addr_isbroadcast ip n then ethernet_output p ethbroadcast a
  else if ip4_addr_ismulticast ip then ethernet_output p (mcastaddr ip) a
  else
    match next_hop n ip with
    | None => (a, ERR_RTE)
    | Some dst_addr =>
      let e := entry (etharp_cached_entry a) a in
      if is_stable (state e) && (dst_addr =? ipaddr e) then etharp_output_to_arp_index n p (etharp_cached_entry a) a
      else
        match find_stable dst_addr (arp_table a) 0 with
        | Some i => etharp_output_to_arp_index n p i (ETHARP_SET_ADDRHINT i a)
        | None => etharp_query n dst_addr p a
        end
    end.

(** ** The rest *)
Definition etharp_cleanup_netif (a : Arp) : Arp :=
  foldl (fun a i => if decide (state (entry i a) = ETHARP_STATE_EMPTY) then a else etharp_free_entry i a) a (seq 0 ARP_TABLE_SIZE).
Definition etharp_find_addr (ip : Z) (a : Arp) : option (nat * eth_addr) :=
  match etharp_find_entry ip ETHARP_FLAG_FIND_ONLY a with
  | (_, inl i) => if is_stable (state (entry i a)) then Some (i, ethaddr (entry i a)) else None
  | _ => None
  end.
Definition etharp_get_entry (i : nat) (a : Arp) : option (Z * eth_addr) :=
  if (i <? ARP_TABLE_SIZE)%nat && is_stable (state (entry i a)) then Some (ipaddr (entry i a), ethaddr (entry i a)) else None.
End arp.

(** After start-up. *)
Definition arp_start : Arp := mkArp (replicate ARP_TABLE_SIZE no_entry) 0 [] 0.
