(* ===== verification/EtharpSpec.v ===== *)
(** * The ARP cache sends packets where the network said *)

From S2P Require Import Prelude LwipErr Netif Etharp.
#[local] Open Scope Z_scope.

(** ** History *)

(** What was announced for an address last: the hardware address, and how many
    ticks of the timer ago. *)
Abbreviation Heard := (gmap Z (eth_addr * Z)).
(** The packets handed over, with the address each is to be sent to. *)
Abbreviation Submitted := (list (Z * Z)).

Definition is_unicast (n : Netif) (ip : Z) : bool := negb (ip4_addr_isany ip || ip4_addr_isbroadcast ip n || ip4_addr_ismulticast ip).
Definition hdr_valid (h : etharp_hdr) : bool :=
  (hwtype h =? LWIP_IANA_HWTYPE_ETHERNET) && (hwlen h =? ETH_HWADDR_LEN) && (protolen h =? 4) && (proto h =? ETHTYPE_IP).
(** Where a packet for [ip] is sent: directly, or to the gateway. *)
Definition destination (n : Netif) (ip : Z) : option Z := if ip4_addr_isbroadcast ip n || ip4_addr_ismulticast ip then Some ip else next_hop n ip.

Inductive Event := EOutput (p ip : Z) | EQuery (p ip : Z) | EInput (p : Z) (h : etharp_hdr) | ETick | ECleanup.
Definition hear (n : Netif) (ev : Event) (heard : Heard) : Heard :=
  match ev with
  | EInput _ h => if hdr_valid h && is_unicast n (sipaddr h) then <[sipaddr h := (shwaddr h, 0)]> heard else heard
  | ETick => (fun x => (x.1, x.2 + 1)) <$> heard
  | _ => heard
  end.
Definition submit (n : Netif) (ev : Event) (sub : Submitted) : Submitted :=
  match ev with
  | EOutput p ip => match destination n ip with Some d => (p, d) :: sub | None => sub end
  | EQuery p ip => (p, ip) :: sub
  | _ => sub
  end.
Definition take_in (ev : Event) (inputs : list Z) : list Z := match ev with EInput p _ => p :: inputs | _ => inputs end.
Definition arp_step (env : Env) (n : Netif) (ev : Event) (a : Arp) : Arp :=
  match ev with
  | EOutput p ip => (etharp_output env n p ip a).1
  | EQuery p ip => (etharp_query env n ip p a).1
  | EInput p h => etharp_input env n p h a
  | ETick => etharp_tmr env n a
  | ECleanup => etharp_cleanup_netif a
  end.

(** The pbuf [p] holds a packet for [ip]: it was handed over, or copied from one that was. *)
Definition packet_for (sub : Submitted) (l : list Effect) (p ip : Z) : Prop := (p, ip) ∈ sub \/ exists p0, PbufClone p0 p ∈ l /\ (p0, ip) ∈ sub.

(** References that the cache takes and gives back, and those it holds. *)
Definition change (p : Z) (x : Effect) : Z :=
  match x with
  | PbufRef p' => if p' =? p then 1 else 0
  | PbufClone _ p' => if p' =? p then 1 else 0
  | PbufFree p' => if p' =? p then -1 else 0
  | _ => 0
  end.
Definition balance (p : Z) (l : list Effect) : Z := foldr (fun x s => change p x + s) 0 l.
Fixpoint waiting (p : Z) (l : list etharp_entry) : Z := match l with [] => 0 | e :: l => (if q e =? p then 1 else 0) + waiting p l end.
Definition received (p : Z) (inputs : list Z) : Z := Z.of_nat (length (filter (fun x => x = p) inputs)).

(** A frame goes to the broadcast address, to the address of the group, or to
    the hardware address announced last, less than 300 ticks ago. *)
Definition justified (n : Netif) (heard : Heard) (sub : Submitted) (l : list Effect) (x : Effect) : Prop :=
  match x with
  | Frame p dst => exists ip, packet_for sub l p ip /\
      ((ip4_addr_isbroadcast ip n = true /\ dst = ethbroadcast) \/ (ip4_addr_isbroadcast ip n = false /\ ip4_addr_ismulticast ip = true /\ dst = mcastaddr ip) \/
       exists age, heard !! ip = Some (dst, age) /\ 0 <= age < ARP_MAXAGE)
  | _ => True
  end.

(** ** The invariant *)
Definition live (e : etharp_entry) : Prop := state e <> ETHARP_STATE_EMPTY.
Definition entry_ok (heard : Heard) (e : etharp_entry) : Prop :=
  match state e with
  | ETHARP_STATE_EMPTY => q e = 0
  | ETHARP_STATE_PENDING => 0 <= ctime e < ARP_MAXPENDING
  | _ => q e = 0 /\ heard !! ipaddr e = Some (ethaddr e, ctime e) /\ 0 <= ctime e < ARP_MAXAGE
  end.
(** [H i]: the history that entry [i] agrees with. *)
Record arp_ok (H : nat -> Heard) (sub : Submitted) (a : Arp) : Prop := mkArpOk {
  ok_table : length (arp_table a) = ARP_TABLE_SIZE;
  ok_cached : (etharp_cached_entry a < ARP_TABLE_SIZE)%nat;
  ok_unique : forall i j, (i < ARP_TABLE_SIZE)%nat -> (j < ARP_TABLE_SIZE)%nat -> live (entry i a) -> live (entry j a) -> ipaddr (entry i a) = ipaddr (entry j a) -> i = j;
  ok_entry : forall i, (i < ARP_TABLE_SIZE)%nat -> entry_ok (H i) (entry i a);
  ok_waiting : forall i, (i < ARP_TABLE_SIZE)%nat -> q (entry i a) <> 0 -> packet_for sub (log a) (q (entry i a)) (ipaddr (entry i a))
}.

(** What every part of an operation does to the log: it appends justified
    effects, and the references balance. *)
Definition delta (p : Z) (a : Arp) : Z := balance p (log a) - waiting p (arp_table a).
Definition grows (J : Effect -> Prop) (a a' : Arp) : Prop :=
  (exists new, log a' = log a ++ new /\ Forall J new) /\ forall p, p <> 0 -> delta p a' = delta p a.

Lemma grows_refl J a : grows J a a.
Proof. split; [exists []; by rewrite app_nil_r|done]. Qed.
Lemma grows_trans J a b c : grows J a b -> grows J b c -> grows J a c.
Proof.
  intros [(x & E & Hx) D] [(y & E' & Hy) D']. split; [exists (x ++ y); rewrite E', E, app_assoc; split; [done|by apply Forall_app]|].
  intros p Hp. by rewrite D', D.
Qed.
Lemma balance_app p l m : balance p (l ++ m) = balance p l + balance p m.
Proof. unfold balance. induction l as [|x l IH]; cbn; [done|]. rewrite IH. lia. Qed.
Lemma waiting_insert p l i e e' : l !! i = Some e -> waiting p (<[i := e']> l) = waiting p l - (if q e =? p then 1 else 0) + (if q e' =? p then 1 else 0).
Proof.
  revert i. induction l as [|x l IH]; intros [|i] E; [done..| |].
  - injection E as ->. cbn. lia.
  - cbn in *. rewrite IH by done. lia.
Qed.
Lemma packet_for_mono sub sub' l l' p ip : sub ⊆ sub' -> l ⊆ l' -> packet_for sub l p ip -> packet_for sub' l' p ip.
Proof. intros Hs Hl [H|(p0 & H1 & H2)]; [left; auto|right; exists p0; auto]. Qed.

(** ** Single changes *)
Lemma lookup_entry i a : length (arp_table a) = ARP_TABLE_SIZE -> (i < ARP_TABLE_SIZE)%nat -> arp_table a !! i = Some (entry i a).
Proof. intros Hl Hi. unfold entry. destruct (arp_table a !! i) eqn:E; [done|]. apply lookup_ge_None in E. lia. Qed.
Lemma entry_set i j f a : length (arp_table a) = ARP_TABLE_SIZE -> (i < ARP_TABLE_SIZE)%nat -> entry j (set_entry i f a) = if decide (j = i) then f (entry i a) else entry j a.
Proof.
  intros Hl Hi. unfold entry at 1, set_entry. cbn [arp_table]. destruct (decide (j = i)) as [->|Hj]; [by rewrite list_lookup_insert_eq by lia|by rewrite list_lookup_insert_ne].
Qed.
Lemma delta_set p i f a : length (arp_table a) = ARP_TABLE_SIZE -> (i < ARP_TABLE_SIZE)%nat ->
  delta p (set_entry i f a) = delta p a + (if q (entry i a) =? p then 1 else 0) - (if q (f (entry i a)) =? p then 1 else 0).
Proof. intros Hl Hi. unfold delta, set_entry. cbn [log arp_table]. rewrite (waiting_insert p _ i (entry i a)) by (by apply lookup_entry). lia. Qed.
Lemma delta_effect p x a : delta p (effect x a) = delta p a + change p x.
Proof. unfold delta, effect. cbn [log arp_table]. rewrite balance_app. cbn [balance foldr]. lia. Qed.
Lemma ok_effect H sub x a : arp_ok H sub a -> arp_ok H sub (effect x a).
Proof.
  intros [A1 A2 A3 A4 A5]. constructor; try done. intros i Hi Hq. eapply packet_for_mono; [done| |by apply A5]. cbn. set_solver.
Qed.
Lemma ok_answered H sub a : arp_ok H sub a -> arp_ok H sub (answered a).
Proof. by intros [A1 A2 A3 A4 A5]. Qed.
Lemma ok_hint H sub i a : arp_ok H sub a -> (i < ARP_TABLE_SIZE)%nat -> arp_ok H sub (ETHARP_SET_ADDRHINT i a).
Proof. intros [A1 A2 A3 A4 A5] Hi. by constructor. Qed.
Lemma ok_sub H sub sub' a : arp_ok H sub a -> sub ⊆ sub' -> arp_ok H sub' a.
Proof. intros [A1 A2 A3 A4 A5] Hs. constructor; try done. intros i Hi Hq. eapply packet_for_mono; [done| |by apply A5]. done. Qed.
Lemma ok_set H H' sub i f a : arp_ok H sub a -> (i < ARP_TABLE_SIZE)%nat ->
  (forall j, (j < ARP_TABLE_SIZE)%nat -> j <> i -> live (f (entry i a)) -> live (entry j a) -> ipaddr (entry j a) <> ipaddr (f (entry i a))) ->
  entry_ok (H' i) (f (entry i a)) -> (forall j, (j < ARP_TABLE_SIZE)%nat -> j <> i -> entry_ok (H' j) (entry j a)) ->
  (q (f (entry i a)) <> 0 -> packet_for sub (log a) (q (f (entry i a))) (ipaddr (f (entry i a)))) -> arp_ok H' sub (set_entry i f a).
Proof.
  intros [A1 A2 A3 A4 A5] Hi Hu He Ho Hq. constructor; [unfold set_entry; cbn; by rewrite length_insert|done|..].
  - intros j k Hj Hk. rewrite !entry_set by done. destruct (decide (j = i)) as [->|], (decide (k = i)) as [->|]; intros Lj Lk E; [done|..].
    + exfalso. by apply (Hu k Hk).
    + exfalso. by apply (Hu j Hj).
    + by apply A3.
  - intros j Hj. rewrite entry_set by done. destruct (decide (j = i)) as [->|]; [done|by apply Ho].
  - intros j Hj. rewrite entry_set by done. destruct (decide (j = i)) as [->|]; [done|by apply A5].
Qed.

Section arp.
Context (env : Env) (J : Effect -> Prop) (HJ : forall x, match x with Frame _ _ => True | _ => J x end).

Lemma grows_effect x a : J x -> (forall p, change p x = 0) -> grows J a (effect x a).
Proof. intros Hx Hc. split; [by exists [x]; repeat constructor|]. intros p _. rewrite delta_effect, Hc. lia. Qed.
Lemma grows_answered a : grows J a (answered a).
Proof. split; [by exists []; rewrite app_nil_r|done]. Qed.
Lemma grows_same a f i : length (arp_table a) = ARP_TABLE_SIZE -> (i < ARP_TABLE_SIZE)%nat -> q (f (entry i a)) = q (entry i a) -> grows J a (set_entry i f a).
Proof. intros Hl Hi Hq. split; [by exists []; rewrite app_nil_r|]. intros p _. rewrite delta_set, Hq by done. lia. Qed.

(** Nothing but the log and the questions. *)
Definition quiet (a a' : Arp) : Prop := arp_table a' = arp_table a /\ etharp_cached_entry a' = etharp_cached_entry a /\ grows J a a'.
Lemma quiet_entry a a' i : quiet a a' -> entry i a' = entry i a.
Proof. intros (H & _). unfold entry. by rewrite H. Qed.
Lemma quiet_ok H sub a a' : quiet a a' -> arp_ok H sub a -> arp_ok H sub a'.
Proof.
  clear HJ. intros Hq [A1 A2 A3 A4 A5]. pose proof Hq as (E1 & E2 & ((new & El & _) & _)). constructor; [by rewrite E1|by rewrite E2|..].
  - intros i j. rewrite !(quiet_entry a a' _ Hq). apply A3.
  - intros i. rewrite (quiet_entry a a' _ Hq). apply A4.
  - intros i Hi. rewrite (quiet_entry a a' _ Hq). intros Hw. eapply packet_for_mono; [done| |by apply A5]. rewrite El. set_solver.
Qed.
Lemma raw_quiet dst hs ips hd ipd op a : quiet a (etharp_raw env dst hs ips hd ipd op a).1.
Proof using HJ.
  unfold etharp_raw. destruct (has_memory _ _); cbn; (split; [done|split; [done|]]); [|apply grows_answered].
  eapply grows_trans; [apply grows_effect; [apply (HJ (ArpOut dst op hs ips hd ipd))|done]|apply grows_answered].
Qed.
Lemma output_quiet p dst a : J (Frame p dst) -> quiet a (ethernet_output env p dst a).1.
Proof. intros Hf. unfold ethernet_output. cbn. split; [done|split; [done|]]. eapply grows_trans; [by apply grows_effect|apply grows_answered]. Qed.
Lemma quiet_effect x a : J x -> (forall p, change p x = 0) -> quiet a (effect x a).
Proof. intros. split; [done|split; [done|by apply grows_effect]]. Qed.

Lemma free_ok H sub i a : arp_ok H sub a -> (i < ARP_TABLE_SIZE)%nat -> let a' := etharp_free_entry i a in
  arp_ok H sub a' /\ grows J a a' /\ forall j, entry j a' = if decide (j = i) then set_state ETHARP_STATE_EMPTY (set_q 0 (entry i a)) else entry j a.
Proof using HJ.
  intros Hok Hi. cbn zeta. unfold etharp_free_entry. pose proof (ok_table _ _ _ Hok) as Hl. destruct (Z.eqb_spec (q (entry i a)) 0) as [E|E]; cbn [negb].
  - assert (set_state ETHARP_STATE_EMPTY (set_q 0 (entry i a)) = set_state ETHARP_STATE_EMPTY (entry i a)) as ->.
    { destruct (entry i a); cbn in *. by subst. }
    split; [|split; [by apply grows_same|intros j; by apply entry_set]]. apply (ok_set H); try done. intros j Hj Hn. by apply Hok.
  - set (a1 := effect _ a). assert (arp_ok H sub a1) as Hok1 by by apply ok_effect. set (a2 := set_entry i (set_q 0) a1).
    assert (entry i a1 = entry i a) as Ei by done. assert (forall j, entry j a2 = if decide (j = i) then set_q 0 (entry i a) else entry j a) as Ej by (intros j; exact (entry_set i j (set_q 0) a1 Hl Hi)).
    assert (length (arp_table a2) = ARP_TABLE_SIZE) as Hl2 by (unfold a2, set_entry; cbn; by rewrite length_insert). assert (Eii : entry i a2 = set_q 0 (entry i a)) by (rewrite Ej; by rewrite decide_True).
    split; [|split].
    + assert (set_entry i (set_state ETHARP_STATE_EMPTY) a2 = set_entry i (fun e => set_state ETHARP_STATE_EMPTY (set_q 0 e)) a1) as ->.
      { unfold set_entry. cbn. f_equal. rewrite Eii. unfold a1. cbn. by rewrite list_insert_insert_eq. }
      apply (ok_set H); try done. intros j Hj Hn. by apply Hok1.
    + split; [exists [PbufFree (q (entry i a))]; split; [done|repeat constructor; apply (HJ (PbufFree (q (entry i a))))]|]. intros p Hp. rewrite delta_set by done. unfold a2. rewrite delta_set by done.
      unfold a1. rewrite delta_effect. cbn [change]. rewrite !entry_set by done. rewrite decide_True by done. change (entry i (effect (PbufFree (q (entry i a))) a)) with (entry i a). cbn [q set_q set_state].
      destruct (Z.eqb_spec 0 p); [lia|]. destruct (q (entry i a) =? p); lia.
    + intros j. rewrite entry_set by done. rewrite Eii. destruct (decide (j = i)) as [->|]; [done|]. rewrite Ej. by rewrite decide_False.
Qed.

(** ** Finding an entry *)
Lemma candidate_empty i e c : empty (candidate i e c) = empty c.
Proof. unfold candidate. repeat case_match; done. Qed.
Lemma sweep_spec ip l : forall i c,
  match sweep ip l i c with
  | inl k => (i <= k)%nat /\ exists e, l !! (k - i)%nat = Some e /\ live e /\ ipaddr e = ip
  | inr c' => (forall j e, l !! j = Some e -> live e -> ipaddr e <> ip) /\
      (empty c' = empty c \/ exists j e, l !! j = Some e /\ empty c' = (i + j)%nat /\ state e = ETHARP_STATE_EMPTY)
  end.
Proof.
  assert (forall (e0 : etharp_entry) (c c1 c' : Candidates) l i, (empty c1 = empty c \/ (empty c1 = i /\ state e0 = ETHARP_STATE_EMPTY)) ->
    (empty c' = empty c1 \/ exists j e, l !! j = Some e /\ empty c' = (S i + j)%nat /\ state e = ETHARP_STATE_EMPTY) ->
    empty c' = empty c \/ exists j e, (e0 :: l) !! j = Some e /\ empty c' = (i + j)%nat /\ state e = ETHARP_STATE_EMPTY) as Hstep.
  { intros e0 c c1 c' m i [E1|[E1 Es]] [E|(j & e & H1 & H2 & H3)]; [left; congruence|..].
    - right. exists (S j), e. split; [done|]. split; [lia|done].
    - right. exists 0%nat, e0. split; [done|]. split; [lia|done].
    - right. exists (S j), e. split; [done|]. split; [lia|done]. }
  induction l as [|e0 l IH]; intros i c; cbn [sweep]; [split; [intros j e Hj; by rewrite lookup_nil in Hj|by left]|].
  destruct (decide (state e0 = ETHARP_STATE_EMPTY)) as [Es|Es]; [|destruct (Z.eqb_spec ip (ipaddr e0)) as [Ei|Ei]].
  - specialize (IH (S i) (if (empty c =? ARP_TABLE_SIZE)%nat then mkCandidates (old_pending c) (old_stable c) i (old_queue c) (age_queue c) (age_pending c) (age_stable c) else c)).
    destruct (sweep _ _ _ _) as [k|c'].
    + destruct IH as [Hk (e & He & ?)]. split; [lia|]. exists e. by replace (k - i)%nat with (S (k - S i)) by lia.
    + destruct IH as [Hn Hc]. split; [intros [|j] e; [intros [= <-] Hl; by destruct Hl|apply Hn]|]. eapply Hstep; [|exact Hc]. destruct (_ =? _)%nat; [by right|by left].
  - split; [lia|]. exists e0. by rewrite Nat.sub_diag.
  - specialize (IH (S i) (candidate i e0 c)). destruct (sweep _ _ _ _) as [k|c'].
    + destruct IH as [Hk (e & He & ?)]. split; [lia|]. exists e. by replace (k - i)%nat with (S (k - S i)) by lia.
    + destruct IH as [Hn Hc]. split; [intros [|j] e; [intros [= <-] _; congruence|apply Hn]|]. eapply Hstep; [|exact Hc]. left. by rewrite candidate_empty.
Qed.

Lemma find_ok H sub ip flags a : arp_ok H sub a ->
  match etharp_find_entry ip flags a with
  | (a', inr err) => a' = a /\ forall j, (j < ARP_TABLE_SIZE)%nat -> live (entry j a) -> ipaddr (entry j a) <> ip
  | (a', inl i) => (i < ARP_TABLE_SIZE)%nat /\ arp_ok H sub a' /\ grows J a a' /\ ipaddr (entry i a') = ip /\
      (forall j, (j < ARP_TABLE_SIZE)%nat -> j <> i -> live (entry j a') -> ipaddr (entry j a') <> ip) /\
      (state (entry i a') = ETHARP_STATE_EMPTY -> q (entry i a') = 0 /\ ctime (entry i a') = 0) /\ (live (entry i a') -> a' = a)
  end.
Proof using HJ.
  intros Hok. pose proof (ok_table _ _ _ Hok) as Hl. unfold etharp_find_entry. pose proof (sweep_spec ip (arp_table a) 0 no_candidates) as Hs.
  destruct (sweep _ _ _ _) as [i|c].
  - destruct Hs as [_ (e & He & Hlive & Hip)]. rewrite Nat.sub_0_r in He. assert (i < ARP_TABLE_SIZE)%nat as Hi by (apply lookup_lt_Some in He; lia).
    assert (entry i a = e) as Ee by (unfold entry; by rewrite He). split; [done|]. split; [done|]. split; [apply grows_refl|]. split; [by rewrite Ee|]. split.
    + intros j Hj Hn Hlj E. apply Hn. apply (ok_unique _ _ _ Hok); try done; [by rewrite Ee|by rewrite Ee, E].
    + split; [|done]. rewrite Ee. intros Es. by destruct Hlive.
  - destruct Hs as [Hn Hc]. assert (forall j, (j < ARP_TABLE_SIZE)%nat -> live (entry j a) -> ipaddr (entry j a) <> ip) as Hno by (intros j Hj; apply (Hn j); by apply lookup_entry).
    destruct (_ || _); [done|]. set (i := if (empty c <? ARP_TABLE_SIZE)%nat then _ else _).
    assert (empty c < ARP_TABLE_SIZE -> i = empty c)%nat as Hie by (intros He; unfold i; by rewrite (proj2 (Nat.ltb_lt _ _)) by done). clearbody i. destruct (Nat.ltb_spec i ARP_TABLE_SIZE) as [Hi|Hi]; [|done].
    set (a1 := if (empty c <? ARP_TABLE_SIZE)%nat then a else etharp_free_entry i a).
    assert (arp_ok H sub a1 /\ grows J a a1 /\ state (entry i a1) = ETHARP_STATE_EMPTY /\ (forall j, (j < ARP_TABLE_SIZE)%nat -> live (entry j a1) -> ipaddr (entry j a1) <> ip)) as (Hok1 & Hg1 & Hs1 & Hno1).
    { unfold a1. destruct (Nat.ltb_spec (empty c) ARP_TABLE_SIZE) as [He|He].
      - split; [done|]. split; [apply grows_refl|]. split; [|done]. destruct Hc as [Hc|(j & e & H1 & H2 & H3)]; [rewrite Hc in He; cbn in He; lia|]. rewrite Hie, H2 by done. unfold entry. cbn [Nat.add]. by rewrite H1.
      - destruct (free_ok H sub i a Hok Hi) as (F1 & F2 & F3). split; [done|]. split; [done|]. split; [rewrite F3; by rewrite decide_True|].
        intros j Hj. rewrite F3. destruct (decide (j = i)) as [->|]; [intros Hx; by destruct Hx|by apply Hno]. }
    pose proof (ok_table _ _ _ Hok1) as Hl1. pose proof (ok_entry _ _ _ Hok1 i Hi) as Hq1. unfold entry_ok in Hq1. rewrite Hs1 in Hq1.
    split; [done|]. assert (forall j, entry j (set_entry i (fun e => set_ctime 0 (set_ipaddr ip e)) a1) = if decide (j = i) then set_ctime 0 (set_ipaddr ip (entry i a1)) else entry j a1) as Ej by (intros j; by apply entry_set).
    split; [|split; [|split; [|split]]].
    + apply (ok_set H); [done|done|..].
      * intros j Hj Hn' Hx. exfalso. apply Hx. cbn. exact Hs1.
      * unfold entry_ok. cbn. by rewrite Hs1.
      * intros j Hj _. by apply Hok1.
      * cbn. congruence.
    + eapply grows_trans; [exact Hg1|by apply grows_same].
    + rewrite Ej. by rewrite decide_True.
    + intros j Hj Hn'. rewrite Ej, decide_False by done. by apply Hno1.
    + rewrite Ej, decide_True by done. split; [done|]. intros Hx. by destruct Hx.
Qed.

(** ** Updates *)
Lemma hear_entry heard ip x e : (live e -> ipaddr e <> ip) -> entry_ok heard e -> entry_ok (<[ip := x]> heard) e.
Proof.
  unfold entry_ok, live. intros Hn He. destruct (state e); try done; (destruct He as (H1 & H2 & H3); split; [done|]; split; [|done]; rewrite lookup_insert_ne; [done|]; intros ->; by apply Hn).
Qed.
Lemma set_set i f g a : length (arp_table a) = ARP_TABLE_SIZE -> (i < ARP_TABLE_SIZE)%nat -> set_entry i g (set_entry i f a) = set_entry i (fun e => g (f e)) a.
Proof.
  intros Hl Hi. unfold set_entry at 1. rewrite (entry_set i i f a Hl Hi), decide_True by done. unfold set_entry. cbn. by rewrite list_insert_insert_eq.
Qed.

Lemma update_ok n heard sub ip mac flags a : arp_ok (fun _ => heard) sub a ->
  (forall p, packet_for sub (log a) p ip -> is_unicast n ip = true -> J (Frame p mac)) ->
  let a' := (etharp_update_arp_entry env n ip mac flags a).1 in
  arp_ok (fun _ => if is_unicast n ip then <[ip := (mac, 0)]> heard else heard) sub a' /\ grows J a a'.
Proof using HJ.
  intros Hok HF. cbn zeta. unfold etharp_update_arp_entry, is_unicast in *. destruct (_ || _ || _); cbn [negb] in *; [split; [done|apply grows_refl]|].
  pose proof (find_ok (fun _ => heard) sub ip flags a Hok) as Hf. destruct (etharp_find_entry ip flags a) as [a1 [i|err]].
  2: { destruct Hf as [-> Hno]. split; [|apply grows_refl]. destruct Hok as [A1 A2 A3 A4 A5]. constructor; try done. intros i Hi. apply hear_entry; [by apply Hno|by apply A4]. }
  destruct Hf as (Hi & Hok1 & Hg1 & Hip & Hno & Hempty & Hsame). pose proof (ok_table _ _ _ Hok1) as Hl1.
  set (f := fun e => set_ctime 0 (set_ethaddr mac (set_state ETHARP_STATE_STABLE e))). pose proof (entry_set i i f a1 Hl1 Hi) as Ei. rewrite decide_True in Ei by done.
  assert (forall g, (forall e, q e = q (entry i a1) -> ipaddr (g e) = ipaddr e /\ state (g e) = ETHARP_STATE_STABLE /\ q (g e) = 0 /\ ethaddr (g e) = mac /\ ctime (g e) = 0) ->
    arp_ok (fun _ => <[ip := (mac, 0)]> heard) sub (set_entry i g a1)) as Hset.
  { intros g Hg. destruct (Hg (entry i a1) eq_refl) as (G1 & G2 & G3 & G4 & G5). apply (ok_set (fun _ => heard)); [done|done|..].
    - intros j Hj Hn _ Hlj. rewrite G1, Hip. by apply Hno.
    - unfold entry_ok. rewrite G2, G1, Hip, G4, G5. split; [done|]. split; [apply lookup_insert_eq|]. unfold ARP_MAXAGE. lia.
    - intros j Hj Hn. apply hear_entry; [by apply Hno|]. by apply (ok_entry _ _ _ Hok1).
    - by rewrite G3. }
  rewrite Ei. change (q (f (entry i a1))) with (q (entry i a1)). destruct (Z.eqb_spec (q (entry i a1)) 0) as [Eq|Eq]; cbn [negb fst].
  - split; [|eapply grows_trans; [exact Hg1|by apply grows_same]]. apply Hset. intros e He. cbn. by rewrite He.
  - destruct (decide (state (entry i a1) = ETHARP_STATE_EMPTY)) as [Es|Es]; [by destruct (Hempty Es)|]. rewrite (Hsame Es) in *. rewrite set_set by done. set (g := fun e => set_q 0 (f e)).
    unfold ethernet_output. cbn [fst]. split.
    + apply ok_effect, ok_answered, ok_effect. by apply Hset.
    + split; [exists [Frame (q (entry i a)) mac; PbufFree (q (entry i a))]; split; [cbn; by rewrite <- app_assoc|]|].
      * repeat constructor; [|apply (HJ (PbufFree (q (entry i a))))]. apply HF; [|done]. rewrite <- Hip. by apply (ok_waiting _ _ _ Hok).
      * intros p Hp. rewrite delta_effect. change (delta p (answered (effect (Frame (q (entry i a)) mac) (set_entry i g a)))) with (delta p (effect (Frame (q (entry i a)) mac) (set_entry i g a))).
        rewrite delta_effect, delta_set by done. cbn [change q g f set_q set_ctime set_ethaddr set_state]. destruct (Z.eqb_spec 0 p); [lia|]. destruct (q (entry i a) =? p); lia.
Qed.

(** A received packet is freed at the end, on top of what balances. *)
Lemma free_input p a a1 : grows J a a1 -> (exists new, log (effect (PbufFree p) a1) = log a ++ new /\ Forall J new) /\
  forall x, x <> 0 -> delta x (effect (PbufFree p) a1) = delta x a - (if p =? x then 1 else 0).
Proof using HJ.
  intros [(new & E & Hn) D]. split.
  - exists (new ++ [PbufFree p]). cbn. rewrite E, app_assoc. split; [done|]. apply Forall_app. split; [done|]. repeat constructor. apply (HJ (PbufFree p)).
  - intros x Hx. rewrite delta_effect, D by done. cbn. destruct (p =? x); lia.
Qed.
Lemma input_ok n heard sub p h a : arp_ok (fun _ => heard) sub a ->
  (forall x, packet_for sub (log a) x (sipaddr h) -> hdr_valid h && is_unicast n (sipaddr h) = true -> J (Frame x (shwaddr h))) ->
  let a' := etharp_input env n p h a in
  arp_ok (fun _ => hear n (EInput p h) heard) sub a' /\ (exists new, log a' = log a ++ new /\ Forall J new) /\
  forall x, x <> 0 -> delta x a' = delta x a - (if p =? x then 1 else 0).
Proof using HJ.
  intros Hok HF. cbn zeta. unfold etharp_input, hear, hdr_valid in *.
  destruct (hwtype h =? _), (hwlen h =? _), (protolen h =? 4), (proto h =? _); cbn [negb orb andb] in *;
    try (split; [by apply ok_effect|apply free_input, grows_refl]).
  set (for_us := if ip4_addr_isany (ip_addr n) then false else dipaddr h =? ip_addr n).
  destruct (update_ok n heard sub (sipaddr h) (shwaddr h) (if for_us then ETHARP_FLAG_TRY_HARD else ETHARP_FLAG_FIND_ONLY) a Hok) as [Hok1 Hg1].
  { intros x Hx Hu. by apply HF. }
  destruct (etharp_update_arp_entry _ _ _ _ _ _) as [a1 r]. cbn [fst] in *.
  set (a2 := if opcode h =? ARP_REQUEST then _ else _). assert (quiet a1 a2) as Hq.
  { unfold a2. repeat case_match; try apply raw_quiet; try (split; [done|split; [done|apply grows_refl]]).
    all: apply quiet_effect; [apply (HJ (DhcpArpReply (sipaddr h)))|done]. }
  split; [by apply ok_effect, (quiet_ok _ _ _ _ Hq)|]. apply free_input. eapply grows_trans; [exact Hg1|apply Hq].
Qed.

(** ** Output *)
Lemma stable_ok heard e : is_stable (state e) = true -> entry_ok heard e -> q e = 0 /\ heard !! ipaddr e = Some (ethaddr e, ctime e) /\ 0 <= ctime e < ARP_MAXAGE /\ live e.
Proof. unfold entry_ok, live. destruct (state e); try done; intros _ (H1 & H2 & H3); split_and!; done || lia. Qed.

Lemma to_index_ok n heard sub p i a : arp_ok (fun _ => heard) sub a -> (i < ARP_TABLE_SIZE)%nat -> is_stable (state (entry i a)) = true ->
  J (Frame p (ethaddr (entry i a))) -> let a' := (etharp_output_to_arp_index env n p i a).1 in arp_ok (fun _ => heard) sub a' /\ grows J a a'.
Proof using HJ.
  intros Hok Hi Hs HF. cbn zeta. unfold etharp_output_to_arp_index. destruct (stable_ok heard _ Hs (ok_entry _ _ _ Hok i Hi)) as (Hq & Hh & Hc & Hlive).
  set (rerequest := fun r : Arp * Z => let (a0, err) := r in if err =? ERR_OK then set_entry i (set_state ETHARP_STATE_STABLE_REREQUESTING_1) a0 else a0).
  assert (forall r, quiet a r.1 -> arp_ok (fun _ => heard) sub (rerequest r) /\ grows J a (rerequest r) /\ ethaddr (entry i (rerequest r)) = ethaddr (entry i a)) as Hre.
  { intros [a1 err] Hqu. cbn [fst] in Hqu. pose proof (quiet_ok _ _ _ _ Hqu Hok) as Hok1. pose proof (quiet_entry _ _ i Hqu) as Ei. unfold rerequest. pose proof (ok_table _ _ _ Hok1) as Hl1.
    destruct (err =? ERR_OK); [|split; [done|split; [apply Hqu|by rewrite Ei]]]. split; [|split].
    - apply (ok_set (fun _ => heard)); [done|done|..].
      + intros j Hj Hn _ Hlj E. apply Hn. apply (ok_unique _ _ _ Hok1); try done. by rewrite Ei.
      + unfold entry_ok. cbn. rewrite Ei. done.
      + intros j Hj _. by apply (ok_entry _ _ _ Hok1).
      + cbn. rewrite Ei, Hq. done.
    - eapply grows_trans; [apply Hqu|by apply grows_same].
    - rewrite entry_set, decide_True by done. cbn. by rewrite Ei. }
  set (a1 := if decide (state (entry i a) = ETHARP_STATE_STABLE) then _ else _).
  assert (arp_ok (fun _ => heard) sub a1 /\ grows J a a1 /\ ethaddr (entry i a1) = ethaddr (entry i a)) as (Hok1 & Hg1 & E1).
  { unfold a1. destruct (decide _); [|split; [done|split; [apply grows_refl|done]]]. destruct (_ >=? _); [apply Hre, raw_quiet|]. destruct (_ >=? _); [apply Hre, raw_quiet|].
    split; [done|split; [apply grows_refl|done]]. }
  rewrite E1. pose proof (output_quiet p (ethaddr (entry i a)) a1 HF) as Hq2. split; [by apply (quiet_ok _ _ _ _ Hq2)|]. eapply grows_trans; [exact Hg1|apply Hq2].
Qed.

Lemma find_stable_spec ip l : forall i k, find_stable ip l i = Some k -> (i <= k)%nat /\ exists e, l !! (k - i)%nat = Some e /\ is_stable (state e) = true /\ ipaddr e = ip.
Proof.
  induction l as [|e l IH]; intros i k; cbn; [done|]. destruct (is_stable (state e) && (ip =? ipaddr e)) eqn:E.
  - intros [= <-]. apply andb_true_iff in E as [E1 E2]. apply Z.eqb_eq in E2. split; [lia|]. exists e. by rewrite Nat.sub_diag.
  - intros Hk. destruct (IH _ _ Hk) as [Hle (e' & He & ?)]. split; [lia|]. exists e'. by replace (k - i)%nat with (S (k - S i)) by lia.
Qed.

(** A packet is kept in place of the one that waited, which is freed. *)
Lemma enqueue_ok heard sub ip i kept x a a1 : arp_ok (fun _ => heard) sub a -> (i < ARP_TABLE_SIZE)%nat -> state (entry i a) = ETHARP_STATE_PENDING -> ipaddr (entry i a) = ip ->
  arp_table a1 = arp_table a -> etharp_cached_entry a1 = etharp_cached_entry a -> log a1 = log a ++ [x] -> J x -> (forall p, change p x = if kept =? p then 1 else 0) ->
  packet_for sub (log a1) kept ip ->
  let a2 := set_entry i (set_q kept) (if negb (q (entry i a1) =? 0) then effect (PbufFree (q (entry i a1))) a1 else a1) in
  arp_ok (fun _ => heard) sub a2 /\ grows J a a2.
Proof using HJ.
  intros Hok Hi Es Hip Et Ec El HJx Hx Hpf. cbn zeta.
  assert (forall j, entry j a1 = entry j a) as Ej by (intros j; unfold entry; by rewrite Et). rewrite Ej.
  assert (arp_ok (fun _ => heard) sub a1) as Hok1.
  { destruct Hok as [A1 A2 A3 A4 A5]. constructor; [by rewrite Et|by rewrite Ec|..].
    - intros j k. rewrite !Ej. apply A3.
    - intros j. rewrite Ej. apply A4.
    - intros j Hj. rewrite Ej. intros Hw. eapply packet_for_mono; [done| |by apply A5]. rewrite El. set_solver. }
  set (a2 := if negb (q (entry i a) =? 0) then effect (PbufFree (q (entry i a))) a1 else a1).
  assert (arp_ok (fun _ => heard) sub a2 /\ (forall j, entry j a2 = entry j a) /\ packet_for sub (log a2) kept ip) as (Hok2 & Ej2 & Hpf2).
  { unfold a2. destruct (negb _); [|done]. split; [by apply ok_effect|]. split; [exact Ej|]. eapply packet_for_mono; [done| |exact Hpf]. cbn. set_solver. }
  split.
  - apply (ok_set (fun _ => heard)); [done|done|..].
    + intros j Hj Hn _ Hlj E. apply Hn. apply (ok_unique _ _ _ Hok2); try done. rewrite Ej2. unfold live. by rewrite Es.
    + pose proof (ok_entry _ _ _ Hok i Hi) as He. rewrite Ej2. unfold entry_ok in *. cbn. by rewrite Es in *.
    + intros j Hj _. by apply (ok_entry _ _ _ Hok2).
    + intros _. cbn. by rewrite Ej2, Hip.
  - split.
    + unfold a2. destruct (negb _); cbn; rewrite El; [exists [x; PbufFree (q (entry i a))]; rewrite <- app_assoc|exists [x]]; (split; [done|repeat constructor; try done; apply (HJ (PbufFree (q (entry i a))))]).
    + intros p Hp. rewrite delta_set by (done || apply Hok2). rewrite Ej2. cbn [q set_q].
      assert (delta p a1 = delta p a + (if kept =? p then 1 else 0)) as D1 by (unfold delta; rewrite El, Et, balance_app; cbn; rewrite Hx; lia).
      unfold a2. destruct (Z.eqb_spec (q (entry i a)) 0) as [E0|E0]; cbn [negb]; [rewrite D1, E0; destruct (Z.eqb_spec 0 p); lia|].
      rewrite delta_effect, D1. cbn. destruct (q (entry i a) =? p), (kept =? p); lia.
Qed.

Lemma query_ok n heard sub ip p a : arp_ok (fun _ => heard) sub a -> ((p, ip) ∈ sub) ->
  (forall dst age, heard !! ip = Some (dst, age) -> 0 <= age < ARP_MAXAGE -> J (Frame p dst)) ->
  let a' := (etharp_query env n ip p a).1 in arp_ok (fun _ => heard) sub a' /\ grows J a a'.
Proof using HJ.
  intros Hok Hsub HF. cbn zeta. unfold etharp_query. destruct (_ || _ || _); [split; [done|apply grows_refl]|].
  pose proof (find_ok (fun _ => heard) sub ip ETHARP_FLAG_TRY_HARD a Hok) as Hf. destruct (etharp_find_entry _ _ a) as [a1 [i|err]].
  2: { destruct Hf as [-> _]. split; [done|apply grows_refl]. }
  destruct Hf as (Hi & Hok1 & Hg1 & Hip & Hno & Hempty & _). set (new := bool_decide (state (entry i a1) = ETHARP_STATE_EMPTY)).
  set (a2 := if new then set_entry i (set_state ETHARP_STATE_PENDING) a1 else a1). pose proof (ok_table _ _ _ Hok1) as Hl1.
  assert (arp_ok (fun _ => heard) sub a2 /\ grows J a a2 /\ ipaddr (entry i a2) = ip /\ live (entry i a2)) as (Hok2 & Hg2 & Hip2 & Hlive2).
  { unfold a2, new. destruct (bool_decide_reflect (state (entry i a1) = ETHARP_STATE_EMPTY)) as [Es|Es]; [|done]. destruct (Hempty Es) as [Hq0 Hc0]. split; [|split; [|split]].
    - apply (ok_set (fun _ => heard)); [done|done|..].
      + intros j Hj Hn _ Hlj. cbn. rewrite Hip. by apply Hno.
      + unfold entry_ok. cbn. rewrite Hc0. unfold ARP_MAXPENDING. lia.
      + intros j Hj _. by apply (ok_entry _ _ _ Hok1).
      + cbn. by rewrite Hq0.
    - eapply grows_trans; [exact Hg1|by apply grows_same].
    - by rewrite entry_set, decide_True.
    - unfold live. by rewrite entry_set, decide_True. }
  clearbody a2. destruct (if new || (p =? 0) then etharp_request env n ip a2 else (a2, ERR_MEM)) as [a3 result] eqn:E3.
  assert (quiet a2 a3) as Hq3.
  { destruct (new || (p =? 0)); [|injection E3 as <- _; split; [done|split; [done|apply grows_refl]]]. pose proof (raw_quiet ethbroadcast (hwaddr n) (ip_addr n) ethzero ip ARP_REQUEST a2) as Hr.
    unfold etharp_request, etharp_request_dst in E3. by rewrite E3 in Hr. }
  pose proof (quiet_ok _ _ _ _ Hq3 Hok2) as Hok3. pose proof (quiet_entry _ _ i Hq3) as Ei. assert (grows J a a3) as Hg3 by (eapply grows_trans; [exact Hg2|apply Hq3]).
  destruct (Z.eqb_spec p 0) as [->|Hp]; [done|]. destruct (is_stable (state (entry i a3))) eqn:Es.
  - destruct (stable_ok heard _ Es (ok_entry _ _ _ Hok3 i Hi)) as (_ & Hh & Hc & _). rewrite Ei, Hip2 in Hh. rewrite Ei in Hc.
    assert (J (Frame p (ethaddr (entry i a3)))) as HJf by (rewrite Ei; by eapply HF). pose proof (output_quiet p _ (ETHARP_SET_ADDRHINT i a3) HJf) as Hq4.
    split; [apply (quiet_ok _ _ _ _ Hq4); by apply ok_hint|]. eapply grows_trans; [exact Hg3|]. destruct Hq4 as (_ & _ & Hq4). exact Hq4.
  - assert (state (entry i a3) = ETHARP_STATE_PENDING) as Esp by (rewrite <- Ei in Hlive2; unfold live in Hlive2; destruct (state (entry i a3)); done).
    unfold keep_packet. destruct (needs_copy env p).
    + destruct (Z.eqb_spec (clone env (asked a3)) 0) as [Ec|Ec]; [split; [by apply ok_answered|eapply grows_trans; [exact Hg3|apply grows_answered]]|].
      destruct (enqueue_ok heard sub ip i (clone env (asked a3)) (PbufClone p (clone env (asked a3))) a3 (answered (effect (PbufClone p (clone env (asked a3))) a3))) as [Hok4 Hg4]; try done.
      * by rewrite Ei.
      * apply (HJ (PbufClone p _)).
      * right. exists p. split; [cbn; set_solver|done].
      * split; [exact Hok4|]. eapply grows_trans; [exact Hg3|exact Hg4].
    + rewrite (proj2 (Z.eqb_neq p 0)) by done.
      destruct (enqueue_ok heard sub ip i p (PbufRef p) a3 (effect (PbufRef p) a3)) as [Hok4 Hg4]; try done.
      * by rewrite Ei.
      * apply (HJ (PbufRef p)).
      * by left.
      * split; [exact Hok4|]. eapply grows_trans; [exact Hg3|exact Hg4].
Qed.

Lemma output_ok n heard sub p ip a : arp_ok (fun _ => heard) sub a -> (forall d, destination n ip = Some d -> (p, d) ∈ sub) ->
  (forall d dst, (p, d) ∈ sub -> ip4_addr_isbroadcast d n = true /\ dst = ethbroadcast \/ (ip4_addr_isbroadcast d n = false /\ ip4_addr_ismulticast d = true /\ dst = mcastaddr d) \/
     (exists age, heard !! d = Some (dst, age) /\ 0 <= age < ARP_MAXAGE) -> J (Frame p dst)) ->
  let a' := (etharp_output env n p ip a).1 in arp_ok (fun _ => heard) sub a' /\ grows J a a'.
Proof using HJ.
  intros Hok Hsub HF. cbn zeta. unfold etharp_output, destination in *.
  destruct (ip4_addr_isbroadcast ip n) eqn:Eb; cbn [orb] in Hsub.
  { assert (quiet a (ethernet_output env p ethbroadcast a).1) as Hq by (apply output_quiet; eapply HF; [by apply Hsub|by left]). split; [by apply (quiet_ok _ _ _ _ Hq)|apply Hq]. }
  destruct (ip4_addr_ismulticast ip) eqn:Em; cbn [orb] in Hsub.
  { assert (quiet a (ethernet_output env p (mcastaddr ip) a).1) as Hq by (apply output_quiet; eapply HF; [by apply Hsub|right; by left]). split; [by apply (quiet_ok _ _ _ _ Hq)|apply Hq]. }
  destruct (next_hop n ip) as [d|]; [|split; [done|apply grows_refl]]. specialize (Hsub d eq_refl).
  assert (forall i, (i < ARP_TABLE_SIZE)%nat -> is_stable (state (entry i a)) = true -> ipaddr (entry i a) = d -> J (Frame p (ethaddr (entry i a)))) as Hst.
  { intros i Hi Hs Hip. destruct (stable_ok heard _ Hs (ok_entry _ _ _ Hok i Hi)) as (_ & Hh & Hc & _). rewrite Hip in Hh. eapply HF; [exact Hsub|]. right. right. by exists (ctime (entry i a)). }
  destruct (is_stable (state (entry (etharp_cached_entry a) a)) && (d =? ipaddr (entry (etharp_cached_entry a) a))) eqn:Ec.
  - apply andb_true_iff in Ec as [E1 E2]. apply Z.eqb_eq in E2. apply to_index_ok; try done; [apply Hok|]. apply Hst; [apply Hok|done|done].
  - destruct (find_stable d (arp_table a) 0) as [i|] eqn:Ei.
    + destruct (find_stable_spec _ _ _ _ Ei) as [_ (e & He & Hs & Hip)]. rewrite Nat.sub_0_r in He. assert (i < ARP_TABLE_SIZE)%nat as Hi by (apply lookup_lt_Some in He; by rewrite (ok_table _ _ _ Hok) in He).
      assert (entry i a = e) as Ee by (unfold entry; by rewrite He). rewrite <- Ee in *.
      destruct (to_index_ok n heard sub p i (ETHARP_SET_ADDRHINT i a) (ok_hint _ _ _ _ Hok Hi) Hi Hs) as [H1 H2]; [by apply Hst|]. split; [exact H1|exact H2].
    + apply query_ok; [done|done|]. intros dst age Hh Ha. eapply HF; [exact Hsub|]. right. right. by exists age.
Qed.

(** ** The timer and the clean-up *)
Lemma set_entry_ext i f g a : f (entry i a) = g (entry i a) -> set_entry i f a = set_entry i g a.
Proof. intros E. unfold set_entry. by rewrite E. Qed.
Lemma free_age i f a : length (arp_table a) = ARP_TABLE_SIZE -> (i < ARP_TABLE_SIZE)%nat -> (forall e, q (f e) = q e) ->
  (forall e, set_state ETHARP_STATE_EMPTY (set_q 0 (f e)) = f (set_state ETHARP_STATE_EMPTY (set_q 0 e))) -> (forall e, set_state ETHARP_STATE_EMPTY (f e) = f (set_state ETHARP_STATE_EMPTY e)) ->
  etharp_free_entry i (set_entry i f a) = set_entry i f (etharp_free_entry i a).
Proof.
  intros Hl Hi Hq Hc1 Hc2. unfold etharp_free_entry. rewrite (entry_set i i f a Hl Hi), decide_True, Hq by done. destruct (negb _).
  - change (effect (PbufFree (q (entry i a))) (set_entry i f a)) with (set_entry i f (effect (PbufFree (q (entry i a))) a)). set (a1 := effect (PbufFree (q (entry i a))) a).
    assert (length (arp_table a1) = ARP_TABLE_SIZE) as Hl1 by done. assert (forall g, length (arp_table (set_entry i g a1)) = ARP_TABLE_SIZE) as Hl2 by (intros g; unfold set_entry; cbn; by rewrite length_insert).
    rewrite !set_set by (done || apply Hl2). apply set_entry_ext. apply Hc1.
  - rewrite !set_set by done. apply set_entry_ext. apply Hc2.
Qed.
Lemma tick_entry_ok n heard sub i a : arp_ok (fun j => if (j <? i)%nat then (fun x => (x.1, x.2 + 1)) <$> heard else heard) sub a -> (i < ARP_TABLE_SIZE)%nat ->
  let a' := tmr_entry env n a i in
  arp_ok (fun j => if (j <? S i)%nat then (fun x => (x.1, x.2 + 1)) <$> heard else heard) sub a' /\ grows J a a'.
Proof using HJ.
  intros Hok Hi. cbn zeta. unfold tmr_entry. set (H := fun j => _) in Hok. set (H' := fun j => if (j <? S i)%nat then _ else _).
  pose proof (ok_table _ _ _ Hok) as Hl. pose proof (ok_entry _ _ _ Hok i Hi) as He.
  assert (H i = heard) as Ehi by (unfold H; by rewrite Nat.ltb_irrefl). assert (H' i = (fun x => (x.1, x.2 + 1)) <$> heard) as Ehi' by (unfold H'; by rewrite (proj2 (Nat.ltb_lt i (S i))) by lia).
  assert (forall j, j <> i -> H' j = H j) as Eh by (intros j Hj; unfold H, H'; destruct (Nat.ltb_spec j i), (Nat.ltb_spec j (S i)); done || lia).
  assert (forall g a1, arp_ok H sub a1 -> entry i a1 = entry i a -> ipaddr (g (entry i a)) = ipaddr (entry i a) -> q (g (entry i a)) = q (entry i a) -> (live (g (entry i a)) -> live (entry i a)) ->
    entry_ok (H' i) (g (entry i a)) -> arp_ok H' sub (set_entry i g a1) /\ grows J a1 (set_entry i g a1)) as Hset.
  { intros g a1 Hok1 E1 G1 G2 G3 G4. split; [|apply grows_same; [apply Hok1|done|by rewrite E1]]. apply (ok_set H); [done|done|..]; rewrite ?E1.
    - intros j Hj Hn Hg Hlj E. apply Hn. apply (ok_unique _ _ _ Hok1 j i Hj Hi Hlj); rewrite E1; [by apply G3|by rewrite <- G1].
    - done.
    - intros j Hj Hn. rewrite Eh by done. by apply (ok_entry _ _ _ Hok1).
    - rewrite G1, G2, <- E1. by apply (ok_waiting _ _ _ Hok1). }
  set (age := fun e => set_ctime (u16 (ctime e + 1)) e). destruct (decide (state (entry i a) = ETHARP_STATE_EMPTY)) as [Es|Es].
  { split; [|apply grows_refl]. destruct Hok as [A1 A2 A3 A4 A5]. constructor; try done. intros j Hj. destruct (decide (j = i)) as [->|Hn]; [|rewrite Eh by done; by apply A4].
    unfold entry_ok in *. by rewrite Es in *. }
  change (set_entry i (fun e => set_ctime (u16 (ctime e + 1)) e) a) with (set_entry i age a). rewrite (entry_set i i age a Hl Hi), decide_True by done.
  destruct (_ || _) eqn:Eexp.
  - rewrite (free_age i age a) by done. destruct (free_ok H sub i a Hok Hi) as (F1 & F2 & F3). split; [|eapply grows_trans; [exact F2|by apply grows_same; [apply F1|..]]].
    pose proof (F3 i) as Fi. rewrite decide_True in Fi by done. apply (ok_set H); [done|done|..].
    + intros j Hj Hn Hx. exfalso. apply Hx. by rewrite Fi.
    + unfold entry_ok. by rewrite Fi.
    + intros j Hj Hn. rewrite Eh by done. by apply (ok_entry _ _ _ F1).
    + by rewrite Fi.
  - apply orb_false_iff in Eexp as [Ea Ep]. change (ctime (age (entry i a))) with (u16 (ctime (entry i a) + 1)) in *. change (state (age (entry i a))) with (state (entry i a)) in *.
    rewrite Z.geb_leb in *. apply Z.leb_gt in Ea.
    assert (forall st, is_stable (state (entry i a)) = true -> is_stable st = true -> entry_ok (H' i) (set_state st (age (entry i a)))) as Hage.
    { intros st Hs Hst. rewrite Ehi in He. destruct (stable_ok heard _ Hs He) as (H1 & H2 & H3 & _). unfold ARP_MAXAGE in *. rewrite u16_small in Ea by lia. rewrite Ehi'.
      unfold entry_ok. cbn. rewrite u16_small by lia. destruct st; try done; (split; [done|split; [by rewrite lookup_fmap, H2|unfold ARP_MAXAGE; lia]]). }
    unfold live in Hset. destruct (state (entry i a)) eqn:Est; try done.
    + destruct (Hset age a Hok eq_refl) as [B1 B2]; try done.
      { unfold entry_ok in *. cbn. rewrite Est in *. cbn [andb] in Ep. rewrite bool_decide_true in Ep by done. cbn in Ep. apply Z.leb_gt in Ep. unfold ARP_MAXPENDING in *. rewrite u16_small in * by lia. lia. }
      pose proof (raw_quiet ethbroadcast (hwaddr n) (ip_addr n) ethzero (ipaddr (age (entry i a))) ARP_REQUEST (set_entry i age a)) as Hq. unfold etharp_request, etharp_request_dst.
      split; [by apply (quiet_ok _ _ _ _ Hq)|]. eapply grows_trans; [exact B2|apply Hq].
    + apply Hset; try done. specialize (Hage ETHARP_STATE_STABLE eq_refl eq_refl). unfold entry_ok in *. cbn in *. by rewrite Est.
    + rewrite set_set by done. apply (Hset (fun e => set_state ETHARP_STATE_STABLE_REREQUESTING_2 (age e))); try done. by apply Hage.
    + rewrite set_set by done. apply (Hset (fun e => set_state ETHARP_STATE_STABLE (age e))); try done. by apply Hage.
Qed.
Lemma ok_ext H H' sub a : (forall i, (i < ARP_TABLE_SIZE)%nat -> H i = H' i) -> arp_ok H sub a -> arp_ok H' sub a.
Proof. intros He [A1 A2 A3 A4 A5]. constructor; try done. intros i Hi. rewrite <- He by done. by apply A4. Qed.

Lemma tmr_ok n heard sub a : arp_ok (fun _ => heard) sub a ->
  arp_ok (fun _ => (fun x => (x.1, x.2 + 1)) <$> heard) sub (etharp_tmr env n a) /\ grows J a (etharp_tmr env n a).
Proof using HJ.
  intros Hok. unfold etharp_tmr.
  assert (forall k, (k <= ARP_TABLE_SIZE)%nat -> arp_ok (fun j => if (j <? k)%nat then (fun x => (x.1, x.2 + 1)) <$> heard else heard) sub (foldl (tmr_entry env n) a (seq 0 k)) /\
    grows J a (foldl (tmr_entry env n) a (seq 0 k))) as Hk.
  { induction k as [|k IH]; intros Hle; [split; [exact Hok|apply grows_refl]|]. destruct (IH ltac:(lia)) as [H1 H2]. rewrite seq_S, foldl_snoc.
    destruct (tick_entry_ok n heard sub k _ H1 ltac:(lia)) as [H3 H4]. split; [exact H3|by eapply grows_trans]. }
  destruct (Hk ARP_TABLE_SIZE (le_n _)) as [H1 H2]. split; [|exact H2]. eapply ok_ext; [|exact H1]. intros i Hi. cbn beta. by rewrite (proj2 (Nat.ltb_lt _ _)).
Qed.
Lemma cleanup_ok H sub a : arp_ok H sub a -> arp_ok H sub (etharp_cleanup_netif a) /\ grows J a (etharp_cleanup_netif a).
Proof using HJ.
  intros Hok. unfold etharp_cleanup_netif. assert (Forall (fun i => i < ARP_TABLE_SIZE)%nat (seq 0 ARP_TABLE_SIZE)) as Hl by (by repeat constructor).
  revert a Hok. induction Hl as [|i l Hi _ IH]; intros a Hok; cbn [foldl]; [split; [done|apply grows_refl]|].
  destruct (decide _); [by apply IH|]. destruct (free_ok H sub i a Hok Hi) as (F1 & F2 & _). destruct (IH _ F1) as [G1 G2]. split; [done|by eapply grows_trans].
Qed.
End arp.

(** ** Runs *)
Record History := mkHistory { g_arp : Arp; g_heard : Heard; g_submitted : Submitted; g_inputs : list Z }.
Definition g_start : History := mkHistory arp_start ∅ [] [].
(** An event happens while the interface is [x.1]. *)
Definition g_step (env : Env) (g : History) (x : Netif * Event) : History :=
  mkHistory (arp_step env x.1 x.2 (g_arp g)) (hear x.1 x.2 (g_heard g)) (submit x.1 x.2 (g_submitted g)) (take_in x.2 (g_inputs g)).
Definition g_run (env : Env) (xs : list (Netif * Event)) : History := foldl (g_step env) g_start xs.

Lemma submit_mono n ev sub : sub ⊆ submit n ev sub.
Proof. destruct ev as [p ip|p ip|p h| |]; cbn; [destruct (destination n ip)|..]; set_solver. Qed.

Lemma step_ok env n ev g : arp_ok (fun _ => g_heard g) (g_submitted g) (g_arp g) ->
  let g' := g_step env g (n, ev) in
  arp_ok (fun _ => g_heard g') (g_submitted g') (g_arp g') /\
  (exists new, log (g_arp g') = log (g_arp g) ++ new /\ Forall (justified n (g_heard g') (g_submitted g') (log (g_arp g))) new) /\
  forall p, p <> 0 -> delta p (g_arp g') + received p (g_inputs g') = delta p (g_arp g) + received p (g_inputs g).
Proof.
  intros Hok. cbn zeta. destruct g as [a heard sub inputs]. cbn [g_arp g_heard g_submitted g_inputs g_step fst snd] in *.
  set (J := justified n (hear n ev heard) (submit n ev sub) (log a)). assert (forall x, match x with Frame _ _ => True | _ => J x end) as HJ by (by intros []).
  pose proof (ok_sub _ _ _ _ Hok (submit_mono n ev sub)) as Hok'.
  destruct ev as [p ip|p ip|p h| |]; cbn [arp_step hear submit take_in] in *.
  - destruct (output_ok env J HJ n heard (match destination n ip with Some d => (p, d) :: sub | None => sub end) p ip a Hok') as (H1 & H2 & H3).
    + intros d ->. set_solver.
    + intros d dst Hd Hj. exists d. split; [by left|exact Hj].
    + split; [exact H1|]. split; [exact H2|]. intros x Hx. by rewrite H3.
  - destruct (query_ok env J HJ n heard ((p, ip) :: sub) ip p a Hok') as (H1 & H2 & H3); [set_solver| |].
    + intros dst age Hh Ha. exists ip. split; [left; set_solver|]. right. right. by exists age.
    + split; [exact H1|]. split; [exact H2|]. intros x Hx. by rewrite H3.
  - destruct (input_ok env J HJ n heard sub p h a Hok) as (H1 & H2 & H3).
    + intros x Hx Hv. exists (sipaddr h). split; [exact Hx|]. right. right. exists 0. unfold hear. rewrite Hv. rewrite lookup_insert_eq. split; [done|]. unfold ARP_MAXAGE. lia.
    + split; [exact H1|]. split; [exact H2|]. intros x Hx. rewrite H3 by done. unfold received. rewrite filter_cons. destruct (decide (p = x)) as [->|Hn]; [rewrite Z.eqb_refl; cbn; lia|].
      rewrite (proj2 (Z.eqb_neq p x)) by done. lia.
  - destruct (tmr_ok env J HJ n heard sub a Hok) as (H1 & H2 & H3). split; [exact H1|]. split; [exact H2|]. intros x Hx. by rewrite H3.
  - destruct (cleanup_ok J HJ (fun _ => heard) sub a Hok) as (H1 & H2 & H3). split; [exact H1|]. split; [exact H2|]. intros x Hx. by rewrite H3.
Qed.

Lemma start_ok : arp_ok (fun _ => ∅) [] arp_start /\ forall p, p <> 0 -> delta p arp_start = 0.
Proof.
  assert (forall i, entry i arp_start = no_entry) as Ei by (intros i; unfold entry, arp_start; cbn [arp_table]; destruct (replicate _ _ !! i) eqn:E; [by apply lookup_replicate in E as [-> _]|done]).
  split.
  - constructor; [done|cbn; unfold ARP_TABLE_SIZE; lia|..].
    + intros i j _ _ Hl. rewrite Ei in Hl. by destruct Hl.
    + intros i _. by rewrite Ei.
    + intros i _. by rewrite Ei.
  - intros p Hp. by destruct p.
Qed.

Lemma run_ok env xs : arp_ok (fun _ => g_heard (g_run env xs)) (g_submitted (g_run env xs)) (g_arp (g_run env xs)) /\
  forall p, p <> 0 -> delta p (g_arp (g_run env xs)) + received p (g_inputs (g_run env xs)) = 0.
Proof.
  unfold g_run. induction xs as [|[n ev] xs IH] using rev_ind; [split; [apply start_ok|]; intros p Hp; cbn; by rewrite (proj2 start_ok)|].
  rewrite foldl_snoc. destruct IH as [H1 H2]. destruct (step_ok env n ev _ H1) as (H3 & _ & H4). split; [exact H3|]. intros p Hp. by rewrite H4, H2.
Qed.

(** C4: packets are sent where the network said.  Over any history of
    packets to send, queries, received ARP packets, ticks and clean-ups, however
    the interface is configured at each and whatever memory and the driver
    answer, every frame of the next event carries a packet handed over for an
    address to the broadcast address, to the address of its group, or to the
    hardware address announced last for it, less than 300 ticks ago; every pbuf
    that the cache took a reference to or received is either waiting in the table
    or was freed exactly as often; no address is in the table twice; and an
    entry that is resolved is what was heard, with its age, one that is not is
    younger than 5 ticks. *)
Theorem arp_sends_as_heard env xs n ev :
  let g := g_run env xs in let g' := g_step env g (n, ev) in
  (exists new, log (g_arp g') = log (g_arp g) ++ new /\ Forall (justified n (g_heard g') (g_submitted g') (log (g_arp g))) new) /\
  (forall p, p <> 0 -> balance p (log (g_arp g')) + received p (g_inputs g') = waiting p (arp_table (g_arp g'))) /\
  (forall i j, (i < ARP_TABLE_SIZE)%nat -> (j < ARP_TABLE_SIZE)%nat -> live (entry i (g_arp g')) -> live (entry j (g_arp g')) ->
    ipaddr (entry i (g_arp g')) = ipaddr (entry j (g_arp g')) -> i = j) /\
  (forall i, (i < ARP_TABLE_SIZE)%nat -> entry_ok (g_heard g') (entry i (g_arp g'))).
Proof.
  cbn zeta. destruct (run_ok env xs) as [Hok Hd]. destruct (step_ok env n ev _ Hok) as (H1 & H2 & H3). split; [exact H2|]. split; [|split; [apply H1|apply H1]].
  intros p Hp. specialize (H3 p Hp). rewrite (Hd p Hp) in H3. unfold delta in H3. lia.
Qed.

(** A packet waits for 192.168.1.20 until the answer arrives. *)
Definition sample_netif : Netif := mkNetif 0xC0A8010A 0xFFFFFF00 0xC0A80101 1500 [2; 0; 0; 0; 0; 1] None 0x0F [].
Definition sample_answers : Env := mkEnv (fun _ => true) (fun _ => false) (fun _ => 0) (fun _ => ERR_OK).
Definition sample_reply : etharp_hdr := mkHdr 1 0x0800 6 4 ARP_REPLY [2; 0; 0; 0; 0; 9] 0xC0A80114 0xC0A8010A.

Lemma arp_sends_as_heard_witness :
  let g' := g_step sample_answers (g_run sample_answers [(sample_netif, EOutput 7 0xC0A80114); (sample_netif, ETick)]) (sample_netif, EInput 9 sample_reply) in
  balance 7 (log (g_arp g')) = 0 /\
  log (g_arp g') = [ArpOut ethbroadcast ARP_REQUEST [2; 0; 0; 0; 0; 1] 0xC0A8010A ethzero 0xC0A80114; PbufRef 7;
                    ArpOut ethbroadcast ARP_REQUEST [2; 0; 0; 0; 0; 1] 0xC0A8010A ethzero 0xC0A80114;
                    Frame 7 [2; 0; 0; 0; 0; 9]; PbufFree 7; DhcpArpReply 0xC0A80114; PbufFree 9].
Proof.
  destruct (arp_sends_as_heard sample_answers [(sample_netif, EOutput 7 0xC0A80114); (sample_netif, ETick)] sample_netif (EInput 9 sample_reply)) as (_ & Hb & _).
  specialize (Hb 7 ltac:(lia)). split; [|vm_compute; reflexivity]. revert Hb. vm_compute. done.
Defined.
