(* ===== verification/Ip4Addr.v ===== *)
(** * IPv4 addresses as text (ip4_addr.c)

    Characters are bytes.  A string is the memory from its first character on,
    so that a read behind its end is [None]; a buffer is a list of bytes, and a
    write outside of it is [None].  Here an address is the word that the code
    keeps, in network order: [lwip_htonl] of the number. *)

From S2P Require Import Prelude.
#[local] Open Scope Z_scope.

Definition PP_HTONL (x : Z) : Z :=
  Z.lor (Z.lor (Z.shiftl (Z.land x 0x000000ff) 24) (Z.shiftl (Z.land x 0x0000ff00) 8))
        (Z.lor (Z.shiftr (Z.land x 0x00ff0000) 8) (Z.shiftr (Z.land x 0xff000000) 24)).
Definition lwip_htonl (n : Z) : Z := PP_HTONL n.

Definition IPADDR_NONE : Z := 0xffffffff.
Definition IP4ADDR_STRLEN_MAX : Z := 16.

(** The classes of characters of ctype.h. *)
Definition lwip_in_range (c lo up : Z) : bool := (lo <=? c) && (c <=? up).
Definition lwip_isdigit (c : Z) : bool := lwip_in_range c 48 57.
Definition lwip_isxdigit (c : Z) : bool := lwip_isdigit c || lwip_in_range c 97 102 || lwip_in_range c 65 70.
Definition lwip_islower (c : Z) : bool := lwip_in_range c 97 122.
Definition lwip_isspace (c : Z) : bool := (c =? 32) || lwip_in_range c 9 13.

(** ** ip4_addr_netmask_valid *)

(** The loops over [mask], from bit [i - 1] down: where the first zero is, and
    whether there is no one from there on. *)
Fixpoint first_zero (nm_hostorder : Z) (i : nat) : nat :=
  match i with
  | O => O
  | S j => if Z.land nm_hostorder (Z.shiftl 1 (Z.of_nat j)) =? 0 then i else first_zero nm_hostorder j
  end.
Fixpoint no_one (nm_hostorder : Z) (i : nat) : bool :=
  match i with
  | O => true
  | S j => if negb (Z.land nm_hostorder (Z.shiftl 1 (Z.of_nat j)) =? 0) then false else no_one nm_hostorder j
  end.
Definition ip4_addr_netmask_valid (netmask : Z) : bool :=
  let nm_hostorder := lwip_htonl netmask in no_one nm_hostorder (first_zero nm_hostorder 32).

(** ** ip4addr_aton *)

(** The inner loop: the digits of a number, with the place where they end. *)
Fixpoint digits (base val : Z) (cp : list Z) : option (Z * list Z) :=
  match cp with
  | [] => None
  | c :: rest =>
    if lwip_isdigit c then digits base (u32 (u32 (val * base) + (c - 48))) rest
    else if (base =? 16) && lwip_isxdigit c then digits base (Z.lor (u32 (Z.shiftl val 4)) (c + 10 - (if lwip_islower c then 97 else 65))) rest
    else Some (val, cp)
  end.
(** The base from the first characters, and where the digits start. *)
Definition base_of (cp : list Z) : option (Z * list Z) :=
  c ← head cp;
  if c =? 48 then
    c ← head (tail cp);
    if (c =? 120) || (c =? 88) then Some (16, tail (tail cp)) else Some (8, tail cp)
  else Some (10, cp).
Definition number (cp : list Z) : option (Z * list Z) := '(base, cp) ← base_of cp; digits base 0 cp.
(** The outer loop, with [room] places left in [parts] before its last; the
    inner [None] is [return 0]. *)
Fixpoint collect (room : nat) (parts : list Z) (cp : list Z) : option (option (list Z * Z * list Z)) :=
  c ← head cp;
  if negb (lwip_isdigit c) then Some None
  else
    '(val, cp) ← number cp;
    c ← head cp;
    if c =? 46 then
      match room with
      | O => Some None
      | S room => collect room (parts ++ [val]) (tail cp)
      end
    else Some (Some (parts, val, cp)).
(** The number of the address, in host order. *)
Definition concoct (parts : list Z) (val : Z) : option Z :=
  match parts with
  | [] => Some val
  | [a] => if (val >? 0xffffff) || (a >? 0xff) then None else Some (Z.lor val (u32 (Z.shiftl a 24)))
  | [a; b] => if (val >? 0xffff) || (a >? 0xff) || (b >? 0xff) then None else Some (Z.lor val (Z.lor (u32 (Z.shiftl a 24)) (u32 (Z.shiftl b 16))))
  | [a; b; c] =>
    if (val >? 0xff) || (a >? 0xff) || (b >? 0xff) || (c >? 0xff) then None
    else Some (Z.lor val (Z.lor (Z.lor (u32 (Z.shiftl a 24)) (u32 (Z.shiftl b 16))) (u32 (Z.shiftl c 8))))
  | _ => Some val
  end.
(** The inner [None] is the result 0, else the address that is stored. *)
Definition ip4addr_aton (cp : list Z) : option (option Z) :=
  r ← collect 3 [] cp;
  match r with
  | None => Some None
  | Some (parts, val, cp) =>
    c ← head cp;
    if negb (c =? 0) && negb (lwip_isspace c) then Some None else Some (lwip_htonl <$> concoct parts val)
  end.
Definition ipaddr_addr (cp : list Z) : option Z := r ← ip4addr_aton cp; Some (default IPADDR_NONE r).

(** ** ip4addr_ntoa_r *)

(** The do-while loop that fills [inv], of which [room] characters are left. *)
Fixpoint invert (room : nat) (ap : Z) (inv : list Z) : option (list Z) :=
  match room with
  | O => None
  | S room =>
    let rem := ap mod 10 in
    let ap := ap / 10 in
    let inv := inv ++ [u8 (48 + rem)] in
    if negb (ap =? 0) then invert room ap inv else Some inv
  end.
(** A character is stored at [rp], which is at [len]; [inl]: NULL is returned. *)
Definition put_char (buflen c : Z) (r : list Z * Z) : option (list Z + list Z * Z) :=
  let (buf, len) := r in
  if len >=? buflen then Some (inl buf)
  else if decide (0 <= len < Z.of_nat (length buf)) then Some (inr (<[Z.to_nat len := c]> buf, len + 1)) else None.
Fixpoint put_chars (buflen : Z) (cs : list Z) (r : list Z * Z) : option (list Z + list Z * Z) :=
  match cs with
  | [] => Some (inr r)
  | c :: cs =>
    x ← put_char buflen c r;
    match x with inl buf => Some (inl buf) | inr r => put_chars buflen cs r end
  end.
(** The loop over the bytes of the address. *)
Fixpoint ntoa_loop (buflen : Z) (bytes : list Z) (r : list Z * Z) : option (list Z + list Z * Z) :=
  match bytes with
  | [] => Some (inr r)
  | ap :: bytes =>
    inv ← invert 3 ap [];
    x ← put_chars buflen (rev inv ++ [46]) r;
    match x with inl buf => Some (inl buf) | inr r => ntoa_loop buflen bytes r end
  end.
Definition bytes_of (addr : Z) : list Z := [u8 addr; u8 (Z.shiftr addr 8); u8 (Z.shiftr addr 16); u8 (Z.shiftr addr 24)].
(** The buffer afterwards, and whether it is returned; else NULL is. *)
Definition ip4addr_ntoa_r (addr : Z) (buf : list Z) (buflen : Z) : option (list Z * bool) :=
  x ← ntoa_loop buflen (bytes_of addr) (buf, 0);
  match x with
  | inl buf => Some (buf, false)
  | inr (buf, len) => if decide (1 <= len) then Some (<[Z.to_nat (len - 1) := 0]> buf, true) else None
  end.
(** [str]: the static buffer of the function. *)
Definition ip4addr_ntoa (addr : Z) (str : list Z) : option (list Z * bool) := ip4addr_ntoa_r addr str IP4ADDR_STRLEN_MAX.
