(* ===== verification/Ip4AddrSpec.v ===== *)
(** * IPv4 addresses are read and written as the dotted notation says *)

From S2P Require Import Prelude Ip4Addr.
#[local] Open Scope Z_scope.

(** ** The notation *)

Definition digit_value (c : Z) : Z := if lwip_isdigit c then c - 48 else if lwip_islower c then c - 87 else c - 55.
Definition horner (base : Z) (t : list Z) : Z := foldl (fun v c => v * base + digit_value c) 0 t.
Definition all_digits (t : list Z) : Prop := Forall (fun c => lwip_isdigit c = true) t.
Definition all_xdigits (t : list Z) : Prop := Forall (fun c => lwip_isxdigit c = true) t.

(** A number as the code reads it: decimal, or from a 0 on octal, or from 0x on
    hexadecimal; an octal number may hold the digits 8 and 9, and nothing need
    follow 0x. *)
Inductive numeral : list Z -> Z -> Prop :=
| decimal c t : all_digits (c :: t) -> c <> 48 -> numeral (c :: t) (horner 10 (c :: t))
| octal t : all_digits t -> numeral (48 :: t) (horner 8 t)
| hexadecimal x t : x = 120 \/ x = 88 -> all_xdigits t -> numeral (48 :: x :: t) (horner 16 t).

Fixpoint dots (ts : list (list Z)) : list Z :=
  match ts with
  | [] => []
  | [t] => t
  | t :: ts => t ++ 46 :: dots ts
  end.
(** The address of one to four numbers, each but the last one byte. *)
Definition address (vs : list Z) : option Z :=
  match vs with
  | [a] => Some a
  | [a; b] => if decide (a < 256 /\ b < 2 ^ 24) then Some (a * 2 ^ 24 + b) else None
  | [a; b; c] => if decide (a < 256 /\ b < 256 /\ c < 2 ^ 16) then Some (a * 2 ^ 24 + b * 2 ^ 16 + c) else None
  | [a; b; c; d] => if decide (a < 256 /\ b < 256 /\ c < 256 /\ d < 256) then Some (a * 2 ^ 24 + b * 2 ^ 16 + c * 2 ^ 8 + d) else None
  | _ => None
  end.
Definition ends (rest : list Z) : Prop := match rest with [] => True | c :: _ => lwip_isspace c = true end.
(** The string [s] denotes the address [a]; numbers are taken modulo 2^32. *)
Definition denotes (s : list Z) (a : Z) : Prop :=
  exists ts vs rest, s = dots ts ++ rest /\ Forall2 numeral ts vs /\ ends rest /\ address (u32 <$> vs) = Some a.

(** The text that is written. *)
Definition decimal_byte (n : Z) : list Z :=
  if n <? 10 then [48 + n] else if n <? 100 then [48 + n / 10; 48 + n mod 10] else [48 + n / 100; 48 + n / 10 mod 10; 48 + n mod 10].
Definition dotted (a : Z) : list Z :=
  dots [decimal_byte (a / 2 ^ 24); decimal_byte (a / 2 ^ 16 mod 256); decimal_byte (a / 2 ^ 8 mod 256); decimal_byte (a mod 256)].

(** ** Characters *)
Definition is_digit_of (base c : Z) : bool := lwip_isdigit c || ((base =? 16) && lwip_isxdigit c).
Definition stops (c : Z) : Prop := c = 0 \/ c = 46 \/ lwip_isspace c = true.

Ltac char_cases := unfold is_digit_of, stops, lwip_isxdigit, lwip_isdigit, lwip_isspace, lwip_islower, lwip_in_range in *.
Lemma space_bound c : lwip_isspace c = true -> 9 <= c <= 32.
Proof. char_cases. intros [H%Z.eqb_eq|H]%orb_prop; lia. Qed.
Lemma stops_bound c : stops c -> 0 <= c <= 46.
Proof. intros [->|[->|H%space_bound]]; lia. Qed.
Lemma stops_not_xdigit c : stops c -> lwip_isxdigit c = false.
Proof. intros H%stops_bound. char_cases. lia. Qed.
Lemma stops_not_digit_of base c : stops c -> is_digit_of base c = false.
Proof. intros H%stops_not_xdigit. unfold is_digit_of. rewrite H, andb_false_r. unfold lwip_isxdigit in H. by destruct (lwip_isdigit c). Qed.
Lemma digit_of_16 c : is_digit_of 16 c = lwip_isxdigit c.
Proof. unfold is_digit_of, lwip_isxdigit. by destruct (lwip_isdigit c). Qed.
Lemma digit_of_other base c : base <> 16 -> is_digit_of base c = lwip_isdigit c.
Proof. unfold is_digit_of. intros H%Z.eqb_neq. rewrite H. by rewrite orb_false_r. Qed.

(** ** Numbers *)
Lemma lor_add k h l : 0 <= k -> 0 <= l < 2 ^ k -> Z.lor (h * 2 ^ k) l = h * 2 ^ k + l.
Proof.
  intros Hk Hl. symmetry. apply Z.add_nocarry_lor. apply Z.bits_inj'. intros i Hi. rewrite Z.land_spec, Z.bits_0.
  destruct (decide (i < k)); [by rewrite Z.mul_pow2_bits_low by lia|]. apply andb_false_intro2.
  rewrite <- (Z.mod_small l (2 ^ k)) by lia. apply Z.mod_pow2_bits_high. lia.
Qed.
Lemma hex_digit_or v c : 0 <= v < 2 ^ 32 -> lwip_isxdigit c = true -> lwip_isdigit c = false ->
  Z.lor (u32 (Z.shiftl v 4)) (c + 10 - (if lwip_islower c then 97 else 65)) = u32 (v * 16 + digit_value c).
Proof.
  intros Hv Hx Hd. unfold digit_value. rewrite Hd.
  set (d := c + 10 - _). assert (0 <= d < 16 /\ (if lwip_islower c then c - 87 else c - 55) = d) as [Hr ->].
  { unfold d. char_cases. destruct ((97 <=? c) && (c <=? 122)) eqn:E; lia. }
  rewrite Z.shiftl_mul_pow2 by lia. unfold u32. change (2 ^ 4) with 16.
  assert (v * 16 mod 4294967296 = 16 * (v mod 268435456)) as -> by (Z.div_mod_to_equations; lia).
  assert ((v * 16 + d) mod 4294967296 = 16 * (v mod 268435456) + d) as -> by (Z.div_mod_to_equations; lia).
  assert (0 <= v mod 268435456) by (apply Z.mod_pos_bound; lia). generalize dependent (v mod 268435456). intros m Hm.
  rewrite (Z.mul_comm 16 m). apply (lor_add 4); lia.
Qed.

Lemma digits_run base t : forall val c rest, 0 <= val < 2 ^ 32 -> Forall (fun x => is_digit_of base x = true) t -> is_digit_of base c = false ->
  digits base val (t ++ c :: rest) = Some (u32 (foldl (fun v x => v * base + digit_value x) val t), c :: rest).
Proof.
  induction t as [|x t IH]; intros val c rest Hv Ht Hc; cbn [app digits foldl].
  - unfold is_digit_of in Hc. apply orb_false_elim in Hc as [-> ->]. rewrite u32_small by lia. done.
  - apply Forall_cons in Ht as [Hx Ht]. unfold is_digit_of in Hx. 
    assert (forall v w, u32 v = u32 w -> u32 (foldl (fun v x => v * base + digit_value x) v t) = u32 (foldl (fun v x => v * base + digit_value x) w t)) as Hcong.
    { clear. induction t as [|y t IH]; intros v w E; [done|]. cbn [foldl]. apply IH. unfold u32 in *.
      rewrite <- (Z.add_mod_idemp_l (v * base)), <- (Z.add_mod_idemp_l (w * base)) by lia. rewrite <- (Z.mul_mod_idemp_l v), <- (Z.mul_mod_idemp_l w) by lia. by rewrite E. }
    assert (forall z, 0 <= u32 z < 2 ^ 32) as Hb by (intros; unfold u32; apply Z.mod_pos_bound; lia).
    destruct (lwip_isdigit x) eqn:Ed.
    + rewrite IH by done. f_equal. f_equal. apply Hcong. unfold digit_value. rewrite Ed. unfold u32. rewrite Z.mod_mod by lia. rewrite Z.add_mod_idemp_l by lia. done.
    + apply andb_prop in Hx as [Hb16%Z.eqb_eq Hx]. subst base. rewrite Hx. cbn [andb Z.eqb Pos.eqb]. rewrite hex_digit_or by done. rewrite IH by done. f_equal. f_equal.
      apply Hcong. unfold u32. by rewrite Z.mod_mod.
Qed.

Lemma digits_of base t : base <> 16 -> all_digits t -> Forall (fun x => is_digit_of base x = true) t.
Proof. intros Hb Ht. apply (Forall_impl _ _ _ Ht). intros x Hx. by rewrite digit_of_other. Qed.
Lemma xdigits_of t : all_xdigits t -> Forall (fun x => is_digit_of 16 x = true) t.
Proof. intros Ht. apply (Forall_impl _ _ _ Ht). intros x Hx. by rewrite digit_of_16. Qed.

Lemma base_decimal c l : c <> 48 -> base_of (c :: l) = Some (10, c :: l).
Proof. intros H%Z.eqb_neq. unfold base_of. cbn. by rewrite H. Qed.
Lemma base_octal c l : c <> 120 -> c <> 88 -> base_of (48 :: c :: l) = Some (8, c :: l).
Proof. intros H%Z.eqb_neq G%Z.eqb_neq. unfold base_of. cbn. by rewrite H, G. Qed.
Lemma base_hex x l : x = 120 \/ x = 88 -> base_of (48 :: x :: l) = Some (16, l).
Proof. by intros [-> | ->]. Qed.

(** A digit character is not the [x] of 0x. *)
Lemma octal_next t c : all_digits t -> lwip_isxdigit c = false -> c <> 120 -> c <> 88 ->
  forall rest, exists y l, t ++ c :: rest = y :: l /\ y <> 120 /\ y <> 88.
Proof.
  intros Ht Hc H1 H2 rest. destruct t as [|y t]; [by exists c, rest|]. exists y, (t ++ c :: rest). apply Forall_cons in Ht as [Hy _].
  split; [done|]. char_cases. lia.
Qed.

(** A number is read to its end. *)
Lemma number_run t v c rest : numeral t v -> stops c -> number (t ++ c :: rest) = Some (u32 v, c :: rest).
Proof.
  intros Hn Hc. unfold number. destruct Hn as [d t Hd H48|t Hd|x t Hx Hd].
  - cbn [app]. rewrite base_decimal by done. cbn [mbind option_bind]. apply (digits_run 10 (d :: t) 0 c rest); [lia|by apply digits_of|by apply stops_not_digit_of].
  - assert (c <> 120 /\ c <> 88) as [H1 H2] by (apply stops_bound in Hc; lia).
    destruct (octal_next t c Hd (stops_not_xdigit _ Hc) H1 H2 rest) as (y & l & E & Hy1 & Hy2). cbn [app]. rewrite E.
    rewrite base_octal by done. rewrite <- E. cbn [mbind option_bind]. rewrite digits_run; [done|lia|by apply digits_of|by apply stops_not_digit_of].
  - cbn [app]. rewrite base_hex by done. cbn [mbind option_bind]. rewrite digits_run; [done|lia|by apply xdigits_of|by apply stops_not_digit_of].
Qed.

Lemma span (f : Z -> bool) s : f 0 = false -> forall beyond, exists t s' c rest,
  s = t ++ s' /\ Forall (fun x => f x = true) t /\ s' ++ 0 :: beyond = c :: rest /\ f c = false.
Proof.
  intros H0 beyond. induction s as [|x s (t & s' & c & rest & -> & Ht & E & Hc)]; [by exists [], [], 0, beyond|].
  destruct (f x) eqn:Ex; [exists (x :: t), s', c, rest|exists [], (x :: t ++ s'), x, ((t ++ s') ++ 0 :: beyond)]; split_and!; [done|by constructor|done..].
Qed.
Lemma digits_reads base s beyond : exists t s',
  s = t ++ s' /\ Forall (fun x => is_digit_of base x = true) t /\ (forall x l, s' = x :: l -> is_digit_of base x = false) /\
  digits base 0 (s ++ 0 :: beyond) = Some (u32 (horner base t), s' ++ 0 :: beyond).
Proof.
  destruct (span (is_digit_of base) s (stops_not_digit_of base 0 (or_introl eq_refl)) beyond) as (t & s' & c & rest & -> & Ht & E & Hc).
  exists t, s'. split_and!; [done..| |].
  - intros x l ->. by simplify_eq/=.
  - rewrite <- app_assoc, E. by rewrite digits_run by (done || lia).
Qed.
Lemma number_reads c s beyond : lwip_isdigit c = true -> exists t v s',
  c :: s = t ++ s' /\ numeral t v /\ number (c :: s ++ 0 :: beyond) = Some (u32 v, s' ++ 0 :: beyond).
Proof.
  intros Hc. unfold number. destruct (decide (c = 48)) as [->|Hn].
  - destruct s as [|x s0]; [exists [48], 0, []; split_and!; [done|exact (octal [] (List.Forall_nil _))|done]|].
    destruct (decide (x = 120 \/ x = 88)) as [Hx|Hx]; cbn [app].
    + destruct (digits_reads 16 s0 beyond) as (t & s' & -> & Ht & _ & E). exists (48 :: x :: t), (horner 16 t), s'.
      split_and!; [done| |by rewrite base_hex]. constructor; [done|]. apply (Forall_impl _ _ _ Ht). intros y. by rewrite digit_of_16.
    + destruct (digits_reads 8 (x :: s0) beyond) as (t & s' & Et & Ht & _ & E). exists (48 :: t), (horner 8 t), s'.
      split_and!; [by rewrite Et| |].
      * constructor. apply (Forall_impl _ _ _ Ht). intros y. by rewrite digit_of_other.
      * rewrite base_octal by tauto. exact E.
  - destruct (digits_reads 10 (c :: s) beyond) as (t & s' & Et & Ht & Hs & E). exists t, (horner 10 t), s'. split_and!; [done| |].
    + destruct t as [|d t]; [specialize (Hs c s (eq_sym Et)); rewrite digit_of_other in Hs by done; congruence|].
      simplify_eq/=. constructor; [|done]. apply (Forall_impl _ _ _ Ht). intros y. by rewrite digit_of_other.
    + rewrite base_decimal by done. exact E.
Qed.

(** ** The parts of an address *)
Lemma numeral_head t v rest : numeral t v -> exists c l, t ++ rest = c :: l /\ lwip_isdigit c = true.
Proof. intros [c t' Hd%Forall_cons _|t' _|x t' _ _]; eexists _, _; (split; [reflexivity|]); [apply Hd|done..]. Qed.

Lemma collect_run ts vs : Forall2 numeral ts vs -> ts <> [] -> forall room parts rest beyond, (length ts <= S room)%nat -> ends rest -> exists ps val,
  parts ++ (u32 <$> vs) = ps ++ [val] /\ collect room parts (dots ts ++ rest ++ 0 :: beyond) = Some (Some (ps, val, rest ++ 0 :: beyond)).
Proof.
  induction 1 as [|t v ts vs Hn Hts IH]; [done|]. intros _ room parts rest beyond Hr He.
  destruct Hts as [|t2 v2 ts vs Hn2 Hts].
  - exists parts, (u32 v). split; [done|]. cbn [dots]. destruct (numeral_head t v (rest ++ 0 :: beyond) Hn) as (c & l & E & Hc).
    assert (exists d l', rest ++ 0 :: beyond = d :: l' /\ stops d /\ d <> 46) as (d & l' & Ed & Hd & H46).
    { destruct rest as [|d rest]; [exists 0, beyond; split_and!; [done|by left|done]|exists d, (rest ++ 0 :: beyond)].
      cbn in He. split_and!; [done|by right; right|]. apply space_bound in He. lia. }
    rewrite Ed in *. destruct room; cbn [collect]; rewrite E; cbn [head mbind option_bind]; rewrite Hc; cbn [negb]; rewrite <- E;
      rewrite (number_run t v d l' Hn Hd); cbn [mbind option_bind head]; by rewrite (proj2 (Z.eqb_neq d 46)).
  - destruct room as [|room]; [cbn in Hr; lia|]. destruct (IH ltac:(done) room (parts ++ [u32 v]) rest beyond ltac:(cbn in *; lia) He) as (ps & val & Ep & Ec).
    exists ps, val. split; [rewrite <- Ep, <- app_assoc; done|].
    change (dots (t :: t2 :: ts)) with (t ++ 46 :: dots (t2 :: ts)). rewrite <- app_assoc. cbn [app].
    destruct (numeral_head t v (46 :: dots (t2 :: ts) ++ rest ++ 0 :: beyond) Hn) as (c & l & E & Hc).
    cbn [collect]. rewrite E. cbn [head mbind option_bind]. rewrite Hc. cbn [negb]. rewrite <- E.
    rewrite (number_run t v 46 _ Hn) by (right; by left). cbn [mbind option_bind head]. exact Ec.
Qed.

Lemma collect_reads s beyond : forall room parts, exists r, collect room parts (s ++ 0 :: beyond) = Some r /\
  forall ps val cp, r = Some (ps, val, cp) -> exists ts vs rest, ts <> [] /\ (length ts <= S room)%nat /\ s = dots ts ++ rest /\
    Forall2 numeral ts vs /\ parts ++ (u32 <$> vs) = ps ++ [val] /\ cp = rest ++ 0 :: beyond.
Proof.
  remember (length s) as n eqn:En. revert s En. induction (lt_wf n) as [n _ IH]. intros s -> room parts.
  destruct s as [|c s]; [exists None; split; [by destruct room|done]|]. 
  assert (collect room parts ((c :: s) ++ 0 :: beyond) = if negb (lwip_isdigit c) then Some None else
    '(val, cp) ← number (c :: s ++ 0 :: beyond); d ← head cp; if d =? 46 then match room with O => Some None | S room => collect room (parts ++ [val]) (tail cp) end else Some (Some (parts, val, cp))) as -> by (by destruct room).
  destruct (lwip_isdigit c) eqn:Hc; cbn [negb]; [|by exists None].
  destruct (number_reads c s beyond Hc) as (t & v & s' & Es & Hn & ->). cbn [mbind option_bind].
  assert (exists d l, s' ++ 0 :: beyond = d :: l) as (d & l & Ed) by (destruct s'; [by eexists _, _|by eexists _, _]). rewrite Ed. cbn [head mbind option_bind].
  destruct (d =? 46) eqn:E46.
  - apply Z.eqb_eq in E46 as ->. destruct s' as [|? s']; [by simplify_eq/=|]. simplify_eq/=.
    destruct room as [|room]; [by exists None|].
    destruct (IH (length s') ltac:(apply (f_equal length) in Es; rewrite ?length_app in Es; cbn in Es; lia) s' eq_refl room (parts ++ [u32 v])) as (r & -> & Hr).
    exists r. split; [done|]. intros ps val cp ->. destruct (Hr ps val cp eq_refl) as (ts & vs & rest & Hne & Hl & -> & HF & Hp & ->).
    exists (t :: ts), (v :: vs), rest. rewrite <- app_assoc in Hp. split_and!; [done|cbn; lia| |by constructor|exact Hp|done].
    rewrite Es. destruct ts as [|t2 ts]; [done|]. cbn [dots]. by rewrite <- app_assoc.
  - exists (Some (parts, u32 v, d :: l)). split; [done|]. intros ps val cp E. simplify_eq. exists [t], [v], s'. cbn. split_and!; [done|lia|done|by repeat constructor|done|by rewrite Ed].
Qed.

(** ** Words *)
Lemma land_byte x k : 0 <= k -> Z.land x (Z.shiftl 255 k) = (x / 2 ^ k mod 256) * 2 ^ k.
Proof.
  intros Hk. apply Z.bits_inj'. intros i Hi. rewrite Z.land_spec, Z.shiftl_spec by lia. change 255 with (Z.ones 8). change 256 with (2 ^ 8).
  destruct (decide (i < k)).
  - rewrite Z.mul_pow2_bits_low by lia. rewrite (Z.testbit_neg_r _ (i - k)) by lia. apply andb_false_r.
  - rewrite Z.mul_pow2_bits by lia. destruct (decide (i - k < 8)).
    + rewrite Z.ones_spec_low by lia. rewrite Z.mod_pow2_bits_low, Z.div_pow2_bits by lia. rewrite andb_true_r. f_equal. lia.
    + rewrite Z.ones_spec_high by lia. rewrite Z.mod_pow2_bits_high by lia. apply andb_false_r.
Qed.
Definition byte_at (a k : Z) : Z := a / 2 ^ k mod 256.
Lemma byte_at_range a k : 0 <= byte_at a k < 256.
Proof. apply Z.mod_pos_bound. lia. Qed.
Lemma htonl_bytes a : lwip_htonl a = byte_at a 0 * 2 ^ 24 + byte_at a 8 * 2 ^ 16 + byte_at a 16 * 2 ^ 8 + byte_at a 24.
Proof.
  unfold lwip_htonl, PP_HTONL. change 0xff with (Z.shiftl 255 0). change 0xff00 with (Z.shiftl 255 8). change 0xff0000 with (Z.shiftl 255 16). change 0xff000000 with (Z.shiftl 255 24).
  rewrite !land_byte by lia. fold (byte_at a 0) (byte_at a 8) (byte_at a 16) (byte_at a 24).
  pose proof (byte_at_range a 0). pose proof (byte_at_range a 8). pose proof (byte_at_range a 16). pose proof (byte_at_range a 24).
  generalize dependent (byte_at a 0). generalize dependent (byte_at a 8). generalize dependent (byte_at a 16). generalize dependent (byte_at a 24). intros b3 H3 b2 H2 b1 H1 b0 H0.
  rewrite !Z.shiftl_mul_pow2, !Z.shiftr_div_pow2 by lia.
  replace (b0 * 2 ^ 0 * 2 ^ 24) with (b0 * 2 ^ 24) by lia. replace (b1 * 2 ^ 8 * 2 ^ 8) with (b1 * 2 ^ 16) by lia.
  replace (b2 * 2 ^ 16 / 2 ^ 8) with (b2 * 2 ^ 8) by (Z.div_mod_to_equations; lia). replace (b3 * 2 ^ 24 / 2 ^ 24) with b3 by (Z.div_mod_to_equations; lia).
  rewrite (lor_add 24 b0 (b1 * 2 ^ 16)), (lor_add 8 b2 b3) by lia.
  replace (b0 * 2 ^ 24 + b1 * 2 ^ 16) with ((b0 * 2 ^ 8 + b1) * 2 ^ 16) by lia. rewrite lor_add by lia. lia.
Qed.
Lemma bytes_of_htonl a : 0 <= a < 2 ^ 32 -> bytes_of (lwip_htonl a) = [byte_at a 24; byte_at a 16; byte_at a 8; byte_at a 0].
Proof.
  intros Ha. rewrite htonl_bytes. unfold bytes_of, u8. rewrite !Z.shiftr_div_pow2 by lia.
  pose proof (byte_at_range a 0). pose proof (byte_at_range a 8). pose proof (byte_at_range a 16). pose proof (byte_at_range a 24).
  generalize dependent (byte_at a 0). generalize dependent (byte_at a 8). generalize dependent (byte_at a 16). generalize dependent (byte_at a 24). intros.
  repeat f_equal; Z.div_mod_to_equations; lia.
Qed.
Lemma word_bytes a : 0 <= a < 2 ^ 32 -> a = byte_at a 24 * 2 ^ 24 + byte_at a 16 * 2 ^ 16 + byte_at a 8 * 2 ^ 8 + byte_at a 0.
Proof. intros Ha. unfold byte_at. Z.div_mod_to_equations. lia. Qed.

(** ** ip4addr_aton *)
Lemma concoct_address ps val : (length ps <= 3)%nat -> Forall (fun v => 0 <= v) (ps ++ [val]) -> concoct ps val = address (ps ++ [val]).
Proof.
  intros Hl. destruct ps as [|a [|b [|c [|]]]]; cbn [app concoct address length] in *; [done|..|lia]; rewrite !Forall_cons; intros H; destruct_and?;
    case_decide as Hd; rewrite ?Z.gtb_ltb; repeat match goal with |- context [?x <? ?y] => destruct (Z.ltb_spec x y) end; cbn [orb]; try done; try lia; f_equal;
    unfold u32; rewrite !Z.shiftl_mul_pow2, !Z.mod_small by lia; rewrite Z.lor_comm.
  - rewrite lor_add by lia. lia.
  - rewrite (lor_add 24 a (b * 2 ^ 16)) by lia. replace (a * 2 ^ 24 + b * 2 ^ 16) with ((a * 2 ^ 8 + b) * 2 ^ 16) by lia. rewrite lor_add by lia. lia.
  - rewrite (lor_add 24 a (b * 2 ^ 16)) by lia. replace (a * 2 ^ 24 + b * 2 ^ 16) with ((a * 2 ^ 8 + b) * 2 ^ 16) by lia. rewrite (lor_add 16 _ (c * 2 ^ 8)) by lia.
    replace ((a * 2 ^ 8 + b) * 2 ^ 16 + c * 2 ^ 8) with ((a * 2 ^ 16 + b * 2 ^ 8 + c) * 2 ^ 8) by lia. rewrite lor_add by lia. lia.
Qed.
Lemma words_nonneg (vs : list Z) : Forall (fun v => 0 <= v) (u32 <$> vs).
Proof. apply Forall_fmap, Forall_true. intros v. unfold compose. pose proof (u32_range v). lia. Qed.
Lemma address_length vs a : address vs = Some a -> (0 < length vs <= 4)%nat.
Proof. destruct vs as [|? [|? [|? [|? [|]]]]]; cbn; try done; lia. Qed.

Lemma aton_reads s beyond : 0 ∉ s -> exists r, ip4addr_aton (s ++ 0 :: beyond) = Some r /\
  forall w, r = Some w <-> exists a, denotes s a /\ w = lwip_htonl a.
Proof.
  intros H0. destruct (collect_reads s beyond 3 []) as (r & E & Hr). unfold ip4addr_aton. rewrite E. cbn [mbind option_bind].
  assert (forall a, denotes s a -> exists ps val rest, r = Some (ps, val, rest ++ 0 :: beyond) /\ ends rest /\ concoct ps val = Some a) as Hd.
  { intros a (ts & vs & rest & -> & HF & He & Ha). pose proof (address_length _ _ Ha) as Hl. rewrite length_fmap in Hl. pose proof (Forall2_length _ _ _ HF) as Hl'.
    destruct (collect_run ts vs HF ltac:(by intros ->; cbn in *; lia) 3 [] rest beyond ltac:(lia) He) as (ps & val & Ep & Ec).
    rewrite <- app_assoc, Ec in E. simplify_eq. exists ps, val, rest. split_and!; [done..|]. cbn in Ep.
    rewrite concoct_address; [by rewrite <- Ep| |rewrite <- Ep; apply words_nonneg].
    apply (f_equal length) in Ep. rewrite length_app, length_fmap in Ep. cbn in Ep. lia. }
  destruct r as [[[ps val] cp]|].
  - destruct (Hr ps val cp eq_refl) as (ts & vs & rest & Hne & Hl & -> & HF & Ep & ->). cbn [app] in Ep.
    assert (concoct ps val = address (u32 <$> vs)) as Ec.
    { rewrite concoct_address; [by rewrite Ep| |rewrite <- Ep; apply words_nonneg].
      apply (f_equal length) in Ep. rewrite length_app, length_fmap in Ep. rewrite (Forall2_length _ _ _ HF) in Hl. cbn in Ep. lia. }
    assert (ends rest \/ exists c rest', rest = c :: rest' /\ c <> 0 /\ lwip_isspace c = false) as [He|(c & rest' & -> & Hc & Hs)].
    { destruct rest as [|c rest]; [by left|]. cbn. destruct (lwip_isspace c) eqn:Es; [by left|right]. exists c, rest. split_and!; [done| |done]. intros ->. set_solver. }
    + exists (lwip_htonl <$> address (u32 <$> vs)). split.
      * destruct rest as [|c rest]; cbn [app head mbind option_bind]; [by rewrite Ec|]. cbn in He. rewrite He, andb_false_r. by rewrite Ec.
      * intros w. split.
        -- intros (a & Hw & Ha)%fmap_Some. exists a. split; [|done]. by exists ts, vs, rest.
        -- intros (a & Ha & ->). destruct (Hd a Ha) as (ps' & val' & rest' & Eq & _ & Hc). simplify_eq. rewrite <- Ec, Hc. done.
    + exists None. split; [cbn [app head mbind option_bind]; by rewrite (proj2 (Z.eqb_neq c 0) Hc), Hs|].
      intros w. split; [done|]. intros (a & Ha & ->). destruct (Hd a Ha) as (ps' & val' & rest2 & Eq & He & _). simplify_eq.
      destruct rest2 as [|c2 rest2]; simplify_eq/=. congruence.
  - exists None. split; [done|]. intros w. split; [done|]. intros (a & Ha & ->). destruct (Hd a Ha) as (? & ? & ? & ? & _). done.
Qed.

(** ** The text of an address *)
Lemma by_bytes (f : Z -> bool) : forallb f (seqZ 0 256) = true -> forall n, 0 <= n < 256 -> f n = true.
Proof. intros H n Hn. rewrite forallb_forall in H. apply H. apply list_elem_of_In, elem_of_seqZ. lia. Qed.
Lemma invert_decimal n : 0 <= n < 256 -> invert 3 n [] = Some (rev (decimal_byte n)).
Proof.
  intros Hn. apply (bool_decide_eq_true_1 _). revert n Hn. apply (by_bytes (fun n => bool_decide (invert 3 n [] = Some (rev (decimal_byte n))))). vm_compute. reflexivity.
Qed.
Lemma decimal_length n : (length (decimal_byte n) <= 3)%nat.
Proof. unfold decimal_byte. repeat case_match; cbn; lia. Qed.
Definition canonical (n : Z) : bool :=
  match decimal_byte n with
  | [] => false
  | [48] => n =? 0
  | c :: t => forallb lwip_isdigit (c :: t) && negb (c =? 48) && (horner 10 (c :: t) =? n)
  end.
Lemma decimal_numeral n : 0 <= n < 256 -> numeral (decimal_byte n) n.
Proof.
  intros Hn. assert (canonical n = true) as H by (revert n Hn; apply by_bytes; vm_compute; reflexivity). unfold canonical in H.
  destruct (decimal_byte n) as [|c t]; [done|]. destruct (decide (c = 48 /\ t = [])) as [[-> ->]|Hne].
  - apply Z.eqb_eq in H as ->. exact (octal [] (List.Forall_nil _)).
  - assert (forallb lwip_isdigit (c :: t) && negb (c =? 48) && (horner 10 (c :: t) =? n) = true) as G.
    { destruct t; [|by destruct c as [|[]|]; repeat case_match]. repeat case_match; try done. by destruct Hne. }
    apply andb_prop in G as [[G1 G2%negb_true_iff%Z.eqb_neq]%andb_prop <-%Z.eqb_eq]. constructor; [|done].
    apply Forall_forall. intros x Hx. rewrite forallb_forall in G1. apply G1. by apply list_elem_of_In.
Qed.

Lemma put_chars_app buflen cs ds : forall r, put_chars buflen (cs ++ ds) r = x ← put_chars buflen cs r; match x with inl buf => Some (inl buf) | inr r => put_chars buflen ds r end.
Proof. induction cs as [|c cs IH]; intros r; [done|]. cbn [app put_chars]. destruct (put_char buflen c r) as [[buf|r']|]; cbn [mbind option_bind]; [done|apply IH|done]. Qed.
Lemma put_chars_text buflen cs : forall d r, Z.of_nat (length d) <= buflen <= Z.of_nat (length d + length r) ->
  put_chars buflen cs (d ++ r, Z.of_nat (length d)) =
    let m := (Z.to_nat buflen - length d)%nat in
    if (length cs <=? m)%nat then Some (inr (d ++ cs ++ drop (length cs) r, Z.of_nat (length d + length cs)))
    else Some (inl (d ++ take m cs ++ drop m r)).
Proof.
  cbn zeta. induction cs as [|c cs IH]; intros d r Hb; cbn [put_chars length].
  - cbn [Nat.leb app drop]. by rewrite Nat.add_0_r.
  - unfold put_char. destruct (Z.of_nat (length d) >=? buflen) eqn:E; rewrite Z.geb_leb in E.
    + apply Z.leb_le in E. replace (Z.to_nat buflen - length d)%nat with 0%nat by lia. done.
    + apply Z.leb_gt in E. rewrite decide_True by (rewrite length_app; lia). cbn [mbind option_bind].
      destruct r as [|x r]; [cbn in Hb; lia|]. rewrite Nat2Z.id, insert_app_r_alt, Nat.sub_diag by lia. cbn [insert list_insert].
      replace (d ++ c :: r) with ((d ++ [c]) ++ r) by (by rewrite <- app_assoc).
      replace (Z.of_nat (length d) + 1) with (Z.of_nat (length (d ++ [c]))) by (rewrite length_app; cbn; lia).
      rewrite IH by (rewrite length_app; cbn in *; lia). rewrite length_app. cbn [length].
      replace (Z.to_nat buflen - length d)%nat with (S (Z.to_nat buflen - (length d + 1))) by lia. cbn [Nat.leb take drop].
      rewrite <- !app_assoc. cbn [app]. replace (length d + 1 + length cs)%nat with (length d + S (length cs))%nat by lia. done.
Qed.

Lemma ntoa_loop_text buflen bs : Forall (fun b => 0 <= b < 256) bs -> forall r, ntoa_loop buflen bs r = put_chars buflen (concat ((fun b => decimal_byte b ++ [46]) <$> bs)) r.
Proof.
  induction 1 as [|b bs Hb _ IH]; intros r; [done|]. cbn [ntoa_loop fmap list_fmap concat]. rewrite invert_decimal by done. cbn [mbind option_bind].
  rewrite rev_involutive, (put_chars_app buflen (decimal_byte b ++ [46])). destruct (put_chars buflen (decimal_byte b ++ [46]) r) as [[buf|r']|]; cbn [mbind option_bind]; [done|apply IH|done].
Qed.
Lemma dotted_text a : 0 <= a < 2 ^ 32 -> concat ((fun b => decimal_byte b ++ [46]) <$> bytes_of (lwip_htonl a)) = dotted a ++ [46].
Proof.
  intros Ha. rewrite bytes_of_htonl by done. unfold byte_at, dotted. change (2 ^ 0) with 1. rewrite Z.div_1_r.
  rewrite (Z.mod_small (a / 2 ^ 24)) by (split; [apply Z.div_pos; lia|apply Z.div_lt_upper_bound; lia]).
  cbn [fmap list_fmap concat dots]. rewrite app_nil_r. by repeat (rewrite <- app_assoc; cbn [app]).
Qed.

Lemma ntoa_writes a buf buflen : 0 <= a < 2 ^ 32 -> 0 <= buflen <= Z.of_nat (length buf) ->
  ip4addr_ntoa_r (lwip_htonl a) buf buflen =
    if Z.of_nat (length (dotted a)) <? buflen then Some (dotted a ++ 0 :: drop (S (length (dotted a))) buf, true)
    else Some (take (Z.to_nat buflen) (dotted a) ++ drop (Z.to_nat buflen) buf, false).
Proof.
  intros Ha Hb. unfold ip4addr_ntoa_r. rewrite ntoa_loop_text by (repeat constructor; apply Z.mod_pos_bound; lia).
  rewrite dotted_text by done. pose proof (put_chars_text buflen (dotted a ++ [46]) [] buf ltac:(cbn; lia)) as E. cbn [app length] in E. change (Z.of_nat 0) with 0 in E. rewrite E. clear E.
  cbn zeta. rewrite Nat.sub_0_r, length_app. cbn [length]. destruct (Z.ltb_spec (Z.of_nat (length (dotted a))) buflen).
  - rewrite (proj2 (Nat.leb_le _ _)) by lia. cbn [mbind option_bind]. rewrite decide_True by lia. f_equal. f_equal.
    replace (Z.to_nat (Z.of_nat (0 + (length (dotted a) + 1)) - 1)) with (length (dotted a)) by lia. rewrite <- app_assoc, insert_app_r_alt, Nat.sub_diag by lia.
    cbn [insert list_insert app]. by rewrite Nat.add_comm.
  - rewrite (proj2 (Nat.leb_gt _ _)) by lia. cbn [mbind option_bind]. by rewrite take_app_le by lia.
Qed.

Lemma dotted_denotes a rest : 0 <= a < 2 ^ 32 -> ends rest -> denotes (dotted a ++ rest) a.
Proof.
  intros Ha He. exists [decimal_byte (a / 2 ^ 24); decimal_byte (a / 2 ^ 16 mod 256); decimal_byte (a / 2 ^ 8 mod 256); decimal_byte (a mod 256)],
    [a / 2 ^ 24; a / 2 ^ 16 mod 256; a / 2 ^ 8 mod 256; a mod 256], rest.
  assert (0 <= a / 2 ^ 24 < 256 /\ 0 <= a / 2 ^ 16 mod 256 < 256 /\ 0 <= a / 2 ^ 8 mod 256 < 256 /\ 0 <= a mod 256 < 256) as (H3 & H2 & H1 & H0) by (Z.div_mod_to_equations; lia).
  split_and!; [done|repeat constructor; by apply decimal_numeral|done|]. cbn [fmap list_fmap address]. rewrite !u32_small by lia. rewrite decide_True by lia. f_equal. Z.div_mod_to_equations; lia.
Qed.
Lemma dotted_length a : (length (dotted a) <= 15)%nat.
Proof.
  unfold dotted. cbn [dots]. rewrite !length_app. cbn [length]. rewrite !length_app. cbn [length]. rewrite !length_app. cbn [length].
  pose proof (decimal_length (a / 2 ^ 24)). pose proof (decimal_length (a / 2 ^ 16 mod 256)). pose proof (decimal_length (a / 2 ^ 8 mod 256)). pose proof (decimal_length (a mod 256)). lia.
Qed.
Lemma decimal_no_nul n : 0 <= n < 256 -> 0 ∉ decimal_byte n.
Proof. intros Hn. unfold decimal_byte. repeat case_match; rewrite !elem_of_cons, elem_of_nil; Z.div_mod_to_equations; lia. Qed.
Lemma dotted_no_nul a : 0 <= a < 2 ^ 32 -> 0 ∉ dotted a.
Proof.
  intros Ha. unfold dotted. cbn [dots]. rewrite !elem_of_app, !elem_of_cons, !elem_of_app, !elem_of_cons, !elem_of_app, !elem_of_cons.
  pose proof (decimal_no_nul (a / 2 ^ 24) ltac:(Z.div_mod_to_equations; lia)). pose proof (fun x => decimal_no_nul _ (Z.mod_pos_bound x 256 ltac:(lia))) as Hm.
  pose proof (Hm (a / 2 ^ 16)). pose proof (Hm (a / 2 ^ 8)). pose proof (Hm a). naive_solver.
Qed.

(** ** ip4_addr_netmask_valid *)
Lemma land_bit x j : (Z.land x (Z.shiftl 1 (Z.of_nat j)) =? 0) = negb (Z.testbit x (Z.of_nat j)).
Proof.
  rewrite Z.shiftl_1_l. destruct (Z.testbit x (Z.of_nat j)) eqn:E; cbn [negb].
  - apply Z.eqb_neq. intros H. apply (f_equal (fun y => Z.testbit y (Z.of_nat j))) in H.
    rewrite Z.land_spec, Z.pow2_bits_true, Z.bits_0, E in H by lia. done.
  - apply Z.eqb_eq. apply Z.bits_inj'. intros i Hi. rewrite Z.land_spec, Z.bits_0. destruct (decide (i = Z.of_nat j)) as [->|Hn]; [by rewrite E|].
    rewrite Z.pow2_bits_false by lia. apply andb_false_r.
Qed.
Lemma first_zero_spec x n : (first_zero x n <= n)%nat /\ (forall i, (first_zero x n <= i < n)%nat -> Z.testbit x (Z.of_nat i) = true) /\
  (first_zero x n <> O -> Z.testbit x (Z.of_nat (first_zero x n - 1)) = false).
Proof.
  induction n as [|n (H1 & H2 & H3)]; [split_and!; [done|lia|done]|]. cbn [first_zero]. rewrite land_bit.
  destruct (Z.testbit x (Z.of_nat n)) eqn:E; cbn [negb].
  - split_and!; [lia| |done]. intros i Hi. destruct (decide (i = n)) as [->|]; [done|apply H2; lia].
  - split_and!; [done|lia|]. intros _. by rewrite Nat.sub_1_r.
Qed.
Lemma no_one_spec x n : no_one x n = true <-> forall i, (i < n)%nat -> Z.testbit x (Z.of_nat i) = false.
Proof.
  induction n as [|n IH]; [split; [lia|done]|]. cbn [no_one]. rewrite land_bit, negb_involutive. destruct (Z.testbit x (Z.of_nat n)) eqn:E.
  - split; [done|]. intros H. rewrite (H n) in E by lia. done.
  - rewrite IH. split; intros H i Hi; [destruct (decide (i = n)) as [->|]; [done|]|]; apply H; lia.
Qed.
(** A mask is valid when its bits from some [k] on are ones and those below zeros. *)
Lemma netmask_valid_spec a : 0 <= a < 2 ^ 32 -> ip4_addr_netmask_valid (lwip_htonl a) = true <-> exists k, 0 <= k <= 32 /\ a = 2 ^ 32 - 2 ^ k.
Proof.
  intros Ha. unfold ip4_addr_netmask_valid. assert (lwip_htonl (lwip_htonl a) = a) as ->.
  { pose proof (bytes_of_htonl a Ha) as E. unfold bytes_of, u8 in E. rewrite !Z.shiftr_div_pow2 in E by lia. rewrite (htonl_bytes (lwip_htonl a)). unfold byte_at at 1 2 3 4.
    change (2 ^ 0) with 1. rewrite Z.div_1_r. injection E as -> -> -> ->. symmetry. by apply word_bytes. }
  assert (forall k i, 0 <= k <= 32 -> 0 <= i -> Z.testbit (2 ^ 32 - 2 ^ k) i = (k <=? i) && (i <? 32)) as Hbits.
  { intros k i Hk Hi. replace (2 ^ 32 - 2 ^ k) with (Z.shiftl (Z.ones (32 - k)) k).
    - rewrite Z.shiftl_spec by lia. destruct (Z.leb_spec k i); [|by rewrite Z.testbit_neg_r by lia]. cbn [andb].
      destruct (Z.ltb_spec i 32); [apply Z.ones_spec_low|apply Z.ones_spec_high]; lia.
    - rewrite Z.shiftl_mul_pow2, Z.ones_equiv by lia. replace 32 with (32 - k + k) at 2 by lia. rewrite Z.pow_add_r by lia. lia. }
  destruct (first_zero_spec a 32) as (H1 & H2 & H3). set (k := first_zero a 32) in *. rewrite no_one_spec. split.
  - intros Hz. exists (Z.of_nat k). split; [lia|]. apply Z.bits_inj'. intros i Hi. rewrite Hbits by lia.
    destruct (Z.leb_spec (Z.of_nat k) i); cbn [andb].
    + destruct (Z.ltb_spec i 32); [rewrite <- (Z2Nat.id i) by lia; apply H2; lia|].
      rewrite <- (Z.mod_small a (2 ^ 32)) by done. apply Z.mod_pow2_bits_high. lia.
    + rewrite <- (Z2Nat.id i) by lia. apply Hz. lia.
  - intros (j & Hj & Ea) i Hi. clearbody k. assert (k <> O) as Hk by lia. specialize (H3 Hk).
    rewrite Ea, Hbits in H3 by lia. rewrite Ea, Hbits by lia.
    apply andb_false_iff in H3 as [H3%Z.leb_gt|H3%Z.ltb_ge]; [|lia]. apply andb_false_iff. left. apply Z.leb_gt. lia.
Qed.

(** 4294967297 is taken for 0.0.0.1: the numbers wrap before they are compared. *)
Lemma aton_wraps : ip4addr_aton [52; 50; 57; 52; 57; 54; 55; 50; 57; 55; 0] = Some (Some (lwip_htonl 1)).
Proof. vm_compute. reflexivity. Qed.

(** C5: addresses are written and read as text without loss.  The text of an
    address goes to the buffer with its NUL when it fits, and only there, else as
    much as fits and NULL is returned; 16 characters are always enough.  What was
    written is read back, also before a space.  Any string that ends is read
    without an access behind its NUL, and accepted exactly when it is one to four
    numbers between dots that, taken modulo 2^32, fit their places, with nothing
    or a space behind.  The numbers are those of [numeral], which are more than
    those of C: decimal; from a 0 on octal, where the digits 8 and 9 also count
    (with the values 8 and 9); from 0x or 0X on hexadecimal, possibly without any
    digit (which is 0). *)
Theorem ip4_text_roundtrip a buf buflen s beyond :
  0 <= a < 2 ^ 32 -> 0 <= buflen <= Z.of_nat (length buf) -> 0 ∉ s ->
  (length (dotted a) < 16)%nat /\
  ip4addr_ntoa_r (lwip_htonl a) buf buflen =
    (if Z.of_nat (length (dotted a)) <? buflen then Some (dotted a ++ 0 :: drop (S (length (dotted a))) buf, true)
     else Some (take (Z.to_nat buflen) (dotted a) ++ drop (Z.to_nat buflen) buf, false)) /\
  (forall rest behind, ends rest -> 0 ∉ rest -> ip4addr_aton (dotted a ++ rest ++ 0 :: behind) = Some (Some (lwip_htonl a))) /\
  exists r, ip4addr_aton (s ++ 0 :: beyond) = Some r /\ forall w, r = Some w <-> exists a', denotes s a' /\ w = lwip_htonl a'.
Proof.
  intros Ha Hb Hs. split; [pose proof (dotted_length a); lia|]. split; [by apply ntoa_writes|]. split; [|by apply aton_reads].
  intros rest behind He Hr. destruct (aton_reads (dotted a ++ rest) behind) as (r & E & H).
  - rewrite elem_of_app. intros [Hd|Hd]; [by apply (dotted_no_nul a Ha)|done].
  - rewrite <- app_assoc in E. rewrite E. f_equal. apply H. exists a. split; [by apply dotted_denotes|done].
Qed.

(** 192.168.1.20, and "10.1", which is 10.0.0.1. *)
Lemma ip4_text_roundtrip_witness :
  ip4addr_ntoa_r (lwip_htonl 0xC0A80114) (replicate 16 0xAA) 16 =
    Some ([49; 57; 50; 46; 49; 54; 56; 46; 49; 46; 50; 48; 0; 0xAA; 0xAA; 0xAA], true) /\
  ip4addr_aton [49; 48; 46; 49; 0] = Some (Some (lwip_htonl 0x0A000001)) /\
  exists a, denotes [49; 48; 46; 49] a /\ lwip_htonl 0x0A000001 = lwip_htonl a.
Proof.
  destruct (ip4_text_roundtrip 0xC0A80114 (replicate 16 0xAA) 16 [49; 48; 46; 49] []) as (_ & E & _ & r & Er & H); [lia|cbn; lia|set_solver|].
  assert (r = Some (lwip_htonl 0x0A000001)) as -> by (revert Er; vm_compute; congruence). split; [rewrite E; vm_compute; reflexivity|]. split; [exact Er|].
  by apply H.
Defined.
